(* ===== verification/_CoqProject ===== *)
-Q . S2P
Prelude.v
Float32.v
ByteBuffer.v
ByteBufferFacts.v
Packets.v
Guid.v
UpdateMask.v
Util.v
ObjectValues.v
ObjectFacts.v
Timer.v
EventProcessor.v
EventFacts.v
Reputation.v
ReputationFacts.v
Formulas.v
Channel.v
ChannelFacts.v
ChannelServer.v
ChannelServerFacts.v
LootRoll.v
LootRollFacts.v
GroupData.v
Group.v
GroupServer.v
GroupFacts.v
GroupInv.v
GroupSteps.v
GroupWorlds.v
GroupRun.v
GroupBook.v
GroupOps.v
GroupLife.v
GroupHandlers.v
GroupSafety.v
GroupProps.v
ItemData.v
Inventory.v
InventoryStore.v
Trade.v
ItemFacts.v
ItemRun.v
PlanFacts.v
StoreFacts.v
StoreRun.v
StoreSpec.v
ItemMoves.v
Stock.v
ItemReads.v
TradeInv.v
TradeMoves.v
TradeRun.v
TradeAccept.v
TradeOffers.v
TradeSafety.v
TradeDemo.v
ItemProps.v
TradeProps.v
Field.v
DbcFile.v
DataStore.v
DbcFacts.v
DataStoreFacts.v
DataStoreProps.v
Utf8.v
Text.v
PlayerNames.v
TextProps.v
