(* ===== verification/Prelude.v ===== *)
(** * Axium server: a model of core components and their proofs

    Axium is a game server in C++. This development models components of its core on
    which the rest of the server builds, three subsystems of the game, chat channels,
    groups, and trades with the inventories they move items between, from the client packet
    to the database statement, and two inputs of the server: its data files and the texts
    and names of its clients. Paths are under src/src/server/ where they are not given in full.

    ** The parts and the code they model

    - [ByteBuffer], [ByteBufferFacts]: shared/Packets/ByteBuffer.h. The storage is the
      list of bytes, every operator is a program over positions and storage that may
      throw a [ByteBufferException]. Containers take the element operators as a [codec];
      [StreamLaw] is what a codec promises, and the laws of vectors and maps are derived
      from the laws of their elements.
    - [Packets]: what a handler may assume of the packet it gets, and that reading it
      never leaves its storage.
    - [Guid]: the packing macros of game/Entities/Object/ObjectDefines.h.
    - [UpdateMask]: game/Entities/Object/Updates/UpdateMask.h, the bits of the changed
      fields on the bytes of their array.
    - [Util]: the tokenizer of shared/Utilities/Util.cpp and the decimal text it is used
      with.
    - [Float32]: binary32 arithmetic, from the specification floats of the Standard
      Library; the base of the [float] code.
    - [ObjectValues], [ObjectFacts]: the update fields of an object,
      game/Entities/Object/Object.h and Object.cpp: the words, the mirror of changes, the
      set of objects the world updates, all getters and setters. It calls [UpdateMask],
      [Guid], [ByteBuffer] and [Util] as the code does.
    - [Timer]: shared/Utilities/Timer.h, one Module per timer.
    - [EventProcessor], [EventFacts]: shared/Utilities/EventProcessor.h and .cpp. Events
      are objects of a heap; their virtual methods are parameters and may add events
      while the queue is walked, which shifts the iterators of the caller.
    - [Reputation], [ReputationFacts]: game/Reputation/ReputationMgr.h and .cpp.
    - [Formulas]: game/Miscellaneous/Formulas.h, experience and honor.
    - [Channel], [ChannelFacts]: game/Chat/Channels/Channel.h and .cpp, a chat channel.
    - [ChannelServer], [ChannelServerFacts]: game/Chat/Channels/ChannelMgr.h and .cpp,
      game/Handlers/ChannelHandler.cpp and the channel list of
      game/Entities/Player/Player.cpp: the heap of channels, who points to it, and the
      client's requests as they arrive in packets.
    - [LootRoll], [LootRollFacts]: the rolls for items in game/Groups/Group.h and Group.cpp,
      with the loot of game/Loot/LootMgr.h: votes, dice, the winner.
    - [GroupData], [Group]: groups and raids, game/Groups/Group.h, Group.cpp, GroupMgr.h,
      GroupMgr.cpp and GroupReference.h, with the references of
      shared/Dynamic/LinkedReference/ and the group side of Player.cpp. A [World] holds the
      heap of groups, the players in the server with their pointers to it, the tables of
      the database and the group manager.
    - [GroupServer]: game/Handlers/GroupHandler.cpp, and the group part of log-in
      (CharacterHandler.cpp) and log-out (WorldSession.cpp).
    - [GroupFacts] to [GroupSafety]: their proofs, a file per layer. [GroupFacts] has the
      core of a world and the calm code that keeps it; [GroupInv] the invariant
      [world_ok]; [GroupSteps] and [GroupWorlds] the changes that keep it; [GroupRun] the
      rules [leads] and [moves] by which code is shown to make them; [GroupBook] the
      abstract specification; [GroupOps], [GroupLife] and [GroupHandlers] go through the
      operations of a group and the opcodes; [GroupSafety] is the server as a state machine.
    - [GroupProps]: the theorems on groups, with the runs that witness them.
    - [ItemData], [Inventory], [InventoryStore]: items, bags and inventories,
      game/Entities/Item/Item.cpp, Container/Bag.cpp and the inventory of
      game/Entities/Player/Player.cpp. A [World] holds the heap of items, the players with
      their arrays of pointers to items, the heap of trades and the counter of item guids.
      [Inventory] only looks: lookups, counts, and the plan [CanStoreItem] makes;
      [InventoryStore] carries plans out, takes items out and pays gold.
    - [Trade]: game/Handlers/TradeHandler.cpp, and [TradeData] of Player.cpp.
    - [ItemFacts] to [ItemReads]: the proofs on inventories. [ItemFacts] has the invariant
      [inv_ok] and the programs that only look; [ItemRun] programs up to what does not
      matter; [PlanFacts] the plans; [StoreFacts], [StoreRun] and [StoreSpec] what storing
      does to the positions; [ItemMoves], [Stock] and [ItemReads] what follows for moves,
      for how much of a kind somebody has and for lookups.
    - [TradeInv] to [TradeSafety]: the proofs on trades: the invariant, the moves of goods,
      each request, and the requests as a state machine; [TradeDemo] is a server to run.
    - [ItemProps], [TradeProps]: the theorems on inventories and trades.
    - [Field]: shared/Database/Field.h and Field.cpp, a column of a database row.
    - [DbcFile], [DataStore]: shared/DataStores/DBCFileLoader.h and .cpp, DBCStore.h, and
      [LoadDBC] of game/DataStores/DBCStores.cpp. [DbcFile] reads a file into the arrays of a
      loader; [DataStore] makes the table of it, with the rows the database adds and the texts
      of the languages. A table is one block of memory with an array of pointers into it and
      pools of strings.
    - [DbcFacts], [DataStoreFacts], [DataStoreProps]: the image of a table as a file, the
      table that is built from it, and the theorems.
    - [Utf8]: src/dep/utf8cpp/utf8/core.h and checked.h, with the facts on valid texts.
    - [Text]: the text functions of shared/Utilities/Util.h and Util.cpp over it.
    - [PlayerNames]: names of players, pets and charters, game/Globals/ObjectMgr.cpp.
    - [TextProps]: the theorems on texts and names.

    ** How the code is modelled

    A function of the code is a definition with the name it has there (a suffix tells
    overloads apart). It is a [prog S E A]: from a state to a result or an error, and the
    state it leaves, also when it ends in an error. The state is the object with its
    fields; packets sent and database statements run are a list of effects in the state.
    Objects that several places point to are in a heap, a finite map from addresses;
    using a pointer to an object that is gone is [Undefined], as is every other
    operation the language leaves undefined (an access outside an array, signed
    overflow, a shift by the width, a division by zero). A failed [ASSERT] is
    [AssertFailed]. Uninitialised members are the one exception: what a new [TradeData] finds
    in its [m_items] and [m_spellCastItem] is given by the parameter [uninitialised], any
    words, and reading them is no fault. Integers are [Z] with the wrap-around of their width written out
    ([uwrap], [swrap]). [std::map] and [std::set] are finite maps and sets, iterated in
    key order ([sorted_elems]); a [std::multimap] is a sorted list. The GUID of a player
    is its low part, since HIGHGUID_PLAYER is 0.

    What the code calls and this development does not model is a parameter of the
    sections: the sessions, the configuration and the stores ([Env] of [Channel], [GEnv] of
    [Group], [IEnv] of [Inventory]; [DEnv] of [DataStore] with the files, the answers of the
    database and [atof]; [NameConfig] of [PlayerNames]), the script hooks, the data tables.
    Channels and groups take the folding of names as a parameter, too: their theorems hold
    for any folding that returns. [PlayerNames] has the one the server uses, which does so for
    all names but those [normalize_memory] describes. Nothing is assumed of the parameters
    beyond what a theorem states as its hypothesis.

    ** What the theorems show

    - Memory safety: no client request and no log-out leaves a dangling pointer to a
      channel ([channel_server_safe]) or follows one to a deleted group
      ([group_server_safe]); no trade request follows one to a deleted trade or item
      ([trade_requests_safe]); parsing any packet stays inside its storage
      ([parse_memory_safe]); the event queue touches no deleted event
      ([update_runs_due_events], [kill_all_events]). For data files and names, where the code
      is not safe, the theorems say exactly which inputs are: [load_any_file], [wide_text],
      [normalize_memory].
    - Invariants over all sequences of operations: who is in which group, as slots,
      references, table and counters say it ([group_server_consistent]); the reputation
      counters and ranges; the owner flag of a channel; the change mirror of an object: no
      changed field is lost for the client, but for the queueing that [UpdateUInt32Value]
      leaves to its caller ([reputation_counters_correct], [owner_flag_only_on_owner],
      [no_lost_update]).
    - Refinement: the group server only ever makes the steps of a book of parties
      ([group_server_refines]): who enters, quits, leads, converts or moves. The update mask
      is a finite set; the queue is the sorted list of events.
    - Groups and loot in single steps: who is left and who leads after a member is removed
      ([RemoveMember_spec]), where a new member goes ([AddMember_spec]), that a lost
      connection costs no place ([relog_keeps_place]), who is told ([SendUpdate_lists]), who
      wins an item and what is paid, whatever the counters of the roll say
      ([CountTheRoll_spec], [EndRoll_settles]), when a vote ends a roll
      ([vote_decides_roll]), how one is opened ([GroupLoot_opens_roll]).
    - Items and gold: what the inventory accepts is stored whole and only there
      ([accepted_item_is_stored]), what is taken out leaves everything else alone
      ([taken_item_leaves], [taken_and_stored_again]), an accepted trade moves exactly what
      was offered or is declined for one of the reasons of the code
      ([accepted_trade_exchanges]), an offer that changes is no longer accepted
      ([changed_offer_unaccepts]), gold stays in its bounds ([money_stays_in_bounds]).
    - Permissions: what members, moderators and strangers cannot do to a channel
      ([owner_safe_from_members], [moderator_required], [join_refused]).
    - Data files and texts: a file is loaded as it was written and a file that ends early is
      refused ([file_is_loaded], [truncated_file_refused]); a language with at most as many
      records fills in the texts that are missing ([language_fills_gaps]); names fold together exactly when they differ in
      case ([normal_names]); the in-place and the shifted versions of a function are the plain
      ones ([strip_in_place], [hex_texts_agree]).
    - Round trips: maps and packed GUIDs through the stream, fields through text, a channel
      through its database row, a data file through the loader, a text through its wide
      form, a time through its text ([time_text_roundtrip]).
    - Functional behaviour: packets byte by byte ([initial_reputations_packet],
      [send_state_packet]), audiences, experience formulas.
    - Defects the model shows are theorems, too: a player who invites himself to a group
      and follows a pointer to the deleted one, a second vote that ends a roll, an owner
      who kicks himself, the offset 4 of [SetByteValue], an event that re-adds itself for
      the current time, a trade that gives an item back with once more the stacks planned
      for the other one ([roll_back_duplicates]),
      a trade that starts with an offer nobody made ([new_trade_offers_stale_memory]), a name
      of one letter that ends the process ([main_part_throws]); as lemmas, masks of different
      size, the clock wrap and insertion into an aborting queue, an index that wraps and a
      language with too many records.

    ** The group proofs

    An opcode changes membership in several steps and between them writes settings, packets
    and rows. [≡] relates worlds with the same core: references, slots, table, manager. A
    program [moves W p x W'] when from every world like [W] it returns [x] without a fault
    in a world like [W']; the rules of [GroupRun] follow the structure of the code, and
    calm steps disappear in them. Each change of the core is a definition on worlds
    ([GroupWorlds]), proved once to keep [world_ok] and to be a step of the book.
    [group_server_safe] and the two theorems beside it take requests as [allowed] says: from
    players in the server, in packets of bytes, and with no player who invites himself or
    accepts an invitation to a group he leads, or any when no group id is left. [self_invite_use_after_free] shows that the
    code needs this and does not guard it.

    ** The inventory and trade proofs

    [inv_ok] says that every item has a template and a count within its stack, is in one
    position at most, and knows its owner, its slot and its bag; that only bags are in the bag
    slots; and that guids are unique and below the counter of new ones. [≡] relates worlds
    with the same core (who has which items, gold and trade), and [runs w m Q] is total correctness: no fault, and a result and a world as
    [Q] says. The state between two calls of a trade is described by the positions it has
    filled ([filled]) and emptied ([removed]); [stock] sums the positions up.
    [trade_requests_safe] takes requests as [allowed] says (from players in the server, in
    packets of bytes, and while item guids last), and [memory_ok]: the uninitialised memory of
    a new trade does not hold one guid twice, since the handlers would then move one item
    twice. Item guids are 32 bits wide: a stored item needs at most [PLACES] = 534 new ones,
    one for each position of an inventory, and a request at most [HEADROOM] = 12 times that.

    ** The proofs on data files

    [image] writes a table as a file, and [table_ok] says which tables have one; the proofs go
    through the loops of the loader with the position in the block of structures as their
    measure, and [built] states what is in memory afterwards: the members of each structure at
    their positions, the pointer of each index, the pools. A member is written whole and read
    whole, so it is one cell at its position; the strings of a structure are the texts behind
    its pointers. Distances in memory are checked at every access.

    ** Fuel and bounds

    The loops that need fuel are those of the event queue, of [operator>>(std::string&)],
    of number printing, of [EndRoll] and of the search for a free database id.
    [update_runs_due_events] and [kill_all_events] prove that fuel beyond the length of the
    queue is enough; a string read takes its fuel from the unread length; 20 digits hold 64
    bits; [EndRoll] ends with the number of rolls ([EndRoll_settles]), the search for an id
    with the number of used ones; a text is read with its length as fuel ([distance_spec] has
    the result for every text), and a byte has two hexadecimal digits of the eight there may
    be. All other loops are structural. The channel theorems
    assume fewer than [2^32] members of a channel ([bounded]), since [GetNumPlayers] has 32
    bits.

    ** What is not modelled

    Allocation failure, threads and locks (the modelled code runs on the world thread),
    logging, and the sockets and database behind the effects. A packet the server builds
    is taken to stay below the ten million bytes [append] asserts. Of groups: the binds to
    instances, the queues of battlegrounds and the dungeon finder are effects; the packets
    of member statistics and the clean-up statements before [LoadGroups] are left out.
    Of inventories: the saving of items, auras, item durations and quests are effects;
    equipping, swapping, splitting, banking and destroying items are left out, and so is the
    check and the cast of a spell on the item that is not traded, which a parameter answers.
    Not part of the development at all: units, creatures, spells and movement, whose rules
    read each other's state in floating point; the packets of object updates, which depend
    on them; maps and grids, which hold every kind of entity; guilds, letters and the
    calendar, mostly database statements; scripts, which are content; the sockets, the
    database client, the collision geometry and the authentication server, which work
    through third-party libraries. *)

From Stdlib Require Import ZArith Lia.
From stdpp Require Export base numbers list gmap sorting.

#[export] Set Default Goal Selector "1".

Local Open Scope Z_scope.

(** ** Machine integers

    A [w]-bit unsigned integer is a [Z] in [0, 2^w); a conversion to it is
    [uwrap w]. A two's-complement integer is a [Z] in [-2^(w-1), 2^(w-1)); a
    conversion to it is [swrap w]. *)

Definition uwrap (w z : Z) : Z := (z mod 2 ^ w)%Z.

Definition swrap (w z : Z) : Z := ((z + 2 ^ (w - 1)) mod 2 ^ w - 2 ^ (w - 1))%Z.

Definition in_u (w z : Z) : Prop := (0 <= z < 2 ^ w)%Z.

Definition in_s (w z : Z) : Prop := (- 2 ^ (w - 1) <= z < 2 ^ (w - 1))%Z.

#[global] Arguments uwrap : simpl never.
#[global] Arguments swrap : simpl never.

(** Bit test of the sources' [flags & mask]. *)
Definition has_bits (flags mask : Z) : bool := negb (Z.land flags mask =? 0)%Z.

(** ** Programs that read and change a state and may fail

    [prog S E A] is a C++ function over an object of type [S]: it returns a
    value or ends with an error (an exception or the end of the process), and in
    both cases the object keeps the changes made so far. *)

Inductive outcome (E A : Type) : Type :=
| Ret (a : A)
| Throw (e : E).
Arguments Ret {E A} a.
Arguments Throw {E A} e.

Definition prog (S E A : Type) : Type := S → outcome E A * S.

#[export] Instance prog_ret {S E} : MRet (prog S E) := λ A a s, (Ret a, s).
#[export] Instance prog_bind {S E} : MBind (prog S E) := λ A B k m s,
  match m s with
  | (Ret a, s') => k a s'
  | (Throw e, s') => (Throw e, s')
  end.

(** A failed [ASSERT] of Errors.h ends the process; an access or a shift the
    language does not define is [Undefined]. *)
Inductive fault := AssertFailed | Undefined.

Definition assert_ {S} (c : bool) : prog S fault unit := λ s,
  if c then (Ret tt, s) else (Throw AssertFailed, s).

Definition throw {S E A} (e : E) : prog S E A := λ s, (Throw e, s).
Definition gets {S E A} (f : S → A) : prog S E A := λ s, (Ret (f s), s).
Definition modify {S E} (f : S → S) : prog S E unit := λ s, (Ret tt, f s).

(** Signed 32-bit arithmetic that overflows is undefined. *)
Definition int32 {S} (z : Z) : prog S fault Z :=
  if (- 2 ^ 31 <=? z) && (z <? 2 ^ 31) then mret z else throw Undefined.

Definition of_option {S A} (x : option A) : prog S fault A :=
  match x with Some a => mret a | None => throw Undefined end.

Lemma bind_ret_run {S E A B} (m : prog S E A) (k : A → prog S E B) s a s' :
  m s = (Ret a, s') → (m ≫= k) s = k a s'.
Proof. intros H. unfold mbind, prog_bind. by rewrite H. Qed.

Lemma bind_throw_run {S E A B} (m : prog S E A) (k : A → prog S E B) s e s' :
  m s = (Throw e, s') → (m ≫= k) s = (Throw e, s').
Proof. intros H. unfold mbind, prog_bind. by rewrite H. Qed.

(** ** Lists *)

Lemma filter_all {A} (P : A → Prop) `{∀ x, Decision (P x)} (l : list A) :
  (∀ x, x ∈ l → P x) → filter P l = l.
Proof.
  induction l as [|x l IH]; intros H0; [done|]. rewrite filter_cons_True by (apply H0; by left).
  f_equal. apply IH. intros y Hy. apply H0. by right.
Qed.

Lemma list_fmap_alter_same {A B} (h : A → B) f i (l : list A) : (∀ x, h (f x) = h x) → h <$> alter f i l = h <$> l.
Proof. intros Hf. revert i. induction l as [|x l IH]; intros [|i]; [done..| |]; cbn; f_equal; auto. Qed.

(** A key that occurs once in a list finds one element. *)
Lemma key_unique {A B} (h : A → B) (l : list A) x y : NoDup (h <$> l) → x ∈ l → y ∈ l → h x = h y → x = y.
Proof.
  intros Hnd [i Hi]%list_elem_of_lookup [j Hj]%list_elem_of_lookup He.
  assert (i = j) as ->; [|congruence]. apply (NoDup_lookup (h <$> l) i j (h x)); [done|..]; rewrite list_lookup_fmap.
  - by rewrite Hi.
  - rewrite Hj. simpl. by rewrite He.
Qed.

(** ** Iteration over an ordered map

    [std::map] is a [gmap]; its iterators run over [sorted_elems], the pairs in
    increasing key order. *)

Definition key_le {A} (x y : Z * A) : Prop := (x.1 <= y.1)%Z.

#[export] Instance key_le_dec {A} (x y : Z * A) : Decision (key_le x y).
Proof. unfold key_le. apply _. Defined.

#[export] Instance key_le_total {A} : Total (@key_le A).
Proof. intros x y. unfold key_le. lia. Qed.

#[export] Instance key_le_trans {A} : Transitive (@key_le A).
Proof. intros x y z. unfold key_le. lia. Qed.

Definition sorted_elems {A} (m : gmap Z A) : list (Z * A) :=
  merge_sort key_le (map_to_list m).

Lemma sorted_elems_perm {A} (m : gmap Z A) : sorted_elems m ≡ₚ map_to_list m.
Proof. apply merge_sort_Permutation. Qed.

Lemma elem_of_sorted_elems {A} (m : gmap Z A) k a :
  (k, a) ∈ sorted_elems m ↔ m !! k = Some a.
Proof. rewrite sorted_elems_perm. apply elem_of_map_to_list. Qed.

Lemma sorted_elems_sorted {A} (m : gmap Z A) : StronglySorted key_le (sorted_elems m).
Proof. apply (StronglySorted_merge_sort _). Qed.

Lemma NoDup_fst_sorted_elems {A} (m : gmap Z A) : NoDup ((sorted_elems m).*1).
Proof. rewrite sorted_elems_perm. apply NoDup_fst_map_to_list. Qed.

Lemma length_sorted_elems {A} (m : gmap Z A) : length (sorted_elems m) = size m.
Proof. rewrite sorted_elems_perm. apply length_map_to_list. Qed.

(** ** Facts on machine integers *)

Lemma uwrap_small w z : in_u w z → uwrap w z = z.
Proof. apply Z.mod_small. Qed.

Lemma uwrap_range w z : 0 <= w → in_u w (uwrap w z).
Proof. intros. apply Z.mod_pos_bound. apply Z.pow_pos_nonneg; lia. Qed.

Lemma uwrap_uwrap w z : uwrap w (uwrap w z) = uwrap w z.
Proof. apply Zmod_mod. Qed.

Lemma swrap_small w z : 0 < w → in_s w z → swrap w z = z.
Proof.
  intros Hw [Hl Hu]. unfold swrap.
  assert (2 ^ w = 2 * 2 ^ (w - 1)) as E.
  { rewrite <- Z.pow_succ_r by lia. f_equal. lia. }
  rewrite Z.mod_small; lia.
Qed.

Lemma swrap_range w z : 0 < w → in_s w (swrap w z).
Proof.
  intros Hw. unfold in_s, swrap.
  assert (2 ^ w = 2 * 2 ^ (w - 1)) as E.
  { rewrite <- Z.pow_succ_r by lia. f_equal. lia. }
  pose proof (Z.mod_pos_bound (z + 2 ^ (w - 1)) (2 ^ w)).
  assert (0 < 2 ^ (w - 1)) by (apply Z.pow_pos_nonneg; lia). lia.
Qed.

(** Reading back the two's-complement memory of a signed value. *)
Lemma swrap_uwrap w z : 0 < w → swrap w (uwrap w z) = swrap w z.
Proof. intros. unfold swrap, uwrap. by rewrite Zplus_mod_idemp_l. Qed.

Lemma testbit_uwrap w z j : 0 <= w → 0 <= j →
  Z.testbit (uwrap w z) j = (j <? w) && Z.testbit z j.
Proof.
  intros. unfold uwrap. destruct (Z.ltb_spec j w); simpl.
  - by rewrite Z.mod_pow2_bits_low.
  - by rewrite Z.mod_pow2_bits_high.
Qed.

Lemma testbit_in_u w z j : 0 <= w → in_u w z → w <= j → Z.testbit z j = false.
Proof.
  intros Hw Hz Hj. rewrite <- (uwrap_small w z Hz), testbit_uwrap by lia.
  by rewrite (proj2 (Z.ltb_ge j w)) by lia.
Qed.

Lemma testbit_pow2 i j : 0 <= i → Z.testbit (2 ^ i) j = (i =? j).
Proof.
  intros. destruct (Z.eqb_spec i j) as [->|Hne].
  - by apply Z.pow2_bits_true.
  - by apply Z.pow2_bits_false.
Qed.

Lemma has_bits_pow2 m i : 0 <= i → has_bits m (2 ^ i) = Z.testbit m i.
Proof.
  intros Hi. unfold has_bits. destruct (Z.testbit m i) eqn:E.
  - apply negb_true_iff, Z.eqb_neq. intros H0.
    apply (f_equal (λ z, Z.testbit z i)) in H0.
    rewrite Z.land_spec, E, testbit_pow2, Z.eqb_refl, Z.bits_0 in H0 by lia. done.
  - apply negb_false_iff, Z.eqb_eq. apply Z.bits_inj'. intros j Hj.
    rewrite Z.land_spec, testbit_pow2, Z.bits_0 by lia.
    destruct (Z.eqb_spec i j) as [->|]; [by rewrite E|by rewrite andb_false_r].
Qed.

Create HintDb machine_int.
Create Rewrite HintDb machine_int.
#[export] Hint Resolve uwrap_range swrap_range : machine_int.
#[export] Hint Rewrite uwrap_uwrap : machine_int.

(** ** Automation *)

(** Evaluates the integer comparisons of the goal that [lia] decides. *)
Ltac decide_cmp :=
  repeat match goal with
  | |- context [Z.ltb ?a ?b] =>
      first [rewrite (proj2 (Z.ltb_lt a b)) by lia | rewrite (proj2 (Z.ltb_ge a b)) by lia]
  | |- context [Z.leb ?a ?b] =>
      first [rewrite (proj2 (Z.leb_le a b)) by lia | rewrite (proj2 (Z.leb_gt a b)) by lia]
  | |- context [Z.eqb ?a ?b] =>
      first [rewrite (proj2 (Z.eqb_eq a b)) by lia | rewrite (proj2 (Z.eqb_neq a b)) by lia]
  end; simpl negb; cbv iota.

(** Splits on the integer comparisons of the goal. *)
Ltac case_cmp :=
  match goal with
  | |- context [Z.ltb ?a ?b] => destruct (Z.ltb_spec a b)
  | |- context [Z.leb ?a ?b] => destruct (Z.leb_spec a b)
  | |- context [Z.eqb ?a ?b] => destruct (Z.eqb_spec a b)
  end.

(** Replaces the powers of two with a literal exponent by their values. *)
Ltac pow_consts :=
  repeat match goal with
  | |- context [Z.pow 2 (Zpos ?p)] =>
      let v := eval vm_compute in (Z.pow 2 (Zpos p)) in change (Z.pow 2 (Zpos p)) with v
  | H : context [Z.pow 2 (Zpos ?p)] |- _ =>
      let v := eval vm_compute in (Z.pow 2 (Zpos p)) in change (Z.pow 2 (Zpos p)) with v in H
  end.

(** Linear arithmetic with division and remainder by constants. *)
Ltac div_lia := pow_consts; Z.to_euclidean_division_equations; lia.

(** Decides a closed goal by evaluation. *)
Ltac by_decide := apply (bool_decide_unpack _); vm_compute; exact I.
