(* ===== verification/Float32.v ===== *)
(** * Float32: the [float] arithmetic the game formulas use

    An IEEE 754 binary32 value is a [spec_float] with 24 bits of precision and
    exponents up to 128, and every operation rounds to nearest even, as the SSE
    code of a [float] expression does. Conversions to an integer type are
    undefined in C++ when the truncated value does not fit: they return [option]. *)

From Stdlib Require Import ZArith Lia Floats.SpecFloat.
From S2P Require Import Prelude.
Local Open Scope Z_scope.

Definition float := spec_float.

Definition f_add (x y : float) : float := SFadd 24 128 x y.
Definition f_mul (x y : float) : float := SFmul 24 128 x y.
Definition f_div (x y : float) : float := SFdiv 24 128 x y.

(** Conversion of an integer to [float]. *)
Definition f_of_Z (z : Z) : float := binary_normalize 24 128 z 0 false.

(** A decimal literal [n / d] with exactly representable [n] and [d]. *)
Definition f_lit (n d : Z) : float := f_div (f_of_Z n) (f_of_Z d).

Definition f_neg (x : float) : float := SFopp x.

Definition f_eqb (x y : float) : bool := SFeqb x y.

Definition f_ltb (x y : float) : bool := SFltb x y.

(** The mathematical [floor] and truncation of a finite value. *)
Definition f_floor (x : float) : option Z :=
  match x with
  | S754_zero _ => Some 0
  | S754_finite s m e =>
    let z := if s then - Z.pos m else Z.pos m in Some (Z.shiftl z e)
  | _ => None
  end.

Definition f_trunc (x : float) : option Z :=
  match x with
  | S754_zero _ => Some 0
  | S754_finite s m e =>
    let a := Z.shiftl (Z.pos m) e in Some (if s then - a else a)
  | _ => None
  end.

(** The mathematical [ceil]. *)
Definition f_ceil (x : float) : option Z := Z.opp <$> f_floor (f_neg x).

Definition fits (lo hi : Z) (z : option Z) : option Z :=
  z ≫= λ z, if (lo <=? z) && (z <? hi) then Some z else None.

(** [int32(x)] and [uint32(x)] for a [float] [x]. *)
Definition f_to_i32 (x : float) : option Z := fits (- 2 ^ 31) (2 ^ 31) (f_trunc x).
Definition f_to_u32 (x : float) : option Z := fits 0 (2 ^ 32) (f_trunc x).

(** ** Memory *)

Definition f_of_bits (b : Z) : float :=
  let s := Z.testbit b 31 in
  let e := Z.land (Z.shiftr b 23) 255 in
  let m := Z.land b (2 ^ 23 - 1) in
  if e =? 255 then (if m =? 0 then S754_infinity s else S754_nan)
  else if e =? 0 then
    match m with Z.pos p => S754_finite s p (-149) | _ => S754_zero s end
  else
    match m + 2 ^ 23 with Z.pos p => S754_finite s p (e - 150) | _ => S754_nan end.

Definition f_to_bits (x : float) : Z :=
  let sign (s : bool) := if s then 2 ^ 31 else 0 in
  match x with
  | S754_zero s => sign s
  | S754_infinity s => sign s + Z.shiftl 255 23
  | S754_nan => 0x7FC00000
  | S754_finite s m e =>
    sign s + if Z.pos m <? 2 ^ 23 then Z.pos m
             else Z.shiftl (e + 150) 23 + (Z.pos m - 2 ^ 23)
  end.

Example f_lit_bits : f_to_bits (f_lit 155 100) = 0x3FC66666.
Proof. reflexivity. Qed.

Example f_of_bits_roundtrip : f_to_bits (f_of_bits 0x3FC66666) = 0x3FC66666.
Proof. reflexivity. Qed.

Example f_mul_rounds : f_to_bits (f_mul (f_of_Z 16777217) (f_lit 1 10)) = 0x49CCCCCD.
Proof. reflexivity. Qed.

Example f_floor_neg : f_floor (f_lit (-5) 2) = Some (-3).
Proof. reflexivity. Qed.

Example f_trunc_neg : f_trunc (f_lit (-5) 2) = Some (-2).
Proof. reflexivity. Qed.
