(* ===== verification/ByteBuffer.v ===== *)
(** * ByteBuffer: the packet buffer of src/src/server/shared/Packets/ByteBuffer.h

    The storage is the list of the bytes of the [std::vector<uint8>], positions
    are 64-bit [size_t] values. Every operation is a [prog] over the buffer, since
    a read that throws keeps the reads made before it. The server builds with the
    little-endian branch of ByteConverter.h, where [EndianConvert] does nothing, so
    the memory of an integer is [le_bytes]. A [float] or a [double] is written and
    read as the 32 or 64 bits of its memory. Capacity ([reserve]) is not part of
    the state, and allocation failure is not modelled. *)

From Stdlib Require Import ZArith Lia.
From S2P Require Import Prelude Float32.
Local Open Scope Z_scope.

Record ByteBuffer := mkBuffer {
  _rpos : Z;
  _wpos : Z;
  _storage : list Z
}.

(** A [ByteBufferException], a failed [ASSERT] (which ends the process), or an
    access outside the storage, which the language leaves undefined. *)
Inductive bb_error :=
| ByteBufferException (add : bool) (pos esize size : Z)
| AssertionFailed
| UndefinedAccess.

Abbreviation bb := (prog ByteBuffer bb_error).

(** ** Memory of an integer *)

Fixpoint le_bytes (n : nat) (v : Z) : list Z :=
  match n with
  | O => []
  | S n => v mod 256 :: le_bytes n (v / 256)
  end.

Fixpoint le_val (bs : list Z) : Z :=
  match bs with
  | [] => 0
  | b :: bs => b + 256 * le_val bs
  end.

(** [memcpy(&l[pos], bs, len bs)] inside [l]. *)
Definition splice (l : list Z) (pos : nat) (bs : list Z) : list Z :=
  take pos l ++ bs ++ drop (pos + length bs) l.

(** ** Construction, size and positions *)

Definition size (b : ByteBuffer) : Z := Z.of_nat (length (_storage b)).

Definition empty_buffer : ByteBuffer := mkBuffer 0 0 [].

Definition clear : bb unit := modify (λ _, mkBuffer 0 0 []).

Definition empty (b : ByteBuffer) : bool := match _storage b with [] => true | _ => false end.

Definition set_rpos (rpos_ : Z) : bb Z := λ b,
  (Ret rpos_, mkBuffer rpos_ (_wpos b) (_storage b)).

Definition rfinish : bb unit := modify (λ b, mkBuffer (_wpos b) (_wpos b) (_storage b)).

Definition set_wpos (wpos_ : Z) : bb Z := λ b,
  (Ret wpos_, mkBuffer (_rpos b) wpos_ (_storage b)).

(** [std::vector::resize]: truncates, or fills with zero bytes. *)
Definition vector_resize (l : list Z) (n : nat) : list Z :=
  take n l ++ replicate (n - length l) 0.

Definition resize (newsize : Z) : bb unit := modify (λ b,
  mkBuffer 0 newsize (vector_resize (_storage b) (Z.to_nat newsize))).

(** ** Writing *)

(** [append(const uint8* src, size_t cnt)] with the [cnt] bytes of [src]. *)
Definition append_bytes (src : list Z) : bb unit := λ b,
  let cnt := Z.of_nat (length src) in
  if cnt =? 0 then (Ret tt, b)
  else if negb (size b <? 10000000) then (Throw AssertionFailed, b)
  else
    let needed := uwrap 64 (_wpos b + cnt) in
    let st := if size b <? needed then vector_resize (_storage b) (Z.to_nat needed)
              else _storage b in
    if Z.of_nat (length st) <? _wpos b + cnt then
      (Throw UndefinedAccess, mkBuffer (_rpos b) (_wpos b) st)
    else
      (Ret tt, mkBuffer (_rpos b) needed (splice st (Z.to_nat (_wpos b)) src)).

(** [append<T>(T value)] for a [T] of [n] bytes. *)
Definition append (n : nat) (value : Z) : bb unit := append_bytes (le_bytes n value).

(** [append(const ByteBuffer& buffer)]: its first [wpos()] bytes. *)
Definition append_buffer (buffer : ByteBuffer) : bb unit :=
  if _wpos buffer =? 0 then mret tt
  else if size buffer <? _wpos buffer then throw UndefinedAccess
  else append_bytes (take (Z.to_nat (_wpos buffer)) (_storage buffer)).

(** [append(const std::string& str)]: the characters and the final zero. *)
Definition append_string (str : list Z) : bb unit := append_bytes (str ++ [0]).

(** [append(const char* src, size_t cnt)]. *)
Definition append_chars (src : list Z) : bb unit := append_bytes src.

(** [append(const T* src, size_t cnt)] with the [cnt] values of [src]. *)
Definition append_array (n : nat) (src : list Z) : bb unit := append_bytes (src ≫= le_bytes n).

(** [put(size_t pos, const uint8* src, size_t cnt)]. *)
Definition put_bytes (pos : Z) (src : list Z) : bb unit := λ b,
  let cnt := Z.of_nat (length src) in
  if size b <? uwrap 64 (pos + cnt) then
    (Throw (ByteBufferException true pos cnt (size b)), b)
  else if size b <? pos + cnt then (Throw UndefinedAccess, b)
  else (Ret tt, mkBuffer (_rpos b) (_wpos b) (splice (_storage b) (Z.to_nat pos) src)).

(** [put<T>(size_t pos, T value)]. *)
Definition put (n : nat) (pos value : Z) : bb unit := put_bytes pos (le_bytes n value).

(** The overloads of [operator<<]. *)
Definition put_u8 (value : Z) : bb unit := append 1 value.
Definition put_u16 (value : Z) : bb unit := append 2 value.
Definition put_u32 (value : Z) : bb unit := append 4 value.
Definition put_u64 (value : Z) : bb unit := append 8 value.
Definition put_i8 (value : Z) : bb unit := append 1 value.
Definition put_i16 (value : Z) : bb unit := append 2 value.
Definition put_i32 (value : Z) : bb unit := append 4 value.
Definition put_i64 (value : Z) : bb unit := append 8 value.
Definition put_float (bits : Z) : bb unit := append 4 bits.
Definition put_double (bits : Z) : bb unit := append 8 bits.

Definition put_string (value : list Z) : bb unit :=
  append_bytes value ;; append 1 0.

(** [operator<<(const char *str)]: [None] is the null pointer, a C string is
    cut at its first zero byte. *)
Fixpoint c_str (s : list Z) : list Z :=
  match s with
  | [] => []
  | c :: s => if c =? 0 then [] else c :: c_str s
  end.

Definition put_cstring (str : option (list Z)) : bb unit :=
  append_bytes (match str with Some s => c_str s | None => [] end) ;; append 1 0.

(** The loop of [appendPackGUID]: [i] counts the bytes, [mark] is [packGUID[0]],
    [packed] the bytes written after it. Eight rounds clear a 64-bit [guid]. *)
Fixpoint pack_guid_loop (fuel : nat) (i guid mark : Z) (packed : list Z) : Z * list Z :=
  match fuel with
  | O => (mark, packed)
  | S fuel =>
    if guid =? 0 then (mark, packed)
    else
      let low := Z.land guid 255 in
      let guid' := Z.shiftr guid 8 in
      if low =? 0 then pack_guid_loop fuel (i + 1) guid' mark packed
      else pack_guid_loop fuel (i + 1) guid'
             (Z.lor mark (uwrap 8 (Z.shiftl 1 i))) (packed ++ [low])
  end.

Definition appendPackGUID (guid : Z) : bb unit :=
  let '(mark, packed) := pack_guid_loop 8 0 guid 0 [] in
  append_bytes (mark :: packed).

(** A coordinate in quarters of a yard, cut to the bits of [mask]; the conversion of a
    [float] that does not fit [int] is undefined. *)
Definition quarters (coord mask : Z) : bb Z :=
  match f_to_i32 (f_div (f_of_bits coord) (f_lit 1 4)) with
  | Some q => mret (Z.land q mask)
  | None => throw UndefinedAccess
  end.

(** The shift of [z] into the sign bit of [int] gives the bits it gives in [uint32]. *)
Definition appendPackXYZ (x y z : Z) : bb unit :=
  x ← quarters x 0x7FF; y ← quarters y 0x7FF; z ← quarters z 0x3FF;
  put_u32 (Z.lor (Z.lor x (Z.shiftl y 11)) (Z.shiftl z 22)).

(** ** Reading *)

(** [read<T>(size_t pos) const] for an unsigned [T] of [n] bytes. *)
Definition read_at (n : nat) (pos : Z) : bb Z := λ b,
  let cnt := Z.of_nat n in
  if size b <? uwrap 64 (pos + cnt) then
    (Throw (ByteBufferException false pos cnt (size b)), b)
  else if size b <? pos + cnt then (Throw UndefinedAccess, b)
  else (Ret (le_val (take n (drop (Z.to_nat pos) (_storage b)))), b).

(** [_rpos += n]. *)
Definition advance (n : Z) : bb unit := modify (λ b,
  mkBuffer (uwrap 64 (_rpos b + n)) (_wpos b) (_storage b)).

(** [read<T>()]. *)
Definition read (n : nat) : bb Z :=
  pos ← gets _rpos;
  r ← read_at n pos;
  advance (Z.of_nat n);;
  mret r.

Definition get_u8 : bb Z := read 1.
Definition get_u16 : bb Z := read 2.
Definition get_u32 : bb Z := read 4.
Definition get_u64 : bb Z := read 8.
Definition get_i8 : bb Z := r ← read 1; mret (swrap 8 r).
Definition get_i16 : bb Z := r ← read 2; mret (swrap 16 r).
Definition get_i32 : bb Z := r ← read 4; mret (swrap 32 r).
Definition get_i64 : bb Z := r ← read 8; mret (swrap 64 r).
Definition get_float : bb Z := read 4.
Definition get_double : bb Z := read 8.

(** [operator>>(bool&)] tests a [char], which is signed. *)
Definition get_bool : bb bool := r ← read 1; mret (bool_decide (swrap 8 r > 0)).

(** The loop of [operator>>(std::string&)]; every round consumes a byte, so the
    unread length is enough fuel. *)
Fixpoint get_string_loop (fuel : nat) (value : list Z) : bb (list Z) :=
  match fuel with
  | O => mret value
  | S fuel =>
    more ← gets (λ b, _rpos b <? size b);
    if more : bool then
      c ← read 1;
      if c =? 0 then mret value else get_string_loop fuel (value ++ [c])
    else mret value
  end.

Definition get_string : bb (list Z) :=
  fuel ← gets (λ b, S (Z.to_nat (size b - _rpos b)));
  get_string_loop fuel [].

Definition index_u8 (pos : Z) : bb Z := read_at 1 pos.

Definition read_skip (skip : Z) : bb unit := λ b,
  if size b <? uwrap 64 (_rpos b + skip) then
    (Throw (ByteBufferException false (_rpos b) skip (size b)), b)
  else advance skip b.

(** [read_skip<T>()] for a [T] of [n] bytes. *)
Definition read_skip_T (n : nat) : bb unit := read_skip (Z.of_nat n).

(** [read(uint8 *dest, size_t len)]. *)
Definition read_bytes (len : Z) : bb (list Z) := λ b,
  if size b <? uwrap 64 (_rpos b + len) then
    (Throw (ByteBufferException false (_rpos b) len (size b)), b)
  else if size b <? _rpos b + len then (Throw UndefinedAccess, b)
  else (Ret (take (Z.to_nat len) (drop (Z.to_nat (_rpos b)) (_storage b))),
        mkBuffer (uwrap 64 (_rpos b + len)) (_wpos b) (_storage b)).

(** [read_skip<char*>()], and so [read_skip<std::string>()]. *)
Definition read_skip_string : bb unit := get_string ;; mret tt.

(** The explicit bound test that [readPackGUID] makes before each byte. *)
Definition require_byte : bb unit := λ b,
  if size b <? uwrap 64 (_rpos b + 1) then
    (Throw (ByteBufferException false (_rpos b) 1 (size b)), b)
  else (Ret tt, b).

Fixpoint unpack_guid_loop (rounds : nat) (i guidmark guid : Z) : bb Z :=
  match rounds with
  | O => mret guid
  | S rounds =>
    if has_bits guidmark (uwrap 8 (Z.shiftl 1 i)) then
      require_byte;;
      bit ← get_u8;
      unpack_guid_loop rounds (i + 1) guidmark (Z.lor guid (uwrap 64 (Z.shiftl bit (i * 8))))
    else unpack_guid_loop rounds (i + 1) guidmark guid
  end.

Definition readPackGUID : bb Z :=
  require_byte;;
  guidmark ← get_u8;
  unpack_guid_loop 8 0 guidmark 0.

(** ** Containers

    The element overloads a container uses are passed as a [codec]. *)

Record codec (T : Type) := Codec {
  enc : T → bb unit;
  dec : bb T
}.
Arguments Codec {T} _ _.
Arguments enc {T} _ _.
Arguments dec {T} _.

Definition u8_codec : codec Z := Codec put_u8 get_u8.
Definition u16_codec : codec Z := Codec put_u16 get_u16.
Definition u32_codec : codec Z := Codec put_u32 get_u32.
Definition u64_codec : codec Z := Codec put_u64 get_u64.
Definition i8_codec : codec Z := Codec put_i8 get_i8.
Definition i16_codec : codec Z := Codec put_i16 get_i16.
Definition i32_codec : codec Z := Codec put_i32 get_i32.
Definition i64_codec : codec Z := Codec put_i64 get_i64.
Definition string_codec : codec (list Z) := Codec put_string get_string.

Fixpoint put_elems {T} (c : codec T) (v : list T) : bb unit :=
  match v with
  | [] => mret tt
  | x :: v => enc c x;; put_elems c v
  end.

(** [while (vsize--) { T t; b >> t; v.push_back(t); }] *)
Fixpoint get_elems {T} (c : codec T) (vsize : nat) (v : list T) : bb (list T) :=
  match vsize with
  | O => mret v
  | S vsize => t ← dec c; get_elems c vsize (v ++ [t])
  end.

Definition put_vector {T} (c : codec T) (v : list T) : bb unit :=
  put_u32 (uwrap 32 (Z.of_nat (length v)));; put_elems c v.

Definition get_vector {T} (c : codec T) : bb (list T) :=
  vsize ← get_u32; get_elems c (Z.to_nat vsize) [].

Definition pair_codec {V} (ck : codec Z) (cv : codec V) : codec (Z * V) :=
  Codec (λ kv, enc ck kv.1;; enc cv kv.2) (k ← dec ck; v ← dec cv; mret (k, v)).

Definition put_map {V} (ck : codec Z) (cv : codec V) (m : gmap Z V) : bb unit :=
  put_u32 (uwrap 32 (Z.of_nat (base.size m)));;
  put_elems (pair_codec ck cv) (sorted_elems m).

(** [std::map::insert] keeps the entry a key already has. *)
Definition map_insert {V} (m : gmap Z V) (kv : Z * V) : gmap Z V :=
  match m !! kv.1 with Some _ => m | None => <[kv.1 := kv.2]> m end.

Fixpoint get_map_loop {V} (ck : codec Z) (cv : codec V) (msize : nat) (m : gmap Z V) : bb (gmap Z V) :=
  match msize with
  | O => mret m
  | S msize => kv ← dec (pair_codec ck cv); get_map_loop ck cv msize (map_insert m kv)
  end.

Definition get_map {V} (ck : codec Z) (cv : codec V) : bb (gmap Z V) :=
  msize ← get_u32; get_map_loop ck cv (Z.to_nat msize) ∅.

(** The overloads for [std::list] run the same loops. *)
Definition put_list {T} (c : codec T) (v : list T) : bb unit :=
  put_u32 (uwrap 32 (Z.of_nat (length v)));; put_elems c v.

Definition get_list {T} (c : codec T) : bb (list T) :=
  vsize ← get_u32; get_elems c (Z.to_nat vsize) [].
