(* ===== verification/ByteBufferFacts.v ===== *)
(** * Facts about the packet buffer

    [writes] and [reads] relate an operation to the bytes it appends or consumes;
    they compose along the monad, and [StreamLaw] is the interface a codec offers
    to the containers built on it. *)

From Stdlib Require Import ZArith Lia.
From S2P Require Import Prelude ByteBuffer.
Local Open Scope Z_scope.

(** ** Little-endian memory *)

Definition is_byte (b : Z) : Prop := 0 <= b < 256.

Lemma length_le_bytes n v : length (le_bytes n v) = n.
Proof. revert v. induction n as [|n IH]; intros v; simpl; [done|]. by rewrite IH. Qed.

Lemma le_bytes_are_bytes n v : Forall is_byte (le_bytes n v).
Proof.
  revert v. induction n as [|n IH]; intros v; simpl; constructor; [|done].
  apply Z.mod_pos_bound. lia.
Qed.

Lemma le_val_le_bytes n v : le_val (le_bytes n v) = uwrap (8 * Z.of_nat n) v.
Proof.
  revert v. induction n as [|n IH]; intros v; simpl.
  { unfold uwrap. by rewrite Z.mod_1_r. }
  rewrite IH. unfold uwrap.
  replace (8 * Z.of_nat (S n)) with (8 + 8 * Z.of_nat n) by lia.
  rewrite Z.pow_add_r by lia. change (2 ^ 8) with 256.
  rewrite Z.rem_mul_r; [lia|lia|]. apply Z.pow_pos_nonneg; lia.
Qed.

Lemma le_val_range bs : Forall is_byte bs → in_u (8 * Z.of_nat (length bs)) (le_val bs).
Proof.
  unfold in_u. induction 1 as [|b bs Hb _ IH]; simpl; [lia|].
  replace (8 * Z.of_nat (S (length bs))) with (8 + 8 * Z.of_nat (length bs)) by lia.
  rewrite Z.pow_add_r by lia. unfold is_byte in Hb. lia.
Qed.

(** ** Writing at the end, reading from the front *)

Definition at_end (b : ByteBuffer) : Prop := _wpos b = size b.

Definition appended (b : ByteBuffer) (bs : list Z) : ByteBuffer :=
  mkBuffer (_rpos b) (_wpos b + Z.of_nat (length bs)) (_storage b ++ bs).

Definition writes (e : bb unit) (bs : list Z) : Prop := ∀ b,
  at_end b → size b + Z.of_nat (length bs) < 10000000 → e b = (Ret tt, appended b bs).

Definition consumed (b : ByteBuffer) (n : nat) : ByteBuffer :=
  mkBuffer (_rpos b + Z.of_nat n) (_wpos b) (_storage b).

Definition reads {T} (d : bb T) (bs : list Z) (x : T) : Prop := ∀ b rest,
  0 <= _rpos b → size b < 2 ^ 63 → _rpos b <= size b →
  drop (Z.to_nat (_rpos b)) (_storage b) = bs ++ rest →
  d b = (Ret x, consumed b (length bs)).

Lemma ret_buffer_eq {A} (x : A) r r' w w' s s' :
  r = r' → w = w' → s = s' →
  (Ret x, mkBuffer r w s) =@{outcome bb_error A * _} (Ret x, mkBuffer r' w' s').
Proof. by intros -> -> ->. Qed.

Lemma vector_resize_extend l n :
  (length l <= n)%nat → vector_resize l n = l ++ replicate (n - length l) 0.
Proof. intros. unfold vector_resize. by rewrite take_ge. Qed.

Lemma append_bytes_writes bs : writes (append_bytes bs) bs.
Proof.
  intros [r w st] Hend Hsz. unfold append_bytes, at_end, appended, size in *. simpl in *. subst w.
  destruct (Z.eqb_spec (Z.of_nat (length bs)) 0) as [E|E].
  { destruct bs; [|done]. simpl. by rewrite app_nil_r, Z.add_0_r. }
  rewrite uwrap_small by (unfold in_u; lia). decide_cmp.
  rewrite vector_resize_extend by lia.
  rewrite length_app, length_replicate. decide_cmp.
  do 2 f_equal. unfold splice. rewrite Nat2Z.id, take_app_length.
  rewrite drop_ge; [by rewrite app_nil_r|]. rewrite length_app, length_replicate. lia.
Qed.

Lemma at_end_appended b bs : at_end b → at_end (appended b bs).
Proof. unfold at_end, appended, size. simpl. rewrite length_app. lia. Qed.

Lemma size_appended b bs : size (appended b bs) = size b + Z.of_nat (length bs).
Proof. unfold size, appended. simpl. rewrite length_app. lia. Qed.

Lemma writes_seq e1 e2 bs1 bs2 :
  writes e1 bs1 → writes e2 bs2 → writes (e1 ;; e2) (bs1 ++ bs2).
Proof.
  intros H1 H2 b Hend Hsz. rewrite length_app in Hsz.
  erewrite bind_ret_run by (apply H1; [done|lia]).
  rewrite H2; [|by apply at_end_appended|rewrite size_appended; lia].
  apply ret_buffer_eq; simpl; [done|rewrite length_app; lia|by rewrite app_assoc].
Qed.

Lemma writes_nil : writes (mret tt) [].
Proof.
  intros [r w st] Hend _. unfold appended, mret, prog_ret. simpl.
  by rewrite app_nil_r, Z.add_0_r.
Qed.

Lemma append_writes n v : writes (append n v) (le_bytes n v).
Proof. apply append_bytes_writes. Qed.

Lemma reads_bind {A B} (d : bb A) (k : A → bb B) bs1 bs2 x y :
  reads d bs1 x → reads (k x) bs2 y → reads (d ≫= k) (bs1 ++ bs2) y.
Proof.
  intros H1 H2 b rest H0 Hsz Hr Hd. rewrite <- app_assoc in Hd.
  erewrite bind_ret_run by (eapply H1; eauto).
  assert (length (_storage b) - Z.to_nat (_rpos b) = length (bs1 ++ bs2 ++ rest))%nat as Hl.
  { rewrite <- Hd, length_drop. done. }
  rewrite !length_app in Hl. unfold size in *.
  rewrite (H2 _ rest); unfold consumed, size; simpl; try lia.
  - apply ret_buffer_eq; [rewrite length_app; lia|done..].
  - replace (Z.to_nat _) with (Z.to_nat (_rpos b) + length bs1)%nat by lia.
    rewrite <- drop_drop, Hd. by rewrite drop_app_length.
Qed.

Lemma reads_ret {A} (x : A) : reads (mret x) [] x.
Proof.
  intros [r w st] rest _ _ _ _. unfold consumed, mret, prog_ret. simpl. by rewrite Z.add_0_r.
Qed.

Lemma read_reads n bs : length bs = n → reads (read n) bs (le_val bs).
Proof.
  intros <- [r w st] rest H0 Hsz Hr Hd.
  assert (length st - Z.to_nat r = length (bs ++ rest))%nat as Hl.
  { rewrite <- Hd, length_drop. done. }
  rewrite length_app in Hl. unfold size in *. simpl in *.
  unfold read. unfold gets, mbind, prog_bind at 1. unfold prog_bind, read_at, size. simpl.
  rewrite uwrap_small by (unfold in_u; lia).
  decide_cmp.
  unfold advance, modify, mret, prog_ret, consumed. simpl.
  rewrite uwrap_small by (unfold in_u; lia). by rewrite Hd, take_app_length.
Qed.

Lemma read_reads_le n v : in_u (8 * Z.of_nat n) v → reads (read n) (le_bytes n v) v.
Proof.
  intros Hv. rewrite <- (uwrap_small _ _ Hv) at 2. rewrite <- le_val_le_bytes.
  apply read_reads, length_le_bytes.
Qed.

Lemma reads_fmap_ret {A B} (d : bb A) (f : A → B) bs x :
  reads d bs x → reads (r ← d; mret (f r)) bs (f x).
Proof. intros H. rewrite <- (app_nil_r bs). eapply reads_bind; [done|apply reads_ret]. Qed.

Lemma read_reads_signed n v :
  (0 < n)%nat → in_s (8 * Z.of_nat n) v →
  reads (r ← read n; mret (swrap (8 * Z.of_nat n) r)) (le_bytes n v) v.
Proof.
  intros Hn Hv. rewrite <- (swrap_small (8 * Z.of_nat n) v) at 2; [|lia|done].
  rewrite <- swrap_uwrap, <- le_val_le_bytes by lia.
  apply (reads_fmap_ret (read n) (swrap (8 * Z.of_nat n))). apply read_reads, length_le_bytes.
Qed.

(** ** Strings *)

Definition is_char (b : Z) : Prop := 0 < b < 256.

Lemma le_val_byte b : le_val [b] = b.
Proof. unfold le_val. lia. Qed.

Lemma get_string_loop_reads fuel s acc :
  Forall is_char s → (length s < fuel)%nat →
  reads (get_string_loop fuel acc) (s ++ [0]) (acc ++ s).
Proof.
  revert s acc. induction fuel as [|fuel IH]; intros s acc Hs Hf; [lia|].
  intros b rest H0 Hsz Hr Hd. simpl.
  assert ((_rpos b <? size b) = true) as Hmore.
  { apply (f_equal length) in Hd. rewrite length_drop, !length_app in Hd.
    unfold size in *. simpl in Hd. apply Z.ltb_lt. lia. }
  erewrite bind_ret_run by done. rewrite Hmore. revert b rest H0 Hsz Hr Hd Hmore.
  intros b rest H0 Hsz Hr Hd _. destruct s as [|c s]; simpl in *.
  - rewrite app_nil_r. change (consumed b 1) with (consumed b (length [0])).
    revert b rest H0 Hsz Hr Hd. change (reads (c ← read 1; if c =? 0 then mret acc
      else get_string_loop fuel (acc ++ [c])) ([0] ++ []) acc).
    eapply reads_bind; [by apply read_reads|]. apply reads_ret.
  - inversion Hs as [|? ? Hc Hs']; subst.
    revert b rest H0 Hsz Hr Hd. change (reads (c ← read 1; if c =? 0 then mret acc
      else get_string_loop fuel (acc ++ [c])) ([c] ++ (s ++ [0])) (acc ++ c :: s)).
    eapply reads_bind; [by apply read_reads|]. rewrite le_val_byte.
    unfold is_char in Hc. decide_cmp.
    rewrite (cons_middle c acc s), app_assoc. apply IH; [done|lia].
Qed.

Lemma get_string_reads s : Forall is_char s → reads get_string (s ++ [0]) s.
Proof.
  intros Hs b rest H0 Hsz Hr Hd. unfold get_string.
  erewrite bind_ret_run by done. eapply (get_string_loop_reads _ s []); eauto.
  apply (f_equal length) in Hd. rewrite length_drop, !length_app in Hd.
  unfold size in *. simpl in Hd. lia.
Qed.

Lemma put_string_writes s : writes (put_string s) (s ++ [0]).
Proof. apply writes_seq; [apply append_bytes_writes|apply (append_writes 1 0)]. Qed.

(** ** Codecs and containers *)

(** What a codec promises: for the values in [P], it appends [repr x] and, when
    [repr x] comes next, consumes exactly that and returns [x]. *)
Class StreamLaw {T} (c : codec T) (P : T → Prop) (repr : T → list Z) : Prop := {
  law_enc x : P x → writes (enc c x) (repr x);
  law_dec x : P x → reads (dec c) (repr x) x
}.

#[export] Instance u8_law : StreamLaw u8_codec (in_u 8) (le_bytes 1).
Proof. split; intros; [apply append_writes|by apply (read_reads_le 1)]. Qed.
#[export] Instance u16_law : StreamLaw u16_codec (in_u 16) (le_bytes 2).
Proof. split; intros; [apply append_writes|by apply (read_reads_le 2)]. Qed.
#[export] Instance u32_law : StreamLaw u32_codec (in_u 32) (le_bytes 4).
Proof. split; intros; [apply append_writes|by apply (read_reads_le 4)]. Qed.
#[export] Instance u64_law : StreamLaw u64_codec (in_u 64) (le_bytes 8).
Proof. split; intros; [apply append_writes|by apply (read_reads_le 8)]. Qed.
#[export] Instance i8_law : StreamLaw i8_codec (in_s 8) (le_bytes 1).
Proof. split; intros; [apply append_writes|apply (read_reads_signed 1); [lia|done]]. Qed.
#[export] Instance i16_law : StreamLaw i16_codec (in_s 16) (le_bytes 2).
Proof. split; intros; [apply append_writes|apply (read_reads_signed 2); [lia|done]]. Qed.
#[export] Instance i32_law : StreamLaw i32_codec (in_s 32) (le_bytes 4).
Proof. split; intros; [apply append_writes|apply (read_reads_signed 4); [lia|done]]. Qed.
#[export] Instance i64_law : StreamLaw i64_codec (in_s 64) (le_bytes 8).
Proof. split; intros; [apply append_writes|apply (read_reads_signed 8); [lia|done]]. Qed.
#[export] Instance string_law : StreamLaw string_codec (Forall is_char) (λ s, s ++ [0]).
Proof. split; intros; [apply put_string_writes|by apply get_string_reads]. Qed.

Definition pair_ok {V} (P : Z → Prop) (Q : V → Prop) (kv : Z * V) : Prop := P kv.1 ∧ Q kv.2.

Definition pair_repr {V} (rk : Z → list Z) (rv : V → list Z) (kv : Z * V) : list Z :=
  rk kv.1 ++ rv kv.2.

#[export] Instance pair_law {V} ck (cv : codec V) P Q rk rv :
  StreamLaw ck P rk → StreamLaw cv Q rv →
  StreamLaw (pair_codec ck cv) (pair_ok P Q) (pair_repr rk rv).
Proof.
  intros Hk Hv. split; intros [k v] [Hpk Hqv]; simpl in *.
  - apply writes_seq; by apply law_enc.
  - unfold pair_repr. simpl. eapply reads_bind; [by apply law_dec|].
    apply (reads_fmap_ret (dec cv) (λ v, (k, v))). by apply law_dec.
Qed.

Lemma put_elems_writes {T} (c : codec T) P repr v :
  StreamLaw c P repr → Forall P v → writes (put_elems c v) (v ≫= repr).
Proof.
  intros Hc. induction 1; simpl; [apply writes_nil|].
  apply writes_seq; [by apply law_enc|done].
Qed.

Lemma get_elems_reads {T} (c : codec T) P repr v acc :
  StreamLaw c P repr → Forall P v →
  reads (get_elems c (length v) acc) (v ≫= repr) (acc ++ v).
Proof.
  intros Hc Hv. revert acc. induction Hv as [|x v Hx Hv IH]; intros acc; simpl.
  - rewrite app_nil_r. apply reads_ret.
  - eapply reads_bind; [by apply law_dec|]. rewrite (cons_middle x acc v), app_assoc. apply IH.
Qed.

Definition count_repr (n : nat) : list Z := le_bytes 4 (Z.of_nat n).

Definition vector_ok {T} (P : T → Prop) (v : list T) : Prop :=
  Forall P v ∧ Z.of_nat (length v) < 2 ^ 32.

Definition vector_repr {T} (repr : T → list Z) (v : list T) : list Z :=
  count_repr (length v) ++ (v ≫= repr).

Lemma put_count_writes n :
  Z.of_nat n < 2 ^ 32 → writes (put_u32 (uwrap 32 (Z.of_nat n))) (count_repr n).
Proof. intros. rewrite uwrap_small by (unfold in_u; lia). apply append_writes. Qed.

Lemma get_count_reads {T} n (k : Z → bb T) bs x :
  Z.of_nat n < 2 ^ 32 → reads (k (Z.of_nat n)) bs x →
  reads (get_u32 ≫= k) (count_repr n ++ bs) x.
Proof.
  intros Hn Hk. eapply reads_bind; [|done]. apply (read_reads_le 4). unfold in_u. lia.
Qed.

#[export] Instance vector_law {T} (c : codec T) P repr :
  StreamLaw c P repr →
  StreamLaw (Codec (put_vector c) (get_vector c)) (vector_ok P) (vector_repr repr).
Proof.
  intros Hc. split; intros v [Hv Hn]; simpl.
  - apply writes_seq; [by apply put_count_writes|by eapply put_elems_writes].
  - apply get_count_reads; [done|]. rewrite Nat2Z.id. by eapply (get_elems_reads c P repr v []).
Qed.

(** *** Maps *)

Lemma get_map_loop_reads {V} ck (cv : codec V) P repr l m :
  StreamLaw (pair_codec ck cv) P repr → Forall P l →
  reads (get_map_loop ck cv (length l) m) (l ≫= repr) (foldl map_insert m l).
Proof.
  intros Hc Hl. revert m. induction Hl as [|x l Hx Hl IH]; intros m; cbn [length get_map_loop foldl].
  - apply reads_ret.
  - eapply (reads_bind (dec (pair_codec ck cv))); [by apply law_dec|]. apply IH.
Qed.

Lemma foldl_map_insert {V} (l : list (Z * V)) m :
  NoDup l.*1 → (∀ k, k ∈ l.*1 → m !! k = None) →
  foldl map_insert m l = list_to_map l ∪ m.
Proof.
  revert m. induction l as [|[k v] l IH]; intros m Hnd Hm; simpl.
  { by rewrite (left_id ∅ (∪)). }
  inversion Hnd as [|? ? Hk Hnd']; subst.
  unfold map_insert at 2. simpl. rewrite (Hm k) by (simpl; left).
  rewrite IH; [|done|].
  - rewrite <- insert_union_l, insert_union_r; [done|]. by apply not_elem_of_list_to_map_1.
  - intros k' Hk'. rewrite lookup_insert_ne by (intros ->; done). apply Hm. simpl. by right.
Qed.

Lemma foldl_map_insert_sorted {V} (m : gmap Z V) : foldl map_insert ∅ (sorted_elems m) = m.
Proof.
  rewrite foldl_map_insert; [|apply NoDup_fst_sorted_elems|intros; apply lookup_empty].
  rewrite (right_id ∅ (∪)).
  rewrite <- (list_to_map_to_list m) at 2. apply list_to_map_proper.
  - apply NoDup_fst_sorted_elems.
  - apply sorted_elems_perm.
Qed.

Definition map_ok {V} (P : Z → Prop) (Q : V → Prop) (m : gmap Z V) : Prop :=
  map_Forall (λ k v, P k ∧ Q v) m ∧ Z.of_nat (base.size m) < 2 ^ 32.

Definition map_repr {V} (rk : Z → list Z) (rv : V → list Z) (m : gmap Z V) : list Z :=
  count_repr (base.size m) ++ (sorted_elems m ≫= pair_repr rk rv).

#[export] Instance map_law {V} ck (cv : codec V) P Q rk rv :
  StreamLaw ck P rk → StreamLaw cv Q rv →
  StreamLaw (Codec (put_map ck cv) (get_map ck cv)) (map_ok P Q) (map_repr rk rv).
Proof.
  intros Hk Hv. split; intros m [Hm Hn]; simpl.
  all: assert (Forall (pair_ok P Q) (sorted_elems m)) as Hall
    by (apply Forall_forall; intros [k v] Hkv; apply elem_of_sorted_elems in Hkv; by apply (Hm k v)).
  - apply writes_seq; [by apply put_count_writes|]. by eapply put_elems_writes; [apply pair_law|].
  - apply get_count_reads; [done|]. rewrite Nat2Z.id, <- length_sorted_elems.
    pose proof (foldl_map_insert_sorted m) as Hm'. rewrite <- Hm' at 3.
    by eapply get_map_loop_reads; [apply pair_law|].
Qed.

(** ** Packed GUIDs *)

Definition nonzero_bytes (n : nat) (guid : Z) : list Z :=
  filter (λ b, b ≠ 0) (le_bytes n guid).

(** Bit [i + k] of the mask tells whether byte [k] of the guid is present. *)
Fixpoint presence_mask (n : nat) (i guid : Z) : Z :=
  match n with
  | O => 0
  | S n => Z.lor (if Z.land guid 255 =? 0 then 0 else uwrap 8 (Z.shiftl 1 i))
             (presence_mask n (i + 1) (Z.shiftr guid 8))
  end.

Definition packed_guid (guid : Z) : list Z := presence_mask 8 0 guid :: nonzero_bytes 8 guid.

Lemma land_255 z : Z.land z 255 = z mod 256.
Proof. change 255 with (Z.ones 8). rewrite Z.land_ones by lia. done. Qed.

Lemma shiftr_8 z : Z.shiftr z 8 = z / 256.
Proof. by rewrite Z.shiftr_div_pow2 by lia. Qed.

Lemma presence_mask_0 n i : presence_mask n i 0 = 0.
Proof. revert i. induction n as [|n IH]; intros i; simpl; [done|]. apply IH. Qed.

Lemma nonzero_bytes_0 n : nonzero_bytes n 0 = [].
Proof. induction n as [|n IH]; [done|]. apply IH. Qed.

Lemma nonzero_bytes_S n g :
  nonzero_bytes (S n) g =
    (if Z.land g 255 =? 0 then [] else [Z.land g 255]) ++ nonzero_bytes n (Z.shiftr g 8).
Proof.
  unfold nonzero_bytes. cbn [le_bytes]. rewrite filter_cons, land_255, shiftr_8.
  destruct (Z.eqb_spec (g mod 256) 0); case_decide; naive_solver.
Qed.

Lemma pack_guid_loop_spec n i g mark packed :
  pack_guid_loop n i g mark packed =
    (Z.lor mark (presence_mask n i g), packed ++ nonzero_bytes n g).
Proof.
  revert i g mark packed. induction n as [|n IH]; intros i g mark packed.
  { simpl. by rewrite Z.lor_0_r, app_nil_r. }
  cbn [pack_guid_loop]. destruct (Z.eqb_spec g 0) as [->|].
  { by rewrite presence_mask_0, nonzero_bytes_0, Z.lor_0_r, app_nil_r. }
  rewrite nonzero_bytes_S. cbn [presence_mask].
  destruct (Z.eqb_spec (Z.land g 255) 0); rewrite IH; cbn [app].
  - by rewrite Z.lor_0_l.
  - by rewrite <- app_assoc, Z.lor_assoc.
Qed.

Lemma shiftl_1_byte i : 0 <= i < 8 → uwrap 8 (Z.shiftl 1 i) = 2 ^ i.
Proof.
  intros. rewrite Z.shiftl_1_l. apply uwrap_small. split; [lia|].
  apply Z.pow_lt_mono_r; lia.
Qed.

(** Byte [k] of a guid. *)
Definition byte_of (g k : Z) : Z := Z.land (Z.shiftr g (8 * k)) 255.

Lemma testbit_presence_mask n i g j :
  0 <= i → i + Z.of_nat n <= 8 → 0 <= j →
  Z.testbit (presence_mask n i g) j =
    (i <=? j) && (j <? i + Z.of_nat n) && negb (byte_of g (j - i) =? 0).
Proof.
  revert i g. induction n as [|n IH]; intros i g Hi Hn Hj; cbn [presence_mask].
  { rewrite Z.bits_0. destruct (Z.leb_spec i j); [|done]. by decide_cmp. }
  rewrite Z.lor_spec, IH, shiftl_1_byte by lia.
  assert (Z.testbit (if Z.land g 255 =? 0 then 0 else 2 ^ i) j
          = (i =? j) && negb (Z.land g 255 =? 0)) as ->.
  { destruct (Z.land g 255 =? 0); simpl.
    - by rewrite Z.bits_0, andb_false_r.
    - by rewrite testbit_pow2, andb_true_r. }
  destruct (Z.lt_trichotomy i j) as [Hlt|[->|Hgt]].
  - replace (byte_of (Z.shiftr g 8) (j - (i + 1))) with (byte_of g (j - i)).
    2:{ unfold byte_of. rewrite Z.shiftr_shiftr by lia. do 2 f_equal. lia. }
    replace (i + 1 + Z.of_nat n) with (i + Z.of_nat (S n)) by lia.
    by decide_cmp.
  - decide_cmp. rewrite Z.sub_diag. unfold byte_of at 2. rewrite Z.mul_0_r, Z.shiftr_0_r.
    simpl. by rewrite orb_false_r.
  - decide_cmp. done.
Qed.

Lemma presence_mask_byte n i g :
  0 <= i → i + Z.of_nat n <= 8 → in_u 8 (presence_mask n i g).
Proof.
  revert i g. induction n as [|n IH]; intros i g Hi Hn; cbn [presence_mask]; [done|].
  rewrite shiftl_1_byte by lia.
  assert (in_u 8 (if Z.land g 255 =? 0 then 0 else 2 ^ i)) as Hb.
  { unfold in_u. destruct (_ =? _); [lia|]. split; [lia|apply Z.pow_lt_mono_r; lia]. }
  specialize (IH (i + 1) (Z.shiftr g 8) ltac:(lia) ltac:(lia)).
  rewrite <- (uwrap_small _ _ IH), <- (uwrap_small _ _ Hb). unfold uwrap.
  rewrite <- !Z.land_ones, <- Z.land_lor_distr_l, Z.land_ones by lia. by apply uwrap_range.
Qed.

(** What the decoder holds after [k] rounds: the low [8 * k] bits of the guid. *)
Lemma unpack_step g i :
  0 <= i →
  Z.lor (uwrap (8 * i) g) (Z.shiftl (byte_of g i) (i * 8)) = uwrap (8 * (i + 1)) g.
Proof.
  intros Hi. apply Z.bits_inj'. intros j Hj. unfold byte_of.
  rewrite Z.lor_spec, !testbit_uwrap, Z.shiftl_spec by lia.
  destruct (Z.ltb_spec j (8 * i)).
  - rewrite (Z.testbit_neg_r _ (j - _)) by lia. decide_cmp. by rewrite orb_false_r.
  - rewrite Z.land_spec, Z.shiftr_spec by lia. change 255 with (Z.ones 8).
    rewrite Z.testbit_ones_nonneg by lia. replace (j - i * 8 + 8 * i) with j by lia.
    destruct (Z.ltb_spec (j - i * 8) 8); decide_cmp; simpl;
      rewrite ?andb_true_r, ?andb_false_r; done.
Qed.

Lemma byte_of_range g k : 0 <= byte_of g k < 256.
Proof. unfold byte_of. rewrite land_255. apply Z.mod_pos_bound. lia. Qed.

Lemma require_byte_reads {T} (k : bb T) b bs x :
  reads k (b :: bs) x → reads (require_byte;; k) (b :: bs) x.
Proof.
  intros Hk buf rest H0 Hsz Hr Hd.
  assert (_rpos buf + 1 <= size buf) as Hroom.
  { apply (f_equal length) in Hd. rewrite length_drop in Hd. simpl in Hd. unfold size. lia. }
  erewrite bind_ret_run.
  - by eapply Hk.
  - unfold require_byte. rewrite uwrap_small by (unfold in_u; lia). by decide_cmp.
Qed.

Lemma get_u8_reads b : is_byte b → reads get_u8 [b] b.
Proof. intros. rewrite <- (le_val_byte b) at 2. by apply (read_reads 1). Qed.

Lemma unpack_guid_loop_reads n i g mark :
  0 <= i → i + Z.of_nat n = 8 → in_u 64 g →
  (∀ j, i <= j < 8 → Z.testbit mark j = negb (byte_of g j =? 0)) →
  reads (unpack_guid_loop n i mark (uwrap (8 * i) g))
    (nonzero_bytes n (Z.shiftr g (8 * i))) g.
Proof.
  intros Hi Hn Hg Hm. revert i Hi Hn Hm.
  induction n as [|n IH]; intros i Hi Hn Hm; cbn [unpack_guid_loop].
  { replace (8 * i) with 64 by lia. rewrite uwrap_small by done. apply reads_ret. }
  rewrite shiftl_1_byte, has_bits_pow2, (Hm i) by lia.
  rewrite nonzero_bytes_S. fold (byte_of g i).
  replace (Z.shiftr (Z.shiftr g (8 * i)) 8) with (Z.shiftr g (8 * (i + 1)))
    by (rewrite Z.shiftr_shiftr by lia; f_equal; lia).
  pose proof (byte_of_range g i).
  destruct (Z.eqb_spec (byte_of g i) 0) as [Hz|Hnz]; simpl negb; cbv iota; cbn [app].
  - replace (uwrap (8 * i) g) with (uwrap (8 * (i + 1)) g)
      by (rewrite <- unpack_step, Hz, Z.shiftl_0_l, Z.lor_0_r by lia; done).
    apply IH; [lia..|]. intros. apply Hm. lia.
  - apply require_byte_reads. eapply (reads_bind get_u8 _ [_]); [by apply get_u8_reads|].
    rewrite (uwrap_small 64), unpack_step by first [lia | split;
      [apply Z.shiftl_nonneg; lia | rewrite Z.shiftl_mul_pow2 by lia;
       apply Z.lt_le_trans with (256 * 2 ^ (i * 8)); [apply Z.mul_lt_mono_pos_r; lia|];
       change 256 with (2 ^ 8); rewrite <- Z.pow_add_r by lia; apply Z.pow_le_mono_r; lia]].
    apply IH; [lia..|]. intros. apply Hm. lia.
Qed.

Lemma unpack_guid_reads g mark :
  in_u 64 g → (∀ j, 0 <= j < 8 → Z.testbit mark j = negb (byte_of g j =? 0)) →
  reads (unpack_guid_loop 8 0 mark 0) (nonzero_bytes 8 g) g.
Proof.
  intros Hg Hm. pose proof (unpack_guid_loop_reads 8 0 g mark) as H.
  rewrite Z.mul_0_r, Z.shiftr_0_r in H.
  replace (uwrap 0 g) with 0 in H by (unfold uwrap; by rewrite Z.mod_1_r).
  apply H; done.
Qed.

Lemma appendPackGUID_writes g : writes (appendPackGUID g) (packed_guid g).
Proof.
  unfold appendPackGUID. rewrite pack_guid_loop_spec, Z.lor_0_l, app_nil_l.
  apply append_bytes_writes.
Qed.

Lemma readPackGUID_reads g : in_u 64 g → reads readPackGUID (packed_guid g) g.
Proof.
  intros Hg. unfold readPackGUID, packed_guid. apply require_byte_reads.
  apply (reads_bind get_u8 (λ m, unpack_guid_loop 8 0 m 0) [presence_mask 8 0 g] _
           (presence_mask 8 0 g)).
  { apply get_u8_reads, presence_mask_byte; lia. }
  apply unpack_guid_reads; [done|]. intros j Hj.
  rewrite testbit_presence_mask by lia. decide_cmp. by rewrite Z.sub_0_r.
Qed.

Create HintDb stream.
#[export] Hint Resolve append_bytes_writes append_writes writes_seq writes_nil
  put_string_writes appendPackGUID_writes : stream.
#[export] Hint Resolve reads_ret get_string_reads readPackGUID_reads get_u8_reads : stream.

(** ** Memory safety of the readers

    Whatever bytes a packet holds, a reader either returns or throws a
    [ByteBufferException]; it never leaves the storage, and only moves the read
    position forward inside it. *)

Definition valid (b : ByteBuffer) : Prop := 0 <= _rpos b <= size b ∧ size b < 2 ^ 63.

Definition only_moves (b b' : ByteBuffer) : Prop :=
  _storage b' = _storage b ∧ _wpos b' = _wpos b ∧ _rpos b <= _rpos b'.

Definition benign {A} (o : outcome bb_error A) : Prop :=
  match o with
  | Ret _ => True
  | Throw (ByteBufferException add _ _ _) => add = false
  | Throw _ => False
  end.

Class SafeReader {A} (d : bb A) : Prop := safe_reader :
  ∀ b, valid b → valid (d b).2 ∧ only_moves b (d b).2 ∧ benign (d b).1.

Lemma only_moves_trans b1 b2 b3 : only_moves b1 b2 → only_moves b2 b3 → only_moves b1 b3.
Proof. intros (?&?&?) (?&?&?). split_and!; [congruence..|lia]. Qed.

#[export] Instance safe_ret {A} (x : A) : SafeReader (mret x).
Proof. intros b Hb. split_and!; [done| |done]. split_and!; [done..|simpl; lia]. Qed.

#[export] Instance safe_gets {A} (f : ByteBuffer → A) : SafeReader (gets f).
Proof. intros b Hb. split_and!; [done| |done]. split_and!; [done..|simpl; lia]. Qed.

#[export] Instance safe_bind {A B} (d : bb A) (k : A → bb B) :
  SafeReader d → (∀ x, SafeReader (k x)) → SafeReader (d ≫= k).
Proof.
  intros Hd Hk b Hb. destruct (Hd b Hb) as (Hv & Hm & Hok).
  unfold mbind, prog_bind. destruct (d b) as [[x|e] b']; simpl in *; [|done].
  destruct (Hk x b' Hv) as (Hv' & Hm' & Hok'). split_and!; [done| |done].
  by eapply only_moves_trans.
Qed.

Lemma read_run n b :
  valid b → Z.of_nat n < 2 ^ 62 →
  read n b =
    if _rpos b + Z.of_nat n <=? size b
    then (Ret (le_val (take n (drop (Z.to_nat (_rpos b)) (_storage b)))), consumed b n)
    else (Throw (ByteBufferException false (_rpos b) (Z.of_nat n) (size b)), b).
Proof.
  intros [Hr Hs] Hn. unfold read. unfold gets, mbind, prog_bind at 1. unfold prog_bind, read_at.
  rewrite uwrap_small by (unfold in_u; lia).
  destruct (Z.leb_spec (_rpos b + Z.of_nat n) (size b)); decide_cmp; [|done].
  unfold advance, modify, mret, prog_ret, consumed.
  rewrite uwrap_small by (unfold in_u; lia). done.
Qed.

Lemma safe_read n : Z.of_nat n < 2 ^ 62 → SafeReader (read n).
Proof.
  intros Hn b Hb. rewrite read_run by done. unfold valid, size in *.
  destruct (Z.leb_spec (_rpos b + Z.of_nat n) (Z.of_nat (length (_storage b)))); simpl.
  - split_and!; [lia..| |done]. unfold only_moves, consumed. simpl. split_and!; [done..|lia].
  - split_and!; [lia..| |done]. split_and!; [done..|lia].
Qed.

#[export] Hint Extern 0 (SafeReader (read _)) => apply safe_read; lia : typeclass_instances.

#[export] Instance safe_get_u8 : SafeReader get_u8.
Proof. unfold get_u8. apply _. Qed.
#[export] Instance safe_get_u16 : SafeReader get_u16.
Proof. unfold get_u16. apply _. Qed.
#[export] Instance safe_get_u32 : SafeReader get_u32.
Proof. unfold get_u32. apply _. Qed.
#[export] Instance safe_get_u64 : SafeReader get_u64.
Proof. unfold get_u64. apply _. Qed.
#[export] Instance safe_get_i8 : SafeReader get_i8.
Proof. unfold get_i8. apply _. Qed.
#[export] Instance safe_get_i16 : SafeReader get_i16.
Proof. unfold get_i16. apply _. Qed.
#[export] Instance safe_get_i32 : SafeReader get_i32.
Proof. unfold get_i32. apply _. Qed.
#[export] Instance safe_get_i64 : SafeReader get_i64.
Proof. unfold get_i64. apply _. Qed.
#[export] Instance safe_get_bool : SafeReader get_bool.
Proof. unfold get_bool. apply _. Qed.

#[export] Instance safe_if {A} (c : bool) (d1 d2 : bb A) :
  SafeReader d1 → SafeReader d2 → SafeReader (if c then d1 else d2).
Proof. by destruct c. Qed.

#[export] Instance safe_get_string : SafeReader get_string.
Proof.
  apply safe_bind; [apply _|]. intros fuel. generalize ([] : list Z).
  induction fuel as [|fuel IH]; intros acc; simpl; apply _.
Qed.

#[export] Instance safe_require_byte : SafeReader require_byte.
Proof.
  intros b Hb. unfold require_byte. destruct (_ <? _).
  all: split_and!; [done| |done]; split_and!; [done..|simpl; lia].
Qed.

#[export] Instance safe_readPackGUID : SafeReader readPackGUID.
Proof.
  unfold readPackGUID. apply safe_bind; [apply _|]. intros _.
  apply safe_bind; [apply _|]. intros mark. generalize 0 at 1. generalize 0. generalize 8%nat.
  induction n as [|n IH]; intros g i; simpl; [apply _|].
  apply safe_if; [|apply IH]. apply safe_bind; [apply _|]. intros _.
  apply safe_bind; [apply _|]. intros bit. apply IH.
Qed.

#[export] Instance safe_get_vector {T} (c : codec T) : SafeReader (dec c) → SafeReader (get_vector c).
Proof.
  intros Hc. apply safe_bind; [apply _|]. intros vsize. generalize (Z.to_nat vsize), ([] : list T).
  induction n as [|n IH]; intros v; simpl; apply _.
Qed.

#[export] Instance safe_get_map {V} ck (cv : codec V) :
  SafeReader (dec ck) → SafeReader (dec cv) → SafeReader (get_map ck cv).
Proof.
  intros Hk Hv. apply safe_bind; [apply _|]. intros vsize.
  generalize (Z.to_nat vsize), (∅ : gmap Z V).
  induction n as [|n IH]; intros v; simpl; apply _.
Qed.

#[export] Instance safe_dec_u8 : SafeReader (dec u8_codec).
Proof. unfold u8_codec. simpl. apply _. Qed.
#[export] Instance safe_dec_u32 : SafeReader (dec u32_codec).
Proof. unfold u32_codec. simpl. apply _. Qed.
#[export] Instance safe_dec_u64 : SafeReader (dec u64_codec).
Proof. unfold u64_codec. simpl. apply _. Qed.
#[export] Instance safe_dec_string : SafeReader (dec string_codec).
Proof. unfold string_codec. simpl. apply _. Qed.

(** ** Properties *)

(** The state a write followed by the matching read ends in. *)
Definition exhausted (b : ByteBuffer) (bs : list Z) : ByteBuffer :=
  mkBuffer (_wpos b + Z.of_nat (length bs)) (_wpos b + Z.of_nat (length bs)) (_storage b ++ bs).

Definition ready (b : ByteBuffer) (bs : list Z) : Prop :=
  at_end b ∧ _rpos b = size b ∧ size b + Z.of_nat (length bs) < 10000000.

Lemma write_then_read {T} (e : bb unit) (d : bb T) bs x b :
  writes e bs → reads d bs x → ready b bs → (e ;; d) b = (Ret x, exhausted b bs).
Proof.
  intros He Hd (Hend & Hr & Hsz). unfold at_end in Hend.
  erewrite bind_ret_run by (by apply He).
  rewrite (Hd _ []); unfold consumed, appended, size in *; simpl.
  - apply ret_buffer_eq; [lia|done..].
  - lia.
  - rewrite length_app. lia.
  - rewrite length_app. lia.
  - rewrite app_nil_r. rewrite drop_app_length' by lia. done.
Qed.

(** Round trip of [std::vector] through the stream: for any element codec that keeps
    its promise, reading back what [operator<<] appended returns the vector and
    leaves the buffer exactly exhausted, earlier bytes untouched. *)
Theorem vector_roundtrip {T} (c : codec T) P repr (v : list T) b :
  StreamLaw c P repr → vector_ok P v → ready b (vector_repr repr v) →
  (put_vector c v ;; get_vector c) b = (Ret v, exhausted b (vector_repr repr v)).
Proof.
  intros Hc Hv Hb. eapply write_then_read; [..|done].
  - by apply (law_enc (StreamLaw := vector_law c P repr Hc)).
  - by apply (law_dec (StreamLaw := vector_law c P repr Hc)).
Qed.

(** C29. Round trip of [std::map]: writing runs in key order, reading inserts one by one,
    and the map read back is the map written. *)
Theorem map_roundtrip {V} ck (cv : codec V) P Q rk rv (m : gmap Z V) b :
  StreamLaw ck P rk → StreamLaw cv Q rv → map_ok P Q m → ready b (map_repr rk rv m) →
  (put_map ck cv m ;; get_map ck cv) b = (Ret m, exhausted b (map_repr rk rv m)).
Proof.
  intros Hk Hv Hm Hb. eapply write_then_read; [..|done].
  - by apply (law_enc (StreamLaw := map_law ck cv P Q rk rv Hk Hv)).
  - by apply (law_dec (StreamLaw := map_law ck cv P Q rk rv Hk Hv)).
Qed.

Lemma map_roundtrip_witness :
  (put_map u32_codec string_codec (<[7 := [65; 66]]> {[ 3 := [67] ]}) ;;
   get_map u32_codec string_codec) empty_buffer =
  (Ret (<[7 := [65; 66]]> {[ 3 := [67] ]}),
   exhausted empty_buffer
     (map_repr (le_bytes 4) (λ s, s ++ [0]) (<[7 := [65; 66]]> {[ 3 := [67] ]}))).
Proof.
  apply (map_roundtrip _ _ (in_u 32) (Forall is_char)); [apply _..| |].
  - split; [|done]. apply map_Forall_insert_2; [|apply map_Forall_singleton];
      split; [done|repeat constructor| done|repeat constructor].
  - split_and!; done.
Defined.

(** Round trip of packed GUIDs, at most nine bytes on the wire: the mask and the
    nonzero bytes. *)
Theorem pack_guid_roundtrip (guid : Z) b :
  in_u 64 guid → ready b (packed_guid guid) →
  (appendPackGUID guid ;; readPackGUID) b = (Ret guid, exhausted b (packed_guid guid)) ∧
  (length (packed_guid guid) <= 9)%nat.
Proof.
  intros Hg Hb. split.
  - eapply write_then_read; eauto with stream.
  - unfold packed_guid, nonzero_bytes. cbn [length].
    pose proof (length_filter (λ b, b ≠ 0) (le_bytes 8 guid)) as H.
    rewrite length_le_bytes in H. unfold packed_guid in *. cbv beta in H. lia.
Qed.

Lemma pack_guid_roundtrip_witness :
  (appendPackGUID 0xF130000000AB0001 ;; readPackGUID) empty_buffer =
    (Ret 0xF130000000AB0001, mkBuffer 5 5 [197; 1; 171; 48; 241]).
Proof.
  destruct (pack_guid_roundtrip 0xF130000000AB0001 empty_buffer) as [H _].
  - unfold in_u. lia.
  - split_and!; done.
  - exact H.
Defined.

(** C23. Parsing is memory safe: on any byte sequence, reading a map of vectors of strings,
    and likewise each of its parts, ends inside the storage with a value or with a read
    [ByteBufferException]; the read position only grows, nothing is modified. *)
Theorem parse_memory_safe b :
  valid b →
  let run {A} (d : bb A) := valid (d b).2 ∧ only_moves b (d b).2 ∧ benign (d b).1 in
  run readPackGUID ∧ run get_string ∧ run (get_vector string_codec) ∧
  run (get_map u64_codec (Codec (put_vector string_codec) (get_vector string_codec))).
Proof.
  intros Hb run. unfold run. split_and!; apply safe_reader; done.
Qed.

(** A truncated packet: it announces a vector of two strings and ends in the first. *)
Lemma parse_memory_safe_witness :
  let b := mkBuffer 0 6 [2; 0; 0; 0; 65; 66] in
  get_vector string_codec b = (Ret [[65; 66]; []], mkBuffer 6 6 [2; 0; 0; 0; 65; 66]) ∧
  valid (get_vector string_codec b).2.
Proof.
  split; [by vm_compute|].
  assert (valid (mkBuffer 0 6 [2; 0; 0; 0; 65; 66])) as Hb by by repeat split.
  apply (proj1 (proj1 (proj2 (proj2 (parse_memory_safe _ Hb))))).
Defined.
