(* ===== verification/Packets.v ===== *)
(** * Packets: what a handler may assume of the packet it gets *)

From Stdlib Require Import ZArith Lia.
From S2P Require Import Prelude ByteBuffer ByteBufferFacts.
Local Open Scope Z_scope.

(** A packet as the network layer hands it over: bytes, and a read position inside them. *)
Definition packet_ok (b : ByteBuffer) : Prop := valid b ∧ Forall (in_u 8) (_storage b).

#[export] Instance safe_get_float : SafeReader get_float.
Proof. unfold get_float. apply _. Qed.

#[export] Instance safe_read_skip_T : SafeReader (read_skip_T 4).
Proof.
  intros b [Hr Hs]. unfold read_skip_T, read_skip, valid, size in *. change (Z.of_nat 4) with 4.
  rewrite uwrap_small by (unfold in_u; lia).
  destruct (Z.ltb_spec (Z.of_nat (length (_storage b))) (_rpos b + 4)).
  - simpl. split_and!; [lia..| |done]. split_and!; [done..|lia].
  - unfold advance, modify, size. simpl. rewrite uwrap_small by (unfold in_u; lia). split_and!; [lia..| |done].
    split_and!; [done..|simpl; lia].
Qed.

(** A scalar of [n] bytes is in range. *)
Lemma read_range b n v b' : packet_ok b → (n ≤ 8)%nat → read n b = (Ret v, b') → in_u (8 * Z.of_nat n) v.
Proof.
  intros [Hv Hb] Hn. rewrite read_run by (done || lia). destruct (_ <=? _) eqn:Hle; [|done]. intros [= <- _].
  apply Z.leb_le in Hle. destruct Hv as [Hr _]. unfold size in *.
  set (l := take n (drop (Z.to_nat (_rpos b)) (_storage b))).
  assert (length l = n) as Hlen by (unfold l; rewrite length_take, length_drop; lia). rewrite <- Hlen.
  apply le_val_range. unfold l. by apply Forall_take, Forall_drop.
Qed.

Lemma byte_range b n b' : packet_ok b → get_u8 b = (Ret n, b') → 0 <= n < 256.
Proof. intros Hb H. pose proof (read_range b 1 n b' Hb ltac:(lia) H) as Hr. unfold in_u in Hr. simpl in Hr. lia. Qed.

Lemma storage_kept {A} (d : bb A) b x b' : SafeReader d → packet_ok b → d b = (Ret x, b') → packet_ok b'.
Proof.
  intros Hd [Hv Hb] He. destruct (Hd b Hv) as (Hv' & (Hst & _) & _). rewrite He in *. simpl in *. split; [done|]. by rewrite Hst.
Qed.

Lemma bind_Ret {A B} (d : bb A) (k : A → bb B) b y b2 : (d ≫= k) b = (Ret y, b2) → ∃ x b1, d b = (Ret x, b1) ∧ k x b1 = (Ret y, b2).
Proof. unfold mbind, prog_bind. destruct (d b) as [[x|e] b1]; [|done]. eauto. Qed.
