(* ===== verification/Guid.v ===== *)
(** * Guid: the layout of object guids of src/src/server/game/Entities/Object/ObjectDefines.h

    A guid is a [uint64]. The high 16 bits name the kind of object; the kinds
    with an entry part keep a 24-bit counter and a 24-bit entry below them, the
    others a 32-bit counter. *)

From Stdlib Require Import ZArith Lia.
From S2P Require Import Prelude.
Local Open Scope Z_scope.

Definition MAKE_PAIR64 (l h : Z) : Z := uwrap 64 (Z.lor (uwrap 32 l) (Z.shiftl (uwrap 64 h) 32)).
Definition PAIR64_HIPART (x : Z) : Z := uwrap 32 (Z.land (Z.shiftr (uwrap 64 x) 32) 0xFFFFFFFF).
Definition PAIR64_LOPART (x : Z) : Z := uwrap 32 (Z.land (uwrap 64 x) 0xFFFFFFFF).
Definition MAKE_PAIR16 (l h : Z) : Z := uwrap 16 (Z.lor (uwrap 8 l) (Z.shiftl (uwrap 16 h) 8)).
Definition MAKE_PAIR32 (l h : Z) : Z := uwrap 32 (Z.lor (uwrap 16 l) (Z.shiftl (uwrap 32 h) 16)).
Definition PAIR32_HIPART (x : Z) : Z := uwrap 16 (Z.land (Z.shiftr (uwrap 32 x) 16) 0x0000FFFF).
Definition PAIR32_LOPART (x : Z) : Z := uwrap 16 (Z.land (uwrap 32 x) 0x0000FFFF).

Definition HIGHGUID_ITEM := 0x4000.
Definition HIGHGUID_CONTAINER := 0x4000.
Definition HIGHGUID_PLAYER := 0x0000.
Definition HIGHGUID_GAMEOBJECT := 0xF110.
Definition HIGHGUID_TRANSPORT := 0xF120.
Definition HIGHGUID_UNIT := 0xF130.
Definition HIGHGUID_PET := 0xF140.
Definition HIGHGUID_VEHICLE := 0xF150.
Definition HIGHGUID_DYNAMICOBJECT := 0xF100.
Definition HIGHGUID_CORPSE := 0xF101.
Definition HIGHGUID_MO_TRANSPORT := 0x1FC0.
Definition HIGHGUID_GROUP := 0x1F50.

Definition MAKE_NEW_GUID (l e h : Z) : Z :=
  uwrap 64 (Z.lor (Z.lor (uwrap 64 l) (uwrap 64 (Z.shiftl (uwrap 64 e) 24)))
                  (uwrap 64 (Z.shiftl (uwrap 64 h) 48))).

Definition GUID_HIPART (x : Z) : Z := uwrap 32 (Z.land (Z.shiftr (uwrap 64 x) 48) 0x0000FFFF).

Definition IS_PLAYER_GUID (guid : Z) : bool :=
  (GUID_HIPART guid =? HIGHGUID_PLAYER) && negb (guid =? 0).

Definition IS_CREATURE_GUID (guid : Z) : bool := GUID_HIPART guid =? HIGHGUID_UNIT.
Definition IS_PET_GUID (guid : Z) : bool := GUID_HIPART guid =? HIGHGUID_PET.
Definition IS_VEHICLE_GUID (guid : Z) : bool := GUID_HIPART guid =? HIGHGUID_VEHICLE.
Definition IS_CRE_OR_VEH_GUID (guid : Z) : bool := IS_CREATURE_GUID guid || IS_VEHICLE_GUID guid.
Definition IS_CRE_OR_VEH_OR_PET_GUID (guid : Z) : bool :=
  IS_CRE_OR_VEH_GUID guid || IS_PET_GUID guid.
Definition IS_UNIT_GUID (guid : Z) : bool :=
  IS_CRE_OR_VEH_OR_PET_GUID guid || IS_PLAYER_GUID guid.

Definition IsGuidHaveEnPart (guid : Z) : bool :=
  let h := GUID_HIPART guid in
  negb ((h =? HIGHGUID_ITEM) || (h =? HIGHGUID_PLAYER) || (h =? HIGHGUID_DYNAMICOBJECT) ||
        (h =? HIGHGUID_CORPSE) || (h =? HIGHGUID_GROUP)).

Definition _GUID_ENPART_3 (x : Z) : Z := uwrap 32 (Z.land (Z.shiftr (uwrap 64 x) 24) 0xFFFFFF).
Definition _GUID_LOPART_2 (x : Z) : Z := uwrap 32 (Z.land (uwrap 64 x) 0xFFFFFFFF).
Definition _GUID_LOPART_3 (x : Z) : Z := uwrap 32 (Z.land (uwrap 64 x) 0xFFFFFF).

Definition GUID_ENPART (x : Z) : Z := if IsGuidHaveEnPart x then _GUID_ENPART_3 x else 0.
Definition GUID_LOPART (x : Z) : Z := if IsGuidHaveEnPart x then _GUID_LOPART_3 x else _GUID_LOPART_2 x.

(** ** Facts *)

Lemma lor_disjoint a b n : 0 <= n → in_u n a → Z.lor a (Z.shiftl b n) = a + b * 2 ^ n.
Proof.
  intros Hn Ha. rewrite <- Z.shiftl_mul_pow2 by done.
  rewrite <- Z.lxor_lor; [symmetry; apply Z.add_nocarry_lxor|].
  all: apply Z.bits_inj'; intros j Hj; rewrite Z.land_spec, Z.shiftl_spec, Z.bits_0 by lia.
  all: destruct (Z.ltb_spec j n).
  1,3: rewrite (Z.testbit_neg_r b) by lia; by rewrite andb_false_r.
  all: by rewrite (testbit_in_u n a).
Qed.

(** The value of a guid whose parts do not overlap. *)
Lemma make_new_guid_val l e h :
  in_u 24 l ∧ in_u 24 e ∨ in_u 32 l ∧ e = 0 → in_u 16 h →
  MAKE_NEW_GUID l e h = l + e * 2 ^ 24 + h * 2 ^ 48.
Proof.
  unfold in_u. intros Hle Hh. unfold MAKE_NEW_GUID.
  rewrite (uwrap_small 64 l), (uwrap_small 64 e), (uwrap_small 64 h) by (unfold in_u; lia).
  rewrite !(uwrap_small 64 (Z.shiftl _ _)) by (rewrite Z.shiftl_mul_pow2 by lia; unfold in_u; lia).
  assert (Z.lor l (Z.shiftl e 24) = l + e * 2 ^ 24) as ->.
  { destruct Hle as [[??]|[? ->]]; [by apply lor_disjoint|].
    by rewrite Z.shiftl_0_l, Z.lor_0_r, Z.mul_0_l, Z.add_0_r. }
  rewrite lor_disjoint by (unfold in_u; lia). apply uwrap_small. unfold in_u. lia.
Qed.

Lemma land_ones_val z n m : 0 <= n → m = Z.ones n → Z.land z m = z mod 2 ^ n.
Proof. intros ? ->. by apply Z.land_ones. Qed.

Lemma guid_hipart_val x : GUID_HIPART x = (uwrap 64 x / 2 ^ 48) mod 2 ^ 16.
Proof.
  unfold GUID_HIPART. rewrite (land_ones_val _ 16), Z.shiftr_div_pow2 by done.
  apply uwrap_small. pose proof (Z.mod_pos_bound (uwrap 64 x / 2 ^ 48) (2 ^ 16)).
  unfold in_u. lia.
Qed.

Lemma guid_enpart_val x : _GUID_ENPART_3 x = (uwrap 64 x / 2 ^ 24) mod 2 ^ 24.
Proof.
  unfold _GUID_ENPART_3. rewrite (land_ones_val _ 24), Z.shiftr_div_pow2 by done.
  apply uwrap_small. pose proof (Z.mod_pos_bound (uwrap 64 x / 2 ^ 24) (2 ^ 24)).
  unfold in_u. lia.
Qed.

Lemma guid_lopart3_val x : _GUID_LOPART_3 x = uwrap 64 x mod 2 ^ 24.
Proof.
  unfold _GUID_LOPART_3. rewrite (land_ones_val _ 24) by done.
  apply uwrap_small. pose proof (Z.mod_pos_bound (uwrap 64 x) (2 ^ 24)). unfold in_u. lia.
Qed.

Lemma guid_lopart2_val x : _GUID_LOPART_2 x = uwrap 64 x mod 2 ^ 32.
Proof.
  unfold _GUID_LOPART_2. rewrite (land_ones_val _ 32) by done. apply uwrap_small.
  pose proof (Z.mod_pos_bound (uwrap 64 x) (2 ^ 32)). unfold in_u. lia.
Qed.

(** The kinds whose guids carry no entry. *)
Definition no_entry_kind (h : Z) : bool :=
  existsb (Z.eqb h) [HIGHGUID_ITEM; HIGHGUID_PLAYER; HIGHGUID_DYNAMICOBJECT;
                     HIGHGUID_CORPSE; HIGHGUID_GROUP].

(** A guid takes apart into the kind, entry and counter it was made from: 24-bit counter
    and entry for the kinds with an entry part, a 32-bit counter and no entry for items,
    players, dynamic objects, corpses and groups; and guids of different parts differ. *)
Theorem guid_parts_roundtrip (l e h : Z) :
  in_u 16 h →
  (if no_entry_kind h then in_u 32 l ∧ e = 0 else in_u 24 l ∧ in_u 24 e) →
  GUID_HIPART (MAKE_NEW_GUID l e h) = h ∧
  GUID_ENPART (MAKE_NEW_GUID l e h) = e ∧
  GUID_LOPART (MAKE_NEW_GUID l e h) = l.
Proof.
  intros Hh Hle.
  assert (MAKE_NEW_GUID l e h = l + e * 2 ^ 24 + h * 2 ^ 48) as ->.
  { apply make_new_guid_val; [|done]. destruct (no_entry_kind h); [by right|by left]. }
  set (g := l + e * 2 ^ 24 + h * 2 ^ 48).
  assert (in_u 24 l ∧ in_u 24 e ∨ in_u 32 l ∧ e = 0) as Hor
    by (destruct (no_entry_kind h); [by right|by left]).
  unfold in_u in *.
  assert (uwrap 64 g = g) as Hg by (apply uwrap_small; unfold in_u; lia).
  assert (GUID_HIPART g = h) as Hhi by (rewrite guid_hipart_val, Hg; unfold g; div_lia).
  split; [done|].
  assert (IsGuidHaveEnPart g = negb (no_entry_kind h)) as Hen.
  { unfold IsGuidHaveEnPart, no_entry_kind. rewrite Hhi. simpl. f_equal.
    by rewrite orb_false_r, !orb_assoc. }
  unfold GUID_ENPART, GUID_LOPART. rewrite Hen.
  destruct (no_entry_kind h); simpl.
  - destruct Hle as [Hl ->]. rewrite guid_lopart2_val, Hg. unfold g. div_lia.
  - rewrite guid_enpart_val, guid_lopart3_val, Hg. unfold g. div_lia.
Qed.

