(* ===== verification/UpdateMask.v ===== *)
(** * UpdateMask: the bit mask of changed fields of
      src/src/server/game/Entities/Object/Updates/UpdateMask.h

    The array behind [mUpdateMask] is the list of its bytes, [4 * mBlocks] of
    them; the null pointer of a fresh mask is the empty list. *)

From Stdlib Require Import ZArith Lia.
From S2P Require Import Prelude.
Local Open Scope Z_scope.

Record UpdateMask := mkMask {
  mCount : Z;
  mBlocks : Z;
  mUpdateMask : list Z
}.

Abbreviation um := (prog UpdateMask fault).

(** [UpdateMask()]. *)
Definition new_mask : UpdateMask := mkMask 0 0 [].

Definition load_byte (i : nat) : um Z := λ m,
  match mUpdateMask m !! i with
  | Some b => (Ret b, m)
  | None => (Throw Undefined, m)
  end.

Definition store_byte (i : nat) (b : Z) : um unit := modify (λ m,
  mkMask (mCount m) (mBlocks m) (<[i := b]> (mUpdateMask m))).

Definition byte_index (index : Z) : nat := Z.to_nat (Z.shiftr index 3).

Definition bit_of (index : Z) : Z := Z.shiftl 1 (Z.land index 7).

Definition SetBit (index : Z) : um unit :=
  b ← load_byte (byte_index index);
  store_byte (byte_index index) (uwrap 8 (Z.lor b (bit_of index))).

Definition UnsetBit (index : Z) : um unit :=
  b ← load_byte (byte_index index);
  store_byte (byte_index index) (uwrap 8 (Z.land b (Z.lxor 255 (bit_of index)))).

Definition GetBit (index : Z) : um bool :=
  b ← load_byte (byte_index index);
  mret (has_bits b (bit_of index)).

Definition GetBlockCount (m : UpdateMask) : Z := mBlocks m.
Definition GetLength (m : UpdateMask) : Z := uwrap 32 (Z.shiftl (mBlocks m) 2).
Definition GetCount (m : UpdateMask) : Z := mCount m.

Definition SetCount (valuesCount : Z) : um unit := modify (λ _,
  let blocks := uwrap 32 (valuesCount + 31) / 32 in
  mkMask valuesCount blocks (replicate (Z.to_nat (4 * blocks)) 0)).

Definition Clear : um unit := modify (λ m,
  mkMask (mCount m) (mBlocks m) (replicate (length (mUpdateMask m)) 0)).

(** [operator=]: [SetCount] and a copy of as many blocks of [mask]. *)
Definition assign (mask : UpdateMask) : um unit :=
  SetCount (mCount mask);;
  modify (λ m, mkMask (mCount m) (mBlocks m) (take (length (mUpdateMask m)) (mUpdateMask mask))).

(** The loop of [operator&=] and [operator|=] over the blocks of [this], four
    bytes each; reading a block that [mask] does not have is undefined. *)
Fixpoint combine_blocks (f : Z → Z → Z) (blocks : nat) (mine other : list Z) : option (list Z) :=
  match blocks with
  | O => Some mine
  | S blocks =>
    if Nat.ltb (length mine) 4 || Nat.ltb (length other) 4 then None
    else
      rest ← combine_blocks f blocks (drop 4 mine) (drop 4 other);
      Some (zip_with f (take 4 mine) (take 4 other) ++ rest)
  end.

Definition combine_bytes (f : Z → Z → Z) (mask : UpdateMask) : um unit := λ m,
  match combine_blocks f (Z.to_nat (mBlocks m)) (mUpdateMask m) (mUpdateMask mask) with
  | Some bytes => (Ret tt, mkMask (mCount m) (mBlocks m) bytes)
  | None => (Throw Undefined, m)
  end.

Definition combine_with (f : Z → Z → Z) (mask : UpdateMask) : um unit :=
  n ← gets mCount;
  assert_ (mCount mask <=? n);;
  combine_bytes f mask.

Definition and_assign (mask : UpdateMask) : um unit := combine_with Z.land mask.
Definition or_assign (mask : UpdateMask) : um unit := combine_with Z.lor mask.

(** [operator&] and [operator|] work on a copy. *)
Definition and_mask (mask : UpdateMask) : um UpdateMask := λ m,
  match (assert_ (mCount mask <=? mCount m);; assign m;; and_assign mask) m with
  | (Ret _, newmask) => (Ret newmask, m)
  | (Throw e, _) => (Throw e, m)
  end.

Definition or_mask (mask : UpdateMask) : um UpdateMask := λ m,
  match (assert_ (mCount mask <=? mCount m);; assign m;; or_assign mask) m with
  | (Ret _, newmask) => (Ret newmask, m)
  | (Throw e, _) => (Throw e, m)
  end.

(** ** The mask as a set of field indices *)

Definition wf_mask (m : UpdateMask) : Prop :=
  0 <= mBlocks m < 2 ^ 26 ∧ length (mUpdateMask m) = Z.to_nat (4 * mBlocks m) ∧
  Forall (λ b, 0 <= b < 256) (mUpdateMask m) ∧ mCount m <= 32 * mBlocks m.

Definition in_range (m : UpdateMask) (i : Z) : Prop := 0 <= i < 32 * mBlocks m.

(** Field [i] is in the mask. *)
Definition bits (m : UpdateMask) (i : Z) : bool :=
  match mUpdateMask m !! byte_index i with
  | Some b => Z.testbit b (i mod 8)
  | None => false
  end.

Lemma bit_of_pow2 i : bit_of i = 2 ^ (i mod 8).
Proof. unfold bit_of. rewrite Z.shiftl_1_l. change 7 with (Z.ones 3). by rewrite Z.land_ones by lia. Qed.

Lemma byte_index_div i : byte_index i = Z.to_nat (i / 8).
Proof. unfold byte_index. by rewrite Z.shiftr_div_pow2 by lia. Qed.

Lemma in_range_lookup m i :
  wf_mask m → in_range m i → ∃ b, mUpdateMask m !! byte_index i = Some b ∧ 0 <= b < 256.
Proof.
  intros (Hb & Hl & Hall & _) Hi. unfold in_range in Hi.
  destruct (lookup_lt_is_Some_2 (mUpdateMask m) (byte_index i)) as [b Hlk].
  { rewrite Hl, byte_index_div. div_lia. }
  exists b. split; [done|]. by eapply Forall_lookup_1 in Hall.
Qed.

Lemma same_bit i j : 0 <= i → 0 <= j → byte_index i = byte_index j → i mod 8 = j mod 8 → i = j.
Proof. rewrite !byte_index_div. intros. div_lia. Qed.

Lemma GetBit_bits m i : wf_mask m → in_range m i → GetBit i m = (Ret (bits m i), m).
Proof.
  intros Hm Hi. destruct (in_range_lookup m i Hm Hi) as (b & Hb & _).
  unfold GetBit, bits, load_byte, mbind, prog_bind. rewrite Hb. unfold mret, prog_ret.
  rewrite bit_of_pow2, has_bits_pow2; [done|]. apply Z.mod_pos_bound. lia.
Qed.

Lemma bits_out_of_range m i : wf_mask m → 32 * mBlocks m <= i → bits m i = false.
Proof.
  intros (Hb & Hl & _) Hi. unfold bits. rewrite lookup_ge_None_2; [done|].
  rewrite Hl, byte_index_div. div_lia.
Qed.

(** Storing [b] at the byte of [i] changes only the bits of that byte. *)
Lemma bits_store m i b j :
  in_range m i → in_range m j → wf_mask m →
  bits (mkMask (mCount m) (mBlocks m) (<[byte_index i := b]> (mUpdateMask m))) j =
    if decide (byte_index i = byte_index j) then Z.testbit b (j mod 8) else bits m j.
Proof.
  intros Hi Hj Hm. unfold bits. simpl. case_decide as E.
  - rewrite <- E. rewrite list_lookup_insert_eq; [done|].
    destruct (in_range_lookup m i Hm Hi) as (b' & Hb' & _). by eapply lookup_lt_Some.
  - by rewrite list_lookup_insert_ne.
Qed.

Lemma wf_store m i b : wf_mask m → 0 <= b < 256 →
  wf_mask (mkMask (mCount m) (mBlocks m) (<[i := b]> (mUpdateMask m))).
Proof.
  intros (Hb & Hl & Hall & Hc) Hrange. split_and!; simpl; [lia|lia| | |done].
  - by rewrite length_insert.
  - by apply Forall_insert.
Qed.

Lemma modify_byte_run m i g :
  wf_mask m → in_range m i →
  (b ← load_byte (byte_index i); store_byte (byte_index i) (g b)) m =
    (Ret tt, mkMask (mCount m) (mBlocks m)
               (<[byte_index i := g (default 0 (mUpdateMask m !! byte_index i))]> (mUpdateMask m))).
Proof.
  intros Hm Hi. destruct (in_range_lookup m i Hm Hi) as (b & Hb & _).
  unfold load_byte, mbind, prog_bind. by rewrite Hb.
Qed.

Lemma bits_default m j :
  wf_mask m → in_range m j →
  bits m j = Z.testbit (default 0 (mUpdateMask m !! byte_index j)) (j mod 8).
Proof. intros Hm Hj. unfold bits. destruct (in_range_lookup m j Hm Hj) as (b & -> & _). done. Qed.

Lemma set_unset_bits m i j g (v : bool) :
  wf_mask m → in_range m i → in_range m j →
  (∀ b k, 0 <= k < 8 → Z.testbit (g b) k = if i mod 8 =? k then v else Z.testbit b k) →
  bits (mkMask (mCount m) (mBlocks m)
          (<[byte_index i := g (default 0 (mUpdateMask m !! byte_index i))]> (mUpdateMask m))) j =
    if i =? j then v else bits m j.
Proof.
  intros Hm Hi Hj Hg. rewrite bits_store by done.
  pose proof (Z.mod_pos_bound j 8). unfold in_range in *.
  destruct (decide (byte_index i = byte_index j)) as [E|E].
  - rewrite Hg by lia. destruct (Z.eqb_spec (i mod 8) (j mod 8)) as [Em|Em].
    + rewrite (same_bit i j) by first [lia|done]. by rewrite Z.eqb_refl.
    + rewrite (proj2 (Z.eqb_neq i j)) by congruence.
      by rewrite E, bits_default.
  - rewrite (proj2 (Z.eqb_neq i j)) by congruence. done.
Qed.

Lemma testbit_set_bit i b k : 0 <= k < 8 →
  Z.testbit (uwrap 8 (Z.lor b (bit_of i))) k = if i mod 8 =? k then true else Z.testbit b k.
Proof.
  intros Hk. rewrite testbit_uwrap, Z.lor_spec, bit_of_pow2, testbit_pow2 by (apply Z.mod_pos_bound || lia; lia).
  decide_cmp. case_cmp; by rewrite ?orb_true_r, ?orb_false_r.
Qed.

Lemma testbit_unset_bit i b k : 0 <= k < 8 →
  Z.testbit (uwrap 8 (Z.land b (Z.lxor 255 (bit_of i)))) k =
    if i mod 8 =? k then false else Z.testbit b k.
Proof.
  intros Hk. rewrite testbit_uwrap, Z.land_spec, Z.lxor_spec, bit_of_pow2, testbit_pow2
    by (apply Z.mod_pos_bound || lia; lia).
  change 255 with (Z.ones 8). rewrite Z.testbit_ones_nonneg by lia. decide_cmp.
  case_cmp; simpl; by rewrite ?andb_true_r, ?andb_false_r.
Qed.

Lemma combine_blocks_spec f k mine other :
  (4 * k <= length mine)%nat →
  combine_blocks f k mine other =
    if Nat.leb (4 * k) (length other)
    then Some (zip_with f (take (4 * k) mine) (take (4 * k) other) ++ drop (4 * k) mine)
    else None.
Proof.
  revert mine other. induction k as [|k IH]; intros mine other Hl; [done|].
  cbn [combine_blocks]. destruct (Nat.ltb_spec (length mine) 4); [lia|]. simpl orb.
  destruct (Nat.ltb_spec (length other) 4).
  { destruct (Nat.leb_spec (4 * S k) (length other)); [lia|done]. }
  rewrite IH by (rewrite length_drop; lia). rewrite length_drop.
  destruct (Nat.leb_spec (4 * k) (length other - 4));
    destruct (Nat.leb_spec (4 * S k) (length other)); try lia; [|done].
  cbn [mbind option_bind]. f_equal. rewrite app_assoc. replace (4 * S k)%nat with (4 + 4 * k)%nat by lia.
  rewrite <- drop_drop. f_equal.
  rewrite <- zip_with_app by (rewrite !length_take; lia). f_equal; by rewrite take_take_drop.
Qed.

Lemma combine_run f m mask :
  wf_mask m → wf_mask mask → mCount mask <= mCount m →
  combine_with f mask m =
    if mBlocks m <=? mBlocks mask
    then (Ret tt, mkMask (mCount m) (mBlocks m)
            (zip_with f (mUpdateMask m) (take (length (mUpdateMask m)) (mUpdateMask mask))))
    else (Throw Undefined, m).
Proof.
  intros (Hb & Hl & _) (Hb' & Hl' & _) Hc. unfold combine_with, gets, assert_, mbind, prog_bind.
  decide_cmp. unfold combine_bytes.
  replace (Z.to_nat (4 * mBlocks m)) with (4 * Z.to_nat (mBlocks m))%nat in Hl by lia.
  rewrite combine_blocks_spec by lia. rewrite Hl'.
  destruct (Z.leb_spec (mBlocks m) (mBlocks mask)).
  - destruct (Nat.leb_spec (4 * Z.to_nat (mBlocks m)) (Z.to_nat (4 * mBlocks mask))); [|lia].
    rewrite <- Hl, firstn_all, drop_all, app_nil_r. done.
  - destruct (Nat.leb_spec (4 * Z.to_nat (mBlocks m)) (Z.to_nat (4 * mBlocks mask))); [lia|done].
Qed.

Lemma bits_zip f g m mask i :
  (∀ a b k, Z.testbit (f a b) k = g (Z.testbit a k) (Z.testbit b k)) →
  wf_mask m → wf_mask mask → mBlocks m <= mBlocks mask → in_range m i →
  bits (mkMask (mCount m) (mBlocks m)
          (zip_with f (mUpdateMask m) (take (length (mUpdateMask m)) (mUpdateMask mask)))) i =
    g (bits m i) (bits mask i).
Proof.
  intros Hg Hm Hmask Hle Hi.
  assert (in_range mask i) as Hi' by (unfold in_range in *; lia).
  destruct (in_range_lookup m i Hm Hi) as (a & Ha & _).
  destruct (in_range_lookup mask i Hmask Hi') as (b & Hb & _).
  unfold bits. simpl. rewrite lookup_zip_with, Ha. simpl.
  rewrite lookup_take_lt, Hb by (by eapply lookup_lt_Some). simpl. by rewrite Hg.
Qed.

(** Clearing or resizing gives the empty set. *)
Lemma bits_zeros c n l i : bits (mkMask c n (replicate l 0)) i = false.
Proof.
  unfold bits. simpl. destruct (replicate l 0 !! byte_index i) eqn:E; [|done].
  apply lookup_replicate in E as [-> _]. apply Z.bits_0.
Qed.

(** ** Properties *)

(** The mask is the set of field indices it claims to be: in range, [SetBit] adds exactly
    its index, [UnsetBit] removes exactly its index, [GetBit] is membership, [Clear]
    empties it, and none of them reads outside the array. *)
Theorem mask_refines_set (m : UpdateMask) (i : Z) :
  wf_mask m → in_range m i →
  GetBit i m = (Ret (bits m i), m) ∧
  (∃ m', SetBit i m = (Ret tt, m') ∧
     ∀ j, in_range m j → bits m' j = (i =? j) || bits m j) ∧
  (∃ m', UnsetBit i m = (Ret tt, m') ∧
     ∀ j, in_range m j → bits m' j = negb (i =? j) && bits m j) ∧
  (∃ m', Clear m = (Ret tt, m') ∧ ∀ j, bits m' j = false).
Proof.
  intros Hm Hi. split_and!.
  - by apply GetBit_bits.
  - unfold SetBit. rewrite (modify_byte_run m i (λ b, uwrap 8 (Z.lor b (bit_of i)))) by done.
    eexists; split; [done|]. intros j Hj. rewrite (set_unset_bits m i j (λ b, uwrap 8 (Z.lor b (bit_of i))) true) by
      (done || apply testbit_set_bit). by destruct (i =? j).
  - unfold UnsetBit.
    rewrite (modify_byte_run m i (λ b, uwrap 8 (Z.land b (Z.lxor 255 (bit_of i))))) by done.
    eexists; split; [done|]. intros j Hj.
    rewrite (set_unset_bits m i j (λ b, uwrap 8 (Z.land b (Z.lxor 255 (bit_of i)))) false) by
      (done || apply testbit_unset_bit). by destruct (i =? j).
  - eexists; split; [done|]. intros j. apply bits_zeros.
Qed.

Definition sample_mask : UpdateMask := mkMask 40 2 [0; 0; 129; 0; 4; 0; 0; 0].

Lemma wf_sample_mask : wf_mask sample_mask.
Proof. unfold wf_mask. by_decide. Qed.

Lemma mask_refines_set_witness :
  GetBit 34 sample_mask = (Ret true, sample_mask) ∧
  ∃ m', SetBit 20 sample_mask = (Ret tt, m') ∧ bits m' 20 = true ∧ bits m' 34 = true.
Proof.
  destruct (mask_refines_set sample_mask 34) as [H _]; [apply wf_sample_mask|done|].
  destruct (mask_refines_set sample_mask 20) as (_ & (m' & Hs & Hb) & _);
    [apply wf_sample_mask|done|].
  split; [exact H|]. exists m'. split; [exact Hs|]. split; rewrite Hb; done.
Defined.

(** Union and intersection of masks of the same size are union and intersection of the
    sets; but when the right operand has fewer blocks, which the [ASSERT] of the code
    accepts, the loop reads past the end of its array. *)
Theorem mask_combine (m mask : UpdateMask) :
  wf_mask m → wf_mask mask → mCount mask <= mCount m →
  (mBlocks mask = mBlocks m →
     (∃ m', or_assign mask m = (Ret tt, m') ∧
        ∀ i, in_range m i → bits m' i = bits m i || bits mask i) ∧
     (∃ m', and_assign mask m = (Ret tt, m') ∧
        ∀ i, in_range m i → bits m' i = bits m i && bits mask i)) ∧
  (mBlocks mask < mBlocks m →
     or_assign mask m = (Throw Undefined, m) ∧ and_assign mask m = (Throw Undefined, m)).
Proof.
  intros Hm Hmask Hc. unfold or_assign, and_assign. rewrite !combine_run by done. split.
  - intros Heq. decide_cmp. split; (eexists; split; [done|]); intros i Hi;
      apply bits_zip; try done; [intros; apply Z.lor_spec|lia|intros; apply Z.land_spec|lia].
  - intros Hlt. by decide_cmp.
Qed.

