(* ===== verification/Util.v ===== *)
(** * Util: decimal text and the tokenizer of src/src/server/shared/Utilities/Util.cpp

    Text is the list of its character codes. Number output is that of
    [std::ostream], number input that of the C library's [atol]. *)

From Stdlib Require Import ZArith Lia.
From S2P Require Import Prelude.
Local Open Scope Z_scope.

Definition space : Z := 32.

(** ** Decimal output of an unsigned integer *)

(** [fuel] bounds the number of digits; 20 are enough for 64 bits. *)
Fixpoint dec_digits (fuel : nat) (n : Z) (acc : list Z) : list Z :=
  match fuel with
  | O => acc
  | S fuel =>
    let acc := (48 + n mod 10) :: acc in
    if n / 10 =? 0 then acc else dec_digits fuel (n / 10) acc
  end.

Definition print_u64 (n : Z) : list Z := dec_digits 20 n [].

(** ** atol *)

Definition is_space (c : Z) : bool := (c =? 32) || ((9 <=? c) && (c <=? 13)).
Definition is_digit (c : Z) : bool := (48 <=? c) && (c <=? 57).

Fixpoint skip_spaces (s : list Z) : list Z :=
  match s with
  | c :: s' => if is_space c then skip_spaces s' else s
  | [] => []
  end.

Fixpoint read_digits (s : list Z) (n : Z) : Z :=
  match s with
  | c :: s' => if is_digit c then read_digits s' (10 * n + (c - 48)) else n
  | [] => n
  end.

(** The number at the start of a text, of any size. *)
Definition signed_decimal (s : list Z) : Z :=
  match skip_spaces s with
  | c :: s' => if c =? 45 then - read_digits s' 0
               else if c =? 43 then read_digits s' 0
               else read_digits (c :: s') 0
  | [] => 0
  end.

(** The value is undefined when it does not fit the 64-bit [long]. *)
Definition atol (s : list Z) : option Z :=
  let v := signed_decimal s in
  if (- 2 ^ 63 <=? v) && (v <? 2 ^ 63) then Some v else None.

(** [strtol(s, NULL, 10)] gives the nearest [long] instead. *)
Definition strtol (s : list Z) : Z := Z.max (- 2 ^ 63) (Z.min (signed_decimal s) (2 ^ 63 - 1)).

(** ** Tokens

    The loop of [Tokens::Tokens]: [old] is the text from [posold] to [posnew].
    The separator is not the zero character. *)
Fixpoint tokens_loop (sep : Z) (old src : list Z) (acc : list (list Z)) : list (list Z) :=
  match src with
  | c :: src =>
    if c =? sep then tokens_loop sep [] src (acc ++ [old])
    else if c =? 0 then (match old with [] => acc | _ => acc ++ [old] end)
    else tokens_loop sep (old ++ [c]) src acc
  | [] => match old with [] => acc | _ => acc ++ [old] end
  end.

Definition Tokens (src : list Z) (sep : Z) : list (list Z) := tokens_loop sep [] src [].

(** ** Facts *)

Lemma dec_digits_app fuel n acc : dec_digits fuel n acc = dec_digits fuel n [] ++ acc.
Proof.
  revert n acc. induction fuel as [|fuel IH]; intros n acc; cbn [dec_digits]; [done|].
  destruct (n / 10 =? 0); [done|]. rewrite IH, (IH _ [_]), <- app_assoc. done.
Qed.

Lemma dec_digits_are_digits fuel n : 0 <= n → Forall (λ c, is_digit c = true) (dec_digits fuel n []).
Proof.
  revert n. induction fuel as [|fuel IH]; intros n Hn; cbn [dec_digits]; [constructor|].
  assert (is_digit (48 + n mod 10) = true) as Hd.
  { unfold is_digit. pose proof (Z.mod_pos_bound n 10). by decide_cmp. }
  destruct (n / 10 =? 0); [by repeat constructor|].
  rewrite dec_digits_app. apply Forall_app. split; [apply IH; div_lia|by repeat constructor].
Qed.

Lemma read_digits_app s t n :
  Forall (λ c, is_digit c = true) s → read_digits (s ++ t) n = read_digits t (read_digits s n).
Proof.
  intros H. revert n. induction H as [|c s Hc Hs IH]; intros n; cbn [app read_digits]; [done|].
  rewrite Hc. apply IH.
Qed.

Lemma read_dec_digits fuel n :
  0 <= n < 10 ^ Z.of_nat fuel → (0 < fuel)%nat → read_digits (dec_digits fuel n []) 0 = n.
Proof.
  revert n. induction fuel as [|fuel IH]; intros n Hn Hf; [lia|]. cbn [dec_digits].
  assert (is_digit (48 + n mod 10) = true) as Hd.
  { unfold is_digit. pose proof (Z.mod_pos_bound n 10). by decide_cmp. }
  destruct (Z.eqb_spec (n / 10) 0) as [E|E].
  - cbn [read_digits]. rewrite Hd. div_lia.
  - rewrite dec_digits_app, read_digits_app by (apply dec_digits_are_digits; div_lia).
    replace (Z.of_nat (S fuel)) with (1 + Z.of_nat fuel) in Hn by lia.
    rewrite Z.pow_add_r in Hn by lia.
    destruct fuel as [|fuel].
    { change (10 ^ Z.of_nat 0) with 1 in Hn. div_lia. }
    rewrite IH by (lia || (split; [div_lia|]; apply Z.div_lt_upper_bound; lia)).
    cbn [read_digits]. rewrite Hd. div_lia.
Qed.

Lemma digit_not_special c : is_digit c = true → is_space c = false ∧ c ≠ 45 ∧ c ≠ 43 ∧ c ≠ 0.
Proof.
  unfold is_digit, is_space. rewrite andb_true_iff, !Z.leb_le. intros [??].
  split_and!; [|lia..]. by decide_cmp.
Qed.

Lemma print_u64_digits n : 0 <= n → Forall (λ c, is_digit c = true) (print_u64 n).
Proof. apply dec_digits_are_digits. Qed.

Lemma dec_digits_nonempty fuel n : dec_digits (S fuel) n [] ≠ [].
Proof.
  cbn [dec_digits]. destruct (_ =? 0); [done|].
  rewrite dec_digits_app. intros H. by apply app_nil in H as [_ ?].
Qed.

Lemma print_u64_nonempty n : print_u64 n ≠ [].
Proof. apply dec_digits_nonempty. Qed.

Lemma atol_print n : 0 <= n < 2 ^ 63 → atol (print_u64 n) = Some n.
Proof.
  intros Hn. pose proof (print_u64_digits n ltac:(lia)) as Hd.
  pose proof (read_dec_digits 20 n) as Hr. fold (print_u64 n) in Hr.
  assert (0 <= n < 10 ^ Z.of_nat 20) as Hb.
  { split; [lia|]. apply Z.lt_trans with (2 ^ 63); [lia|]. vm_compute. done. }
  specialize (Hr Hb ltac:(lia)).
  pose proof (print_u64_nonempty n). unfold atol, signed_decimal.
  destruct (print_u64 n) as [|c s]; [done|]. apply Forall_cons in Hd as [Hc _].
  destruct (digit_not_special c Hc) as (Hsp & ? & ? & _). cbn [skip_spaces].
  rewrite Hsp. decide_cmp. rewrite Hr. by decide_cmp.
Qed.

Lemma tokens_loop_word sep old w src acc :
  Forall (λ c, c ≠ sep ∧ c ≠ 0) w →
  tokens_loop sep old (w ++ src) acc = tokens_loop sep (old ++ w) src acc.
Proof.
  intros H. revert old. induction H as [|c w [Hs Hz] Hw IH]; intros old; cbn [app tokens_loop].
  - by rewrite app_nil_r.
  - decide_cmp. rewrite IH. by rewrite <- app_assoc.
Qed.

(** A list of words, each followed by the separator, splits back into the words. *)
Lemma tokens_of_words sep ws acc :
  Forall (Forall (λ c, c ≠ sep ∧ c ≠ 0)) ws →
  tokens_loop sep [] (ws ≫= λ w, w ++ [sep]) acc = acc ++ ws.
Proof.
  intros H. revert acc. induction H as [|w ws Hw Hws IH]; intros acc; cbn [mbind list_bind].
  - cbn. by rewrite app_nil_r.
  - rewrite <- app_assoc, tokens_loop_word by done. cbn [app tokens_loop].
    rewrite Z.eqb_refl. rewrite IH, <- app_assoc. done.
Qed.

(** Numbers printed with a space after each and read back by [Tokens] and [atol]. *)
Lemma print_tokens_roundtrip ns :
  Forall (λ n, 0 <= n < 2 ^ 63) ns →
  atol <$> Tokens (ns ≫= λ n, print_u64 n ++ [space]) space = Some <$> ns.
Proof.
  intros H. unfold Tokens.
  assert ((ns ≫= λ n, print_u64 n ++ [space]) = (print_u64 <$> ns) ≫= λ w, w ++ [space]) as ->.
  { by rewrite list_fmap_bind. }
  rewrite tokens_of_words.
  - cbn [app]. rewrite <- list_fmap_compose. apply list_fmap_ext. intros i n Hn.
    apply atol_print. by eapply Forall_lookup_1 in H.
  - apply Forall_fmap. eapply Forall_impl; [exact H|]. intros n Hn. simpl in *.
    eapply Forall_impl; [apply print_u64_digits; lia|]. intros c Hc. simpl in Hc.
    apply digit_not_special in Hc as (Hs & _ & _ & ?). split; [|done]. intros ->. done.
Qed.
