(* ===== verification/ObjectValues.v ===== *)
(** * ObjectValues: the update fields of src/src/server/game/Entities/Object/Object.cpp

    An object keeps its synchronised state in an array of 32-bit fields and a flag
    per field that changed since the clients were told; an object in the world with
    a change is in the accessor's set of objects to update. *)

From Stdlib Require Import ZArith Lia.
From S2P Require Import Prelude ByteBuffer Float32 Guid Util UpdateMask.
Local Open Scope Z_scope.

Definition OBJECT_FIELD_GUID : Z := 0.
Definition OBJECT_FIELD_TYPE : Z := 2.
Definition OBJECT_FIELD_ENTRY : Z := 3.

Definition TYPEID_DYNAMICOBJECT : Z := 6.

(** [m_uint32Values] is [None] while the pointer is null. [i_objects] is the
    update set of [ObjectAccessor], which holds object identities. *)
Record Object := mkObject {
  m_objectType : Z;
  m_valuesCount : Z;
  m_uint32Values : option (list Z);
  _changedFields : list bool;
  m_inWorld : bool;
  m_objectUpdated : bool;
  m_PackGUID : ByteBuffer;
  i_objects : gset Z
}.

Abbreviation ob := (prog Object fault).

Definition with_values (vs : option (list Z)) (o : Object) : Object :=
  mkObject (m_objectType o) (m_valuesCount o) vs (_changedFields o) (m_inWorld o)
    (m_objectUpdated o) (m_PackGUID o) (i_objects o).
Definition with_changed (cs : list bool) (o : Object) : Object :=
  mkObject (m_objectType o) (m_valuesCount o) (m_uint32Values o) cs (m_inWorld o)
    (m_objectUpdated o) (m_PackGUID o) (i_objects o).
Definition with_world (w : bool) (o : Object) : Object :=
  mkObject (m_objectType o) (m_valuesCount o) (m_uint32Values o) (_changedFields o) w
    (m_objectUpdated o) (m_PackGUID o) (i_objects o).
Definition with_updated (u : bool) (s : gset Z) (o : Object) : Object :=
  mkObject (m_objectType o) (m_valuesCount o) (m_uint32Values o) (_changedFields o)
    (m_inWorld o) u (m_PackGUID o) s.
Definition with_packguid (b : ByteBuffer) (o : Object) : Object :=
  mkObject (m_objectType o) (m_valuesCount o) (m_uint32Values o) (_changedFields o)
    (m_inWorld o) (m_objectUpdated o) b (i_objects o).

(** ** Raw field access *)

(** [ASSERT(index < m_valuesCount || PrintIndexError(index, set))]. *)
Definition PrintIndexError (index : Z) (set : bool) : bool := false.

Definition check_index (index : Z) (set : bool) : ob unit :=
  n ← gets m_valuesCount; assert_ ((index <? n) || PrintIndexError index set).

Definition load (index : Z) : ob Z := λ o,
  match m_uint32Values o ≫= lookup (Z.to_nat index) with
  | Some v => (Ret v, o)
  | None => (Throw Undefined, o)
  end.

Definition store (index value : Z) : ob unit := λ o,
  match m_uint32Values o ≫= lookup (Z.to_nat index) with
  | Some _ => (Ret tt, with_values (insert (Z.to_nat index) value <$> m_uint32Values o) o)
  | None => (Throw Undefined, o)
  end.

Definition touch (index : Z) : ob unit := λ o,
  match _changedFields o !! Z.to_nat index with
  | Some _ => (Ret tt, with_changed (<[Z.to_nat index := true]> (_changedFields o)) o)
  | None => (Throw Undefined, o)
  end.

(** The two words of a [uint64] field, low word first. *)
Definition load64 (index : Z) : ob Z :=
  l ← load index; h ← load (index + 1); mret (l + h * 2 ^ 32).

Definition store64 (index value : Z) : ob unit :=
  store index (PAIR64_LOPART value);;
  store (index + 1) (PAIR64_HIPART value);;
  touch index;;
  touch (index + 1).

Section Object.

(** The identity of the object, its pointer. *)
Context (this : Z).

(** [if (m_inWorld && !m_objectUpdated) { AddUpdateObject(this); m_objectUpdated = true; }] *)
Definition notify_update : ob unit := modify (λ o,
  if m_inWorld o && negb (m_objectUpdated o)
  then with_updated true ({[this]} ∪ i_objects o) o else o).

(** ** Life cycle *)

Definition _InitValues : ob unit := modify (λ o,
  let n := Z.to_nat (m_valuesCount o) in
  with_updated false (i_objects o)
    (with_changed (replicate n false) (with_values (Some (replicate n 0)) o))).

Definition ClearUpdateMask (remove : bool) : ob unit := modify (λ o,
  let o := with_changed (replicate (Z.to_nat (m_valuesCount o)) false) o in
  if m_objectUpdated o
  then with_updated false (if remove then i_objects o ∖ {[this]} else i_objects o) o
  else o).

Definition AddToWorld : ob unit :=
  w ← gets m_inWorld;
  if w : bool then mret tt
  else
    vs ← gets m_uint32Values;
    assert_ (bool_decide (is_Some vs));;
    modify (with_world true);;
    ClearUpdateMask true.

Definition RemoveFromWorld : ob unit :=
  w ← gets m_inWorld;
  if w : bool then modify (with_world false);; ClearUpdateMask true else mret tt.

(** ** Getters *)

Definition GetInt32Value (index : Z) : ob Z :=
  check_index index false;; v ← load index; mret (swrap 32 v).
Definition GetUInt32Value (index : Z) : ob Z := check_index index false;; load index.
Definition GetUInt64Value (index : Z) : ob Z := check_index (index + 1) false;; load64 index.
(** A [float] field is read as the 32 bits of its memory. *)
Definition GetFloatValue (index : Z) : ob Z := check_index index false;; load index.

(** The bytes of a field lie low byte first. *)
Definition GetByteValue (index offset : Z) : ob Z :=
  check_index index false;; assert_ (offset <? 4);;
  v ← load index; mret (uwrap 8 (Z.shiftr v (offset * 8))).
Definition GetUInt16Value (index offset : Z) : ob Z :=
  check_index index false;; assert_ (offset <? 2);;
  v ← load index; mret (uwrap 16 (Z.shiftr v (offset * 16))).

Definition GetGUID : ob Z := GetUInt64Value 0.

(** ** Setters *)

Definition SetInt32Value (index value : Z) : ob unit :=
  check_index index true;;
  old ← load index;
  if negb (swrap 32 old =? value) then
    store index (uwrap 32 value);; touch index;; notify_update
  else mret tt.

Definition SetUInt32Value (index value : Z) : ob unit :=
  check_index index true;;
  old ← load index;
  if negb (old =? value) then
    store index value;; touch index;; notify_update
  else mret tt.

Definition UpdateUInt32Value (index value : Z) : ob unit :=
  check_index index true;; store index value;; touch index.

Definition SetUInt64Value (index value : Z) : ob unit :=
  check_index (index + 1) true;;
  old ← load64 index;
  if negb (old =? value) then store64 index value;; notify_update else mret tt.

Definition AddUInt64Value (index value : Z) : ob bool :=
  check_index (index + 1) true;;
  old ← load64 index;
  if negb (value =? 0) && (old =? 0) then
    store64 index value;; notify_update;; mret true
  else mret false.

Definition RemoveUInt64Value (index value : Z) : ob bool :=
  check_index (index + 1) true;;
  old ← load64 index;
  if negb (value =? 0) && (old =? value) then
    store64 index 0;; notify_update;; mret true
  else mret false.

(** [SetFloatValue] compares [float]s, so [-0.0] does not replace [0.0] and a NaN
    always counts as a change; [value] is given by its bits. *)
Definition SetFloatValue (index value : Z) : ob unit :=
  check_index index true;;
  old ← load index;
  if negb (f_eqb (f_of_bits old) (f_of_bits value)) then
    store index value;; touch index;; notify_update
  else mret tt.

(** A shift of a 32-bit operand by 32 or more is undefined. *)
Definition check_shift (n : Z) : ob unit :=
  if n <? 32 then mret tt else throw Undefined.

Definition SetByteValue (index offset value : Z) : ob unit :=
  check_index index true;;
  if 4 <? offset then mret tt
  else
    v ← load index;
    check_shift (offset * 8);;
    if negb (uwrap 8 (Z.shiftr v (offset * 8)) =? value) then
      let v := Z.land v (uwrap 32 (Z.lnot (uwrap 32 (Z.shiftl 0xFF (offset * 8))))) in
      let v := Z.lor v (uwrap 32 (Z.shiftl value (offset * 8))) in
      store index v;; touch index;; notify_update
    else mret tt.

Definition SetUInt16Value (index offset value : Z) : ob unit :=
  check_index index true;;
  if 2 <? offset then mret tt
  else
    v ← load index;
    check_shift (offset * 16);;
    if negb (uwrap 16 (Z.shiftr v (offset * 16)) =? value) then
      let v := Z.land v (uwrap 32 (Z.lnot (uwrap 32 (Z.shiftl 0xFFFF (offset * 16))))) in
      let v := Z.lor v (uwrap 32 (Z.shiftl value (offset * 16))) in
      store index v;; touch index;; notify_update
    else mret tt.

Definition SetInt16Value (index offset value : Z) : ob unit :=
  SetUInt16Value index offset (uwrap 16 value).

Definition SetStatFloatValue (index value : Z) : ob unit :=
  SetFloatValue index (if f_ltb (f_of_bits value) (f_of_Z 0) then f_to_bits (f_of_Z 0) else value).

Definition SetStatInt32Value (index value : Z) : ob unit :=
  SetUInt32Value index (uwrap 32 (if value <? 0 then 0 else value)).

(** [int32] arithmetic that overflows is undefined. *)
Definition int32_result (z : Z) : ob Z :=
  if (- 2 ^ 31 <=? z) && (z <? 2 ^ 31) then mret z else throw Undefined.

Definition ApplyModUInt32Value (index val : Z) (apply : bool) : ob unit :=
  v ← GetUInt32Value index;
  d ← int32_result (if apply then val else - val);
  cur ← int32_result (swrap 32 v + d);
  SetUInt32Value index (uwrap 32 (if cur <? 0 then 0 else cur)).

Definition ApplyModInt32Value (index val : Z) (apply : bool) : ob unit :=
  v ← GetInt32Value index;
  d ← int32_result (if apply then val else - val);
  cur ← int32_result (v + d);
  SetInt32Value index cur.

Definition ApplyModSignedFloatValue (index val : Z) (apply : bool) : ob unit :=
  cur ← GetFloatValue index;
  let d := f_of_bits val in
  SetFloatValue index (f_to_bits (f_add (f_of_bits cur) (if apply then d else f_neg d))).

Definition ApplyModPositiveFloatValue (index val : Z) (apply : bool) : ob unit :=
  cur ← GetFloatValue index;
  let d := f_of_bits val in
  let cur := f_add (f_of_bits cur) (if apply then d else f_neg d) in
  SetFloatValue index (f_to_bits (if f_ltb cur (f_of_Z 0) then f_of_Z 0 else cur)).

Definition ApplyPercentModFloatVar (var val : float) (apply : bool) : float :=
  let val := if f_eqb val (f_of_Z (-100)) then f_neg (f_lit 9999 100) else val in
  let sum := f_add (f_of_Z 100) val in
  f_mul var (if apply then f_div sum (f_of_Z 100) else f_div (f_of_Z 100) sum).

Definition ApplyPercentModFloatValue (index val : Z) (apply : bool) : ob unit :=
  value ← GetFloatValue index;
  SetFloatValue index (f_to_bits (ApplyPercentModFloatVar (f_of_bits value) (f_of_bits val) apply)).

Definition SetEntry (entry : Z) : ob unit := SetUInt32Value OBJECT_FIELD_ENTRY entry.

(** ** Flags *)

Definition SetFlag (index newFlag : Z) : ob unit :=
  check_index index true;;
  oldval ← load index;
  let newval := Z.lor oldval newFlag in
  if negb (oldval =? newval) then
    store index newval;; touch index;; notify_update
  else mret tt.

Definition RemoveFlag (index oldFlag : Z) : ob unit :=
  check_index index true;;
  vs ← gets m_uint32Values;
  assert_ (bool_decide (is_Some vs));;
  oldval ← load index;
  let newval := Z.land oldval (uwrap 32 (Z.lnot oldFlag)) in
  if negb (oldval =? newval) then
    store index newval;; touch index;; notify_update
  else mret tt.

Definition HasFlag (index flag : Z) : ob bool :=
  n ← gets m_valuesCount;
  if (n <=? index) && negb (PrintIndexError index false) then mret false
  else v ← load index; mret (has_bits v flag).

Definition ToggleFlag (index flag : Z) : ob unit :=
  b ← HasFlag index flag;
  if b : bool then RemoveFlag index flag else SetFlag index flag.

Definition ApplyModFlag (index flag : Z) (apply : bool) : ob unit :=
  if apply then SetFlag index flag else RemoveFlag index flag.

Definition SetByteFlag (index offset newFlag : Z) : ob unit :=
  check_index index true;;
  if 4 <? offset then mret tt
  else
    v ← load index;
    check_shift (offset * 8);;
    if negb (has_bits (uwrap 8 (Z.shiftr v (offset * 8))) newFlag) then
      store index (Z.lor v (uwrap 32 (Z.shiftl newFlag (offset * 8))));;
      touch index;; notify_update
    else mret tt.

Definition RemoveByteFlag (index offset oldFlag : Z) : ob unit :=
  check_index index true;;
  if 4 <? offset then mret tt
  else
    v ← load index;
    check_shift (offset * 8);;
    if has_bits (uwrap 8 (Z.shiftr v (offset * 8))) oldFlag then
      store index (Z.land v (uwrap 32 (Z.lnot (uwrap 32 (Z.shiftl oldFlag (offset * 8))))));;
      touch index;; notify_update
    else mret tt.

Definition HasByteFlag (index offset flag : Z) : ob bool :=
  check_index index false;; assert_ (offset <? 4);;
  v ← load index; mret (has_bits (uwrap 8 (Z.shiftr v (offset * 8))) flag).

Definition ToggleByteFlag (index offset flag : Z) : ob unit :=
  b ← HasByteFlag index offset flag;
  if b : bool then RemoveByteFlag index offset flag else SetByteFlag index offset flag.

Definition SetFlag64 (index newFlag : Z) : ob unit :=
  oldval ← GetUInt64Value index; SetUInt64Value index (Z.lor oldval newFlag).

Definition RemoveFlag64 (index oldFlag : Z) : ob unit :=
  oldval ← GetUInt64Value index;
  SetUInt64Value index (Z.land oldval (uwrap 64 (Z.lnot oldFlag))).

Definition HasFlag64 (index flag : Z) : ob bool :=
  check_index index false;; v ← GetUInt64Value index; mret (has_bits v flag).

Definition ToggleFlag64 (index flag : Z) : ob unit :=
  b ← HasFlag64 index flag;
  if b : bool then RemoveFlag64 index flag else SetFlag64 index flag.

Definition ApplyModFlag64 (index flag : Z) (apply : bool) : ob unit :=
  if apply then SetFlag64 index flag else RemoveFlag64 index flag.

(** ** Creation, text form and update masks *)

Definition update_pack_guid (guid : Z) : ob unit := λ o,
  match (set_wpos 0;; appendPackGUID guid) (m_PackGUID o) with
  | (Ret _, b) => (Ret tt, with_packguid b o)
  | (Throw AssertionFailed, b) => (Throw AssertFailed, with_packguid b o)
  | (Throw _, b) => (Throw Undefined, with_packguid b o)
  end.

Definition _Create (guidlow entry guidhigh : Z) : ob unit :=
  vs ← gets m_uint32Values;
  (if bool_decide (is_Some vs) then mret tt else _InitValues);;
  let guid := MAKE_NEW_GUID guidlow entry guidhigh in
  SetUInt64Value OBJECT_FIELD_GUID guid;;
  ty ← gets m_objectType;
  SetUInt32Value OBJECT_FIELD_TYPE (if ty =? TYPEID_DYNAMICOBJECT then 65 else ty);;
  g ← GetGUID;
  update_pack_guid g.

Fixpoint _ConcatFields_loop (size : nat) (index startIndex : Z) (ss : list Z) : ob (list Z) :=
  match size with
  | O => mret ss
  | S size =>
    v ← GetUInt32Value (uwrap 16 (index + startIndex));
    _ConcatFields_loop size (index + 1) startIndex (ss ++ print_u64 v ++ [space])
  end.

Definition _ConcatFields (startIndex size : Z) : ob (list Z) :=
  _ConcatFields_loop (Z.to_nat size) 0 startIndex [].

Fixpoint _LoadIntoDataField_loop (tokens : list (list Z)) (index startOffset : Z) : ob unit :=
  match tokens with
  | [] => mret tt
  | t :: tokens =>
    match atol t with
    | None => throw Undefined
    | Some v =>
      store (startOffset + index) (uwrap 32 v);;
      touch (startOffset + index);;
      _LoadIntoDataField_loop tokens (index + 1) startOffset
    end
  end.

(** [data] is [None] for the null pointer. *)
Definition _LoadIntoDataField (data : option (list Z)) (startOffset count : Z) : ob unit :=
  match data with
  | None => mret tt
  | Some data =>
    let tokens := Tokens data space in
    if negb (Z.of_nat (length tokens) =? count) then mret tt
    else _LoadIntoDataField_loop tokens 0 startOffset
  end.

Fixpoint set_bits_where (bs : list bool) (index : Z) : um unit :=
  match bs with
  | [] => mret tt
  | b :: bs =>
    (if b : bool then SetBit index else mret tt);;
    set_bits_where bs (index + 1)
  end.

Definition _SetUpdateBits (o : Object) : um unit :=
  set_bits_where (take (Z.to_nat (m_valuesCount o)) (_changedFields o)) 0.

Definition _SetCreateBits (o : Object) : um unit :=
  set_bits_where ((λ v, negb (v =? 0)) <$>
    take (Z.to_nat (m_valuesCount o)) (default [] (m_uint32Values o))) 0.

End Object.
