(* ===== verification/ObjectFacts.v ===== *)
(** * Facts about the update fields of an object

    [tracks] relates the object before and after a piece of code: no field may
    change without its flag, and no flag may be raised on an object in the world
    without the object being scheduled, but for the fields [UpdateUInt32Value] writes.
    [Tracked] code keeps both, and composes. *)

From Stdlib Require Import ZArith Lia.
From S2P Require Import Prelude ByteBuffer Float32 Guid Util UpdateMask ObjectValues.
Local Open Scope Z_scope.

Definition value (o : Object) (i : nat) : Z := default 0 (m_uint32Values o ≫= lookup i).

Definition changed (o : Object) (i : nat) : bool := default false (_changedFields o !! i).

Definition count (o : Object) : nat := Z.to_nat (m_valuesCount o).

Section Facts.
(** [quiet] are the fields [UpdateUInt32Value] may write: it flags them and leaves the queueing
    of the object to a later call. *)
Context (this : Z) (quiet : nat → Prop).

Definition wf (o : Object) : Prop :=
  0 <= m_valuesCount o < 2 ^ 16 ∧
  (∀ vs, m_uint32Values o = Some vs →
     length vs = count o ∧ length (_changedFields o) = count o) ∧
  (m_objectUpdated o = true → m_inWorld o = true ∧ this ∈ i_objects o).

Definition tracks (o o' : Object) : Prop :=
  m_valuesCount o' = m_valuesCount o ∧ m_inWorld o' = m_inWorld o ∧
  (is_Some (m_uint32Values o') ↔ is_Some (m_uint32Values o)) ∧
  (∀ i, value o' i ≠ value o i → changed o' i = true) ∧
  (∀ i, changed o i = true → changed o' i = true) ∧
  (m_objectUpdated o = true → m_objectUpdated o' = true) ∧
  (∀ i, changed o' i = true → changed o i = false → ¬ quiet i → m_inWorld o' = true → m_objectUpdated o' = true).

Lemma tracks_refl o : tracks o o.
Proof. split_and!; congruence || done. Qed.

Lemma tracks_trans o1 o2 o3 : tracks o1 o2 → tracks o2 o3 → tracks o1 o3.
Proof.
  intros (A1&A2&A3&A4&A5&A6&A7) (B1&B2&B3&B4&B5&B6&B7).
  split_and!; [congruence|congruence|by rewrite B3| | |by auto|].
  - intros i Hi. destruct (decide (value o2 i = value o1 i)) as [E|E]; [|by auto].
    apply B4. congruence.
  - auto.
  - intros i H3 H1 Hq Hw. destruct (changed o2 i) eqn:E; [|by eapply B7].
    apply B6. eapply A7; [done..|congruence].
Qed.

Class Tracked {A} (m : ob A) : Prop := tracked : ∀ o, wf o → wf (m o).2 ∧ tracks o (m o).2.

Class Reader {A} (m : ob A) : Prop := reader : ∀ o, (m o).2 = o.

#[export] Instance reader_tracked {A} (m : ob A) : Reader m → Tracked m.
Proof. intros Hm o Hw. rewrite Hm. split; [done|apply tracks_refl]. Qed.

#[export] Instance tracked_bind {A B} (m : ob A) (k : A → ob B) :
  Tracked m → (∀ a, Tracked (k a)) → Tracked (m ≫= k).
Proof.
  intros Hm Hk o Hw. destruct (Hm o Hw) as [Hw' Ht]. unfold mbind, prog_bind.
  destruct (m o) as [[a|e] o']; simpl in *; [|done].
  destruct (Hk a o' Hw'). split; [done|]. by eapply tracks_trans.
Qed.

#[export] Instance tracked_if {A} (c : bool) (m1 m2 : ob A) :
  Tracked m1 → Tracked m2 → Tracked (if c then m1 else m2).
Proof. by destruct c. Qed.

#[export] Instance reader_ret {A} (a : A) : Reader (mret a).
Proof. done. Qed.
#[export] Instance reader_throw {A} e : Reader (throw e : ob A).
Proof. done. Qed.
#[export] Instance reader_gets {A} (f : Object → A) : Reader (gets f).
Proof. done. Qed.
#[export] Instance reader_assert c : Reader (assert_ c).
Proof. intros o. unfold assert_. by destruct c. Qed.
#[export] Instance reader_load i : Reader (load i).
Proof. intros o. unfold load. by destruct (_ ≫= _). Qed.
#[export] Instance reader_if {A} (c : bool) (m1 m2 : ob A) :
  Reader m1 → Reader m2 → Reader (if c then m1 else m2).
Proof. by destruct c. Qed.
#[export] Instance reader_bind {A B} (m : ob A) (k : A → ob B) :
  Reader m → (∀ a, Reader (k a)) → Reader (m ≫= k).
Proof.
  intros Hm Hk o. unfold mbind, prog_bind. specialize (Hm o).
  destruct (m o) as [[a|e] o']; simpl in *; subst; [apply Hk|done].
Qed.

#[export] Instance reader_check_index i s : Reader (check_index i s).
Proof. unfold check_index. apply _. Qed.
#[export] Instance reader_load64 i : Reader (load64 i).
Proof. unfold load64. apply _. Qed.
#[export] Instance reader_check_shift n : Reader (check_shift n).
Proof. unfold check_shift. apply _. Qed.
#[export] Instance reader_int32 z : Reader (int32_result z).
Proof. unfold int32_result. apply _. Qed.
#[export] Instance reader_get_u32 i : Reader (GetUInt32Value i).
Proof. unfold GetUInt32Value. apply _. Qed.
#[export] Instance reader_get_i32 i : Reader (GetInt32Value i).
Proof. unfold GetInt32Value. apply _. Qed.
#[export] Instance reader_get_u64 i : Reader (GetUInt64Value i).
Proof. unfold GetUInt64Value. apply _. Qed.
#[export] Instance reader_get_float i : Reader (GetFloatValue i).
Proof. unfold GetFloatValue. apply _. Qed.
#[export] Instance reader_has_flag i f : Reader (HasFlag i f).
Proof. unfold HasFlag. apply _. Qed.
#[export] Instance reader_has_byte_flag i n f : Reader (HasByteFlag i n f).
Proof. unfold HasByteFlag. apply _. Qed.
#[export] Instance reader_has_flag64 i f : Reader (HasFlag64 i f).
Proof. unfold HasFlag64. apply _. Qed.

(** ** The commit of a field *)

(** A field [index] that exists: the write, the flag and the notification succeed. *)
Definition has_field (o : Object) (index : Z) : Prop :=
  is_Some (m_uint32Values o ≫= lookup (Z.to_nat index)).

Definition write_field (index v : Z) (o : Object) : Object :=
  with_changed (<[Z.to_nat index := true]> (_changedFields o))
    (with_values (insert (Z.to_nat index) v <$> m_uint32Values o) o).

Lemma store_run index v o :
  has_field o index →
  store index v o = (Ret tt, with_values (insert (Z.to_nat index) v <$> m_uint32Values o) o).
Proof. intros [x Hx]. unfold store. by rewrite Hx. Qed.

Lemma touch_run index o :
  (Z.to_nat index < length (_changedFields o))%nat →
  touch index o = (Ret tt, with_changed (<[Z.to_nat index := true]> (_changedFields o)) o).
Proof. intros [c Hc]%lookup_lt_is_Some_2. unfold touch. by rewrite Hc. Qed.

Lemma wf_field_touch o index :
  wf o → has_field o index → (Z.to_nat index < length (_changedFields o))%nat.
Proof.
  intros (_ & Hl & _) [x Hx]. destruct (m_uint32Values o) as [vs|] eqn:E; [|done].
  destruct (Hl vs eq_refl) as [H1 H2]. rewrite H2, <- H1. by eapply lookup_lt_Some.
Qed.

Lemma store_touch_run {A} index v (k : ob A) o :
  wf o → has_field o index →
  (store index v;; touch index;; k) o = k (write_field index v o).
Proof.
  intros Hw Hf. erewrite bind_ret_run by by apply store_run.
  erewrite bind_ret_run by (apply touch_run; simpl; by apply wf_field_touch). done.
Qed.

Lemma store_missing index v o :
  ¬ has_field o index → store index v o = (Throw Undefined, o).
Proof.
  unfold has_field, store. intros Hn. destruct (_ ≫= _) eqn:E; [|done]. exfalso. eauto.
Qed.

Lemma has_field_write o i j v : has_field o j → has_field (write_field i v o) j.
Proof.
  unfold has_field, write_field. simpl. destruct (m_uint32Values o) as [vs|]; simpl; [|done].
  rewrite !lookup_lt_is_Some, length_insert. done.
Qed.

Lemma value_write o i j v :
  has_field o i →
  value (write_field i v o) j = if decide (Z.to_nat i = j) then v else value o j.
Proof.
  unfold has_field, value, write_field. simpl. destruct (m_uint32Values o) as [vs|]; simpl;
    [|by intros [? ?]]. intros [x Hx%lookup_lt_Some].
  case_decide as E; [subst; by rewrite list_lookup_insert_eq|by rewrite list_lookup_insert_ne].
Qed.

Lemma changed_write o i j v :
  wf o → has_field o i →
  changed (write_field i v o) j = bool_decide (Z.to_nat i = j) || changed o j.
Proof.
  intros (_ & Hl & _). unfold has_field, changed, write_field. simpl.
  destruct (m_uint32Values o) as [vs|]; [|by intros [? ?]]. simpl.
  destruct (Hl vs eq_refl) as (H1 & H2). intros [x Hx%lookup_lt_Some].
  case_bool_decide as E; [subst; rewrite list_lookup_insert_eq by lia; done|].
  by rewrite list_lookup_insert_ne.
Qed.

Lemma wf_write o i v : wf o → wf (write_field i v o).
Proof.
  intros (Hc & Hl & Hu). split_and!; [apply Hc..| |apply Hu].
  unfold write_field. simpl. intros vs Hvs.
  apply fmap_Some in Hvs as (vs' & Hvs' & ->). destruct (Hl vs' Hvs') as (? & ?).
  by rewrite !length_insert.
Qed.

Lemma notify_run o :
  notify_update this o =
    (Ret tt, if m_inWorld o && negb (m_objectUpdated o)
             then with_updated true ({[this]} ∪ i_objects o) o else o).
Proof. done. Qed.

(** Flags raised, object notified: what a commit adds to writes that already happened. *)
Lemma wf_notify o : wf o → wf (notify_update this o).2.
Proof.
  intros Hw. rewrite notify_run. simpl.
  destruct (m_inWorld o && negb (m_objectUpdated o)) eqn:E; [|done].
  apply andb_prop in E as [Ew _]. destruct Hw as (Hc & Hl & _).
  split_and!; [by destruct Hc|by destruct Hc|done|]. clear Hc Hl. simpl. rewrite Ew. set_solver.
Qed.

Lemma notify_facts o :
  let o' := (notify_update this o).2 in
  m_valuesCount o' = m_valuesCount o ∧ m_inWorld o' = m_inWorld o ∧
  m_uint32Values o' = m_uint32Values o ∧ _changedFields o' = _changedFields o ∧
  (m_objectUpdated o = true → m_objectUpdated o' = true) ∧
  (m_inWorld o = true → m_objectUpdated o' = true).
Proof.
  rewrite notify_run. simpl.
  destruct (m_inWorld o) eqn:Ew, (m_objectUpdated o) eqn:Eu; simpl; rewrite ?Ew, ?Eu; done.
Qed.

(** Any writes that flag what they change are tracked once the object is notified. *)
Lemma tracks_commit o o1 :
  wf o1 →
  m_valuesCount o1 = m_valuesCount o → m_inWorld o1 = m_inWorld o →
  (is_Some (m_uint32Values o1) ↔ is_Some (m_uint32Values o)) →
  m_objectUpdated o1 = m_objectUpdated o →
  (∀ i, value o1 i ≠ value o i → changed o1 i = true) →
  (∀ i, changed o i = true → changed o1 i = true) →
  wf (notify_update this o1).2 ∧ tracks o (notify_update this o1).2.
Proof.
  intros Hw H1 H2 H3 H4 H5 H6. split; [by apply wf_notify|].
  destruct (notify_facts o1) as (N1 & N2 & N3 & N4 & N5 & N6). simpl in *.
  unfold tracks, value, changed in *. rewrite N1, N2, N3, N4. split_and!; try done; intros; apply N5; congruence.
Qed.

Lemma has_field_dec o i : has_field o i ∨ ¬ has_field o i.
Proof. unfold has_field. destruct (_ ≫= _); [left|right]; [by eexists|by intros [? ?]]. Qed.

Lemma write_is_Some i v o :
  is_Some (m_uint32Values (write_field i v o)) ↔ is_Some (m_uint32Values o).
Proof. unfold write_field. simpl. by rewrite fmap_is_Some. Qed.

(** The sequence every single-field setter ends with. *)
#[export] Instance tracked_commit i v : Tracked (store i v;; touch i;; notify_update this).
Proof.
  intros o Hw. destruct (has_field_dec o i) as [Hf|Hf].
  2: { erewrite bind_throw_run by by apply store_missing. split; [done|apply tracks_refl]. }
  rewrite store_touch_run by done.
  apply tracks_commit; try done; [by apply wf_write|by apply write_is_Some|..]; intros j.
  - rewrite value_write, changed_write by done. case_decide; [|done]. by rewrite bool_decide_true.
  - rewrite changed_write by done. intros ->. apply orb_true_r.
Qed.

(** The two words of a 64-bit field. *)
Definition write_field64 (i v : Z) (o : Object) : Object :=
  write_field (i + 1) (PAIR64_HIPART v) (write_field i (PAIR64_LOPART v) o).

Lemma write_swap i j v w o :
  with_changed (<[Z.to_nat j := true]> (<[Z.to_nat i := true]> (_changedFields o)))
    (with_values (insert (Z.to_nat j) w <$> (insert (Z.to_nat i) v <$> m_uint32Values o)) o)
  = write_field j w (write_field i v o).
Proof. done. Qed.

Lemma store64_run i v o :
  wf o → has_field o i → has_field o (i + 1) →
  store64 i v o = (Ret tt, write_field64 i v o).
Proof.
  intros Hw H1 H2. unfold store64.
  erewrite bind_ret_run by by apply store_run.
  erewrite bind_ret_run.
  2: { apply store_run. by apply (has_field_write o i (i + 1) (PAIR64_LOPART v)). }
  pose proof (wf_field_touch o i Hw H1). pose proof (wf_field_touch o (i + 1) Hw H2).
  erewrite bind_ret_run by by apply touch_run. rewrite touch_run; [done|].
  simpl. by rewrite length_insert.
Qed.

Lemma wf_write64 o i v : wf o → wf (write_field64 i v o).
Proof. intros. by apply wf_write, wf_write. Qed.

(** A continuation that only notifies. *)
Definition notifies {A} (k : ob A) : Prop := ∀ o, (k o).2 = (notify_update this o).2.

Lemma tracked_commit64 {A} i v (k : ob A) o :
  notifies k → wf o → has_field o i → has_field o (i + 1) →
  wf ((store64 i v;; k) o).2 ∧ tracks o ((store64 i v;; k) o).2.
Proof.
  intros Hk Hw H1 H2. erewrite bind_ret_run by by apply store64_run. rewrite Hk.
  assert (wf (write_field i (PAIR64_LOPART v) o)) as Hw1 by by apply wf_write.
  assert (has_field (write_field i (PAIR64_LOPART v) o) (i + 1)) as H3 by by apply has_field_write.
  apply tracks_commit; try done; [by apply wf_write64| |..].
  - unfold write_field64. by rewrite !write_is_Some.
  - intros j. unfold write_field64. rewrite !value_write, !changed_write by done.
    repeat case_decide; rewrite ?bool_decide_true, ?orb_true_r by done; done.
  - intros j. unfold write_field64. rewrite !changed_write by done. intros ->.
    by rewrite !orb_true_r.
Qed.

(** Code that runs after a successful read of a 64-bit field has both its words. *)
Lemma tracked_load64 {A} i (k : Z → ob A) :
  (∀ v o, wf o → has_field o i → has_field o (i + 1) → wf (k v o).2 ∧ tracks o (k v o).2) →
  Tracked (v ← load64 i; k v).
Proof.
  intros Hk o Hw. destruct (has_field_dec o i) as [H1|H1]; [destruct (has_field_dec o (i + 1)) as [H2|H2]|].
  - destruct H1 as [x Hx] eqn:E1, H2 as [y Hy] eqn:E2.
    erewrite bind_ret_run.
    2: { unfold load64. erewrite bind_ret_run by (unfold load; by rewrite Hx).
         erewrite bind_ret_run by (unfold load; by rewrite Hy). done. }
    apply Hk; [done|by eexists..].
  - destruct H1 as [x Hx]. erewrite bind_throw_run; [by split; [|apply tracks_refl]|].
    unfold load64. erewrite bind_ret_run by (unfold load; by rewrite Hx).
    apply bind_throw_run. unfold load. unfold has_field in H2.
    destruct (m_uint32Values o ≫= lookup (Z.to_nat (i + 1))); [by destruct H2|done].
  - erewrite bind_throw_run; [by split; [|apply tracks_refl]|].
    unfold load64. apply bind_throw_run. unfold load. unfold has_field in H1.
    destruct (m_uint32Values o ≫= lookup (Z.to_nat i)); [by destruct H1|done].
Qed.

(** ** Every setter is tracked *)

#[export] Instance tracked_SetInt32 i v : Tracked (SetInt32Value this i v).
Proof. unfold SetInt32Value. apply _. Qed.
#[export] Instance tracked_SetUInt32 i v : Tracked (SetUInt32Value this i v).
Proof. unfold SetUInt32Value. apply _. Qed.

#[export] Instance tracked_SetUInt64 i v : Tracked (SetUInt64Value this i v).
Proof.
  unfold SetUInt64Value. apply tracked_bind; [apply _|intros _].
  apply tracked_load64. intros old o Hw H1 H2. case_match; [by apply tracked_commit64|].
  by apply reader_tracked.
Qed.

#[export] Instance tracked_AddUInt64 i v : Tracked (AddUInt64Value this i v).
Proof.
  unfold AddUInt64Value. apply tracked_bind; [apply _|intros _].
  apply tracked_load64. intros old o Hw H1 H2. case_match; [by apply tracked_commit64|].
  by apply (reader_tracked (mret false)).
Qed.

#[export] Instance tracked_RemoveUInt64 i v : Tracked (RemoveUInt64Value this i v).
Proof.
  unfold RemoveUInt64Value. apply tracked_bind; [apply _|intros _].
  apply tracked_load64. intros old o Hw H1 H2. case_match; [by apply tracked_commit64|].
  by apply (reader_tracked (mret false)).
Qed.

#[export] Instance tracked_SetFloat i v : Tracked (SetFloatValue this i v).
Proof. unfold SetFloatValue. apply _. Qed.
#[export] Instance tracked_SetByte i n v : Tracked (SetByteValue this i n v).
Proof. unfold SetByteValue. apply _. Qed.
#[export] Instance tracked_SetUInt16 i n v : Tracked (SetUInt16Value this i n v).
Proof. unfold SetUInt16Value. apply _. Qed.
#[export] Instance tracked_SetFlag i f : Tracked (SetFlag this i f).
Proof. unfold SetFlag. apply _. Qed.
#[export] Instance tracked_RemoveFlag i f : Tracked (RemoveFlag this i f).
Proof. unfold RemoveFlag. apply _. Qed.
#[export] Instance tracked_SetByteFlag i n f : Tracked (SetByteFlag this i n f).
Proof. unfold SetByteFlag. apply _. Qed.
#[export] Instance tracked_RemoveByteFlag i n f : Tracked (RemoveByteFlag this i n f).
Proof. unfold RemoveByteFlag. apply _. Qed.

(** The calls other code makes to change the fields of an object. *)
Inductive setter :=
| CallSetInt32 (index value : Z) | CallSetUInt32 (index value : Z) | CallUpdateUInt32 (index value : Z)
| CallSetUInt64 (index value : Z) | CallAddUInt64 (index value : Z)
| CallRemoveUInt64 (index value : Z) | CallSetFloat (index value : Z)
| CallSetByte (index offset value : Z) | CallSetUInt16 (index offset value : Z)
| CallSetInt16 (index offset value : Z)
| CallSetStatFloat (index value : Z) | CallSetStatInt32 (index value : Z)
| CallModUInt32 (index val : Z) (apply : bool) | CallModInt32 (index val : Z) (apply : bool)
| CallModSignedFloat (index val : Z) (apply : bool)
| CallModPositiveFloat (index val : Z) (apply : bool)
| CallPercentModFloat (index val : Z) (apply : bool) | CallSetEntry (entry : Z)
| CallSetFlag (index flag : Z) | CallRemoveFlag (index flag : Z)
| CallToggleFlag (index flag : Z) | CallModFlag (index flag : Z) (apply : bool)
| CallSetByteFlag (index offset flag : Z) | CallRemoveByteFlag (index offset flag : Z)
| CallToggleByteFlag (index offset flag : Z)
| CallSetFlag64 (index flag : Z) | CallRemoveFlag64 (index flag : Z)
| CallToggleFlag64 (index flag : Z) | CallModFlag64 (index flag : Z) (apply : bool).

Definition call (c : setter) : ob unit :=
  match c with
  | CallSetInt32 i v => SetInt32Value this i v
  | CallSetUInt32 i v => SetUInt32Value this i v
  | CallUpdateUInt32 i v => UpdateUInt32Value i v
  | CallSetUInt64 i v => SetUInt64Value this i v
  | CallAddUInt64 i v => AddUInt64Value this i v;; mret tt
  | CallRemoveUInt64 i v => RemoveUInt64Value this i v;; mret tt
  | CallSetFloat i v => SetFloatValue this i v
  | CallSetByte i n v => SetByteValue this i n v
  | CallSetUInt16 i n v => SetUInt16Value this i n v
  | CallSetInt16 i n v => SetInt16Value this i n v
  | CallSetStatFloat i v => SetStatFloatValue this i v
  | CallSetStatInt32 i v => SetStatInt32Value this i v
  | CallModUInt32 i v a => ApplyModUInt32Value this i v a
  | CallModInt32 i v a => ApplyModInt32Value this i v a
  | CallModSignedFloat i v a => ApplyModSignedFloatValue this i v a
  | CallModPositiveFloat i v a => ApplyModPositiveFloatValue this i v a
  | CallPercentModFloat i v a => ApplyPercentModFloatValue this i v a
  | CallSetEntry v => SetEntry this v
  | CallSetFlag i f => SetFlag this i f
  | CallRemoveFlag i f => RemoveFlag this i f
  | CallToggleFlag i f => ToggleFlag this i f
  | CallModFlag i f a => ApplyModFlag this i f a
  | CallSetByteFlag i n f => SetByteFlag this i n f
  | CallRemoveByteFlag i n f => RemoveByteFlag this i n f
  | CallToggleByteFlag i n f => ToggleByteFlag this i n f
  | CallSetFlag64 i f => SetFlag64 this i f
  | CallRemoveFlag64 i f => RemoveFlag64 this i f
  | CallToggleFlag64 i f => ToggleFlag64 this i f
  | CallModFlag64 i f a => ApplyModFlag64 this i f a
  end.

Fixpoint calls (cs : list setter) : ob unit :=
  match cs with
  | [] => mret tt
  | c :: cs => call c;; calls cs
  end.

(** The field a call flags without queueing the object. *)
Definition quiet_field (c : setter) : option nat := match c with CallUpdateUInt32 i _ => Some (Z.to_nat i) | _ => None end.

Lemma tracked_UpdateUInt32 i v : quiet (Z.to_nat i) → Tracked (UpdateUInt32Value i v).
Proof.
  intros Hq. unfold UpdateUInt32Value. apply tracked_bind; [apply _|intros _]. intros o Hw. destruct (has_field_dec o i) as [Hf|Hf].
  2: { erewrite bind_throw_run by by apply store_missing. split; [done|apply tracks_refl]. }
  erewrite bind_ret_run by by apply store_run. pose proof (wf_field_touch o i Hw Hf). rewrite touch_run by done. change (wf (write_field i v o) ∧ tracks o (write_field i v o)).
  split; [by apply wf_write|]. split_and!; [done|done|by apply write_is_Some| | |done|]; intros j.
  - rewrite value_write, changed_write by done. case_decide; [|done]. by rewrite bool_decide_true.
  - rewrite changed_write by done. intros ->. apply orb_true_r.
  - rewrite changed_write by done. intros [Hj%bool_decide_eq_true|Hj]%orb_true_iff Hn Hnq; [by subst|congruence].
Qed.

Lemma tracked_call c : (∀ i, quiet_field c = Some i → quiet i) → Tracked (call c).
Proof. intros Hq. destruct c; cbn [call]; try apply _; [by apply tracked_UpdateUInt32, Hq|..]; repeat (case_match || unfold SetInt16Value,
  SetStatFloatValue, SetStatInt32Value, ApplyModUInt32Value, ApplyModInt32Value,
  ApplyModSignedFloatValue, ApplyModPositiveFloatValue, ApplyPercentModFloatValue, SetEntry, ToggleFlag, ApplyModFlag,
  ToggleByteFlag, SetFlag64, RemoveFlag64, ToggleFlag64, ApplyModFlag64); apply _. Qed.

Lemma tracked_calls cs : (∀ c i, c ∈ cs → quiet_field c = Some i → quiet i) → Tracked (calls cs).
Proof.
  induction cs as [|c cs IH]; cbn [calls]; intros Hq; [apply _|]. apply tracked_bind.
  - apply tracked_call. intros i. apply Hq. by left.
  - intros _. apply IH. intros c' i Hc. apply Hq. by right.
Qed.

End Facts.

(** ** The mask of an update packet *)

Lemma SetBit_run m i :
  wf_mask m → in_range m i →
  ∃ m', SetBit i m = (Ret tt, m') ∧ wf_mask m' ∧ mBlocks m' = mBlocks m ∧
    ∀ j, in_range m j → bits m' j = (i =? j) || bits m j.
Proof.
  intros Hm Hi. unfold SetBit.
  rewrite (modify_byte_run m i (λ b, uwrap 8 (Z.lor b (bit_of i)))) by done.
  eexists. split; [done|]. split; [|split; [done|]].
  - apply wf_store; [done|]. apply (uwrap_range 8). lia.
  - intros j Hj.
    rewrite (set_unset_bits m i j (λ b, uwrap 8 (Z.lor b (bit_of i))) true); try done.
    intros b k Hk. by apply testbit_set_bit.
Qed.

Lemma set_bits_where_run bs m index :
  wf_mask m → 0 <= index → index + Z.of_nat (length bs) <= 32 * mBlocks m →
  ∃ m', set_bits_where bs index m = (Ret tt, m') ∧ wf_mask m' ∧ mBlocks m' = mBlocks m ∧
    ∀ j, in_range m j →
      bits m' j = bits m j || (index <=? j) && default false (bs !! Z.to_nat (j - index)).
Proof.
  revert m index. induction bs as [|b bs IH]; intros m index Hm Hi Hlen; cbn [set_bits_where length] in *.
  { exists m. split_and!; try done. intros j _. by rewrite andb_false_r, orb_false_r. }
  assert (∃ m1, (if b then SetBit index else mret tt) m = (Ret tt, m1) ∧ wf_mask m1 ∧
    mBlocks m1 = mBlocks m ∧ ∀ j, in_range m j → bits m1 j = b && (index =? j) || bits m j)
    as (m1 & H1 & Hm1 & Hb1 & Hbits1).
  { destruct b; [apply SetBit_run; [done|unfold in_range; lia]|]. by exists m. }
  erewrite bind_ret_run by done.
  destruct (IH m1 (index + 1)) as (m2 & H2 & Hm2 & Hb2 & Hbits2); [done|lia|lia|].
  exists m2. split_and!; [done|done|congruence|]. intros j Hj.
  rewrite Hbits2, Hbits1 by (unfold in_range in *; congruence || done).
  destruct (Z.leb_spec index j) as [Hle|Hgt].
  - destruct (decide (index = j)) as [->|Hne].
    + rewrite Z.sub_diag. simpl. decide_cmp. by destruct b, (bits m j).
    + replace (Z.to_nat (j - index)) with (S (Z.to_nat (j - (index + 1)))) by lia. simpl.
      decide_cmp. by destruct b, (bits m j).
  - decide_cmp. by destruct b, (bits m j).
Qed.

Lemma SetCount_run n m :
  0 <= n < 2 ^ 16 →
  ∃ m', SetCount n m = (Ret tt, m') ∧ wf_mask m' ∧ n <= 32 * mBlocks m' ∧
        ∀ i, bits m' i = false.
Proof.
  intros Hn. pow_consts. eexists. split; [done|]. simpl.
  assert (uwrap 32 (n + 31) = n + 31) as ->.
  { apply uwrap_small. unfold in_u. pow_consts. lia. }
  split_and!; [|div_lia|apply bits_zeros]. unfold wf_mask. simpl. rewrite length_replicate.
  split_and!; [div_lia..|done| |div_lia]. apply Forall_replicate. lia.
Qed.

(** The mask [UpdateMask updateMask; updateMask.SetCount(m_valuesCount);
    _SetUpdateBits(&updateMask, target)] of a values update. *)
Lemma update_mask_run this o :
  wf this o → is_Some (m_uint32Values o) →
  ∃ m, (SetCount (m_valuesCount o);; _SetUpdateBits o) new_mask = (Ret tt, m) ∧
    ∀ i, 0 <= i < m_valuesCount o →
      GetBit i m = (Ret (changed o (Z.to_nat i)), m).
Proof.
  intros (Hc & Hl & _) [vs Hvs]. destruct (Hl vs Hvs) as [_ Hlen]. unfold count in Hlen.
  destruct (SetCount_run (m_valuesCount o) new_mask Hc) as (m0 & E0 & Hm0 & Hle & Hz).
  erewrite bind_ret_run by done. unfold _SetUpdateBits. rewrite take_ge by lia.
  destruct (set_bits_where_run (_changedFields o) m0 0 Hm0) as (m & E & Hm & Hb & Hbits); [lia..|].
  exists m. split; [done|]. intros i Hi.
  rewrite GetBit_bits by (unfold in_range; congruence || lia).
  rewrite Hbits, Hz by (unfold in_range; lia). decide_cmp. by rewrite Z.sub_0_r.
Qed.

(** ** Parts of a field *)

Lemma check_index_run index s o :
  index < m_valuesCount o → check_index index s o = (Ret tt, o).
Proof.
  intros H. unfold check_index. erewrite bind_ret_run by done.
  unfold assert_. by rewrite (proj2 (Z.ltb_lt _ _) H).
Qed.

Lemma has_field_lt this o i :
  wf this o → is_Some (m_uint32Values o) → 0 <= i < m_valuesCount o → has_field o i.
Proof.
  intros (Hc & Hl & _) [vs Hvs] Hi. destruct (Hl vs Hvs) as [Hlen _].
  unfold has_field. rewrite Hvs. simpl. apply lookup_lt_is_Some. unfold count in Hlen. lia.
Qed.

Lemma load_run o i : has_field o i → load i o = (Ret (value o (Z.to_nat i)), o).
Proof. intros [x Hx]. unfold load, value. by rewrite Hx. Qed.

Lemma load64_run o i :
  has_field o i → has_field o (i + 1) →
  load64 i o = (Ret (value o (Z.to_nat i) + value o (Z.to_nat (i + 1)) * 2 ^ 32), o).
Proof.
  intros H1 H2. unfold load64. erewrite bind_ret_run by by apply load_run.
  by erewrite bind_ret_run by by apply load_run.
Qed.

Lemma notify_value this o i : value (notify_update this o).2 i = value o i.
Proof. unfold value. by destruct (notify_facts this o) as (_ & _ & -> & _). Qed.

Lemma notify_count this o : m_valuesCount (notify_update this o).2 = m_valuesCount o.
Proof. apply notify_facts. Qed.

Lemma pair64_join v : in_u 64 v → PAIR64_LOPART v + PAIR64_HIPART v * 2 ^ 32 = v.
Proof.
  intros Hv. unfold PAIR64_LOPART, PAIR64_HIPART. rewrite (uwrap_small 64 v Hv).
  rewrite !(land_ones_val _ 32), Z.shiftr_div_pow2 by done. unfold uwrap, in_u in *. div_lia.
Qed.

Lemma notify_has_field this o i : has_field o i → has_field (notify_update this o).2 i.
Proof. unfold has_field. by destruct (notify_facts this o) as (_ & _ & -> & _). Qed.

(** The part of [w] bits at [k] of a word, and the word with it replaced. *)
Definition part (w v k : Z) : Z := uwrap w (Z.shiftr v (k * w)).

Definition replace_part (w v k x : Z) : Z :=
  Z.lor (Z.land v (uwrap 32 (Z.lnot (uwrap 32 (Z.shiftl (Z.ones w) (k * w))))))
    (uwrap 32 (Z.shiftl x (k * w))).

Lemma testbit_replace_part w v k x j :
  0 <= w → 0 <= k → in_u 32 v → in_u w x → (k + 1) * w <= 32 → 0 <= j →
  Z.testbit (replace_part w v k x) j =
    if (k * w <=? j) && (j <? (k + 1) * w) then Z.testbit x (j - k * w) else Z.testbit v j.
Proof.
  intros Hw Hk Hv Hx Hb Hj. unfold replace_part.
  rewrite Z.lor_spec, Z.land_spec, !testbit_uwrap, Z.lnot_spec, testbit_uwrap, !Z.shiftl_spec by lia.
  destruct (Z.ltb_spec j 32); simpl.
  - destruct (Z.leb_spec (k * w) j); simpl; [destruct (Z.ltb_spec j ((k + 1) * w))|].
    + rewrite Z.ones_spec_low by lia. simpl. by rewrite andb_false_r.
    + rewrite Z.ones_spec_high, (testbit_in_u w x) by lia || done. simpl.
      by rewrite andb_true_r, orb_false_r.
    + rewrite !(Z.testbit_neg_r _ (j - k * w)) by lia. simpl. by rewrite andb_true_r, orb_false_r.
  - rewrite (testbit_in_u 32 v j) by lia || done. simpl.
    destruct (Z.ltb_spec j ((k + 1) * w)); [lia|]. by rewrite andb_false_r.
Qed.

Lemma part_replace w v k x n :
  0 < w → 0 <= k → 0 <= n → in_u 32 v → in_u w x → (k + 1) * w <= 32 →
  part w (replace_part w v k x) n = if n =? k then x else part w v n.
Proof.
  intros Hw Hk Hn Hv Hx Hb. unfold part. apply Z.bits_inj'. intros j Hj.
  rewrite testbit_uwrap, Z.shiftr_spec, testbit_replace_part by lia || done.
  destruct (Z.eqb_spec n k) as [->|Hne].
  - destruct (Z.ltb_spec j w); simpl; [decide_cmp; simpl; f_equal; lia|].
    by rewrite (testbit_in_u w x) by lia || done.
  - rewrite testbit_uwrap, Z.shiftr_spec by lia. destruct (Z.ltb_spec j w); simpl; [|done].
    destruct (Z.leb_spec (k * w) (j + n * w)); simpl; [|done].
    destruct (Z.ltb_spec (j + n * w) ((k + 1) * w)); [|done]. nia.
Qed.

Lemma replace_same_part w v k x :
  0 < w → 0 <= k → in_u 32 v → in_u w x → (k + 1) * w <= 32 →
  part w v k = x → replace_part w v k x = v.
Proof.
  intros Hw Hk Hv Hx Hb <-. apply Z.bits_inj'. intros j Hj.
  rewrite testbit_replace_part by lia || done. unfold part.
  destruct (Z.leb_spec (k * w) j); simpl; [|done].
  destruct (Z.ltb_spec j ((k + 1) * w)); [|done].
  rewrite testbit_uwrap, Z.shiftr_spec by lia. decide_cmp. simpl. f_equal. lia.
Qed.

Lemma SetByteValue_run this index offset x o :
  wf this o → has_field o index → 0 <= index < m_valuesCount o →
  in_u 32 (value o (Z.to_nat index)) → in_u 8 x → 0 <= offset < 4 →
  ∃ o', SetByteValue this index offset x o = (Ret tt, o') ∧
    m_valuesCount o' = m_valuesCount o ∧
    (∀ i, has_field o i → has_field o' i) ∧
    ∀ i, value o' i = if decide (Z.to_nat index = i)
                      then replace_part 8 (value o i) offset x else value o i.
Proof.
  intros Hw Hf Hi Hv Hx Ho. unfold SetByteValue.
  erewrite bind_ret_run by (apply check_index_run; lia). decide_cmp.
  erewrite bind_ret_run by by apply load_run.
  erewrite bind_ret_run by (unfold check_shift; decide_cmp; done).
  destruct (Z.eqb_spec (uwrap 8 (Z.shiftr (value o (Z.to_nat index)) (offset * 8))) x) as [E|E]; cbn [negb].
  - exists o. split_and!; try done. intros i. case_decide as Ei; [subst i|done].
    symmetry. apply replace_same_part; lia || done.
  - rewrite (store_touch_run this) by done.
    set (o1 := write_field index (replace_part 8 (value o (Z.to_nat index)) offset x) o).
    exists (notify_update this o1).2. subst o1.
    split_and!; [apply notify_run|by rewrite notify_count|intros i Hi'; by apply notify_has_field, has_field_write|].
    intros i. rewrite notify_value, value_write by done. case_decide; congruence.
Qed.

(** ** The text form *)

Lemma wf_fields_has this o i : wf this o → is_Some (m_uint32Values o) →
  (i < count o)%nat → has_field o (Z.of_nat i).
Proof. intros Hw Hs Hi. apply (has_field_lt this); [done..|]. unfold count in Hi. lia. Qed.

Lemma concat_loop_run this o start index n ss :
  wf this o → is_Some (m_uint32Values o) → 0 <= start → 0 <= index →
  start + index + Z.of_nat n <= m_valuesCount o →
  _ConcatFields_loop n index start ss o =
    (Ret (ss ++ (value o <$> seq (Z.to_nat (start + index)) n) ≫= λ v, print_u64 v ++ [space]), o).
Proof.
  intros Hw Hs Hst. revert index ss. induction n as [|n IH]; intros index ss Hi Hlen; cbn [_ConcatFields_loop].
  { by rewrite app_nil_r. }
  pose proof (proj1 Hw). unfold in_u in *. pow_consts.
  rewrite uwrap_small by (unfold in_u; pow_consts; lia).
  erewrite bind_ret_run.
  2: { unfold GetUInt32Value. erewrite bind_ret_run by (apply check_index_run; lia).
       apply load_run. apply (has_field_lt this); [done|done|lia]. }
  rewrite IH by lia. cbn [seq fmap list_fmap mbind list_bind].
  rewrite <- app_assoc. replace (Z.to_nat (index + start)) with (Z.to_nat (start + index)) by lia.
  by replace (Z.to_nat (start + (index + 1))) with (S (Z.to_nat (start + index))) by lia.
Qed.

Lemma load_fields_run this ts ns start index o :
  wf this o → is_Some (m_uint32Values o) → 0 <= start + index →
  atol <$> ts = Some <$> ns → Forall (in_u 32) ns →
  start + index + Z.of_nat (length ns) <= m_valuesCount o →
  ∃ o', _LoadIntoDataField_loop ts index start o = (Ret tt, o') ∧
    ∀ j, value o' j = default (value o j)
           (if (Z.to_nat (start + index) <=? j)%nat then ns !! (j - Z.to_nat (start + index))%nat else None) ∧
         changed o' j = changed o j ||
           ((Z.to_nat (start + index) <=? j)%nat && (j <? Z.to_nat (start + index) + length ns)%nat).
Proof.
  intros Hw Hs Hi Hts Hns Hlen. revert ns index o Hw Hs Hi Hts Hns Hlen.
  induction ts as [|t ts IH]; intros [|n ns] index o Hw Hs Hi Hts Hns Hlen; try done;
    cbn [_LoadIntoDataField_loop].
  { exists o. split; [done|]. intros j. split; [by destruct (_ <=? _)%nat|].
    destruct (Nat.leb_spec (Z.to_nat (start + index)) j); simpl; [|by rewrite orb_false_r].
    destruct (Nat.ltb_spec j (Z.to_nat (start + index) + 0)); [lia|by rewrite orb_false_r]. }
  cbn [fmap list_fmap] in Hts. injection Hts as Ht Hts. rewrite Ht.
  apply Forall_cons in Hns as [Hn Hns]. cbn [length] in Hlen.
  rewrite (uwrap_small 32 n Hn).
  assert (has_field o (start + index)) as Hf by (apply (has_field_lt this); [done|done|lia]).
  rewrite (store_touch_run this) by done.
  destruct (IH ns (index + 1) (write_field (start + index) n o)) as (o' & E & Hj).
  { by apply wf_write. } { by rewrite write_is_Some. } { lia. } { done. } { done. }
  { simpl. lia. }
  exists o'. split; [done|]. intros j. destruct (Hj j) as [-> ->].
  rewrite value_write by done. rewrite (changed_write this) by done.
  replace (Z.to_nat (start + (index + 1))) with (S (Z.to_nat (start + index))) by lia.
  set (k := Z.to_nat (start + index)). cbn [length].
  destruct (decide (k = j)) as [->|Hne].
  - rewrite (bool_decide_true (j = j)) by done.
    destruct (Nat.leb_spec (S j) j); [lia|]. rewrite Nat.leb_refl, Nat.sub_diag. simpl.
    destruct (Nat.ltb_spec j (j + S (length ns))); [|lia]. by rewrite orb_true_r.
  - rewrite (bool_decide_false (k = j)) by done.
    destruct (Nat.leb_spec (S k) j), (Nat.leb_spec k j); try lia; simpl.
    + replace (j - k)%nat with (S (j - S k)) by lia. split; [done|].
      by replace (k + S (length ns))%nat with (S k + length ns)%nat by lia.
    + done.
Qed.

(** ** Properties *)

(** C12. No change of an update field is lost: take a well-formed object in the world
    whose changes were all sent, and any sequence of setter calls (whether it
    completes or stops at a failed assertion). Every field whose value differs
    from the value the clients have is flagged, and the update mask the packet is
    built from has exactly the flagged fields. The object is in the set of objects to
    update as soon as a field is flagged that [UpdateUInt32Value] did not write; that
    setter flags its field and leaves the queueing to a later call. *)
Theorem no_lost_update (this : Z) (o : Object) (cs : list setter) :
  wf this o → m_inWorld o = true → is_Some (m_uint32Values o) →
  (∀ i, changed o i = false) →
  let o' := (calls this cs o).2 in
  wf this o' ∧
  (∀ i, value o' i ≠ value o i → changed o' i = true) ∧
  ((∃ i, changed o' i = true ∧ Some i ∉ quiet_field <$> cs) → this ∈ i_objects o') ∧
  ∃ m, (SetCount (m_valuesCount o');; _SetUpdateBits o') new_mask = (Ret tt, m) ∧
    ∀ i, 0 <= i < m_valuesCount o' → GetBit i m = (Ret (changed o' (Z.to_nat i)), m).
Proof.
  intros Hw Hin Hv Hc o'.
  destruct (tracked_calls this (λ i, Some i ∈ quiet_field <$> cs) cs) with (o := o) as (Hw' & H1 & H2 & H3 & H4 & H5 & H6 & H7); [|done|].
  { intros c i Hcs <-. by apply list_elem_of_fmap_2. }
  subst o'. split_and!; [done|done| |].
  - intros (i & Hi & Hq). apply (proj2 (proj2 Hw')). apply (H7 i); [done|done|done|congruence].
  - apply (update_mask_run this); [done|]. by apply H3.
Qed.

Definition sample_object : Object :=
  mkObject 9 8 (Some [5; 0; 9; 100; 1; 2; 3; 4]) (replicate 8 false) true false empty_buffer ∅.

Lemma wf_sample_object : wf 77 sample_object.
Proof. split_and!; [done|done| |done]. by intros vs [= <-]. Qed.

Lemma no_lost_update_witness :
  let o' := (calls 77 [CallUpdateUInt32 2 6; CallSetUInt64 4 (7 * 2 ^ 32 + 1); CallSetByteFlag 6 1 8] sample_object).2 in
  changed o' 2 = true ∧ changed o' 5 = true ∧ changed o' 6 = true ∧ 77 ∈ i_objects o'.
Proof.
  destruct (no_lost_update 77 sample_object [CallUpdateUInt32 2 6; CallSetUInt64 4 (7 * 2 ^ 32 + 1); CallSetByteFlag 6 1 8])
    as (_ & H1 & H2 & _).
  - apply wf_sample_object.
  - done.
  - by eexists.
  - intros i. unfold changed. simpl. by do 9 (destruct i as [|i]; [done|]).
  - split_and!.
    + apply H1. vm_compute. done.
    + apply H1. vm_compute. done.
    + apply H1. vm_compute. done.
    + apply H2. exists 6%nat. split; [apply H1; vm_compute; done|]. apply (bool_decide_unpack _). vm_compute. done.
Defined.

(** Alone, [UpdateUInt32Value] changes a field and queues nothing. *)
Example quiet_update : let o' := (calls 77 [CallUpdateUInt32 2 6] sample_object).2 in changed o' 2 = true ∧ i_objects o' = ∅.
Proof. by vm_compute. Qed.

(** [SetByteValue] sets the byte at [offset] and nothing else: the byte reads
    back, the other three bytes of the word and all other words keep their values.
    Offset 4 passes the guard [offset > 4] and shifts a 32-bit word by 32, which is
    undefined; a larger offset is refused. *)
Theorem byte_value_set_get (this : Z) (o : Object) (index offset x : Z) :
  wf this o → is_Some (m_uint32Values o) → 0 <= index < m_valuesCount o →
  in_u 32 (value o (Z.to_nat index)) → in_u 8 x → 0 <= offset →
  (offset < 4 →
   ∃ o', SetByteValue this index offset x o = (Ret tt, o') ∧
     GetByteValue index offset o' = (Ret x, o') ∧
     (∀ n b, 0 <= n < 4 → n ≠ offset →
        GetByteValue index n o = (Ret b, o) → GetByteValue index n o' = (Ret b, o')) ∧
     (∀ i, i ≠ Z.to_nat index → value o' i = value o i)) ∧
  (offset = 4 → SetByteValue this index offset x o = (Throw Undefined, o)) ∧
  (4 < offset → SetByteValue this index offset x o = (Ret tt, o)).
Proof.
  intros Hw Hs Hi Hv Hx Ho. pose proof (has_field_lt this o index Hw Hs Hi) as Hf.
  assert (∀ n o1, 0 <= n < 4 → has_field o1 index → m_valuesCount o1 = m_valuesCount o →
    GetByteValue index n o1 = (Ret (part 8 (value o1 (Z.to_nat index)) n), o1)) as Hget.
  { intros n o1 Hn Hf1 Hc. unfold GetByteValue.
    erewrite bind_ret_run by (apply check_index_run; lia).
    erewrite bind_ret_run by (unfold assert_; decide_cmp; done).
    by erewrite bind_ret_run by by apply load_run. }
  split_and!.
  - intros Hlt. destruct (SetByteValue_run this index offset x o) as (o' & E & Hc & Hf' & Hval); try done.
    exists o'. split; [done|]. specialize (Hf' index Hf).
    rewrite Hget, (Hval (Z.to_nat index)), decide_True by done.
    split; [by rewrite part_replace, Z.eqb_refl by lia || done|]. split.
    + intros n b Hn Hne. rewrite !Hget, (Hval (Z.to_nat index)), decide_True by done.
      rewrite part_replace by lia || done. decide_cmp. by intros [= <-].
    + intros i Hne. by rewrite Hval, decide_False by congruence.
  - intros ->. unfold SetByteValue. erewrite bind_ret_run by (apply check_index_run; lia).
    change (4 <? 4) with false. cbv iota. erewrite bind_ret_run by by apply load_run. done.
  - intros H. unfold SetByteValue. erewrite bind_ret_run by (apply check_index_run; lia).
    by decide_cmp.
Qed.

Lemma byte_value_set_get_witness :
  ∃ o', SetByteValue 77 3 1 200 sample_object = (Ret tt, o') ∧
        GetByteValue 3 1 o' = (Ret 200, o') ∧ GetByteValue 3 0 o' = (Ret 100, o').
Proof.
  destruct (byte_value_set_get 77 sample_object 3 1 200) as [H _].
  - apply wf_sample_object.
  - by eexists.
  - done.
  - done.
  - done.
  - done.
  - destruct (H ltac:(done)) as (o' & H1 & H2 & H3 & _). exists o'. split_and!; [done|done|].
    by apply H3.
Defined.

(** A 64-bit field reads back what was written to it, whatever was there:
    [SetUInt64Value] then [GetUInt64Value]; [AddUInt64Value] writes only to an
    empty field and [RemoveUInt64Value] clears only the value it is given. *)
Theorem uint64_set_get (this : Z) (o : Object) (index v : Z) :
  wf this o → is_Some (m_uint32Values o) → 0 <= index → index + 1 < m_valuesCount o →
  in_u 64 v →
  ∃ old, GetUInt64Value index o = (Ret old, o) ∧
    (∃ o', SetUInt64Value this index v o = (Ret tt, o') ∧
       GetUInt64Value index o' = (Ret v, o')) ∧
    (∃ b o', AddUInt64Value this index v o = (Ret b, o') ∧
       b = negb (v =? 0) && (old =? 0) ∧
       GetUInt64Value index o' = (Ret (if b then v else old), o')) ∧
    (∃ b o', RemoveUInt64Value this index v o = (Ret b, o') ∧
       b = negb (v =? 0) && (old =? v) ∧
       GetUInt64Value index o' = (Ret (if b then 0 else old), o')).
Proof.
  intros Hw Hs Hi Hlt Hv.
  pose proof (has_field_lt this o index Hw Hs ltac:(lia)) as H1.
  pose proof (has_field_lt this o (index + 1) Hw Hs ltac:(lia)) as H2.
  exists (value o (Z.to_nat index) + value o (Z.to_nat (index + 1)) * 2 ^ 32).
  assert (∀ o1, has_field o1 index → has_field o1 (index + 1) → m_valuesCount o1 = m_valuesCount o →
    GetUInt64Value index o1 =
      (Ret (value o1 (Z.to_nat index) + value o1 (Z.to_nat (index + 1)) * 2 ^ 32), o1)) as Hget.
  { intros o1 G1 G2 Hc. unfold GetUInt64Value.
    erewrite bind_ret_run by (apply check_index_run; lia). by apply load64_run. }
  assert (∀ w, in_u 64 w →
    GetUInt64Value index (notify_update this (write_field64 index w o)).2 =
      (Ret w, (notify_update this (write_field64 index w o)).2)) as Hset.
  { intros w Hw64.
    assert (∀ j, has_field o j → has_field (notify_update this (write_field64 index w o)).2 j) as Hf.
    { intros j Hj. by apply notify_has_field, has_field_write, has_field_write. }
    rewrite Hget; [|by apply Hf..|by rewrite notify_count].
    rewrite !notify_value. unfold write_field64.
    rewrite !value_write by (done || by apply has_field_write).
    rewrite decide_False, !decide_True by (done || lia). do 3 f_equal. by apply pair64_join. }
  split; [by apply Hget|]. split_and!.
  - unfold SetUInt64Value. erewrite bind_ret_run by (apply check_index_run; lia).
    erewrite bind_ret_run by by apply load64_run.
    case_cmp; cbn [negb].
    + exists o. split; [done|]. subst. by apply Hget.
    + erewrite bind_ret_run by by apply (store64_run this). eexists. split; [apply notify_run|]. by apply Hset.
  - unfold AddUInt64Value. erewrite bind_ret_run by (apply check_index_run; lia).
    erewrite bind_ret_run by by apply load64_run. match goal with |- context [if ?c then _ else _] => exists c; destruct c end.
    + erewrite bind_ret_run by by apply (store64_run this). erewrite bind_ret_run by by apply notify_run.
      eexists. split_and!; [done|done|]. by apply Hset.
    + exists o. split_and!; [done|done|]. by apply Hget.
  - unfold RemoveUInt64Value. erewrite bind_ret_run by (apply check_index_run; lia).
    erewrite bind_ret_run by by apply load64_run. match goal with |- context [if ?c then _ else _] => exists c; destruct c end.
    + erewrite bind_ret_run by by apply (store64_run this). erewrite bind_ret_run by by apply notify_run.
      eexists. split_and!; [done|done|]. by apply Hset.
    + exists o. split_and!; [done|done|]. by apply Hget.
Qed.

(** The text form is lossless: the string [_ConcatFields] makes of the fields
    [start, start + size) of one object, given to [_LoadIntoDataField] of another
    with the same count, gives these fields their values and flags them, and
    leaves every other field as it was. *)
Theorem fields_text_roundtrip (this this2 : Z) (o o2 : Object) (start size : Z) :
  wf this o → wf this2 o2 → is_Some (m_uint32Values o) → is_Some (m_uint32Values o2) →
  m_valuesCount o2 = m_valuesCount o → 0 <= start → 0 <= size →
  start + size <= m_valuesCount o → (∀ i, in_u 32 (value o i)) →
  ∃ data o', _ConcatFields start size o = (Ret data, o) ∧
    _LoadIntoDataField (Some data) start size o2 = (Ret tt, o') ∧
    ∀ i, let inside := (start <=? Z.of_nat i) && (Z.of_nat i <? start + size) in
      value o' i = (if inside then value o i else value o2 i) ∧
      changed o' i = changed o2 i || inside.
Proof.
  intros Hw Hw2 Hs Hs2 Hc Hst Hsz Hle Hv.
  set (ns := value o <$> seq (Z.to_nat start) (Z.to_nat size)).
  assert (length ns = Z.to_nat size) as Hlen by (unfold ns; by rewrite length_fmap, length_seq).
  assert (Forall (in_u 32) ns) as Hns by (apply Forall_fmap, Forall_true, Hv).
  assert (Forall (λ n, 0 <= n < 2 ^ 63) ns) as Hns'.
  { eapply Forall_impl; [exact Hns|]. unfold in_u. intros n. pow_consts. lia. }
  pose proof (print_tokens_roundtrip ns Hns') as Hrt.
  destruct (load_fields_run this2 (Tokens (ns ≫= λ v, print_u64 v ++ [space]) space) ns start 0 o2)
    as (o' & E & Ho'); [done|done|lia|done|done|lia|].
  exists (ns ≫= λ v, print_u64 v ++ [space]), o'. split_and!.
  - unfold _ConcatFields. rewrite (concat_loop_run this) by (done || lia). by rewrite Z.add_0_r.
  - unfold _LoadIntoDataField. apply (f_equal length) in Hrt. rewrite !length_fmap in Hrt.
    rewrite Hrt, Hlen. by decide_cmp.
  - intros i. destruct (Ho' i) as [-> ->]. rewrite Z.add_0_r, Hlen.
    destruct (Nat.leb_spec (Z.to_nat start) i), (Nat.ltb_spec i (Z.to_nat start + Z.to_nat size));
      simpl; try lia; decide_cmp; try done.
    + split; [|done]. unfold ns.
      rewrite list_lookup_fmap, lookup_seq_lt by lia. simpl. f_equal. lia.
    + split; [|done]. rewrite lookup_ge_None_2 by lia. done.
Qed.

Lemma fields_text_roundtrip_witness :
  ∃ o', _LoadIntoDataField (Some [57; 32; 49; 48; 48; 32]) 2 2
          (with_values (Some (replicate 8 0)) sample_object) = (Ret tt, o') ∧
        value o' 3 = 100 ∧ changed o' 3 = true ∧ value o' 4 = 0.
Proof.
  destruct (fields_text_roundtrip 77 77 sample_object (with_values (Some (replicate 8 0)) sample_object) 2 2)
    as (data & o' & H1 & H2 & H3); [apply wf_sample_object| |by eexists|by eexists|done..| |].
  - split_and!; [done|done| |done]. by intros vs [= <-].
  - intros i. by do 8 (destruct i as [|i]; [done|]).
  - vm_compute in H1. injection H1 as <-. exists o'. split; [exact H2|].
    destruct (H3 3%nat) as [-> ->]. destruct (H3 4%nat) as [-> _]. done.
Defined.
