(* ===== verification/Timer.v ===== *)
(** * Timer: the timers of src/src/server/shared/Utilities/Timer.h

    [time_t] is a 64-bit signed integer. Signed arithmetic that overflows is
    undefined in the language and is [None] here; conversions and unsigned
    arithmetic wrap. *)

From Stdlib Require Import ZArith Lia.
From S2P Require Import Prelude.
Local Open Scope Z_scope.

Definition int64_result (z : Z) : option Z :=
  if (- 2 ^ 63 <=? z) && (z <? 2 ^ 63) then Some z else None.

Definition int32_arith (z : Z) : option Z :=
  if (- 2 ^ 31 <=? z) && (z <? 2 ^ 31) then Some z else None.

(** ** Millisecond clock readings, [uint32] *)

Definition getMSTimeDiff (oldMSTime newMSTime : Z) : Z :=
  if newMSTime <? oldMSTime
  then uwrap 32 (uwrap 32 (0xFFFFFFFF - oldMSTime) + newMSTime)
  else uwrap 32 (newMSTime - oldMSTime).

(** ** [IntervalTimer] *)

Module IntervalTimer.

Record t := mk { _interval : Z; _current : Z }.

Definition new : t := mk 0 0.

Definition Update (diff : Z) (x : t) : option t :=
  c ← int64_result (_current x + diff);
  Some (mk (_interval x) (if c <? 0 then 0 else c)).

Definition Passed (x : t) : bool := _interval x <=? _current x.

(** A remainder by zero is undefined. *)
Definition Reset (x : t) : option t :=
  if _interval x <=? _current x then
    if _interval x =? 0 then None
    else Some (mk (_interval x) (Z.rem (_current x) (_interval x)))
  else Some x.

Definition SetCurrent (current : Z) (x : t) : t := mk (_interval x) current.
Definition SetInterval (interval : Z) (x : t) : t := mk interval (_current x).
Definition GetInterval (x : t) : Z := _interval x.
Definition GetCurrent (x : t) : Z := _current x.

(** The loop of every user: update with the elapsed time and, when the interval
    has passed, reset and do the periodic work. *)
Fixpoint ticks (diffs : list Z) (x : t) : option (nat * t) :=
  match diffs with
  | [] => Some (0%nat, x)
  | d :: diffs =>
    x ← Update d x;
    if Passed x then
      x ← Reset x;
      '(n, x) ← ticks diffs x;
      Some (S n, x)
    else ticks diffs x
  end.

End IntervalTimer.

(** ** [TimeTracker], [TimeTrackerSmall] *)

Module TimeTracker.
Record t := mk { i_expiryTime : Z }.
Definition Update (diff : Z) (x : t) : option t := mk <$> int64_result (i_expiryTime x - diff).
Definition Passed (x : t) : bool := i_expiryTime x <=? 0.
Definition Reset (interval : Z) (x : t) : t := mk interval.
Definition GetExpiry (x : t) : Z := i_expiryTime x.
End TimeTracker.

Module TimeTrackerSmall.
Record t := mk { i_expiryTime : Z }.
Definition new (expiry : Z) : t := mk (swrap 32 expiry).
Definition Update (diff : Z) (x : t) : option t := mk <$> int32_arith (i_expiryTime x - diff).
Definition Passed (x : t) : bool := i_expiryTime x <=? 0.
Definition Reset (interval : Z) (x : t) : t := mk (swrap 32 interval).
Definition GetExpiry (x : t) : Z := i_expiryTime x.
End TimeTrackerSmall.

(** ** [PeriodicTimer] *)

Module PeriodicTimer.

Record t := mk { i_period : Z; i_expireTime : Z }.

(** [diff] is a [uint32]: the arithmetic with it is unsigned and converted back. *)
Definition Update (diff : Z) (x : t) : bool * t :=
  let e := swrap 32 (i_expireTime x - diff) in
  if 0 <? e then (false, mk (i_period x) e)
  else (true, mk (i_period x)
                (swrap 32 (e + (if swrap 32 diff <? i_period x then i_period x else diff)))).

Definition SetPeriodic (period start_time : Z) (x : t) : t := mk period start_time.
Definition TUpdate (diff : Z) (x : t) : option t :=
  mk (i_period x) <$> int32_arith (i_expireTime x - diff).
Definition TPassed (x : t) : bool := i_expireTime x <=? 0.
Definition TReset (diff period : Z) (x : t) : option t :=
  mk (i_period x) <$> int32_arith (i_expireTime x + (if diff <? period then period else diff)).

(** How often [Update] fires over a sequence of elapsed times. *)
Fixpoint fires (diffs : list Z) (x : t) : Z * t :=
  match diffs with
  | [] => (0, x)
  | d :: diffs =>
    let (b, x) := Update d x in
    let (n, x) := fires diffs x in
    ((if b then 1 else 0) + n, x)
  end.

End PeriodicTimer.

(** ** Properties *)

Fixpoint zsum (l : list Z) : Z := match l with [] => 0 | x :: l => x + zsum l end.

Lemma zsum_nonneg l : Forall (λ d, 0 <= d) l → 0 <= zsum l.
Proof. induction 1; simpl; lia. Qed.

(** [getMSTimeDiff] is the elapsed time between two readings of the 32-bit clock
    when the clock did not wrap; across a wrap it is one millisecond short. *)
Theorem ms_time_diff (old elapsed : Z) :
  in_u 32 old → in_u 32 elapsed →
  getMSTimeDiff old (uwrap 32 (old + elapsed)) =
    if old + elapsed <? 2 ^ 32 then elapsed else elapsed - 1.
Proof.
  unfold in_u, getMSTimeDiff, uwrap. intros Ho He.
  destruct (Z.ltb_spec (old + elapsed) (2 ^ 32)).
  - rewrite (Z.mod_small (old + elapsed)) by lia. decide_cmp.
    rewrite Z.mod_small; lia.
  - replace ((old + elapsed) mod 2 ^ 32) with (old + elapsed - 2 ^ 32) by div_lia.
    decide_cmp. div_lia.
Qed.

Lemma ms_time_diff_witness : getMSTimeDiff 0xFFFFFFF0 16 = 31.
Proof. apply (ms_time_diff 0xFFFFFFF0 32); unfold in_u; lia. Defined.

(** An [IntervalTimer] does not drift: over elapsed times of at most the
    interval it passes exactly once per elapsed interval, counting from its current
    value, keeps the remainder, and nothing in it is undefined. *)
Theorem interval_timer_no_drift (x : IntervalTimer.t) (diffs : list Z) :
  0 < IntervalTimer._interval x < 2 ^ 62 →
  0 <= IntervalTimer._current x < IntervalTimer._interval x →
  Forall (λ d, 0 <= d <= IntervalTimer._interval x) diffs →
  let total := IntervalTimer._current x + zsum diffs in
  IntervalTimer.ticks diffs x =
    Some (Z.to_nat (total / IntervalTimer._interval x),
          IntervalTimer.mk (IntervalTimer._interval x) (total mod IntervalTimer._interval x)).
Proof.
  destruct x as [p c]. simpl. intros Hp Hc Hd. revert c Hc.
  induction Hd as [|d diffs Hd1 Hd IH]; intros c Hc; cbn [IntervalTimer.ticks zsum].
  { rewrite Z.add_0_r, Z.div_small, Z.mod_small by lia. done. }
  assert (0 <= zsum diffs) by (apply zsum_nonneg; eapply Forall_impl; [exact Hd|simpl; lia]).
  unfold IntervalTimer.Update, int64_result. simpl IntervalTimer._current.
  replace ((- 2 ^ 63 <=? c + d) && (c + d <? 2 ^ 63)) with true by (decide_cmp; done).
  simpl. decide_cmp. unfold IntervalTimer.Passed. simpl.
  destruct (Z.leb_spec p (c + d)).
  - unfold IntervalTimer.Reset. simpl. decide_cmp. simpl.
    rewrite Z.rem_mod_nonneg by lia.
    assert ((c + d) mod p = c + d - p) as -> by (symmetry; apply (Z.mod_unique_pos _ _ 1); lia).
    rewrite IH by lia. simpl. do 2 f_equal.
    + replace (c + (d + zsum diffs)) with ((c + d - p + zsum diffs) + 1 * p) by lia.
      rewrite Z.div_add, Z2Nat.inj_add by (try apply Z.div_pos; lia). lia.
    + replace (c + (d + zsum diffs)) with ((c + d - p + zsum diffs) + 1 * p) by lia.
      by rewrite Z.mod_add by lia.
  - rewrite IH by lia. by replace (c + (d + zsum diffs)) with (c + d + zsum diffs) by lia.
Qed.

(** A [PeriodicTimer] loses no period: updated with elapsed times of at most one
    period, it fires once for each time its expiry is reached, wherever in the
    period it started, and stays within one period. *)
Theorem periodic_timer_no_loss (x : PeriodicTimer.t) (diffs : list Z) :
  0 < PeriodicTimer.i_period x < 2 ^ 31 →
  0 < PeriodicTimer.i_expireTime x <= PeriodicTimer.i_period x →
  Forall (λ d, 0 <= d <= PeriodicTimer.i_period x) diffs →
  let p := PeriodicTimer.i_period x in
  let n := (zsum diffs + p - PeriodicTimer.i_expireTime x) / p in
  PeriodicTimer.fires diffs x =
    (n, PeriodicTimer.mk p (PeriodicTimer.i_expireTime x + n * p - zsum diffs)).
Proof.
  destruct x as [p e]. simpl. intros Hp He Hd. revert e He.
  induction Hd as [|d diffs Hd1 Hd IH]; intros e He; cbn [PeriodicTimer.fires zsum].
  { rewrite Z.div_small by lia. do 2 f_equal. lia. }
  unfold PeriodicTimer.Update. simpl.
  rewrite (swrap_small 32 (e - d)) by (unfold in_s; lia).
  destruct (Z.ltb_spec 0 (e - d)).
  - rewrite IH by lia. replace (zsum diffs + p - (e - d)) with (d + zsum diffs + p - e) by lia.
    rewrite Z.add_0_l. do 2 f_equal. lia.
  - assert (swrap 32 (e - d + (if swrap 32 d <? p then p else d)) = e - d + p) as ->.
    { rewrite (swrap_small 32 d) by (unfold in_s; lia).
      destruct (Z.ltb_spec d p); rewrite swrap_small by (unfold in_s; lia); lia. }
    rewrite IH by lia.
    replace (d + zsum diffs + p - e) with ((zsum diffs + p - (e - d + p)) + 1 * p) by lia.
    rewrite Z.div_add by lia. f_equal; [apply Z.add_comm|]. f_equal. lia.
Qed.

