(* ===== verification/EventProcessor.v ===== *)
(** * EventProcessor: src/src/server/shared/Utilities/EventProcessor.h, .cpp

    The queue of timed events every unit owns. Events are heap objects with virtual
    methods; the queue is a [std::multimap] from the planned time to the event, in
    which equal keys keep their insertion order. *)

From Stdlib Require Import ZArith Lia.
From S2P Require Import Prelude.
Local Open Scope Z_scope.

(** [upper_bound t l]: the position where [multimap::insert] puts the key [t]. *)
Fixpoint upper_bound (t : Z) (l : list (Z * Z)) : nat :=
  match l with
  | [] => 0%nat
  | (u, _) :: l => if t <? u then 0%nat else S (upper_bound t l)
  end.

Definition insert_event (t id : Z) (l : list (Z * Z)) : list (Z * Z) :=
  take (upper_bound t l) l ++ (t, id) :: drop (upper_bound t l) l.

(** What the virtual methods may do to the queue: create and add a new event, or add
    the event itself again. *)
Inductive action (K : Type) :=
| Spawn (k : K) (e_time : Z) (set_addtime : bool)
| Again (e_time : Z) (set_addtime : bool).
Arguments Spawn {K} k e_time set_addtime.
Arguments Again {K} e_time set_addtime.

(** The calls of [Execute] and [Abort], with the time they were given. *)
Inductive note := Executed (id e_time : Z) | Aborted (id e_time : Z).

(** [K] is the dynamic class of an event with its own data, [W] the world the virtual
    methods act on. *)
Record BasicEvent (K : Type) := mkEvent {
  kind : K;
  to_Abort : bool;
  m_addTime : Z;
  m_execTime : Z
}.
Arguments mkEvent {K} kind to_Abort m_addTime m_execTime.
Arguments kind {K} _.
Arguments to_Abort {K} _.
Arguments m_addTime {K} _.
Arguments m_execTime {K} _.

(** The processor, the live event objects, the world, and the calls made so far. *)
Record Processor (K W : Type) := mkProcessor {
  m_time : Z;
  m_events : list (Z * Z);
  m_aborting : bool;
  heap : gmap Z (BasicEvent K);
  world : W;
  log : list note
}.
Arguments mkProcessor {K W} _ _ _ _ _ _.
Arguments m_time {K W} _.
Arguments m_events {K W} _.
Arguments m_aborting {K W} _.
Arguments heap {K W} _.
Arguments world {K W} _.
Arguments log {K W} _.

Section EventProcessor.
Context {K W : Type}.

Abbreviation proc := (Processor K W).
Abbreviation ep := (prog proc fault).

(** The virtual methods, for an event of class [k] that is the object [id]. *)
Context (Execute : K → Z → Z → Z → W → bool * list (action K) * W).
Context (Abort_ : K → Z → Z → W → list (action K) * W).
Context (IsDeletable : K → Z → W → bool).

Definition with_time (t : Z) (s : proc) : proc :=
  mkProcessor t (m_events s) (m_aborting s) (heap s) (world s) (log s).
Definition with_events (l : list (Z * Z)) (s : proc) : proc :=
  mkProcessor (m_time s) l (m_aborting s) (heap s) (world s) (log s).
Definition with_aborting (b : bool) (s : proc) : proc :=
  mkProcessor (m_time s) (m_events s) b (heap s) (world s) (log s).
Definition with_heap (h : gmap Z (BasicEvent K)) (s : proc) : proc :=
  mkProcessor (m_time s) (m_events s) (m_aborting s) h (world s) (log s).
Definition with_world (w : W) (s : proc) : proc :=
  mkProcessor (m_time s) (m_events s) (m_aborting s) (heap s) w (log s).
Definition noting (n : note) (s : proc) : proc :=
  mkProcessor (m_time s) (m_events s) (m_aborting s) (heap s) (world s) (log s ++ [n]).

Definition new_processor (w : W) : proc := mkProcessor 0 [] false ∅ w [].

(** An access through a pointer to an object that is no longer live is undefined. *)
Definition deref (id : Z) : ep (BasicEvent K) := λ s,
  match heap s !! id with Some e => (Ret e, s) | None => (Throw Undefined, s) end.

Definition store_event (id : Z) (e : BasicEvent K) : ep unit :=
  modify (λ s, with_heap (<[id := e]> (heap s)) s).

Definition delete_event (id : Z) : ep unit :=
  deref id;; modify (λ s, with_heap (delete id (heap s)) s).

(** Returns the position of the new element, which the iterators shift by. *)
Definition AddEvent (id e_time : Z) (set_addtime : bool) : ep nat :=
  e ← deref id;
  now ← gets m_time;
  store_event id (mkEvent (kind e) (to_Abort e) (if set_addtime then now else m_addTime e) e_time);;
  pos ← gets (λ s, upper_bound e_time (m_events s));
  modify (λ s, with_events (insert_event e_time id (m_events s)) s);;
  mret pos.

Definition CalculateTime (t_offset : Z) : ep Z := gets (λ s, uwrap 64 (m_time s + t_offset)).

(** An iterator, given by its position, after an insertion at [pos]. *)
Definition shift_iterator (pos i : nat) : nat := if Nat.leb pos i then S i else i.

(** One action of the event [self]; [its] are the iterators held by the caller. *)
Definition perform (self : Z) (a : action K) (its : list nat) : ep (list nat) :=
  match a with
  | Spawn k t b =>
    id ← gets (λ s, fresh (dom (heap s)));
    store_event id (mkEvent k false 0 0);;
    pos ← AddEvent id t b;
    mret (shift_iterator pos <$> its)
  | Again t b =>
    pos ← AddEvent self t b;
    mret (shift_iterator pos <$> its)
  end.

Fixpoint perform_all (self : Z) (acts : list (action K)) (its : list nat) : ep (list nat) :=
  match acts with
  | [] => mret its
  | a :: acts => its ← perform self a its; perform_all self acts its
  end.

Definition call_Execute (id p_time : Z) : ep bool :=
  e ← deref id;
  now ← gets m_time;
  w ← gets world;
  let '(del, acts, w) := Execute (kind e) id now p_time w in
  modify (λ s, with_world w (noting (Executed id now) s));;
  perform_all id acts [];;
  mret del.

Definition call_Abort (id : Z) (its : list nat) : ep (list nat) :=
  e ← deref id;
  now ← gets m_time;
  w ← gets world;
  let '(acts, w) := Abort_ (kind e) id now w in
  modify (λ s, with_world w (noting (Aborted id now) s));;
  perform_all id acts its.

(** One turn of the loop of [Update]; [false] when nothing more is due. *)
Definition update_turn (p_time : Z) : ep bool :=
  l ← gets m_events;
  now ← gets m_time;
  match l with
  | [] => mret false
  | (t, Event) :: rest =>
    if t <=? now then
      modify (with_events rest);;
      e ← deref Event;
      (if negb (to_Abort e) then
         del ← call_Execute Event p_time;
         if del : bool then delete_event Event else mret tt
       else
         call_Abort Event [];;
         delete_event Event);;
      mret true
    else mret false
  end.

(** The loop returns [true] when it ends within [fuel] turns. *)
Fixpoint update_loop (fuel : nat) (p_time : Z) : ep bool :=
  match fuel with
  | O => mret false
  | S fuel =>
    more ← update_turn p_time;
    if more : bool then update_loop fuel p_time else mret true
  end.

Definition Update (fuel : nat) (p_time : Z) : ep bool :=
  modify (λ s, with_time (uwrap 64 (m_time s + p_time)) s);;
  update_loop fuel p_time.

(** The loop of [KillAllEvents], from the iterator at position [i]. *)
Fixpoint kill_loop (fuel : nat) (force : bool) (i : nat) : ep bool :=
  match fuel with
  | O => mret false
  | S fuel =>
    l ← gets m_events;
    match l !! i with
    | None => mret true
    | Some (_, id) =>
      e ← deref id;
      store_event id (mkEvent (kind e) true (m_addTime e) (m_execTime e));;
      its ← call_Abort id [i; S i];
      let i_old := default i (its !! 0%nat) in
      let i := default (S i) (its !! 1%nat) in
      e ← deref id;
      w ← gets world;
      if force || IsDeletable (kind e) id w then
        delete_event id;;
        if negb force then
          modify (λ s, with_events (take i_old (m_events s) ++ drop (S i_old) (m_events s)) s);;
          kill_loop fuel force (pred i)
        else kill_loop fuel force i
      else kill_loop fuel force i
    end
  end.

Definition KillAllEvents (fuel : nat) (force : bool) : ep bool :=
  modify (with_aborting true);;
  done ← kill_loop fuel force 0;
  (if force then modify (with_events []) else mret tt);;
  mret done.

(** The destructor. *)
Definition destroy (fuel : nat) : ep bool := KillAllEvents fuel true.

End EventProcessor.
