(* ===== verification/EventFacts.v ===== *)
(** * EventFacts: the event queue of a unit

    [owns ext s]: the queue is sorted, no event is queued twice, and the live events
    are exactly the queued ones and those of [ext] (the event whose virtual method is
    running). The lemmas follow this ownership through the operations. *)

From Stdlib Require Import ZArith Lia.
From S2P Require Import Prelude EventProcessor.
Local Open Scope Z_scope.

(** ** The multimap *)

Lemma insert_event_perm t id l : insert_event t id l ≡ₚ (t, id) :: l.
Proof.
  unfold insert_event. rewrite <- Permutation_middle. by rewrite take_drop.
Qed.

Lemma insert_event_cons t id u i l :
  insert_event t id ((u, i) :: l) =
    if t <? u then (t, id) :: (u, i) :: l else (u, i) :: insert_event t id l.
Proof. unfold insert_event. simpl. by destruct (t <? u). Qed.

Lemma insert_event_sorted t id l :
  StronglySorted key_le l → StronglySorted key_le (insert_event t id l).
Proof.
  induction 1 as [|[u i] l Hl IH Hall]; [repeat constructor|].
  rewrite insert_event_cons. destruct (Z.ltb_spec t u).
  - constructor; [by constructor|]. constructor; [unfold key_le; simpl; lia|].
    eapply Forall_impl; [exact Hall|]. unfold key_le. simpl. lia.
  - constructor; [done|]. rewrite insert_event_perm. constructor; [unfold key_le; simpl; lia|done].
Qed.

(** The events due at [now]: in a sorted queue, a prefix. *)
Definition due (now : Z) (l : list (Z * Z)) : list (Z * Z) := filter (λ x, x.1 <= now) l.

Lemma due_insert_later now t id l : now < t → due now (insert_event t id l) = due now l.
Proof.
  intros Ht. unfold due, insert_event. rewrite filter_app, filter_cons_False by (simpl; lia).
  by rewrite <- filter_app, take_drop.
Qed.

Lemma due_none now t id l :
  StronglySorted key_le ((t, id) :: l) → now < t → due now ((t, id) :: l) = [].
Proof.
  intros Hs Ht. apply StronglySorted_inv in Hs as [_ Hall]. unfold due.
  rewrite filter_cons_False by (simpl; lia).
  induction Hall as [|[u i] l Hu Hall IH]; [done|].
  unfold key_le in Hu. simpl in Hu. rewrite filter_cons_False by (simpl; lia). done.
Qed.

Lemma due_sorted now l : StronglySorted key_le l → StronglySorted key_le (due now l).
Proof.
  induction 1 as [|x l Hl IH Hall]; [constructor|]. unfold due in *. rewrite filter_cons.
  case_decide; [|done]. constructor; [done|]. rewrite Forall_forall in *.
  intros y [_ Hy]%list_elem_of_filter. by apply Hall.
Qed.

Section Facts.
Context {K W : Type}.
Context (Execute : K → Z → Z → Z → W → bool * list (action K) * W).
Context (Abort_ : K → Z → Z → W → list (action K) * W).

Abbreviation proc := (Processor K W).

Definition ids (s : proc) : list Z := (m_events s).*2.

Definition owns (ext : list Z) (s : proc) : Prop :=
  StronglySorted key_le (m_events s) ∧ NoDup (ids s) ∧
  (∀ id, is_Some (heap s !! id) ↔ id ∈ ids s ∨ id ∈ ext) ∧
  (∀ id, id ∈ ext → id ∉ ids s).

Abbreviation wf := (owns []).

(** What a virtual method leaves alone: the clock, the events due at [now], the
    presence of the others, and the class and the abort mark of every live event. *)
Definition keeps (now : Z) (s s' : proc) : Prop :=
  m_time s' = m_time s ∧ m_aborting s' = m_aborting s ∧
  due now (m_events s') = due now (m_events s) ∧
  (∀ x, x ∈ m_events s → x ∈ m_events s') ∧
  (∀ x, x ∈ m_events s' → x ∈ m_events s ∨ now < x.1) ∧
  (∀ id e, heap s !! id = Some e →
     ∃ e', heap s' !! id = Some e' ∧ kind e' = kind e ∧ to_Abort e' = to_Abort e).

Lemma keeps_refl now s : keeps now s s.
Proof. split_and!; try done; eauto. Qed.

Lemma keeps_trans now s1 s2 s3 : keeps now s1 s2 → keeps now s2 s3 → keeps now s1 s3.
Proof.
  intros (A1&A2&A3&A4&A5&A6) (B1&B2&B3&B4&B5&B6).
  split_and!; [congruence|congruence|congruence|by auto| |].
  - intros x [Hx|Hx]%B5; auto.
  - intros id e He. destruct (A6 id e He) as (e1 & H1 & K1 & T1).
    destruct (B6 id e1 H1) as (e2 & H2 & K2 & T2). exists e2. split_and!; congruence.
Qed.

Lemma deref_run (s : proc) id e : heap s !! id = Some e → deref id s = (Ret e, s).
Proof. intros H. unfold deref. by rewrite H. Qed.

(** The state after [AddEvent]. *)
Definition added (id t : Z) (b : bool) (e : BasicEvent K) (s : proc) : proc :=
  with_events (insert_event t id (m_events s))
    (with_heap (<[id := mkEvent (kind e) (to_Abort e) (if b then m_time s else m_addTime e) t]> (heap s)) s).

Lemma AddEvent_run id t b e (s : proc) :
  heap s !! id = Some e →
  AddEvent id t b s = (Ret (upper_bound t (m_events s)), added id t b e s).
Proof.
  intros He. unfold AddEvent. erewrite bind_ret_run by by apply deref_run. done.
Qed.

Lemma added_owns id t b e ext (s : proc) :
  owns (id :: ext) s → id ∉ ext → heap s !! id = Some e → owns ext (added id t b e s).
Proof.
  intros (Hs & Hn & Hl & Hx) Hne He. unfold added, owns, ids in *. simpl.
  assert ((insert_event t id (m_events s)).*2 ≡ₚ id :: (m_events s).*2) as Hp.
  { by rewrite insert_event_perm. }
  split_and!.
  - by apply insert_event_sorted.
  - rewrite Hp. constructor; [|done]. apply Hx. by left.
  - intros j. rewrite Hp, elem_of_cons, lookup_insert_is_Some', Hl, elem_of_cons.
    assert (id = j ↔ j = id) by (split; congruence). tauto.
  - intros j Hj. rewrite Hp, elem_of_cons. intros [->|Hin]; [done|].
    apply (Hx j); [by right|done].
Qed.

Lemma added_keeps now id t b e (s : proc) :
  now < t → heap s !! id = Some e → keeps now s (added id t b e s).
Proof.
  intros Ht He. unfold added. split_and!; simpl; try done.
  - by apply due_insert_later.
  - intros x Hx. rewrite insert_event_perm. by right.
  - intros x. rewrite insert_event_perm, elem_of_cons. intros [->|?]; [by right|by left].
  - intros j ej Hj. destruct (decide (id = j)) as [->|].
    + rewrite lookup_insert_eq. eexists. split; [done|]. simpl. split; congruence.
    + rewrite lookup_insert_ne by done. eauto.
Qed.

(** ** The actions of a virtual method *)

Definition is_again (a : action K) : bool := match a with Again _ _ => true | _ => false end.
Definition time_of (a : action K) : Z := match a with Spawn _ t _ => t | Again t _ => t end.

Definition agains (acts : list (action K)) : nat := length (filter (λ a, is_again a = true) acts).

Lemma perform_all_run now self acts its (s : proc) ext :
  (agains acts <= length ext)%nat → (∀ x, x ∈ ext → x = self) → (length ext <= 1)%nat →
  Forall (λ a, now < time_of a) acts →
  owns ext s →
  ∃ its' s', perform_all self acts its s = (Ret its', s') ∧ keeps now s s' ∧
    owns (drop (agains acts) ext) s' ∧ log s' = log s ∧ world s' = world s.
Proof.
  revert ext its s. induction acts as [|a acts IH]; intros ext its s Ha Hself Hlen Ht Ho;
    cbn [perform_all].
  { exists its, s. split_and!; [done|apply keeps_refl|done..]. }
  apply Forall_cons in Ht as [Ht1 Ht].
  destruct a as [k t b|t b]; cbn [perform].
  - set (id := fresh (dom (heap s))).
    assert (heap s !! id = None) as Hfr by (apply not_elem_of_dom, is_fresh).
    set (s1 := with_heap (<[id := mkEvent k false 0 0]> (heap s)) s).
    assert (owns (id :: ext) s1) as Ho1.
    { destruct Ho as (Hs & Hn & Hl & Hx).
      assert ((id ∉ ids s) ∧ (id ∉ ext)) as [Hid Hie].
      { split; intros Hin; destruct (proj2 (Hl id)); auto; congruence. }
      subst s1. unfold owns, ids in *. simpl. split_and!; [done|done| |].
      - intros j. rewrite lookup_insert_is_Some', Hl, elem_of_cons.
    assert (id = j ↔ j = id) by (split; congruence). tauto.
      - intros j [->|Hj]%elem_of_cons; [done|by apply Hx]. }
    assert (id ∉ ext) as Hie.
    { intros Hin. destruct Ho as (_ & _ & Hl & _). destruct (proj2 (Hl id)); [by right|congruence]. }
    assert (heap s1 !! id = Some (mkEvent k false 0 0)) as Hid by apply lookup_insert_eq.
    set (s2 := added id t b (mkEvent k false 0 0) s1).
    destruct (IH ext (shift_iterator (upper_bound t (m_events s1)) <$> its) s2)
      as (its' & s' & E & Hk & Ho' & Hlg & Hwd); [done|done|done|done|by apply added_owns|].
    exists its', s'. split_and!; [|eapply keeps_trans; [|exact Hk]|done|done|done].
    + erewrite bind_ret_run; [exact E|]. erewrite bind_ret_run by done.
      erewrite bind_ret_run by done. by erewrite bind_ret_run by by apply AddEvent_run.
    + apply (keeps_trans _ _ s1).
      * subst s1. split_and!; try done; [by eauto|]. simpl. intros j e Hj.
        rewrite lookup_insert_ne by congruence. eauto.
      * by apply added_keeps.
  - destruct ext as [|x ext]; [unfold agains in Ha; simpl in Ha; lia|].
    assert (x = self) as -> by (apply Hself; by left).
    destruct ext; [|simpl in Hlen; lia].
    destruct (proj2 (proj1 (proj2 (proj2 Ho)) self)) as [e He]; [right; by left|].
    set (s1 := added self t b e s).
    destruct (IH [] (shift_iterator (upper_bound t (m_events s)) <$> its) s1)
      as (its' & s' & E & Hk & Ho' & Hlg & Hwd); [|by intros ? ?%not_elem_of_nil|simpl; lia|done| |].
    { unfold agains in *. simpl in *. lia. }
    { apply added_owns; [done|by apply not_elem_of_nil|done]. }
    exists its', s'. split_and!; [|eapply keeps_trans; [|exact Hk]|exact Ho'|done|done].
    + erewrite bind_ret_run; [exact E|]. by erewrite bind_ret_run by by apply AddEvent_run.
    + by apply added_keeps.
Qed.

(** ** Updates *)

(** The discipline of the events of the program: a virtual method plans events only
    for later, [Execute] adds its event again exactly when it asks for it not to be
    deleted, and [Abort] does not. *)
Class Disciplined : Prop := {
  execute_later : ∀ k id now p w, Forall (λ a, now < time_of a) (Execute k id now p w).1.2;
  execute_again : ∀ k id now p w,
    agains (Execute k id now p w).1.2 = if (Execute k id now p w).1.1 then 0%nat else 1%nat;
  abort_later : ∀ k id now w, Forall (λ a, now < time_of a) (Abort_ k id now w).1;
  abort_again : ∀ k id now w, agains (Abort_ k id now w).1 = 0%nat
}.

Context {Hd : Disciplined}.

Definition visit (now : Z) (s : proc) (x : Z * Z) : note :=
  match heap s !! x.2 with
  | Some e => if to_Abort e then Aborted x.2 now else Executed x.2 now
  | None => Executed x.2 now
  end.

(** An event whose virtual method was called: it is queued again or deleted. *)
Lemma delete_run id e (s : proc) :
  heap s !! id = Some e → delete_event id s = (Ret tt, with_heap (delete id (heap s)) s).
Proof. intros He. unfold delete_event. by erewrite bind_ret_run by by apply deref_run. Qed.

Lemma delete_owns id (s : proc) : owns [id] s → wf (with_heap (delete id (heap s)) s).
Proof.
  intros (Hs & Hn & Hl & Hx). unfold owns, ids in *. simpl. split_and!; [done|done| |].
  - intros j. rewrite lookup_delete_is_Some, Hl, list_elem_of_singleton.
    specialize (Hx id ltac:(by left)). split; [intros [? [?|?]]; [by left|congruence]|].
    intros [Hj|Hj%not_elem_of_nil]; [|done]. split; [congruence|by left].
  - by intros j Hj%not_elem_of_nil.
Qed.

Lemma pop_owns t id rest (s : proc) :
  wf s → m_events s = (t, id) :: rest → owns [id] (with_events rest s).
Proof.
  intros (Hs & Hn & Hl & Hx) E. unfold owns, ids in *. rewrite E in *. simpl in *.
  apply StronglySorted_inv in Hs as [Hs _]. apply NoDup_cons in Hn as [Hid Hn].
  split_and!; [done|done| |].
  - intros j. rewrite Hl, elem_of_cons, list_elem_of_singleton.
    split; [intros [[?|?]|?%not_elem_of_nil]|intros [?|?]]; auto; done.
  - by intros j ->%list_elem_of_singleton.
Qed.

Lemma execute_run id p e (s : proc) :
  owns [id] s → heap s !! id = Some e →
  ∃ del s', call_Execute Execute id p s = (Ret del, s') ∧ keeps (m_time s) s s' ∧
    owns (if del : bool then [id] else []) s' ∧ log s' = log s ++ [Executed id (m_time s)].
Proof.
  intros Ho He. unfold call_Execute.
  pose proof (execute_later (kind e) id (m_time s) p (world s)) as Hl.
  pose proof (execute_again (kind e) id (m_time s) p (world s)) as Ha.
  destruct (Execute (kind e) id (m_time s) p (world s)) as [[del acts] w] eqn:E. simpl in Hl, Ha.
  set (s1 := with_world w (noting (Executed id (m_time s)) s)).
  destruct (perform_all_run (m_time s) id acts [] s1 [id]) as (its & s' & E' & Hk & Ho' & Hlog & _).
  { rewrite Ha. destruct del; simpl; lia. } { by intros x ->%list_elem_of_singleton. }
  { simpl. lia. } { done. } { exact Ho. }
  exists del, s'. split_and!; [|exact Hk| |exact Hlog].
  - erewrite bind_ret_run by by apply deref_run. erewrite bind_ret_run by done.
    erewrite bind_ret_run by done. rewrite E. erewrite bind_ret_run by done.
    by erewrite bind_ret_run.
  - rewrite Ha in Ho'. by destruct del.
Qed.

Lemma abort_run id e its (s : proc) ext :
  ext ⊆ [id] → (length ext <= 1)%nat → owns ext s → heap s !! id = Some e →
  ∃ its' s', call_Abort Abort_ id its s = (Ret its', s') ∧ keeps (m_time s) s s' ∧
    owns ext s' ∧ log s' = log s ++ [Aborted id (m_time s)].
Proof.
  intros Hsub Hlen Ho He. unfold call_Abort.
  pose proof (abort_later (kind e) id (m_time s) (world s)) as Hl.
  pose proof (abort_again (kind e) id (m_time s) (world s)) as Ha.
  destruct (Abort_ (kind e) id (m_time s) (world s)) as [acts w] eqn:E. simpl in Hl, Ha.
  set (s1 := with_world w (noting (Aborted id (m_time s)) s)).
  destruct (perform_all_run (m_time s) id acts its s1 ext) as (its' & s' & E' & Hk & Ho' & Hlog & _).
  { rewrite Ha. lia. } { by intros x ->%Hsub%list_elem_of_singleton. } { done. } { done. } { exact Ho. }
  exists its', s'. rewrite Ha in Ho'. split_and!; [|exact Hk|exact Ho'|exact Hlog].
  erewrite bind_ret_run by by apply deref_run. erewrite bind_ret_run by done.
  erewrite bind_ret_run by done. rewrite E. by erewrite bind_ret_run by done.
Qed.

(** One turn on a due event: its virtual method runs, the rest of the due events is
    untouched, and the event is deleted or queued for later. *)
Lemma update_turn_run p t id rest (s : proc) :
  wf s → m_events s = (t, id) :: rest → t <= m_time s →
  ∃ s', update_turn Execute Abort_ p s = (Ret true, s') ∧ wf s' ∧ m_time s' = m_time s ∧
    due (m_time s) (m_events s') = due (m_time s) rest ∧
    (∀ x, x ∈ rest → x ∈ m_events s' ∧ visit (m_time s) s' x = visit (m_time s) s x) ∧
    (∀ x, x ∈ m_events s' → x ∈ rest ∨ m_time s < x.1) ∧
    log s' = log s ++ [visit (m_time s) s (t, id)].
Proof.
  intros Hw El Ht. pose proof (pop_owns t id rest s Hw El) as Ho.
  destruct (proj2 (proj1 (proj2 (proj2 Ho)) id)) as [e He]; [right; by left|]. simpl in He.
  set (s1 := with_events rest s) in *.
  assert (NoDup (ids s)) as Hnd by apply Hw. unfold ids in Hnd. rewrite El in Hnd.
  apply NoDup_cons in Hnd as [Hid _]. simpl in Hid.
  assert (∀ s2 s3, keeps (m_time s) s1 s2 → m_events s3 = m_events s2 →
    (∀ j, j ≠ id → heap s3 !! j = heap s2 !! j) → ∀ x, x ∈ rest →
      x ∈ m_events s3 ∧ visit (m_time s) s3 x = visit (m_time s) s x) as Hrest.
  { intros s2 s3 (_ & _ & _ & K4 & _ & K6) E3 H3 x Hx. split; [rewrite E3; by apply K4|].
    assert (x.2 ≠ id) as Hne. { intros <-. apply Hid. by apply list_elem_of_fmap_2. }
    destruct (proj2 (proj1 (proj2 (proj2 Ho)) x.2)) as [ex Hex].
    { left. by apply list_elem_of_fmap_2. }
    destruct (K6 _ _ Hex) as (e' & E' & _ & T'). unfold visit. rewrite H3, E' by done.
    simpl in Hex. by rewrite Hex, T'. }
  assert (update_turn Execute Abort_ p s =
    ((if negb (to_Abort e) then
        del ← call_Execute Execute id p; if del : bool then delete_event id else mret tt
      else call_Abort Abort_ id [];; delete_event id);; mret true) s1) as ->.
  { unfold update_turn. erewrite bind_ret_run by done. erewrite bind_ret_run by done.
    rewrite El. decide_cmp. erewrite bind_ret_run by done.
    by erewrite bind_ret_run by by apply deref_run. }
  assert (visit (m_time s) s (t, id) =
    if to_Abort e then Aborted id (m_time s) else Executed id (m_time s)) as ->.
  { unfold visit. simpl. by rewrite He. }
  destruct (to_Abort e) eqn:Eab; cbn [negb].
  - destruct (abort_run id e [] s1 [id]) as (its & s2 & E2 & Hk & Ho2 & Hlog); [done|simpl; lia|done|done|].
    destruct (proj2 (proj1 (proj2 (proj2 Ho2)) id)) as [e2 He2]; [right; by left|].
    set (s3 := with_heap (delete id (heap s2)) s2). exists s3.
    destruct (Hk) as (K1 & _ & K3 & _ & K5 & _). split_and!; [|by apply delete_owns|done|done| |done|done].
    + erewrite bind_ret_run; [done|]. erewrite bind_ret_run by done. by apply (delete_run id e2).
    + apply (Hrest s2 s3); [done|done|]. intros j Hj. simpl. by rewrite lookup_delete_ne.
  - destruct (execute_run id p e s1) as (del & s2 & E2 & Hk & Ho2 & Hlog); [done|done|].
    destruct (Hk) as (K1 & _ & K3 & _ & K5 & _). destruct del.
    + destruct (proj2 (proj1 (proj2 (proj2 Ho2)) id)) as [e2 He2]; [right; by left|].
      set (s3 := with_heap (delete id (heap s2)) s2). exists s3.
      split_and!; [|by apply delete_owns|done|done| |done|done].
      * erewrite bind_ret_run; [done|]. erewrite bind_ret_run by done. by apply (delete_run id e2).
      * apply (Hrest s2 s3); [done|done|]. intros j Hj. simpl. by rewrite lookup_delete_ne.
    + exists s2. split_and!; [|done|done|done| |done|done].
      * erewrite bind_ret_run; [done|]. by erewrite bind_ret_run by exact E2.
      * by apply (Hrest s2 s2).
Qed.

Lemma update_turn_idle p (s : proc) :
  wf s → due (m_time s) (m_events s) = [] → update_turn Execute Abort_ p s = (Ret false, s).
Proof.
  intros Hw Hdue. unfold update_turn. erewrite bind_ret_run by done. erewrite bind_ret_run by done.
  destruct (m_events s) as [|[t id] rest]; [done|]. unfold due in Hdue.
  destruct (Z.leb_spec t (m_time s)); [|done].
  rewrite filter_cons_True in Hdue by (simpl; lia). done.
Qed.

Lemma due_cons (s : proc) x l :
  wf s → due (m_time s) (m_events s) = x :: l →
  ∃ t id rest, x = (t, id) ∧ m_events s = (t, id) :: rest ∧ t <= m_time s ∧ due (m_time s) rest = l.
Proof.
  intros (Hs & _) Hdue. destruct (m_events s) as [|[t id] rest]; [done|].
  destruct (Z.leb_spec t (m_time s)).
  - unfold due in Hdue. rewrite filter_cons_True in Hdue by (simpl; lia). injection Hdue as <- <-.
    by exists t, id, rest.
  - by rewrite due_none in Hdue.
Qed.

Lemma update_loop_run fuel p (s : proc) :
  wf s → (length (due (m_time s) (m_events s)) < fuel)%nat →
  ∃ s', update_loop Execute Abort_ fuel p s = (Ret true, s') ∧ wf s' ∧ m_time s' = m_time s ∧
    log s' = log s ++ (visit (m_time s) s <$> due (m_time s) (m_events s)) ∧
    (∀ x, x ∈ m_events s' → m_time s < x.1) ∧
    (∀ x, x ∈ m_events s → m_time s < x.1 → x ∈ m_events s').
Proof.
  revert s. induction fuel as [|fuel IH]; intros s Hw Hf; [lia|]. cbn [update_loop].
  destruct (due (m_time s) (m_events s)) as [|x l] eqn:Edue.
  - exists s. erewrite bind_ret_run by by apply update_turn_idle.
    split_and!; try done; [by rewrite app_nil_r|].
    intros x Hx. destruct (Z.lt_ge_cases (m_time s) x.1); [done|].
    exfalso. apply (not_elem_of_nil x). rewrite <- Edue. apply list_elem_of_filter. done.
  - destruct (due_cons s x l Hw Edue) as (t & id & rest & -> & El & Ht & Hl).
    destruct (update_turn_run p t id rest s Hw El Ht) as (s1 & E & Hw1 & T1 & D1 & R1 & N1 & L1).
    destruct (IH s1 Hw1) as (s' & E' & Hw' & T' & L' & A' & B').
    { rewrite T1, D1, Hl. simpl in Hf. lia. }
    exists s'. erewrite bind_ret_run by done. rewrite T1 in *.
    split_and!; [done|done|done| |done|].
    + rewrite L', L1, D1, Hl, <- app_assoc. simpl. do 2 f_equal.
      apply list_fmap_ext. intros i y Hy%list_elem_of_lookup_2. apply R1.
      rewrite <- Hl in Hy. unfold due in Hy. by apply list_elem_of_filter in Hy as [_ ?].
    + intros y Hy Hlt. apply B'; [|done]. apply R1. rewrite El in Hy.
      apply elem_of_cons in Hy as [->|]; [simpl in Hlt; lia|done].
Qed.

End Facts.

(** ** Aborting everything *)

Section Kill.
Context {K W : Type}.
Context (Abort_ : K → Z → Z → W → list (action K) * W).
Context (IsDeletable : K → Z → W → bool).

Abbreviation proc := (Processor K W).

(** The effect of the loop of [KillAllEvents] from position [length l1], when the
    [Abort] methods do not touch the queue. *)
Lemma kill_loop_run fuel force l1 l2 (s : proc) :
  (∀ k id now w, (Abort_ k id now w).1 = []) →
  m_events s = l1 ++ l2 → NoDup l2.*2 → (∀ id, id ∈ l2.*2 → is_Some (heap s !! id)) →
  (length l2 < fuel)%nat →
  ∃ s' kept, kill_loop Abort_ IsDeletable fuel force (length l1) s = (Ret true, s') ∧
    m_events s' = l1 ++ (if force then l2 else kept) ∧ sublist kept l2 ∧
    (force = true → kept = []) ∧
    (∀ id, id ∈ kept.*2 → ∃ e, heap s' !! id = Some e ∧ to_Abort e = true) ∧
    (∀ id, id ∈ l2.*2 → id ∉ kept.*2 → heap s' !! id = None) ∧
    (∀ id, id ∉ l2.*2 → heap s' !! id = heap s !! id) ∧
    log s' = log s ++ ((λ x : Z * Z, Aborted x.2 (m_time s)) <$> l2) ∧
    m_aborting s' = m_aborting s.
Proof.
  intros Hinert. revert fuel l1 s. induction l2 as [|[t id] l2 IH]; intros fuel l1 s El Hn Hl Hf;
    destruct fuel as [|fuel]; try (simpl in Hf; lia); cbn [kill_loop].
  { exists s, []. split_and!; try done.
    - erewrite bind_ret_run by done. rewrite El, lookup_ge_None_2; [done|].
      by rewrite app_nil_r.
    - destruct force; by rewrite El.
    - intros j Hj. by apply not_elem_of_nil in Hj.
    - by rewrite app_nil_r. }
  apply NoDup_cons in Hn as [Hid Hn]. simpl in Hid.
  destruct (Hl id) as [e He]; [by left|].
  set (e1 := mkEvent (kind e) true (m_addTime e) (m_execTime e)).
  set (s1 := with_heap (<[id := e1]> (heap s)) s).
  destruct (Abort_ (kind e1) id (m_time s1) (world s1)) as [acts w] eqn:Ew.
  pose proof (Hinert (kind e1) id (m_time s1) (world s1)) as Hacts. rewrite Ew in Hacts. simpl in Hacts.
  set (s2 := with_world w (noting (Aborted id (m_time s1)) s1)).
  assert (heap s1 !! id = Some e1) as He1 by apply lookup_insert_eq.
  assert (call_Abort Abort_ id [length l1; S (length l1)] s1 =
    (Ret [length l1; S (length l1)], s2)) as Eab.
  { unfold call_Abort. erewrite bind_ret_run by by apply deref_run.
    erewrite bind_ret_run by done. erewrite bind_ret_run by done. rewrite Ew, Hacts.
    by erewrite bind_ret_run by done. }
  assert (heap s2 !! id = Some e1) as He2 by done.
  erewrite bind_ret_run by done. rewrite El, list_lookup_middle by done.
  erewrite bind_ret_run by by apply deref_run. erewrite bind_ret_run by done.
  erewrite bind_ret_run by exact Eab. cbn [lookup list_lookup default].
  erewrite bind_ret_run by by apply deref_run. erewrite bind_ret_run by done.
  assert (∀ j, j ≠ id → heap s1 !! j = heap s !! j) as Hother.
  { intros j Hj. simpl. by rewrite lookup_insert_ne. }
  destruct (force || IsDeletable (kind e1) id (world s2)) eqn:Edel.
  - erewrite bind_ret_run by by apply (delete_run id e1).
    set (s3 := with_heap (delete id (heap s2)) s2).
    assert (heap s3 !! id = None) as He3 by apply lookup_delete_eq.
    assert (∀ j, j ≠ id → heap s3 !! j = heap s !! j) as H3.
    { intros j Hj. rewrite <- Hother by done. simpl. by rewrite lookup_delete_ne. }
    assert (∀ j, j ∈ l2.*2 → is_Some (heap s3 !! j)) as Hlive.
    { intros j Hj. rewrite H3 by (intros ->; done). apply Hl. by right. }
    destruct force; cbn [negb].
    + destruct (IH fuel (l1 ++ [(t, id)]) s3) as (s' & kept & E & Ev & Hsub & Hk & Hka & Hd' & Ho & Hlog & Hm);
        [by rewrite <- app_assoc|done|done|simpl in Hf; lia|].
      rewrite length_app, Nat.add_1_r in E. exists s', kept. rewrite (Hk eq_refl) in *.
      split_and!; [done|by rewrite Ev, <- app_assoc|apply sublist_nil_l|done|done| | | |done].
      * intros j [->|Hj]%elem_of_cons Hnk; [by rewrite Ho|by apply Hd'].
      * intros j [Hne Hj]%not_elem_of_cons. by rewrite Ho, H3.
      * rewrite Hlog. simpl. by rewrite <- app_assoc.
    + erewrite bind_ret_run by done. cbn [Nat.pred].
      set (s4 := with_events (take (length l1) (m_events s3) ++ drop (S (length l1)) (m_events s3)) s3).
      destruct (IH fuel l1 s4) as (s' & kept & E & Ev & Hsub & Hk & Hka & Hd' & Ho & Hlog & Hm);
        [|done|done|simpl in Hf; lia|].
      { simpl. rewrite El, take_app_length. f_equal.
        by rewrite (cons_middle _ l1), app_assoc, drop_app_length' by (rewrite length_app; simpl; lia). }
      exists s', kept. split_and!; [done|done|by apply sublist_cons|done|done| | | |done].
      * intros j [->|Hj]%elem_of_cons Hnk; [by rewrite Ho|by apply Hd'].
      * intros j [Hne Hj]%not_elem_of_cons. by rewrite Ho, <- H3.
      * rewrite Hlog. simpl. by rewrite <- app_assoc.
  - apply orb_false_iff in Edel as [-> _].
    destruct (IH fuel (l1 ++ [(t, id)]) s2) as (s' & kept & E & Ev & Hsub & Hk & Hka & Hd' & Ho & Hlog & Hm).
    { by rewrite <- app_assoc. } { done. }
    { intros j Hj. change (heap s2) with (heap s1). rewrite Hother by (intros ->; done).
      apply Hl. by right. }
    { simpl in Hf. lia. }
    rewrite length_app, Nat.add_1_r in E. exists s', ((t, id) :: kept).
    split_and!; [done|by rewrite Ev, <- app_assoc|by apply sublist_skip|done| | | | |done].
    + intros j [->|Hj]%elem_of_cons; [|by apply Hka]. exists e1. split; [by rewrite Ho|done].
    + intros j [->|Hj]%elem_of_cons [Hne Hnk]%not_elem_of_cons; [done|by apply Hd'].
    + intros j [Hne Hj]%not_elem_of_cons. rewrite Ho by done. by apply Hother.
    + rewrite Hlog. simpl. by rewrite <- app_assoc.
Qed.

End Kill.

(** ** Properties *)

(** C22. [Update] executes exactly the due events. For events that plan only for later
    and re-add themselves exactly when not to be deleted, [Update] terminates (one
    turn per due event), accesses no deleted event, calls the virtual method of every
    event due at the new time once, in time order with insertion order among equal
    times, with [Abort] in place of [Execute] for aborted ones; no due event is left,
    no later one is touched, and the queue still owns all live events. *)
Theorem update_runs_due_events {K W}
    (Execute : K → Z → Z → Z → W → bool * list (action K) * W)
    (Abort_ : K → Z → Z → W → list (action K) * W)
    (s : Processor K W) (p_time : Z) (fuel : nat) :
  Disciplined Execute Abort_ → owns [] s →
  (length (m_events s) < fuel)%nat →
  let now := uwrap 64 (m_time s + p_time) in
  ∃ s', Update Execute Abort_ fuel p_time s = (Ret true, s') ∧ owns [] s' ∧ m_time s' = now ∧
    log s' = log s ++ (visit now s <$> due now (m_events s)) ∧
    StronglySorted key_le (due now (m_events s)) ∧
    (∀ x, x ∈ m_events s' → now < x.1) ∧
    (∀ x, x ∈ m_events s → now < x.1 → x ∈ m_events s').
Proof.
  intros Hd Hw Hf now.
  destruct (update_loop_run Execute Abort_ fuel p_time (with_time now s))
    as (s' & E & Hw' & T & L & A & B); [exact Hw| |].
  { simpl. eapply Nat.le_lt_trans; [apply length_filter|exact Hf]. }
  exists s'. split_and!; [|exact Hw'|exact T|exact L| |exact A|exact B].
  - unfold Update. by erewrite bind_ret_run by done.
  - apply due_sorted, Hw.
Qed.

(** A periodic event: it counts its runs and plans itself [k + 1] later; class 0 runs once. *)
Definition demo_execute (k id now p : Z) (w : Z) : bool * list (action Z) * Z :=
  if k =? 0 then (true, [], w + 1) else (false, [Again (now + Z.max 1 k) true], w + 1).

Definition demo_abort (k id now : Z) (w : Z) : list (action Z) * Z := ([], w).

#[export] Instance demo_disciplined : Disciplined demo_execute demo_abort.
Proof.
  split; intros k id now p; unfold demo_execute, demo_abort; intros; simpl; try done;
    destruct (k =? 0); simpl; try done. constructor; [simpl; lia|done].
Qed.

Definition demo_processor : Processor Z Z :=
  mkProcessor 100 [(105, 1); (110, 2); (110, 3); (200, 4)] false
    {[1 := mkEvent 0 false 90 105; 2 := mkEvent 5 false 90 110;
      3 := mkEvent 0 true 90 110; 4 := mkEvent 0 false 90 200]} 0 [].

Lemma demo_owns : owns [] demo_processor.
Proof.
  split_and!; [repeat constructor; unfold key_le; simpl; lia|by_decide| |].
  - intros id. unfold ids. simpl. rewrite !lookup_insert_is_Some', lookup_singleton_is_Some.
    rewrite !elem_of_cons, !elem_of_nil.
    assert (∀ a : Z, a = id ↔ id = a) as E by (split; congruence). rewrite !E. tauto.
  - by intros id ?%not_elem_of_nil.
Qed.

Lemma update_runs_due_events_witness :
  ∃ s', Update demo_execute demo_abort 5 20 demo_processor = (Ret true, s') ∧
        log s' = [Executed 1 120; Executed 2 120; Aborted 3 120].
Proof.
  destruct (update_runs_due_events demo_execute demo_abort demo_processor 20 5)
    as (s' & E & _ & _ & L & _).
  - apply demo_disciplined.
  - apply demo_owns.
  - simpl. lia.
  - exists s'. split; [exact E|]. rewrite L. vm_compute. reflexivity.
Defined.

(** The discipline is needed for termination: an event whose [Execute] adds it
    again at the current time keeps [Update] busy forever, whatever the fuel. *)
Theorem update_at_current_time_diverges {K W}
    (Execute : K → Z → Z → Z → W → bool * list (action K) * W)
    (Abort_ : K → Z → Z → W → list (action K) * W)
    (s : Processor K W) (p_time id : Z) (k : K) (fuel : nat) :
  (∀ now w, ∃ w', Execute k id now p_time w = (false, [Again now true], w')) →
  (∃ t added planned, m_events s = [(t, id)] ∧ t <= m_time s ∧
     heap s !! id = Some (mkEvent k false added planned)) →
  ∃ s', update_loop Execute Abort_ fuel p_time s = (Ret false, s') ∧
        length (log s') = (length (log s) + fuel)%nat.
Proof.
  intros Hex. revert s. induction fuel as [|fuel IH]; intros s (t & a & b & El & Ht & He);
    cbn [update_loop].
  { exists s. split; [done|lia]. }
  destruct (Hex (m_time s) (world s)) as [w Ew].
  set (s1 := with_world w (noting (Executed id (m_time s)) (with_events [] s))).
  set (s2 := added id (m_time s) true (mkEvent k false a b) s1).
  assert (call_Execute Execute id p_time (with_events [] s) = (Ret false, s2)) as Ecall.
  { unfold call_Execute. erewrite bind_ret_run by by apply deref_run.
    erewrite bind_ret_run by done. erewrite bind_ret_run by done. cbn [kind with_events m_time world].
    rewrite Ew. erewrite bind_ret_run by done. cbn [perform_all perform].
    erewrite bind_ret_run; [done|]. erewrite bind_ret_run; [done|].
    erewrite bind_ret_run; [done|]. by apply AddEvent_run. }
  assert (update_turn Execute Abort_ p_time s = (Ret true, s2)) as E.
  { unfold update_turn. erewrite bind_ret_run by done. erewrite bind_ret_run by done.
    rewrite El. decide_cmp. erewrite bind_ret_run by done.
    erewrite bind_ret_run by by apply deref_run. cbn [negb to_Abort].
    erewrite bind_ret_run; [done|]. by erewrite bind_ret_run by exact Ecall. }
  erewrite bind_ret_run by exact E.
  destruct (IH s2) as (s' & E' & L).
  { exists (m_time s), (m_time s), (m_time s). split_and!; [done|done|apply lookup_insert_eq]. }
  exists s'. split; [exact E'|]. rewrite L. simpl. rewrite length_app. simpl. lia.
Qed.

Lemma update_at_current_time_diverges_witness :
  ∃ s', update_loop (λ k id now p w, (false, [Again now true], w)) demo_abort 1000 1
          (mkProcessor 100 [(100, 1)] false {[1 := mkEvent 7 false 90 100]} 0 []) = (Ret false, s') ∧
        length (log s') = 1000%nat.
Proof.
  apply (update_at_current_time_diverges (λ k id now p w, (false, [Again now true], w)) demo_abort
    (mkProcessor 100 [(100, 1)] false {[1 := mkEvent 7 false 90 100]} 0 []) 1 1 7 1000).
  - intros now w. by exists w.
  - exists 100, 90, 100. done.
Defined.

(** [KillAllEvents] aborts every queued event once, in order, when the [Abort]
    methods leave the queue alone. Forced, it empties the queue and deletes them all;
    otherwise the events it keeps are a part of the queue and marked as aborted, and
    it deletes all others: nothing leaks, nothing queued dangles. *)
Theorem kill_all_events {K W} (Abort_ : K → Z → Z → W → list (action K) * W)
    (IsDeletable : K → Z → W → bool) (s : Processor K W) (force : bool) (fuel : nat) :
  (∀ k id now w, (Abort_ k id now w).1 = []) → owns [] s → (length (m_events s) < fuel)%nat →
  ∃ s', KillAllEvents Abort_ IsDeletable fuel force s = (Ret true, s') ∧
    m_aborting s' = true ∧
    log s' = log s ++ ((λ x : Z * Z, Aborted x.2 (m_time s)) <$> m_events s) ∧
    sublist (m_events s') (m_events s) ∧ (force = true → m_events s' = []) ∧
    (∀ id, is_Some (heap s' !! id) ↔ id ∈ ids s') ∧
    (∀ id e, heap s' !! id = Some e → to_Abort e = true).
Proof.
  intros Hinert (Hs & Hn & Hl & _) Hf.
  destruct (kill_loop_run Abort_ IsDeletable fuel force [] (m_events s) (with_aborting true s))
    as (s1 & kept & E & Ev & Hsub & Hk & Hka & Hd & Ho & Hlog & Hm); [done|done|exact Hn| |done|].
  { intros id Hid. apply Hl. by left. }
  exists (if force then with_events [] s1 else s1). split.
  { unfold KillAllEvents. erewrite bind_ret_run by done. erewrite bind_ret_run by exact E.
    by destruct force. }
  assert (m_events (if force then with_events [] s1 else s1) = kept) as Eev.
  { destruct force; [by rewrite Hk|by rewrite Ev]. }
  assert (heap (if force then with_events [] s1 else s1) = heap s1) as Eh by by destruct force.
  assert (∀ id, is_Some (heap s1 !! id) ↔ id ∈ kept.*2) as Hlive.
  { intros id. split.
    - intros Hsome. destruct (decide (id ∈ kept.*2)) as [|Hnk]; [done|].
      destruct (decide (id ∈ (m_events s).*2)) as [Hin|Hni].
      + rewrite (Hd id Hin Hnk) in Hsome. by destruct Hsome.
      + rewrite (Ho id Hni) in Hsome. apply Hl in Hsome as [?|?%not_elem_of_nil]; done.
    - intros Hin. destruct (Hka id Hin) as (e & He & _). by exists e. }
  unfold ids. rewrite Eev, Eh. split_and!; [by destruct force|by destruct force|done|done|done|].
  intros id e He. destruct (Hka id) as (e' & He' & Ha); [apply Hlive; by exists e|congruence].
Qed.

Lemma kill_all_events_witness :
  ∃ s', KillAllEvents demo_abort (λ k id w, k =? 0) 5 false demo_processor = (Ret true, s') ∧
        sublist (m_events s') (m_events demo_processor) ∧
        log s' = [Aborted 1 100; Aborted 2 100; Aborted 3 100; Aborted 4 100].
Proof.
  destruct (kill_all_events demo_abort (λ k id w, k =? 0) demo_processor false 5)
    as (s' & E & _ & L & S & _).
  - done.
  - apply demo_owns.
  - simpl. lia.
  - exists s'. split; [exact E|]. split; [exact S|]. rewrite L. reflexivity.
Defined.

(** The mark [m_aborting] prevents no insertion: an event added while the processor
    is aborting is queued like any other. *)
Theorem aborting_does_not_stop_AddEvent {K W} (s : Processor K W) (id t : Z) (b : bool) :
  m_aborting s = true → is_Some (heap s !! id) →
  ∃ pos s', AddEvent id t b s = (Ret pos, s') ∧ m_aborting s' = true ∧ (t, id) ∈ m_events s'.
Proof.
  intros Ha [e He]. eexists _, _. split; [by apply AddEvent_run|]. split; [done|].
  simpl. rewrite insert_event_perm. by left.
Qed.

Lemma aborting_does_not_stop_AddEvent_witness :
  ∃ pos s', AddEvent 9 150 true (mkProcessor 100 [] true {[9 := mkEvent 0 false 0 0]} 0 []) = (Ret pos, s') ∧
    m_aborting s' = true ∧ (150, 9) ∈ m_events s'.
Proof.
  apply (aborting_does_not_stop_AddEvent
    (mkProcessor 100 [] true {[9 := mkEvent 0 false 0 0]} 0 []) 9 150 true).
  - reflexivity.
  - by eexists.
Defined.
