(* ===== verification/Reputation.v ===== *)
(** * Reputation: src/src/server/game/Reputation/ReputationMgr.h, .cpp

    A player's standing with the factions of Faction.dbc: points, ranks, the flags the
    client shows, the counters of factions by rank, and what is sent and saved. *)

From Stdlib Require Import ZArith Lia.
From S2P Require Import Prelude ByteBuffer Float32.
Local Open Scope Z_scope.

Definition REP_HATED : Z := 0.
Definition REP_HOSTILE : Z := 1.
Definition REP_NEUTRAL : Z := 3.
Definition REP_HONORED : Z := 5.
Definition REP_REVERED : Z := 6.
Definition REP_EXALTED : Z := 7.

Definition FACTION_FLAG_VISIBLE : Z := 0x01.
Definition FACTION_FLAG_AT_WAR : Z := 0x02.
Definition FACTION_FLAG_HIDDEN : Z := 0x04.
Definition FACTION_FLAG_INVISIBLE_FORCED : Z := 0x08.
Definition FACTION_FLAG_PEACE_FORCED : Z := 0x10.
Definition FACTION_FLAG_INACTIVE : Z := 0x20.
Definition FACTION_FLAG_SPECIAL : Z := 0x80.

(** A row of Faction.dbc. The store puts the row with [ID] at index [ID], so rows with
    the same [ID] are the same object. Rates are [float]s. *)
Record FactionEntry := mkFactionEntry {
  ID : Z;
  reputationListID : Z;
  BaseRepRaceMask : list Z;
  BaseRepClassMask : list Z;
  BaseRepValue : list Z;
  ReputationFlags : list Z;
  team : Z;
  spilloverRateIn : float;
  spilloverRateOut : float;
  spilloverMaxRankIn : Z
}.

Definition CanHaveReputation (e : FactionEntry) : bool := 0 <=? reputationListID e.

(** The key an [int32] id becomes as a [RepListID]. *)
Definition rep_key (e : FactionEntry) : Z := uwrap 32 (reputationListID e).

Record RepSpilloverTemplate := mkSpillover {
  faction : list Z;
  faction_rate : list float;
  faction_rank : list Z
}.

Record FactionState := mkFactionState {
  fs_ID : Z;
  ReputationListID : Z;
  Flags : Z;
  Standing : Z;
  needSend : bool;
  needSave : bool
}.

Inductive rep_opcode :=
| SMSG_SET_FORCED_REACTIONS | SMSG_SET_FACTION_STANDING
| SMSG_INITIALIZE_FACTIONS | SMSG_SET_FACTION_VISIBLE.

Inductive criteria := KNOWN_FACTIONS | GAIN_REPUTATION | GAIN_EXALTED_REPUTATION
| GAIN_REVERED_REPUTATION | GAIN_HONORED_REPUTATION.

(** What the manager does to others: packets to the player, notices to the quest and
    achievement code, statements of the character database. *)
Inductive effect :=
| SendDirectMessage (op : rep_opcode) (data : ByteBuffer)
| ReputationChanged (faction : Z)
| UpdateAchievementCriteria (type : criteria) (faction : Z)
| DeleteReputation (guid faction : Z)
| InsertReputation (guid faction standing flags : Z).

Record ReputationMgr := mkMgr {
  m_factions : gmap Z FactionState;
  m_forcedReactions : gmap Z Z;
  m_visibleFactionCount : Z;
  m_honoredFactionCount : Z;
  m_reveredFactionCount : Z;
  m_exaltedFactionCount : Z;
  effects : list effect
}.

Abbreviation rep := (prog ReputationMgr fault).

Definition with_factions (f : gmap Z FactionState) (m : ReputationMgr) : ReputationMgr :=
  mkMgr f (m_forcedReactions m) (m_visibleFactionCount m) (m_honoredFactionCount m)
    (m_reveredFactionCount m) (m_exaltedFactionCount m) (effects m).
Definition with_forced (f : gmap Z Z) (m : ReputationMgr) : ReputationMgr :=
  mkMgr (m_factions m) f (m_visibleFactionCount m) (m_honoredFactionCount m)
    (m_reveredFactionCount m) (m_exaltedFactionCount m) (effects m).
Definition with_counts (v h r e : Z) (m : ReputationMgr) : ReputationMgr :=
  mkMgr (m_factions m) (m_forcedReactions m) v h r e (effects m).
Definition with_effect (x : effect) (m : ReputationMgr) : ReputationMgr :=
  mkMgr (m_factions m) (m_forcedReactions m) (m_visibleFactionCount m) (m_honoredFactionCount m)
    (m_reveredFactionCount m) (m_exaltedFactionCount m) (effects m ++ [x]).

Definition new_mgr : ReputationMgr := mkMgr ∅ ∅ 0 0 0 0 [].

Definition emit (x : effect) : rep unit := modify (with_effect x).

(** The bytes a sequence of stream operators writes to a fresh packet. *)
Definition packet (p : bb unit) : ByteBuffer := (p empty_buffer).2.

(** ** Ranks *)

Definition PointsInRank : list Z := [36000; 3000; 3000; 3000; 6000; 12000; 21000; 1000].

Definition Reputation_Cap : Z := 42999.
Definition Reputation_Bottom : Z := -42000.

(** The loop of [ReputationToRank]: [i] counts down with the points of the ranks left. *)
Fixpoint rank_loop (standing limit : Z) (i : nat) : Z :=
  match i with
  | O => REP_HATED
  | S i =>
    let limit := limit - default 0 (PointsInRank !! i) in
    if limit <=? standing then Z.of_nat i else rank_loop standing limit i
  end.

Definition ReputationToRank (standing : Z) : Z :=
  rank_loop standing (Reputation_Cap + 1) (length PointsInRank).

Section Reputation.

(** The DBC stores, the spillover table of the world database, the player, the
    configuration and the script hook, which may replace the standing. *)
Context (sFactionStore : list (option FactionEntry)).
Context (FactionTeamList : Z → option (list Z)).
Context (GetRepSpilloverTemplate : Z → option RepSpilloverTemplate).
Context (raceMask classMask guidLow : Z) (playerLoading : bool).
Context (rate_reputation_gain : float).
Context (OnPlayerReputationChange : Z → Z → bool → Z).

Definition LookupEntry (id : Z) : option FactionEntry :=
  if id <? 0 then None else default None (sFactionStore !! Z.to_nat id).

(** ** Base values *)

(** The first of the four base columns that matches race and class. *)
Fixpoint base_column (i : nat) (races classes : list Z) : option nat :=
  match races, classes with
  | r :: races, c :: classes =>
    if (has_bits r raceMask || ((r =? 0) && negb (c =? 0))) && (has_bits c classMask || (c =? 0))
    then Some i
    else base_column (S i) races classes
  | _, _ => None
  end.

Definition GetBaseReputation (factionEntry : option FactionEntry) : Z :=
  match factionEntry with
  | None => 0
  | Some e =>
    match base_column 0 (BaseRepRaceMask e) (BaseRepClassMask e) with
    | Some i => default 0 (BaseRepValue e !! i)
    | None => 0
    end
  end.

Definition GetDefaultStateFlags (factionEntry : option FactionEntry) : Z :=
  match factionEntry with
  | None => 0
  | Some e =>
    match base_column 0 (BaseRepRaceMask e) (BaseRepClassMask e) with
    | Some i => default 0 (ReputationFlags e !! i)
    | None => 0
    end
  end.

(** ** Queries *)

Definition GetState (e : FactionEntry) (m : ReputationMgr) : option FactionState :=
  if CanHaveReputation e then m_factions m !! rep_key e else None.

Definition IsAtWar (factionEntry : option FactionEntry) (m : ReputationMgr) : bool :=
  match factionEntry with
  | None => false
  | Some e =>
    match GetState e m with
    | Some st => has_bits (Flags st) FACTION_FLAG_AT_WAR
    | None => false
    end
  end.

Definition IsAtWar_id (faction_id : Z) (m : ReputationMgr) : bool :=
  match LookupEntry faction_id with None => false | Some e => IsAtWar (Some e) m end.

Definition GetReputation (factionEntry : option FactionEntry) : rep Z :=
  match factionEntry with
  | None => mret 0
  | Some e =>
    st ← gets (GetState e);
    match st with
    | Some st => int32 (GetBaseReputation (Some e) + Standing st)
    | None => mret 0
    end
  end.

Definition GetReputation_id (faction_id : Z) : rep Z :=
  match LookupEntry faction_id with None => mret 0 | Some e => GetReputation (Some e) end.

Definition GetRank (factionEntry : option FactionEntry) : rep Z :=
  r ← GetReputation factionEntry; mret (ReputationToRank r).

Definition GetBaseRank (factionEntry : option FactionEntry) : Z :=
  ReputationToRank (GetBaseReputation factionEntry).

(** ** Forced reactions *)

Definition ApplyForceReaction (faction_id rank : Z) (apply : bool) : rep unit :=
  modify (λ m, with_forced
    (if apply then <[faction_id := rank]> (m_forcedReactions m)
     else delete faction_id (m_forcedReactions m)) m).

Definition GetForcedRankIfAny (faction : Z) (m : ReputationMgr) : option Z :=
  m_forcedReactions m !! faction.

Fixpoint put_pairs (l : list (Z * Z)) : bb unit :=
  match l with
  | [] => mret tt
  | (a, b) :: l => put_u32 a;; put_u32 b;; put_pairs l
  end.

Definition SendForceReactions : rep unit :=
  f ← gets m_forcedReactions;
  emit (SendDirectMessage SMSG_SET_FORCED_REACTIONS
    (packet (put_u32 (uwrap 32 (Z.of_nat (base.size f)));; put_pairs (sorted_elems f)))).

(** ** Packets *)

Definition with_needSend (b : bool) (st : FactionState) : FactionState :=
  mkFactionState (fs_ID st) (ReputationListID st) (Flags st) (Standing st) b (needSave st).
Definition with_needSave (b : bool) (st : FactionState) : FactionState :=
  mkFactionState (fs_ID st) (ReputationListID st) (Flags st) (Standing st) (needSend st) b.
Definition with_Flags (f : Z) (st : FactionState) : FactionState :=
  mkFactionState (fs_ID st) (ReputationListID st) f (Standing st) (needSend st) (needSave st).
Definition with_Standing (z : Z) (st : FactionState) : FactionState :=
  mkFactionState (fs_ID st) (ReputationListID st) (Flags st) z (needSend st) (needSave st).

(** [&m_factions.find(k)->second]: an access to a missing element is undefined. *)
Definition state_at (k : Z) : rep FactionState :=
  st ← gets (λ m, m_factions m !! k); of_option st.

Definition update_state (k : Z) (g : FactionState → FactionState) : rep unit :=
  modify (λ m, with_factions (alter g k (m_factions m)) m).

(** The states [SendState(faction)] reports besides [faction]: those waiting to be sent. *)
Definition also_sent (listID : Z) (l : list (Z * FactionState)) : list (Z * Z) :=
  l ≫= λ '(_, st),
    if needSend st && negb (ReputationListID st =? listID)
    then [(ReputationListID st, uwrap 32 (Standing st))] else [].

(** [SendState(&m_factions[k])]. The count is written last, over its placeholder. *)
Definition SendState (k : Z) : rep unit :=
  st ← state_at k;
  f ← gets m_factions;
  let others := also_sent (ReputationListID st) (sorted_elems f) in
  modify (λ m, with_factions (with_needSend false <$> m_factions m) m);;
  let data := packet (
    put_float 0;; put_u8 0;;
    p_count ← gets _wpos;
    put_u32 1;;
    put_u32 (ReputationListID st);; put_u32 (uwrap 32 (Standing st));;
    put_pairs others;;
    put 4 p_count (1 + Z.of_nat (length others))) in
  emit (SendDirectMessage SMSG_SET_FACTION_STANDING data).

Definition put_absent : bb unit := put_u8 0;; put_u32 0.

Fixpoint put_times (n : nat) (p : bb unit) : bb unit :=
  match n with O => mret tt | S n => p;; put_times n p end.

(** The list of [SendInitialReputations] from index [a], a [uint32] that only equality
    stops. *)
Fixpoint initial_loop (a : Z) (l : list (Z * FactionState)) : bb unit :=
  match l with
  | [] => put_times (Z.to_nat (uwrap 32 (128 - a))) put_absent
  | (first, st) :: l =>
    put_times (Z.to_nat (uwrap 32 (first - a))) put_absent;;
    put_u8 (Flags st);; put_u32 (uwrap 32 (Standing st));;
    initial_loop (uwrap 32 (first + 1)) l
  end.

Definition SendInitialReputations : rep unit :=
  f ← gets m_factions;
  modify (λ m, with_factions (with_needSend false <$> m_factions m) m);;
  emit (SendDirectMessage SMSG_INITIALIZE_FACTIONS
    (packet (put_u32 0x80;; initial_loop 0 (sorted_elems f)))).

Fixpoint for_each {A} (l : list A) (body : A → rep unit) : rep unit :=
  match l with
  | [] => mret tt
  | x :: l => body x;; for_each l body
  end.

Definition SendStates : rep unit :=
  f ← gets m_factions; for_each (sorted_elems f).*1 SendState.

Definition SendVisible (st : FactionState) : rep unit :=
  if playerLoading then mret tt
  else emit (SendDirectMessage SMSG_SET_FACTION_VISIBLE (packet (put_u32 (ReputationListID st)))).

(** ** Flags of a state *)

(** [SetVisible(&m_factions[k])]. *)
Definition SetVisible_state (k : Z) : rep unit :=
  st ← state_at k;
  if has_bits (Flags st) (Z.lor FACTION_FLAG_INVISIBLE_FORCED FACTION_FLAG_HIDDEN)
     && negb (has_bits (Flags st) FACTION_FLAG_SPECIAL)
  then mret tt
  else if has_bits (Flags st) FACTION_FLAG_VISIBLE then mret tt
  else
    let st' := with_needSave true (with_needSend true
                 (with_Flags (Z.lor (Flags st) FACTION_FLAG_VISIBLE) st)) in
    update_state k (λ _, st');;
    modify (λ m, with_counts (uwrap 8 (m_visibleFactionCount m + 1)) (m_honoredFactionCount m)
                   (m_reveredFactionCount m) (m_exaltedFactionCount m) m);;
    SendVisible st'.

Definition SetAtWar_state (k : Z) (atWar : bool) : rep unit :=
  st ← state_at k;
  if atWar && has_bits (Flags st) FACTION_FLAG_PEACE_FORCED then mret tt
  else if Bool.eqb (has_bits (Flags st) FACTION_FLAG_AT_WAR) atWar then mret tt
  else
    let f := if atWar then Z.lor (Flags st) FACTION_FLAG_AT_WAR
             else Z.land (Flags st) (Z.lnot FACTION_FLAG_AT_WAR) in
    update_state k (λ _, with_needSave true (with_needSend true (with_Flags f st))).

Definition SetInactive_state (k : Z) (inactive : bool) : rep unit :=
  st ← state_at k;
  if inactive && (has_bits (Flags st) (Z.lor FACTION_FLAG_INVISIBLE_FORCED FACTION_FLAG_HIDDEN)
                  || negb (has_bits (Flags st) FACTION_FLAG_VISIBLE))
  then mret tt
  else if Bool.eqb (has_bits (Flags st) FACTION_FLAG_INACTIVE) inactive then mret tt
  else
    let f := if inactive then Z.lor (Flags st) FACTION_FLAG_INACTIVE
             else Z.land (Flags st) (Z.lnot FACTION_FLAG_INACTIVE) in
    update_state k (λ _, with_needSave true (with_needSend true (with_Flags f st))).

Definition SetVisible (e : FactionEntry) : rep unit :=
  if reputationListID e <? 0 then mret tt
  else
    st ← gets (λ m, m_factions m !! rep_key e);
    match st with None => mret tt | Some _ => SetVisible_state (rep_key e) end.

(** [SetVisible] of a faction template, given by its [faction] column. *)
Definition SetVisible_template (faction : Z) : rep unit :=
  if faction =? 0 then mret tt
  else
    match LookupEntry faction with
    | None => mret tt
    | Some e =>
      if has_bits (default 0 (BaseRepRaceMask e !! 1%nat)) raceMask
         && (default 0 (BaseRepValue e !! 1%nat) =? Reputation_Bottom)
      then mret tt
      else SetVisible e
    end.

Definition SetAtWar (repListID : Z) (on : bool) : rep unit :=
  st ← gets (λ m, m_factions m !! repListID);
  match st with
  | None => mret tt
  | Some st =>
    if has_bits (Flags st) (Z.lor FACTION_FLAG_INVISIBLE_FORCED FACTION_FLAG_HIDDEN) then mret tt
    else SetAtWar_state repListID on
  end.

Definition SetInactive (repListID : Z) (on : bool) : rep unit :=
  st ← gets (λ m, m_factions m !! repListID);
  match st with None => mret tt | Some _ => SetInactive_state repListID on end.

(** ** Counters *)

Definition counted (old_rank new_rank rank n : Z) : Z :=
  let n := if rank <=? old_rank then uwrap 8 (n - 1) else n in
  if rank <=? new_rank then uwrap 8 (n + 1) else n.

Definition UpdateRankCounters (old_rank new_rank : Z) : rep unit :=
  modify (λ m, with_counts (m_visibleFactionCount m)
    (counted old_rank new_rank REP_HONORED (m_honoredFactionCount m))
    (counted old_rank new_rank REP_REVERED (m_reveredFactionCount m))
    (counted old_rank new_rank REP_EXALTED (m_exaltedFactionCount m)) m).

(** ** Initial state *)

Definition new_state (e : FactionEntry) : FactionState :=
  mkFactionState (ID e) (rep_key e) (uwrap 8 (GetDefaultStateFlags (Some e))) 0 true true.

Definition init_row (row : option FactionEntry) : rep unit :=
  match row with
  | Some e =>
    if 0 <=? reputationListID e then
      let st := new_state e in
      (if has_bits (Flags st) FACTION_FLAG_VISIBLE
       then modify (λ m, with_counts (uwrap 8 (m_visibleFactionCount m + 1))
              (m_honoredFactionCount m) (m_reveredFactionCount m) (m_exaltedFactionCount m) m)
       else mret tt);;
      UpdateRankCounters REP_HOSTILE (GetBaseRank (Some e));;
      modify (λ m, with_factions (<[rep_key e := st]> (m_factions m)) m)
    else mret tt
  | None => mret tt
  end.

Definition Initialize : rep unit :=
  modify (λ m, with_counts 0 0 0 0 (with_factions ∅ m));;
  for_each (drop 1 sFactionStore) init_row.

(** ** Standing *)

Definition notify_changed (id : Z) : rep unit :=
  emit (ReputationChanged id);;
  for_each [KNOWN_FACTIONS; GAIN_REPUTATION; GAIN_EXALTED_REPUTATION;
            GAIN_REVERED_REPUTATION; GAIN_HONORED_REPUTATION]
    (λ t, emit (UpdateAchievementCriteria t id)).

Definition SetOneFactionReputation (e : FactionEntry) (standing : Z) (incremental : bool) : rep bool :=
  st ← gets (λ m, m_factions m !! rep_key e);
  match st with
  | None => mret false
  | Some st =>
    let BaseRep := GetBaseReputation (Some e) in
    standing ←
      (if incremental then
         gained ← of_option (fits (- 2 ^ 31) (2 ^ 31)
           (f_floor (f_add (f_mul (f_of_Z standing) rate_reputation_gain) (f_lit 1 2))));
         current ← int32 (Standing st + BaseRep);
         int32 (gained + current)
       else mret standing);
    let standing :=
      if Reputation_Cap <? standing then Reputation_Cap
      else if standing <? Reputation_Bottom then Reputation_Bottom else standing in
    old ← int32 (Standing st + BaseRep);
    let old_rank := ReputationToRank old in
    let new_rank := ReputationToRank standing in
    new ← int32 (standing - BaseRep);
    update_state (rep_key e) (λ st, with_needSave true (with_needSend true (with_Standing new st)));;
    SetVisible_state (rep_key e);;
    (if new_rank <=? REP_HOSTILE then SetAtWar_state (rep_key e) true else mret tt);;
    UpdateRankCounters old_rank new_rank;;
    notify_changed (ID e);;
    mret true
  end.

(** [int32(x)] of a [float]. *)
Definition int32_of_float (x : float) : rep Z := of_option (f_to_i32 x).

(** Spillover by the world database's template. *)
Fixpoint template_spillover (factions : list Z) (rates : list float) (ranks : list Z)
    (standing : Z) (incremental : bool) : rep unit :=
  match factions, rates, ranks with
  | f :: factions, rate :: rates, rank :: ranks =>
    (if negb (f =? 0) then
       r ← GetRank (LookupEntry f);
       if r <=? rank then
         spilloverRep ← int32_of_float (f_mul (f_of_Z standing) rate);
         e ← of_option (LookupEntry f);
         SetOneFactionReputation e spilloverRep incremental;;
         mret tt
       else mret tt
     else mret tt);;
    template_spillover factions rates ranks standing incremental
  | _, _, _ => mret tt
  end.

(** Spillover to the factions [flist] of a team. *)
Fixpoint team_spillover (flist : list Z) (e : FactionEntry) (out : float)
    (incremental res : bool) : rep bool :=
  match flist with
  | [] => mret res
  | f :: flist =>
    res ← match LookupEntry f with
          | None => mret res
          | Some calc =>
            if ID calc =? ID e then mret res
            else
              r ← GetRank (Some calc);
              if spilloverMaxRankIn calc <? r then mret res
              else
                spilloverRep ← int32_of_float (f_mul out (spilloverRateIn calc));
                if negb (spilloverRep =? 0) || negb incremental
                then SetOneFactionReputation calc spilloverRep incremental
                else mret res
          end;
    team_spillover flist e out incremental res
  end.

Definition SetReputation (e : FactionEntry) (standing : Z) (incremental : bool) : rep bool :=
  let standing := OnPlayerReputationChange (ID e) standing incremental in
  res ←
    match GetRepSpilloverTemplate (ID e) with
    | Some t =>
      template_spillover (faction t) (faction_rate t) (faction_rank t) standing incremental;;
      mret false
    | None =>
      let out := f_of_Z standing in
      let flist := FactionTeamList (ID e) in
      '(out, flist) ←
        match flist with
        | Some l => mret (out, Some l)
        | None =>
          if negb (team e =? 0) && negb (f_eqb (spilloverRateOut e) (f_of_Z 0)) then
            let out := f_mul out (spilloverRateOut e) in
            match LookupEntry (team e) with
            | None => mret (out, None)
            | Some parent =>
              st ← gets (λ m, m_factions m !! rep_key parent);
              match st with
              | Some st =>
                if has_bits (Flags st) FACTION_FLAG_SPECIAL then
                  amount ← int32_of_float out;
                  SetOneFactionReputation parent amount incremental;;
                  mret (out, None)
                else mret (out, FactionTeamList (team e))
              | None => mret (out, FactionTeamList (team e))
              end
            end
          else mret (out, None)
        end;
      match flist with
      | Some l => team_spillover l e out incremental false
      | None => mret false
      end
    end;
  st ← gets (λ m, m_factions m !! rep_key e);
  match st with
  | None => mret res
  | Some _ =>
    res ← SetOneFactionReputation e standing incremental;
    SendState (rep_key e);;
    mret res
  end.

(** ** Database *)

(** A row [faction, standing, flags] of the query result. *)
Definition load_row (row : Z * Z * Z) : rep unit :=
  let '(f, standing, dbFactionFlags) := row in
  match LookupEntry f with
  | None => mret tt
  | Some e =>
    if 0 <=? reputationListID e then
      let k := rep_key e in
      modify (λ m, with_factions
        (<[k := with_Standing (swrap 32 standing)
                  (default (mkFactionState 0 0 0 0 false false) (m_factions m !! k))]> (m_factions m)) m);;
      let BaseRep := GetBaseReputation (Some e) in
      let old_rank := ReputationToRank BaseRep in
      new ← int32 (BaseRep + swrap 32 standing);
      UpdateRankCounters old_rank (ReputationToRank new);;
      (if has_bits dbFactionFlags FACTION_FLAG_VISIBLE then SetVisible_state k else mret tt);;
      (if has_bits dbFactionFlags FACTION_FLAG_INACTIVE then SetInactive_state k true else mret tt);;
      (if has_bits dbFactionFlags FACTION_FLAG_AT_WAR then SetAtWar_state k true
       else
         st ← state_at k;
         if has_bits (Flags st) FACTION_FLAG_VISIBLE then SetAtWar_state k false else mret tt);;
      r ← GetRank (Some e);
      (if r <=? REP_HOSTILE then SetAtWar_state k true else mret tt);;
      st ← state_at k;
      if Flags st =? dbFactionFlags
      then update_state k (λ st, with_needSave false (with_needSend false st))
      else mret tt
    else mret tt
  end.

(** [None] for a query without result. *)
Definition LoadFromDB (result : option (list (Z * Z * Z))) : rep unit :=
  Initialize;;
  match result with
  | None => mret tt
  | Some rows => for_each rows load_row
  end.

Definition save_state (k : Z) : rep unit :=
  st ← state_at k;
  if needSave st then
    emit (DeleteReputation guidLow (fs_ID st));;
    emit (InsertReputation guidLow (fs_ID st) (Standing st) (Flags st));;
    update_state k (with_needSave false)
  else mret tt.

Definition SaveToDB : rep unit :=
  f ← gets m_factions; for_each (sorted_elems f).*1 save_state.

End Reputation.
