(* ===== verification/ReputationFacts.v ===== *)
(** * ReputationFacts: correctness of the reputation manager

    [consistent]: the counters of factions by rank and of visible factions agree, in
    eight bits, with the states of the factions the store lists, and every standing
    is within the cap. Each operation is shown to keep it. *)

From Stdlib Require Import ZArith Lia.
From S2P Require Import Prelude ByteBuffer ByteBufferFacts Float32 Reputation.
Local Open Scope Z_scope.

(** ** Counting *)

Fixpoint zcount {A} (f : A → bool) (l : list A) : Z :=
  match l with [] => 0 | x :: l => Z.b2z (f x) + zcount f l end.

Lemma zcount_ext {A} (f g : A → bool) l : (∀ x, x ∈ l → f x = g x) → zcount f l = zcount g l.
Proof.
  induction l as [|x l IH]; intros H; [done|]. simpl.
  rewrite H by by left. rewrite IH; [done|]. intros y Hy. apply H. by right.
Qed.

(** Changing one element changes the count by its own change. *)
Lemma zcount_update {A} (key : A → Z) (f g : A → bool) l e :
  NoDup (key <$> l) → e ∈ l → (∀ x, x ∈ l → key x ≠ key e → g x = f x) →
  zcount g l = zcount f l - Z.b2z (f e) + Z.b2z (g e).
Proof.
  induction l as [|x l IH]; intros Hn He Hext; [by apply not_elem_of_nil in He|].
  rewrite fmap_cons in Hn. apply NoDup_cons in Hn as [Hx Hn]. simpl.
  apply elem_of_cons in He as [->|He].
  - rewrite (zcount_ext g f l); [lia|]. intros y Hy. apply Hext; [by right|].
    intros E. apply Hx. rewrite <- E. by apply list_elem_of_fmap_2.
  - rewrite IH by (try done; intros y Hy; apply Hext; by right).
    rewrite (Hext x); [lia|by left|]. intros E. apply Hx. rewrite E. by apply list_elem_of_fmap_2.
Qed.

Lemma counted_wrap old new rank n c :
  n = uwrap 8 c → counted old new rank n = uwrap 8 (c - Z.b2z (rank <=? old) + Z.b2z (rank <=? new)).
Proof.
  intros ->. unfold counted.
  destruct (rank <=? old), (rank <=? new); simpl; unfold uwrap;
    rewrite ?Zminus_mod_idemp_l, ?Zplus_mod_idemp_l; f_equal; lia.
Qed.

(** ** Ranks *)

Lemma ReputationToRank_unfold z :
  ReputationToRank z =
    if 42000 <=? z then 7 else if 21000 <=? z then 6 else if 9000 <=? z then 5
    else if 3000 <=? z then 4 else if 0 <=? z then 3 else if -3000 <=? z then 2
    else if -6000 <=? z then 1 else 0.
Proof.
  unfold ReputationToRank, Reputation_Cap. cbn -[Z.leb Z.sub Z.add].
  change (42999 + 1 - 1000) with 42000. change (42000 - 21000) with 21000.
  change (21000 - 12000) with 9000. change (9000 - 6000) with 3000. change (3000 - 3000) with 0.
  change (0 - 3000) with (-3000). change (-3000 - 3000) with (-6000).
  change (-6000 - 36000) with (-42000). by destruct (-42000 <=? z).
Qed.

Section Facts.
Context (sFactionStore : list (option FactionEntry)).
Context (FactionTeamList : Z → option (list Z)).
Context (GetRepSpilloverTemplate : Z → option RepSpilloverTemplate).
Context (raceMask classMask guidLow : Z) (playerLoading : bool).
Context (rate_reputation_gain : float).
Context (OnPlayerReputationChange : Z → Z → bool → Z).

(** The factions with a reputation, in the order of the store. *)
Definition ranked : list FactionEntry :=
  filter (λ e, 0 <= reputationListID e) (omap id (drop 1 sFactionStore)).

Definition base (e : FactionEntry) : Z := GetBaseReputation raceMask classMask (Some e).

(** What the rest of the program relies on of Faction.dbc: ids start at 1, the list ids
    are distinct [int32]s, the base values are possible standings. *)
Definition valid_store : Prop :=
  LookupEntry sFactionStore 0 = None ∧
  NoDup (rep_key <$> ranked) ∧
  (∀ id e, LookupEntry sFactionStore id = Some e → in_s 32 (reputationListID e)) ∧
  Forall (λ e, reputationListID e < 2 ^ 31 ∧ Reputation_Bottom <= base e <= Reputation_Cap) ranked.

Context (Hstore : valid_store).

Definition standing_of (m : ReputationMgr) (e : FactionEntry) : Z :=
  match m_factions m !! rep_key e with Some st => Standing st | None => 0 end.

Definition visible (m : ReputationMgr) (e : FactionEntry) : bool :=
  match m_factions m !! rep_key e with
  | Some st => has_bits (Flags st) FACTION_FLAG_VISIBLE
  | None => false
  end.

Definition rank_in (m : ReputationMgr) (e : FactionEntry) : Z :=
  ReputationToRank (base e + standing_of m e).

(** The counters agree with the ranks [R]. *)
Definition counts (R : FactionEntry → Z) (m : ReputationMgr) : Prop :=
  m_honoredFactionCount m = uwrap 8 (zcount (λ e, REP_HONORED <=? R e) ranked) ∧
  m_reveredFactionCount m = uwrap 8 (zcount (λ e, REP_REVERED <=? R e) ranked) ∧
  m_exaltedFactionCount m = uwrap 8 (zcount (λ e, REP_EXALTED <=? R e) ranked) ∧
  m_visibleFactionCount m = uwrap 8 (zcount (visible m) ranked).

Definition present (m : ReputationMgr) : Prop :=
  (∀ e, e ∈ ranked → is_Some (m_factions m !! rep_key e)) ∧
  (∀ k, is_Some (m_factions m !! k) → k ∈ rep_key <$> ranked) ∧
  (∀ e, e ∈ ranked → Reputation_Bottom <= base e + standing_of m e <= Reputation_Cap).

Definition consistent (m : ReputationMgr) : Prop := present m ∧ counts (rank_in m) m.

Lemma key_ranked e : e ∈ ranked → rep_key e = reputationListID e ∧ 0 <= reputationListID e.
Proof.
  intros He. destruct Hstore as (_ & _ & _ & Hall). rewrite Forall_forall in Hall.
  pose proof (Hall e He) as [Hlt _].
  apply list_elem_of_filter in He as [Hpos _]. split; [|done].
  apply uwrap_small. unfold in_u. lia.
Qed.

Lemma same_key_same e e' : e ∈ ranked → e' ∈ ranked → rep_key e = rep_key e' → e = e'.
Proof.
  intros He He' E. destruct Hstore as (_ & Hn & _).
  apply list_elem_of_lookup in He as [i Hi]. apply list_elem_of_lookup in He' as [j Hj].
  assert (i = j) as ->; [|congruence].
  eapply NoDup_lookup; [exact Hn|rewrite list_lookup_fmap, Hi; done|].
  rewrite list_lookup_fmap, Hj. simpl. by rewrite E.
Qed.

Lemma base_range e : e ∈ ranked → Reputation_Bottom <= base e <= Reputation_Cap.
Proof. intros He. destruct Hstore as (_ & _ & _ & Hall). rewrite Forall_forall in Hall. by apply Hall. Qed.

Lemma lookup_ranked id e : LookupEntry sFactionStore id = Some e → 0 <= reputationListID e → e ∈ ranked.
Proof.
  intros Hl Hpos. apply list_elem_of_filter. split; [done|].
  unfold LookupEntry in Hl. destruct (Z.ltb_spec id 0); [done|].
  destruct (sFactionStore !! Z.to_nat id) as [x|] eqn:E; [|done]. simpl in Hl. subst x.
  apply list_elem_of_omap. exists (Some e). split; [|done].
  destruct (decide (id = 0)) as [->|Hne].
  - destruct Hstore as (H0 & _). unfold LookupEntry in H0. simpl in H0, E.
    rewrite E in H0. done.
  - apply (list_elem_of_lookup_2 _ (Z.to_nat id - 1)). rewrite lookup_drop. rewrite <- E.
    f_equal. lia.
Qed.

(** Code that touches neither standings nor the counters of ranks, and keeps the count
    of visible factions. *)
Definition calm_step (m m' : ReputationMgr) : Prop :=
  (∀ k, is_Some (m_factions m' !! k) ↔ is_Some (m_factions m !! k)) ∧
  (∀ e, standing_of m' e = standing_of m e) ∧
  m_honoredFactionCount m' = m_honoredFactionCount m ∧
  m_reveredFactionCount m' = m_reveredFactionCount m ∧
  m_exaltedFactionCount m' = m_exaltedFactionCount m ∧
  (m_visibleFactionCount m = uwrap 8 (zcount (visible m) ranked) →
   m_visibleFactionCount m' = uwrap 8 (zcount (visible m') ranked)).

Lemma calm_refl m : calm_step m m.
Proof. split_and!; done. Qed.

Lemma calm_trans m1 m2 m3 : calm_step m1 m2 → calm_step m2 m3 → calm_step m1 m3.
Proof.
  intros (A1&A2&A3&A4&A5&A6) (B1&B2&B3&B4&B5&B6). split_and!; try congruence; auto.
  intros k. by rewrite B1.
Qed.

(** [Calm] code is run on managers that hold every ranked faction and no other. *)
Class Calm {A} (p : rep A) : Prop := calm : ∀ m, present m → calm_step m (p m).2.

Lemma calm_present m m' : calm_step m m' → present m → present m'.
Proof.
  intros (A1 & A2 & _) (P1 & P2 & P3). split_and!.
  - intros e He. by apply A1, P1.
  - intros k Hk%A1. by apply P2.
  - intros e He. rewrite A2. by apply P3.
Qed.

Lemma calm_counts R m m' : calm_step m m' → counts R m → counts R m'.
Proof.
  intros (_ & _ & A3 & A4 & A5 & A6) (C1 & C2 & C3 & C4).
  split_and!; [congruence..|by apply A6].
Qed.

#[export] Instance calm_bind {A B} (p : rep A) (k : A → rep B) :
  Calm p → (∀ a, Calm (k a)) → Calm (p ≫= k).
Proof.
  intros Hp Hk m Hm. specialize (Hp m Hm). unfold mbind, prog_bind.
  destruct (p m) as [[a|err] m1]; simpl in *; [|done].
  eapply calm_trans; [done|]. apply Hk. by eapply calm_present.
Qed.

#[export] Instance calm_if {A} (c : bool) (p q : rep A) : Calm p → Calm q → Calm (if c then p else q).
Proof. by destruct c. Qed.
#[export] Instance calm_ret {A} (a : A) : Calm (mret a).
Proof. intros m _. apply calm_refl. Qed.
#[export] Instance calm_throw {A} e : Calm (throw e : rep A).
Proof. intros m _. apply calm_refl. Qed.
#[export] Instance calm_gets {A} (f : ReputationMgr → A) : Calm (gets f).
Proof. intros m _. apply calm_refl. Qed.
#[export] Instance calm_int32 z : Calm (int32 z).
Proof. unfold int32. apply _. Qed.
#[export] Instance calm_of_option {A} (x : option A) : Calm (of_option x).
Proof. destruct x; simpl; apply _. Qed.
#[export] Instance calm_emit x : Calm (emit x).
Proof. intros m _. by split_and!. Qed.
#[export] Instance calm_for_each {A} (l : list A) (body : A → rep unit) :
  (∀ x, Calm (body x)) → Calm (for_each l body).
Proof. intros Hb. induction l; simpl; apply _. Qed.
#[export] Instance calm_state_at k : Calm (state_at k).
Proof. unfold state_at. apply _. Qed.
#[export] Instance calm_GetReputation e : Calm (GetReputation raceMask classMask e).
Proof. destruct e; unfold GetReputation; [|apply _]. apply calm_bind; [apply _|]. intros [?|]; apply _. Qed.
#[export] Instance calm_GetRank e : Calm (GetRank raceMask classMask e).
Proof. unfold GetRank. apply _. Qed.
#[export] Instance calm_notify_changed i : Calm (notify_changed i).
Proof. unfold notify_changed. apply _. Qed.
#[export] Instance calm_SendVisible st : Calm (SendVisible playerLoading st).
Proof. unfold SendVisible. apply _. Qed.

(** A state is replaced by one with the same standing and visibility. *)
Lemma calm_replace k st st' m :
  m_factions m !! k = Some st → Standing st' = Standing st →
  has_bits (Flags st') FACTION_FLAG_VISIBLE = has_bits (Flags st) FACTION_FLAG_VISIBLE →
  calm_step m (with_factions (alter (λ _, st') k (m_factions m)) m).
Proof.
  intros Hk Hs Hv. split_and!; simpl; try done.
  - intros j. destruct (decide (k = j)) as [->|]; [|by rewrite lookup_alter_ne].
    by rewrite lookup_alter_eq, fmap_is_Some.
  - intros e. unfold standing_of. simpl. destruct (decide (k = rep_key e)) as [->|].
    + by rewrite lookup_alter_eq, Hk.
    + by rewrite lookup_alter_ne.
  - intros ->. f_equal. apply zcount_ext. intros e _. unfold visible. simpl.
    destruct (decide (k = rep_key e)) as [->|].
    + by rewrite lookup_alter_eq, Hk.
    + by rewrite lookup_alter_ne.
Qed.

Lemma calm_update_state k g :
  (∀ st, Standing (g st) = Standing st ∧ Flags (g st) = Flags st) → Calm (update_state k g).
Proof.
  intros Hg m _. unfold update_state. simpl. destruct (m_factions m !! k) as [st|] eqn:E.
  - rewrite (alter_ext g (λ _, g st) _ k) by (intros x Hx; congruence).
    apply (calm_replace k st); [done|by apply Hg|]. f_equal. apply Hg.
  - rewrite alter_id; [|intros x Hx; congruence]. by split_and!.
Qed.

Lemma calm_fmap_needSend m :
  calm_step m (with_factions (with_needSend false <$> m_factions m) m).
Proof.
  split_and!; simpl; try done.
  - intros k. by rewrite lookup_fmap, fmap_is_Some.
  - intros e. unfold standing_of. simpl. rewrite lookup_fmap. by destruct (m_factions m !! rep_key e).
  - intros ->. f_equal. apply zcount_ext. intros e _. unfold visible. simpl.
    rewrite lookup_fmap. by destruct (m_factions m !! rep_key e).
Qed.

#[export] Instance calm_SendState k : Calm (SendState k).
Proof.
  unfold SendState. apply calm_bind; [apply _|intros st]. apply calm_bind; [apply _|intros f].
  apply calm_bind; [|apply _]. intros m _. apply calm_fmap_needSend.
Qed.

(** ** Flags *)

Lemma has_visible f : has_bits f FACTION_FLAG_VISIBLE = Z.testbit f 0.
Proof. by apply (has_bits_pow2 f 0). Qed.
Lemma has_at_war f : has_bits f FACTION_FLAG_AT_WAR = Z.testbit f 1.
Proof. by apply (has_bits_pow2 f 1). Qed.
Lemma has_peace f : has_bits f FACTION_FLAG_PEACE_FORCED = Z.testbit f 4.
Proof. by apply (has_bits_pow2 f 4). Qed.
Lemma has_inactive f : has_bits f FACTION_FLAG_INACTIVE = Z.testbit f 5.
Proof. by apply (has_bits_pow2 f 5). Qed.

Lemma testbit_set f i j : 0 <= i → Z.testbit (Z.lor f (2 ^ i)) j = Z.testbit f j || (i =? j).
Proof. intros Hi. by rewrite Z.lor_spec, testbit_pow2. Qed.

Lemma testbit_unset f i j :
  0 <= i → 0 <= j → Z.testbit (Z.land f (Z.lnot (2 ^ i))) j = Z.testbit f j && negb (i =? j).
Proof. intros Hi Hj. by rewrite Z.land_spec, Z.lnot_spec, testbit_pow2. Qed.

Lemma state_at_run k st m : m_factions m !! k = Some st → state_at k m = (Ret st, m).
Proof. intros H. unfold state_at. erewrite bind_ret_run by done. by rewrite H. Qed.

Lemma state_at_missing k m : m_factions m !! k = None → state_at k m = (Throw Undefined, m).
Proof. intros H. unfold state_at. erewrite bind_ret_run by done. by rewrite H. Qed.

#[export] Instance calm_SetAtWar_state k b : Calm (SetAtWar_state k b).
Proof.
  intros m Hm. unfold SetAtWar_state. destruct (m_factions m !! k) as [st|] eqn:E.
  2: { erewrite bind_throw_run by by apply state_at_missing. apply calm_refl. }
  erewrite bind_ret_run by by apply state_at_run.
  destruct (b && _); [apply calm_refl|]. destruct (Bool.eqb _ _); [apply calm_refl|].
  apply (calm_replace k st); [done|done|]. simpl. rewrite !has_visible. destruct b.
  - change FACTION_FLAG_AT_WAR with (2 ^ 1). rewrite testbit_set by lia. by rewrite orb_false_r.
  - change FACTION_FLAG_AT_WAR with (2 ^ 1). rewrite testbit_unset by lia. by rewrite andb_true_r.
Qed.

#[export] Instance calm_SetInactive_state k b : Calm (SetInactive_state k b).
Proof.
  intros m Hm. unfold SetInactive_state. destruct (m_factions m !! k) as [st|] eqn:E.
  2: { erewrite bind_throw_run by by apply state_at_missing. apply calm_refl. }
  erewrite bind_ret_run by by apply state_at_run.
  destruct (b && _); [apply calm_refl|]. destruct (Bool.eqb _ _); [apply calm_refl|].
  apply (calm_replace k st); [done|done|]. simpl. rewrite !has_visible. destruct b.
  - change FACTION_FLAG_INACTIVE with (2 ^ 5). rewrite testbit_set by lia. by rewrite orb_false_r.
  - change FACTION_FLAG_INACTIVE with (2 ^ 5). rewrite testbit_unset by lia. by rewrite andb_true_r.
Qed.

(** One more visible faction, one more in the counter. *)
Lemma calm_show k st st' m n :
  present m → m_factions m !! k = Some st → Standing st' = Standing st →
  has_bits (Flags st) FACTION_FLAG_VISIBLE = false →
  has_bits (Flags st') FACTION_FLAG_VISIBLE = true →
  n = uwrap 8 (m_visibleFactionCount m + 1) →
  calm_step m (with_counts n (m_honoredFactionCount m) (m_reveredFactionCount m)
    (m_exaltedFactionCount m) (with_factions (alter (λ _, st') k (m_factions m)) m)).
Proof.
  intros (P1 & P2 & _) Hk Hs Hv0 Hv1 ->.
  assert (k ∈ rep_key <$> ranked) as (e & -> & He)%list_elem_of_fmap by (apply P2; by eexists).
  split_and!; simpl; try done.
  - intros j. destruct (decide (rep_key e = j)) as [->|]; [|by rewrite lookup_alter_ne].
    by rewrite lookup_alter_eq, fmap_is_Some.
  - intros e'. unfold standing_of. simpl. destruct (decide (rep_key e = rep_key e')) as [E|].
    + by rewrite <- E, lookup_alter_eq, Hk.
    + by rewrite lookup_alter_ne.
  - intros ->. destruct Hstore as (_ & Hn & _).
    match goal with |- _ = uwrap 8 (zcount (visible ?m') _) =>
      rewrite (zcount_update rep_key (visible m) (visible m') ranked e Hn He) end.
    + assert (visible m e = false) as -> by (unfold visible; by rewrite Hk).
      match goal with |- context [Z.b2z (visible ?m' e)] => assert (visible m' e = true) as -> end.
      { unfold visible. simpl. by rewrite lookup_alter_eq, Hk. }
      simpl. unfold uwrap. rewrite Zplus_mod_idemp_l. f_equal. lia.
    + intros e' _ Hne. unfold visible. simpl. by rewrite lookup_alter_ne.
Qed.

#[export] Instance calm_SetVisible_state k : Calm (SetVisible_state playerLoading k).
Proof.
  intros m Hm. unfold SetVisible_state. destruct (m_factions m !! k) as [st|] eqn:E.
  2: { erewrite bind_throw_run by by apply state_at_missing. apply calm_refl. }
  erewrite bind_ret_run by by apply state_at_run.
  destruct (_ && _); [apply calm_refl|].
  destruct (has_bits (Flags st) FACTION_FLAG_VISIBLE) eqn:Ev; [apply calm_refl|].
  cbv zeta. erewrite bind_ret_run by done. erewrite bind_ret_run by done.
  set (st' := with_needSave true _).
  assert (calm_step m (with_counts (uwrap 8 (m_visibleFactionCount m + 1)) (m_honoredFactionCount m)
    (m_reveredFactionCount m) (m_exaltedFactionCount m)
    (with_factions (alter (λ _, st') k (m_factions m)) m))) as Hc.
  { apply (calm_show k st); try done. simpl. rewrite has_visible.
    change FACTION_FLAG_VISIBLE with (2 ^ 0). rewrite testbit_set by lia. by rewrite orb_true_r. }
  eapply calm_trans; [exact Hc|]. apply calm_SendVisible. by eapply calm_present.
Qed.

(** ** Standing *)

Class Keeps {A} (p : rep A) : Prop := keeps : ∀ m, consistent m → consistent (p m).2.

#[export] Instance calm_keeps {A} (p : rep A) : Calm p → Keeps p.
Proof.
  intros Hp m [Hm Hc]. specialize (Hp m Hm). split; [by eapply calm_present|].
  assert (∀ e, rank_in (p m).2 e = rank_in m e) as Hr.
  { intros e. unfold rank_in. by destruct Hp as (_ & -> & _). }
  pose proof (calm_counts _ _ _ Hp Hc) as (C1 & C2 & C3 & C4).
  unfold counts. rewrite C1, C2, C3. split_and!; [ | | |done];
    f_equal; apply zcount_ext; intros e _; by rewrite Hr.
Qed.

#[export] Instance keeps_bind {A B} (p : rep A) (k : A → rep B) :
  Keeps p → (∀ a, Keeps (k a)) → Keeps (p ≫= k).
Proof.
  intros Hp Hk m Hm. specialize (Hp m Hm). unfold mbind, prog_bind.
  destruct (p m) as [[a|err] m1]; simpl in *; [by apply Hk|done].
Qed.

#[export] Instance keeps_if {A} (c : bool) (p q : rep A) : Keeps p → Keeps q → Keeps (if c then p else q).
Proof. by destruct c. Qed.

#[export] Instance keeps_for_each {A} (l : list A) (body : A → rep unit) :
  (∀ x, Keeps (body x)) → Keeps (for_each l body).
Proof. intros Hb. induction l; simpl; apply _. Qed.

(** The standing of [e] becomes [new]. *)
Definition set_standing (e : FactionEntry) (new : Z) (m : ReputationMgr) : ReputationMgr :=
  with_factions (alter (λ st, with_needSave true (with_needSend true (with_Standing new st)))
    (rep_key e) (m_factions m)) m.

Lemma set_standing_other e new m e' :
  rep_key e' ≠ rep_key e → standing_of (set_standing e new m) e' = standing_of m e'.
Proof. intros Hne. unfold standing_of, set_standing. simpl. by rewrite lookup_alter_ne. Qed.

Lemma set_standing_self e new m :
  is_Some (m_factions m !! rep_key e) → standing_of (set_standing e new m) e = new.
Proof. intros [st Hst]. unfold standing_of, set_standing. simpl. by rewrite lookup_alter_eq, Hst. Qed.

Lemma set_standing_visible e new m e' : visible (set_standing e new m) e' = visible m e'.
Proof.
  unfold visible, set_standing. simpl. destruct (decide (rep_key e = rep_key e')) as [E|].
  - rewrite <- E, lookup_alter_eq. by destruct (m_factions m !! rep_key e).
  - by rewrite lookup_alter_ne.
Qed.

Lemma set_standing_present e new m :
  e ∈ ranked → Reputation_Bottom <= base e + new <= Reputation_Cap →
  present m → present (set_standing e new m).
Proof.
  intros He Hnew (P1 & P2 & P3). split_and!.
  - intros e' He'. unfold set_standing. simpl. destruct (decide (rep_key e = rep_key e')) as [<-|].
    + rewrite lookup_alter_eq, fmap_is_Some. by apply P1.
    + rewrite lookup_alter_ne by done. by apply P1.
  - intros k. unfold set_standing. simpl. destruct (decide (rep_key e = k)) as [<-|].
    + intros _. by apply list_elem_of_fmap_2.
    + rewrite lookup_alter_ne by done. apply P2.
  - intros e' He'. destruct (decide (rep_key e' = rep_key e)) as [E|].
    + assert (e' = e) as -> by (by apply same_key_same). rewrite set_standing_self by by apply P1. done.
    + rewrite set_standing_other by done. by apply P3.
Qed.

Lemma SetVisible_state_ret k m :
  is_Some (m_factions m !! k) → ∃ m', SetVisible_state playerLoading k m = (Ret tt, m').
Proof.
  intros [st E]. unfold SetVisible_state. erewrite bind_ret_run by by apply state_at_run.
  unfold SendVisible. destruct playerLoading; repeat case_match; by eexists.
Qed.

Lemma SetAtWar_state_ret k b m :
  is_Some (m_factions m !! k) → ∃ m', SetAtWar_state k b m = (Ret tt, m').
Proof.
  intros [st E]. unfold SetAtWar_state. erewrite bind_ret_run by by apply state_at_run.
  repeat case_match; by eexists.
Qed.

(** What follows the computation of the new standing [s] in [SetOneFactionReputation]. *)
Definition commit_standing (e : FactionEntry) (s old_rank : Z) : rep bool :=
  update_state (rep_key e)
    (λ st, with_needSave true (with_needSend true (with_Standing (s - base e) st)));;
  SetVisible_state playerLoading (rep_key e);;
  (if ReputationToRank s <=? REP_HOSTILE then SetAtWar_state (rep_key e) true else mret tt);;
  UpdateRankCounters old_rank (ReputationToRank s);;
  notify_changed (ID e);;
  mret true.

(** The counters updated by the change of one rank agree again with the standings. *)
Lemma recount e new m m2 :
  e ∈ ranked → consistent m → Reputation_Bottom <= base e + new <= Reputation_Cap →
  calm_step (set_standing e new m) m2 →
  let m3 := (UpdateRankCounters (rank_in m e) (ReputationToRank (base e + new)) m2).2 in
  consistent m3 ∧ standing_of m3 e = new ∧
  (∀ e', e' ∈ ranked → e' ≠ e → standing_of m3 e' = standing_of m e').
Proof.
  intros He [Hp Hc] Hs Hcalm m3. set (m1 := set_standing e new m) in *.
  assert (present m1) as Hp1 by by apply set_standing_present.
  assert (counts (rank_in m) m1) as Hc1.
  { destruct Hc as (C1 & C2 & C3 & C4). split_and!; [done..|]. simpl. rewrite C4. f_equal.
    apply zcount_ext. intros e' _. subst m1. by rewrite set_standing_visible. }
  pose proof (calm_present _ _ Hcalm Hp1) as Hp2.
  pose proof (calm_counts _ _ _ Hcalm Hc1) as (C1 & C2 & C3 & C4).
  assert (∀ e', standing_of m3 e' = standing_of m1 e') as Hst3 by apply Hcalm.
  assert (∀ e', rep_key e' ≠ rep_key e → standing_of m1 e' = standing_of m e') as Hm1.
  { intros e' Hne. by apply set_standing_other. }
  assert (standing_of m1 e = new) as Hse by (apply set_standing_self; by apply Hp).
  assert (rank_in m3 e = ReputationToRank (base e + new)) as Hnew by (unfold rank_in; by rewrite Hst3, Hse).
  assert (∀ r n, n = uwrap 8 (zcount (λ e, r <=? rank_in m e) ranked) →
    counted (rank_in m e) (ReputationToRank (base e + new)) r n =
      uwrap 8 (zcount (λ e, r <=? rank_in m3 e) ranked)) as Hcnt.
  { intros r n Hn. rewrite (counted_wrap _ _ _ _ _ Hn). f_equal.
    destruct Hstore as (_ & Hnd & _).
    rewrite (zcount_update rep_key (λ e, r <=? rank_in m e) (λ e, r <=? rank_in m3 e) ranked e Hnd He).
    - rewrite Hnew. lia.
    - intros e' He' Hne. unfold rank_in. by rewrite Hst3, Hm1. }
  split_and!; [split; [exact Hp2|] |by rewrite Hst3|].
  - split_and!; [by apply Hcnt|by apply Hcnt|by apply Hcnt|exact C4].
  - intros e' He' Hne. rewrite Hst3. apply Hm1. intros E. apply Hne. by apply same_key_same.
Qed.

Lemma commit_standing_run e s m :
  e ∈ ranked → consistent m → Reputation_Bottom <= s <= Reputation_Cap →
  ∃ m', commit_standing e s (rank_in m e) m = (Ret true, m') ∧ consistent m' ∧
    standing_of m' e = s - base e ∧
    (∀ e', e' ∈ ranked → e' ≠ e → standing_of m' e' = standing_of m e').
Proof.
  intros He Hm Hs. unfold commit_standing. set (m1 := set_standing e (s - base e) m).
  assert (present m1) as Hp1 by (apply set_standing_present; [done|lia|apply Hm]).
  assert (∃ m2, calm_step m1 m2 ∧ ∀ k : rep bool, (SetVisible_state playerLoading (rep_key e);;
      (if ReputationToRank s <=? REP_HOSTILE then SetAtWar_state (rep_key e) true else mret tt);; k) m1
      = k m2) as (m2 & Hcalm & E2).
  { destruct (SetVisible_state_ret (rep_key e) m1) as [ma Ea]; [by apply Hp1|].
    assert (calm_step m1 ma) as Hca.
    { pose proof (calm_SetVisible_state (rep_key e) m1 Hp1) as Hca. by rewrite Ea in Hca. }
    pose proof (calm_present _ _ Hca Hp1) as Hpa.
    destruct (ReputationToRank s <=? REP_HOSTILE).
    - destruct (SetAtWar_state_ret (rep_key e) true ma) as [mb Eb]; [by apply Hpa|].
      exists mb. split; [|intros k; erewrite bind_ret_run by exact Ea; by erewrite bind_ret_run by exact Eb].
      eapply calm_trans; [done|].
      pose proof (calm_SetAtWar_state (rep_key e) true ma Hpa) as Hcb. by rewrite Eb in Hcb.
    - exists ma. split; [done|]. intros k. by erewrite bind_ret_run by exact Ea. }
  destruct (recount e (s - base e) m m2) as (Hc3 & Hse & Hso); [done|done|lia|done|].
  replace (base e + (s - base e)) with s in Hc3, Hse, Hso by lia.
  set (m3 := (UpdateRankCounters (rank_in m e) (ReputationToRank s) m2).2) in *.
  assert (Calm (notify_changed (ID e);; mret true)) as Hn by apply _.
  specialize (Hn m3 (proj1 Hc3)).
  exists ((notify_changed (ID e);; mret true) m3).2. split_and!.
  - erewrite bind_ret_run by done. change (with_factions _ m) with m1. by rewrite E2.
  - assert (Keeps (notify_changed (ID e);; mret true)) as Hk by apply _. by apply Hk.
  - destruct Hn as (_ & -> & _). done.
  - intros e' He' Hne. destruct Hn as (_ & -> & _). by apply Hso.
Qed.

Lemma lookup_cases id e m :
  LookupEntry sFactionStore id = Some e → consistent m →
  e ∈ ranked ∨ m_factions m !! rep_key e = None.
Proof.
  intros Hl [(P1 & P2 & P3) _]. destruct (Z.le_gt_cases 0 (reputationListID e)) as [Hpos|Hneg].
  - left. by eapply lookup_ranked.
  - right. destruct (m_factions m !! rep_key e) as [st|] eqn:E; [|done]. exfalso.
    assert (rep_key e ∈ rep_key <$> ranked) as (e' & E' & He')%list_elem_of_fmap by (apply P2; by eexists).
    destruct (key_ranked e' He') as [K Hpos']. destruct Hstore as (_ & _ & Hin & Hall).
    rewrite Forall_forall in Hall. destruct (Hall e' He') as [Hlt _].
    specialize (Hin id e Hl). unfold in_s in Hin. rewrite K in E'. unfold rep_key, uwrap in E'.
    change (32 - 1) with 31 in Hin. div_lia.
Qed.

Definition clamp (s : Z) : Z :=
  if Reputation_Cap <? s then Reputation_Cap else if s <? Reputation_Bottom then Reputation_Bottom else s.

Lemma clamp_range s : Reputation_Bottom <= clamp s <= Reputation_Cap.
Proof. unfold clamp, Reputation_Cap, Reputation_Bottom. repeat case_cmp; lia. Qed.

Lemma int32_run {S} z (m : S) : - 2 ^ 31 <= z < 2 ^ 31 → int32 z m = (Ret z, m).
Proof. intros Hz. unfold int32. by decide_cmp. Qed.

(** [SetOneFactionReputation] ends before any change or commits a clamped standing. *)
Lemma SetOne_cases e s incremental m :
  e ∈ ranked → consistent m →
  let p := SetOneFactionReputation raceMask classMask playerLoading rate_reputation_gain e s incremental in
  (incremental = false → p m = commit_standing e (clamp s) (rank_in m e) m) ∧
  ((p m).2 = m ∨ ∃ s', Reputation_Bottom <= s' <= Reputation_Cap ∧
     p m = commit_standing e s' (rank_in m e) m).
Proof.
  intros He [(P1 & P2 & P3) Hc] p. destruct (P1 e He) as [st Hst].
  assert (standing_of m e = Standing st) as Hstd by (unfold standing_of; by rewrite Hst).
  pose proof (P3 e He) as Hb. pose proof (base_range e He) as Hbase.
  rewrite Hstd in Hb. unfold Reputation_Bottom, Reputation_Cap in *.
  assert (∀ s, (let standing := clamp s in
      old ← int32 (Standing st + base e);
      let old_rank := ReputationToRank old in
      let new_rank := ReputationToRank standing in
      new ← int32 (standing - base e);
      update_state (rep_key e) (λ st, with_needSave true (with_needSend true (with_Standing new st)));;
      SetVisible_state playerLoading (rep_key e);;
      (if new_rank <=? REP_HOSTILE then SetAtWar_state (rep_key e) true else mret tt);;
      UpdateRankCounters old_rank new_rank;;
      notify_changed (ID e);;
      mret true) m = commit_standing e (clamp s) (rank_in m e) m) as Hk.
  { intros s'. cbv zeta. pose proof (clamp_range s') as Hcl. unfold Reputation_Bottom, Reputation_Cap in Hcl.
    erewrite bind_ret_run by (apply int32_run; lia).
    erewrite bind_ret_run by (apply int32_run; lia).
    unfold commit_standing, rank_in. rewrite Hstd. by rewrite (Z.add_comm (base e)). }
  subst p. unfold SetOneFactionReputation. erewrite bind_ret_run by done. rewrite Hst. fold (base e).
  cbv zeta. split.
  - intros ->. erewrite bind_ret_run by done. apply (Hk s).
  - destruct incremental; [|right; exists (clamp s); split; [apply clamp_range|]; erewrite bind_ret_run by done; apply (Hk s)].
    destruct (fits _ _ _) as [gained|]; [|left; by erewrite bind_throw_run by by apply bind_throw_run].
    assert (∃ r, (gained ← of_option (Some gained); current ← int32 (Standing st + base e);
      int32 (gained + current)) m = (r, m)) as [[s'|err] E].
    { exists (int32 (gained + (Standing st + base e)) m).1.
      erewrite bind_ret_run by done. erewrite bind_ret_run by (apply int32_run; lia).
      unfold int32. by destruct (_ && _). }
    + right. exists (clamp s'). split; [apply clamp_range|]. erewrite bind_ret_run by exact E. apply (Hk s').
    + left. by erewrite bind_throw_run by exact E.
Qed.

Abbreviation SetOne :=
  (SetOneFactionReputation raceMask classMask playerLoading rate_reputation_gain).
Abbreviation Lookup := (LookupEntry sFactionStore).

Lemma keeps_SetOne id e s b : Lookup id = Some e → Keeps (SetOne e s b).
Proof.
  intros Hl m Hm. destruct (lookup_cases id e m Hl Hm) as [He|Hnone].
  - destruct (SetOne_cases e s b m He Hm) as [_ [->|(s' & Hs' & ->)]]; [done|].
    by destruct (commit_standing_run e s' m He Hm Hs') as (m' & -> & ? & _).
  - unfold SetOneFactionReputation. erewrite bind_ret_run by done. by rewrite Hnone.
Qed.

Lemma keeps_of_option {A B} (x : option A) (k : A → rep B) :
  (∀ a, x = Some a → Keeps (k a)) → Keeps (of_option x ≫= k).
Proof. intros Hk m Hm. destruct x as [a|]; [by apply (Hk a)|done]. Qed.

Lemma keeps_template fs rs ks s b :
  Keeps (template_spillover sFactionStore raceMask classMask playerLoading rate_reputation_gain fs rs ks s b).
Proof.
  revert rs ks. induction fs as [|f fs IH]; intros [|r rs] [|k ks]; cbn [template_spillover]; try apply _.
  apply keeps_bind; [|intros _; apply IH]. apply keeps_if; [|apply _].
  apply keeps_bind; [apply _|intros r']. apply keeps_if; [|apply _].
  apply keeps_bind; [unfold int32_of_float; apply _|intros amount].
  apply keeps_of_option. intros e He. apply keeps_bind; [by eapply keeps_SetOne|intros _; apply _].
Qed.

Lemma keeps_team l e out b res :
  Keeps (team_spillover sFactionStore raceMask classMask playerLoading rate_reputation_gain l e out b res).
Proof.
  revert res. induction l as [|f l IH]; intros res; cbn [team_spillover]; [apply _|].
  apply keeps_bind; [|intros res'; apply IH].
  destruct (Lookup f) as [calc|] eqn:El; [|apply _]. apply keeps_if; [apply _|].
  apply keeps_bind; [apply _|intros r]. apply keeps_if; [apply _|].
  apply keeps_bind; [unfold int32_of_float; apply _|intros amount].
  apply keeps_if; [by eapply keeps_SetOne|apply _].
Qed.

Lemma keeps_SetReputation id e s b :
  Lookup id = Some e →
  Keeps (SetReputation sFactionStore FactionTeamList GetRepSpilloverTemplate raceMask classMask
    playerLoading rate_reputation_gain OnPlayerReputationChange e s b).
Proof.
  intros Hl. unfold SetReputation. cbv zeta.
  set (s' := OnPlayerReputationChange (ID e) s b).
  apply keeps_bind.
  - destruct (GetRepSpilloverTemplate (ID e)) as [t|].
    { apply keeps_bind; [apply keeps_template|intros _; apply _]. }
    apply keeps_bind.
    + destruct (FactionTeamList (ID e)); [apply _|]. apply keeps_if; [|apply _].
      destruct (Lookup (team e)) as [parent|] eqn:Ep; [|apply _].
      apply keeps_bind; [apply _|intros [st|]; [|apply _]]. apply keeps_if; [|apply _].
      apply keeps_bind; [unfold int32_of_float; apply _|intros amount].
      apply keeps_bind; [by eapply keeps_SetOne|intros _; apply _].
    + intros [out [l|]]; [apply keeps_team|apply _].
  - intros res. apply keeps_bind; [apply _|intros [st|]; [|apply _]].
    apply keeps_bind; [by eapply keeps_SetOne|intros res'; apply _].
Qed.

(** ** Initialisation *)

Abbreviation fresh_state := (new_state raceMask classMask).

(** The manager after the rows of the factions [l]. *)
Definition inited (l : list FactionEntry) (m : ReputationMgr) : Prop :=
  (∀ k st, m_factions m !! k = Some st ↔ ∃ e, e ∈ l ∧ k = rep_key e ∧ st = fresh_state e) ∧
  m_honoredFactionCount m = uwrap 8 (zcount (λ e, REP_HONORED <=? ReputationToRank (base e)) l) ∧
  m_reveredFactionCount m = uwrap 8 (zcount (λ e, REP_REVERED <=? ReputationToRank (base e)) l) ∧
  m_exaltedFactionCount m = uwrap 8 (zcount (λ e, REP_EXALTED <=? ReputationToRank (base e)) l) ∧
  m_visibleFactionCount m =
    uwrap 8 (zcount (λ e, has_bits (Flags (fresh_state e)) FACTION_FLAG_VISIBLE) l).

Lemma zcount_snoc {A} (f : A → bool) l x : zcount f (l ++ [x]) = zcount f l + Z.b2z (f x).
Proof. induction l as [|y l IH]; simpl; lia. Qed.

Lemma counted_init rank l e n :
  REP_HOSTILE < rank →
  n = uwrap 8 (zcount (λ e, rank <=? ReputationToRank (base e)) l) →
  counted REP_HOSTILE (ReputationToRank (base e)) rank n =
    uwrap 8 (zcount (λ e, rank <=? ReputationToRank (base e)) (l ++ [e])).
Proof.
  intros Hr Hn. rewrite (counted_wrap _ _ _ _ _ Hn), zcount_snoc. f_equal.
  rewrite (proj2 (Z.leb_gt rank REP_HOSTILE)) by done. simpl. lia.
Qed.

Lemma init_row_run l e m :
  0 <= reputationListID e → rep_key e ∉ rep_key <$> l → inited l m →
  ∃ m', init_row raceMask classMask (Some e) m = (Ret tt, m') ∧ inited (l ++ [e]) m' ∧
    effects m' = effects m ∧ m_forcedReactions m' = m_forcedReactions m.
Proof.
  intros Hpos Hnew (I1 & I2 & I3 & I4 & I5). unfold init_row. decide_cmp. cbv zeta.
  set (v := has_bits (Flags (fresh_state e)) FACTION_FLAG_VISIBLE).
  set (m1 := if v then with_counts (uwrap 8 (m_visibleFactionCount m + 1)) (m_honoredFactionCount m)
      (m_reveredFactionCount m) (m_exaltedFactionCount m) m else m).
  assert ((if v then modify (E := fault) (λ m, with_counts (uwrap 8 (m_visibleFactionCount m + 1))
      (m_honoredFactionCount m) (m_reveredFactionCount m) (m_exaltedFactionCount m) m)
    else (mret tt : rep unit)) m = (Ret tt, m1)) as E1 by (subst m1; by destruct v).
  erewrite bind_ret_run by exact E1. erewrite bind_ret_run by done.
  eexists. split; [done|]. split; [|subst m1; by destruct v].
  assert (m_honoredFactionCount m1 = m_honoredFactionCount m ∧
    m_reveredFactionCount m1 = m_reveredFactionCount m ∧
    m_exaltedFactionCount m1 = m_exaltedFactionCount m ∧ m_factions m1 = m_factions m ∧
    m_visibleFactionCount m1 = uwrap 8 (m_visibleFactionCount m + Z.b2z v))
    as (-> & -> & -> & Hf & Hv).
  { subst m1. destruct v; split_and!; try done. simpl. by rewrite Z.add_0_r, I5, uwrap_uwrap. }
  unfold inited. simpl. rewrite Hf, Hv. split_and!.
  - intros k st. rewrite lookup_insert_Some. setoid_rewrite elem_of_app.
    setoid_rewrite list_elem_of_singleton. rewrite I1. split.
    + intros [[<- <-]|[Hne (e' & He' & -> & ->)]]; [by exists e; auto|by exists e'; auto].
    + intros (e' & [He'| ->] & -> & ->); [right|by left]. split; [|by eauto].
      intros E. apply Hnew. rewrite E. by apply list_elem_of_fmap_2.
  - by apply counted_init.
  - by apply counted_init.
  - by apply counted_init.
  - rewrite zcount_snoc, I5. fold v. unfold uwrap. by rewrite Zplus_mod_idemp_l.
Qed.

Lemma init_rows_run rows l m :
  NoDup (rep_key <$> l ++ filter (λ e, 0 <= reputationListID e) (omap id rows)) → inited l m →
  ∃ m', for_each rows (init_row raceMask classMask) m = (Ret tt, m') ∧
    inited (l ++ filter (λ e, 0 <= reputationListID e) (omap id rows)) m' ∧
    effects m' = effects m ∧ m_forcedReactions m' = m_forcedReactions m.
Proof.
  revert l m. induction rows as [|[e|] rows IH]; intros l m Hn Hi; cbn [for_each].
  - exists m. by rewrite app_nil_r.
  - simpl in Hn |- *. rewrite filter_cons in Hn |- *. case_decide as Hpos.
    + destruct (init_row_run l e m Hpos) as (m1 & E1 & Hi1 & F1 & R1); [|done|].
      { rewrite fmap_app in Hn. apply NoDup_app in Hn as (_ & Hdisj & _).
        intros Hin. apply (Hdisj _ Hin). simpl. by left. }
      destruct (IH (l ++ [e]) m1) as (m' & E & Hi' & F & R); [by rewrite <- app_assoc|done|].
      exists m'. rewrite <- app_assoc in Hi'. erewrite bind_ret_run by exact E1.
      split_and!; [done|done|congruence|congruence].
    + erewrite bind_ret_run; [by apply IH|]. unfold init_row.
      by rewrite (proj2 (Z.leb_gt _ _)) by lia.
  - erewrite bind_ret_run by done. by apply IH.
Qed.

(** After [Initialize], whatever was there before, every faction is at its base. *)
Lemma Initialize_run m :
  ∃ m', Initialize sFactionStore raceMask classMask m = (Ret tt, m') ∧ inited ranked m' ∧
    consistent m' ∧ (∀ e, standing_of m' e = 0) ∧ effects m' = effects m.
Proof.
  unfold Initialize. destruct Hstore as (_ & Hn & _).
  destruct (init_rows_run (drop 1 sFactionStore) [] (with_counts 0 0 0 0 (with_factions ∅ m)))
    as (m' & E & Hi & F & _); [done| |].
  { split_and!; try done. intros k st. split; [done|]. by intros (e & ?%not_elem_of_nil & _). }
  exists m'. erewrite bind_ret_run by done. simpl in Hi. fold ranked in Hi.
  assert (∀ e, standing_of m' e = 0) as H0.
  { intros e. unfold standing_of. destruct (m_factions m' !! rep_key e) as [st|] eqn:Est; [|done].
    apply Hi in Est as (e' & _ & _ & ->). done. }
  split_and!; [done|done| |done|done]. destruct Hi as (I1 & I2 & I3 & I4 & I5). split.
  - split_and!.
    + intros e He. eexists. apply I1. eauto.
    + intros k [st Hst]. apply I1 in Hst as (e & He & -> & _). by apply list_elem_of_fmap_2.
    + intros e He. rewrite H0, Z.add_0_r. by apply base_range.
  - unfold counts. rewrite I2, I3, I4, I5.
    split_and!; f_equal; apply zcount_ext; intros e He; unfold rank_in; rewrite ?H0, ?Z.add_0_r; try done.
    unfold visible. by rewrite (proj2 (I1 (rep_key e) (fresh_state e))) by eauto.
Qed.

(** ** Loading *)

Lemma load_row_keeps id standing flags e m :
  Lookup id = Some e → 0 <= reputationListID e → consistent m → standing_of m e = 0 →
  Reputation_Bottom <= base e + swrap 32 standing <= Reputation_Cap →
  let m' := (load_row sFactionStore raceMask classMask playerLoading (id, standing, flags) m).2 in
  consistent m' ∧ standing_of m' e = swrap 32 standing ∧
  (∀ e', e' ∈ ranked → e' ≠ e → standing_of m' e' = standing_of m e').
Proof.
  intros Hl Hpos Hm H0 Hs. pose proof (lookup_ranked id e Hl Hpos) as He.
  unfold load_row. rewrite Hl. decide_cmp. cbv zeta. erewrite bind_ret_run by done. fold (base e).
  set (v := swrap 32 standing) in *.
  destruct (proj1 (proj1 Hm) e He) as [st Hst]. rewrite Hst. simpl default.
  set (m2 := with_factions (<[rep_key e := with_Standing v st]> (m_factions m)) m).
  assert (calm_step (set_standing e v m) m2) as Hcalm.
  { split_and!; simpl; try done.
    - intros k. rewrite lookup_insert_is_Some'. destruct (decide (rep_key e = k)) as [<-|].
      + rewrite lookup_alter_eq, Hst. simpl. split; [by eexists|by left].
      + rewrite lookup_alter_ne by done. split; [intros [?|?]; done|by right].
    - intros e'. unfold standing_of, set_standing. simpl. destruct (decide (rep_key e = rep_key e')) as [<-|].
      + by rewrite lookup_insert_eq, lookup_alter_eq, Hst.
      + by rewrite lookup_insert_ne, lookup_alter_ne.
    - intros ->. f_equal. apply zcount_ext. intros e' _. rewrite set_standing_visible. unfold visible.
      simpl. destruct (decide (rep_key e = rep_key e')) as [<-|].
      + by rewrite lookup_insert_eq, Hst.
      + by rewrite lookup_insert_ne. }
  unfold Reputation_Bottom, Reputation_Cap in Hs.
  erewrite bind_ret_run by (apply int32_run; lia). erewrite bind_ret_run by done.
  destruct (recount e v m m2) as (Hc3 & Hse & Hso); [done..|].
  unfold rank_in in Hc3, Hse, Hso. rewrite H0, Z.add_0_r in Hc3, Hse, Hso.
  set (m3 := (UpdateRankCounters _ _ m2).2) in *.
  match goal with |- context [(?p _).2] => assert (Calm p) as Hn end.
  { repeat (apply calm_bind; [apply _|intros ?]).
    apply calm_if; [by apply calm_update_state|apply _]. }
  match goal with |- context [(?p _).2] => assert (Keeps p) as Hk by by apply calm_keeps end.
  specialize (Hn m3 (proj1 Hc3)). specialize (Hk m3 Hc3).
  split_and!; [exact Hk| |].
  - destruct Hn as (_ & -> & _). done.
  - intros e' He' Hne. destruct Hn as (_ & -> & _). by apply Hso.
Qed.

(** ** The calls of the rest of the server *)

Inductive rep_op :=
| OpSetReputation (faction_id standing : Z) (incremental : bool)
| OpSetVisible (faction_id : Z) | OpSetVisibleTemplate (faction : Z)
| OpSetAtWar (repListID : Z) (on : bool) | OpSetInactive (repListID : Z) (on : bool)
| OpForceReaction (faction_id rank : Z) (apply : bool)
| OpSendStates | OpSendInitialReputations | OpSendForceReactions | OpSaveToDB.

(** A call with a faction id looks the entry up, and does nothing for an unknown one. *)
Definition with_entry (id : Z) (p : FactionEntry → rep unit) : rep unit :=
  match Lookup id with Some e => p e | None => mret tt end.

Definition run_op (o : rep_op) : rep unit :=
  match o with
  | OpSetReputation id s b => with_entry id (λ e,
      SetReputation sFactionStore FactionTeamList GetRepSpilloverTemplate raceMask classMask
        playerLoading rate_reputation_gain OnPlayerReputationChange e s b;; mret tt)
  | OpSetVisible id => with_entry id (SetVisible playerLoading)
  | OpSetVisibleTemplate f => SetVisible_template sFactionStore raceMask playerLoading f
  | OpSetAtWar k on => SetAtWar k on
  | OpSetInactive k on => SetInactive k on
  | OpForceReaction f r a => ApplyForceReaction f r a
  | OpSendStates => SendStates
  | OpSendInitialReputations => SendInitialReputations
  | OpSendForceReactions => SendForceReactions
  | OpSaveToDB => SaveToDB guidLow
  end.

(** Later calls happen whatever the earlier ones returned. *)
Fixpoint run_ops (os : list rep_op) (m : ReputationMgr) : ReputationMgr :=
  match os with [] => m | o :: os => run_ops os (run_op o m).2 end.

#[export] Instance calm_SetVisible e : Calm (SetVisible playerLoading e).
Proof. unfold SetVisible. apply calm_if; [apply _|]. apply calm_bind; [apply _|]. intros [?|]; apply _. Qed.

Lemma keeps_op o : Keeps (run_op o).
Proof.
  destruct o; cbn [run_op]; unfold with_entry.
  - destruct (Lookup faction_id) as [e|] eqn:E; [|apply _].
    apply keeps_bind; [by eapply keeps_SetReputation|intros _; apply _].
  - destruct (Lookup faction_id); apply _.
  - unfold SetVisible_template. apply keeps_if; [apply _|].
    destruct (Lookup _); [|apply _]. apply keeps_if; apply _.
  - unfold SetAtWar. apply calm_keeps, calm_bind; [apply _|]. intros [?|]; apply _.
  - unfold SetInactive. apply calm_keeps, calm_bind; [apply _|]. intros [?|]; apply _.
  - apply calm_keeps. intros m _. by split_and!.
  - unfold SendStates. apply _.
  - unfold SendInitialReputations. apply calm_keeps, calm_bind; [apply _|intros f].
    apply calm_bind; [intros m _; apply calm_fmap_needSend|intros _; apply _].
  - unfold SendForceReactions. apply _.
  - unfold SaveToDB. apply calm_keeps, calm_bind; [apply _|intros f]. apply calm_for_each. intros k.
    unfold save_state. apply calm_bind; [apply _|intros st]. apply calm_if; [|apply _].
    repeat (apply calm_bind; [apply _|intros _]). by apply calm_update_state.
Qed.

Lemma run_ops_consistent os m : consistent m → consistent (run_ops os m).
Proof. revert m. induction os as [|o os IH]; intros m Hm; [done|]. apply IH. by apply keeps_op. Qed.

(** Rows the database can hold: one per faction, with a possible standing. *)
Definition valid_rows (rows : list (Z * Z * Z)) : Prop :=
  NoDup (omap (λ row, Lookup row.1.1) rows) ∧
  Forall (λ row, ∀ e, Lookup row.1.1 = Some e →
    Reputation_Bottom <= base e + swrap 32 row.1.2 <= Reputation_Cap) rows.

Lemma load_rows_consistent rows m :
  valid_rows rows → consistent m →
  (∀ e, e ∈ omap (λ row, Lookup row.1.1) rows → e ∈ ranked → standing_of m e = 0) →
  consistent (for_each rows (load_row sFactionStore raceMask classMask playerLoading) m).2.
Proof.
  revert m. induction rows as [|[[f s] flags] rows IH]; intros m [Hn Hall] Hm H0; [done|].
  cbn [for_each]. apply Forall_cons in Hall as [Hs Hall]. simpl in Hn, H0, Hs.
  assert (∀ m1, consistent m1 →
    (∀ e, e ∈ omap (λ row, Lookup row.1.1) rows → e ∈ ranked → standing_of m1 e = 0) →
    (load_row sFactionStore raceMask classMask playerLoading (f, s, flags) m).2 = m1 →
    consistent ((load_row sFactionStore raceMask classMask playerLoading (f, s, flags);;
      for_each rows (load_row sFactionStore raceMask classMask playerLoading)) m).2) as Hrest.
  { intros m1 Hm1 Hz E. unfold mbind, prog_bind.
    destruct (load_row _ _ _ _ (f, s, flags) m) as [[[]|err] m1']; simpl in E; subst m1'; [|done].
    apply IH; [|done|done]. split; [|done].
    destruct (Lookup f); [by apply NoDup_cons in Hn as [_ ?]|done]. }
  destruct (Lookup f) as [e|] eqn:El.
  - apply NoDup_cons in Hn as [Hnew Hn]. destruct (Z.le_gt_cases 0 (reputationListID e)) as [Hpos|Hneg].
    + pose proof (lookup_ranked f e El Hpos) as He.
      destruct (load_row_keeps f s flags e m) as (Hc & _ & Ho); try done.
      { apply H0; [by left|done]. } { by apply Hs. }
      eapply Hrest; [exact Hc| |done]. intros e' He' Hr. rewrite Ho; [apply H0; [by right|done]|done|].
      by intros ->.
    + apply (Hrest m); [done| |].
      * intros e' He' Hr. apply H0; [by right|done].
      * unfold load_row. rewrite El. by rewrite (proj2 (Z.leb_gt _ _)) by lia.
  - apply (Hrest m); [done|done|]. unfold load_row. by rewrite El.
Qed.

Lemma LoadFromDB_consistent result m :
  valid_rows (default [] result) →
  consistent (LoadFromDB sFactionStore raceMask classMask playerLoading result m).2.
Proof.
  intros Hv. unfold LoadFromDB. destruct (Initialize_run m) as (m1 & E & _ & Hc & H0 & _).
  erewrite bind_ret_run by exact E. destruct result as [rows|]; [|done].
  apply load_rows_consistent; [done|done|]. intros e _ _. apply H0.
Qed.

End Facts.

(** ** Packets *)

Lemma packet_writes p bs :
  writes p bs → Z.of_nat (length bs) < 10000000 →
  packet p = mkBuffer 0 (Z.of_nat (length bs)) bs.
Proof. intros Hp Hl. unfold packet. by rewrite Hp. Qed.

Definition pairs_bytes (l : list (Z * Z)) : list Z :=
  l ≫= λ '(a, b), le_bytes 4 a ++ le_bytes 4 b.

Lemma length_pairs_bytes l : length (pairs_bytes l) = (8 * length l)%nat.
Proof.
  induction l as [|[a b] l IH]; [done|]. unfold pairs_bytes in *. cbn [mbind list_bind].
  rewrite !length_app, !length_le_bytes, IH. simpl. lia.
Qed.

Lemma put_pairs_writes l : writes (put_pairs l) (pairs_bytes l).
Proof.
  induction l as [|[a b] l IH]; [apply writes_nil|]. cbn [put_pairs].
  unfold pairs_bytes. cbn [mbind list_bind]. rewrite <- app_assoc.
  apply writes_seq; [apply append_writes|]. apply writes_seq; [apply append_writes|exact IH].
Qed.

(** An overwrite of bytes already in the buffer. *)
Lemma put_run n pos v r w bs1 old bs2 :
  length old = n → Z.of_nat (length bs1) = pos → pos + Z.of_nat n < 2 ^ 63 →
  put n pos v (mkBuffer r w (bs1 ++ old ++ bs2)) = (Ret tt, mkBuffer r w (bs1 ++ le_bytes n v ++ bs2)).
Proof.
  intros <- <- Hlt. unfold put, put_bytes, ByteBuffer.size. rewrite length_le_bytes. simpl.
  rewrite uwrap_small by (unfold in_u; lia). rewrite !length_app. decide_cmp.
  do 3 f_equal. unfold splice. rewrite length_le_bytes, Nat2Z.id, take_app_length.
  do 2 f_equal. rewrite app_assoc. by rewrite drop_app_length' by (rewrite length_app; done).
Qed.

(** The bytes of [SendState]: the count, the faction, the others to be sent. *)
Definition state_bytes (st : FactionState) (others : list (Z * Z)) : list Z :=
  (le_bytes 4 0 ++ le_bytes 1 0) ++ le_bytes 4 (1 + Z.of_nat (length others)) ++
  pairs_bytes ((ReputationListID st, uwrap 32 (Standing st)) :: others).

Lemma state_packet st others :
  Z.of_nat (length others) < 100000 →
  packet (put_float 0;; put_u8 0;; p_count ← gets _wpos; put_u32 1;;
    put_u32 (ReputationListID st);; put_u32 (uwrap 32 (Standing st));;
    put_pairs others;; put 4 p_count (1 + Z.of_nat (length others))) =
  mkBuffer 0 (Z.of_nat (length (state_bytes st others))) (state_bytes st others).
Proof.
  intros Hlen. unfold packet.
  set (body := put_u32 (ReputationListID st);; put_u32 (uwrap 32 (Standing st));; put_pairs others).
  assert (writes body (pairs_bytes ((ReputationListID st, uwrap 32 (Standing st)) :: others))) as Hbody.
  { apply (put_pairs_writes ((_, _) :: others)). }
  set (pb := pairs_bytes _) in *.
  assert (length pb = (8 * S (length others))%nat) as Hpl by apply length_pairs_bytes.
  erewrite bind_ret_run by (apply append_writes; [done|reflexivity]).
  erewrite bind_ret_run by (apply append_writes; [done|reflexivity]).
  erewrite bind_ret_run by done.
  erewrite bind_ret_run by (apply append_writes; [done|reflexivity]).
  set (b3 := appended _ (le_bytes 4 1)).
  assert (size b3 = 9) as Hb3 by done.
  assert (∀ k : bb unit, (put_u32 (ReputationListID st);; put_u32 (uwrap 32 (Standing st));;
      put_pairs others;; k) b3 = k (appended b3 pb)) as Hk.
  { intros k. assert (body b3 = (Ret tt, appended b3 pb)) as E.
    { apply Hbody; [done|]. rewrite Hb3, Hpl. lia. }
    unfold body in E. unfold mbind, prog_bind in E |- *.
    destruct (put_u32 (ReputationListID st) b3) as [[[]|] b4]; [|done].
    destruct (put_u32 (uwrap 32 (Standing st)) b4) as [[[]|] b5]; [|done].
    by rewrite E. }
  rewrite Hk. change (_wpos _) with 5.
  change (appended b3 pb) with (mkBuffer 0 (9 + Z.of_nat (length pb))
    ((le_bytes 4 0 ++ le_bytes 1 0) ++ le_bytes 4 1 ++ pb)).
  rewrite put_run; [|done|done|lia]. unfold state_bytes. fold pb. cbn [snd].
  f_equal. rewrite !length_app, !length_le_bytes. lia.
Qed.

Lemma length_also_sent k l : (length (also_sent k l) <= length l)%nat.
Proof.
  unfold also_sent. induction l as [|[j st] l IH]; [done|]. cbn [mbind list_bind].
  rewrite length_app. simpl. case_match; simpl; lia.
Qed.

(** ** The list of all 128 factions *)

(** What is sent for the list id [i]. *)
Definition entry_bytes (st : option FactionState) : list Z :=
  match st with
  | Some st => le_bytes 1 (Flags st) ++ le_bytes 4 (uwrap 32 (Standing st))
  | None => le_bytes 1 0 ++ le_bytes 4 0
  end.

Fixpoint assoc (i : Z) (l : list (Z * FactionState)) : option FactionState :=
  match l with [] => None | (j, st) :: l => if i =? j then Some st else assoc i l end.

Lemma assoc_none i l : (∀ x, x ∈ l → i < x.1) → assoc i l = None.
Proof.
  induction l as [|[j st] l IH]; intros H; [done|]. simpl.
  pose proof (H (j, st) ltac:(by left)) as Hj. simpl in Hj. decide_cmp.
  apply IH. intros x Hx. apply H. by right.
Qed.

Lemma assoc_lookup i (m : gmap Z FactionState) : assoc i (sorted_elems m) = m !! i.
Proof.
  pose proof (NoDup_fst_sorted_elems m) as Hn.
  assert (∀ j st, (j, st) ∈ sorted_elems m ↔ m !! j = Some st) as Hin by apply elem_of_sorted_elems.
  assert (∀ l, NoDup l.*1 → ∀ st, assoc i l = Some st ↔ (i, st) ∈ l) as Hassoc.
  { clear. induction l as [|[j st'] l IH]; intros Hn st; simpl.
    - split; [done|by intros ?%not_elem_of_nil].
    - apply NoDup_cons in Hn as [Hj Hn]. simpl in Hj. rewrite elem_of_cons.
      destruct (Z.eqb_spec i j) as [->|Hne].
      + split; [intros [= ->]; by left|]. intros [[= ->]|Hin]; [done|].
        exfalso. apply Hj. by apply (list_elem_of_fmap_2 fst _ (j, st)).
      + rewrite IH by done. split; [by right|]. by intros [[= ??]|?]. }
  apply option_eq. intros st. by rewrite Hassoc, Hin.
Qed.

Lemma put_times_writes p bs n : writes p bs → writes (put_times n p) (mjoin (replicate n bs)).
Proof.
  intros Hp. induction n as [|n IH]; [apply writes_nil|]. by apply writes_seq.
Qed.

Lemma absent_bytes a n l :
  (∀ x, x ∈ l → a + Z.of_nat n <= x.1) →
  (seqZ a (Z.of_nat n) ≫= λ i, entry_bytes (assoc i l)) = mjoin (replicate n (entry_bytes None)).
Proof.
  revert a. induction n as [|n IH]; intros a Hl; [done|].
  rewrite seqZ_cons by lia. cbn [mbind list_bind replicate mjoin list_join].
  rewrite assoc_none by (intros x Hx; specialize (Hl x Hx); lia). f_equal.
  replace (Z.pred (Z.of_nat (S n))) with (Z.of_nat n) by lia.
  apply IH. intros x Hx. specialize (Hl x Hx). lia.
Qed.

Lemma put_absent_writes : writes put_absent (entry_bytes None).
Proof. apply writes_seq; apply append_writes. Qed.

Lemma initial_loop_writes l a :
  0 <= a <= 128 → StronglySorted key_le l → NoDup l.*1 → (∀ x, x ∈ l → a <= x.1 < 128) →
  writes (initial_loop a l) (seqZ a (128 - a) ≫= λ i, entry_bytes (assoc i l)).
Proof.
  revert a. induction l as [|[first st] l IH]; intros a Ha Hs Hn Hl; cbn [initial_loop].
  - rewrite uwrap_small by (unfold in_u; lia).
    replace (128 - a) with (Z.of_nat (Z.to_nat (128 - a))) at 2 by lia.
    rewrite absent_bytes by (by intros x ?%not_elem_of_nil).
    apply put_times_writes, put_absent_writes.
  - pose proof (Hl (first, st) ltac:(by left)) as Hf. simpl in Hf.
    apply StronglySorted_inv in Hs as [Hs Hall]. apply NoDup_cons in Hn as [Hnf Hn]. simpl in Hnf.
    assert (∀ x, x ∈ l → first < x.1) as Hlater.
    { intros x Hx. rewrite Forall_forall in Hall. specialize (Hall x Hx). unfold key_le in Hall.
      simpl in Hall. assert (x.1 ≠ first); [|lia]. intros E. apply Hnf. rewrite <- E.
      by apply list_elem_of_fmap_2. }
    rewrite (uwrap_small 32 (first - a)), (uwrap_small 32 (first + 1)) by (unfold in_u; lia).
    replace (128 - a) with ((first - a) + (1 + (127 - first))) by lia.
    rewrite seqZ_app, bind_app by lia. apply writes_seq.
    + replace (first - a) with (Z.of_nat (Z.to_nat (first - a))) at 2 by lia.
      rewrite absent_bytes; [apply put_times_writes, put_absent_writes|].
      intros x [->|Hx]%elem_of_cons; [simpl; lia|]. specialize (Hlater x Hx). lia.
    + replace (a + (first - a)) with first by lia. rewrite seqZ_cons by lia.
      cbn [mbind list_bind assoc]. rewrite Z.eqb_refl. cbn [entry_bytes]. rewrite <- app_assoc.
      apply writes_seq; [apply append_writes|]. apply writes_seq; [apply append_writes|].
      replace (Z.pred (1 + (127 - first))) with (128 - (first + 1)) by lia.
      replace (Z.succ first) with (first + 1) by lia.
      assert ((seqZ (first + 1) (128 - (first + 1)) ≫= λ i, entry_bytes
        (if i =? first then Some st else assoc i l)) =
        seqZ (first + 1) (128 - (first + 1)) ≫= λ i, entry_bytes (assoc i l)) as ->.
      { apply Forall_bind_ext, Forall_seqZ. intros i Hi. by rewrite (proj2 (Z.eqb_neq i first)) by lia. }
      apply IH; [lia|done|done|]. intros x Hx. specialize (Hlater x Hx).
      pose proof (Hl x ltac:(by right)). lia.
Qed.

(** ** Properties *)

(** C8. The counters are right: after [LoadFromDB] of possible rows and any sequence of
    calls, whatever the script hook, the rates, the spillover tables and the earlier
    state, the counters of honored, revered, exalted and visible factions are the
    numbers of such factions (modulo 256, their width), and every standing with its
    base value is between [Reputation_Bottom] and [Reputation_Cap]. *)
Theorem reputation_counters_correct
    (store : list (option FactionEntry)) (teams : Z → option (list Z))
    (spillover : Z → option RepSpilloverTemplate) (raceMask classMask guidLow : Z) (loading : bool)
    (rate : float) (hook : Z → Z → bool → Z)
    (rows : list (Z * Z * Z)) (os : list rep_op) (m0 : ReputationMgr) :
  valid_store store raceMask classMask → valid_rows store raceMask classMask rows →
  let m := run_ops store teams spillover raceMask classMask guidLow loading rate hook os
             (LoadFromDB store raceMask classMask loading (Some rows) m0).2 in
  let rank := rank_in raceMask classMask m in
  m_honoredFactionCount m = uwrap 8 (zcount (λ e, REP_HONORED <=? rank e) (ranked store)) ∧
  m_reveredFactionCount m = uwrap 8 (zcount (λ e, REP_REVERED <=? rank e) (ranked store)) ∧
  m_exaltedFactionCount m = uwrap 8 (zcount (λ e, REP_EXALTED <=? rank e) (ranked store)) ∧
  m_visibleFactionCount m = uwrap 8 (zcount (visible m) (ranked store)) ∧
  ∀ e, e ∈ ranked store →
    is_Some (m_factions m !! rep_key e) ∧
    Reputation_Bottom <= base raceMask classMask e + standing_of m e <= Reputation_Cap.
Proof.
  intros Hs Hr m rank.
  assert (consistent store raceMask classMask m) as [(P1 & _ & P3) (C1 & C2 & C3 & C4)].
  { apply run_ops_consistent; [done|]. by apply LoadFromDB_consistent. }
  split_and!; [done..|]. intros e He. split; [by apply P1|by apply P3].
Qed.

(** Three factions: one neutral and visible, one at war with a hostile base, one that is
    peaceful by force; and a row without reputation. *)
Definition demo_faction (id listID value flags : Z) : FactionEntry :=
  mkFactionEntry id listID [0; 0; 0; 0] [1535; 0; 0; 0] [value; 0; 0; 0] [flags; 0; 0; 0]
    0 (f_of_Z 0) (f_of_Z 0) 7.

Definition demo_store : list (option FactionEntry) :=
  [None; Some (demo_faction 1 0 0 17); None; Some (demo_faction 3 1 (-42000) 2);
   Some (demo_faction 4 5 3500 16); Some (demo_faction 5 (-1) 0 0)].

Lemma demo_valid : valid_store demo_store 1 1.
Proof.
  split; [done|]. split; [by_decide|]. split; [|by_decide].
  assert (∀ x, x ∈ demo_store → match x with Some e => in_s 32 (reputationListID e) | None => True end)
    as H.
  { apply Forall_forall. repeat constructor; vm_compute; done. }
  intros id e Hl. unfold LookupEntry in Hl. destruct (id <? 0); [done|].
  destruct (demo_store !! Z.to_nat id) as [x|] eqn:E; [|done]. simpl in Hl. subst x.
  by apply (H (Some e)), (list_elem_of_lookup_2 _ (Z.to_nat id)).
Qed.

Lemma demo_rows : valid_rows demo_store 1 1 [(1, 9500, 17); (4, 38000, 17)].
Proof.
  split; [|apply Forall_cons; split; [|apply Forall_singleton];
    intros e [= <-]; vm_compute; split; discriminate].
  simpl. constructor; [|apply NoDup_singleton]. by intros ?%list_elem_of_singleton.
Qed.

Lemma reputation_counters_correct_witness :
  let m := run_ops demo_store (λ _, None) (λ _, None) 1 1 7 false (f_of_Z 1) (λ _ s _, s)
             [OpSetReputation 1 12000 true; OpSetAtWar 0 true]
             (LoadFromDB demo_store 1 1 false (Some [(1, 9500, 17); (4, 38000, 17)]) new_mgr).2 in
  m_reveredFactionCount m = 2 ∧ m_exaltedFactionCount m = 0.
Proof.
  destruct (reputation_counters_correct demo_store (λ _, None) (λ _, None) 1 1 7 false (f_of_Z 1)
    (λ _ s _, s) [(1, 9500, 17); (4, 38000, 17)] [OpSetReputation 1 12000 true; OpSetAtWar 0 true]
    new_mgr demo_valid demo_rows) as (_ & H1 & H2 & _).
  split; [rewrite H1|rewrite H2]; vm_compute; reflexivity.
Defined.

(** [ReputationToRank] cuts the standings at the eight thresholds of the game and
    is monotone; what is outside the range of standings is hated or exalted. *)
Theorem reputation_rank_thresholds (s1 s2 : Z) :
  (s1 <= s2 → ReputationToRank s1 <= ReputationToRank s2) ∧
  (0 <= ReputationToRank s1 <= 7) ∧
  (42000 <= s1 ↔ ReputationToRank s1 = 7) ∧ (21000 <= s1 < 42000 ↔ ReputationToRank s1 = 6) ∧
  (9000 <= s1 < 21000 ↔ ReputationToRank s1 = 5) ∧ (3000 <= s1 < 9000 ↔ ReputationToRank s1 = 4) ∧
  (0 <= s1 < 3000 ↔ ReputationToRank s1 = 3) ∧ (-3000 <= s1 < 0 ↔ ReputationToRank s1 = 2) ∧
  (-6000 <= s1 < -3000 ↔ ReputationToRank s1 = 1) ∧ (s1 < -6000 ↔ ReputationToRank s1 = 0).
Proof. rewrite !ReputationToRank_unfold. repeat case_cmp; lia. Qed.

(** Setting a standing sets it: from any consistent state, an absolute
    [SetOneFactionReputation] of a ranked faction succeeds, the faction then has the
    requested standing cut to the range and the rank of it, and no other faction's
    standing changes. *)
Theorem set_one_reputation (store : list (option FactionEntry)) (raceMask classMask : Z)
    (loading : bool) (rate : float) (e : FactionEntry) (standing : Z) (m : ReputationMgr) :
  valid_store store raceMask classMask → consistent store raceMask classMask m → e ∈ ranked store →
  ∃ m', SetOneFactionReputation raceMask classMask loading rate e standing false m = (Ret true, m') ∧
    GetReputation raceMask classMask (Some e) m' = (Ret (clamp standing), m') ∧
    GetRank raceMask classMask (Some e) m' = (Ret (ReputationToRank (clamp standing)), m') ∧
    (∀ e', e' ∈ ranked store → e' ≠ e → standing_of m' e' = standing_of m e').
Proof.
  intros Hs Hm He.
  pose proof (SetOne_cases store raceMask classMask loading rate Hs e standing false m He Hm) as [E _].
  rewrite E by done.
  destruct (commit_standing_run store raceMask classMask loading Hs e (clamp standing) m He Hm)
    as (m' & E' & [(P1 & _ & P3) _] & Hst & Ho); [apply clamp_range|].
  assert (GetReputation raceMask classMask (Some e) m' = (Ret (clamp standing), m')) as Hg.
  { unfold GetReputation. erewrite bind_ret_run by done. unfold GetState, CanHaveReputation.
    destruct (key_ranked store raceMask classMask Hs e He) as [_ Hpos]. decide_cmp.
    destruct (P1 e He) as [st Hst']. rewrite Hst'. unfold standing_of in Hst. rewrite Hst' in Hst.
    rewrite Hst. fold (base raceMask classMask e).
    replace (base raceMask classMask e + (clamp standing - base raceMask classMask e))
      with (clamp standing) by lia.
    apply int32_run. pose proof (clamp_range standing). unfold Reputation_Bottom, Reputation_Cap in *. lia. }
  exists m'. split_and!; [exact E'|exact Hg| |exact Ho].
  unfold GetRank. by erewrite bind_ret_run by exact Hg.
Qed.

Lemma set_one_reputation_witness :
  ∃ m', SetOneFactionReputation 1 1 false (f_of_Z 1) (demo_faction 3 1 (-42000) 2) 50000 false
          (LoadFromDB demo_store 1 1 false None new_mgr).2 = (Ret true, m') ∧
        GetReputation 1 1 (Some (demo_faction 3 1 (-42000) 2)) m' = (Ret 42999, m').
Proof.
  destruct (set_one_reputation demo_store 1 1 false (f_of_Z 1) (demo_faction 3 1 (-42000) 2) 50000
    (LoadFromDB demo_store 1 1 false None new_mgr).2) as (m' & H1 & H2 & _).
  - apply demo_valid.
  - apply (LoadFromDB_consistent demo_store 1 1 false demo_valid None new_mgr). split; constructor.
  - apply list_elem_of_filter. split; [done|]. apply (list_elem_of_lookup_2 _ 1). reflexivity.
  - exists m'. split; [exact H1|exact H2].
Defined.

(** The reputation list the client gets at login is complete: when all list ids are
    below 128, the packet is the number 128 and then, for each of the 128 ids in
    order, the flags and the standing of the faction or zeros; nothing waits to be
    sent afterwards. *)
Theorem initial_reputations_packet (m : ReputationMgr) :
  (∀ k, is_Some (m_factions m !! k) → 0 <= k < 128) →
  ∃ m' data, SendInitialReputations m = (Ret tt, m') ∧
    effects m' = effects m ++ [SendDirectMessage SMSG_INITIALIZE_FACTIONS data] ∧
    _storage data = le_bytes 4 128 ++ (seqZ 0 128 ≫= λ i, entry_bytes (m_factions m !! i)) ∧
    (∀ k st, m_factions m' !! k = Some st → needSend st = false).
Proof.
  intros Hk. unfold SendInitialReputations. erewrite bind_ret_run by done.
  erewrite bind_ret_run by done. eexists _, _. split_and!; [done|done| |].
  - assert (writes (put_u32 128;; initial_loop 0 (sorted_elems (m_factions m)))
      (le_bytes 4 128 ++ (seqZ 0 128 ≫= λ i, entry_bytes (assoc i (sorted_elems (m_factions m))))))
      as Hw.
    { apply writes_seq; [apply append_writes|]. apply (initial_loop_writes _ 0); [lia| | |].
      - apply sorted_elems_sorted.
      - apply NoDup_fst_sorted_elems.
      - intros [k st] Hx%elem_of_sorted_elems. apply (Hk k). by eexists. }
    rewrite (packet_writes _ _ Hw).
    + cbn [_storage]. apply (f_equal (app (le_bytes 4 128))).
      apply list_bind_ext; [|done]. intros i. by rewrite assoc_lookup.
    + rewrite length_app, length_le_bytes.
      assert (∀ l, length (l ≫= λ i, entry_bytes (assoc i (sorted_elems (m_factions m)))) = (5 * length l)%nat) as ->.
      { induction l as [|i l IH]; [done|]. cbn [mbind list_bind]. rewrite length_app, IH.
        destruct (assoc _ _); simpl; lia. }
      rewrite length_seqZ. lia.
  - intros k st. simpl. rewrite lookup_fmap. intros (st' & _ & ->)%fmap_Some. done.
Qed.

Lemma initial_reputations_packet_witness :
  ∃ m' data, SendInitialReputations (LoadFromDB demo_store 1 1 false None new_mgr).2 = (Ret tt, m') ∧
    effects m' = [SendDirectMessage SMSG_INITIALIZE_FACTIONS data] ∧
    take 14 (_storage data) = [128; 0; 0; 0; 17; 0; 0; 0; 0; 2; 0; 0; 0; 0].
Proof.
  destruct (initial_reputations_packet (LoadFromDB demo_store 1 1 false None new_mgr).2)
    as (m' & data & H1 & H2 & H3 & _).
  - intros k Hk. assert (k = 0 ∨ k = 1 ∨ k = 5) as [-> | [-> | ->]]; [|lia..].
    revert Hk. change (m_factions _) with (<[5 := new_state 1 1 (demo_faction 4 5 3500 16)]>
      (<[1 := new_state 1 1 (demo_faction 3 1 (-42000) 2)]>
        (<[0 := new_state 1 1 (demo_faction 1 0 0 17)]> (∅ : gmap Z FactionState)))).
    rewrite !lookup_insert_is_Some', lookup_empty. intros [?|[?|[?|[? ?]]]]; auto; discriminate.
  - exists m', data. split_and!; [exact H1|exact H2|]. rewrite H3. vm_compute. reflexivity.
Defined.

(** [SendState] reports a faction and everything that waits to be sent, once: the
    count written over its placeholder is the number of pairs that follow, the pairs
    are the faction and the other states marked for sending, in the order of their
    ids, and no mark is left. *)
Theorem send_state_packet (m : ReputationMgr) (k : Z) (st : FactionState) :
  m_factions m !! k = Some st → Z.of_nat (base.size (m_factions m)) < 100000 →
  let others := also_sent (ReputationListID st) (sorted_elems (m_factions m)) in
  ∃ m' data, SendState k m = (Ret tt, m') ∧
    effects m' = effects m ++ [SendDirectMessage SMSG_SET_FACTION_STANDING data] ∧
    _storage data = (le_bytes 4 0 ++ le_bytes 1 0) ++ le_bytes 4 (1 + Z.of_nat (length others)) ++
      pairs_bytes ((ReputationListID st, uwrap 32 (Standing st)) :: others) ∧
    m_factions m' = with_needSend false <$> m_factions m.
Proof.
  intros Hk Hsize others. unfold SendState. erewrite bind_ret_run by by apply state_at_run.
  erewrite bind_ret_run by done. cbv zeta. erewrite bind_ret_run by done.
  eexists _, _. split_and!; [done|done| |done].
  rewrite state_packet; [done|]. fold others.
  pose proof (length_also_sent (ReputationListID st) (sorted_elems (m_factions m))) as Hl.
  rewrite length_sorted_elems in Hl. fold others in Hl. lia.
Qed.

Lemma send_state_packet_witness :
  ∃ m' data, SendState 1 (LoadFromDB demo_store 1 1 false None new_mgr).2 = (Ret tt, m') ∧
    effects m' = [SendDirectMessage SMSG_SET_FACTION_STANDING data] ∧
    take 9 (_storage data) = [0; 0; 0; 0; 0; 3; 0; 0; 0].
Proof.
  destruct (send_state_packet (LoadFromDB demo_store 1 1 false None new_mgr).2 1
    (new_state 1 1 (demo_faction 3 1 (-42000) 2))) as (m' & data & H1 & H2 & H3 & _).
  - vm_compute. reflexivity.
  - vm_compute. reflexivity.
  - exists m', data. split_and!; [exact H1|exact H2|]. rewrite H3. vm_compute. reflexivity.
Defined.
