(* ===== verification/Formulas.v ===== *)
(** * Formulas: experience and honor, src/src/server/game/Miscellaneous/Formulas.h

    Levels are [uint8]. Every formula ends in a script hook that may replace its
    result; the hooks are parameters, and the theorems are about a server whose
    scripts leave the results alone. *)

From Stdlib Require Import ZArith Lia.
From S2P Require Import Prelude Float32.
Local Open Scope Z_scope.

Inductive XPColorChar := XP_RED | XP_ORANGE | XP_YELLOW | XP_GREEN | XP_GRAY.

Inductive ContentLevels := CONTENT_1_60 | CONTENT_61_70 | CONTENT_71_80.

#[export] Instance XPColorChar_eq_dec : EqDecision XPColorChar.
Proof. solve_decision. Defined.

(** The hooks of [FormulaScript], which [ScriptMgr] applies in turn. *)
Record hooks := mkHooks {
  OnHonorCalculation : float → Z → float → float;
  OnGrayLevelCalculation : Z → Z → Z;
  OnColorCodeCalculation : XPColorChar → Z → Z → XPColorChar;
  OnZeroDifferenceCalculation : Z → Z → Z;
  OnBaseGainCalculation : Z → Z → Z → ContentLevels → Z;
  OnGainCalculation : Z → Z;
  OnGroupRateCalculation : float → Z → bool → float
}.

Definition no_scripts : hooks :=
  mkHooks (λ h _ _, h) (λ g _, g) (λ c _ _, c) (λ d _, d) (λ g _ _ _, g) (λ g, g) (λ r _ _, r).

(** The victim, as far as the formulas look at it. *)
Record Victim := mkVictim {
  is_creature : bool;
  isTotem : bool;
  isPet : bool;
  flags_extra : Z;
  creature_type : Z;
  isElite : bool;
  in_dungeon : bool;
  victim_level : Z;
  map_id : Z;
  zone_id : Z
}.

Definition CREATURE_FLAG_EXTRA_NO_XP_AT_KILL : Z := 0x40.
Definition CREATURE_TYPE_CRITTER : Z := 8.

Section Formulas.
Context (sScriptMgr : hooks).

(** ** Honor *)

Definition hk_honor_at_level_f (level : Z) (multiplier : float) : float :=
  let honor := f_mul (f_mul multiplier (f_of_Z level)) (f_lit 155 100) in
  OnHonorCalculation sScriptMgr honor level multiplier.

(** [None] where the conversion to [uint32] is undefined. *)
Definition hk_honor_at_level (level : Z) (multiplier : float) : option Z :=
  fits 0 (2 ^ 32) (f_ceil (hk_honor_at_level_f level multiplier)).

(** ** Experience *)

Definition GetGrayLevel (pl_level : Z) : Z :=
  let level :=
    uwrap 8
      (if pl_level <=? 5 then 0
       else if pl_level <=? 39 then pl_level - 5 - pl_level / 10
       else if pl_level <=? 59 then pl_level - 1 - pl_level / 5
       else pl_level - 9) in
  OnGrayLevelCalculation sScriptMgr level pl_level.

Definition GetColorCode (pl_level mob_level : Z) : XPColorChar :=
  let color :=
    if pl_level + 5 <=? mob_level then XP_RED
    else if pl_level + 3 <=? mob_level then XP_ORANGE
    else if pl_level - 2 <=? mob_level then XP_YELLOW
    else if GetGrayLevel pl_level <? mob_level then XP_GREEN
    else XP_GRAY in
  OnColorCodeCalculation sScriptMgr color pl_level mob_level.

Definition GetZeroDifference (pl_level : Z) : Z :=
  let diff :=
    if pl_level <? 8 then 5
    else if pl_level <? 10 then 6
    else if pl_level <? 12 then 7
    else if pl_level <? 16 then 8
    else if pl_level <? 20 then 9
    else if pl_level <? 30 then 11
    else if pl_level <? 40 then 12
    else if pl_level <? 45 then 13
    else if pl_level <? 50 then 14
    else if pl_level <? 55 then 15
    else if pl_level <? 60 then 16
    else 17 in
  OnZeroDifferenceCalculation sScriptMgr diff pl_level.

(** The products are [uint32]: an [int] operand is converted first. *)
Definition BaseGain (pl_level mob_level : Z) (content : ContentLevels) : Z :=
  let nBaseExp := match content with CONTENT_1_60 => 45 | CONTENT_61_70 => 235 | CONTENT_71_80 => 580 end in
  let baseGain :=
    if pl_level <=? mob_level then
      let nLevelDiff := uwrap 8 (mob_level - pl_level) in
      let nLevelDiff := if 4 <? nLevelDiff then 4 else nLevelDiff in
      uwrap 32 (uwrap 32 ((pl_level * 5 + nBaseExp) * (20 + nLevelDiff)) / 10 + 1) / 2
    else
      let gray_level := GetGrayLevel pl_level in
      if gray_level <? mob_level then
        let ZD := GetZeroDifference pl_level in
        uwrap 32 ((pl_level * 5 + nBaseExp) * uwrap 32 (ZD + mob_level - pl_level)) / ZD
      else 0 in
  OnBaseGainCalculation sScriptMgr baseGain pl_level mob_level content.

(** [GetContentLevelsForMapAndZone]: the virtual map of map and zone, and the expansion
    of a map, come from the DBC stores. *)
Context (GetVirtualMapForMapAndZone : Z → Z → Z).
Context (map_expansion : Z → option Z).

Definition GetContentLevelsForMapAndZone (mapid zoneId : Z) : ContentLevels :=
  let mapid := GetVirtualMapForMapAndZone mapid zoneId in
  if mapid <? 2 then CONTENT_1_60
  else
    match map_expansion mapid with
    | None => CONTENT_1_60
    | Some 1 => CONTENT_61_70
    | Some 2 => CONTENT_71_80
    | Some _ => CONTENT_1_60
    end.

(** [uint32(gain * 2.75)]: the product of a [uint32] and 2.75 is exact in a [double]. *)
Definition times_2_75 (gain : Z) : option Z := fits 0 (2 ^ 32) (Some (gain * 11 / 4)).

(** [None] where a conversion to [uint32] is undefined. *)
Definition Gain (rate_xp_kill : float) (player_level : Z) (u : Victim) : option Z :=
  gain ←
    (if is_creature u &&
        (isTotem u || isPet u || has_bits (flags_extra u) CREATURE_FLAG_EXTRA_NO_XP_AT_KILL
         || (creature_type u =? CREATURE_TYPE_CRITTER))
     then Some 0
     else
       let gain := BaseGain player_level (victim_level u)
                     (GetContentLevelsForMapAndZone (map_id u) (zone_id u)) in
       gain ← (if negb (gain =? 0) && is_creature u && isElite u
               then if in_dungeon u then times_2_75 gain else Some (uwrap 32 (gain * 2))
               else Some gain);
       fits 0 (2 ^ 32) (f_trunc (f_mul (f_of_Z gain) rate_xp_kill)));
  Some (OnGainCalculation sScriptMgr gain).

Definition xp_in_group_rate (count : Z) (isRaid : bool) : float :=
  let rate :=
    if isRaid then f_of_Z 1
    else
      match count with
      | 0 | 1 | 2 => f_of_Z 1
      | 3 => f_lit 1166 1000
      | 4 => f_lit 13 10
      | _ => f_lit 14 10
      end in
  OnGroupRateCalculation sScriptMgr rate count isRaid.

End Formulas.

(** ** Facts about the levels *)

Fixpoint forall_below (n : nat) (p : Z → bool) : bool :=
  match n with O => true | S n => p (Z.of_nat n) && forall_below n p end.

Lemma forall_below_spec n p : forall_below n p = true → ∀ z, 0 <= z < Z.of_nat n → p z = true.
Proof.
  induction n as [|n IH]; intros H z Hz; [lia|]. simpl in H. apply andb_prop in H as [H1 H2].
  destruct (decide (z = Z.of_nat n)) as [->|]; [done|]. apply IH; [done|lia].
Qed.

Abbreviation gray := (GetGrayLevel no_scripts).
Abbreviation zero_difference := (GetZeroDifference no_scripts).

(** What ties the two tables together: above the gray level the difference to the
    player's level is below the zero difference. *)
Definition tables_fit (pl : Z) : bool :=
  (0 <=? gray pl) && (gray pl <? Z.max 1 (pl - 2)) && (pl - gray pl <=? zero_difference pl) &&
  (5 <=? zero_difference pl) && (zero_difference pl <=? 17).

Lemma tables_checked : forall_below 256 tables_fit = true.
Proof. vm_compute. reflexivity. Qed.

Lemma tables pl : in_u 8 pl →
  0 <= gray pl < Z.max 1 (pl - 2) ∧ pl - gray pl <= zero_difference pl ∧ 5 <= zero_difference pl <= 17.
Proof.
  intros Hp. pose proof (forall_below_spec 256 _ tables_checked pl Hp) as H.
  unfold tables_fit in H. rewrite !andb_true_iff, !Z.leb_le, Z.ltb_lt in H. lia.
Qed.

Definition base_exp (c : ContentLevels) : Z :=
  match c with CONTENT_1_60 => 45 | CONTENT_61_70 => 235 | CONTENT_71_80 => 580 end.

Lemma base_exp_range c : 45 <= base_exp c <= 580.
Proof. destruct c; simpl; lia. Qed.

(** The gain without wrap-around. *)
Lemma BaseGain_val pl mob c : in_u 8 pl → in_u 8 mob →
  BaseGain no_scripts pl mob c =
    if pl <=? mob then ((pl * 5 + base_exp c) * (20 + Z.min 4 (mob - pl)) / 10 + 1) / 2
    else if gray pl <? mob
    then (pl * 5 + base_exp c) * (zero_difference pl + mob - pl) / zero_difference pl else 0.
Proof.
  intros Hp Hm. pose proof (tables pl Hp) as (Hg & Hz & Hr). pose proof (base_exp_range c) as Hb.
  unfold BaseGain. cbn [OnBaseGainCalculation no_scripts]. fold (base_exp c).
  unfold in_u in *. change (2 ^ 8) with 256 in *.
  destruct (Z.leb_spec pl mob).
  - rewrite (uwrap_small 8) by (unfold in_u; lia).
    replace (if 4 <? mob - pl then 4 else mob - pl) with (Z.min 4 (mob - pl)) by (case_cmp; lia).
    assert (0 <= (pl * 5 + base_exp c) * (20 + Z.min 4 (mob - pl)) < 2 ^ 31) by nia.
    rewrite (uwrap_small 32 (_ * _)) by (unfold in_u; lia).
    rewrite uwrap_small; [done|]. unfold in_u. div_lia.
  - destruct (Z.ltb_spec (gray pl) mob); [|done].
    rewrite (uwrap_small 32 (zero_difference pl + mob - pl)) by (unfold in_u; lia).
    rewrite uwrap_small; [done|]. unfold in_u. nia.
Qed.

Lemma BaseGain_range pl mob c : in_u 8 pl → in_u 8 mob →
  0 <= BaseGain no_scripts pl mob c < 2300 ∧
  (1 <= BaseGain no_scripts pl mob c ↔ pl <= mob ∨ gray pl < mob).
Proof.
  intros Hp Hm. rewrite BaseGain_val by done.
  pose proof (tables pl Hp) as (Hg & Hz & Hr). pose proof (base_exp_range c) as Hb.
  unfold in_u in *. change (2 ^ 8) with 256 in *.
  destruct (Z.leb_spec pl mob).
  - set (x := (pl * 5 + base_exp c) * (20 + Z.min 4 (mob - pl))).
    assert (900 <= x < 45000) as Hx by (subst x; nia).
    assert (1 <= (x / 10 + 1) / 2 < 2300) as Hgain by div_lia. lia.
  - destruct (Z.ltb_spec (gray pl) mob); [|lia].
    set (z := zero_difference pl) in *.
    assert (1 <= (pl * 5 + base_exp c) * (z + mob - pl) / z < 2300) as Hgain.
    { split; [apply Z.div_le_lower_bound; nia|apply Z.div_lt_upper_bound; nia]. }
    lia.
Qed.

(** ** Properties *)

(** C40. Experience and colour agree: without scripts, a victim of level 1 or more gives
    no base experience exactly when the client shows it gray; nothing wraps, and the
    gain is below 2300 at every level. *)
Theorem no_gain_iff_gray (pl mob : Z) (c : ContentLevels) :
  in_u 8 pl → in_u 8 mob → 1 <= mob →
  (BaseGain no_scripts pl mob c = 0 ↔ GetColorCode no_scripts pl mob = XP_GRAY) ∧
  0 <= BaseGain no_scripts pl mob c < 2300.
Proof.
  intros Hp Hm H1. pose proof (BaseGain_range pl mob c Hp Hm) as [Hr Hpos]. split; [|done].
  pose proof (tables pl Hp) as (Hg & Hz & _).
  assert (GetColorCode no_scripts pl mob = XP_GRAY ↔ ¬ (pl <= mob ∨ gray pl < mob)) as ->; [|lia].
  unfold GetColorCode. cbn [OnColorCodeCalculation no_scripts].
  repeat case_cmp; (split; [done|lia]) || (split; [lia|done]).
Qed.

Lemma no_gain_iff_gray_witness :
  BaseGain no_scripts 80 71 CONTENT_71_80 = 0 ∧ GetColorCode no_scripts 80 71 = XP_GRAY ∧
  BaseGain no_scripts 80 72 CONTENT_71_80 ≠ 0.
Proof.
  destruct (no_gain_iff_gray 80 71 CONTENT_71_80) as [[_ H1] _]; [unfold in_u; lia..|].
  destruct (no_gain_iff_gray 80 72 CONTENT_71_80) as [[H2 _] _]; [unfold in_u; lia..|].
  split; [by apply H1|]. split; [done|]. intros H. by apply H2 in H.
Defined.

(** A stronger victim never gives less base experience. *)
Theorem base_gain_monotone (pl mob1 mob2 : Z) (c : ContentLevels) :
  in_u 8 pl → in_u 8 mob1 → in_u 8 mob2 → mob1 <= mob2 →
  BaseGain no_scripts pl mob1 c <= BaseGain no_scripts pl mob2 c.
Proof.
  intros Hp H1 H2 Hle. rewrite !BaseGain_val by done.
  pose proof (tables pl Hp) as (Hg & Hz & Hr). pose proof (base_exp_range c) as Hb.
  unfold in_u in *. change (2 ^ 8) with 256 in *.
  set (b := pl * 5 + base_exp c). assert (45 <= b) by (subst b; lia).
  set (z := zero_difference pl) in *.
  destruct (Z.leb_spec pl mob2).
  - assert (b <= (b * (20 + Z.min 4 (mob2 - pl)) / 10 + 1) / 2) as Hb2.
    { assert (b * 20 <= b * (20 + Z.min 4 (mob2 - pl))) by nia. div_lia. }
    destruct (Z.leb_spec pl mob1).
    + assert (b * (20 + Z.min 4 (mob1 - pl)) <= b * (20 + Z.min 4 (mob2 - pl))) by nia.
      apply Z.div_le_mono; [lia|]. apply Z.add_le_mono_r. by apply Z.div_le_mono.
    + destruct (Z.ltb_spec (gray pl) mob1); [|lia].
      etransitivity; [|exact Hb2]. apply Z.div_le_upper_bound; nia.
  - rewrite (proj2 (Z.leb_gt pl mob1)) by lia.
    destruct (Z.ltb_spec (gray pl) mob1).
    + decide_cmp. apply Z.div_le_mono; nia.
    + case_cmp; [|done]. apply Z.div_pos; nia.
Qed.

(** The experience of a kill: nothing for totems, pets, critters and creatures
    flagged to give none; for others the base gain, an elite creature's doubled or,
    inside a dungeon, times 2.75 rounded down, and this converted by the rate. *)
Theorem kill_gain (vmap : Z → Z → Z) (expansion : Z → option Z) (rate : float) (pl : Z) (u : Victim) :
  in_u 8 pl → in_u 8 (victim_level u) →
  let base := BaseGain no_scripts pl (victim_level u)
                (GetContentLevelsForMapAndZone vmap expansion (map_id u) (zone_id u)) in
  let excluded := is_creature u && (isTotem u || isPet u ||
     Z.testbit (flags_extra u) 6 || (creature_type u =? 8)) in
  let elite := is_creature u && isElite u in
  Gain no_scripts vmap expansion rate pl u =
    if excluded then Some 0
    else f_to_u32 (f_mul (f_of_Z (if elite then if in_dungeon u then base * 11 / 4 else base * 2
                                  else base)) rate).
Proof.
  intros Hp Hm base excluded elite.
  pose proof (BaseGain_range pl (victim_level u)
    (GetContentLevelsForMapAndZone vmap expansion (map_id u) (zone_id u)) Hp Hm) as Hb.
  fold base in Hb. unfold Gain. cbn [OnGainCalculation no_scripts]. fold base.
  change CREATURE_FLAG_EXTRA_NO_XP_AT_KILL with (2 ^ 6). rewrite has_bits_pow2 by lia.
  change CREATURE_TYPE_CRITTER with 8. fold excluded. destruct excluded; [done|].
  assert ((if negb (base =? 0) && is_creature u && isElite u
      then if in_dungeon u then times_2_75 base else Some (uwrap 32 (base * 2)) else Some base) =
    Some (if elite then if in_dungeon u then base * 11 / 4 else base * 2 else base)) as ->.
  { subst elite. rewrite <- andb_assoc. destruct (is_creature u && isElite u); [|by rewrite andb_false_r].
    rewrite andb_true_r. destruct (Z.eqb_spec base 0) as [E|]; cbn [negb].
    - rewrite E. by destruct (in_dungeon u).
    - destruct (in_dungeon u).
      + unfold times_2_75, fits. cbn [mbind option_bind]. set (x := base * 11 / 4).
        assert (0 <= x < 2 ^ 32) by (subst x; div_lia). decide_cmp. done.
      + rewrite uwrap_small; [done|]. unfold in_u. lia. }
  unfold f_to_u32. cbn [mbind option_bind]. by destruct (fits 0 (2 ^ 32) _).
Qed.

Lemma kill_gain_witness :
  Gain no_scripts (λ m _, m) (λ _, Some 2) (f_of_Z 1) 80
    (mkVictim true false false 0 7 true true 80 571 0) = Some 2695.
Proof.
  etransitivity.
  - apply (kill_gain (λ m _, m) (λ _, Some 2) (f_of_Z 1) 80
      (mkVictim true false false 0 7 true true 80 571 0)); unfold in_u; simpl; lia.
  - vm_compute. reflexivity.
Defined.
