(* ===== verification/Channel.v ===== *)
(** * Channel: src/src/server/game/Chat/Channels/Channel.h, .cpp

    A chat channel: its members and their flags, its owner, password and ban list, the
    commands of the members, the packets they cause and what is saved. *)

From Stdlib Require Import ZArith Lia.
From S2P Require Import Prelude ByteBuffer Guid Util.
Local Open Scope Z_scope.

Definition CHAT_JOINED_NOTICE : Z := 0x00.
Definition CHAT_LEFT_NOTICE : Z := 0x01.
Definition CHAT_YOU_JOINED_NOTICE : Z := 0x02.
Definition CHAT_YOU_LEFT_NOTICE : Z := 0x03.
Definition CHAT_WRONG_PASSWORD_NOTICE : Z := 0x04.
Definition CHAT_NOT_MEMBER_NOTICE : Z := 0x05.
Definition CHAT_NOT_MODERATOR_NOTICE : Z := 0x06.
Definition CHAT_PASSWORD_CHANGED_NOTICE : Z := 0x07.
Definition CHAT_OWNER_CHANGED_NOTICE : Z := 0x08.
Definition CHAT_PLAYER_NOT_FOUND_NOTICE : Z := 0x09.
Definition CHAT_NOT_OWNER_NOTICE : Z := 0x0A.
Definition CHAT_CHANNEL_OWNER_NOTICE : Z := 0x0B.
Definition CHAT_MODE_CHANGE_NOTICE : Z := 0x0C.
Definition CHAT_ANNOUNCEMENTS_ON_NOTICE : Z := 0x0D.
Definition CHAT_ANNOUNCEMENTS_OFF_NOTICE : Z := 0x0E.
Definition CHAT_MUTED_NOTICE : Z := 0x11.
Definition CHAT_PLAYER_KICKED_NOTICE : Z := 0x12.
Definition CHAT_BANNED_NOTICE : Z := 0x13.
Definition CHAT_PLAYER_BANNED_NOTICE : Z := 0x14.
Definition CHAT_PLAYER_UNBANNED_NOTICE : Z := 0x15.
Definition CHAT_PLAYER_NOT_BANNED_NOTICE : Z := 0x16.
Definition CHAT_PLAYER_ALREADY_MEMBER_NOTICE : Z := 0x17.
Definition CHAT_INVITE_NOTICE : Z := 0x18.
Definition CHAT_INVITE_WRONG_FACTION_NOTICE : Z := 0x19.
Definition CHAT_WRONG_FACTION_NOTICE : Z := 0x1A.
Definition CHAT_INVALID_NAME_NOTICE : Z := 0x1B.
Definition CHAT_NOT_MODERATED_NOTICE : Z := 0x1C.
Definition CHAT_PLAYER_INVITED_NOTICE : Z := 0x1D.
Definition CHAT_PLAYER_INVITE_BANNED_NOTICE : Z := 0x1E.
Definition CHAT_THROTTLED_NOTICE : Z := 0x1F.
Definition CHAT_NOT_IN_AREA_NOTICE : Z := 0x20.
Definition CHAT_NOT_IN_LFG_NOTICE : Z := 0x21.
Definition CHAT_VOICE_ON_NOTICE : Z := 0x22.
Definition CHAT_VOICE_OFF_NOTICE : Z := 0x23.

Definition CHANNEL_FLAG_CUSTOM : Z := 0x01.
Definition CHANNEL_FLAG_TRADE : Z := 0x04.
Definition CHANNEL_FLAG_NOT_LFG : Z := 0x08.
Definition CHANNEL_FLAG_GENERAL : Z := 0x10.
Definition CHANNEL_FLAG_CITY : Z := 0x20.
Definition CHANNEL_FLAG_LFG : Z := 0x40.

Definition CHANNEL_DBC_FLAG_TRADE : Z := 0x00008.
Definition CHANNEL_DBC_FLAG_CITY_ONLY2 : Z := 0x00020.
Definition CHANNEL_DBC_FLAG_LFG : Z := 0x40000.

Definition MEMBER_FLAG_OWNER : Z := 0x01.
Definition MEMBER_FLAG_MODERATOR : Z := 0x02.
Definition MEMBER_FLAG_MUTED : Z := 0x08.

Definition CHAT_MSG_CHANNEL : Z := 0x11.
Definition LANG_UNIVERSAL : Z := 0.

(** [AccountMgr::IsPlayerAccount] and [IsGMAccount]. *)
Definition IsPlayerAccount (gmlevel : Z) : bool := gmlevel <=? 1.
Definition IsGMAccount (gmlevel : Z) : bool := (1 <? gmlevel) && (gmlevel <? 4).

(** ** Members *)

Record PlayerInfo := mkInfo { player : Z; flags : Z }.

(** The element [operator[]] of a [std::map] creates. *)
Definition no_info : PlayerInfo := mkInfo 0 0.

Definition set_flag (flag : Z) (state : bool) (i : PlayerInfo) : PlayerInfo :=
  mkInfo (player i) (if state then Z.lor (flags i) flag else Z.land (flags i) (Z.lnot flag)).

Definition IsOwner (i : PlayerInfo) : bool := has_bits (flags i) MEMBER_FLAG_OWNER.
Definition IsModerator (i : PlayerInfo) : bool := has_bits (flags i) MEMBER_FLAG_MODERATOR.
Definition IsMuted (i : PlayerInfo) : bool := has_bits (flags i) MEMBER_FLAG_MUTED.
Definition info_SetOwner := set_flag MEMBER_FLAG_OWNER.
Definition info_SetModerator := set_flag MEMBER_FLAG_MODERATOR.
Definition info_SetMuted := set_flag MEMBER_FLAG_MUTED.

(** ** State *)

Record Channel := mkChannel {
  players : gmap Z PlayerInfo;
  banned : gset Z;
  m_announce : bool;
  m_ownership : bool;
  m_name : list Z;
  m_password : list Z;
  m_flags : Z;
  m_channelId : Z;
  m_ownerGUID : Z;
  m_IsSaved : bool;
  m_Team : Z
}.

Inductive opcode := SMSG_CHANNEL_NOTIFY | SMSG_CHANNEL_LIST | SMSG_MESSAGECHAT
| SMSG_USERLIST_ADD | SMSG_USERLIST_UPDATE | SMSG_USERLIST_REMOVE | SMSG_CHANNEL_MEMBER_COUNT.

Record WorldPacket := mkPacket { op : opcode; data : ByteBuffer }.

(** A packet to the session of a player, or a statement of the character database. *)
Inductive effect :=
| SendPacket (to : Z) (p : WorldPacket)
| UpdateChannel (announce ownership : bool) (password banlist name : list Z) (team : Z)
| UpdateUsage (name : list Z) (team : Z)
| InsertChannel (name : list Z) (team : Z)
| DeleteOldChannels (seconds : Z).

(** The channel, the channel lists of the players, and the effects so far. *)
Record World := mkWorld {
  chan : Channel;
  m_channels : gmap Z (list Z);
  effects : list effect
}.

Abbreviation cp := (prog World fault).

Definition with_chan (c : Channel) (w : World) : World := mkWorld c (m_channels w) (effects w).
Definition with_lists (l : gmap Z (list Z)) (w : World) : World := mkWorld (chan w) l (effects w).
Definition with_effect (e : effect) (w : World) : World :=
  mkWorld (chan w) (m_channels w) (effects w ++ [e]).

Definition with_players (ps : gmap Z PlayerInfo) (c : Channel) : Channel :=
  mkChannel ps (banned c) (m_announce c) (m_ownership c) (m_name c) (m_password c) (m_flags c)
    (m_channelId c) (m_ownerGUID c) (m_IsSaved c) (m_Team c).
Definition with_banned (b : gset Z) (c : Channel) : Channel :=
  mkChannel (players c) b (m_announce c) (m_ownership c) (m_name c) (m_password c) (m_flags c)
    (m_channelId c) (m_ownerGUID c) (m_IsSaved c) (m_Team c).
Definition with_announce (a : bool) (c : Channel) : Channel :=
  mkChannel (players c) (banned c) a (m_ownership c) (m_name c) (m_password c) (m_flags c)
    (m_channelId c) (m_ownerGUID c) (m_IsSaved c) (m_Team c).
Definition with_password (p : list Z) (c : Channel) : Channel :=
  mkChannel (players c) (banned c) (m_announce c) (m_ownership c) (m_name c) p (m_flags c)
    (m_channelId c) (m_ownerGUID c) (m_IsSaved c) (m_Team c).
Definition with_ownership (o : bool) (c : Channel) : Channel :=
  mkChannel (players c) (banned c) (m_announce c) o (m_name c) (m_password c) (m_flags c)
    (m_channelId c) (m_ownerGUID c) (m_IsSaved c) (m_Team c).
Definition with_owner (g : Z) (c : Channel) : Channel :=
  mkChannel (players c) (banned c) (m_announce c) (m_ownership c) (m_name c) (m_password c) (m_flags c)
    (m_channelId c) g (m_IsSaved c) (m_Team c).

Definition upd (f : Channel → Channel) : cp unit := modify (λ w, with_chan (f (chan w)) w).
Definition get {A} (f : Channel → A) : cp A := gets (λ w, f (chan w)).
Definition emit (e : effect) : cp unit := modify (with_effect e).

Definition SetPassword (npassword : list Z) : cp unit := upd (with_password npassword).
Definition SetAnnounce (nannounce : bool) : cp unit := upd (with_announce nannounce).
Definition SetOwnership (ownership : bool) : cp unit := upd (with_ownership ownership).

(** A player with a session; [in_world] once it has entered the world. *)
Record Online := mkOnline {
  name : list Z;
  security : Z;
  team : Z;
  in_world : bool;
  in_group : bool;
  ignores : gset Z;
  chat_tag : Z
}.

(** The server around the channel: the sessions, the configuration, and the stores. *)
Record Env := mkEnv {
  online : gmap Z Online;
  CONFIG_RESTRICTED_LFG_CHANNEL : bool;
  CONFIG_SILENTLY_GM_JOIN_TO_CHANNEL : bool;
  CONFIG_ALLOW_TWO_SIDE_INTERACTION_CHANNEL : bool;
  CONFIG_PRESERVE_CUSTOM_CHANNELS : bool;
  CONFIG_PRESERVE_CUSTOM_CHANNEL_DURATION : Z;
  CONFIG_GM_LEVEL_IN_WHO_LIST : Z;
  ChatChannels_flags : Z → option Z;
  PlayerNameByGUID : Z → option (list Z);
  IsVisibleGloballyFor : Z → Z → bool
}.

Section Channel.
Context (E : Env).
(** The channel object itself. *)
Context (this : Z).

Definition FindPlayer (guid : Z) : option Online :=
  o ← online E !! guid; if in_world o then Some o else None.

(** The first session whose player has the name. *)
Definition FindPlayerByName (n : list Z) : option (Z * Online) :=
  head (filter (λ x, name x.2 = n) (map_to_list (online E))).

Definition security_of (o : option Online) : Z :=
  match o with Some o => security o | None => 0 end.

(** ** Queries *)

Definition IsConstant (c : Channel) : bool := negb (m_channelId c =? 0).
Definition IsOn (who : Z) (c : Channel) : bool := bool_decide (is_Some (players c !! who)).
Definition IsBanned (guid : Z) (c : Channel) : bool := bool_decide (guid ∈ banned c).
Definition HasFlag (flag : Z) (c : Channel) : bool := has_bits (m_flags c) flag.
Definition IsLFG (c : Channel) : bool := HasFlag CHANNEL_FLAG_LFG c.
Definition GetNumPlayers (c : Channel) : Z := uwrap 32 (Z.of_nat (base.size (players c))).

Definition GetPlayerFlags (p : Z) (c : Channel) : Z :=
  match players c !! p with Some i => flags i | None => 0 end.

(** [players[p]]: the element, created when it is missing. *)
Definition at_player (p : Z) : cp PlayerInfo :=
  i ← get (λ c, players c !! p);
  match i with
  | Some i => mret i
  | None => upd (λ c, with_players (<[p := no_info]> (players c)) c);; mret no_info
  end.

(** A member function on [players[p]]. *)
Definition on_player (p : Z) (g : PlayerInfo → PlayerInfo) : cp unit :=
  i ← at_player p; upd (λ c, with_players (<[p := g i]> (players c)) c).

(** ** Sending *)

Definition SendToOne (pkt : WorldPacket) (who : Z) : cp unit :=
  match FindPlayer who with Some _ => emit (SendPacket who pkt) | None => mret tt end.

Fixpoint send_each (to : list Z) (pkt : WorldPacket) : cp unit :=
  match to with [] => mret tt | g :: to => SendToOne pkt g;; send_each to pkt end.

Definition HasIgnore (o : option Online) (low : Z) : bool :=
  match o with Some o => bool_decide (low ∈ ignores o) | None => false end.

(** [p] is the speaker members may ignore, 0 for none. *)
Definition SendToAll (pkt : WorldPacket) (p : Z) : cp unit :=
  ps ← get players;
  send_each (filter (λ g, (p =? 0) || negb (HasIgnore (FindPlayer g) (GUID_LOPART p)))
    (sorted_elems ps).*1) pkt.

Definition SendToAllButOne (pkt : WorldPacket) (who : Z) : cp unit :=
  ps ← get players;
  send_each (filter (λ g, g ≠ who) (sorted_elems ps).*1) pkt.

(** ** Packets *)

Definition build (o : opcode) (p : bb unit) : WorldPacket := mkPacket o (p empty_buffer).2.

Definition MakeNotifyPacket (notify_type : Z) (rest : bb unit) (c : Channel) : WorldPacket :=
  build SMSG_CHANNEL_NOTIFY (put_u8 notify_type;; put_string (m_name c);; rest).

Definition MakeJoined (guid : Z) := MakeNotifyPacket CHAT_JOINED_NOTICE (put_u64 guid).
Definition MakeLeft (guid : Z) := MakeNotifyPacket CHAT_LEFT_NOTICE (put_u64 guid).
Definition MakeYouJoined (c : Channel) :=
  MakeNotifyPacket CHAT_YOU_JOINED_NOTICE
    (put_u8 (m_flags c);; put_u32 (m_channelId c);; put_u32 0) c.
Definition MakeYouLeft (c : Channel) :=
  MakeNotifyPacket CHAT_YOU_LEFT_NOTICE
    (put_u32 (m_channelId c);; put_u8 (Z.b2z (IsConstant c))) c.
Definition MakeWrongPassword := MakeNotifyPacket CHAT_WRONG_PASSWORD_NOTICE (mret tt).
Definition MakeNotMember := MakeNotifyPacket CHAT_NOT_MEMBER_NOTICE (mret tt).
Definition MakeNotModerator := MakeNotifyPacket CHAT_NOT_MODERATOR_NOTICE (mret tt).
Definition MakePasswordChanged (guid : Z) :=
  MakeNotifyPacket CHAT_PASSWORD_CHANGED_NOTICE (put_u64 guid).
Definition MakeOwnerChanged (guid : Z) := MakeNotifyPacket CHAT_OWNER_CHANGED_NOTICE (put_u64 guid).
Definition MakePlayerNotFound (n : list Z) :=
  MakeNotifyPacket CHAT_PLAYER_NOT_FOUND_NOTICE (put_string n).
Definition MakeNotOwner := MakeNotifyPacket CHAT_NOT_OWNER_NOTICE (mret tt).

Definition str_PLAYER_NOT_FOUND : list Z := [80; 76; 65; 89; 69; 82; 95; 78; 79; 84; 95; 70; 79; 85; 78; 68].
Definition str_Nobody : list Z := [78; 111; 98; 111; 100; 121].

Definition MakeChannelOwner (c : Channel) :=
  let n := match PlayerNameByGUID E (m_ownerGUID c) with
           | None | Some [] => str_PLAYER_NOT_FOUND
           | Some n => n
           end in
  MakeNotifyPacket CHAT_CHANNEL_OWNER_NOTICE
    (put_string (if IsConstant c || (m_ownerGUID c =? 0) then str_Nobody else n)) c.

Definition MakeModeChange (guid oldflags : Z) (c : Channel) :=
  MakeNotifyPacket CHAT_MODE_CHANGE_NOTICE
    (put_u64 guid;; put_u8 oldflags;; put_u8 (GetPlayerFlags guid c)) c.
Definition MakeAnnouncementsOn (guid : Z) :=
  MakeNotifyPacket CHAT_ANNOUNCEMENTS_ON_NOTICE (put_u64 guid).
Definition MakeAnnouncementsOff (guid : Z) :=
  MakeNotifyPacket CHAT_ANNOUNCEMENTS_OFF_NOTICE (put_u64 guid).
Definition MakeMuted := MakeNotifyPacket CHAT_MUTED_NOTICE (mret tt).
Definition MakePlayerKicked (bad good : Z) :=
  MakeNotifyPacket CHAT_PLAYER_KICKED_NOTICE (put_u64 bad;; put_u64 good).
Definition MakeBanned := MakeNotifyPacket CHAT_BANNED_NOTICE (mret tt).
Definition MakePlayerBanned (bad good : Z) :=
  MakeNotifyPacket CHAT_PLAYER_BANNED_NOTICE (put_u64 bad;; put_u64 good).
Definition MakePlayerUnbanned (bad good : Z) :=
  MakeNotifyPacket CHAT_PLAYER_UNBANNED_NOTICE (put_u64 bad;; put_u64 good).
Definition MakePlayerNotBanned (n : list Z) :=
  MakeNotifyPacket CHAT_PLAYER_NOT_BANNED_NOTICE (put_string n).
Definition MakePlayerAlreadyMember (guid : Z) :=
  MakeNotifyPacket CHAT_PLAYER_ALREADY_MEMBER_NOTICE (put_u64 guid).
Definition MakeInvite (guid : Z) := MakeNotifyPacket CHAT_INVITE_NOTICE (put_u64 guid).
Definition MakeInviteWrongFaction := MakeNotifyPacket CHAT_INVITE_WRONG_FACTION_NOTICE (mret tt).
Definition MakeWrongFaction := MakeNotifyPacket CHAT_WRONG_FACTION_NOTICE (mret tt).
Definition MakeInvalidName := MakeNotifyPacket CHAT_INVALID_NAME_NOTICE (mret tt).
Definition MakeNotModerated := MakeNotifyPacket CHAT_NOT_MODERATED_NOTICE (mret tt).
Definition MakePlayerInvited (n : list Z) :=
  MakeNotifyPacket CHAT_PLAYER_INVITED_NOTICE (put_string n).
Definition MakePlayerInviteBanned (n : list Z) :=
  MakeNotifyPacket CHAT_PLAYER_INVITE_BANNED_NOTICE (put_string n).
Definition MakeThrottled := MakeNotifyPacket CHAT_THROTTLED_NOTICE (mret tt).
Definition MakeNotInArea := MakeNotifyPacket CHAT_NOT_IN_AREA_NOTICE (mret tt).
Definition MakeNotInLfg := MakeNotifyPacket CHAT_NOT_IN_LFG_NOTICE (mret tt).
Definition MakeVoiceOn (guid : Z) := MakeNotifyPacket CHAT_VOICE_ON_NOTICE (put_u64 guid).
Definition MakeVoiceOff (guid : Z) := MakeNotifyPacket CHAT_VOICE_OFF_NOTICE (put_u64 guid).

(** A packet made from the channel and sent. *)
Definition tell (who : Z) (make : Channel → WorldPacket) : cp unit :=
  pkt ← get make; SendToOne pkt who.
Definition tell_all (make : Channel → WorldPacket) : cp unit :=
  pkt ← get make; SendToAll pkt 0.

(** ** Database *)

Definition ban_list (c : Channel) : list Z :=
  (sorted_elems (gset_to_gmap tt (banned c))).*1 ≫= λ g, print_u64 g ++ [space].

Definition UpdateChannelInDB : cp unit :=
  c ← get id;
  if m_IsSaved c
  then emit (UpdateChannel (m_announce c) (m_ownership c) (m_password c) (ban_list c) (m_name c) (m_Team c))
  else mret tt.

Definition UpdateChannelUseageInDB : cp unit :=
  c ← get id; emit (UpdateUsage (m_name c) (m_Team c)).

(** [None] when the duration is 0: nothing is done. *)
Definition CleanOldChannelsInDB : option effect :=
  let d := CONFIG_PRESERVE_CUSTOM_CHANNEL_DURATION E in
  if 0 <? d then Some (DeleteOldChannels (uwrap 32 (d * 86400))) else None.

(** The GUIDs of the text of a ban list; 0 is not a GUID. *)
Definition parse_ban_list (text : list Z) : option (gset Z) :=
  gs ← mapM atol (Tokens text space);
  Some (list_to_set (filter (λ g, g ≠ 0) (uwrap 64 <$> gs))).

(** A row of the [channels] table: announce, ownership, password and ban list. *)
Definition ChannelRow : Type := bool * bool * list Z * option (list Z).

(** The constructor, with the row of the name and team if there is one: the channel and
    the statements executed. [None] if a banned GUID overflows [long]. *)
Definition new_Channel (n : list Z) (channel_id Team : Z) (row : option ChannelRow)
    : option (Channel * list effect) :=
  match ChatChannels_flags E channel_id with
  | Some dbc =>
    let f := CHANNEL_FLAG_GENERAL in
    let f := if has_bits dbc CHANNEL_DBC_FLAG_TRADE then Z.lor f CHANNEL_FLAG_TRADE else f in
    let f := if has_bits dbc CHANNEL_DBC_FLAG_CITY_ONLY2 then Z.lor f CHANNEL_FLAG_CITY else f in
    let f := if has_bits dbc CHANNEL_DBC_FLAG_LFG then Z.lor f CHANNEL_FLAG_LFG
             else Z.lor f CHANNEL_FLAG_NOT_LFG in
    Some (mkChannel ∅ ∅ false false n [] f channel_id 0 false Team, [])
  | None =>
    if CONFIG_PRESERVE_CUSTOM_CHANNELS E then
      match row with
      | Some (announce, ownership, password, db_BannedList) =>
        b ← match db_BannedList with None => Some ∅ | Some text => parse_ban_list text end;
        Some (mkChannel ∅ b announce ownership n password CHANNEL_FLAG_CUSTOM channel_id 0 true Team, [])
      | None =>
        Some (mkChannel ∅ ∅ true true n [] CHANNEL_FLAG_CUSTOM channel_id 0 true Team,
              [InsertChannel n Team])
      end
    else Some (mkChannel ∅ ∅ true true n [] CHANNEL_FLAG_CUSTOM channel_id 0 false Team, [])
  end.

(** ** Player side *)

Definition JoinedChannel (guid : Z) : cp unit :=
  modify (λ w, with_lists (<[guid := default [] (m_channels w !! guid) ++ [this]]> (m_channels w)) w).
Definition LeftChannel (guid : Z) : cp unit :=
  modify (λ w, with_lists (<[guid := filter (λ c, c ≠ this) (default [] (m_channels w !! guid))]> (m_channels w)) w).

(** ** Notices of the member list *)

Definition JoinNotify (guid : Z) : cp unit :=
  c ← get id;
  let pkt := build (if IsConstant c then SMSG_USERLIST_ADD else SMSG_USERLIST_UPDATE)
    (put_u64 guid;; put_u8 (GetPlayerFlags guid c);; put_u8 (m_flags c);;
     put_u32 (GetNumPlayers c);; put_string (m_name c)) in
  if IsConstant c then SendToAllButOne pkt guid else SendToAll pkt 0.

Definition LeaveNotify (guid : Z) : cp unit :=
  c ← get id;
  let pkt := build SMSG_USERLIST_REMOVE
    (put_u64 guid;; put_u8 (m_flags c);; put_u32 (GetNumPlayers c);; put_string (m_name c)) in
  if IsConstant c then SendToAllButOne pkt guid else SendToAll pkt 0.

(** ** Ownership and modes *)

Definition SetOwner (guid : Z) (exclaim : bool) : cp unit :=
  old ← get m_ownerGUID;
  (if negb (old =? 0)
   then upd (λ c, with_players (alter (info_SetOwner false) old (players c)) c)
   else mret tt);;
  upd (with_owner guid);;
  if negb (guid =? 0) then
    oldFlag ← get (GetPlayerFlags guid);
    on_player guid (info_SetModerator true);;
    on_player guid (info_SetOwner true);;
    tell_all (MakeModeChange guid oldFlag);;
    (if exclaim then tell_all (MakeOwnerChanged guid) else mret tt);;
    UpdateChannelInDB
  else mret tt.

Definition SetModerator (p : Z) (set : bool) : cp unit :=
  i ← at_player p;
  if negb (Bool.eqb (IsModerator i) set) then
    oldFlag ← get (GetPlayerFlags p);
    on_player p (info_SetModerator set);;
    tell_all (MakeModeChange p oldFlag)
  else mret tt.

Definition SetMute (p : Z) (set : bool) : cp unit :=
  i ← at_player p;
  if negb (Bool.eqb (IsMuted i) set) then
    oldFlag ← get (GetPlayerFlags p);
    on_player p (info_SetMuted set);;
    tell_all (MakeModeChange p oldFlag)
  else mret tt.

(** ** Joining and leaving *)

Definition announced (o : option Online) (c : Channel) : bool :=
  m_announce c &&
  (bool_decide (o = None) || negb (IsGMAccount (security_of o)) || negb (CONFIG_SILENTLY_GM_JOIN_TO_CHANNEL E)).

Definition Join (p : Z) (pass : list Z) : cp unit :=
  c ← get id;
  if IsOn p c then
    if negb (IsConstant c) then tell p (MakePlayerAlreadyMember p) else mret tt
  else if IsBanned p c then tell p MakeBanned
  else if negb (bool_decide (m_password c = [])) && negb (bool_decide (pass = m_password c))
  then tell p MakeWrongPassword
  else
    let o := FindPlayer p in
    if bool_decide (is_Some o) && HasFlag CHANNEL_FLAG_LFG c && CONFIG_RESTRICTED_LFG_CHANNEL E
       && IsPlayerAccount (security_of o) && from_option in_group false o
    then tell p MakeNotInLfg
    else
      (match o with Some _ => JoinedChannel p | None => mret tt end);;
      (if announced o c then tell_all (MakeJoined p) else mret tt);;
      upd (λ c, with_players (<[p := mkInfo p 0]> (players c)) c);;
      tell p MakeYouJoined;;
      JoinNotify p;;
      c ← get id;
      if negb (IsConstant c) then
        (if negb (bool_decide (players c = ∅)) then UpdateChannelUseageInDB else mret tt);;
        if (m_ownerGUID c =? 0) && m_ownership c then
          SetOwner p (Nat.ltb 1 (base.size (players c)));;
          on_player p (info_SetModerator true)
        else mret tt
      else mret tt.

(** [players.begin()->second.player] of a map that is not empty. *)
Definition first_player (c : Channel) : option Z := x ← head (sorted_elems (players c)); Some (player x.2).

Definition Leave (p : Z) (send : bool) : cp unit :=
  c ← get id;
  if negb (IsOn p c) then
    if send then tell p MakeNotMember else mret tt
  else
    let o := FindPlayer p in
    (if send then
       tell p MakeYouLeft;;
       match o with Some _ => LeftChannel p | None => mret tt end
     else mret tt);;
    i ← at_player p;
    let changeowner := IsOwner i in
    upd (λ c, with_players (delete p (players c)) c);;
    (if announced o c then tell_all (MakeLeft p) else mret tt);;
    LeaveNotify p;;
    c ← get id;
    if negb (IsConstant c) then
      UpdateChannelUseageInDB;;
      match first_player c with
      | Some newowner =>
        if changeowner && m_ownership c then
          on_player newowner (info_SetModerator true);;
          SetOwner newowner true
        else mret tt
      | None => mret tt
      end
    else mret tt.

(** ** Commands of a member *)

(** What the commands check first: membership, then the moderator flag or a GM account. *)
Definition as_moderator (p : Z) (sec : Z) (body : cp unit) : cp unit :=
  c ← get id;
  if negb (IsOn p c) then tell p MakeNotMember
  else
    i ← at_player p;
    if negb (IsModerator i) && negb (IsGMAccount sec) then tell p MakeNotModerator
    else body.

Definition KickOrBan (good : Z) (badname : list Z) (ban : bool) : cp unit :=
  let sec := security_of (FindPlayer good) in
  as_moderator good sec (
    c ← get id;
    match FindPlayerByName badname with
    | None => tell good (MakePlayerNotFound badname)
    | Some (bad, _) =>
      if negb (IsOn bad c) then tell good (MakePlayerNotFound badname)
      else if negb (IsGMAccount sec) && (bad =? m_ownerGUID c) && negb (good =? m_ownerGUID c)
      then tell good MakeNotOwner
      else
        let changeowner := m_ownerGUID c =? bad in
        let notify := negb (IsGMAccount sec && CONFIG_SILENTLY_GM_JOIN_TO_CHANNEL E) in
        (if ban && negb (IsBanned bad c) then
           upd (λ c, with_banned ({[bad]} ∪ banned c) c);;
           UpdateChannelInDB;;
           if notify then tell_all (MakePlayerBanned bad good) else mret tt
         else if notify then tell_all (MakePlayerKicked bad good) else mret tt);;
        upd (λ c, with_players (delete bad (players c)) c);;
        LeftChannel bad;;
        c ← get id;
        if changeowner && m_ownership c && negb (bool_decide (players c = ∅)) then
          on_player good (info_SetModerator true);;
          SetOwner good true
        else mret tt
    end).

Definition UnBan (good : Z) (badname : list Z) : cp unit :=
  as_moderator good (security_of (FindPlayer good)) (
    c ← get id;
    match FindPlayerByName badname with
    | None => tell good (MakePlayerNotFound badname)
    | Some (bad, _) =>
      if negb (IsBanned bad c) then tell good (MakePlayerNotFound badname)
      else
        upd (λ c, with_banned (banned c ∖ {[bad]}) c);;
        tell_all (MakePlayerUnbanned bad good);;
        UpdateChannelInDB
    end).

Definition Password (p : Z) (pass : list Z) : cp unit :=
  as_moderator p (security_of (FindPlayer p)) (
    upd (with_password pass);;
    tell_all (MakePasswordChanged p);;
    UpdateChannelInDB).

Definition SetMode (p : Z) (p2n : list Z) (mod_ set : bool) : cp unit :=
  match FindPlayer p with
  | None => mret tt
  | Some pl =>
    as_moderator p (security pl) (
      c ← get id;
      match FindPlayerByName p2n with
      | None => tell p (MakePlayerNotFound p2n)
      | Some (newp, np) =>
        if (p =? m_ownerGUID c) && (newp =? m_ownerGUID c) && mod_ then mret tt
        else if negb (IsOn newp c) then tell p (MakePlayerNotFound p2n)
        else if (negb (IsGMAccount (security pl)) || negb (IsGMAccount (security np)))
                && negb (team pl =? team np) && negb (CONFIG_ALLOW_TWO_SIDE_INTERACTION_CHANNEL E)
        then tell p (MakePlayerNotFound p2n)
        else if (m_ownerGUID c =? newp) && negb (m_ownerGUID c =? p) then tell p MakeNotOwner
        else if mod_ then SetModerator newp set else SetMute newp set
      end)
  end.

Definition SetOwner_name (p : Z) (newname : list Z) : cp unit :=
  match FindPlayer p with
  | None => mret tt
  | Some pl =>
    c ← get id;
    if negb (IsOn p c) then tell p MakeNotMember
    else if negb (IsGMAccount (security pl)) && negb (p =? m_ownerGUID c) then tell p MakeNotOwner
    else
      match FindPlayerByName newname with
      | None => tell p (MakePlayerNotFound newname)
      | Some (newp, np) =>
        if negb (IsOn newp c) then tell p (MakePlayerNotFound newname)
        else if negb (team np =? team pl) && negb (CONFIG_ALLOW_TWO_SIDE_INTERACTION_CHANNEL E)
        then tell p (MakePlayerNotFound newname)
        else
          on_player newp (info_SetModerator true);;
          SetOwner newp true
      end
  end.

Definition SendWhoOwner (p : Z) : cp unit :=
  c ← get id;
  if negb (IsOn p c) then tell p MakeNotMember else tell p MakeChannelOwner.

(** The members [viewer] is shown. *)
Definition listed (p : Z) (viewer : Online) (x : Z * PlayerInfo) : bool :=
  match FindPlayer x.1 with
  | Some member =>
    (negb (IsPlayerAccount (security viewer)) || (security member <=? CONFIG_GM_LEVEL_IN_WHO_LIST E))
    && IsVisibleGloballyFor E x.1 p
  | None => false
  end.

Fixpoint put_members (l : list (Z * PlayerInfo)) : bb unit :=
  match l with
  | [] => mret tt
  | (g, i) :: l => put_u64 g;; put_u8 (flags i);; put_members l
  end.

Definition List_ (p : Z) (viewer : Online) : cp unit :=
  c ← get id;
  if negb (IsOn p c) then tell p MakeNotMember
  else
    let shown := filter (λ x, listed p viewer x) (sorted_elems (players c)) in
    SendToOne (build SMSG_CHANNEL_LIST (
      put_u8 1;; put_string (m_name c);; put_u8 (m_flags c);;
      pos ← gets _wpos;
      put_u32 0;;
      put_members shown;;
      put 4 pos (Z.of_nat (length shown)))) p.

Definition Announce (p : Z) : cp unit :=
  as_moderator p (security_of (FindPlayer p)) (
    upd (λ c, with_announce (negb (m_announce c)) c);;
    a ← get m_announce;
    (if a : bool then tell_all (MakeAnnouncementsOn p) else tell_all (MakeAnnouncementsOff p));;
    UpdateChannelInDB).

(** [what] is [None] for the null pointer. *)
Definition Say (p : Z) (what : option (list Z)) (lang : Z) : cp unit :=
  match what with
  | None => mret tt
  | Some what =>
    let lang := if CONFIG_ALLOW_TWO_SIDE_INTERACTION_CHANNEL E then LANG_UNIVERSAL else lang in
    let o := FindPlayer p in
    c ← get id;
    if negb (IsOn p c) then tell p MakeNotMember
    else
      i ← at_player p;
      if IsMuted i then tell p MakeMuted
      else
        let messageLength := uwrap 32 (Z.of_nat (length (c_str what)) + 1) in
        let pkt := build SMSG_MESSAGECHAT (
          put_u8 CHAT_MSG_CHANNEL;; put_u32 lang;; put_u64 p;; put_u32 0;;
          put_string (m_name c);; put_u64 p;; put_u32 messageLength;; put_cstring (Some what);;
          put_u8 (from_option chat_tag 0 o)) in
        SendToAll pkt (if negb (IsModerator i) then p else 0)
  end.

Definition Invite (p : Z) (newname : list Z) : cp unit :=
  c ← get id;
  if negb (IsOn p c) then tell p MakeNotMember
  else
    match FindPlayerByName newname with
    | None => tell p (MakePlayerNotFound newname)
    | Some (newp, np) =>
      if IsBanned newp c then tell p (MakePlayerInviteBanned newname)
      else
        match FindPlayer p with
        | None => mret tt
        | Some pl =>
          if negb (team np =? team pl) && negb (CONFIG_ALLOW_TWO_SIDE_INTERACTION_CHANNEL E)
          then tell p MakeInviteWrongFaction
          else if IsOn newp c then tell p (MakePlayerAlreadyMember newp)
          else
            (if negb (HasIgnore (Some np) (GUID_LOPART p)) then tell newp (MakeInvite p) else mret tt);;
            tell p (MakePlayerInvited (name np))
        end
    end.

(** Voice chat is not supported: the calls do nothing. *)
Definition Voice (guid1 guid2 : Z) : cp unit := mret tt.
Definition DeVoice (guid1 guid2 : Z) : cp unit := mret tt.

End Channel.
