(* ===== verification/ChannelFacts.v ===== *)
(** * ChannelFacts: who may do what on a channel

    [Quiet] code only sends packets and runs statements. [KeepsOwner] code keeps the
    owner flag where [m_ownerGUID] says. *)

From Stdlib Require Import ZArith Lia.
From S2P Require Import Prelude ByteBuffer Guid Util Channel.
Local Open Scope Z_scope.

(** ** Flags of a member *)

Lemma IsOwner_bit i : IsOwner i = Z.testbit (flags i) 0.
Proof. by apply (has_bits_pow2 (flags i) 0). Qed.
Lemma IsModerator_bit i : IsModerator i = Z.testbit (flags i) 1.
Proof. by apply (has_bits_pow2 (flags i) 1). Qed.
Lemma IsMuted_bit i : IsMuted i = Z.testbit (flags i) 3.
Proof. by apply (has_bits_pow2 (flags i) 3). Qed.

Lemma set_flag_bit n b i j : 0 <= n → 0 <= j →
  Z.testbit (flags (set_flag (2 ^ n) b i)) j = if n =? j then b else Z.testbit (flags i) j.
Proof.
  intros Hn Hj. unfold set_flag. simpl. destruct b.
  - rewrite Z.lor_spec, testbit_pow2 by done. destruct (n =? j); by rewrite ?orb_true_r, ?orb_false_r.
  - rewrite Z.land_spec, Z.lnot_spec, testbit_pow2 by done.
    destruct (n =? j); by rewrite ?andb_true_r, ?andb_false_r.
Qed.

Lemma owner_SetModerator b i : IsOwner (info_SetModerator b i) = IsOwner i.
Proof. rewrite !IsOwner_bit. by apply (set_flag_bit 1 b i 0). Qed.
Lemma owner_SetMuted b i : IsOwner (info_SetMuted b i) = IsOwner i.
Proof. rewrite !IsOwner_bit. by apply (set_flag_bit 3 b i 0). Qed.
Lemma owner_SetOwner b i : IsOwner (info_SetOwner b i) = b.
Proof. rewrite !IsOwner_bit. by apply (set_flag_bit 0 b i 0). Qed.
Lemma moderator_SetOwner b i : IsModerator (info_SetOwner b i) = IsModerator i.
Proof. rewrite !IsModerator_bit. by apply (set_flag_bit 0 b i 1). Qed.
Lemma moderator_SetModerator b i : IsModerator (info_SetModerator b i) = b.
Proof. rewrite !IsModerator_bit. by apply (set_flag_bit 1 b i 1). Qed.

(** ** Code that only sends *)

Class Quiet (p : cp unit) : Prop :=
  quiet : ∀ w, ∃ es, p w = (Ret tt, mkWorld (chan w) (m_channels w) (effects w ++ es)).

#[export] Instance quiet_ret : Quiet (mret tt).
Proof. intros [c l es]. exists []. by rewrite app_nil_r. Qed.
#[export] Instance quiet_emit e : Quiet (emit e).
Proof. intros w. by exists [e]. Qed.
#[export] Instance quiet_seq p q : Quiet p → Quiet q → Quiet (p;; q).
Proof.
  intros Hp Hq w. destruct (Hp w) as [es1 E1]. erewrite bind_ret_run by exact E1.
  destruct (Hq (mkWorld (chan w) (m_channels w) (effects w ++ es1))) as [es2 E2].
  exists (es1 ++ es2). rewrite E2. simpl. by rewrite app_assoc.
Qed.
#[export] Instance quiet_get {A} (f : Channel → A) k : (∀ a, Quiet (k a)) → Quiet (a ← get f; k a).
Proof. intros Hk w. erewrite bind_ret_run by done. apply Hk. Qed.
#[export] Instance quiet_if (b : bool) p q : Quiet p → Quiet q → Quiet (if b then p else q).
Proof. by destruct b. Qed.
#[export] Instance quiet_SendToOne E pkt who : Quiet (SendToOne E pkt who).
Proof. unfold SendToOne. case_match; apply _. Qed.
#[export] Instance quiet_send_each E to pkt : Quiet (send_each E to pkt).
Proof. induction to; simpl; apply _. Qed.
#[export] Instance quiet_SendToAll E pkt p : Quiet (SendToAll E pkt p).
Proof. unfold SendToAll. apply _. Qed.
#[export] Instance quiet_SendToAllButOne E pkt p : Quiet (SendToAllButOne E pkt p).
Proof. unfold SendToAllButOne. apply _. Qed.
#[export] Instance quiet_tell E who m : Quiet (tell E who m).
Proof. unfold tell. apply _. Qed.
#[export] Instance quiet_tell_all E m : Quiet (tell_all E m).
Proof. unfold tell_all. apply _. Qed.
#[export] Instance quiet_UpdateChannelInDB : Quiet UpdateChannelInDB.
Proof. unfold UpdateChannelInDB. apply _. Qed.
#[export] Instance quiet_Usage : Quiet UpdateChannelUseageInDB.
Proof. unfold UpdateChannelUseageInDB. apply _. Qed.
#[export] Instance quiet_JoinNotify E g : Quiet (JoinNotify E g).
Proof. unfold JoinNotify. apply _. Qed.
#[export] Instance quiet_LeaveNotify E g : Quiet (LeaveNotify E g).
Proof. unfold LeaveNotify. apply _. Qed.

Lemma quiet_chan p w : Quiet p → chan (p w).2 = chan w.
Proof. intros Hp. by destruct (Hp w) as [es ->]. Qed.

(** ** The owner flag *)

Definition no_owner (c : Channel) : Prop := ∀ k i, players c !! k = Some i → IsOwner i = false.

Definition owner_only (c : Channel) : Prop :=
  ∀ k i, players c !! k = Some i → IsOwner i = true → k = m_ownerGUID c ∧ k ≠ 0.

Class KeepsOwner {A} (p : cp A) : Prop :=
  keeps_owner : ∀ w, owner_only (chan w) → owner_only (chan (p w).2).

#[export] Instance ko_quiet p : Quiet p → KeepsOwner p.
Proof. intros Hp w Hw. by rewrite quiet_chan. Qed.
#[export] Instance ko_ret {A} (a : A) : KeepsOwner (mret a).
Proof. by intros w. Qed.
#[export] Instance ko_get {A} (f : Channel → A) : KeepsOwner (get f).
Proof. by intros w. Qed.
#[export] Instance ko_bind {A B} (p : cp A) (k : A → cp B) :
  KeepsOwner p → (∀ a, KeepsOwner (k a)) → KeepsOwner (p ≫= k).
Proof.
  intros Hp Hk w Hw. specialize (Hp w Hw). unfold mbind, prog_bind.
  destruct (p w) as [[a|e] w1]; simpl in *; [by apply Hk|done].
Qed.
#[export] Instance ko_if {A} (b : bool) (p q : cp A) : KeepsOwner p → KeepsOwner q → KeepsOwner (if b then p else q).
Proof. by destruct b. Qed.

(** An element is replaced by one that is no more of an owner. *)
Lemma owner_insert c k i :
  (IsOwner i = true → k = m_ownerGUID c ∧ k ≠ 0) → owner_only c →
  owner_only (with_players (<[k := i]> (players c)) c).
Proof.
  intros Hi Hc j i' Hj Ho. simpl in *. apply lookup_insert_Some in Hj as [[<- <-]|[_ Hj]]; eauto.
Qed.

#[export] Instance ko_at_player p : KeepsOwner (at_player p).
Proof.
  intros w Hw. unfold at_player. erewrite bind_ret_run by done.
  destruct (players (chan w) !! p) eqn:E; [done|]. simpl. by apply owner_insert.
Qed.

(** [players[p]] reads a member without a change. *)
Lemma at_player_run p i w : players (chan w) !! p = Some i → at_player p w = (Ret i, w).
Proof. intros E. unfold at_player. erewrite bind_ret_run by done. by rewrite E. Qed.

(** [on_player] replaces or creates one member and touches nothing else. *)
Definition put_player (p : Z) (g : PlayerInfo → PlayerInfo) (c : Channel) : Channel :=
  with_players (<[p := g (default no_info (players c !! p))]> (players c)) c.

Lemma on_player_run p g w :
  on_player p g w = (Ret tt, with_chan (put_player p g (chan w)) w).
Proof.
  unfold on_player, at_player, mbind, prog_bind, get, gets, upd, modify. simpl. unfold put_player.
  destruct (players (chan w) !! p) eqn:Ep; simpl; [done|]. by rewrite insert_insert_eq.
Qed.

Lemma put_player_owner p g c :
  (∀ i, IsOwner (g i) = IsOwner i) → owner_only c → owner_only (put_player p g c).
Proof.
  intros Hg Hc. apply owner_insert; [|done]. rewrite Hg. intros Ho.
  destruct (players c !! p) as [i|] eqn:E; [by eapply Hc|done].
Qed.

#[export] Instance ko_SetModerator_on p b : KeepsOwner (on_player p (info_SetModerator b)).
Proof. intros w Hw. rewrite on_player_run. apply put_player_owner; [|done]. apply owner_SetModerator. Qed.
#[export] Instance ko_SetMuted_on p b : KeepsOwner (on_player p (info_SetMuted b)).
Proof. intros w Hw. rewrite on_player_run. apply put_player_owner; [|done]. apply owner_SetMuted. Qed.

Lemma ko_upd (f : Channel → Channel) :
  (∀ c, players (f c) = players c) → (∀ c, m_ownerGUID (f c) = m_ownerGUID c) → KeepsOwner (upd f).
Proof. intros Hp Ho w Hw k i. simpl. rewrite Hp, Ho. apply Hw. Qed.

#[export] Instance ko_erase p : KeepsOwner (upd (λ c, with_players (delete p (players c)) c)).
Proof. intros w Hw k i Hk Ho. simpl in *. apply lookup_delete_Some in Hk as [_ Hk]. eauto. Qed.

(** The state [SetOwner] leaves, before it reports. *)
Definition owner_set (guid : Z) (c : Channel) : Channel :=
  let c := if negb (m_ownerGUID c =? 0)
           then with_players (alter (info_SetOwner false) (m_ownerGUID c) (players c)) c else c in
  let c := with_owner guid c in
  if negb (guid =? 0)
  then put_player guid (info_SetOwner true) (put_player guid (info_SetModerator true) c) else c.

Lemma SetOwner_run E guid exclaim w :
  ∃ es, SetOwner E guid exclaim w =
    (Ret tt, mkWorld (owner_set guid (chan w)) (m_channels w) (effects w ++ es)).
Proof.
  unfold SetOwner, owner_set. erewrite bind_ret_run by done.
  set (c1 := if negb (m_ownerGUID (chan w) =? 0)
    then with_players (alter (info_SetOwner false) (m_ownerGUID (chan w)) (players (chan w))) (chan w)
    else chan w).
  erewrite (bind_ret_run _ _ w tt (with_chan c1 w)).
  2: { subst c1. destruct (negb _); [done|]. by destruct w. }
  erewrite bind_ret_run by done. cbn [chan with_chan].
  destruct (guid =? 0); cbn [negb].
  { exists []. by rewrite app_nil_r. }
  erewrite bind_ret_run by done. erewrite bind_ret_run by apply on_player_run.
  erewrite bind_ret_run by apply on_player_run.
  match goal with |- ∃ es, ?p ?w1 = _ => assert (Quiet p) as Hq by apply _; destruct (Hq w1) as [es Es] end.
  exists es. exact Es.
Qed.

Lemma owner_set_only guid c : owner_only c → owner_only (owner_set guid c).
Proof.
  intros Hc. unfold owner_set.
  set (c1 := if negb (m_ownerGUID c =? 0)
    then with_players (alter (info_SetOwner false) (m_ownerGUID c) (players c)) c else c).
  assert (no_owner (with_owner guid c1)) as Hn.
  { intros k i Hk. destruct (IsOwner i) eqn:Eo; [|done]. exfalso. subst c1.
    destruct (Z.eqb_spec (m_ownerGUID c) 0) as [E0|E0]; cbn [negb] in Hk; simpl in Hk.
    - destruct (Hc k i Hk Eo). congruence.
    - destruct (decide (m_ownerGUID c = k)) as [<-|Hne].
      + rewrite lookup_alter_eq in Hk. apply fmap_Some in Hk as (i' & _ & ->).
        by rewrite owner_SetOwner in Eo.
      + rewrite lookup_alter_ne in Hk by done. by destruct (Hc k i Hk Eo). }
  assert (owner_only (with_owner guid c1)) as Ho.
  { intros k i Hk Eo. by rewrite (Hn k i Hk) in Eo. }
  destruct (Z.eqb_spec guid 0) as [|Hg]; cbn [negb]; [done|].
  apply owner_insert; [done|]. apply put_player_owner; [|done]. apply owner_SetModerator.
Qed.

#[export] Instance ko_SetOwner E guid b : KeepsOwner (SetOwner E guid b).
Proof. intros w Hw. destruct (SetOwner_run E guid b w) as [es ->]. by apply owner_set_only. Qed.

#[export] Instance ko_SetModerator E p b : KeepsOwner (SetModerator E p b).
Proof. unfold SetModerator. apply _. Qed.
#[export] Instance ko_SetMute E p b : KeepsOwner (SetMute E p b).
Proof. unfold SetMute. apply _. Qed.
#[export] Instance ko_JoinedChannel this p : KeepsOwner (JoinedChannel this p).
Proof. by intros w. Qed.
#[export] Instance ko_LeftChannel this p : KeepsOwner (LeftChannel this p).
Proof. by intros w. Qed.

#[export] Instance ko_insert_new p : KeepsOwner (upd (λ c, with_players (<[p := mkInfo p 0]> (players c)) c)).
Proof. intros w Hw. by apply owner_insert. Qed.

#[export] Instance ko_as_moderator E p sec body : KeepsOwner body → KeepsOwner (as_moderator E p sec body).
Proof. intros Hb. unfold as_moderator. apply _. Qed.

#[export] Instance ko_Join E this p pass : KeepsOwner (Join E this p pass).
Proof.
  unfold Join. apply ko_bind; [apply _|intros c]. repeat (apply ko_if; [apply _|]).
  apply ko_bind; [case_match; apply _|intros _]. apply _.
Qed.

#[export] Instance ko_Leave E this p b : KeepsOwner (Leave E this p b).
Proof.
  unfold Leave. apply ko_bind; [apply _|intros c]. apply ko_if; [apply _|].
  apply ko_bind; [apply ko_if; [|apply _]; apply ko_bind; [apply _|intros _; case_match; apply _]|intros _].
  repeat (apply ko_bind; [apply _|intros ?]). apply ko_if; [|apply _].
  apply ko_bind; [apply _|intros _]. case_match; apply _.
Qed.

#[export] Instance ko_KickOrBan E this g n b : KeepsOwner (KickOrBan E this g n b).
Proof.
  unfold KickOrBan. cbv zeta. apply ko_as_moderator, ko_bind; [apply _|intros c].
  destruct (FindPlayerByName E n) as [[bad ?]|]; [|apply _]. repeat (apply ko_if; [apply _|]).
  apply ko_bind.
  { apply ko_if; [|apply _]. apply ko_bind; [by apply ko_upd|intros _; apply _]. }
  intros _. apply _.
Qed.

#[export] Instance ko_UnBan E g n : KeepsOwner (UnBan E g n).
Proof.
  unfold UnBan. apply ko_as_moderator, ko_bind; [apply _|intros c].
  destruct (FindPlayerByName E n) as [[bad ?]|]; [|apply _]. apply ko_if; [apply _|].
  apply ko_bind; [by apply ko_upd|intros _; apply _].
Qed.

#[export] Instance ko_Password E p pass : KeepsOwner (Password E p pass).
Proof. unfold Password. apply ko_as_moderator, ko_bind; [by apply ko_upd|intros _; apply _]. Qed.

#[export] Instance ko_Announce E p : KeepsOwner (Announce E p).
Proof. unfold Announce. apply ko_as_moderator, ko_bind; [by apply ko_upd|intros _; apply _]. Qed.

#[export] Instance ko_SetMode E p n m s : KeepsOwner (SetMode E p n m s).
Proof.
  unfold SetMode. case_match; [|apply _]. apply ko_as_moderator, ko_bind; [apply _|intros c].
  destruct (FindPlayerByName E n) as [[newp np]|]; [|apply _]. repeat (apply ko_if; [apply _|]). apply _.
Qed.

#[export] Instance ko_SetOwner_name E p n : KeepsOwner (SetOwner_name E p n).
Proof.
  unfold SetOwner_name. case_match; [|apply _]. apply ko_bind; [apply _|intros c].
  repeat (apply ko_if; [apply _|]). destruct (FindPlayerByName E n) as [[? ?]|]; apply _.
Qed.

#[export] Instance quiet_SendWhoOwner E p : Quiet (SendWhoOwner E p).
Proof. unfold SendWhoOwner. apply _. Qed.
#[export] Instance quiet_List E p v : Quiet (List_ E p v).
Proof. unfold List_. apply _. Qed.
#[export] Instance quiet_Invite E p n : Quiet (Invite E p n).
Proof.
  unfold Invite. apply quiet_get. intros c. apply quiet_if; [apply _|].
  destruct (FindPlayerByName E n) as [[? ?]|]; [|apply _]. apply quiet_if; [apply _|].
  case_match; apply _.
Qed.

#[export] Instance ko_Say E p what lang : KeepsOwner (Say E p what lang).
Proof. unfold Say. case_match; apply _. Qed.

(** ** Commands *)

(** What the client handlers and the player's clean-up call. *)
Inductive command :=
| CmdJoin (p : Z) (pass : list Z) | CmdLeave (p : Z) (send : bool)
| CmdKickOrBan (p : Z) (badname : list Z) (ban : bool) | CmdUnBan (p : Z) (badname : list Z)
| CmdPassword (p : Z) (pass : list Z) | CmdSetMode (p : Z) (name : list Z) (mod_ set : bool)
| CmdSetOwner (p : Z) (newname : list Z) | CmdSendWhoOwner (p : Z)
| CmdList (p : Z) (viewer : Online) | CmdAnnounce (p : Z)
| CmdSay (p : Z) (what : option (list Z)) (lang : Z) | CmdInvite (p : Z) (newname : list Z).

Definition run_command (E : Env) (this : Z) (c : command) : cp unit :=
  match c with
  | CmdJoin p pass => Join E this p pass
  | CmdLeave p send => Leave E this p send
  | CmdKickOrBan p n ban => KickOrBan E this p n ban
  | CmdUnBan p n => UnBan E p n
  | CmdPassword p pass => Password E p pass
  | CmdSetMode p n m s => SetMode E p n m s
  | CmdSetOwner p n => SetOwner_name E p n
  | CmdSendWhoOwner p => SendWhoOwner E p
  | CmdList p v => List_ E p v
  | CmdAnnounce p => Announce E p
  | CmdSay p what lang => Say E p what lang
  | CmdInvite p n => Invite E p n
  end.

Definition actor (c : command) : Z :=
  match c with
  | CmdJoin p _ | CmdLeave p _ | CmdKickOrBan p _ _ | CmdUnBan p _ | CmdPassword p _
  | CmdSetMode p _ _ _ | CmdSetOwner p _ | CmdSendWhoOwner p | CmdList p _ | CmdAnnounce p
  | CmdSay p _ _ | CmdInvite p _ => p
  end.

#[export] Instance ko_command E this c : KeepsOwner (run_command E this c).
Proof. destruct c; cbn [run_command]; apply _. Qed.

(** The worlds of a channel from its construction on; the rest of the server may change
    between two commands. *)
Inductive reachable (this : Z) : World → Prop :=
| reach_new E n id_ team_ row c es lists :
    new_Channel E n id_ team_ row = Some (c, es) → reachable this (mkWorld c lists es)
| reach_step E cmd w : reachable this w → reachable this (run_command E this cmd w).2.

Lemma new_Channel_empty E n id_ t row c es :
  new_Channel E n id_ t row = Some (c, es) → players c = ∅ ∧ m_ownerGUID c = 0 ∧ m_name c = n.
Proof.
  unfold new_Channel. intros H. repeat case_match; simplify_eq; try done;
    by simplify_option_eq.
Qed.

Lemma reachable_owner this w : reachable this w → owner_only (chan w).
Proof.
  induction 1 as [E n id_ t row c es lists Hn|E cmd w Hw IH].
  - destruct (new_Channel_empty _ _ _ _ _ _ _ Hn) as (Hp & _). intros k i. simpl. by rewrite Hp.
  - by apply ko_command.
Qed.

(** ** The commands refuse *)

Lemma tell_run E who make w :
  tell E who make w = (Ret tt, mkWorld (chan w) (m_channels w)
    (effects w ++ match FindPlayer E who with Some _ => [SendPacket who (make (chan w))] | None => [] end)).
Proof.
  unfold tell. erewrite bind_ret_run by done. unfold SendToOne.
  destruct (FindPlayer E who); [done|]. rewrite app_nil_r. by destruct w.
Qed.

Lemma as_moderator_refused E p sec body w :
  (∀ i, players (chan w) !! p = Some i → IsModerator i = false) → IsGMAccount sec = false →
  as_moderator E p sec body w =
    tell E p (if IsOn p (chan w) then MakeNotModerator else MakeNotMember) w.
Proof.
  intros Hm Hsec. unfold as_moderator. erewrite bind_ret_run by done. unfold IsOn at 1 2. simpl.
  destruct (players (chan w) !! p) as [i|] eqn:Ei.
  - rewrite bool_decide_true by by eexists. cbn [negb].
    erewrite bind_ret_run by by apply at_player_run. by rewrite (Hm i), Hsec.
  - by rewrite bool_decide_false by by intros [? ?].
Qed.

(** ** What keeps the owner safe *)

Definition safe (o : Z) (i : PlayerInfo) (c : Channel) : Prop :=
  m_ownerGUID c = o ∧ players c !! o = Some i.

Class KeepsSafe {A} (o : Z) (i : PlayerInfo) (p : cp A) : Prop :=
  keeps_safe : ∀ w, safe o i (chan w) → safe o i (chan (p w).2).

#[export] Instance ks_quiet o i p : Quiet p → KeepsSafe o i p.
Proof. intros Hp w Hw. by rewrite quiet_chan. Qed.
#[export] Instance ks_ret {A} o i (a : A) : KeepsSafe o i (mret a).
Proof. by intros w. Qed.
#[export] Instance ks_get {A} o i (f : Channel → A) : KeepsSafe o i (get f).
Proof. by intros w. Qed.
#[export] Instance ks_bind {A B} o i (p : cp A) (k : A → cp B) :
  KeepsSafe o i p → (∀ a, KeepsSafe o i (k a)) → KeepsSafe o i (p ≫= k).
Proof.
  intros Hp Hk w Hw. specialize (Hp w Hw). unfold mbind, prog_bind.
  destruct (p w) as [[a|e] w1]; simpl in *; [by apply Hk|done].
Qed.
#[export] Instance ks_if {A} o i (b : bool) (p q : cp A) :
  KeepsSafe o i p → KeepsSafe o i q → KeepsSafe o i (if b then p else q).
Proof. by destruct b. Qed.
#[export] Instance ks_at o i p : KeepsSafe o i (at_player p).
Proof.
  intros w [Ho Hi]. unfold at_player. erewrite bind_ret_run by done.
  destruct (players (chan w) !! p) eqn:E; [done|]. simpl. split; [done|]. simpl.
  rewrite lookup_insert_ne; [done|]. intros ->. congruence.
Qed.

Lemma ks_on o i p g : p ≠ o → KeepsSafe o i (on_player p g).
Proof.
  intros Hne w [Ho Hi]. rewrite on_player_run. split; [done|]. simpl. by rewrite lookup_insert_ne.
Qed.

Lemma ks_upd o i (f : Channel → Channel) :
  (∀ c, players (f c) = players c) → (∀ c, m_ownerGUID (f c) = m_ownerGUID c) → KeepsSafe o i (upd f).
Proof. intros Hp Ho w [H1 H2]. split; simpl; [by rewrite Ho|by rewrite Hp]. Qed.

Lemma ks_erase o i p : p ≠ o → KeepsSafe o i (upd (λ c, with_players (delete p (players c)) c)).
Proof. intros Hne w [Ho Hi]. split; [done|]. simpl. by rewrite lookup_delete_ne. Qed.

Lemma ks_insert o i p j : p ≠ o → KeepsSafe o i (upd (λ c, with_players (<[p := j]> (players c)) c)).
Proof. intros Hne w [Ho Hi]. split; [done|]. simpl. by rewrite lookup_insert_ne. Qed.

#[export] Instance ks_lists o i f : KeepsSafe o i (modify (λ w, with_lists (f w) w)).
Proof. by intros w. Qed.

(** A read of the channel, in a state where the owner is safe. *)
Lemma ks_get_safe {A} o i (f : Channel → A) (k : A → cp unit) :
  (∀ c, safe o i c → KeepsSafe o i (k (f c))) → KeepsSafe o i (a ← get f; k a).
Proof. intros Hk w Hw. erewrite bind_ret_run by done. by apply (Hk (chan w)). Qed.

Lemma ks_as_moderator E o i p sec body : KeepsSafe o i body → KeepsSafe o i (as_moderator E p sec body).
Proof. intros Hb. unfold as_moderator. apply _. Qed.

Lemma ks_Join E this o i p pass : o ≠ 0 → p ≠ o → KeepsSafe o i (Join E this p pass).
Proof.
  intros H0 Hp. unfold Join. apply ks_bind; [apply _|intros c]. repeat (apply ks_if; [apply _|]).
  apply ks_bind; [case_match; [apply ks_lists|apply _]|intros _].
  apply ks_bind; [apply _|intros _]. apply ks_bind; [by apply ks_insert|intros _].
  apply ks_bind; [apply _|intros _]. apply ks_bind; [apply _|intros _].
  apply ks_get_safe. intros c' [Ho _]. unfold id. apply ks_if; [|apply _].
  apply ks_bind; [apply _|intros _]. rewrite Ho. decide_cmp. apply _.
Qed.

Lemma ks_KickOrBan E this o i p n b :
  o ≠ 0 → p ≠ o → IsGMAccount (security_of (FindPlayer E p)) = false →
  KeepsSafe o i (KickOrBan E this p n b).
Proof.
  intros H0 Hp Hgm. unfold KickOrBan. cbv zeta. rewrite Hgm. cbn [negb andb].
  apply ks_as_moderator, ks_get_safe. intros c [Ho _]. unfold id.
  destruct (FindPlayerByName E n) as [[bad ?]|]; [|apply _]. apply ks_if; [apply _|].
  rewrite Ho. destruct (Z.eqb_spec bad o) as [->|Hbad].
  { rewrite (proj2 (Z.eqb_neq p o)) by done. apply _. }
  cbn [andb]. apply ks_bind.
  { apply ks_if; [|apply _]. apply ks_bind; [by apply ks_upd|intros _; apply _]. }
  intros _. apply ks_bind; [by apply ks_erase|intros _]. apply ks_bind; [apply ks_lists|intros _].
  rewrite (proj2 (Z.eqb_neq o bad)) by done. apply _.
Qed.

Lemma ks_SetMode E o i p n m s :
  p ≠ o → KeepsSafe o i (SetMode E p n m s).
Proof.
  intros Hp. unfold SetMode. destruct (FindPlayer E p) as [pl|]; [|apply _].
  apply ks_as_moderator, ks_get_safe. intros c [Ho _]. unfold id.
  destruct (FindPlayerByName E n) as [[newp np]|]; [|apply _].
  do 3 (apply ks_if; [apply _|]). rewrite Ho.
  destruct (Z.eqb_spec o newp) as [<-|Hne].
  { rewrite (proj2 (Z.eqb_neq o p)) by congruence. apply _. }
  cbn [andb]. apply ks_if.
  - unfold SetModerator. apply ks_bind; [apply _|intros j]. apply ks_if; [|apply _].
    apply ks_bind; [apply _|intros f]. apply ks_bind; [by apply ks_on|intros _; apply _].
  - unfold SetMute. apply ks_bind; [apply _|intros j]. apply ks_if; [|apply _].
    apply ks_bind; [apply _|intros f]. apply ks_bind; [by apply ks_on|intros _; apply _].
Qed.

(** A member without the owner flag leaves without a change of owner. *)
Lemma ks_Leave E this o i p b w :
  p ≠ o → owner_only (chan w) → safe o i (chan w) → safe o i (chan (Leave E this p b w).2).
Proof.
  intros Hp Hoo Hs. unfold Leave. erewrite bind_ret_run by done. unfold IsOn. simpl (id _).
  destruct (players (chan w) !! p) as [j|] eqn:Ej.
  2: { rewrite bool_decide_false by by intros [? ?]. cbn [negb].
       assert (KeepsSafe o i (if b then tell E p MakeNotMember else mret tt)) as Hk by apply _. by apply Hk. }
  rewrite bool_decide_true by by eexists. cbn [negb].
  assert (IsOwner j = false) as Hj.
  { destruct (IsOwner j) eqn:Eo; [|done]. destruct (Hoo p j Ej Eo) as [E1 _]. destruct Hs. congruence. }
  assert (∃ w1, (if b then tell E p MakeYouLeft;;
      match FindPlayer E p with Some _ => LeftChannel this p | None => mret tt end
    else mret tt) w = (Ret tt, w1) ∧ chan w1 = chan w) as (w1 & E1 & Ec).
  { destruct b; [|by exists w]. destruct (FindPlayer E p); eexists;
      (split; [erewrite bind_ret_run by apply tell_run; done|done]). }
  erewrite bind_ret_run by exact E1.
  erewrite bind_ret_run by (apply at_player_run; by rewrite Ec). cbv zeta. rewrite Hj. cbn [andb].
  match goal with |- safe o i (chan (?p w1).2) => assert (KeepsSafe o i p) as Hk end.
  { apply ks_bind; [by apply ks_erase|intros _]. apply ks_bind; [apply _|intros _].
    apply ks_bind; [apply _|intros _]. apply ks_bind; [apply _|intros c]. apply ks_if; [|apply _].
    apply ks_bind; [apply _|intros _]. destruct (first_player c); apply _. }
  apply Hk. by rewrite Ec.
Qed.

Lemma ks_command E this o i cmd w :
  o ≠ 0 → actor cmd ≠ o → IsGMAccount (security_of (FindPlayer E (actor cmd))) = false →
  owner_only (chan w) → safe o i (chan w) → safe o i (chan (run_command E this cmd w).2).
Proof.
  intros H0 Ha Hgm Hoo Hs.
  assert (∀ p : cp unit, KeepsSafe o i p → safe o i (chan (p w).2)) as Hrun by (intros p Hp; by apply Hp).
  destruct cmd; cbn [run_command actor] in *; try (apply Hrun; apply _).
  - by apply Hrun, ks_Join.
  - by apply ks_Leave.
  - by apply Hrun, ks_KickOrBan.
  - apply Hrun, ks_as_moderator, ks_bind; [apply _|intros c].
    destruct (FindPlayerByName E badname) as [[? ?]|]; [|apply _]. apply ks_if; [apply _|].
    apply ks_bind; [by apply ks_upd|intros _; apply _].
  - apply Hrun, ks_as_moderator, ks_bind; [by apply ks_upd|intros _; apply _].
  - by apply Hrun, ks_SetMode.
  - apply Hrun. unfold SetOwner_name. destruct (FindPlayer E p) as [pl|] eqn:Ef; [|apply _].
    simpl in Hgm. apply ks_get_safe. intros c [Ho _]. unfold id. apply ks_if; [apply _|].
    rewrite Hgm, Ho, (proj2 (Z.eqb_neq p o)) by done. apply _.
  - apply Hrun, ks_as_moderator, ks_bind; [by apply ks_upd|intros _; apply _].
  - apply Hrun. unfold Say. case_match; apply _.
Qed.

(** ** Speaking *)

Lemma send_each_run E to pkt w :
  send_each E to pkt w = (Ret tt, mkWorld (chan w) (m_channels w)
    (effects w ++ ((λ g, SendPacket g pkt) <$> filter (λ g, is_Some (FindPlayer E g)) to))).
Proof.
  revert w. induction to as [|g to IH]; intros w; cbn [send_each].
  { simpl. rewrite app_nil_r. by destruct w. }
  unfold SendToOne. rewrite filter_cons. destruct (FindPlayer E g) as [o|] eqn:Eg.
  - rewrite decide_True by by eexists. erewrite bind_ret_run by done. rewrite IH. simpl.
    by rewrite <- app_assoc.
  - rewrite decide_False by by intros [? ?]. erewrite bind_ret_run by done. by rewrite IH.
Qed.

(** ** Properties *)

(** C11. Nobody but the member [m_ownerGUID] names has the owner flag, in every world
    reachable from the construction of a channel by any commands of any players,
    while sessions, configuration and names change in between. *)
Theorem owner_flag_only_on_owner (this : Z) (w : World) :
  reachable this w →
  ∀ k i, players (chan w) !! k = Some i → IsOwner i = true → k = m_ownerGUID (chan w) ∧ k ≠ 0.
Proof. apply reachable_owner. Qed.

(** Two players in the world, an in-game moderator with the name [n]. *)
Definition demo_player (n : list Z) (sec tm : Z) : Online := mkOnline n sec tm true false ∅ 0.

Definition demo_env : Env :=
  mkEnv {[1 := demo_player [65] 0 469; 2 := demo_player [66] 0 469; 3 := demo_player [67] 0 67]}
    true true false true 14 1 (λ _, None) (λ _, None) (λ _ _, true).

Definition demo_channel : World :=
  mkWorld (mkChannel ∅ ∅ true true [120] [] 1 0 0 true 469) ∅ [].

Definition demo_joined : World :=
  (run_command demo_env 9 (CmdJoin 2 []) (run_command demo_env 9 (CmdJoin 1 []) demo_channel).2).2.

Lemma demo_reachable : reachable 9 demo_joined.
Proof.
  do 2 apply reach_step. apply (reach_new 9 demo_env [120] 0 469 (Some (true, true, [], None))).
  reflexivity.
Qed.

Lemma owner_flag_only_on_owner_witness :
  m_ownerGUID (chan demo_joined) = 1 ∧
  players (chan demo_joined) !! 1 = Some (mkInfo 1 3) ∧ IsOwner (mkInfo 1 3) = true ∧ 1 ≠ 0.
Proof.
  split; [reflexivity|]. split; [reflexivity|]. split; [reflexivity|].
  apply (owner_flag_only_on_owner 9 demo_joined demo_reachable 1 (mkInfo 1 3)); reflexivity.
Defined.

(** C28. The owner is safe from others: no command of another player who is no game
    master changes who owns the channel or any flag of the owner, removes the owner,
    or touches the owner's list of channels. *)
Theorem owner_safe_from_members (E : Env) (this : Z) (cmd : command) (w : World) (i : PlayerInfo) :
  reachable this w → m_ownerGUID (chan w) ≠ 0 → players (chan w) !! m_ownerGUID (chan w) = Some i →
  actor cmd ≠ m_ownerGUID (chan w) →
  IsGMAccount (security_of (FindPlayer E (actor cmd))) = false →
  let w' := (run_command E this cmd w).2 in
  m_ownerGUID (chan w') = m_ownerGUID (chan w) ∧
  players (chan w') !! m_ownerGUID (chan w) = Some i.
Proof.
  intros Hr H0 Hi Ha Hgm w'. apply ks_command; [done|done|done|by eapply reachable_owner|done].
Qed.

Lemma owner_safe_from_members_witness :
  players (chan (run_command demo_env 9 (CmdKickOrBan 2 [65] true) demo_joined).2) !! 1 = Some (mkInfo 1 3).
Proof.
  apply (owner_safe_from_members demo_env 9 (CmdKickOrBan 2 [65] true) demo_joined (mkInfo 1 3)).
  - apply demo_reachable.
  - discriminate.
  - reflexivity.
  - discriminate.
  - reflexivity.
Defined.

(** The commands reserved to moderators, with the access level they are checked with. *)
Definition needs_moderator (E : Env) (cmd : command) : bool :=
  match cmd with
  | CmdKickOrBan _ _ _ | CmdUnBan _ _ | CmdPassword _ _ | CmdAnnounce _ => true
  | CmdSetMode p _ _ _ => bool_decide (is_Some (FindPlayer E p))
  | _ => false
  end.

(** Kicking, banning, lifting a ban, changing the password, the announcements or the
    mode of a member does nothing for a player who is neither a moderator of the
    channel nor a game master but send that player the reason: the channel, the
    players' lists and the database stay as they are. *)
Theorem moderator_required (E : Env) (this : Z) (cmd : command) (w : World) :
  needs_moderator E cmd = true →
  (∀ i, players (chan w) !! actor cmd = Some i → IsModerator i = false) →
  IsGMAccount (security_of (FindPlayer E (actor cmd))) = false →
  run_command E this cmd w = (Ret tt, mkWorld (chan w) (m_channels w) (effects w ++
    match FindPlayer E (actor cmd) with
    | Some _ => [SendPacket (actor cmd)
        ((if IsOn (actor cmd) (chan w) then MakeNotModerator else MakeNotMember) (chan w))]
    | None => []
    end)).
Proof.
  intros Hn Hm Hgm. destruct cmd; try done; cbn [run_command actor] in *; unfold KickOrBan, UnBan, Password, Announce.
  1-3,5: rewrite as_moderator_refused by done; apply tell_run.
  unfold SetMode. simpl in Hn. apply bool_decide_eq_true in Hn as [pl Hpl]. rewrite Hpl in Hgm |- *.
  rewrite as_moderator_refused, tell_run, Hpl by done. done.
Qed.

Lemma moderator_required_witness :
  run_command demo_env 9 (CmdPassword 2 [1]) demo_joined =
    (Ret tt, mkWorld (chan demo_joined) (m_channels demo_joined)
       (effects demo_joined ++ [SendPacket 2 (MakeNotModerator (chan demo_joined))])).
Proof.
  apply (moderator_required demo_env 9 (CmdPassword 2 [1]) demo_joined).
  - reflexivity.
  - intros i [= <-]. reflexivity.
  - reflexivity.
Defined.

(** A banned player, or one with the wrong password, does not get in: [Join] leaves
    the channel as it is and tells the player why; the ban is told first. *)
Theorem join_refused (E : Env) (this p : Z) (pass : list Z) (w : World) :
  IsOn p (chan w) = false →
  (p ∈ banned (chan w) ∨ m_password (chan w) ≠ [] ∧ pass ≠ m_password (chan w)) →
  Join E this p pass w = (Ret tt, mkWorld (chan w) (m_channels w) (effects w ++
    match FindPlayer E p with
    | Some _ => [SendPacket p (if IsBanned p (chan w) then MakeBanned (chan w)
                               else MakeWrongPassword (chan w))]
    | None => []
    end)).
Proof.
  intros Hon Hr. unfold Join. erewrite bind_ret_run by done. simpl (id _). rewrite Hon.
  unfold IsBanned in *. case_bool_decide as Hb; [apply tell_run|].
  destruct Hr as [Hr|[H1 H2]]; [done|]. rewrite !bool_decide_false by done. apply tell_run.
Qed.

Lemma join_refused_witness :
  (Join demo_env 9 3 [7] (mkWorld (mkChannel ∅ ∅ true true [120] [8] 1 0 0 true 469) ∅ [])).2 =
    mkWorld (mkChannel ∅ ∅ true true [120] [8] 1 0 0 true 469) ∅
      [SendPacket 3 (MakeWrongPassword (mkChannel ∅ ∅ true true [120] [8] 1 0 0 true 469))].
Proof.
  rewrite (join_refused demo_env 9 3 [7]).
  - reflexivity.
  - reflexivity.
  - right. split; discriminate.
Defined.

(** Speaking changes nothing and reaches whom it should: a member who is not muted
    is heard, once and in the same packet, by exactly the members in the world, less
    those who ignore the speaker unless a moderator speaks; a muted one is told so, a
    stranger is told to be none of the members. *)
Theorem say_audience (E : Env) (p lang : Z) (what : list Z) (w : World) :
  p ≠ 0 →
  match players (chan w) !! p with
  | None => Say E p (Some what) lang w = tell E p MakeNotMember w
  | Some i =>
    if IsMuted i then Say E p (Some what) lang w = tell E p MakeMuted w
    else ∃ pkt to, Say E p (Some what) lang w = (Ret tt, mkWorld (chan w) (m_channels w)
           (effects w ++ ((λ g, SendPacket g pkt) <$> to))) ∧
         NoDup to ∧
         ∀ g, g ∈ to ↔ is_Some (players (chan w) !! g) ∧
           ∃ o, FindPlayer E g = Some o ∧ (IsModerator i = true ∨ GUID_LOPART p ∉ ignores o)
  end.
Proof.
  intros Hp. unfold Say. destruct (players (chan w) !! p) as [i|] eqn:Ei.
  - assert (IsOn p (chan w) = true) as Hon by (apply bool_decide_eq_true; by eexists).
    destruct (IsMuted i) eqn:Em.
    + erewrite bind_ret_run by done. simpl (id _). rewrite Hon. cbn [negb].
      erewrite bind_ret_run by by apply at_player_run. by rewrite Em.
    + eexists _, _. split; [|split].
      * erewrite bind_ret_run by done. simpl (id _). rewrite Hon. cbn [negb].
        erewrite bind_ret_run by by apply at_player_run. rewrite Em. cbv zeta.
        unfold SendToAll. erewrite bind_ret_run by done. apply send_each_run.
      * do 2 apply NoDup_filter. apply NoDup_fst_sorted_elems.
      * intros g. rewrite !list_elem_of_filter.
        assert (g ∈ (sorted_elems (players (chan w))).*1 ↔ is_Some (players (chan w) !! g)) as ->.
        { rewrite list_elem_of_fmap. split.
          - intros ([k j] & -> & Hin%elem_of_sorted_elems). by eexists.
          - intros [j Hj]. exists (g, j). split; [done|]. by apply elem_of_sorted_elems. }
        destruct (FindPlayer E g) as [o|] eqn:Eg; simpl.
        2: { split; [by intros [[? ?] _]|by intros (_ & ? & ? & _)]. }
        destruct (IsModerator i) eqn:Emod; cbn [negb]; decide_cmp; simpl.
        -- split; [intros (_ & _ & ?); split; [done|]; eauto|]. intros (? & _). by split_and!.
        -- rewrite negb_True, bool_decide_spec. split.
           ++ intros (_ & Hni & ?). split; [done|]. exists o. split; [done|]. by right.
           ++ intros (? & o' & [= <-] & [?|?]); [done|]. by split_and!.
  - erewrite bind_ret_run by done. simpl (id _). unfold IsOn. rewrite Ei.
    by rewrite bool_decide_false by by intros [? ?].
Qed.

Lemma say_audience_witness :
  ∃ pkt to, Say demo_env 2 (Some [104; 105]) 7 demo_joined = (Ret tt, mkWorld (chan demo_joined)
      (m_channels demo_joined) (effects demo_joined ++ ((λ g, SendPacket g pkt) <$> to))) ∧
    NoDup to ∧ 1 ∈ to.
Proof.
  assert (2 ≠ 0) as Hne by discriminate.
  pose proof (say_audience demo_env 2 7 [104; 105] demo_joined Hne) as H.
  change (players (chan demo_joined) !! 2) with (Some (mkInfo 2 0)) in H.
  destruct H as (pkt & to & H1 & H2 & H3). exists pkt, to. split; [exact H1|]. split; [exact H2|].
  apply H3. split; [by eexists|]. exists (demo_player [65] 0 469). split; [reflexivity|]. right.
  apply not_elem_of_empty.
Defined.

(** C39. A saved custom channel comes back, while the server preserves custom channels: the row
    [UpdateChannelInDB] writes, read by the constructor for the name, id and team the row is
    stored under, gives a channel of this name, id and team with the announcement and ownership
    switches, the password and the ban list that were saved, and with no members. The banned
    GUIDs are between 0 and 2^63. *)
Theorem saved_channel_restored (E : Env) (w : World) :
  m_IsSaved (chan w) = true → ChatChannels_flags E (m_channelId (chan w)) = None →
  CONFIG_PRESERVE_CUSTOM_CHANNELS E = true →
  (∀ g, g ∈ banned (chan w) → 0 < g < 2 ^ 63) →
  ∃ text c, (UpdateChannelInDB w).2 = with_effect (UpdateChannel (m_announce (chan w))
      (m_ownership (chan w)) (m_password (chan w)) text (m_name (chan w)) (m_Team (chan w))) w ∧
    new_Channel E (m_name (chan w)) (m_channelId (chan w)) (m_Team (chan w))
      (Some (m_announce (chan w), m_ownership (chan w), m_password (chan w), Some text)) = Some (c, []) ∧
    m_name c = m_name (chan w) ∧ m_channelId c = m_channelId (chan w) ∧ m_Team c = m_Team (chan w) ∧
    m_announce c = m_announce (chan w) ∧ m_ownership c = m_ownership (chan w) ∧
    m_password c = m_password (chan w) ∧ banned c = banned (chan w) ∧ m_IsSaved c = true ∧ players c = ∅.
Proof.
  intros Hs Hc Hcfg Hb. set (gs := (sorted_elems (gset_to_gmap tt (banned (chan w)))).*1).
  assert (∀ g, g ∈ gs ↔ g ∈ banned (chan w)) as Hgs.
  { intros g. subst gs. rewrite list_elem_of_fmap. split.
    - intros ([k []] & -> & Hin%elem_of_sorted_elems). by apply lookup_gset_to_gmap_Some in Hin as [? _].
    - intros Hg. exists (g, tt). split; [done|]. apply elem_of_sorted_elems.
      by apply lookup_gset_to_gmap_Some. }
  assert (parse_ban_list (ban_list (chan w)) = Some (banned (chan w))) as Hparse.
  { unfold parse_ban_list, ban_list. fold gs.
    assert (Forall (λ n, 0 <= n < 2 ^ 63) gs) as Hr.
    { apply Forall_forall. intros g Hg%Hgs. specialize (Hb g Hg). lia. }
    pose proof (print_tokens_roundtrip gs Hr) as Ht.
    assert (∀ ts ns, atol <$> ts = Some <$> ns → mapM atol ts = Some ns) as Hmap.
    { clear. induction ts as [|t ts IH]; intros [|n ns] H; try done. simpl in H. injection H as H1 H2.
      simpl. by rewrite H1, (IH ns H2). }
    rewrite (Hmap _ _ Ht). simpl. f_equal. apply set_eq. intros g.
    rewrite elem_of_list_to_set, list_elem_of_filter, list_elem_of_fmap. split.
    - intros (Hne & g' & -> & Hg'). rewrite uwrap_small; [by apply Hgs|].
      rewrite Forall_forall in Hr. specialize (Hr g' Hg'). unfold in_u. lia.
    - intros Hg. specialize (Hb g Hg). split; [lia|]. exists g. rewrite uwrap_small; [|unfold in_u; lia].
      split; [done|]. by apply Hgs. }
  exists (ban_list (chan w)). eexists. split.
  - unfold UpdateChannelInDB. erewrite bind_ret_run by done. simpl (id _). by rewrite Hs.
  - unfold new_Channel. rewrite Hc, Hcfg. simpl mbind. rewrite Hparse. simpl. split; [done|]. by split_and!.
Qed.

Lemma saved_channel_restored_witness :
  ∃ text c, (UpdateChannelInDB (with_chan (with_banned {[5; 77]} (chan demo_joined)) demo_joined)).2 =
      with_effect (UpdateChannel true true [] text [120] 469)
        (with_chan (with_banned {[5; 77]} (chan demo_joined)) demo_joined) ∧
    new_Channel demo_env [120] 0 469 (Some (true, true, [], Some text)) = Some (c, []) ∧
    banned c = {[5; 77]}.
Proof.
  destruct (saved_channel_restored demo_env (with_chan (with_banned {[5; 77]} (chan demo_joined)) demo_joined))
    as (text & c & H1 & H2 & _ & _ & _ & _ & _ & _ & H3 & _).
  - reflexivity.
  - reflexivity.
  - reflexivity.
  - simpl. intros g Hg. apply elem_of_union in Hg as [Hg|Hg]; apply elem_of_singleton in Hg as ->; lia.
  - exists text, c. split; [exact H1|]. split; [exact H2|exact H3].
Defined.

(** An owner who kicks himself stays: when others are on a channel with ownership,
    [KickOrBan] of the owner by himself erases him and then, as the new owner it
    picked, creates him again with [operator[]]: a member without GUID, with the
    owner's flags, whose own channel list no longer has the channel. *)
Theorem self_kick_leaves_phantom (E : Env) (this p : Z) (pn : list Z) (o : Online) (w : World) (i : PlayerInfo) :
  p ≠ 0 → m_ownerGUID (chan w) = p → m_ownership (chan w) = true →
  players (chan w) !! p = Some i → IsModerator i = true →
  (∃ q j, q ≠ p ∧ players (chan w) !! q = Some j) →
  FindPlayerByName E pn = Some (p, o) →
  ∃ w' j, KickOrBan E this p pn false w = (Ret tt, w') ∧
    players (chan w') !! p = Some j ∧ player j = 0 ∧ IsModerator j = true ∧ IsOwner j = true ∧
    m_ownerGUID (chan w') = p ∧ this ∉ default [] (m_channels w' !! p).
Proof.
  intros H0 Ho Hown Hi Hm (q & j & Hq & Hj) Hn. unfold KickOrBan, as_moderator. cbv zeta.
  erewrite bind_ret_run by done. simpl (id _).
  assert (IsOn p (chan w) = true) as Hon by (apply bool_decide_eq_true; by eexists).
  rewrite Hon. cbn [negb]. erewrite bind_ret_run by by apply at_player_run. rewrite Hm. cbn [negb andb].
  erewrite bind_ret_run by done. simpl (id _). rewrite Hn, Hon. cbn [negb].
  rewrite Ho, Z.eqb_refl. cbn [negb]. rewrite andb_false_r. cbn [andb].
  match goal with |- ∃ _ _, (?n ≫= _) w = _ ∧ _ => assert (Quiet n) as Hquiet by apply _ end.
  destruct (Hquiet w) as [es Es]. erewrite bind_ret_run by exact Es. clear Hquiet Es.
  erewrite bind_ret_run by done. erewrite bind_ret_run by done. erewrite bind_ret_run by done.
  simpl (id _). cbn [m_ownership with_players chan players]. rewrite Hown.
  rewrite (bool_decide_false (delete p (players (chan w)) = ∅)).
  2: { intros Hempty. apply (f_equal (lookup q)) in Hempty.
       rewrite lookup_delete_ne, Hj, lookup_empty in Hempty by done. done. }
  cbn [negb andb]. erewrite bind_ret_run by apply on_player_run.
  match goal with |- ∃ _ _, SetOwner E p true ?w1 = _ ∧ _ => destruct (SetOwner_run E p true w1) as [es' Es'] end.
  eexists _, _. split; [exact Es'|]. cbn [chan m_channels with_chan with_lists].
  unfold owner_set. cbn [m_ownerGUID put_player with_players with_chan chan with_lists]. rewrite Ho.
  decide_cmp. unfold put_player. cbn [players with_players with_owner].
  split; [apply lookup_insert_eq|]. rewrite lookup_insert_eq, lookup_alter_eq, lookup_insert_eq, lookup_delete_eq.
  split; [done|]. simpl default. split_and!.
  - by rewrite moderator_SetOwner, moderator_SetModerator.
  - by rewrite owner_SetOwner.
  - done.
  - rewrite lookup_insert_eq. simpl. by rewrite list_elem_of_filter; intros [? _].
Qed.

Lemma self_kick_leaves_phantom_witness :
  ∃ w' j, KickOrBan demo_env 9 1 [65] false demo_joined = (Ret tt, w') ∧
    players (chan w') !! 1 = Some j ∧ player j = 0 ∧ m_ownerGUID (chan w') = 1.
Proof.
  destruct (self_kick_leaves_phantom demo_env 9 1 [65] (demo_player [65] 0 469) demo_joined (mkInfo 1 3))
    as (w' & j & H1 & H2 & H3 & _ & _ & H4 & _).
  - discriminate.
  - reflexivity.
  - reflexivity.
  - reflexivity.
  - reflexivity.
  - exists 2, (mkInfo 2 0). split; [discriminate|reflexivity].
  - reflexivity.
  - exists w', j. split; [exact H1|]. split; [exact H2|]. split; [exact H3|exact H4].
Defined.
