(* ===== verification/ChannelServer.v ===== *)
(** * ChannelServer: the channel managers and the client's channel opcodes

    src/src/server/game/Chat/Channels/ChannelMgr.h, .cpp,
    src/src/server/game/Handlers/ChannelHandler.cpp, and the player's side of
    src/src/server/game/Entities/Player/Player.cpp. Channels are heap objects the
    managers and the players' lists point to. *)

From Stdlib Require Import ZArith Lia.
From S2P Require Import Prelude ByteBuffer Guid Util Channel.
Local Open Scope Z_scope.

Definition ALLIANCE : Z := 469.
Definition HORDE : Z := 67.

Definition CHANNEL_DBC_FLAG_ZONE_DEP : Z := 0x00002.
Definition CHANNEL_DBC_FLAG_GUILD_REQ : Z := 0x20000.

(** A manager: the team of its next new channel, and the channels by folded name. *)
Record ChannelMgr := mkMgr {
  mgr_team : Z;
  channels : gmap (list Z) Z
}.

Inductive side := AllianceChannelMgr | HordeChannelMgr.

#[export] Instance side_eq_dec : EqDecision side.
Proof. solve_decision. Defined.

Record Server := mkServer {
  heap : gmap Z Channel;
  alliance_mgr : ChannelMgr;
  horde_mgr : ChannelMgr;
  lists : gmap Z (list Z);
  sent : list effect
}.

Abbreviation srv := (prog Server fault).

Definition mgr (x : side) (s : Server) : ChannelMgr :=
  match x with AllianceChannelMgr => alliance_mgr s | HordeChannelMgr => horde_mgr s end.

Definition with_mgr (x : side) (m : ChannelMgr) (s : Server) : Server :=
  match x with
  | AllianceChannelMgr => mkServer (heap s) m (horde_mgr s) (lists s) (sent s)
  | HordeChannelMgr => mkServer (heap s) (alliance_mgr s) m (lists s) (sent s)
  end.
Definition with_heap (h : gmap Z Channel) (s : Server) : Server :=
  mkServer h (alliance_mgr s) (horde_mgr s) (lists s) (sent s).
Definition with_plists (l : gmap Z (list Z)) (s : Server) : Server :=
  mkServer (heap s) (alliance_mgr s) (horde_mgr s) l (sent s).
Definition with_sent (e : list effect) (s : Server) : Server :=
  mkServer (heap s) (alliance_mgr s) (horde_mgr s) (lists s) e.

Definition new_server : Server := mkServer ∅ (mkMgr 0 ∅) (mkMgr 0 ∅) ∅ [].

(** The player of a session, as far as the handlers look at it; [zone_ffa] is [None]
    when the zone has no area entry. *)
Record Session := mkSession {
  guid : Z;
  self : Online;
  zone_ffa : option bool;
  guild_id : Z
}.

Section Server.
Context (E : Env).
(** The folded form of a name ([Utf8toWStr] and [wstrToLower]), the normal form of a
    player's name, and the rows of the [channels] table. *)
Context (wname : list Z → list Z).
Context (normalizePlayerName : list Z → option (list Z)).
Context (ChannelTable : list Z → Z → option ChannelRow).

(** A member function of the channel at [ptr]. *)
Definition on_channel (ptr : Z) (p : cp unit) : srv unit := λ s,
  match heap s !! ptr with
  | None => (Throw Undefined, s)
  | Some c =>
    let '(r, w) := p (mkWorld c (lists s) (sent s)) in
    (r, mkServer (<[ptr := Channel.chan w]> (heap s)) (alliance_mgr s) (horde_mgr s)
          (m_channels w) (effects w))
  end.

Definition SendPacket_to (g : Z) (p : WorldPacket) : srv unit :=
  modify (λ s, with_sent (sent s ++ [SendPacket g p]) s).

(** ** Managers *)

Definition channelMgr (team : Z) : option side :=
  if CONFIG_ALLOW_TWO_SIDE_INTERACTION_CHANNEL E then Some AllianceChannelMgr
  else if team =? ALLIANCE then Some AllianceChannelMgr
  else if team =? HORDE then Some HordeChannelMgr
  else None.

Definition GetJoinChannel (x : side) (name : list Z) (channel_id : Z) : srv Z :=
  m ← gets (mgr x);
  match channels m !! wname name with
  | Some ptr => mret ptr
  | None =>
    '(c, es) ← of_option (new_Channel E name channel_id (mgr_team m) (ChannelTable name (mgr_team m)));
    ptr ← gets (λ s, fresh (dom (heap s)));
    modify (λ s, with_sent (sent s ++ es) (with_heap (<[ptr := c]> (heap s)) s));;
    modify (λ s, with_mgr x (mkMgr (mgr_team (mgr x s)) (<[wname name := ptr]> (channels (mgr x s)))) s);;
    mret ptr
  end.

Definition MakeNotOnPacket (name : list Z) : WorldPacket :=
  build SMSG_CHANNEL_NOTIFY (put_u8 0x05;; put_string name).

Definition GetChannel (x : side) (name : list Z) (p : Z) (pkt : bool) : srv (option Z) :=
  m ← gets (mgr x);
  match channels m !! wname name with
  | Some ptr => mret (Some ptr)
  | None =>
    (if pkt then SendPacket_to p (MakeNotOnPacket name) else mret tt);;
    mret None
  end.

Definition mgr_LeftChannel (x : side) (name : list Z) : srv unit :=
  m ← gets (mgr x);
  match channels m !! wname name with
  | None => mret tt
  | Some ptr =>
    h ← gets heap;
    channel ← of_option (h !! ptr);
    if (GetNumPlayers channel =? 0) && negb (IsConstant channel) then
      modify (λ s, with_mgr x (mkMgr (mgr_team m) (delete (wname name) (channels m))) s);;
      modify (λ s, with_heap (delete ptr (heap s)) s)
    else mret tt
  end.

(** The destructor of a manager deletes its channels. *)
Definition destroy_mgr (x : side) : srv unit :=
  m ← gets (mgr x);
  modify (λ s, with_heap (foldr delete (heap s) ((map_to_list (channels m)).*2)) s);;
  modify (λ s, with_mgr x (mkMgr (mgr_team m) ∅) s).

(** ** The player's side *)

(** [CleanupChannels]: the loop over the list of the player [p] of team [t]. *)
Fixpoint cleanup_loop (p t : Z) (l : list Z) : srv unit :=
  match l with
  | [] => mret tt
  | ch :: l =>
    modify (λ s, with_plists (<[p := l]> (lists s)) s);;
    on_channel ch (Leave E ch p false);;
    h ← gets heap;
    c ← of_option (h !! ch);
    match channelMgr t with
    | Some x => mgr_LeftChannel x (m_name c)
    | None => mret tt
    end;;
    cleanup_loop p t l
  end.

Definition CleanupChannels (p t : Z) : srv unit :=
  l ← gets (λ s, default [] (lists s !! p)); cleanup_loop p t l.

Definition CanJoinConstantChannelInZone (channel_flags : Z) (ffa : bool) (guild : Z) : bool :=
  if has_bits channel_flags CHANNEL_DBC_FLAG_ZONE_DEP && ffa then false
  else if has_bits channel_flags CHANNEL_DBC_FLAG_GUILD_REQ && negb (guild =? 0) then false
  else true.

(** ** Opcodes *)

(** Reads the packet and continues; a [ByteBufferException] ends the handler. *)
Definition parse {A} (d : bb A) (recvPacket : ByteBuffer) (k : A → srv unit) : srv unit :=
  match (d recvPacket).1 with
  | Ret a => k a
  | Throw (ByteBufferException _ _ _ _) => mret tt
  | Throw _ => throw Undefined
  end.

(** The channel a handler works on: found by name in the manager of the player's team. *)
Definition with_channel (me : Session) (channelname : list Z) (k : Z → srv unit) : srv unit :=
  match channelMgr (team (self me)) with
  | None => mret tt
  | Some x =>
    chn ← GetChannel x channelname (guid me) true;
    match chn with Some ptr => k ptr | None => mret tt end
  end.

Definition HandleJoinChannel (me : Session) (recvPacket : ByteBuffer) : srv unit :=
  parse (channel_id ← get_u32; get_u8;; get_u8;; channelname ← get_string; pass ← get_string;
         mret (channel_id, channelname, pass)) recvPacket (λ '(channel_id, channelname, pass),
    let allowed :=
      if negb (channel_id =? 0) then
        match ChatChannels_flags E channel_id, zone_ffa me with
        | Some f, Some ffa => CanJoinConstantChannelInZone f ffa (guild_id me)
        | _, _ => false
        end
      else true in
    if negb allowed then mret tt
    else if bool_decide (channelname = []) then mret tt
    else
      match channelMgr (team (self me)) with
      | None => mret tt
      | Some x =>
        modify (λ s, with_mgr x (mkMgr (team (self me)) (channels (mgr x s))) s);;
        chn ← GetJoinChannel x channelname channel_id;
        on_channel chn (Join E chn (guid me) pass)
      end).

Definition HandleLeaveChannel (me : Session) (recvPacket : ByteBuffer) : srv unit :=
  parse (get_u32;; get_string) recvPacket (λ channelname,
    if bool_decide (channelname = []) then mret tt
    else
      match channelMgr (team (self me)) with
      | None => mret tt
      | Some x =>
        chn ← GetChannel x channelname (guid me) true;
        match chn with
        | Some ptr => on_channel ptr (Leave E ptr (guid me) true)
        | None => mret tt
        end;;
        mgr_LeftChannel x channelname
      end).

Definition HandleChannelList (me : Session) (recvPacket : ByteBuffer) : srv unit :=
  parse get_string recvPacket (λ channelname,
    with_channel me channelname (λ chn, on_channel chn (List_ E (guid me) (self me)))).

Definition HandleChannelPassword (me : Session) (recvPacket : ByteBuffer) : srv unit :=
  parse (channelname ← get_string; pass ← get_string; mret (channelname, pass)) recvPacket
    (λ '(channelname, pass),
       with_channel me channelname (λ chn, on_channel chn (Password E (guid me) pass))).

(** The handlers that name a second player. *)
Definition handle_named (me : Session) (recvPacket : ByteBuffer) (act : Z → list Z → cp unit) : srv unit :=
  parse (channelname ← get_string; otp ← get_string; mret (channelname, otp)) recvPacket
    (λ '(channelname, otp),
       match normalizePlayerName otp with
       | None => mret tt
       | Some otp => with_channel me channelname (λ chn, on_channel chn (act chn otp))
       end).

Definition HandleChannelSetOwner (me : Session) (recvPacket : ByteBuffer) : srv unit :=
  handle_named me recvPacket (λ _ newp, SetOwner_name E (guid me) newp).
Definition HandleChannelModerator (me : Session) (recvPacket : ByteBuffer) : srv unit :=
  handle_named me recvPacket (λ _ otp, SetMode E (guid me) otp true true).
Definition HandleChannelUnmoderator (me : Session) (recvPacket : ByteBuffer) : srv unit :=
  handle_named me recvPacket (λ _ otp, SetMode E (guid me) otp true false).
Definition HandleChannelMute (me : Session) (recvPacket : ByteBuffer) : srv unit :=
  handle_named me recvPacket (λ _ otp, SetMode E (guid me) otp false true).
Definition HandleChannelUnmute (me : Session) (recvPacket : ByteBuffer) : srv unit :=
  handle_named me recvPacket (λ _ otp, SetMode E (guid me) otp false false).
Definition HandleChannelInvite (me : Session) (recvPacket : ByteBuffer) : srv unit :=
  handle_named me recvPacket (λ _ otp, Invite E (guid me) otp).
Definition HandleChannelKick (me : Session) (recvPacket : ByteBuffer) : srv unit :=
  handle_named me recvPacket (λ chn otp, KickOrBan E chn (guid me) otp false).
Definition HandleChannelBan (me : Session) (recvPacket : ByteBuffer) : srv unit :=
  handle_named me recvPacket (λ chn otp, KickOrBan E chn (guid me) otp true).
Definition HandleChannelUnban (me : Session) (recvPacket : ByteBuffer) : srv unit :=
  handle_named me recvPacket (λ _ otp, UnBan E (guid me) otp).

Definition HandleChannelOwner (me : Session) (recvPacket : ByteBuffer) : srv unit :=
  parse get_string recvPacket (λ channelname,
    with_channel me channelname (λ chn, on_channel chn (SendWhoOwner E (guid me)))).

Definition HandleChannelAnnouncements (me : Session) (recvPacket : ByteBuffer) : srv unit :=
  parse get_string recvPacket (λ channelname,
    with_channel me channelname (λ chn, on_channel chn (Announce E (guid me)))).

Definition HandleChannelDisplayListQuery := HandleChannelList.

Definition HandleGetChannelMemberCount (me : Session) (recvPacket : ByteBuffer) : srv unit :=
  parse get_string recvPacket (λ channelname,
    with_channel me channelname (λ chn,
      h ← gets heap;
      c ← of_option (h !! chn);
      SendPacket_to (guid me) (build SMSG_CHANNEL_MEMBER_COUNT
        (put_string (m_name c);; put_u8 (m_flags c);; put_u32 (GetNumPlayers c))))).

(** Only reads its packet. *)
Definition HandleSetChannelWatch (me : Session) (recvPacket : ByteBuffer) : srv unit :=
  parse get_string recvPacket (λ _, mret tt).

End Server.
