(* ===== verification/ChannelServerFacts.v ===== *)
(** * ChannelServerFacts: the pointers to channels stay live

    [Grows] code of a channel never removes a member, [tracked] relates the worlds
    around a command that keeps the players' lists inside the member map, and
    [server_ok] is the invariant of the managers, the heap and the lists. *)

From Stdlib Require Import ZArith Lia.
From S2P Require Import Prelude ByteBuffer ByteBufferFacts Guid Util Channel ChannelFacts ChannelServer.
Local Open Scope Z_scope.

Definition list_of (l : gmap Z (list Z)) (q : Z) : list Z := default [] (l !! q).

Lemma list_of_insert l p v q : list_of (<[p := v]> l) q = if decide (p = q) then v else list_of l q.
Proof. unfold list_of. rewrite lookup_insert. by case_decide. Qed.

(** ** Commands that remove no member *)

Definition grows (w w' : World) : Prop :=
  (m_name (chan w') = m_name (chan w) ∧ m_channelId (chan w') = m_channelId (chan w)) ∧
  m_channels w' = m_channels w ∧ dom (players (chan w)) ⊆ dom (players (chan w')).

#[export] Instance grows_preorder : PreOrder grows.
Proof.
  split; [by intros w|]. intros w1 w2 w3 ([N1 I1] & L1 & D1) ([N2 I2] & L2 & D2).
  split_and!; [congruence..|by etrans].
Qed.

Class Grows {A} (p : cp A) : Prop := grow : ∀ w, ∃ a w', p w = (Ret a, w') ∧ grows w w'.

#[export] Instance gr_ret {A} (a : A) : Grows (mret a).
Proof. intros w. by exists a, w. Qed.
#[export] Instance gr_get {A} (f : Channel → A) : Grows (get f).
Proof. intros w. by eexists _, w. Qed.
#[export] Instance gr_quiet p : Quiet p → Grows p.
Proof. intros Hp w. destruct (Hp w) as [es ->]. by eexists _, _. Qed.
#[export] Instance gr_bind {A B} (p : cp A) (k : A → cp B) :
  Grows p → (∀ a, Grows (k a)) → Grows (p ≫= k).
Proof.
  intros Hp Hk w. destruct (Hp w) as (a & w1 & E1 & G1). destruct (Hk a w1) as (b & w2 & E2 & G2).
  exists b, w2. erewrite bind_ret_run by exact E1. split; [done|by etrans].
Qed.
#[export] Instance gr_if {A} (b : bool) (p q : cp A) : Grows p → Grows q → Grows (if b then p else q).
Proof. by destruct b. Qed.

Lemma gr_upd (f : Channel → Channel) :
  (∀ c, m_name (f c) = m_name c) → (∀ c, m_channelId (f c) = m_channelId c) →
  (∀ c, dom (players c) ⊆ dom (players (f c))) → Grows (upd f).
Proof. intros Hn Hi Hd w. eexists _, _. split; [done|]. split_and!; simpl; auto. Qed.

#[export] Instance gr_at_player p : Grows (at_player p).
Proof.
  unfold at_player. apply gr_bind; [apply _|]. intros [i|]; [apply _|].
  apply gr_bind; [|intros _; apply _]. apply gr_upd; [done..|]. intros c. simpl. rewrite dom_insert_L. set_solver.
Qed.
#[export] Instance gr_on_player p g : Grows (on_player p g).
Proof.
  intros w. rewrite on_player_run. eexists _, _. split; [done|]. split_and!; [done..|].
  simpl. rewrite dom_insert_L. set_solver.
Qed.

Lemma dom_owner_set g c :
  dom (players (owner_set g c)) = if g =? 0 then dom (players c) else {[g]} ∪ dom (players c).
Proof.
  unfold owner_set. set (c1 := if negb (m_ownerGUID c =? 0) then _ else c).
  assert (dom (players c1) = dom (players c)) as E.
  { subst c1. case_match; [|done]. simpl. by rewrite dom_alter_L. }
  destruct (g =? 0); simpl; [done|]. rewrite !dom_insert_L, E. set_solver.
Qed.

#[export] Instance gr_SetOwner E g b : Grows (SetOwner E g b).
Proof.
  intros w. destruct (SetOwner_run E g b w) as [es ->]. eexists _, _. split; [done|].
  split_and!; simpl; [| |done|rewrite dom_owner_set; case_match; set_solver];
    unfold owner_set; by repeat case_match.
Qed.
#[export] Instance gr_SetModerator E p b : Grows (SetModerator E p b).
Proof. unfold SetModerator. apply _. Qed.
#[export] Instance gr_SetMute E p b : Grows (SetMute E p b).
Proof. unfold SetMute. apply _. Qed.
#[export] Instance gr_as_moderator E p sec body : Grows body → Grows (as_moderator E p sec body).
Proof. intros Hb. unfold as_moderator. apply _. Qed.
#[export] Instance gr_UnBan E g n : Grows (UnBan E g n).
Proof.
  unfold UnBan. apply gr_as_moderator, gr_bind; [apply _|intros c].
  destruct (FindPlayerByName E n) as [[bad ?]|]; [|apply _]. apply gr_if; [apply _|].
  apply gr_bind; [by apply gr_upd|intros _; apply _].
Qed.
#[export] Instance gr_Password E p pass : Grows (Password E p pass).
Proof. unfold Password. apply gr_as_moderator, gr_bind; [by apply gr_upd|intros _; apply _]. Qed.
#[export] Instance gr_Announce E p : Grows (Announce E p).
Proof. unfold Announce. apply gr_as_moderator, gr_bind; [by apply gr_upd|intros _; apply _]. Qed.
#[export] Instance gr_SetMode E p n m s : Grows (SetMode E p n m s).
Proof.
  unfold SetMode. case_match; [|apply _]. apply gr_as_moderator, gr_bind; [apply _|intros c].
  destruct (FindPlayerByName E n) as [[newp np]|]; [|apply _]. repeat (apply gr_if; [apply _|]). apply _.
Qed.
#[export] Instance gr_SetOwner_name E p n : Grows (SetOwner_name E p n).
Proof.
  unfold SetOwner_name. case_match; [|apply _]. apply gr_bind; [apply _|intros c].
  repeat (apply gr_if; [apply _|]). destruct (FindPlayerByName E n) as [[? ?]|]; apply _.
Qed.

(** ** Commands that keep the lists inside the member map *)

(** Whoever lists the channel is a member of it. *)
Definition linked (this : Z) (w : World) : Prop :=
  ∀ q, this ∈ list_of (m_channels w) q → q ∈ dom (players (chan w)).

Definition nodups (l : gmap Z (list Z)) : Prop := ∀ q, NoDup (list_of l q).

Definition tracked (this : Z) (w w' : World) : Prop :=
  m_name (chan w') = m_name (chan w) ∧ linked this w' ∧ nodups (m_channels w') ∧
  ∀ q ch, ch ≠ this → ch ∈ list_of (m_channels w') q → ch ∈ list_of (m_channels w) q.

Definition Tracks (this : Z) (p : cp unit) (w : World) : Prop :=
  ∃ w', p w = (Ret tt, w') ∧ tracked this w w'.

Definition fit (this : Z) (w : World) : Prop := linked this w ∧ nodups (m_channels w).

Lemma grows_tracked this w w' : fit this w → grows w w' → tracked this w w'.
Proof.
  intros [Hl Hn] ([N _] & L & D). split_and!; [done| |by rewrite L|by rewrite L].
  intros q. rewrite L. intros Hq. by apply D, Hl.
Qed.

Lemma tracks_grows this p w : Grows p → fit this w → Tracks this p w.
Proof.
  intros Hp Hw. destruct (Hp w) as ([] & w' & E & G). exists w'. split; [done|by apply grows_tracked].
Qed.

Lemma tracked_grows this w w1 w2 : tracked this w w1 → grows w1 w2 → tracked this w w2.
Proof.
  intros (N1 & K1 & D1 & S1) G. assert (tracked this w1 w2) as (N2 & K2 & D2 & S2).
  { by apply grows_tracked. }
  split_and!; [congruence|done..|]. auto.
Qed.

(** Code before and after that removes no member. *)
Lemma tracks_after {A} this (p : cp A) k w :
  Grows p → fit this w → (∀ a w1, grows w w1 → fit this w1 → Tracks this (k a) w1) → Tracks this (p ≫= k) w.
Proof.
  intros Hp Hw Hk. destruct (Hp w) as (a & w1 & E & G).
  assert (tracked this w w1) as (N1 & K1 & D1 & S1) by by apply grows_tracked.
  destruct (Hk a w1 G) as (w2 & E2 & N2 & K2 & D2 & S2); [done|].
  exists w2. erewrite bind_ret_run by exact E. split; [done|]. split_and!; [congruence|done..|].
  intros q ch Hch Hin. auto.
Qed.

Lemma tracks_before this p q w w1 :
  p w = (Ret tt, w1) → tracked this w w1 → Grows q → Tracks this (p;; q) w.
Proof.
  intros E T Hq. destruct (Hq w1) as ([] & w2 & E2 & G). exists w2.
  erewrite bind_ret_run by exact E. split; [done|by eapply tracked_grows].
Qed.

(** The three steps that touch a list: a player enters its channel in its list and is
    inserted, is erased after the list forgot the channel, or before. *)
Definition enter (this p : Z) (listed : bool) (w : World) : World :=
  let l := m_channels w in
  mkWorld (with_players (<[p := mkInfo p 0]> (players (chan w))) (chan w))
    (if listed then <[p := list_of l p ++ [this]]> l else l) (effects w).

Definition forget (this p : Z) (l : gmap Z (list Z)) : gmap Z (list Z) :=
  <[p := filter (λ c, c ≠ this) (list_of l p)]> l.

Lemma tracked_enter this p b w :
  fit this w → p ∉ dom (players (chan w)) → tracked this w (enter this p b w).
Proof.
  intros [Hl Hn] Hp. assert (∀ q, this ∈ list_of (m_channels w) q → q ≠ p) as Hne.
  { intros q Hq ->. by apply Hp, Hl. }
  split_and!; [done|intros q|intros q|intros q ch Hch]; simpl; destruct b;
    rewrite ?dom_insert_L, ?list_of_insert; try case_decide as Hq; subst; try apply Hn; try set_solver.
  apply NoDup_app. split_and!; [apply Hn| |apply NoDup_singleton]. set_solver.
Qed.

Lemma elem_of_forget this p l q ch :
  ch ∈ list_of (forget this p l) q ↔ ch ∈ list_of l q ∧ (q = p → ch ≠ this).
Proof.
  unfold forget. rewrite list_of_insert. case_decide as E; [subst|set_solver].
  rewrite list_elem_of_filter. set_solver.
Qed.

Lemma nodups_forget this p l : nodups l → nodups (forget this p l).
Proof.
  intros Hn q. unfold forget. rewrite list_of_insert. case_decide; [|done]. by apply NoDup_filter.
Qed.

(** [p] is no member and does not list the channel. *)
Lemma tracked_erase this p w w' :
  fit this w → m_name (chan w') = m_name (chan w) →
  dom (players (chan w')) = dom (players (chan w)) ∖ {[p]} →
  nodups (m_channels w') →
  (∀ q ch, ch ∈ list_of (m_channels w') q → ch ∈ list_of (m_channels w) q ∧ (q = p → ch ≠ this)) →
  tracked this w w'.
Proof.
  intros [Hl Hn] N D K H. split_and!; [done| |done|].
  - intros q Hq. rewrite D. destruct (H q this Hq) as [Hin Hne].
    apply elem_of_difference. split; [by apply Hl|]. set_solver.
  - intros q ch _ Hq. by apply H.
Qed.

Lemma Join_tracks E this p pass w : fit this w → Tracks this (Join E this p pass) w.
Proof.
  intros Hw. unfold Join. unfold Tracks. erewrite bind_ret_run by done. fold (Tracks this).
  destruct (IsOn p (id (chan w))) eqn:Eon; [by apply tracks_grows; [apply _|]|].
  do 2 (case_match; [by apply tracks_grows; [apply _|]|]). cbv zeta.
  case_match; [by apply tracks_grows; [apply _|]|].
  set (b := bool_decide (is_Some (FindPlayer E p))).
  set (w1 := if b then (JoinedChannel this p w).2 else w).
  unfold Tracks. rewrite (bind_ret_run _ _ w tt w1) by (subst w1 b; by destruct (FindPlayer E p)).
  assert (∃ es, (if announced E (FindPlayer E p) (id (chan w)) then tell_all E (MakeJoined p) else mret tt) w1
    = (Ret tt, mkWorld (chan w1) (m_channels w1) (effects w1 ++ es))) as [es Ees].
  { match goal with |- ∃ es, ?q w1 = _ => assert (Quiet q) as Hq by apply _; apply Hq end. }
  rewrite (bind_ret_run _ _ _ _ _ Ees).
  set (w2 := mkWorld (chan w) (m_channels w) (effects w ++ es)).
  match goal with |- ∃ w', (?u;; ?r) ?x = _ ∧ _ =>
    assert (Grows r) as Hr by apply _; destruct (Hr (enter this p b w2)) as ([] & w3 & E3 & G3);
    assert (u x = (Ret tt, enter this p b w2)) as Eu by (subst w1 w2 b; by destruct (FindPlayer E p))
  end.
  exists w3. rewrite (bind_ret_run _ _ _ _ _ Eu). split; [exact E3|].
  apply (tracked_grows this w (enter this p b w2)); [|done].
  apply (tracked_enter this p b w2); [done|]. apply not_elem_of_dom. simpl.
  unfold IsOn in Eon. apply bool_decide_eq_false in Eon. by apply eq_None_not_Some.
Qed.

(** Code that adds at most one member. *)
Class AddsOne (p : cp unit) : Prop := adds_one : ∀ w, ∃ w' k, p w = (Ret tt, w') ∧ grows w w' ∧
  dom (players (chan w')) ⊆ {[k]} ∪ dom (players (chan w)).

#[export] Instance ao_quiet p : Quiet p → AddsOne p.
Proof. intros Hp w. destruct (Hp w) as [es ->]. eexists _, 0. split; [done|]. split; [done|]. set_solver. Qed.
#[export] Instance ao_seq p q : Quiet p → AddsOne q → AddsOne (p;; q).
Proof. intros Hp Hq w. destruct (Hp w) as [es E]. erewrite bind_ret_run by exact E. apply (Hq (mkWorld _ _ _)). Qed.
#[export] Instance ao_get {A} (f : Channel → A) k : (∀ a, AddsOne (k a)) → AddsOne (a ← get f; k a).
Proof. intros Hk w. erewrite bind_ret_run by done. apply Hk. Qed.
#[export] Instance ao_if (b : bool) p q : AddsOne p → AddsOne q → AddsOne (if b then p else q).
Proof. by destruct b. Qed.
#[export] Instance ao_new_owner E g :
  AddsOne (on_player g (info_SetModerator true);; SetOwner E g true).
Proof.
  intros w. erewrite bind_ret_run by apply on_player_run.
  destruct (SetOwner_run E g true (with_chan (put_player g (info_SetModerator true) (chan w)) w)) as [es Es].
  assert (Grows (on_player g (info_SetModerator true);; SetOwner E g true)) as Hg by apply _.
  destruct (Hg w) as ([] & w' & E' & G). erewrite bind_ret_run in E' by apply on_player_run.
  exists w', g. split; [done|]. split; [done|]. rewrite Es in E'. injection E' as <-. simpl.
  rewrite dom_owner_set. simpl. rewrite dom_insert_L. case_match; set_solver.
Qed.

Lemma size_add_one (ps qs : gmap Z PlayerInfo) k p :
  is_Some (ps !! p) → dom qs ⊆ {[k]} ∪ dom (delete p ps) → (base.size qs <= base.size ps)%nat.
Proof.
  intros Hp Hs. rewrite <- !size_dom. apply subseteq_size in Hs.
  pose proof (map_size_delete_Some p ps Hp) as E. rewrite <- !size_dom in E.
  pose proof (size_union_alt ({[k]} : gset Z) (dom (delete p ps))) as U.
  assert (base.size (dom (delete p ps) ∖ {[k]}) <= base.size (dom (delete p ps)))%nat.
  { apply subseteq_size. set_solver. }
  rewrite size_singleton in U.
  assert (0 < base.size (dom ps))%nat.
  { rewrite size_dom. destruct (decide (base.size ps = 0)%nat) as [E0|]; [|lia].
    apply map_size_empty_inv in E0. subst. by apply lookup_empty_is_Some in Hp. }
  lia.
Qed.

(** Code that leaves a channel without members empty. *)
Lemma stays_seq (p q : cp unit) w :
  Quiet p → (∀ w', players (chan w') = ∅ → players (chan (q w').2) = ∅) →
  players (chan w) = ∅ → players (chan ((p;; q) w).2) = ∅.
Proof. intros Hp Hq H. destruct (Hp w) as [es E]. erewrite bind_ret_run by exact E. by apply Hq. Qed.

Lemma sorted_elems_nil {A} : sorted_elems (∅ : gmap Z A) = [].
Proof. apply Permutation_nil_r. by rewrite sorted_elems_perm, map_to_list_empty. Qed.

(** Erasing a member, with what [Leave] does to the list, then anything that grows. *)
Definition erased (this p : Z) (forgotten : bool) (w : World) : World :=
  mkWorld (with_players (delete p (players (chan w))) (chan w))
    (if forgotten then forget this p (m_channels w) else m_channels w) (effects w).

Lemma tracked_erased this p b w :
  fit this w → (b = false → this ∉ list_of (m_channels w) p) → tracked this w (erased this p b w).
Proof.
  intros Hw Hb. apply (tracked_erase this p); [done..| | |]; simpl.
  - by rewrite dom_delete_L.
  - destruct b; [apply nodups_forget|]; apply Hw.
  - intros q ch. destruct b; [apply elem_of_forget|]. intros Hin. split; [done|]. intros -> ->. by apply Hb.
Qed.

Lemma Leave_run E this p send w :
  is_Some (players (chan w) !! p) → ∃ w', Leave E this p send w = (Ret tt, w') ∧
    grows (erased this p (send && bool_decide (is_Some (FindPlayer E p))) w) w' ∧
    (base.size (players (chan w')) <= base.size (players (chan w)))%nat ∧
    (delete p (players (chan w)) = ∅ → players (chan w') = ∅).
Proof.
  intros Hp. set (b := send && _). unfold Leave. erewrite bind_ret_run by done. unfold IsOn at 1. simpl (id _).
  rewrite bool_decide_true by done. cbn [negb]. cbv zeta.
  assert (∃ es, (if send then tell E p MakeYouLeft;;
      match FindPlayer E p with Some _ => LeftChannel this p | None => mret tt end else mret tt) w =
      (Ret tt, mkWorld (chan w) (if b then forget this p (m_channels w) else m_channels w) (effects w ++ es)))
    as [es Ees].
  { subst b. destruct send; [|exists []; rewrite app_nil_r; by destruct w].
    destruct (FindPlayer E p) eqn:Ef; (eexists; erewrite bind_ret_run by apply tell_run; by rewrite Ef). }
  destruct Hp as [i Hi].
  erewrite bind_ret_run by exact Ees. erewrite bind_ret_run by by apply at_player_run.
  erewrite bind_ret_run by done.
  match goal with |- ∃ w', ?p ?w1 = _ ∧ _ => assert (AddsOne p) as Ha end.
  { repeat (apply ao_seq; [apply _|]). apply ao_get. intros c. apply ao_if; [|apply _].
    apply ao_seq; [apply _|]. destruct (first_player c); apply _. }
  match goal with |- ∃ w', _ ?w1 = _ ∧ _ => destruct (Ha w1) as (w' & k & E' & G & D) end.
  exists w'. split; [exact E'|]. split; [exact G|]. split; [eapply size_add_one; [by eexists|exact D]|].
  intros Hnil. apply (f_equal snd) in E'. simpl in E'. rewrite <- E'.
  apply stays_seq; [apply _| |exact Hnil]. intros w2 H2. apply stays_seq; [apply _| |exact H2].
  intros w3 H3. erewrite bind_ret_run by done. destruct (negb _); [|exact H3].
  apply stays_seq; [apply _| |exact H3]. intros w4 H4.
  unfold first_player, id. rewrite H3, sorted_elems_nil. done.
Qed.

Lemma Leave_tracks E this p (send : bool) w :
  fit this w → (if send then is_Some (FindPlayer E p) else this ∉ list_of (m_channels w) p) →
  ∃ w', Leave E this p send w = (Ret tt, w') ∧ tracked this w w' ∧
    (base.size (players (chan w')) <= base.size (players (chan w)))%nat ∧
    (send = false → m_channels w' = m_channels w).
Proof.
  intros Hw Hs. destruct (players (chan w) !! p) as [i|] eqn:Ei.
  - destruct (Leave_run E this p send w) as (w' & E' & G & S & _); [by eexists|]. exists w'.
    split_and!; [done| |done|by intros ->; apply G]. eapply tracked_grows; [|exact G].
    apply tracked_erased; [done|]. destruct send; [by rewrite bool_decide_true|done].
  - unfold Leave. erewrite bind_ret_run by done. unfold IsOn at 1. simpl (id _). rewrite Ei.
    rewrite bool_decide_false by by intros [? ?]. cbn [negb].
    match goal with |- ∃ w', ?p ?w1 = _ ∧ _ => assert (Quiet p) as Hq by apply _ end.
    destruct (Hq w) as [es ->]. eexists. split; [done|]. split; [|done]. by apply grows_tracked.
Qed.

Lemma KickOrBan_tracks E this good n ban w : fit this w → Tracks this (KickOrBan E this good n ban) w.
Proof.
  intros Hw. unfold KickOrBan, as_moderator. cbv zeta.
  apply tracks_after; [apply _|done|]. intros c w1 G1 Hw1.
  destruct (negb (IsOn good c)); [by apply tracks_grows; [apply _|]|].
  apply tracks_after; [apply _|done|]. intros i w2 G2 Hw2.
  case_match; [by apply tracks_grows; [apply _|]|].
  apply tracks_after; [apply _|done|]. intros c3 w3 G3 Hw3.
  destruct (FindPlayerByName E n) as [[bad ?]|]; [|by apply tracks_grows; [apply _|]].
  do 2 (case_match; [by apply tracks_grows; [apply _|]|]).
  apply tracks_after; [|done|].
  { apply gr_if; [|apply _]. apply gr_bind; [by apply gr_upd|intros _; apply _]. }
  intros [] w4 G4 Hw4.
  match goal with |- Tracks _ (?u;; ?l;; ?r) _ => assert (Grows r) as Hr by apply _;
    destruct (Hr (erased this bad true w4)) as ([] & w5 & E5 & G5) end.
  exists w5. erewrite bind_ret_run by done. erewrite bind_ret_run by done. split; [exact E5|].
  eapply tracked_grows; [|exact G5]. by apply tracked_erased.
Qed.

(** ** The server *)

Section Facts.
Context (wname : list Z → list Z).

(** The managers point to live channels under their folded names, every channel has
    exactly one entry, and a player's list has live channels it is a member of. *)
Record server_ok (s : Server) : Prop := {
  ok_managed x k ptr : channels (mgr x s) !! k = Some ptr →
    ∃ c, heap s !! ptr = Some c ∧ wname (m_name c) = k;
  ok_unique x k x' k' ptr : channels (mgr x s) !! k = Some ptr →
    channels (mgr x' s) !! k' = Some ptr → x = x' ∧ k = k';
  ok_no_leak ptr c : heap s !! ptr = Some c →
    ∃ x, channels (mgr x s) !! wname (m_name c) = Some ptr;
  ok_listed q ptr : ptr ∈ list_of (lists s) q →
    ∃ c, heap s !! ptr = Some c ∧ q ∈ dom (players c);
  ok_nodup : nodups (lists s)
}.

(** [GetNumPlayers] is the number of members. *)
Definition bounded (s : Server) : Prop :=
  ∀ ptr c, heap s !! ptr = Some c → Z.of_nat (base.size (players c)) < 2 ^ 32.

Lemma server_fit s ptr c :
  server_ok s → heap s !! ptr = Some c → fit ptr (mkWorld c (lists s) (sent s)).
Proof.
  intros Hs Hc. split; [|apply Hs]. intros q Hq. simpl in *.
  destruct (ok_listed s Hs q ptr Hq) as (c' & E & Hin). by simplify_eq.
Qed.

Definition touched (ptr : Z) (w : World) (s : Server) : Server :=
  mkServer (<[ptr := chan w]> (heap s)) (alliance_mgr s) (horde_mgr s) (m_channels w) (effects w).

Lemma mgr_touched x ptr w s : mgr x (touched ptr w s) = mgr x s.
Proof. by destruct x. Qed.

Lemma touched_ok s ptr c w :
  server_ok s → heap s !! ptr = Some c → tracked ptr (mkWorld c (lists s) (sent s)) w →
  server_ok (touched ptr w s).
Proof.
  intros Hs Hc (N & L & D & S). simpl in *. split.
  - intros x k p. rewrite mgr_touched. intros Hp. destruct (ok_managed s Hs x k p Hp) as (c' & E & <-).
    simpl. destruct (decide (p = ptr)) as [->|Hne].
    + rewrite lookup_insert_eq. simplify_eq. eexists. split; [done|congruence].
    + rewrite lookup_insert_ne by done. by eexists.
  - intros x k x' k' p. rewrite !mgr_touched. apply (ok_unique s Hs).
  - intros p c'. simpl. intros [[<- <-]|[_ Hp]]%lookup_insert_Some.
    + destruct (ok_no_leak s Hs ptr c Hc) as [x Hx]. exists x. by rewrite mgr_touched, N.
    + destruct (ok_no_leak s Hs p c' Hp) as [x Hx]. exists x. by rewrite mgr_touched.
  - intros q p Hp. simpl in *. destruct (decide (p = ptr)) as [->|Hne].
    + rewrite lookup_insert_eq. eexists. split; [done|]. by apply L.
    + rewrite lookup_insert_ne by done. by apply (ok_listed s Hs), S.
  - done.
Qed.

(** A server program runs to its end and keeps the invariant. *)
Definition keeps {A} (p : srv A) (s : Server) : Prop :=
  ∃ a s', p s = (Ret a, s') ∧ server_ok s'.

Lemma on_channel_run ptr p c w s :
  heap s !! ptr = Some c → p (mkWorld c (lists s) (sent s)) = (Ret tt, w) →
  on_channel ptr p s = (Ret tt, touched ptr w s).
Proof. intros Hc E. unfold on_channel. by rewrite Hc, E. Qed.

Lemma on_channel_keeps ptr p s :
  server_ok s → is_Some (heap s !! ptr) → (∀ w, fit ptr w → Tracks ptr p w) → keeps (on_channel ptr p) s.
Proof.
  intros Hs [c Hc] Hp. destruct (Hp _ (server_fit s ptr c Hs Hc)) as (w & E & T).
  eexists tt, _. split; [by eapply on_channel_run|by eapply touched_ok].
Qed.

(** What a change of [sent] alone keeps. *)
Lemma sent_ok s e : server_ok s → server_ok (with_sent e s).
Proof.
  assert (∀ x, mgr x (with_sent e s) = mgr x s) as E by by intros [].
  intros [Ma Un Le Li No]. split; setoid_rewrite E || idtac; done.
Qed.

Lemma bind_keeps {A B} (p : srv A) (k : A → srv B) s :
  keeps p s → (∀ a s', p s = (Ret a, s') → server_ok s' → keeps (k a) s') → keeps (p ≫= k) s.
Proof.
  intros (a & s1 & E & H1) Hk. destruct (Hk a s1 E H1) as (b & s2 & E2 & H2).
  exists b, s2. by erewrite bind_ret_run by exact E.
Qed.

Lemma parse_keeps {A} (d : bb A) b (k : A → srv unit) s :
  SafeReader d → valid b → server_ok s → (∀ a, keeps (k a) s) → keeps (parse d b k) s.
Proof.
  intros Hd Hb Hs Hk. destruct (Hd b Hb) as (_ & _ & Hn). unfold parse.
  destruct (d b).1 as [a|[]]; [apply Hk|..]; try done. by exists tt, s.
Qed.

(** ** The managers *)

Definition rows_ok (ChannelTable : list Z → Z → option ChannelRow) : Prop :=
  ∀ n t a o pw text, ChannelTable n t = Some (a, o, pw, Some text) → is_Some (parse_ban_list text).

Lemma new_Channel_total E T n id_ t :
  rows_ok T → ∃ c es, new_Channel E n id_ t (T n t) = Some (c, es) ∧ players c = ∅ ∧ m_name c = n.
Proof.
  intros HT. assert (is_Some (new_Channel E n id_ t (T n t))) as [[c es] H].
  { unfold new_Channel. destruct (ChatChannels_flags E id_); [by eexists|].
    destruct (CONFIG_PRESERVE_CUSTOM_CHANNELS E); [|by eexists].
    destruct (T n t) as [[[[a o] pw] [text|]]|] eqn:ET; [|by eexists..].
    destruct (HT n t a o pw text ET) as [b ->]. by eexists. }
  exists c, es. split; [done|]. by destruct (new_Channel_empty _ _ _ _ _ _ _ H) as (? & ? & ?).
Qed.

Lemma mgr_with_mgr x y m s : mgr x (with_mgr y m s) = if decide (x = y) then m else mgr x s.
Proof. by destruct x, y. Qed.

(** A fresh channel enters a manager under a name it does not have. *)
Lemma enter_mgr_ok x n c ptr e m s :
  server_ok s → heap s !! ptr = None → wname (m_name c) = n → channels (mgr x s) !! n = None →
  channels m = <[n := ptr]> (channels (mgr x s)) →
  server_ok (with_mgr x m (with_sent e (with_heap (<[ptr := c]> (heap s)) s))).
Proof.
  intros Hs Hfresh Hn Hnew Hm. set (s' := with_mgr _ _ _).
  assert (heap s' = <[ptr := c]> (heap s)) as Eh by by destruct x.
  assert (lists s' = lists s) as El by by destruct x.
  assert (∀ y k p, channels (mgr y s') !! k = Some p →
    (y = x ∧ k = n ∧ p = ptr) ∨ (channels (mgr y s) !! k = Some p ∧ p ≠ ptr)) as Hlook.
  { intros y k p. subst s'. rewrite mgr_with_mgr. intros H.
    assert (channels (mgr y s) !! k = Some p → p ≠ ptr) as Hne.
    { intros H' ->. destruct (ok_managed s Hs y k ptr H') as (c' & E & _). congruence. }
    case_decide as Ey; [subst y; rewrite Hm in H|destruct x, y; naive_solver].
    apply lookup_insert_Some in H as [[<- <-]|[_ H]]; [by left|right; by auto]. }
  split.
  - intros y k p Hp. rewrite Eh. apply Hlook in Hp as [(-> & -> & ->)|[Hp Hne]].
    + rewrite lookup_insert_eq. by eexists.
    + rewrite lookup_insert_ne by done. by eapply ok_managed.
  - intros y k y' k' p [(-> & -> & ->)|[Hp Hne]]%Hlook [(-> & -> & E)|[Hp' Hne']]%Hlook; try done.
    by eapply ok_unique.
  - intros p c'. rewrite Eh. intros [[<- <-]|[Hne Hp]]%lookup_insert_Some.
    + exists x. subst s'. rewrite mgr_with_mgr, decide_True, Hm, Hn by done. apply lookup_insert_eq.
    + destruct (ok_no_leak s Hs p c' Hp) as [y Hy]. exists y. subst s'. rewrite mgr_with_mgr.
      case_decide as Ey; [subst y|by destruct x, y]. rewrite Hm, lookup_insert_ne; [done|].
      intros E. rewrite <- E in Hy. congruence.
  - intros q p. rewrite El, Eh. intros Hp. destruct (ok_listed s Hs q p Hp) as (c' & Hc' & Hq).
    exists c'. split; [|done]. rewrite lookup_insert_ne; [done|]. congruence.
  - rewrite El. apply Hs.
Qed.

Lemma GetJoinChannel_keeps E T x n id_ s :
  rows_ok T → server_ok s → ∃ ptr s', GetJoinChannel E wname T x n id_ s = (Ret ptr, s') ∧
    server_ok s' ∧ channels (mgr x s') !! wname n = Some ptr.
Proof.
  intros HT Hs. unfold GetJoinChannel. erewrite bind_ret_run by done.
  destruct (channels (mgr x s) !! wname n) as [ptr|] eqn:En; [by exists ptr, s|].
  destruct (new_Channel_total E T n id_ (mgr_team (mgr x s)) HT) as (c & es & Ec & Hp & Hn).
  erewrite bind_ret_run by by rewrite Ec. repeat (erewrite bind_ret_run by done).
  set (ptr := fresh (dom (heap s))). eexists ptr, _. split; [done|]. split.
  - apply (enter_mgr_ok x (wname n) c ptr); [done| |by rewrite Hn|done|by destruct x].
    apply not_elem_of_dom, is_fresh.
  - destruct x; simpl; by rewrite lookup_insert_eq.
Qed.

Lemma remove_mgr_ok x n ptr c m s :
  server_ok s → channels (mgr x s) !! n = Some ptr → heap s !! ptr = Some c → players c = ∅ →
  channels m = delete n (channels (mgr x s)) →
  server_ok (with_heap (delete ptr (heap s)) (with_mgr x m s)).
Proof.
  intros Hs Hn Hc Hp Hm. set (s' := with_heap _ _).
  assert (heap s' = delete ptr (heap s)) as Eh by by destruct x.
  assert (lists s' = lists s) as El by by destruct x.
  assert (∀ y, mgr y s' = if decide (y = x) then m else mgr y s) as Em by by intros []; destruct x.
  assert (∀ y k p, channels (mgr y s') !! k = Some p → channels (mgr y s) !! k = Some p ∧ p ≠ ptr) as Hlook.
  { intros y k p. rewrite Em. intros H. case_decide as Ey.
    - subst y. rewrite Hm in H. apply lookup_delete_Some in H as [Hne H]. split; [done|]. intros ->.
      by destruct (ok_unique s Hs x n x k ptr Hn H).
    - split; [done|]. intros ->. by destruct (ok_unique s Hs x n y k ptr Hn H). }
  split.
  - intros y k p [H Hne]%Hlook. rewrite Eh, lookup_delete_ne by done. by eapply ok_managed.
  - intros y k y' k' p [H _]%Hlook [H' _]%Hlook. by eapply ok_unique.
  - intros p c'. rewrite Eh. intros [Hne H]%lookup_delete_Some. destruct (ok_no_leak s Hs p c' H) as [y Hy].
    exists y. rewrite Em. case_decide as Ey; [subst y|done].
    rewrite Hm, lookup_delete_ne; [done|]. intros E. rewrite <- E in Hy. congruence.
  - intros q p. rewrite El, Eh. intros H. destruct (ok_listed s Hs q p H) as (c' & Hc' & Hq).
    exists c'. split; [|done]. rewrite lookup_delete_ne; [done|]. intros <-. simplify_eq.
    by rewrite Hp, dom_empty in Hq.
  - rewrite El. apply Hs.
Qed.

Lemma no_players c : Z.of_nat (base.size (players c)) < 2 ^ 32 →
  GetNumPlayers c = 0 ↔ players c = ∅.
Proof.
  intros Hb. unfold GetNumPlayers. rewrite uwrap_small by (unfold in_u; lia).
  split; [|intros ->; by rewrite map_size_empty]. intros H. apply map_size_empty_inv. lia.
Qed.

Lemma mgr_LeftChannel_keeps x n s :
  server_ok s → bounded s → ∃ s', mgr_LeftChannel wname x n s = (Ret tt, s') ∧
    server_ok s' ∧ bounded s' ∧ lists s' = lists s.
Proof.
  intros Hs Hb. unfold mgr_LeftChannel. erewrite bind_ret_run by done.
  destruct (channels (mgr x s) !! wname n) as [ptr|] eqn:En; [|by exists s].
  erewrite bind_ret_run by done.
  destruct (ok_managed s Hs x _ ptr En) as (c & Ec & _).
  erewrite bind_ret_run by by rewrite Ec.
  destruct (GetNumPlayers c =? 0) eqn:E0; [|by exists s].
  destruct (negb (IsConstant c)); [|by exists s]. cbn [andb].
  assert (players c = ∅) as Hp by (apply no_players; [by eapply Hb|lia]).
  erewrite bind_ret_run by done. eexists. split; [done|].
  replace (heap (with_mgr _ _ s)) with (heap s) by by destruct x.
  split; [by eapply remove_mgr_ok|]. split; [|by destruct x].
  intros p c'. destruct x; simpl; intros [_ H]%lookup_delete_Some; by eapply Hb.
Qed.

(** [Leave] on a channel of the heap: the size bound is kept. *)
Lemma Leave_keeps E ptr p (send : bool) s :
  server_ok s → bounded s → is_Some (heap s !! ptr) →
  (if send then is_Some (FindPlayer E p) else ptr ∉ list_of (lists s) p) →
  ∃ s', on_channel ptr (Leave E ptr p send) s = (Ret tt, s') ∧ server_ok s' ∧ bounded s' ∧
    (send = false → lists s' = lists s) ∧ dom (heap s') = dom (heap s).
Proof.
  intros Hs Hb [c Hc] Hp. destruct (Leave_tracks E ptr p send _ (server_fit s ptr c Hs Hc) Hp)
    as (w & E' & T & Z' & L). simpl in *.
  eexists. split; [by eapply on_channel_run|]. split; [by eapply touched_ok|].
  split; [|split; [done|]].
  - intros q c'. simpl. intros [[<- <-]|[_ H]]%lookup_insert_Some; [|by eapply Hb].
    pose proof (Hb ptr c Hc). lia.
  - simpl. apply dom_insert_lookup_L. by eexists.
Qed.

(** Forgetting the head of a list keeps the invariant. *)
Lemma unlist_ok p ch l s :
  server_ok s → list_of (lists s) p = ch :: l → server_ok (with_plists (<[p := l]> (lists s)) s).
Proof.
  intros Hs Hl.
  assert (∀ x, mgr x (with_plists (<[p := l]> (lists s)) s) = mgr x s) as E by by intros [].
  assert (∀ q, list_of (<[p := l]> (lists s)) q `sublist_of` list_of (lists s) q) as Hsub.
  { intros q. rewrite list_of_insert. case_decide; [|done]. subst. rewrite Hl. by constructor. }
  destruct Hs as [Ma Un Le Li No]. split.
  - intros x. rewrite E. apply Ma.
  - intros x k x' k'. rewrite !E. apply Un.
  - intros q c Hc. destruct (Le q c Hc) as [x Hx]. exists x. by rewrite E.
  - intros q ptr Hin. apply Li. eapply elem_of_submseteq; [exact Hin|]. by apply sublist_submseteq, Hsub.
  - intros q. eapply sublist_NoDup; [apply No|apply Hsub].
Qed.

Lemma cleanup_keeps E p t l s :
  server_ok s → bounded s → list_of (lists s) p = l →
  ∃ s', cleanup_loop E wname p t l s = (Ret tt, s') ∧ server_ok s' ∧ list_of (lists s') p = [].
Proof.
  revert s. induction l as [|ch l IH]; intros s Hs Hb Hl; cbn [cleanup_loop]; [by exists s|].
  erewrite bind_ret_run by done.
  destruct (ok_listed s Hs p ch) as (c & Hc & _); [rewrite Hl; by left|].
  assert (NoDup (ch :: l)) as Hnd by (rewrite <- Hl; apply Hs).
  destruct (Leave_keeps E ch p false (with_plists (<[p := l]> (lists s)) s)) as (s1 & E1 & Hs1 & Hb1 & L1 & D1).
  - by eapply unlist_ok.
  - done.
  - by exists c.
  - simpl. rewrite list_of_insert, decide_True by done. by inversion Hnd.
  - erewrite bind_ret_run by exact E1. erewrite bind_ret_run by done.
    assert (is_Some (heap s1 !! ch)) as [c1 Hc1].
    { apply elem_of_dom. rewrite D1. apply elem_of_dom. by exists c. }
    erewrite bind_ret_run by by rewrite Hc1.
    assert (∃ s2, (match channelMgr E t with Some x => mgr_LeftChannel wname x (m_name c1) | None => mret tt end) s1
      = (Ret tt, s2) ∧ server_ok s2 ∧ bounded s2 ∧ lists s2 = lists s1) as (s2 & E2 & Hs2 & Hb2 & L2).
    { destruct (channelMgr E t); [by apply mgr_LeftChannel_keeps|by exists s1]. }
    erewrite bind_ret_run by exact E2. apply IH; [done..|]. rewrite L2, L1 by done. simpl.
    by rewrite list_of_insert, decide_True.
Qed.

Lemma GetChannel_keeps x n p pkt s :
  server_ok s → ∃ o s', GetChannel wname x n p pkt s = (Ret o, s') ∧ server_ok s' ∧
    heap s' = heap s ∧ o = channels (mgr x s) !! wname n.
Proof.
  intros Hs. unfold GetChannel. erewrite bind_ret_run by done.
  destruct (channels (mgr x s) !! wname n) as [ptr|] eqn:En; [by eexists _, s|].
  destruct pkt; [|by eexists _, s]. erewrite bind_ret_run by done.
  eexists _, _. split; [done|]. split_and!; [by apply sent_ok|done..].
Qed.

Lemma with_channel_keeps E me n k s :
  server_ok s →
  (∀ ptr s', server_ok s' → is_Some (heap s' !! ptr) → keeps (k ptr) s') →
  keeps (with_channel E wname me n k) s.
Proof.
  intros Hs Hk. unfold with_channel. destruct (channelMgr E _) as [x|]; [|by exists tt, s].
  destruct (GetChannel_keeps x n (guid me) true s Hs) as (o & s1 & E1 & Hs1 & Eh & ->).
  unfold keeps. erewrite bind_ret_run by exact E1.
  destruct (channels (mgr x s) !! wname n) as [ptr|] eqn:En; [|by exists tt, s1].
  apply Hk; [done|]. rewrite Eh. destruct (ok_managed s Hs x _ ptr En) as (c & -> & _). by eexists.
Qed.

(** ** The handlers *)

Context (normalizePlayerName : list Z → option (list Z)).

Inductive request :=
| ReqJoin | ReqLeave | ReqList | ReqPassword | ReqSetOwner | ReqOwner | ReqModerator | ReqUnmoderator
| ReqMute | ReqUnmute | ReqInvite | ReqKick | ReqBan | ReqUnban | ReqAnnouncements
| ReqDisplayListQuery | ReqMemberCount | ReqSetWatch.

Definition serve (E : Env) (T : list Z → Z → option ChannelRow) (r : request) (me : Session)
    (b : ByteBuffer) : srv unit :=
  match r with
  | ReqJoin => HandleJoinChannel E wname T me b
  | ReqLeave => HandleLeaveChannel E wname me b
  | ReqList => HandleChannelList E wname me b
  | ReqPassword => HandleChannelPassword E wname me b
  | ReqSetOwner => HandleChannelSetOwner E wname normalizePlayerName me b
  | ReqOwner => HandleChannelOwner E wname me b
  | ReqModerator => HandleChannelModerator E wname normalizePlayerName me b
  | ReqUnmoderator => HandleChannelUnmoderator E wname normalizePlayerName me b
  | ReqMute => HandleChannelMute E wname normalizePlayerName me b
  | ReqUnmute => HandleChannelUnmute E wname normalizePlayerName me b
  | ReqInvite => HandleChannelInvite E wname normalizePlayerName me b
  | ReqKick => HandleChannelKick E wname normalizePlayerName me b
  | ReqBan => HandleChannelBan E wname normalizePlayerName me b
  | ReqUnban => HandleChannelUnban E wname normalizePlayerName me b
  | ReqAnnouncements => HandleChannelAnnouncements E wname me b
  | ReqDisplayListQuery => HandleChannelDisplayListQuery E wname me b
  | ReqMemberCount => HandleGetChannelMemberCount E wname me b
  | ReqSetWatch => HandleSetChannelWatch me b
  end.

Lemma on_named_keeps E me n (k : Z → cp unit) s :
  server_ok s → (∀ ptr w, fit ptr w → Tracks ptr (k ptr) w) →
  keeps (with_channel E wname me n (λ chn, on_channel chn (k chn))) s.
Proof. intros Hs Hk. apply with_channel_keeps; [done|]. intros ptr s' H1 H2. apply on_channel_keeps; auto. Qed.

Lemma handle_named_keeps E me b act s :
  server_ok s → valid b → (∀ ptr n w, fit ptr w → Tracks ptr (act ptr n) w) →
  keeps (handle_named E wname normalizePlayerName me b act) s.
Proof.
  intros Hs Hb Ha. apply parse_keeps; [apply _|done..|]. intros [n otp].
  destruct (normalizePlayerName otp) as [o|]; [|by exists tt, s].
  apply (on_named_keeps E me n (λ ptr, act ptr o)); [done|]. intros. by apply Ha.
Qed.

Lemma HandleJoinChannel_keeps E T me b s :
  rows_ok T → server_ok s → valid b → keeps (HandleJoinChannel E wname T me b) s.
Proof.
  intros HT Hs Hb. apply parse_keeps; [apply _|done..|]. intros [[channel_id n] pass]. cbv zeta.
  destruct (negb _); [by exists tt, s|]. case_match; [by exists tt, s|].
  destruct (channelMgr E _) as [x|]; [|by exists tt, s].
  set (s1 := with_mgr x (mkMgr (team (self me)) (channels (mgr x s))) s).
  assert (∀ y, channels (mgr y s1) = channels (mgr y s)) as Ec.
  { intros y. subst s1. rewrite mgr_with_mgr. by case_decide; subst. }
  assert (server_ok s1) as Hs1.
  { assert (heap s1 = heap s) as Eh by by destruct x. assert (lists s1 = lists s) as El by by destruct x.
    destruct Hs as [Ma Un Le Li No]. split; rewrite ?Eh, ?El; try done.
    - intros y k p. rewrite Ec. apply Ma.
    - intros y k y' k' p. rewrite !Ec. apply Un.
    - intros p c Hc. destruct (Le p c Hc) as [y Hy]. exists y. by rewrite Ec. }
  destruct (GetJoinChannel_keeps E T x n channel_id s1 HT Hs1) as (ptr & s2 & E2 & Hs2 & Hp).
  unfold keeps. erewrite bind_ret_run by done. erewrite bind_ret_run by exact E2.
  apply on_channel_keeps; [done| |intros w; apply Join_tracks].
  destruct (ok_managed s2 Hs2 x _ ptr Hp) as (c & -> & _). by eexists.
Qed.

Lemma HandleLeaveChannel_keeps E me b s :
  server_ok s → bounded s → valid b → FindPlayer E (guid me) = Some (self me) →
  keeps (HandleLeaveChannel E wname me b) s.
Proof.
  intros Hs Hbd Hb Hme. apply parse_keeps; [apply _|done..|]. intros n.
  case_match; [by exists tt, s|]. destruct (channelMgr E _) as [x|]; [|by exists tt, s].
  destruct (GetChannel_keeps x n (guid me) true s Hs) as (o & s1 & E1 & Hs1 & Eh & ->).
  assert (bounded s1) as Hb1 by (intros p c; rewrite Eh; apply Hbd).
  unfold keeps. erewrite bind_ret_run by exact E1.
  assert (∃ s2, (match channels (mgr x s) !! wname n with
      | Some ptr => on_channel ptr (Leave E ptr (guid me) true) | None => mret tt end) s1 = (Ret tt, s2) ∧
    server_ok s2 ∧ bounded s2) as (s2 & E2 & Hs2 & Hb2).
  { destruct (channels (mgr x s) !! wname n) as [ptr|] eqn:En; [|by exists s1].
    destruct (ok_managed s Hs x _ ptr En) as (c & Hc & _).
    destruct (Leave_keeps E ptr (guid me) true s1) as (s2 & E2 & Hs2 & Hb2 & _); [done..| | |by exists s2].
    - rewrite Eh. by exists c.
    - by rewrite Hme. }
  erewrite bind_ret_run by exact E2.
  destruct (mgr_LeftChannel_keeps x n s2 Hs2 Hb2) as (s3 & E3 & Hs3 & _). by exists tt, s3.
Qed.

Lemma serve_keeps E T r me b s :
  rows_ok T → server_ok s → bounded s → valid b → FindPlayer E (guid me) = Some (self me) →
  keeps (serve E T r me b) s.
Proof.
  intros HT Hs Hbd Hb Hme.
  assert (∀ (p : cp unit), Grows p → ∀ ptr w, fit ptr w → Tracks ptr p w) as Hg.
  { intros p Hp ptr w Hw. by apply tracks_grows. }
  destruct r; cbn [serve]; try (apply handle_named_keeps; [done..|intros ptr n; apply Hg; apply _]).
  - by apply HandleJoinChannel_keeps.
  - by apply HandleLeaveChannel_keeps.
  - apply parse_keeps; [apply _|done..|]. intros n. apply on_named_keeps; [done|]. apply Hg, _.
  - apply parse_keeps; [apply _|done..|]. intros [n pass]. apply on_named_keeps; [done|]. apply Hg, _.
  - apply parse_keeps; [apply _|done..|]. intros n. apply on_named_keeps; [done|]. apply Hg, _.
  - apply handle_named_keeps; [done..|]. intros. by apply KickOrBan_tracks.
  - apply handle_named_keeps; [done..|]. intros. by apply KickOrBan_tracks.
  - apply parse_keeps; [apply _|done..|]. intros n. apply on_named_keeps; [done|]. apply Hg, _.
  - apply parse_keeps; [apply _|done..|]. intros n. apply on_named_keeps; [done|]. apply Hg, _.
  - apply parse_keeps; [apply _|done..|]. intros n. apply with_channel_keeps; [done|].
    intros ptr s' Hs' [c Hc]. eexists tt, _. erewrite bind_ret_run by done.
    erewrite bind_ret_run by by rewrite Hc. split; [done|by apply sent_ok].
  - apply parse_keeps; [apply _|done..|]. intros n. by exists tt, s.
Qed.

(** The states of the server from its start: requests of players in the world, and
    clean-ups of players that log out, while sessions and tables change in between. *)
Inductive served : Server → Prop :=
| served_new : served new_server
| served_request E T r me b s : served s → bounded s → rows_ok T → valid b →
    FindPlayer E (guid me) = Some (self me) → served (serve E T r me b s).2
| served_cleanup E p t s : served s → bounded s → served (CleanupChannels E wname p t s).2.

Lemma new_server_ok : server_ok new_server.
Proof.
  split; simpl.
  - intros [] k ptr; simpl; by rewrite lookup_empty.
  - intros [] k x' k' ptr; simpl; by rewrite lookup_empty.
  - intros ptr c. by rewrite lookup_empty.
  - intros q ptr. unfold list_of. rewrite lookup_empty. set_solver.
  - intros q. unfold list_of. rewrite lookup_empty. constructor.
Qed.

Lemma CleanupChannels_keeps E p t s :
  server_ok s → bounded s → ∃ s', CleanupChannels E wname p t s = (Ret tt, s') ∧ server_ok s' ∧
    list_of (lists s') p = [].
Proof. intros Hs Hb. unfold CleanupChannels. erewrite bind_ret_run by done. by apply cleanup_keeps. Qed.

Lemma served_ok s : served s → server_ok s.
Proof.
  induction 1 as [|E T r me b s _ IH Hbd HT Hb Hme|E p t s _ IH Hbd].
  - apply new_server_ok.
  - by destruct (serve_keeps E T r me b s HT IH Hbd Hb Hme) as (a & s' & -> & H).
  - by destruct (CleanupChannels_keeps E p t s IH Hbd) as (s' & -> & H & _).
Qed.

End Facts.

(** ** Properties *)

(** C1. No request and no log-out leaves a dangling pointer to a channel. In every state
    the server reaches from its start, the managers point to live channels under their
    folded names, every channel has exactly one entry, and a player's list has, once each,
    live channels it is a member of. From such a state every handler, on any packet, and
    every clean-up runs to its end without an access to a deleted channel, and the
    clean-up leaves the player's list empty. *)
Theorem channel_server_safe wname normalizePlayerName E T r me b p t s :
  served wname normalizePlayerName s → bounded s → rows_ok T → valid b →
  FindPlayer E (guid me) = Some (self me) →
  server_ok wname s ∧
  (∃ s', serve wname normalizePlayerName E T r me b s = (Ret tt, s')) ∧
  (∃ s', CleanupChannels E wname p t s = (Ret tt, s') ∧ list_of (lists s') p = []).
Proof.
  intros Hs Hbd HT Hb Hme. apply served_ok in Hs. split; [done|]. split.
  - destruct (serve_keeps wname normalizePlayerName E T r me b s HT Hs Hbd Hb Hme) as ([] & s' & Es & _).
    by exists s'.
  - destruct (CleanupChannels_keeps wname E p t s Hs Hbd) as (s' & Es & _ & Hl). by exists s'.
Qed.

Lemma bounded_dec s :
  bool_decide (map_Forall (λ _ c, Z.of_nat (base.size (players c)) < 2 ^ 32) (heap s)) = true → bounded s.
Proof. intros H. exact (bool_decide_eq_true_1 _ H). Qed.

Definition demo_me : Session := mkSession 1 (demo_player [65] 0 ALLIANCE) (Some false) 0.

(** [channel_id] 0, two unknown bytes, the name "x" and no password. *)
Definition demo_join : ByteBuffer := mkBuffer 0 10 [0; 0; 0; 0; 0; 0; 120; 0; 0].

Lemma channel_server_safe_witness :
  let s := (serve id Some demo_env (λ _ _, None) ReqJoin demo_me demo_join new_server).2 in
  elements (dom (heap s)) = [0] ∧ server_ok id s ∧
  (∃ s', serve id Some demo_env (λ _ _, None) ReqJoin demo_me demo_join s = (Ret tt, s')) ∧
  (∃ s', CleanupChannels demo_env id 1 ALLIANCE s = (Ret tt, s') ∧ list_of (lists s') 1 = []).
Proof.
  split; [by vm_compute|].
  apply (channel_server_safe id Some demo_env (λ _ _, None) ReqJoin demo_me demo_join 1 ALLIANCE).
  - apply served_request; [constructor| |done|by repeat split|done].
    intros ptr c. simpl. by rewrite lookup_empty.
  - apply bounded_dec. by vm_compute.
  - done.
  - by repeat split.
  - done.
Defined.

(** A channel's name folds to its identity: joining by two names gives the same
    channel exactly when they fold to the same name, and the second time by one name
    creates nothing. *)
Theorem join_channel_identity wname E T x n1 id1 n2 id2 s :
  server_ok wname s → rows_ok T →
  ∃ p1 s1 p2 s2, GetJoinChannel E wname T x n1 id1 s = (Ret p1, s1) ∧
    GetJoinChannel E wname T x n2 id2 s1 = (Ret p2, s2) ∧
    (p1 = p2 ↔ wname n1 = wname n2) ∧ (wname n1 = wname n2 → s2 = s1) ∧
    (∃ c, heap s2 !! p1 = Some c ∧ wname (m_name c) = wname n1).
Proof.
  intros Hs HT. destruct (GetJoinChannel_keeps wname E T x n1 id1 s HT Hs) as (p1 & s1 & E1 & Hs1 & H1).
  destruct (GetJoinChannel_keeps wname E T x n2 id2 s1 HT Hs1) as (p2 & s2 & E2 & Hs2 & H2).
  assert (channels (mgr x s2) !! wname n1 = Some p1 ∧ (wname n1 = wname n2 → s2 = s1)) as [H12 Hsame].
  { pose proof E2 as E3. unfold GetJoinChannel in E3. erewrite bind_ret_run in E3 by done.
    destruct (channels (mgr x s1) !! wname n2) as [q|] eqn:En.
    - injection E3 as <- <-. done.
    - assert (wname n1 ≠ wname n2) as Hne by congruence.
      destruct (new_Channel_total E T n2 id2 (mgr_team (mgr x s1)) HT) as (c & es & Ec & _).
      erewrite bind_ret_run in E3 by by rewrite Ec. injection E3 as _ <-.
      split; [|done]. destruct x; simpl in *; by rewrite lookup_insert_ne. }
  exists p1, s1, p2, s2. split_and!; [done..| |done|].
  - split; [intros <-; by eapply (ok_unique wname s2 Hs2)|]. intros Hn. rewrite <- Hn in H2. congruence.
  - by apply (ok_managed wname s2 Hs2 x).
Qed.

Lemma join_channel_identity_witness :
  ∃ p1 s1 p2 s2, GetJoinChannel demo_env (λ _, [120]) (λ _ _, None) AllianceChannelMgr [120] 0 new_server = (Ret p1, s1) ∧
    GetJoinChannel demo_env (λ _, [120]) (λ _ _, None) AllianceChannelMgr [88] 0 s1 = (Ret p2, s2) ∧
    (p1 = p2 ↔ [120] = [120]) ∧ ([120] = [120] → s2 = s1) ∧
    (∃ c, heap s2 !! p1 = Some c ∧ [120] = [120]).
Proof.
  apply (join_channel_identity (λ _, [120]) demo_env (λ _ _, None) AllianceChannelMgr [120] 0 [88] 0 new_server).
  - apply new_server_ok.
  - done.
Defined.

(** C32. Leaving a channel by its name takes it off the player's list; the channel is
    deleted, and its name free again, exactly when it is a custom channel and the
    player was its last member. Otherwise every other member stays. *)
Theorem leave_frees_empty_channel wname E me b x n ptr c s :
  server_ok wname s → bounded s → FindPlayer E (guid me) = Some (self me) →
  channelMgr E (team (self me)) = Some x → ((get_u32;; get_string) b).1 = Ret n → n ≠ [] →
  channels (mgr x s) !! wname n = Some ptr → heap s !! ptr = Some c →
  is_Some (players c !! guid me) →
  ∃ s', HandleLeaveChannel E wname me b s = (Ret tt, s') ∧
    ptr ∉ list_of (lists s') (guid me) ∧
    if bool_decide (delete (guid me) (players c) = ∅) && negb (IsConstant c)
    then channels (mgr x s') = delete (wname n) (channels (mgr x s)) ∧ heap s' = delete ptr (heap s)
    else mgr x s' = mgr x s ∧ ∃ c', heap s' = <[ptr := c']> (heap s) ∧
      dom (players c) ∖ {[guid me]} ⊆ dom (players c').
Proof.
  intros Hs Hb Hme Hx Hn Hne Hp Hc Hin.
  destruct (Leave_run E ptr (guid me) true (mkWorld c (lists s) (sent s)) Hin) as (w & E1 & ([N I] & L & D) & Z' & Hnil).
  assert (on_channel ptr (Leave E ptr (guid me) true) s = (Ret tt, touched ptr w s)) as E2.
  { by eapply on_channel_run. }
  assert (ptr ∉ list_of (m_channels w) (guid me)) as Hnot.
  { rewrite L. simpl. rewrite Hme. simpl. rewrite elem_of_forget. set_solver. }
  assert (Z.of_nat (base.size (players (chan w))) < 2 ^ 32) as Hbw.
  { pose proof (Hb ptr c Hc). simpl in Z'. lia. }
  simpl in *. rewrite dom_delete_L in D.
  assert (players (chan w) = ∅ ↔ delete (guid me) (players c) = ∅) as Hempty.
  { split; [|apply Hnil]. intros H0. apply dom_empty_iff_L. rewrite H0, dom_empty_L in D.
    rewrite dom_delete_L. set_solver. }
  unfold HandleLeaveChannel, parse. rewrite Hn, bool_decide_false, Hx by done.
  erewrite bind_ret_run by (unfold GetChannel; erewrite bind_ret_run by done; by rewrite Hp).
  erewrite bind_ret_run by exact E2. unfold mgr_LeftChannel. erewrite bind_ret_run by done.
  rewrite mgr_touched, Hp. erewrite bind_ret_run by done. erewrite bind_ret_run by (cbn [heap touched]; by rewrite lookup_insert_eq).
  assert (IsConstant (chan w) = IsConstant c) as -> by (unfold IsConstant; by rewrite I).
  replace (GetNumPlayers (chan w) =? 0) with (bool_decide (delete (guid me) (players c) = ∅)).
  2: { destruct (Z.eqb_spec (GetNumPlayers (chan w)) 0); [apply bool_decide_true|apply bool_decide_false];
         by rewrite <- Hempty, <- (no_players (chan w) Hbw). }
  destruct (bool_decide _ && _).
  - erewrite bind_ret_run by done. eexists. split; [done|]. destruct x; simpl; split_and!; try done; apply delete_insert_eq.
  - eexists. split; [done|]. split; [done|]. split; [by destruct x|]. by exists (chan w).
Qed.

(** A server with one custom channel "x" of the players 1 and 2, which both list. *)
Definition demo_x : Channel :=
  mkChannel {[1 := mkInfo 1 3; 2 := mkInfo 2 0]} ∅ true true [120] [] 1 0 1 true ALLIANCE.
Definition demo_server : Server :=
  mkServer {[7 := demo_x]} (mkMgr ALLIANCE {[[120] := 7]}) (mkMgr 0 ∅) {[1 := [7]; 2 := [7]]} [].

Lemma demo_server_ok : server_ok id demo_server.
Proof.
  split; simpl.
  - intros [] k ptr; simpl; [|by rewrite lookup_empty].
    intros [<- <-]%lookup_singleton_Some. by exists demo_x.
  - intros [] k [] k' ptr; simpl; rewrite ?lookup_empty; try done.
    by intros [<- <-]%lookup_singleton_Some [<- _]%lookup_singleton_Some.
  - intros ptr c [<- <-]%lookup_singleton_Some. by exists AllianceChannelMgr.
  - intros q ptr. unfold list_of. rewrite lookup_insert, lookup_singleton.
    repeat case_decide; subst; simpl; try set_solver.
    all: intros ->%list_elem_of_singleton; exists demo_x; split; [done|]; by_decide.
  - intros q. unfold list_of. rewrite lookup_insert, lookup_singleton.
    repeat case_decide; simpl; apply NoDup_singleton || constructor.
Qed.

Definition demo_leave : ByteBuffer := mkBuffer 0 6 [0; 0; 0; 0; 120; 0].

Lemma leave_frees_empty_channel_witness :
  ∃ s', HandleLeaveChannel demo_env id demo_me demo_leave demo_server = (Ret tt, s') ∧
    7 ∉ list_of (lists s') 1 ∧ mgr AllianceChannelMgr s' = mgr AllianceChannelMgr demo_server ∧
    ∃ c', heap s' = <[7 := c']> (heap demo_server) ∧ dom (players demo_x) ∖ {[1]} ⊆ dom (players c').
Proof.
  apply (leave_frees_empty_channel id demo_env demo_me demo_leave AllianceChannelMgr [120] 7 demo_x demo_server).
  - apply demo_server_ok.
  - apply bounded_dec. by vm_compute.
  - done.
  - done.
  - by vm_compute.
  - done.
  - done.
  - done.
  - by eexists.
Defined.
