(* ===== verification/LootRoll.v ===== *)
(** * LootRoll: the loot rolls of a group, src/src/server/game/Groups/Group.h, .cpp

    The rolls for items above the threshold: how they open, the votes, the dice, the
    winner, and what a leaving member does to them. [Loot] objects are in a heap; a roll
    refers to its loot by a reference the loot cuts when it is cleared. A [Roll] is owned
    by its element of [RollId] alone, so the vector holds the rolls themselves. *)

From Stdlib Require Import ZArith Lia.
From S2P Require Import Prelude ByteBuffer Guid.
Local Open Scope Z_scope.

(** ** Data *)

Inductive RollVote := PASS | NEED | GREED | DISENCHANT | NOT_EMITED_YET | NOT_VALID.

#[export] Instance RollVote_eq_dec : EqDecision RollVote.
Proof. solve_decision. Defined.

Definition vote_code (v : RollVote) : Z :=
  match v with PASS => 0 | NEED => 1 | GREED => 2 | DISENCHANT => 3 | NOT_EMITED_YET => 4 | NOT_VALID => 5 end.

Definition ROLL_PASS : Z := 0.
Definition ROLL_NEED : Z := 1.
Definition ROLL_GREED : Z := 2.
Definition ROLL_DISENCHANT : Z := 3.
Definition MAX_ROLL_TYPE : Z := 4.

Definition ROLL_FLAG_TYPE_NEED : Z := 0x02.
Definition ROLL_FLAG_TYPE_DISENCHANT : Z := 0x08.
Definition ROLL_ALL_TYPE_NO_DISENCHANT : Z := 0x07.

Definition ITEM_FLAGS_EXTRA_NEED_ROLL_DISABLED : Z := 0x100.
Definition EQUIP_ERR_OK : Z := 0.

Record LootItem := mkLootItem {
  itemid : Z;
  randomSuffix : Z;
  randomPropertyId : Z;
  allowedGUIDs : gset Z;
  count : Z;
  is_looted : bool;
  is_blocked : bool;
  freeforall : bool;
  is_underthreshold : bool
}.

Record Loot := mkLoot {
  items : list LootItem;
  unlootedCount : Z;
  PlayersLooting : gset Z
}.

Record Roll := mkRoll {
  itemGUID : Z;
  roll_itemid : Z;
  itemRandomPropId : Z;
  itemRandomSuffix : Z;
  itemCount : Z;
  playerVote : gmap Z RollVote;
  totalPlayersRolling : Z;
  totalNeed : Z;
  totalGreed : Z;
  totalPass : Z;
  itemSlot : Z;
  rollVoteMask : Z;
  iRefTo : option Z
}.

Record ItemTemplate := mkItemTemplate {
  Quality : Z;
  DisenchantID : Z;
  RequiredDisenchantSkill : Z;
  Flags2 : Z
}.

Inductive opcode := SMSG_LOOT_START_ROLL | SMSG_LOOT_ROLL | SMSG_LOOT_ROLL_WON
| SMSG_LOOT_ALL_PASSED | SMSG_LOOT_REMOVED | SMSG_LOOT_MASTER_LIST.

#[export] Instance opcode_eq_dec : EqDecision opcode.
Proof. solve_decision. Defined.

Inductive criteria := ROLL_NEED_ON_LOOT | ROLL_GREED_ON_LOOT | CAST_SPELL | ROLLED_NEED | ROLLED_GREED.

(** What the rolls do to others: packets, achievements, the inventory of a player,
    the timer of the looted creature or object, and the end of the server when it is out
    of item guids. *)
Inductive effect :=
| SendPacket (to : Z) (op : opcode) (data : ByteBuffer)
| UpdateAchievementCriteria (who : Z) (type : criteria) (misc1 misc2 : Z)
| StoreNewItem (who itemid randomPropertyId : Z) (allowed : gset Z)
| SendEquipError (who msg itemid : Z)
| AutoStoreLoot (who loot_id : Z)
| SetGroupLootTimer (time groupLowGUID : Z)
| StopNow.

Record Rolls := mkRolls {
  RollId : list Roll;
  loots : gmap Z Loot;
  m_hiItemGuid : Z;
  draws : nat;
  effects : list effect
}.

Abbreviation lr := (prog Rolls fault).

Definition with_RollId (l : list Roll) (s : Rolls) : Rolls :=
  mkRolls l (loots s) (m_hiItemGuid s) (draws s) (effects s).
Definition with_loots (l : gmap Z Loot) (s : Rolls) : Rolls :=
  mkRolls (RollId s) l (m_hiItemGuid s) (draws s) (effects s).
Definition with_draws (n : nat) (s : Rolls) : Rolls :=
  mkRolls (RollId s) (loots s) (m_hiItemGuid s) n (effects s).
Definition with_item_guid (n : Z) (s : Rolls) : Rolls :=
  mkRolls (RollId s) (loots s) n (draws s) (effects s).
Definition with_effects (es : list effect) (s : Rolls) : Rolls :=
  mkRolls (RollId s) (loots s) (m_hiItemGuid s) (draws s) (effects s ++ es).

Definition emit (e : effect) : lr unit := modify (with_effects [e]).

(** The rest of the server: who is in the world with a session, the random numbers from 1
    to 100 in the order they are drawn, the inventory's answer after what was stored so
    far, and the item templates. *)
Record Env := mkEnv {
  has_session : Z → bool;
  urand_1_100 : nat → Z;
  CanStoreNewItem : list effect → Z → Z → Z → Z;
  GetItemTemplate : Z → option ItemTemplate
}.

Section LootRoll.
Context (E : Env).

Definition new_Roll (guid : Z) (li : LootItem) : Roll :=
  mkRoll guid (itemid li) (randomPropertyId li) (randomSuffix li) (count li) ∅ 0 0 0 0 0
    ROLL_ALL_TYPE_NO_DISENCHANT None.

Definition setLoot (p : Z) (r : Roll) : Roll :=
  mkRoll (itemGUID r) (roll_itemid r) (itemRandomPropId r) (itemRandomSuffix r) (itemCount r)
    (playerVote r) (totalPlayersRolling r) (totalNeed r) (totalGreed r) (totalPass r) (itemSlot r)
    (rollVoteMask r) (Some p).

Definition isValid (r : Roll) : bool := bool_decide (is_Some (iRefTo r)).

Definition with_votes (v : gmap Z RollVote) (players need greed pass : Z) (r : Roll) : Roll :=
  mkRoll (itemGUID r) (roll_itemid r) (itemRandomPropId r) (itemRandomSuffix r) (itemCount r)
    v players need greed pass (itemSlot r) (rollVoteMask r) (iRefTo r).

(** ** Packets *)

Definition packet (p : bb unit) : ByteBuffer := (p empty_buffer).2.

(** The players of the roll with a vote [ok] allows who are in the world. *)
Definition audience (ok : RollVote → bool) (r : Roll) : list Z :=
  (filter (λ x, ok x.2 = true ∧ has_session E x.1 = true) (sorted_elems (playerVote r))).*1.

Definition send_to (to : list Z) (op : opcode) (data : ByteBuffer) : lr unit :=
  modify (with_effects ((λ g, SendPacket g op data) <$> to)).

Definition SendLootStartRoll (CountDown mapid : Z) (r : Roll) : lr unit :=
  send_to (audience (λ v, bool_decide (v = NOT_EMITED_YET)) r) SMSG_LOOT_START_ROLL (packet (
    put_u64 (itemGUID r);; put_u32 mapid;; put_u32 (totalPlayersRolling r);; put_u32 (roll_itemid r);;
    put_u32 (itemRandomSuffix r);; put_u32 (itemRandomPropId r);; put_u32 (itemCount r);;
    put_u32 CountDown;; put_u8 (rollVoteMask r))).

Definition SendLootStartRollToPlayer (countDown mapId p : Z) (canNeed : bool) (r : Roll) : lr unit :=
  if has_session E p then
    let voteMask := if canNeed then rollVoteMask r
                    else Z.land (rollVoteMask r) (Z.lnot ROLL_FLAG_TYPE_NEED) in
    emit (SendPacket p SMSG_LOOT_START_ROLL (packet (
      put_u64 (itemGUID r);; put_u32 mapId;; put_u32 (totalPlayersRolling r);; put_u32 (roll_itemid r);;
      put_u32 (itemRandomSuffix r);; put_u32 (itemRandomPropId r);; put_u32 (itemCount r);;
      put_u32 countDown;; put_u8 voteMask)))
  else mret tt.

Definition SendLootRoll (SourceGuid TargetGuid RollNumber RollType : Z) (r : Roll) : lr unit :=
  send_to (audience (λ v, bool_decide (v ≠ NOT_VALID)) r) SMSG_LOOT_ROLL (packet (
    put_u64 SourceGuid;; put_u32 0;; put_u64 TargetGuid;; put_u32 (roll_itemid r);;
    put_u32 (itemRandomSuffix r);; put_u32 (itemRandomPropId r);; put_u8 RollNumber;;
    put_u8 RollType;; put_u8 0)).

Definition SendLootRollWon (SourceGuid TargetGuid RollNumber RollType : Z) (r : Roll) : lr unit :=
  send_to (audience (λ v, bool_decide (v ≠ NOT_VALID)) r) SMSG_LOOT_ROLL_WON (packet (
    put_u64 SourceGuid;; put_u32 0;; put_u32 (roll_itemid r);; put_u32 (itemRandomSuffix r);;
    put_u32 (itemRandomPropId r);; put_u64 TargetGuid;; put_u8 RollNumber;; put_u8 RollType)).

Definition SendLootAllPassed (NumberOfPlayers : Z) (r : Roll) : lr unit :=
  send_to (audience (λ v, bool_decide (v ≠ NOT_VALID)) r) SMSG_LOOT_ALL_PASSED (packet (
    put_u64 (itemGUID r);; put_u32 NumberOfPlayers;; put_u32 (roll_itemid r);;
    put_u32 (itemRandomPropId r);; put_u32 (itemRandomSuffix r))).

(** ** Loot *)

Definition upd_loot (p : Z) (f : Loot → Loot) : lr unit :=
  modify (λ s, with_loots (alter f p (loots s)) s).

Definition deref_loot (p : Z) : lr Loot := l ← gets (λ s, loots s !! p); of_option l.

Definition set_item (slot : nat) (f : LootItem → LootItem) (l : Loot) : Loot :=
  mkLoot (alter f slot (items l)) (unlootedCount l) (PlayersLooting l).

Definition set_looted (b : bool) (i : LootItem) : LootItem :=
  mkLootItem (itemid i) (randomSuffix i) (randomPropertyId i) (allowedGUIDs i) (count i)
    b (is_blocked i) (freeforall i) (is_underthreshold i).
Definition set_blocked (b : bool) (i : LootItem) : LootItem :=
  mkLootItem (itemid i) (randomSuffix i) (randomPropertyId i) (allowedGUIDs i) (count i)
    (is_looted i) b (freeforall i) (is_underthreshold i).
Definition set_underthreshold (b : bool) (i : LootItem) : LootItem :=
  mkLootItem (itemid i) (randomSuffix i) (randomPropertyId i) (allowedGUIDs i) (count i)
    (is_looted i) (is_blocked i) (freeforall i) b.

(** Players who look at the loot are told; who is gone is forgotten. *)
Definition NotifyItemRemoved (p lootIndex : Z) : lr unit :=
  l ← deref_loot p;
  let looking := (sorted_elems (gset_to_gmap tt (PlayersLooting l))).*1 in
  send_to (filter (λ g, has_session E g = true) looking) SMSG_LOOT_REMOVED (packet (put_u8 lootIndex));;
  upd_loot p (λ l, mkLoot (items l) (unlootedCount l)
    (filter (λ g, has_session E g = true) (PlayersLooting l))).

(** [Loot::clear] cuts the references of the rolls. *)
Definition loot_clear (p : Z) : lr unit :=
  upd_loot p (λ _, mkLoot [] 0 ∅);;
  modify (λ s, with_RollId ((λ r, if bool_decide (iRefTo r = Some p)
    then mkRoll (itemGUID r) (roll_itemid r) (itemRandomPropId r) (itemRandomSuffix r) (itemCount r)
           (playerVote r) (totalPlayersRolling r) (totalNeed r) (totalGreed r) (totalPass r) (itemSlot r)
           (rollVoteMask r) None
    else r) <$> RollId s) s).

(** ** Voting *)

(** The index of the roll for the item, if its loot is still there. *)
Fixpoint find_roll (ok : Roll → bool) (l : list Roll) : option nat :=
  match l with
  | [] => None
  | r :: l => if ok r then Some 0%nat else S <$> find_roll ok l
  end.

Definition GetRoll (Guid : Z) : lr (option nat) :=
  gets (λ s, find_roll (λ r, (itemGUID r =? Guid) && isValid r) (RollId s)).

Definition roll_at (i : nat) : lr Roll := r ← gets (λ s, RollId s !! i); of_option r.

Definition upd_roll (i : nat) (f : Roll → Roll) : lr unit :=
  modify (λ s, with_RollId (alter f i (RollId s)) s).

(** [RollId.erase(rollI); delete roll]. *)
Definition erase_roll (i : nat) : lr unit := modify (λ s, with_RollId (delete i (RollId s)) s).

Definition urand_byte : lr Z :=
  n ← gets draws; modify (λ s, with_draws (S (draws s)) s);; mret (uwrap 8 (urand_1_100 E n)).

(** The dice loop: everyone with a [wanted] vote rolls; [best] is the highest roll so far,
    who rolled it and with which vote. *)
Fixpoint roll_dice (wanted : RollVote → bool) (r : Roll) (votes : list (Z * RollVote))
    (best : Z * Z * RollVote) : lr (Z * Z * RollVote) :=
  match votes with
  | [] => mret best
  | (g, v) :: votes =>
    if negb (wanted v) then roll_dice wanted r votes best
    else
      randomN ← urand_byte;
      SendLootRoll 0 g randomN (vote_code v) r;;
      let '(maxguid, maxresul, rollvote) := best in
      roll_dice wanted r votes (if maxresul <? randomN then (g, randomN, v) else best)
  end.

(** The item of the roll: [&(roll->getLoot()->items[roll->itemSlot])]. *)
Definition rolled_item (r : Roll) : lr (Z * LootItem) :=
  p ← of_option (iRefTo r);
  l ← deref_loot p;
  i ← of_option (items l !! Z.to_nat (itemSlot r));
  mret (p, i).

Definition upd_item (p : Z) (r : Roll) (f : LootItem → LootItem) : lr unit :=
  upd_loot p (set_item (Z.to_nat (itemSlot r)) f).

(** The item leaves the loot. *)
Definition take_item (p : Z) (r : Roll) : lr unit :=
  upd_item p r (set_looted true);;
  NotifyItemRemoved p (itemSlot r);;
  upd_loot p (λ l, mkLoot (items l) (uwrap 8 (unlootedCount l - 1)) (PlayersLooting l)).

(** The winner gets the item, or it can be looted by all if his bags are full. *)
Definition give_item (winner : Z) (r : Roll) : lr unit :=
  '(p, item) ← rolled_item r;
  msg ← gets (λ s, CanStoreNewItem E (effects s) winner (roll_itemid r) (count item));
  if msg =? EQUIP_ERR_OK then
    take_item p r;;
    emit (StoreNewItem winner (roll_itemid r) (randomPropertyId item) (allowedGUIDs item))
  else
    upd_item p r (set_blocked false);;
    emit (SendEquipError winner msg (roll_itemid r)).

Definition disenchant_item (winner : Z) (r : Roll) : lr unit :=
  '(p, item) ← rolled_item r;
  take_item p r;;
  pProto ← of_option (GetItemTemplate E (roll_itemid r));
  emit (AutoStoreLoot winner (DisenchantID pProto));;
  emit (UpdateAchievementCriteria winner CAST_SPELL 13262 0).

Definition is_greedy (v : RollVote) : bool :=
  match v with GREED | DISENCHANT => true | _ => false end.

Definition CountTheRoll (i : nat) (NumberOfPlayers : Z) : lr unit :=
  r ← roll_at i;
  if negb (isValid r) then erase_roll i
  else
    let votes := sorted_elems (playerVote r) in
    (if 0 <? totalNeed r then
       match votes with
       | [] => mret tt
       | (first, _) :: _ =>
         '(maxguid, maxresul, _) ← roll_dice (λ v, bool_decide (v = NEED)) r votes (first, 0, NOT_VALID);
         SendLootRollWon 0 maxguid maxresul ROLL_NEED r;;
         if has_session E maxguid then
           emit (UpdateAchievementCriteria maxguid ROLL_NEED_ON_LOOT (roll_itemid r) maxresul);;
           give_item maxguid r
         else mret tt
       end
     else if 0 <? totalGreed r then
       match votes with
       | [] => mret tt
       | (first, _) :: _ =>
         '(maxguid, maxresul, rollvote) ← roll_dice is_greedy r votes (first, 0, NOT_VALID);
         SendLootRollWon 0 maxguid maxresul (vote_code rollvote) r;;
         if has_session E maxguid then
           emit (UpdateAchievementCriteria maxguid ROLL_GREED_ON_LOOT (roll_itemid r) maxresul);;
           match rollvote with
           | GREED => give_item maxguid r
           | DISENCHANT => disenchant_item maxguid r
           | _ => mret tt
           end
         else mret tt
       end
     else
       SendLootAllPassed NumberOfPlayers r;;
       '(p, _) ← rolled_item r;
       upd_item p r (set_blocked false));;
    erase_roll i.

(** The switch over the client's choice; other values change nothing. *)
Definition cast_vote (playerGUID Choice : Z) (r : Roll) : Roll :=
  let set v need greed pass :=
    with_votes (<[playerGUID := v]> (playerVote r)) (totalPlayersRolling r) need greed pass r in
  if Choice =? ROLL_PASS then set PASS (totalNeed r) (totalGreed r) (uwrap 8 (totalPass r + 1))
  else if Choice =? ROLL_NEED then set NEED (uwrap 8 (totalNeed r + 1)) (totalGreed r) (totalPass r)
  else if Choice =? ROLL_GREED then set GREED (totalNeed r) (uwrap 8 (totalGreed r + 1)) (totalPass r)
  else if Choice =? ROLL_DISENCHANT
  then set DISENCHANT (totalNeed r) (uwrap 8 (totalGreed r + 1)) (totalPass r)
  else r.

Definition announce_vote (playerGUID Choice : Z) (r : Roll) : lr unit :=
  if Choice =? ROLL_PASS then SendLootRoll 0 playerGUID 128 ROLL_PASS r
  else if Choice =? ROLL_NEED then SendLootRoll 0 playerGUID 0 0 r
  else if Choice =? ROLL_GREED then SendLootRoll 0 playerGUID 128 ROLL_GREED r
  else if Choice =? ROLL_DISENCHANT then SendLootRoll 0 playerGUID 128 ROLL_DISENCHANT r
  else mret tt.

Definition loot_emptied (r : Roll) : lr bool :=
  match iRefTo r with
  | None => mret false
  | Some p => l ← deref_loot p; mret (bool_decide (items l = []))
  end.

Definition complete (r : Roll) : bool :=
  totalPlayersRolling r <=? totalPass r + totalNeed r + totalGreed r.

Definition CountRollVote (playerGUID Guid NumberOfPlayers Choice : Z) : lr unit :=
  rollI ← GetRoll Guid;
  match rollI with
  | None => mret tt
  | Some i =>
    r ← roll_at i;
    match playerVote r !! playerGUID with
    | None => mret tt
    | Some _ =>
      gone ← loot_emptied r;
      if gone : bool then mret tt
      else
        announce_vote playerGUID Choice r;;
        upd_roll i (cast_vote playerGUID Choice);;
        r ← roll_at i;
        if complete r then CountTheRoll i NumberOfPlayers else mret tt
    end
  end.

(** The roll timer of the loot at [pLoot] expired. Every turn takes one roll away, so one
    turn more than there are rolls is enough; [false] if the loop did not end. *)
Fixpoint end_roll_loop (fuel : nat) (pLoot members : Z) : lr bool :=
  match fuel with
  | O => mret false
  | S fuel =>
    found ← gets (λ s, find_roll (λ r, bool_decide (iRefTo r = Some pLoot)) (RollId s));
    match found with
    | None => mret true
    | Some i => CountTheRoll i members;; end_roll_loop fuel pLoot members
    end
  end.

Definition EndRoll (pLoot members : Z) : lr bool :=
  n ← gets (λ s, length (RollId s)); end_roll_loop (S n) pLoot members.

(** [WorldSession::HandleLootRoll] of a member of the group; reading the packet is
    [ByteBuffer]'s. *)
Definition HandleLootRoll (me : Z) (recv_data : ByteBuffer) : lr unit :=
  match ((Guid ← get_u64; NumberOfPlayers ← get_u32; rollType ← get_u8;
          mret (Guid, NumberOfPlayers, rollType)) recv_data).1 with
  | Ret (Guid, NumberOfPlayers, rollType) =>
    CountRollVote me Guid NumberOfPlayers rollType;;
    if rollType =? ROLL_NEED then emit (UpdateAchievementCriteria me ROLLED_NEED 1 0)
    else if rollType =? ROLL_GREED then emit (UpdateAchievementCriteria me ROLLED_GREED 1 0)
    else mret tt
  | Throw (ByteBufferException _ _ _ _) => mret tt
  | Throw _ => throw Undefined
  end.

(** ** A leaving member *)

(** The vote of a leaving member is taken back. *)
Definition retract (guid : Z) (v : RollVote) (r : Roll) : Roll :=
  with_votes (delete guid (playerVote r))
    (match v with NOT_VALID => totalPlayersRolling r | _ => uwrap 8 (totalPlayersRolling r - 1) end)
    (match v with NEED => uwrap 8 (totalNeed r - 1) | _ => totalNeed r end)
    (match v with GREED | DISENCHANT => uwrap 8 (totalGreed r - 1) | _ => totalGreed r end)
    (match v with PASS => uwrap 8 (totalPass r - 1) | _ => totalPass r end) r.

(** The loop of [Group::RemoveMember] over [RollId], from index [i], with [n] elements to
    go; an erased element would leave its iterator dangling. *)
Fixpoint remove_votes (n i : nat) (guid members : Z) : lr unit :=
  match n with
  | O => mret tt
  | S n =>
    r ← roll_at i;
    (match playerVote r !! guid with
     | None => mret tt
     | Some v =>
       upd_roll i (retract guid v);;
       before ← gets (λ s, length (RollId s));
       CountRollVote guid (itemGUID r) (uwrap 32 (members - 1)) MAX_ROLL_TYPE;;
       after ← gets (λ s, length (RollId s));
       if Nat.eqb before after then mret tt else throw Undefined
     end);;
    remove_votes n (S i) guid members
  end.

Definition RemoveMember_rolls (guid members : Z) : lr unit :=
  n ← gets (λ s, length (RollId s)); remove_votes n 0 guid members.

(** ** Opening the rolls of a loot *)

Section Opening.
(** The members in the order of the group's references; who may have an item, who is near
    enough, who passes on all loot; the group's settings; and the looted object: its map
    and whether it is a creature or a game object, which have a roll timer. *)
Context (members : list Z).
Context (AllowedForPlayer : LootItem → Z → bool).
Context (near GetPassOnGroupLoot : Z → bool).
Context (m_lootThreshold m_maxEnchantingLevel groupLowGUID : Z).
Context (mapId : Z) (timed : bool).

Definition GenerateItemGuid : lr Z :=
  n ← gets m_hiItemGuid;
  (if 0xFFFFFFFE <=? n then emit StopNow else mret tt);;
  modify (with_item_guid (uwrap 32 (n + 1)));;
  mret (MAKE_NEW_GUID n 0 HIGHGUID_ITEM).

Definition joins (li : LootItem) (m : Z) : bool := has_session E m && AllowedForPlayer li m && near m.

Fixpoint join_members (li : LootItem) (ms : list Z) (r : Roll) : Roll :=
  match ms with
  | [] => r
  | m :: ms =>
    join_members li ms
      (if joins li m then
         with_votes (<[m := if GetPassOnGroupLoot m then PASS else NOT_EMITED_YET]> (playerVote r))
           (uwrap 8 (totalPlayersRolling r + 1)) (totalNeed r) (totalGreed r)
           (if GetPassOnGroupLoot m then uwrap 8 (totalPass r + 1) else totalPass r) r
       else r)
  end.

(** The roll knows its loot, its slot and the choices it offers. *)
Definition opened (p slot mask : Z) (r : Roll) : Roll :=
  mkRoll (itemGUID r) (roll_itemid r) (itemRandomPropId r) (itemRandomSuffix r) (itemCount r)
    (playerVote r) (totalPlayersRolling r) (totalNeed r) (totalGreed r) (totalPass r) slot mask (Some p).

Definition vote_mask (item : ItemTemplate) : Z :=
  if negb (DisenchantID item =? 0) && (RequiredDisenchantSkill item <=? m_maxEnchantingLevel)
  then Z.lor ROLL_ALL_TYPE_NO_DISENCHANT ROLL_FLAG_TYPE_DISENCHANT
  else ROLL_ALL_TYPE_NO_DISENCHANT.

(** Tells the players of the roll who passed automatically. *)
Fixpoint announce_passes (r : Roll) (votes : list (Z * RollVote)) : lr unit :=
  match votes with
  | [] => mret tt
  | (g, v) :: votes =>
    (if has_session E g && bool_decide (v = PASS) then SendLootRoll (itemGUID r) g 128 ROLL_PASS r
     else mret tt);;
    announce_passes r votes
  end.

Definition push_roll (r : Roll) : lr unit :=
  modify (λ s, with_RollId (RollId s ++ [r]) s);;
  if timed then emit (SetGroupLootTimer 60000 groupLowGUID) else mret tt.

(** One turn of the loop of [GroupLoot], for the item [li] in the slot [slot]. *)
Definition GroupLoot_item (p : Z) (slot : nat) (li : LootItem) : lr unit :=
  if freeforall li then mret tt
  else
    match GetItemTemplate E (itemid li) with
    | None => mret tt
    | Some item =>
      if m_lootThreshold <=? Quality item then
        newitemGUID ← GenerateItemGuid;
        let r := join_members li members (new_Roll newitemGUID li) in
        if 0 <? totalPlayersRolling r then
          let r := opened p (uwrap 8 (Z.of_nat slot)) (vote_mask item) r in
          upd_item p r (set_blocked true);;
          (if negb (totalPass r =? 0) then announce_passes r (sorted_elems (playerVote r)) else mret tt);;
          SendLootStartRoll 60000 mapId r;;
          push_roll r
        else mret tt
      else upd_loot p (set_item slot (set_underthreshold true))
    end.

(** The loop of [NeedBeforeGreed]: the template is used unchecked, and no start of the
    roll is sent. *)
Definition NeedBeforeGreed_item (p : Z) (slot : nat) (li : LootItem) : lr unit :=
  if freeforall li then mret tt
  else
    item ← of_option (GetItemTemplate E (itemid li));
    if m_lootThreshold <=? Quality item then
      newitemGUID ← GenerateItemGuid;
      let r := join_members li members (new_Roll newitemGUID li) in
      if 0 <? totalPlayersRolling r then
        let mask := vote_mask item in
        let mask := if has_bits (Flags2 item) ITEM_FLAGS_EXTRA_NEED_ROLL_DISABLED
                    then Z.land mask (Z.lnot ROLL_FLAG_TYPE_NEED) else mask in
        let r := opened p (uwrap 8 (Z.of_nat slot)) mask r in
        upd_item p r (set_blocked true);;
        announce_passes r (sorted_elems (playerVote r));;
        push_roll r
      else mret tt
    else upd_loot p (set_item slot (set_underthreshold true)).

Fixpoint for_items (f : nat → LootItem → lr unit) (slot : nat) (l : list LootItem) : lr unit :=
  match l with [] => mret tt | li :: l => f slot li;; for_items f (S slot) l end.

Definition GroupLoot (p : Z) : lr unit := l ← deref_loot p; for_items (GroupLoot_item p) 0 (items l).

Definition NeedBeforeGreed (p : Z) : lr unit :=
  l ← deref_loot p; for_items (NeedBeforeGreed_item p) 0 (items l).

(** [in_world] tells the members the list names; everyone near gets it. *)
Definition MasterLoot (in_world : Z → bool) (member_count : Z) : lr unit :=
  let listed := filter (λ m, in_world m && near m = true) members in
  let data := packet (
    put_u8 member_count;;
    (fix put_all l : bb unit := match l with [] => mret tt | m :: l => put_u64 m;; put_all l end) listed;;
    put 1 0 (Z.of_nat (length listed))) in
  send_to (filter (λ m, near m = true) members) SMSG_LOOT_MASTER_LIST data.

End Opening.

End LootRoll.
