(* ===== verification/LootRollFacts.v ===== *)
(** * LootRollFacts: who wins a loot roll, and when it ends

    [tally_ok] says that the counters of a roll count its votes. The dice of the voters
    are the next draws of the random numbers, in the order of their guids. *)

From Stdlib Require Import ZArith Lia.
From S2P Require Import Prelude ByteBuffer ByteBufferFacts Guid LootRoll.
Local Open Scope Z_scope.

(** ** Counting votes *)

Definition count_votes (ok : RollVote → bool) (m : gmap Z RollVote) : nat :=
  base.size (filter (λ x : Z * RollVote, ok x.2 = true) m).

Lemma count_insert_fresh ok k v m : m !! k = None →
  count_votes ok (<[k := v]> m) = ((if ok v then 1 else 0) + count_votes ok m)%nat.
Proof.
  intros Hk. unfold count_votes. destruct (ok v) eqn:E.
  - rewrite map_filter_insert_True by done. rewrite map_size_insert_None; [done|].
    apply map_lookup_filter_None. by left.
  - rewrite map_filter_insert_False by (simpl; congruence). by rewrite delete_id by done.
Qed.

Lemma count_delete ok k v m : m !! k = Some v →
  count_votes ok m = ((if ok v then 1 else 0) + count_votes ok (delete k m))%nat.
Proof.
  intros Hk. rewrite <- (insert_delete_id m k v Hk) at 1. apply count_insert_fresh.
  apply lookup_delete_eq.
Qed.

Lemma count_insert ok k v w m : m !! k = Some w →
  count_votes ok (<[k := v]> m) = ((if ok v then 1 else 0) + count_votes ok (delete k m))%nat.
Proof.
  intros Hk. rewrite (count_delete ok k v (<[k := v]> m)) by apply lookup_insert_eq.
  by rewrite delete_insert_eq.
Qed.

Definition is_vote (v w : RollVote) : bool := bool_decide (w = v).

(** Every vote is of one of the six kinds. *)
Lemma votes_partition m :
  base.size m = (count_votes (is_vote NEED) m + count_votes is_greedy m + count_votes (is_vote PASS) m
    + count_votes (is_vote NOT_EMITED_YET) m + count_votes (is_vote NOT_VALID) m)%nat.
Proof.
  induction m as [|k v m Hk IH] using map_ind; [done|].
  rewrite map_size_insert_None, IH by done. rewrite !count_insert_fresh by done.
  destruct v; simpl; lia.
Qed.

Lemma count_zero ok m : count_votes ok m = 0%nat ↔ ∀ k v, m !! k = Some v → ok v = false.
Proof.
  unfold count_votes. rewrite map_size_empty_iff. split.
  - intros H k v Hk. destruct (ok v) eqn:E; [|done]. exfalso.
    assert (filter (λ x : Z * RollVote, ok x.2 = true) m !! k = Some v) as Hf
      by by apply map_lookup_filter_Some.
    by rewrite H, lookup_empty in Hf.
  - intros H. apply map_eq. intros k. rewrite lookup_empty. apply map_lookup_filter_None.
    destruct (m !! k) as [v|] eqn:E; [right|by left]. intros v' [= <-]. simpl. by rewrite (H k v E).
Qed.

(** The counters count the votes. *)
Record tally_ok (r : Roll) : Prop := {
  tally_need : totalNeed r = Z.of_nat (count_votes (is_vote NEED) (playerVote r));
  tally_greed : totalGreed r = Z.of_nat (count_votes is_greedy (playerVote r));
  tally_pass : totalPass r = Z.of_nat (count_votes (is_vote PASS) (playerVote r));
  tally_all : totalPlayersRolling r = Z.of_nat (base.size (playerVote r));
  tally_valid : count_votes (is_vote NOT_VALID) (playerVote r) = 0%nat;
  tally_bound : Z.of_nat (base.size (playerVote r)) < 256
}.

Definition pending (r : Roll) : nat := count_votes (is_vote NOT_EMITED_YET) (playerVote r).

(** A roll with right counters is complete when nobody has still to vote. *)
Lemma tally_complete r : tally_ok r → complete r = bool_decide (pending r = 0%nat).
Proof.
  intros [N G P A V B]. unfold complete, pending. pose proof (votes_partition (playerVote r)) as H.
  rewrite N, G, P, A. destruct (Z.leb_spec (Z.of_nat (base.size (playerVote r)))
    (Z.of_nat (count_votes (is_vote PASS) (playerVote r)) + Z.of_nat (count_votes (is_vote NEED) (playerVote r))
     + Z.of_nat (count_votes is_greedy (playerVote r)))); symmetry;
    [apply bool_decide_true|apply bool_decide_false]; lia.
Qed.

(** The first vote of a player keeps the counters right and makes one vote less pending. *)
Lemma cast_vote_tally p c r :
  tally_ok r → playerVote r !! p = Some NOT_EMITED_YET → 0 <= c < 4 →
  tally_ok (cast_vote p c r) ∧ pending r = S (pending (cast_vote p c r)).
Proof.
  intros [N G P A V B] Hp Hc. unfold pending.
  assert (∀ ok, count_votes ok (playerVote r) =
    ((if ok NOT_EMITED_YET then 1 else 0) + count_votes ok (delete p (playerVote r)))%nat) as Hd
    by by intros; apply count_delete.
  pose proof (votes_partition (playerVote r)) as Hsz.
  assert (∀ v, base.size (<[p := v]> (playerVote r)) = base.size (playerVote r)) as Hs.
  { intros v. apply map_size_insert_Some. by eexists. }
  assert (c = 0 ∨ c = 1 ∨ c = 2 ∨ c = 3) as [-> | [-> | [-> | ->]]] by lia;
    (split; [split|]; simpl;
     rewrite ?Hs, ?(count_insert _ p _ _ _ Hp), ?N, ?G, ?P, ?A; rewrite ?Hd in *; simpl in *;
     rewrite ?uwrap_small by (unfold in_u; lia); try lia).
Qed.

(** ** Code that only talks *)

(** Items that change hands. *)
Definition is_transfer (e : effect) : bool :=
  match e with StoreNewItem _ _ _ _ | AutoStoreLoot _ _ => true | _ => false end.

Definition transfers (es : list effect) : list effect := filter (λ e, is_transfer e = true) es.

Lemma transfers_app l1 l2 : transfers (l1 ++ l2) = transfers l1 ++ transfers l2.
Proof. apply filter_app. Qed.

Class Talks (p : lr unit) : Prop :=
  talks : ∀ s, ∃ es, p s = (Ret tt, with_effects es s) ∧ transfers es = [].

Lemma with_effects_nil s : with_effects [] s = s.
Proof. destruct s. unfold with_effects. simpl. by rewrite app_nil_r. Qed.
Lemma with_effects_app l1 l2 s : with_effects l2 (with_effects l1 s) = with_effects (l1 ++ l2) s.
Proof. unfold with_effects. simpl. by rewrite app_assoc. Qed.

#[export] Instance talks_ret : Talks (mret tt).
Proof. intros s. exists []. by rewrite with_effects_nil. Qed.
#[export] Instance talks_seq p q : Talks p → Talks q → Talks (p;; q).
Proof.
  intros Hp Hq s. destruct (Hp s) as (l1 & E1 & T1). destruct (Hq (with_effects l1 s)) as (l2 & E2 & T2).
  exists (l1 ++ l2). erewrite bind_ret_run by exact E1.
  by rewrite E2, with_effects_app, transfers_app, T1, T2.
Qed.
#[export] Instance talks_if (b : bool) p q : Talks p → Talks q → Talks (if b then p else q).
Proof. by destruct b. Qed.
#[export] Instance talks_send to op data : Talks (send_to to op data).
Proof.
  intros s. eexists. split; [done|]. induction to as [|g to IH]; [done|]. exact IH.
Qed.
#[export] Instance talks_SendLootRoll E a b c d r : Talks (SendLootRoll E a b c d r).
Proof. unfold SendLootRoll. apply _. Qed.
#[export] Instance talks_SendLootRollWon E a b c d r : Talks (SendLootRollWon E a b c d r).
Proof. unfold SendLootRollWon. apply _. Qed.
#[export] Instance talks_SendLootAllPassed E n r : Talks (SendLootAllPassed E n r).
Proof. unfold SendLootAllPassed. apply _. Qed.
#[export] Instance talks_announce E p c r : Talks (announce_vote E p c r).
Proof. unfold announce_vote. apply _. Qed.
#[export] Instance talks_start E a b r : Talks (SendLootStartRoll E a b r).
Proof. unfold SendLootStartRoll. apply _. Qed.
#[export] Instance talks_achievement w t a b : Talks (emit (UpdateAchievementCriteria w t a b)).
Proof. intros s. by eexists. Qed.

(** ** Finding and changing a roll *)

Lemma find_roll_Some ok l i :
  find_roll ok l = Some i ↔ ∃ r, l !! i = Some r ∧ ok r = true ∧ ∀ j r', (j < i)%nat → l !! j = Some r' → ok r' = false.
Proof.
  revert i. induction l as [|r l IH]; intros i; simpl.
  - split; [done|]. intros (r & H & _). by rewrite lookup_nil in H.
  - destruct (ok r) eqn:Er.
    + split.
      * intros [= <-]. exists r. split_and!; [done..|]. intros j r' Hj. lia.
      * intros (r1 & H & Hok & Hmin). destruct i as [|i]; [done|]. exfalso.
        specialize (Hmin 0%nat r). rewrite Er in Hmin. discriminate Hmin; [lia|done].
    + rewrite fmap_Some. split.
      * intros (k & Hk & ->). apply IH in Hk as (r1 & H & Hok & Hmin). exists r1. split_and!; [done..|].
        intros [|j] r' Hj; simpl; [by intros [= <-]|]. apply Hmin. lia.
      * intros (r1 & H & Hok & Hmin). destruct i as [|i]; [simpl in H; congruence|].
        exists i. split; [|done]. apply IH. exists r1. split_and!; [done..|].
        intros j r' Hj Hl. apply (Hmin (S j) r'); [lia|done].
Qed.

Lemma find_roll_None ok l : find_roll ok l = None ↔ ∀ r, r ∈ l → ok r = false.
Proof.
  induction l as [|r l IH]; simpl.
  - split; [intros _ r H; by apply not_elem_of_nil in H|done].
  - destruct (ok r) eqn:Er.
    + split; [done|]. intros H. specialize (H r ltac:(by left)). congruence.
    + rewrite fmap_None, IH. split; [intros H r' [->|Hr']%elem_of_cons; auto|]. intros H r' Hr'. apply H. by right.
Qed.

Lemma roll_at_run i r s : RollId s !! i = Some r → roll_at i s = (Ret r, s).
Proof. intros H. unfold roll_at. erewrite bind_ret_run by done. by rewrite H. Qed.

(** The item a roll is for: the item of its slot, in the loot it refers to. *)
Definition item_of (s : Rolls) (r : Roll) (p : Z) (l : Loot) (it : LootItem) : Prop :=
  iRefTo r = Some p ∧ loots s !! p = Some l ∧ items l !! Z.to_nat (itemSlot r) = Some it.

Lemma item_not_emptied s r p l it : item_of s r p l it → loot_emptied r s = (Ret false, s).
Proof.
  intros (Hp & Hl & Hi). unfold loot_emptied, deref_loot. rewrite Hp. erewrite bind_ret_run.
  2: { erewrite bind_ret_run by done. by rewrite Hl. }
  rewrite bool_decide_false; [done|]. intros H. by rewrite H, lookup_nil in Hi.
Qed.

(** The roll of an item a player votes for. *)
Definition votable (s : Rolls) (guid : Z) (i : nat) (r : Roll) : Prop :=
  find_roll (λ r, (itemGUID r =? guid) && isValid r) (RollId s) = Some i ∧ RollId s !! i = Some r ∧
  ∃ p l it, item_of s r p l it.

(** One vote: the announcement, the new tally, and the count when it is complete. *)
Lemma CountRollVote_run E p guid n c s i r v :
  votable s guid i r → playerVote r !! p = Some v →
  ∃ es, transfers es = [] ∧
    let s' := with_RollId (alter (cast_vote p c) i (RollId s)) (with_effects es s) in
    CountRollVote E p guid n c s =
      if complete (cast_vote p c r) then CountTheRoll E i n s' else (Ret tt, s').
Proof.
  intros (Hf & Hr & p0 & l & it & Hl%item_not_emptied) Hv. destruct (talks_announce E p c r s) as (es & Ees & Tes).
  exists es. split; [exact Tes|]. cbv zeta. unfold CountRollVote, GetRoll.
  erewrite bind_ret_run by done. rewrite Hf.
  erewrite bind_ret_run by by apply roll_at_run. rewrite Hv.
  erewrite bind_ret_run by exact Hl. cbv iota. erewrite bind_ret_run by exact Ees. erewrite bind_ret_run by done.
  erewrite bind_ret_run.
  2: { apply roll_at_run. simpl. rewrite list_lookup_alter_eq, Hr. done. }
  by destruct (complete _).
Qed.

(** A vote that is repeated is counted again; the counters stay below 256 as long as
    somebody has still to vote. *)
Lemma cast_vote_complete p c r v :
  tally_ok r → playerVote r !! p = Some v → (0 < pending r)%nat → 0 <= c < 4 →
  complete (cast_vote p c r) = bool_decide (pending r = 1%nat).
Proof.
  intros [N G P A V B] Hp Hpend Hc. pose proof (votes_partition (playerVote r)) as Hsz.
  unfold pending, complete in *.
  assert (∀ x : Z, (totalPlayersRolling r <=? x) = bool_decide (totalPlayersRolling r <= x)) as Hle
    by (intros; destruct (Z.leb_spec (totalPlayersRolling r) x); symmetry;
        [by apply bool_decide_true|apply bool_decide_false; lia]).
  assert (c = 0 ∨ c = 1 ∨ c = 2 ∨ c = 3) as [-> | [-> | [-> | ->]]] by lia; simpl;
    rewrite Hle; apply bool_decide_ext; rewrite ?N, ?G, ?P, ?A, uwrap_small by (unfold in_u; lia); lia.
Qed.

(** ** The dice *)

Section Dice.
Context (E : Env).

Definition die (n : nat) : Z := uwrap 8 (urand_1_100 E n).

(** The best of the rolls [n, n + 1, ...] of the contenders, the first one of equals. *)
Fixpoint best_of (n : nat) (cs : list (Z * RollVote)) (best : Z * Z * RollVote) : Z * Z * RollVote :=
  match cs with
  | [] => best
  | (g, v) :: cs => best_of (S n) cs (if best.1.2 <? die n then (g, die n, v) else best)
  end.

(** [g] rolled [d] with the vote [v]: nobody rolled more, and who rolled as much has a
    greater guid. *)
Definition wins (n : nat) (cs : list (Z * RollVote)) (g d : Z) (v : RollVote) : Prop :=
  ∃ k, cs !! k = Some (g, v) ∧ d = die (n + k) ∧
    ∀ j, (j < length cs)%nat → die (n + j) <= d ∧ ((j < k)%nat → die (n + j) < d).

Lemma best_of_spec cs : ∀ n best,
  (best_of n cs best = best ∧ ∀ j, (j < length cs)%nat → die (n + j) <= best.1.2) ∨
  (∃ k g v, best_of n cs best = (g, die (n + k), v) ∧ cs !! k = Some (g, v) ∧ best.1.2 < die (n + k) ∧
     ∀ j, (j < length cs)%nat → die (n + j) <= die (n + k) ∧ ((j < k)%nat → die (n + j) < die (n + k))).
Proof.
  induction cs as [|[g v] cs IH]; intros n best; simpl.
  - left. split; [done|]. intros j Hj. lia.
  - specialize (IH (S n) (if best.1.2 <? die n then (g, die n, v) else best)).
    assert (∀ j, die (n + S j) = die (S n + j)) as Hs by (intros; f_equal; lia).
    assert (die (n + 0) = die n) as H0 by (f_equal; lia).
    destruct (Z.ltb_spec (best.1.2) (die n)) as [Hlt|Hge];
      destruct IH as [[Eb Hall]|(k & g' & v' & Eb & Hk & Hd & Hall)].
    + right. exists 0%nat, g, v. rewrite H0. split_and!; [done..|].
      intros [|j] Hj; [rewrite H0; lia|]. rewrite Hs. specialize (Hall j ltac:(lia)). cbn [fst snd] in Hall. lia.
    + right. exists (S k), g', v'. rewrite Hs. cbn [fst snd] in Hd. split_and!; [done|done|lia|].
      intros [|j] Hj; [rewrite H0; lia|]. rewrite Hs. destruct (Hall j ltac:(lia)). split; [done|].
      intros. auto with lia.
    + left. split; [done|]. intros [|j] Hj; [rewrite H0; lia|]. rewrite Hs. apply Hall. lia.
    + right. exists (S k), g', v'. rewrite Hs. split_and!; [done..|].
      intros [|j] Hj; [rewrite H0; lia|]. rewrite Hs. destruct (Hall j ltac:(lia)). split; [done|].
      intros. auto with lia.
Qed.

(** The dice show at least 1, so somebody wins. *)
Lemma best_of_wins n cs first : cs ≠ [] → (∀ k, 0 < die k) →
  ∃ g d v, best_of n cs (first, 0, NOT_VALID) = (g, d, v) ∧ wins n cs g d v.
Proof.
  intros Hne Hdie. destruct (best_of_spec cs n (first, 0, NOT_VALID)) as [[_ H]|(k & g & v & H & Hk & _ & Hall)].
  - destruct cs as [|c cs]; [done|]. specialize (H 0%nat ltac:(simpl; lia)). simpl in H.
    specialize (Hdie (n + 0)%nat). lia.
  - exists g, (die (n + k)), v. split; [done|]. by exists k.
Qed.

(** The loop rolls for the players with a wanted vote, and only for them. *)
Lemma roll_dice_run ok r votes : ∀ best s,
  let cs := filter (λ x : Z * RollVote, ok x.2 = true) votes in
  ∃ es, transfers es = [] ∧
    roll_dice E ok r votes best s =
      (Ret (best_of (draws s) cs best), with_draws (draws s + length cs) (with_effects es s)).
Proof.
  induction votes as [|[g v] votes IH]; intros best s; simpl.
  - exists []. split; [done|]. rewrite with_effects_nil, Nat.add_0_r. by destruct s.
  - rewrite filter_cons. destruct (ok v) eqn:Ev; simpl.
    + rewrite decide_True by done. simpl.
      set (s1 := with_draws (S (draws s)) s).
      destruct (talks_SendLootRoll E 0 g (die (draws s)) (vote_code v) r s1) as (es & Ees & Tes).
      destruct (IH (if best.1.2 <? die (draws s) then (g, die (draws s), v) else best) (with_effects es s1))
        as (es' & Tes' & Hrun).
      exists (es ++ es'). split; [by rewrite transfers_app, Tes, Tes'|].
      erewrite bind_ret_run by done. erewrite bind_ret_run by exact Ees.
      destruct best as [[mg mr] mv]. cbn [fst snd] in *.
      etransitivity; [exact Hrun|]. f_equal.
      unfold with_draws, with_effects. simpl. by rewrite app_assoc, Nat.add_succ_r.
    + rewrite decide_False by congruence. apply IH.
Qed.

End Dice.

(** ** The item *)

Lemma alter_is_insert {A} (m : gmap Z A) p f x : m !! p = Some x → alter f p m = <[p := f x]> m.
Proof.
  intros Hp. apply map_eq. intros q. destruct (decide (q = p)) as [->|Hq].
  - by rewrite lookup_alter_eq, lookup_insert_eq, Hp.
  - by rewrite lookup_alter_ne, lookup_insert_ne by done.
Qed.

Lemma alter_is_list_insert {A} (l : list A) k f x : l !! k = Some x → alter f k l = <[k := f x]> l.
Proof.
  revert k. induction l as [|y l IH]; intros [|k] H; simpl in *; [done..|congruence|].
  f_equal. by apply IH.
Qed.

Lemma upd_loot_run p f s l : loots s !! p = Some l →
  upd_loot p f s = (Ret tt, with_loots (<[p := f l]> (loots s)) s).
Proof. intros Hl. unfold upd_loot, modify. by rewrite (alter_is_insert _ _ _ _ Hl). Qed.

(** From [s] to [s']: the item in the slot [k] of the loot at [p] becomes [it], and [es] happens. *)
Definition settles (s s' : Rolls) (p : Z) (k : nat) (it : LootItem) (es : list effect) : Prop :=
  ∃ l l', loots s !! p = Some l ∧ items l' = <[k := it]> (items l) ∧
    s' = with_loots (<[p := l']> (loots s)) (with_effects es s).

Section Items.
Context (E : Env).

Lemma deref_loot_run p s l : loots s !! p = Some l → deref_loot p s = (Ret l, s).
Proof. intros H. unfold deref_loot. erewrite bind_ret_run by done. by rewrite H. Qed.

Lemma rolled_item_run s r p l it : item_of s r p l it → rolled_item r s = (Ret (p, it), s).
Proof.
  intros (Hp & Hl & Hi). unfold rolled_item. rewrite Hp. erewrite bind_ret_run by done.
  erewrite bind_ret_run by by apply deref_loot_run. by rewrite Hi.
Qed.

Lemma upd_item_settles f s r p l it : item_of s r p l it →
  ∃ s', upd_item p r f s = (Ret tt, s') ∧ settles s s' p (Z.to_nat (itemSlot r)) (f it) [].
Proof.
  intros (Hp & Hl & Hi). eexists. split; [by apply upd_loot_run|].
  exists l, (set_item (Z.to_nat (itemSlot r)) f l). split_and!; [done| |by rewrite with_effects_nil].
  simpl. by apply alter_is_list_insert.
Qed.

Lemma take_item_settles s r p l it : item_of s r p l it →
  ∃ s' es, take_item E p r s = (Ret tt, s') ∧ transfers es = [] ∧
    settles s s' p (Z.to_nat (itemSlot r)) (set_looted true it) es.
Proof.
  intros (Hp & Hl & Hi). unfold take_item, NotifyItemRemoved.
  destruct (talks_send (filter (λ g, has_session E g = true) (sorted_elems (gset_to_gmap tt (PlayersLooting l))).*1)
    SMSG_LOOT_REMOVED (packet (put_u8 (itemSlot r)))
    (with_loots (<[p := set_item (Z.to_nat (itemSlot r)) (set_looted true) l]> (loots s)) s)) as (es & Ees & Tes).
  eexists _, es. split_and!; [|done|].
  - erewrite bind_ret_run by by apply upd_loot_run. erewrite bind_ret_run.
    2: { erewrite bind_ret_run by (apply deref_loot_run, lookup_insert_eq).
         erewrite bind_ret_run by exact Ees. apply upd_loot_run, lookup_insert_eq. }
    apply upd_loot_run, lookup_insert_eq.
  - exists l. eexists. split_and!; [done| |].
    2: { unfold with_loots, with_effects. simpl. by rewrite !insert_insert_eq. }
    simpl. by apply alter_is_list_insert.
Qed.

(** What the winner [g] gets for the vote [v], and the item afterwards. *)
Definition prize (before : list effect) (g : Z) (v : RollVote) (r : Roll) (pt : ItemTemplate) (it : LootItem) :
    list effect * LootItem :=
  if has_session E g then
    match v with
    | DISENCHANT => ([AutoStoreLoot g (DisenchantID pt)], set_looted true it)
    | _ =>
      if CanStoreNewItem E before g (roll_itemid r) (count it) =? EQUIP_ERR_OK
      then ([StoreNewItem g (roll_itemid r) (randomPropertyId it) (allowedGUIDs it)], set_looted true it)
      else ([], set_blocked false it)
    end
  else ([], it).

Lemma settles_emit s s' p k it es e : settles s s' p k it es → settles s (with_effects [e] s') p k it (es ++ [e]).
Proof.
  intros (l & l' & Hl & Hi & ->). exists l, l'. split_and!; [done..|].
  unfold with_loots, with_effects. simpl. by rewrite app_assoc.
Qed.

Lemma give_item_settles g s r p l it pt : item_of s r p l it → has_session E g = true →
  ∃ s' es, give_item E g r s = (Ret tt, s') ∧
    transfers es = (prize (effects s) g NEED r pt it).1 ∧
    settles s s' p (Z.to_nat (itemSlot r)) (prize (effects s) g NEED r pt it).2 es.
Proof.
  intros Hit Hg. unfold give_item, prize. erewrite bind_ret_run by by eapply rolled_item_run. cbv beta iota.
  erewrite bind_ret_run by done. rewrite Hg. destruct (_ =? _).
  - destruct (take_item_settles s r p l it Hit) as (s1 & es & Ht & Tes & Hs).
    eexists _, _. split_and!; [|  |by apply settles_emit].
    + erewrite bind_ret_run by exact Ht. reflexivity.
    + by rewrite transfers_app, Tes.
  - destruct (upd_item_settles (set_blocked false) s r p l it Hit) as (s1 & Ht & Hs).
    eexists _, _. split_and!; [| |by apply settles_emit].
    + erewrite bind_ret_run by exact Ht. reflexivity.
    + done.
Qed.

Lemma disenchant_item_settles g s r p l it pt : item_of s r p l it → has_session E g = true →
  GetItemTemplate E (roll_itemid r) = Some pt →
  ∃ s' es, disenchant_item E g r s = (Ret tt, s') ∧
    transfers es = (prize (effects s) g DISENCHANT r pt it).1 ∧
    settles s s' p (Z.to_nat (itemSlot r)) (prize (effects s) g DISENCHANT r pt it).2 es.
Proof.
  intros Hit Hg Hpt. unfold disenchant_item, prize. erewrite bind_ret_run by by eapply rolled_item_run. cbv beta iota.
  rewrite Hg. destruct (take_item_settles s r p l it Hit) as (s1 & es & Ht & Tes & Hs).
  eexists _, _. split_and!; [| |by apply settles_emit, settles_emit].
  - erewrite bind_ret_run by exact Ht. rewrite Hpt. erewrite bind_ret_run by done.
    erewrite bind_ret_run by done. reflexivity.
  - by rewrite !transfers_app, Tes.
Qed.

End Items.

(** ** The end of a roll *)

(** Who the dice are for: those who need the item, else those who would like it. *)
Definition wanted (r : Roll) : RollVote → bool :=
  if 0 <? totalNeed r then λ v, bool_decide (v = NEED) else is_greedy.

Definition contenders (r : Roll) : list (Z * RollVote) :=
  filter (λ x, wanted r x.2 = true) (sorted_elems (playerVote r)).

Lemma elem_of_contenders r g v :
  (g, v) ∈ contenders r ↔ playerVote r !! g = Some v ∧ wanted r v = true.
Proof. unfold contenders. rewrite list_elem_of_filter, elem_of_sorted_elems. simpl. tauto. Qed.

Lemma count_pos ok m : (0 < count_votes ok m)%nat → ∃ g v, m !! g = Some v ∧ ok v = true.
Proof.
  unfold count_votes. intros H.
  assert (filter (λ x : Z * RollVote, ok x.2 = true) m ≠ ∅) as Hne
    by (intros E; rewrite E, map_size_empty in H; lia).
  apply map_choose in Hne as (g & v & [Hf Hv]%map_lookup_filter_Some). by exists g, v.
Qed.

Lemma contenders_exist r : tally_ok r → 0 < totalNeed r + totalGreed r → contenders r ≠ [].
Proof.
  intros [N G _ _ _ _] Hpos Hnil.
  assert (∃ g v, playerVote r !! g = Some v ∧ wanted r v = true) as (g & v & Hg).
  { unfold wanted. destruct (Z.ltb_spec 0 (totalNeed r)).
    - apply count_pos. unfold is_vote in N. lia.
    - apply count_pos. lia. }
  apply elem_of_contenders in Hg. rewrite Hnil in Hg. by apply not_elem_of_nil in Hg.
Qed.

Section Count.
Context (E : Env).

(** [s1] is [s] after dice and messages. *)
Definition heard (s s1 : Rolls) (es : list effect) : Prop :=
  RollId s1 = RollId s ∧ loots s1 = loots s ∧ effects s1 = effects s ++ es ∧ transfers es = [].

(** The prize of [g] is paid: [es1] happened before it was known whether his bags are full. *)
Definition paid (s s' : Rolls) (p g : Z) (v : RollVote) (r : Roll) (pt : ItemTemplate) (it : LootItem) : Prop :=
  ∃ es1 es2 l l', effects s' = effects s ++ es1 ++ es2 ∧ transfers es1 = [] ∧
    transfers es2 = (prize E (effects s ++ es1) g v r pt it).1 ∧
    loots s !! p = Some l ∧ loots s' = <[p := l']> (loots s) ∧
    items l' = <[Z.to_nat (itemSlot r) := (prize E (effects s ++ es1) g v r pt it).2]> (items l).

Lemma paid_offline s s1 es p g v r pt l it : item_of s r p l it → heard s s1 es → has_session E g = false →
  paid s s1 p g v r pt it.
Proof.
  intros (Hp & Hl & Hi) (HR & HL & He & Tes) Hg. exists es, [], l, l. unfold prize. rewrite Hg. simpl.
  split_and!; [by rewrite app_nil_r|done..|by rewrite insert_id|by rewrite list_insert_id].
Qed.

Lemma paid_settles s s1 s' es es2 p g v r pt it : heard s s1 es →
  settles s1 s' p (Z.to_nat (itemSlot r)) (prize E (effects s1) g v r pt it).2 es2 →
  transfers es2 = (prize E (effects s1) g v r pt it).1 →
  RollId s' = RollId s ∧ paid s s' p g v r pt it.
Proof.
  intros (HR & HL & He & Tes) (l & l' & Hl & Hi & ->) T2. rewrite HL, He in *. split; [done|].
  exists es, es2, l, l'. split_and!; [|done..]. simpl. by rewrite He, app_assoc.
Qed.

Lemma heard_item s s1 es r p l it : heard s s1 es → item_of s r p l it → item_of s1 r p l it.
Proof. intros (_ & HL & _) (? & ? & ?). unfold item_of. by rewrite HL. Qed.

Lemma heard_talk s s1 es es' : heard s s1 es → transfers es' = [] → heard s (with_effects es' s1) (es ++ es').
Proof.
  intros (HR & HL & He & Tes) T'. unfold heard. simpl. rewrite He, transfers_app, Tes, T', app_assoc. done.
Qed.

Lemma bind_bind_run {A B C} (m : lr A) (k : A → lr B) (k' : B → lr C) s a s' :
  m s = (Ret a, s') → ((m ≫= k) ≫= k') s = (k a ≫= k') s'.
Proof. intros H. unfold mbind, prog_bind. by rewrite H. Qed.

(** The common part of both branches: the dice and the announcement of the winner. *)
Lemma dice_heard r votes first s :
  let cs := filter (λ x : Z * RollVote, wanted r x.2 = true) votes in
  cs ≠ [] → (∀ k, 0 < die E k) →
  ∃ s1 es g d v, roll_dice E (wanted r) r votes (first, 0, NOT_VALID) s = (Ret (g, d, v), s1) ∧
    wins E (draws s) cs g d v ∧ heard s s1 es.
Proof.
  intros cs Hne Hdie. destruct (roll_dice_run E (wanted r) r votes (first, 0, NOT_VALID) s) as (es & Tes & Hrun).
  destruct (best_of_wins E (draws s) cs first Hne Hdie) as (g & d & v & Hb & Hw).
  eexists _, es, g, d, v. split_and!; [|exact Hw|].
  - rewrite Hrun. fold cs. rewrite Hb. reflexivity.
  - done.
Qed.

Lemma wins_contender n r g d v : wins E n (contenders r) g d v → wanted r v = true.
Proof. intros (k & Hk & _). apply list_elem_of_lookup_2, elem_of_contenders in Hk. tauto. Qed.

(** The announcement of the winner and the payment [pay]. *)
Lemma award_run s s1 es p g d v c t r l it pt pay :
  heard s s1 es → item_of s r p l it →
  (∀ s, item_of s r p l it → has_session E g = true → ∃ s' es, pay s = (Ret tt, s') ∧
     transfers es = (prize E (effects s) g v r pt it).1 ∧
     settles s s' p (Z.to_nat (itemSlot r)) (prize E (effects s) g v r pt it).2 es) →
  ∃ s', (SendLootRollWon E 0 g d c r;;
         if has_session E g then emit (UpdateAchievementCriteria g t (roll_itemid r) d);; pay else mret tt) s1
        = (Ret tt, s') ∧ RollId s' = RollId s ∧ paid s s' p g v r pt it.
Proof.
  intros Hs1 Hit Hpay. destruct (talks_SendLootRollWon E 0 g d c r s1) as (es2 & Ees2 & Tes2).
  pose proof (heard_talk _ _ _ es2 Hs1 Tes2) as Hs2.
  setoid_rewrite (bind_ret_run _ _ _ _ _ Ees2). destruct (has_session E g) eqn:Hg.
  - pose proof (heard_talk _ _ _ [UpdateAchievementCriteria g t (roll_itemid r) d] Hs2 eq_refl) as Hs3.
    destruct (Hpay _ (heard_item _ _ _ _ _ _ _ Hs3 Hit) eq_refl) as (s' & es' & Hrun & Tes' & Hset).
    exists s'. split; [erewrite bind_ret_run by done; exact Hrun|]. eapply paid_settles; eassumption.
  - exists (with_effects es2 s1). split; [done|]. split; [apply Hs2|]. eapply paid_offline; eassumption.
Qed.

Lemma CountTheRoll_decides i n s r p l it pt :
  RollId s !! i = Some r → item_of s r p l it → contenders r ≠ [] →
  (0 < totalNeed r ∨ 0 < totalGreed r) → (∀ k, 0 < die E k) →
  GetItemTemplate E (roll_itemid r) = Some pt →
  ∃ s' g d v, CountTheRoll E i n s = (Ret tt, s') ∧ wins E (draws s) (contenders r) g d v ∧
    RollId s' = delete i (RollId s) ∧ paid s s' p g v r pt it.
Proof.
  intros Hr Hit Hne Hpos Hdie Hpt.
  assert (isValid r = true) as Hvalid.
  { apply bool_decide_eq_true. destruct Hit as (Hp & _). rewrite Hp. by eexists. }
  destruct (sorted_elems (playerVote r)) as [|[first v0] votes] eqn:Evotes.
  { exfalso. apply Hne. unfold contenders. by rewrite Evotes. }
  destruct (dice_heard r (sorted_elems (playerVote r)) first s Hne Hdie)
    as (s1 & es & g & d & v & Hdice & Hwin & Hs1).
  pose proof (wins_contender _ _ _ _ _ Hwin) as Hv. rewrite Evotes in Hdice. unfold wanted in Hdice, Hv.
  assert (∀ pay c t, (∀ s, item_of s r p l it → has_session E g = true → ∃ s' es, pay s = (Ret tt, s') ∧
     transfers es = (prize E (effects s) g v r pt it).1 ∧
     settles s s' p (Z.to_nat (itemSlot r)) (prize E (effects s) g v r pt it).2 es) →
     ∃ s', ((SendLootRollWon E 0 g d c r;;
         if has_session E g then emit (UpdateAchievementCriteria g t (roll_itemid r) d);; pay else mret tt);;
         erase_roll i) s1 = (Ret tt, s') ∧ RollId s' = delete i (RollId s) ∧ paid s s' p g v r pt it) as Haward.
  { intros pay c t Hpay. destruct (award_run s s1 es p g d v c t r l it pt pay Hs1 Hit Hpay) as (s2 & Hrun & HR & Hpaid).
    eexists. erewrite bind_ret_run by exact Hrun. split; [done|]. simpl. rewrite HR. split; [done|]. exact Hpaid. }
  assert (∃ s', CountTheRoll E i n s = (Ret tt, s') ∧ RollId s' = delete i (RollId s) ∧ paid s s' p g v r pt it)
    as (s' & H1 & H2 & H3).
  2: { by exists s', g, d, v. }
  unfold CountTheRoll. setoid_rewrite (bind_ret_run _ _ _ _ _ (roll_at_run _ _ _ Hr)).
  cbv beta. rewrite Hvalid, Evotes. change (negb true) with false. cbv iota zeta. destruct (0 <? totalNeed r) eqn:En.
  - assert (v = NEED) as -> by by apply bool_decide_eq_true in Hv.
    destruct (Haward (give_item E g r) ROLL_NEED ROLL_NEED_ON_LOOT) as (s' & Hrun & HR & Hp).
    { intros. by apply give_item_settles with (l := l). }
    exists s'. split; [|done]. erewrite bind_bind_run by exact Hdice. exact Hrun.
  - destruct (Z.ltb_spec 0 (totalGreed r)); [|apply Z.ltb_ge in En; lia].
    destruct v; try done.
    + destruct (Haward (give_item E g r) (vote_code GREED) ROLL_GREED_ON_LOOT) as (s' & Hrun & HR & Hp).
      { intros. by apply give_item_settles with (l := l) (pt := pt). }
      exists s'. split; [|done]. erewrite bind_bind_run by exact Hdice. exact Hrun.
    + destruct (Haward (disenchant_item E g r) (vote_code DISENCHANT) ROLL_GREED_ON_LOOT) as (s' & Hrun & HR & Hp).
      { intros. by apply disenchant_item_settles with (l := l). }
      exists s'. split; [|done]. erewrite bind_bind_run by exact Hdice. exact Hrun.
Qed.

(** Nobody wants the item: it is free for all, and nobody gets it. *)
Lemma CountTheRoll_passed i n s r p l it :
  RollId s !! i = Some r → item_of s r p l it → totalNeed r <= 0 → totalGreed r <= 0 →
  ∃ s' es l', CountTheRoll E i n s = (Ret tt, s') ∧ RollId s' = delete i (RollId s) ∧
    effects s' = effects s ++ es ∧ transfers es = [] ∧ loots s' = <[p := l']> (loots s) ∧
    items l' = <[Z.to_nat (itemSlot r) := set_blocked false it]> (items l).
Proof.
  intros Hr Hit Hn Hg.
  assert (isValid r = true) as Hvalid.
  { apply bool_decide_eq_true. destruct Hit as (Hp & _). rewrite Hp. by eexists. }
  destruct (talks_SendLootAllPassed E n r s) as (es & Ees & Tes).
  assert (item_of (with_effects es s) r p l it) as Hit1 by exact Hit.
  destruct (upd_item_settles (set_blocked false) _ r p l it Hit1) as (s1 & Hrun & l1 & l' & Hl1 & Hi & ->).
  assert (l1 = l) as -> by (destruct Hit as (_ & Hl & _); simpl in Hl1; congruence).
  eexists _, es, l'. split.
  - unfold CountTheRoll. erewrite bind_ret_run by by apply roll_at_run. rewrite Hvalid.
    change (negb true) with false. cbv iota zeta.
    rewrite (proj2 (Z.ltb_ge 0 (totalNeed r))), (proj2 (Z.ltb_ge 0 (totalGreed r))) by done.
    erewrite bind_ret_run; [reflexivity|]. erewrite bind_ret_run by exact Ees.
    erewrite bind_ret_run by by eapply rolled_item_run. exact Hrun.
  - split_and!; [done|simpl; by rewrite app_nil_r|done|done|done].
Qed.

(** ** What becomes of a roll *)

(** The item is free for all, and nobody gets it. *)
Definition freed (s s' : Rolls) (p : Z) (l : Loot) (it : LootItem) (r : Roll) : Prop :=
  ∃ es l', effects s' = effects s ++ es ∧ transfers es = [] ∧ loots s' = <[p := l']> (loots s) ∧
    items l' = <[Z.to_nat (itemSlot r) := set_blocked false it]> (items l).

(** The item stays in the loot as it was. *)
Definition kept (s s' : Rolls) : Prop := ∃ es, effects s' = effects s ++ es ∧ transfers es = [] ∧ loots s' = loots s.

(** The counters decide whether somebody wants the item, the votes who rolls for it. If the
    counters promise a vote there is none of, the first player gets what was needed. *)
Definition settled (s s' : Rolls) (p : Z) (l : Loot) (it : LootItem) (pt : ItemTemplate) (r : Roll) : Prop :=
  if (totalNeed r <=? 0) && (totalGreed r <=? 0) then freed s s' p l it r
  else if bool_decide (contenders r = []) then
    match sorted_elems (playerVote r) with
    | (first, _) :: _ => if 0 <? totalNeed r then paid s s' p first NEED r pt it else kept s s'
    | [] => kept s s'
    end
  else ∃ g d v, wins E (draws s) (contenders r) g d v ∧ 1 <= d <= 100 ∧ paid s s' p g v r pt it.

(** With right counters somebody rolls exactly when somebody wants the item. *)
Lemma tally_contenders r : tally_ok r → bool_decide (contenders r = []) = (totalNeed r <=? 0) && (totalGreed r <=? 0).
Proof.
  intros Ht. pose proof (tally_need r Ht) as HN. pose proof (tally_greed r Ht) as HG. case_bool_decide as Hc.
  - destruct (decide (0 < totalNeed r + totalGreed r)) as [Hpos|Hpos]; [by destruct (contenders_exist r Ht Hpos)|]. by decide_cmp.
  - destruct (contenders r) as [|[g v] cs] eqn:Ecs; [done|]. assert ((g, v) ∈ contenders r) as Hg by (rewrite Ecs; by left).
    apply elem_of_contenders in Hg as [Hg Hv]. unfold wanted in Hv. destruct (Z.ltb_spec 0 (totalNeed r)); [by decide_cmp|].
    pose proof (count_delete is_greedy g v _ Hg) as Hcd. rewrite Hv in Hcd. decide_cmp. by rewrite andb_false_r.
Qed.

Lemma item_valid s r p l it : item_of s r p l it → isValid r = true.
Proof. intros (Hp & _). apply bool_decide_eq_true. rewrite Hp. by eexists. Qed.

Lemma CountTheRoll_uncontended i n s r p l it pt :
  RollId s !! i = Some r → item_of s r p l it → contenders r = [] → (0 < totalNeed r ∨ 0 < totalGreed r) →
  ∃ s', CountTheRoll E i n s = (Ret tt, s') ∧ RollId s' = delete i (RollId s) ∧
    match sorted_elems (playerVote r) with
    | (first, _) :: _ => if 0 <? totalNeed r then paid s s' p first NEED r pt it else kept s s'
    | [] => kept s s'
    end.
Proof.
  intros Hr Hit Hnil Hpos. unfold CountTheRoll. setoid_rewrite (bind_ret_run _ _ _ _ _ (roll_at_run _ _ _ Hr)).
  rewrite (item_valid s r p l it Hit). change (negb true) with false. cbv iota zeta. unfold contenders, wanted in Hnil.
  destruct (sorted_elems (playerVote r)) as [|[first v0] votes].
  { exists (with_RollId (delete i (RollId s)) s). assert (kept s (with_RollId (delete i (RollId s)) s)) as Hk by (exists []; split_and!; [by rewrite app_nil_r|done..]).
    destruct (Z.ltb_spec 0 (totalNeed r)); [done|]. destruct (Z.ltb_spec 0 (totalGreed r)); [done|lia]. }
  assert (∀ ok, filter (λ x : Z * RollVote, ok x.2 = true) ((first, v0) :: votes) = [] →
    ∃ s1 es, roll_dice E ok r ((first, v0) :: votes) (first, 0, NOT_VALID) s = (Ret (first, 0, NOT_VALID), s1) ∧ heard s s1 es) as Hdice.
  { intros ok Hok. destruct (roll_dice_run E ok r ((first, v0) :: votes) (first, 0, NOT_VALID) s) as (es & Tes & Hrun). cbv zeta in Hrun.
    rewrite Hok in Hrun. by eexists _, es. }
  destruct (Z.ltb_spec 0 (totalNeed r)).
  - destruct (Hdice (λ v, bool_decide (v = NEED)) Hnil) as (s1 & es & Hrun & Hs1).
    destruct (award_run s s1 es p first 0 NEED ROLL_NEED ROLL_NEED_ON_LOOT r l it pt (give_item E first r) Hs1 Hit) as (s2 & Hrun2 & HR & Hp).
    { intros. by apply give_item_settles with (l := l). }
    eexists. split; [erewrite bind_bind_run by exact Hrun; erewrite bind_ret_run by exact Hrun2; done|]. simpl. rewrite HR. by split.
  - destruct (Z.ltb_spec 0 (totalGreed r)); [|lia]. destruct (Hdice is_greedy Hnil) as (s1 & es & Hrun & Hs1).
    assert (Talks (SendLootRollWon E 0 first 0 (vote_code NOT_VALID) r;;
      if has_session E first then emit (UpdateAchievementCriteria first ROLL_GREED_ON_LOOT (roll_itemid r) 0);; mret tt else mret tt)) as Htalk by apply _.
    destruct (Htalk s1) as (es2 & Ees2 & Tes2). destruct (heard_talk _ _ _ es2 Hs1 Tes2) as (HR & HL & He & Te).
    eexists. split; [erewrite bind_bind_run by exact Hrun; erewrite bind_ret_run by exact Ees2; done|].
    split; [simpl; by rewrite (proj1 Hs1)|]. exists (es ++ es2). split_and!; [exact He|exact Te|exact HL].
Qed.

Lemma CountTheRoll_settles i n s r p l it pt :
  RollId s !! i = Some r → item_of s r p l it → (∀ k, 1 <= die E k <= 100) → GetItemTemplate E (roll_itemid r) = Some pt →
  ∃ s', CountTheRoll E i n s = (Ret tt, s') ∧ RollId s' = delete i (RollId s) ∧ settled s s' p l it pt r.
Proof.
  intros Hr Hit Hdie Hpt. unfold settled. destruct (Z.leb_spec (totalNeed r) 0), (Z.leb_spec (totalGreed r) 0); cbn [andb].
  1: { destruct (CountTheRoll_passed i n s r p l it) as (s' & es & l' & Hrun & HR & Hrest); [done..|]. exists s'. split_and!; [done..|]. by exists es, l'. }
  all: case_bool_decide as Hc; [apply (CountTheRoll_uncontended i n s r p l it pt); (done || lia)|].
  all: destruct (CountTheRoll_decides i n s r p l it pt) as (s' & g & d & v & Hrun & Hw & HR & Hp);
    [done|done|done|lia|intros k; specialize (Hdie k); lia|done|].
  all: exists s'; split_and!; [done..|]; exists g, d, v; split_and!; [done| | |done]; destruct Hw as (k & _ & -> & _); apply Hdie.
Qed.

(** What the end of a roll needs: the item and its template. *)
Definition has_item (s : Rolls) (p : Z) (r : Roll) : Prop :=
  is_Some (GetItemTemplate E (roll_itemid r)) ∧ ∃ l it, item_of s r p l it.

Definition ready (s : Rolls) (p : Z) (r : Roll) : Prop := tally_ok r ∧ has_item s p r.

(** A loot keeps its slots. *)
Lemma settled_loot s s' p l it pt r : loots s !! p = Some l → settled s s' p l it pt r →
  ∃ l', loots s' = <[p := l']> (loots s) ∧ length (items l') = length (items l).
Proof.
  intros Hl H.
  assert (∀ g v, paid s s' p g v r pt it → ∃ l', loots s' = <[p := l']> (loots s) ∧ length (items l') = length (items l)) as Hpaid.
  { intros g v (es1 & es2 & l1 & l' & _ & _ & _ & Hl1 & HL & Hi). assert (l1 = l) as -> by congruence. exists l'. by rewrite HL, Hi, length_insert. }
  assert (kept s s' → ∃ l', loots s' = <[p := l']> (loots s) ∧ length (items l') = length (items l)) as Hkept.
  { intros (es & _ & _ & ->). exists l. by rewrite insert_id. }
  unfold settled in H. destruct (_ && _).
  - destruct H as (es & l' & _ & _ & HL & Hi). exists l'. by rewrite HL, Hi, length_insert.
  - case_bool_decide; [|destruct H as (g & d & v & _ & _ & Hp); by eapply Hpaid].
    destruct (sorted_elems (playerVote r)) as [|[first v0] votes]; [by apply Hkept|]. destruct (0 <? totalNeed r); [by eapply Hpaid|by apply Hkept].
Qed.

Lemma settled_keeps s s' p l it pt r q r' : loots s !! p = Some l → settled s s' p l it pt r → has_item s q r' → has_item s' q r'.
Proof.
  intros Hl (l' & HL & Hlen)%settled_loot (Hpt & l0 & it0 & Hq & Hl0 & Hi0); [|done]. split; [done|]. unfold item_of. rewrite HL.
  destruct (decide (q = p)) as [->|Hqp].
  - rewrite Hl in Hl0. injection Hl0 as <-. destruct (lookup_lt_is_Some_2 (items l') (Z.to_nat (itemSlot r'))) as [it1 Hit1].
    { rewrite Hlen. by eapply lookup_lt_Some. }
    exists l', it1. by rewrite lookup_insert_eq.
  - exists l0, it0. by rewrite lookup_insert_ne by done.
Qed.

(** Rolls are counted one after the other, each in the state the one before it leaves. *)
Inductive counted (p : Z) : list Roll → Rolls → Rolls → Prop :=
| counted_none s : counted p [] s s
| counted_roll r rs i s s1 s' l it pt :
    RollId s !! i = Some r → item_of s r p l it → GetItemTemplate E (roll_itemid r) = Some pt →
    RollId s1 = delete i (RollId s) → settled s s1 p l it pt r → counted p rs s1 s' → counted p (r :: rs) s s'.

End Count.

Lemma filter_delete {A} (P : A → Prop) `{∀ x, Decision (P x)} (l : list A) : ∀ (i : nat) (x : A),
  l !! i = Some x → ¬ P x → filter P (delete i l) = filter P l.
Proof.
  induction l as [|y l IH]; intros [|i] x Hi Hx; simpl in *; [done..| |].
  - injection Hi as ->. by rewrite filter_cons_False.
  - rewrite !filter_cons. by rewrite (IH i x).
Qed.

Lemma filter_none {A} (P : A → Prop) `{∀ x, Decision (P x)} (l : list A) : (∀ x, x ∈ l → ¬ P x) → filter P l = [].
Proof.
  intros Hl. destruct (filter P l) as [|x k] eqn:E; [done|]. assert (x ∈ filter P l) as [Hx Hin]%list_elem_of_filter by (rewrite E; by left).
  by destruct (Hl x Hin).
Qed.

Lemma filter_first {A} (P : A → Prop) `{∀ x, Decision (P x)} (l : list A) : ∀ (i : nat) (x : A),
  l !! i = Some x → P x → (∀ j y, (j < i)%nat → l !! j = Some y → ¬ P y) → filter P l = x :: filter P (delete i l).
Proof.
  induction l as [|y l IH]; intros [|i] x Hi Hx Hmin; simpl in *; [done..| |].
  - injection Hi as ->. by rewrite filter_cons_True.
  - assert (¬ P y) as Hy by (apply (Hmin O); [lia|done]). rewrite !filter_cons_False by done.
    apply IH; [done..|]. intros j z Hj Hz. apply (Hmin (S j)); [lia|done].
Qed.

Lemma end_roll_loop_run E p n : (∀ k, 1 <= die E k <= 100) → ∀ fuel s,
  (length (RollId s) < fuel)%nat → (∀ r, r ∈ RollId s → iRefTo r = Some p → has_item E s p r) →
  ∃ s', end_roll_loop E fuel p n s = (Ret true, s') ∧
    RollId s' = filter (λ r, iRefTo r ≠ Some p) (RollId s) ∧ counted E p (filter (λ r, iRefTo r = Some p) (RollId s)) s s'.
Proof.
  intros Hdie. induction fuel as [|fuel IH]; intros s Hlen Hready; [lia|]. simpl.
  destruct (find_roll (λ r, bool_decide (iRefTo r = Some p)) (RollId s)) as [i|] eqn:Hfind.
  - pose proof Hfind as (r & Hr & Hok%bool_decide_eq_true & Hmin)%find_roll_Some.
    pose proof (list_elem_of_lookup_2 _ _ _ Hr) as Hin.
    destruct (Hready r Hin Hok) as ([pt Hpt] & l & it & Hit).
    destruct (CountTheRoll_settles E i n s r p l it pt Hr Hit Hdie Hpt) as (s1 & Hrun & HR & Hset).
    destruct (IH s1) as (s' & Hrun' & HR' & Hc).
    + rewrite HR, length_delete by by eexists. apply lookup_lt_Some in Hr. lia.
    + intros r' Hr' Hp. eapply settled_keeps; [apply Hit|exact Hset|]. apply Hready; [|done]. rewrite HR in Hr'.
      apply list_elem_of_lookup in Hr' as (j & Hj). rewrite list_lookup_delete in Hj. case_decide;
        by eapply list_elem_of_lookup_2.
    + exists s'. split_and!; [|rewrite HR', HR; apply filter_delete with (x := r); tauto|].
      * erewrite bind_ret_run by done. rewrite Hfind. by erewrite bind_ret_run by exact Hrun.
      * rewrite (filter_first _ _ i r Hr Hok) by (intros j y Hj Hy; specialize (Hmin j y Hj Hy); by apply bool_decide_eq_false in Hmin).
        rewrite <- HR. by econstructor.
  - exists s. erewrite bind_ret_run by done. rewrite Hfind. split; [done|].
    pose proof (proj1 (find_roll_None _ _) Hfind) as Hno. split.
    + symmetry. apply filter_all. intros r Hr. specialize (Hno r Hr). by apply bool_decide_eq_false in Hno.
    + rewrite filter_none; [constructor|]. intros r Hr. specialize (Hno r Hr). by apply bool_decide_eq_false in Hno.
Qed.

(** ** A leaving member *)

Definition leave (guid : Z) (r : Roll) : Roll :=
  match playerVote r !! guid with Some v => retract guid v r | None => r end.

Lemma leave_tally guid r : tally_ok r → tally_ok (leave guid r).
Proof.
  intros Ht. unfold leave. destruct (playerVote r !! guid) as [v|] eqn:Hv; [|done].
  destruct Ht as [N G P A V B].
  pose proof (λ ok, count_delete ok guid v (playerVote r) Hv) as Hd.
  assert (base.size (playerVote r) = S (base.size (delete guid (playerVote r)))) as Hs
    by (rewrite <- (insert_delete_id _ _ _ Hv) at 1; apply map_size_insert_None, lookup_delete_eq).
  rewrite Hd in N, G, P, V. rewrite Hs in A, B.
  assert (v ≠ NOT_VALID) as Hvalid by (intros ->; simpl in V; lia).
  split; destruct v; try done; simpl in *; rewrite ?N, ?G, ?P, ?A; try lia;
    rewrite uwrap_small by (unfold in_u; rewrite ?Hs; pose proof (votes_partition (delete guid (playerVote r))); lia); lia.
Qed.

Lemma CountRollVote_absent E p guid n c s :
  (∀ i r, find_roll (λ r, (itemGUID r =? guid) && isValid r) (RollId s) = Some i →
     RollId s !! i = Some r → playerVote r !! p = None) →
  CountRollVote E p guid n c s = (Ret tt, s).
Proof.
  intros H. unfold CountRollVote, GetRoll. erewrite bind_ret_run by done.
  destruct (find_roll _ (RollId s)) as [i|] eqn:Hf; [|done].
  pose proof Hf as (r & Hr & _)%find_roll_Some. erewrite bind_ret_run by by apply roll_at_run.
  by rewrite (H i r).
Qed.

Lemma remove_votes_run E guid m n : ∀ i s,
  NoDup (itemGUID <$> RollId s) → (i + n)%nat = length (RollId s) →
  remove_votes E n i guid m s =
    (Ret tt, with_RollId (take i (RollId s) ++ (leave guid <$> drop i (RollId s))) s).
Proof.
  induction n as [|n IH]; intros i s Hnd Hlen; simpl.
  - rewrite take_ge, drop_ge by lia. simpl. rewrite app_nil_r. by destruct s.
  - destruct (lookup_lt_is_Some_2 (RollId s) i) as [r Hr]; [lia|].
    erewrite bind_ret_run by by apply roll_at_run.
    rewrite (drop_S _ _ _ Hr). simpl. unfold leave at 1. destruct (playerVote r !! guid) as [v|] eqn:Hv.
    + set (s1 := with_RollId (<[i := retract guid v r]> (RollId s)) s).
      assert (itemGUID <$> RollId s1 = itemGUID <$> RollId s) as Hg.
      { unfold s1. simpl. rewrite list_fmap_insert. apply list_insert_id. by rewrite list_lookup_fmap, Hr. }
      assert (CountRollVote E guid (itemGUID r) (uwrap 32 (m - 1)) MAX_ROLL_TYPE s1 = (Ret tt, s1)) as Habs.
      { apply CountRollVote_absent. intros j r' (r1 & Hj & Hok & _)%find_roll_Some Hj'.
        assert (r1 = r') as -> by congruence. apply andb_true_iff in Hok as [Hok%Z.eqb_eq _].
        assert (j = i) as ->.
        { eapply NoDup_lookup; [by rewrite <- Hg in Hnd| |].
          - rewrite list_lookup_fmap, Hj. simpl. by rewrite Hok.
          - rewrite Hg, list_lookup_fmap, Hr. done. }
        unfold s1 in Hj'. simpl in Hj'. rewrite list_lookup_insert_eq in Hj' by lia.
        injection Hj' as <-. apply lookup_delete_eq. }
      erewrite bind_ret_run.
      2: { erewrite bind_ret_run.
           2: { unfold upd_roll, modify. rewrite (alter_is_list_insert _ _ _ _ Hr). reflexivity. }
           fold s1. erewrite bind_ret_run by done. erewrite bind_ret_run by exact Habs.
           erewrite bind_ret_run by done. rewrite Nat.eqb_refl. reflexivity. }
      rewrite IH; [|by rewrite Hg|unfold s1; simpl; rewrite length_insert; lia].
      unfold s1. simpl. rewrite drop_insert_lt by lia.
      rewrite (take_S_r _ i (retract guid v r)) by (apply list_lookup_insert_eq; lia).
      by rewrite take_insert_ge, <- app_assoc by lia.
    + erewrite bind_ret_run by done. rewrite IH by (done || lia). by rewrite (take_S_r _ _ _ Hr), <- app_assoc.
Qed.

(** ** Opening a roll *)

#[export] Instance talks_passes E r votes : Talks (announce_passes E r votes).
Proof. induction votes as [|[g v] votes IH]; simpl; apply _. Qed.

Section Opened.
Context (E : Env) (AllowedForPlayer : LootItem → Z → bool) (near GetPassOnGroupLoot : Z → bool).

(** The vote a member starts with. *)
Definition first_vote (m : Z) : RollVote := if GetPassOnGroupLoot m then PASS else NOT_EMITED_YET.

Lemma join_members_spec li ms : ∀ r, NoDup ms → (∀ m, m ∈ ms → playerVote r !! m = None) →
  tally_ok r → (base.size (playerVote r) + length ms < 256)%nat →
  let r' := join_members E AllowedForPlayer near GetPassOnGroupLoot li ms r in
  tally_ok r' ∧ ∀ m v, playerVote r' !! m = Some v ↔
    playerVote r !! m = Some v ∨ (m ∈ ms ∧ joins E AllowedForPlayer near li m = true ∧ v = first_vote m).
Proof.
  induction ms as [|a ms IH]; intros r Hnd Hfresh Ht Hlen; simpl.
  - split; [done|]. intros m v. split; [tauto|]. intros [?|(H & _)]; [done|]. by apply not_elem_of_nil in H.
  - apply NoDup_cons in Hnd as [Ha Hnd]. simpl in Hlen.
    pose proof (Hfresh a ltac:(by left)) as Hra. destruct (joins E AllowedForPlayer near li a) eqn:Hj.
    + edestruct IH as [Ht' Hv'];
        [exact Hnd| | | |split; [exact Ht'|intros m v; rewrite Hv'; simpl]].
      * intros m Hm. simpl. rewrite lookup_insert_ne by (intros ->; done). apply Hfresh. by right.
      * destruct Ht as [N G P A V B].
        split; simpl; rewrite ?map_size_insert_None, ?count_insert_fresh, ?N, ?G, ?P, ?A, ?V by done; fold (first_vote a);
          unfold first_vote; destruct (GetPassOnGroupLoot a); simpl; rewrite ?uwrap_small; unfold in_u; try lia;
          pose proof (votes_partition (playerVote r)); lia.
      * simpl. rewrite map_size_insert_None by done. lia.
      * unfold first_vote. rewrite elem_of_cons. destruct (decide (m = a)) as [->|Hma].
        -- rewrite lookup_insert_eq. split.
           ++ intros [[= <-]|(? & ? & ?)]; [|done]. right. auto.
           ++ intros [H|(_ & _ & ->)]; [congruence|]. by left.
        -- rewrite lookup_insert_ne by done. tauto.
    + edestruct IH as [Ht' Hv'];
        [exact Hnd| |exact Ht|lia|split; [exact Ht'|intros m v; rewrite Hv', elem_of_cons]].
      * intros m Hm. apply Hfresh. by right.
      * split; [tauto|]. intros [?|([->|?] & Hjm & ?)]; [tauto|congruence|tauto].
Qed.

Lemma new_Roll_tally guid li : tally_ok (new_Roll guid li).
Proof. by split. Qed.

End Opened.

Lemma GenerateItemGuid_run s : m_hiItemGuid s < 0xFFFFFFFE →
  GenerateItemGuid s = (Ret (MAKE_NEW_GUID (m_hiItemGuid s) 0 HIGHGUID_ITEM),
                        with_item_guid (uwrap 32 (m_hiItemGuid s + 1)) s).
Proof.
  intros H. unfold GenerateItemGuid. erewrite bind_ret_run by done.
  by rewrite (proj2 (Z.leb_gt _ _)) by done.
Qed.

Lemma find_roll_alter ok f (l : list Roll) : (∀ r, ok (f r) = ok r) → ∀ i, find_roll ok (alter f i l) = find_roll ok l.
Proof.
  intros Hf. induction l as [|r l IH]; intros [|i]; [done..| |]; simpl.
  - by rewrite Hf.
  - by rewrite <- (IH i).
Qed.

Lemma cast_vote_keeps p c r :
  itemGUID (cast_vote p c r) = itemGUID r ∧ iRefTo (cast_vote p c r) = iRefTo r ∧
  itemSlot (cast_vote p c r) = itemSlot r.
Proof. unfold cast_vote. by repeat case_match. Qed.

Lemma votable_after p c es s guid i r : votable s guid i r →
  votable (with_RollId (alter (cast_vote p c) i (RollId s)) (with_effects es s)) guid i (cast_vote p c r).
Proof.
  intros (Hf & Hr & q & l & it & Hit). pose proof (cast_vote_keeps p c) as Hk. split_and!.
  - simpl. rewrite find_roll_alter; [done|]. intros r'. destruct (Hk r') as (-> & Href & _).
    unfold isValid. by rewrite Href.
  - simpl. by rewrite list_lookup_alter_eq, Hr.
  - exists q, l, it. unfold item_of. by destruct (Hk r) as (_ & -> & ->).
Qed.

Lemma die_range E k : (∀ k, 1 <= urand_1_100 E k <= 100) → 1 <= die E k <= 100.
Proof. intros H. specialize (H k). unfold die. rewrite uwrap_small; [done|]. unfold in_u. lia. Qed.

Lemma push_roll_run low timed r s : ∃ es, transfers es = [] ∧
  push_roll low timed r s = (Ret tt, with_RollId (RollId s ++ [r]) (with_effects es s)).
Proof.
  unfold push_roll. exists (if timed then [SetGroupLootTimer 60000 low] else []).
  destruct timed; (split; [done|]); erewrite bind_ret_run by done; [done|].
  unfold with_RollId, with_effects. simpl. by rewrite app_nil_r.
Qed.

Lemma join_members_keeps E Allowed near pass li ms : ∀ r,
  let r' := join_members E Allowed near pass li ms r in
  itemGUID r' = itemGUID r ∧ roll_itemid r' = roll_itemid r.
Proof.
  induction ms as [|a ms IH]; intros r; simpl; [done|].
  by destruct (joins E Allowed near li a); [destruct (IH (with_votes
    (<[a:=if pass a then PASS else NOT_EMITED_YET]> (playerVote r)) (uwrap 8 (totalPlayersRolling r + 1))
    (totalNeed r) (totalGreed r) (if pass a then uwrap 8 (totalPass r + 1) else totalPass r) r))|apply IH].
Qed.

(** The block, the announcements and the new roll. *)
Lemma start_roll_run E low map timed r p k l li s : item_of s r p l li → Z.to_nat (itemSlot r) = k →
  ∃ es l', transfers es = [] ∧ items l' = <[k := set_blocked true li]> (items l) ∧
    (upd_item p r (set_blocked true);;
     (if negb (totalPass r =? 0) then announce_passes E r (sorted_elems (playerVote r)) else mret tt);;
     SendLootStartRoll E 60000 map r;;
     push_roll low timed r) s =
      (Ret tt, with_RollId (RollId s ++ [r]) (with_loots (<[p := l']> (loots s)) (with_effects es s))).
Proof.
  intros Hit Hk. destruct (upd_item_settles (set_blocked true) s r p l li Hit) as (s2 & Hrun & l1 & l' & Hl1 & Hi & ->).
  assert (l1 = l) as -> by (destruct Hit as (_ & Hl & _); congruence). rewrite Hk, with_effects_nil in *.
  set (s2 := with_loots (<[p := l']> (loots s)) s) in *.
  assert (Talks (if negb (totalPass r =? 0) then announce_passes E r (sorted_elems (playerVote r)) else mret tt))
    as Htalk1 by apply _.
  destruct (Htalk1 s2) as (es1 & Hes1 & Tes1).
  destruct (talks_start E 60000 map r (with_effects es1 s2)) as (es2 & Hes2 & Tes2).
  destruct (push_roll_run low timed r (with_effects es2 (with_effects es1 s2))) as (es3 & Tes3 & Hes3).
  exists (es1 ++ es2 ++ es3), l'. split_and!; [by rewrite !transfers_app, Tes1, Tes2, Tes3|done|].
  erewrite bind_ret_run by exact Hrun. erewrite bind_ret_run by exact Hes1. erewrite bind_ret_run by exact Hes2.
  rewrite Hes3, !with_effects_app, <- app_assoc. done.
Qed.

(** ** The properties *)

(** C21. Counting a roll always succeeds and erases it, whatever its counters say; the item and
    its template have to exist. If the counters say that nobody wants the item it is free for
    all. Else the winner is who rolled highest among the players who need it, or who want it if
    none is counted as needing it; of equal rolls the first by guid. If he is in the world, he
    and nobody else gets the item, or its materials if he won with a disenchant vote, and the
    item leaves the loot; if his bags are full the item is free for all. If the counters say
    somebody wants it and no vote does, which repeated votes can bring about, the first player
    gets a needed item and nobody another one; right counters exclude this case. *)
Theorem CountTheRoll_spec (E : Env) i n s r p l it pt :
  RollId s !! i = Some r → item_of s r p l it → (∀ k, 1 <= urand_1_100 E k <= 100) → GetItemTemplate E (roll_itemid r) = Some pt →
  (∃ s', CountTheRoll E i n s = (Ret tt, s') ∧ RollId s' = delete i (RollId s) ∧ settled E s s' p l it pt r) ∧
  (tally_ok r → bool_decide (contenders r = []) = (totalNeed r <=? 0) && (totalGreed r <=? 0)).
Proof.
  intros Hr Hit Hrand Hpt. split; [|apply tally_contenders]. apply CountTheRoll_settles; [done..| |done]. intros k. by apply die_range.
Qed.


(** A player can vote again, and every vote counts: with two players to wait for, one of
    them who votes twice ends the roll, and the other one never gets to vote. *)
Theorem repeated_vote_ends_roll (E : Env) p q guid n c c' s i r :
  votable s guid i r → tally_ok r → pending r = 2%nat → p ≠ q → 0 <= c < 4 → 0 <= c' < 4 →
  playerVote r !! p = Some NOT_EMITED_YET → playerVote r !! q = Some NOT_EMITED_YET →
  ∃ s', (CountRollVote E p guid n c;; CountRollVote E p guid n c') s = CountTheRoll E i n s' ∧
    ∃ r', RollId s' !! i = Some r' ∧ playerVote r' !! q = Some NOT_EMITED_YET.
Proof.
  intros Hvot Ht Hpend Hpq Hc Hc' Hp Hq.
  destruct (cast_vote_tally p c r Ht Hp Hc) as [Ht1 Hpend1]. rewrite Hpend in Hpend1.
  assert (∃ v, playerVote (cast_vote p c r) !! p = Some v) as (v & Hp1).
  { assert (c = 0 ∨ c = 1 ∨ c = 2 ∨ c = 3) as [-> | [-> | [-> | ->]]] by lia; simpl;
      rewrite lookup_insert_eq; eauto. }
  assert (∀ c r, playerVote (cast_vote p c r) !! q = playerVote r !! q) as Hq'.
  { intros c0 r0. unfold cast_vote. repeat case_match; simpl; by rewrite ?lookup_insert_ne. }
  destruct (CountRollVote_run E p guid n c s i r _ Hvot Hp) as (es & _ & Hrun).
  pose proof (votable_after p c es s guid i r Hvot) as Hvot1. cbv zeta in Hrun.
  rewrite (cast_vote_complete p c r _ Ht Hp) in Hrun by lia. rewrite Hpend in Hrun.
  destruct (CountRollVote_run E p guid n c' _ i _ _ Hvot1 Hp1) as (es' & _ & Hrun').
  pose proof (votable_after p c' es' _ guid i _ Hvot1) as (_ & Hr2 & _). cbv zeta in Hrun'.
  rewrite (cast_vote_complete p c' _ _ Ht1 Hp1) in Hrun' by lia.
  rewrite bool_decide_true in Hrun' by lia.
  eexists. split; [erewrite bind_ret_run by exact Hrun; exact Hrun'|].
  eexists. split; [exact Hr2|]. by rewrite !Hq'.
Qed.

(** C31. When the timer of a loot expires, its rolls are counted one after the other, in the
    order they were opened, each as [settled] says in the state the one before it leaves; they
    are erased and no other roll is touched; the loop ends after at most one turn for each
    roll. The items of the rolls and their templates have to exist. *)
Theorem EndRoll_settles (E : Env) p n s :
  (∀ k, 1 <= urand_1_100 E k <= 100) →
  (∀ r, r ∈ RollId s → iRefTo r = Some p → has_item E s p r) →
  ∃ s', EndRoll E p n s = (Ret true, s') ∧ RollId s' = filter (λ r, iRefTo r ≠ Some p) (RollId s) ∧
    counted E p (filter (λ r, iRefTo r = Some p) (RollId s)) s s'.
Proof.
  intros Hrand Hready. unfold EndRoll. edestruct (end_roll_loop_run E p n) as (s' & Hrun & HR).
  - intros k. by apply die_range.
  - apply Nat.lt_succ_diag_r.
  - exact Hready.
  - exists s'. split; [|done]. by erewrite bind_ret_run by done.
Qed.

(** C37. A member who leaves the group is taken out of every roll and the counters stay right,
    but no roll is counted, not even one that now waits for nobody. *)
Theorem leaver_ends_no_roll (E : Env) guid members s :
  NoDup (itemGUID <$> RollId s) →
  RemoveMember_rolls E guid members s = (Ret tt, with_RollId (leave guid <$> RollId s) s) ∧
  ∀ r, r ∈ RollId s → tally_ok r →
    tally_ok (leave guid r) ∧ playerVote (leave guid r) = delete guid (playerVote r).
Proof.
  intros Hnd. split.
  - unfold RemoveMember_rolls. erewrite bind_ret_run by done. by rewrite remove_votes_run.
  - intros r _ Ht. split; [by apply leave_tally|]. unfold leave.
    destruct (playerVote r !! guid) eqn:Hv; [done|]. by rewrite delete_id.
Qed.

(** [GroupLoot] opens a roll for an item above the threshold when a member near may have
    it: a new item GUID, exactly these members with a pass for those who pass on all loot,
    right counters, the item blocked; nothing changes hands. *)
Theorem GroupLoot_opens_roll (E : Env) members Allowed near pass thr ench low map timed p slot l li item m s :
  freeforall li = false → GetItemTemplate E (itemid li) = Some item → thr <= Quality item →
  NoDup members → (length members < 256)%nat → m ∈ members → joins E Allowed near li m = true →
  loots s !! p = Some l → items l !! slot = Some li → (slot < 256)%nat → m_hiItemGuid s < 0xFFFFFFFE →
  ∃ s' r es l', GroupLoot_item E members Allowed near pass thr ench low map timed p slot li s = (Ret tt, s') ∧
    RollId s' = RollId s ++ [r] ∧ ready E s' p r ∧
    itemGUID r = MAKE_NEW_GUID (m_hiItemGuid s) 0 HIGHGUID_ITEM ∧
    m_hiItemGuid s' = uwrap 32 (m_hiItemGuid s + 1) ∧
    (∀ g v, playerVote r !! g = Some v ↔
       g ∈ members ∧ joins E Allowed near li g = true ∧ v = first_vote pass g) ∧
    loots s' = <[p := l']> (loots s) ∧ items l' = <[slot := set_blocked true li]> (items l) ∧
    effects s' = effects s ++ es ∧ transfers es = [].
Proof.
  intros Hff Hitem Hq Hnd Hlen Hm Hj Hl Hli Hslot Hguid.
  set (g0 := MAKE_NEW_GUID (m_hiItemGuid s) 0 HIGHGUID_ITEM).
  destruct (join_members_spec E Allowed near pass li members (new_Roll g0 li)) as [Ht Hv];
    [done|intros; apply lookup_empty|apply new_Roll_tally|done|].
  set (r0 := join_members E Allowed near pass li members (new_Roll g0 li)) in *.
  destruct (join_members_keeps E Allowed near pass li members (new_Roll g0 li)) as [Hg Hid]. fold r0 in Hg, Hid.
  set (r := opened p (uwrap 8 (Z.of_nat slot)) (vote_mask ench item) r0).
  assert (0 < totalPlayersRolling r0) as Hpos.
  { rewrite (tally_all _ Ht). assert (playerVote r0 !! m = Some (first_vote pass m)) as Hm0 by (apply Hv; auto).
    assert (base.size (playerVote r0) ≠ 0%nat) by (apply map_size_non_empty_iff; intros Hn; by rewrite Hn in Hm0). lia. }
  assert (Z.to_nat (itemSlot r) = slot) as Hs by (simpl; rewrite uwrap_small by (unfold in_u; lia); lia).
  set (s1 := with_item_guid (uwrap 32 (m_hiItemGuid s + 1)) s).
  assert (item_of s1 r p l li) as Hit by (split_and!; [done|done|by rewrite Hs]).
  destruct (start_roll_run E low map timed r p slot l li s1 Hit Hs) as (es & l' & Tes & Hi & Hrun).
  eexists _, r, es, l'. split.
  - unfold GroupLoot_item. rewrite Hff, Hitem, (proj2 (Z.leb_le _ _)) by done.
    erewrite bind_ret_run by (apply GenerateItemGuid_run; done). fold g0 r0 s1. cbv zeta.
    rewrite (proj2 (Z.ltb_lt _ _)) by done. exact Hrun.
  - split_and!; [done| |done|done| |done|done|done|done].
    2: { intros g v. etransitivity; [exact (Hv g v)|]. simpl. rewrite lookup_empty. naive_solver. }
    split; [by destruct Ht|]. split; [simpl; rewrite Hid; by eexists|].
    exists l', (set_blocked true li). split_and!; [done|apply lookup_insert_eq|].
    rewrite Hs, Hi. apply list_lookup_insert_eq. by eapply lookup_lt_Some.
Qed.

(** ** The properties at a concrete roll: item 17 for the players 1, 2 and 3 *)

Definition demo_env : Env :=
  mkEnv (λ _, true) (λ n, Z.of_nat n mod 100 + 1) (λ _ _ _ _, EQUIP_ERR_OK)
    (λ id, if id =? 17 then Some (mkItemTemplate 3 5 0 0) else None).

Definition demo_item : LootItem := mkLootItem 17 0 0 ∅ 1 false false false false.

Definition demo_roll : Roll :=
  opened 900 0 7 (join_members demo_env (λ _ _, true) (λ _, true) (λ _, false) demo_item [1; 2; 3]
    (new_Roll 77 demo_item)).

Definition demo_rolls (r : Roll) : Rolls := mkRolls [r] {[900 := mkLoot [demo_item] 1 {[2]}]} 5 0 [].

Lemma demo_range : ∀ k, 1 <= urand_1_100 demo_env k <= 100.
Proof. intros k. simpl. pose proof (Z.mod_pos_bound (Z.of_nat k) 100). lia. Qed.

Lemma demo_item_of r : iRefTo r = Some 900 → itemSlot r = 0 →
  item_of (demo_rolls r) r 900 (mkLoot [demo_item] 1 {[2]}) demo_item.
Proof. intros Hp Hs. split_and!; [done|done|by rewrite Hs]. Qed.

Lemma demo_tally : tally_ok demo_roll.
Proof. split; by vm_compute. Qed.


(** Player 1 passes, 2 and 3 need it. *)
Definition demo_voted : Roll := cast_vote 3 ROLL_NEED (cast_vote 2 ROLL_NEED (cast_vote 1 ROLL_PASS demo_roll)).

Definition demo_loot : Loot := mkLoot [demo_item] 1 {[2]}.

Lemma CountTheRoll_spec_witness : ∃ s', CountTheRoll demo_env 0 3 (demo_rolls demo_voted) = (Ret tt, s') ∧ RollId s' = [] ∧
  settled demo_env (demo_rolls demo_voted) s' 900 demo_loot demo_item (mkItemTemplate 3 5 0 0) demo_voted.
Proof.
  apply (CountTheRoll_spec demo_env 0 3 (demo_rolls demo_voted) demo_voted 900 demo_loot demo_item (mkItemTemplate 3 5 0 0) eq_refl
    (demo_item_of demo_voted eq_refl eq_refl) demo_range eq_refl).
Defined.


(** Player 1 passes, then 2 needs the item twice. *)
Definition demo_roll2 : Roll := cast_vote 1 ROLL_PASS demo_roll.

Lemma repeated_vote_ends_roll_witness : ∃ s',
  (CountRollVote demo_env 2 77 3 ROLL_NEED;; CountRollVote demo_env 2 77 3 ROLL_NEED) (demo_rolls demo_roll2)
    = CountTheRoll demo_env 0 3 s'.
Proof.
  destruct (repeated_vote_ends_roll demo_env 2 3 77 3 ROLL_NEED ROLL_NEED (demo_rolls demo_roll2) 0 demo_roll2)
    as (s' & Hrun & _); [| | |done|unfold ROLL_NEED; lia|unfold ROLL_NEED; lia|done|done|by exists s'].
  - split_and!; [done|done|]. eexists _, _, _. by apply demo_item_of.
  - apply cast_vote_tally; [exact demo_tally|done|unfold ROLL_PASS; lia].
  - by vm_compute.
Defined.

(** Player 2 needs the item and passes after all: 1, who passed, gets it. *)
Example need_withdrawn :
  transfers (effects ((CountRollVote demo_env 2 77 3 ROLL_NEED;; CountRollVote demo_env 2 77 3 ROLL_PASS) (demo_rolls demo_roll2)).2) =
  [StoreNewItem 1 17 0 ∅].
Proof. by vm_compute. Qed.

Lemma EndRoll_settles_witness : ∃ s', EndRoll demo_env 900 3 (demo_rolls demo_voted) = (Ret true, s') ∧ RollId s' = [] ∧
  counted demo_env 900 [demo_voted] (demo_rolls demo_voted) s'.
Proof.
  apply (EndRoll_settles demo_env 900 3 (demo_rolls demo_voted) demo_range).
  intros r ->%list_elem_of_singleton _. split; [by eexists|]. eexists _, _. by apply demo_item_of.
Defined.

Lemma leaver_ends_no_roll_witness :
  RemoveMember_rolls demo_env 1 3 (demo_rolls demo_roll) = (Ret tt, demo_rolls (leave 1 demo_roll)).
Proof. apply (leaver_ends_no_roll demo_env 1 3 (demo_rolls demo_roll)). apply NoDup_singleton. Defined.

Lemma GroupLoot_opens_roll_witness : ∃ s',
  GroupLoot_item demo_env [1; 2; 3] (λ _ _, true) (λ _, true) (λ _, false) 2 0 1 0 true 900 0 demo_item
    (mkRolls [] {[900 := mkLoot [demo_item] 1 {[2]}]} 5 0 []) = (Ret tt, s') ∧ length (RollId s') = 1%nat.
Proof.
  destruct (GroupLoot_opens_roll demo_env [1; 2; 3] (λ _ _, true) (λ _, true) (λ _, false) 2 0 1 0 true 900 0
    (mkLoot [demo_item] 1 {[2]}) demo_item (mkItemTemplate 3 5 0 0) 1
    (mkRolls [] {[900 := mkLoot [demo_item] 1 {[2]}]} 5 0 [])) as (s' & r & es & l' & Hrun & HR & _);
    [done|done|simpl; lia|apply (bool_decide_unpack _); by vm_compute|simpl; lia|by left|done|done|done|lia|simpl; lia|].
  exists s'. split; [done|]. by rewrite HR.
Defined.
