(* ===== verification/GroupData.v ===== *)
(** * GroupData: the data of groups, src/src/server/game/Groups/Group.h

    Groups are heap objects. The players in the server point to their group, their
    original group while in a battleground raid, and the group that invited them; a group
    lists its online players by the references they hold ([m_memberMgr]), and all its
    members by their slots ([m_memberSlots]). *)

From Stdlib Require Import ZArith Lia.
From S2P Require Import Prelude ByteBuffer LootRoll.
Local Open Scope Z_scope.

(** ** Constants *)

Definition MAXGROUPSIZE : Z := 5.
Definition MAXRAIDSIZE : Z := 40.
Definition MAX_RAID_SUBGROUPS : Z := 8.
Definition TARGETICONCOUNT : Z := 8.

Definition MEMBER_STATUS_OFFLINE : Z := 0x0000.
Definition MEMBER_STATUS_ONLINE : Z := 0x0001.
Definition MEMBER_STATUS_PVP : Z := 0x0002.

Definition MEMBER_FLAG_ASSISTANT : Z := 0x01.
Definition MEMBER_FLAG_MAINTANK : Z := 0x02.
Definition MEMBER_FLAG_MAINASSIST : Z := 0x04.

Definition GROUPTYPE_NORMAL : Z := 0x00.
Definition GROUPTYPE_RAID : Z := 0x02.
Definition GROUPTYPE_BGRAID : Z := 0x03.

Definition GROUP_UPDATE_FULL : Z := 0x0007FFFF.

Definition FREE_FOR_ALL : Z := 0.
Definition MASTER_LOOT : Z := 2.
Definition GROUP_LOOT : Z := 3.

Definition ITEM_QUALITY_UNCOMMON : Z := 2.
Definition DUNGEON_DIFFICULTY_NORMAL : Z := 0.
Definition RAID_DIFFICULTY_10MAN_NORMAL : Z := 0.
Definition MAX_DUNGEON_DIFFICULTY : Z := 3.
Definition MAX_RAID_DIFFICULTY : Z := 4.
Definition LEVELREQUIREMENT_HEROIC : Z := 70.

Inductive RemoveMethod := GROUP_REMOVEMETHOD_DEFAULT | GROUP_REMOVEMETHOD_KICK | GROUP_REMOVEMETHOD_LEAVE.

#[export] Instance RemoveMethod_eq_dec : EqDecision RemoveMethod.
Proof. solve_decision. Defined.

(** ** Data *)

Record MemberSlot := mkSlot {
  slot_guid : Z;
  slot_name : list Z;
  slot_group : Z;
  slot_flags : Z;
  slot_roles : Z
}.

(** The fields of a group that say nothing about who belongs to it. *)
Record Settings := mkSettings {
  m_leaderName : list Z;
  m_dungeonDifficulty : Z;
  m_raidDifficulty : Z;
  m_targetIcons : list Z;
  m_lootMethod : Z;
  m_lootThreshold : Z;
  m_looterGuid : Z;
  m_counter : Z;
  m_maxEnchantingLevel : Z
}.

(** An entry of [m_memberMgr] is the [m_group] reference of a player, or with [true] his
    [m_originalGroup]. *)
Record Group := mkGroup {
  m_memberSlots : list MemberSlot;
  m_memberMgr : list (Z * bool);
  m_invitees : gset Z;
  m_leaderGuid : Z;
  m_groupType : Z;
  m_bgGroup : option Z;
  m_rolls : list Roll;
  m_subGroupsCounts : option (list Z);
  m_guid : Z;
  m_dbStoreId : Z;
  settings : Settings
}.

(** A reference to a group; the sub-group stays when the link is cut. *)
Record GroupReference := mkRef { target : option Z; iSubGroup : Z }.

Record Player := mkPlayer {
  p_name : list Z;
  m_group : GroupReference;
  m_originalGroup : GroupReference;
  m_groupInvite : option Z;
  m_bPassOnGroupLoot : bool;
  m_groupUpdateMask : Z;
  m_dungeonDiff : Z;
  m_raidDiff : Z
}.

Inductive gopcode := SMSG_GROUP_LIST | SMSG_GROUP_UNINVITE | SMSG_GROUP_SET_LEADER | SMSG_GROUP_DESTROYED
| MSG_RAID_TARGET_UPDATE | MSG_RAID_READY_CHECK | MSG_RAID_READY_CHECK_CONFIRM | SMSG_LOOT_LIST
| SMSG_PARTY_COMMAND_RESULT | SMSG_GROUP_INVITE | SMSG_GROUP_DECLINE | MSG_MINIMAP_PING | MSG_RANDOM_ROLL.

Inductive statement := CHAR_INS_GROUP | CHAR_INS_GROUP_MEMBER | CHAR_DEL_GROUP_MEMBER | CHAR_UPD_GROUP_TYPE
| CHAR_UPD_GROUP_LEADER | CHAR_UPD_GROUP_MEMBER_SUBGROUP | CHAR_UPD_GROUP_MEMBER_FLAG
| CHAR_UPD_GROUP_DIFFICULTY | CHAR_UPD_GROUP_RAID_DIFFICULTY | CHAR_DEL_GROUP_INSTANCE_PERM_BINDING
| DELETE_FROM_groups | DELETE_FROM_group_member.

Inductive script := OnGroupInviteMember | OnGroupAddMember | OnGroupRemoveMember | OnGroupChangeLeader | OnGroupDisband.

(** Calls into the rest of a player. *)
Inductive player_call := UpdateForQuestWorldObjects | UpdateObjectVisibility | ForceValuesUpdate
| SendDungeonDifficulty | SendRaidDifficulty | HomebindIfInstance | UpdatePlayerOutOfRange | ClearHomebindTimer
| ResetInstances_GROUP_JOIN.

(** Calls into the instance binds and the battleground of a group. *)
Inductive instance_call := ResetInstances_GROUP_DISBAND | RemovePermanentBinds | ConvertInstancesToGroup (switchLeader : bool)
| RemoveGroupFromSaves | UnlinkFromBattleground.

Inductive geffect :=
| SendPacket (to : Z) (op : gopcode) (data : ByteBuffer)
| Execute (stmt : statement) (params : list Z)
| Script (hook : script) (a : Z) (guids : list Z)
| PlayerCall (p : Z) (call : player_call)
| InstanceCall (a : Z) (call : instance_call)
| GroupStopNow.

(** The groups, the players in the server, the group manager, the table [group_member]
    of the database (the store id of the group of a member), and the world of the loot
    rolls, whose list of rolls is that of the group at work. *)
Record World := mkWorld {
  groups : gmap Z Group;
  online : gmap Z Player;
  GroupStore : gmap Z Z;
  GroupDbStore : list (option Z);
  NextGroupDbStoreId : Z;
  NextGroupId : Z;
  group_member : gmap Z Z;
  roll_world : Rolls;
  gsent : list geffect
}.

Abbreviation gw := (prog World fault).

(** ** Setters *)

Definition with_leaderName (v : list Z) (x : Settings) : Settings :=
  mkSettings v (m_dungeonDifficulty x) (m_raidDifficulty x) (m_targetIcons x) (m_lootMethod x)
    (m_lootThreshold x) (m_looterGuid x) (m_counter x) (m_maxEnchantingLevel x).
Definition with_dungeonDifficulty (v : Z) (x : Settings) : Settings :=
  mkSettings (m_leaderName x) v (m_raidDifficulty x) (m_targetIcons x) (m_lootMethod x)
    (m_lootThreshold x) (m_looterGuid x) (m_counter x) (m_maxEnchantingLevel x).
Definition with_raidDifficulty (v : Z) (x : Settings) : Settings :=
  mkSettings (m_leaderName x) (m_dungeonDifficulty x) v (m_targetIcons x) (m_lootMethod x)
    (m_lootThreshold x) (m_looterGuid x) (m_counter x) (m_maxEnchantingLevel x).
Definition with_targetIcons (v : list Z) (x : Settings) : Settings :=
  mkSettings (m_leaderName x) (m_dungeonDifficulty x) (m_raidDifficulty x) v (m_lootMethod x)
    (m_lootThreshold x) (m_looterGuid x) (m_counter x) (m_maxEnchantingLevel x).
Definition with_lootMethod (v : Z) (x : Settings) : Settings :=
  mkSettings (m_leaderName x) (m_dungeonDifficulty x) (m_raidDifficulty x) (m_targetIcons x) v
    (m_lootThreshold x) (m_looterGuid x) (m_counter x) (m_maxEnchantingLevel x).
Definition with_lootThreshold (v : Z) (x : Settings) : Settings :=
  mkSettings (m_leaderName x) (m_dungeonDifficulty x) (m_raidDifficulty x) (m_targetIcons x)
    (m_lootMethod x) v (m_looterGuid x) (m_counter x) (m_maxEnchantingLevel x).
Definition with_looterGuid (v : Z) (x : Settings) : Settings :=
  mkSettings (m_leaderName x) (m_dungeonDifficulty x) (m_raidDifficulty x) (m_targetIcons x)
    (m_lootMethod x) (m_lootThreshold x) v (m_counter x) (m_maxEnchantingLevel x).
Definition with_counter (v : Z) (x : Settings) : Settings :=
  mkSettings (m_leaderName x) (m_dungeonDifficulty x) (m_raidDifficulty x) (m_targetIcons x)
    (m_lootMethod x) (m_lootThreshold x) (m_looterGuid x) v (m_maxEnchantingLevel x).
Definition with_maxEnchantingLevel (v : Z) (x : Settings) : Settings :=
  mkSettings (m_leaderName x) (m_dungeonDifficulty x) (m_raidDifficulty x) (m_targetIcons x)
    (m_lootMethod x) (m_lootThreshold x) (m_looterGuid x) (m_counter x) v.

Definition with_memberSlots (v : list MemberSlot) (x : Group) : Group :=
  mkGroup v (m_memberMgr x) (m_invitees x) (m_leaderGuid x) (m_groupType x) (m_bgGroup x) (m_rolls x)
    (m_subGroupsCounts x) (m_guid x) (m_dbStoreId x) (settings x).
Definition with_memberMgr (v : list (Z * bool)) (x : Group) : Group :=
  mkGroup (m_memberSlots x) v (m_invitees x) (m_leaderGuid x) (m_groupType x) (m_bgGroup x) (m_rolls x)
    (m_subGroupsCounts x) (m_guid x) (m_dbStoreId x) (settings x).
Definition with_invitees (v : gset Z) (x : Group) : Group :=
  mkGroup (m_memberSlots x) (m_memberMgr x) v (m_leaderGuid x) (m_groupType x) (m_bgGroup x) (m_rolls x)
    (m_subGroupsCounts x) (m_guid x) (m_dbStoreId x) (settings x).
Definition with_leaderGuid (v : Z) (x : Group) : Group :=
  mkGroup (m_memberSlots x) (m_memberMgr x) (m_invitees x) v (m_groupType x) (m_bgGroup x) (m_rolls x)
    (m_subGroupsCounts x) (m_guid x) (m_dbStoreId x) (settings x).
Definition with_groupType (v : Z) (x : Group) : Group :=
  mkGroup (m_memberSlots x) (m_memberMgr x) (m_invitees x) (m_leaderGuid x) v (m_bgGroup x) (m_rolls x)
    (m_subGroupsCounts x) (m_guid x) (m_dbStoreId x) (settings x).
Definition with_bgGroup (v : option Z) (x : Group) : Group :=
  mkGroup (m_memberSlots x) (m_memberMgr x) (m_invitees x) (m_leaderGuid x) (m_groupType x) v
    (m_rolls x) (m_subGroupsCounts x) (m_guid x) (m_dbStoreId x) (settings x).
Definition with_rolls (v : list Roll) (x : Group) : Group :=
  mkGroup (m_memberSlots x) (m_memberMgr x) (m_invitees x) (m_leaderGuid x) (m_groupType x)
    (m_bgGroup x) v (m_subGroupsCounts x) (m_guid x) (m_dbStoreId x) (settings x).
Definition with_subGroupsCounts (v : option (list Z)) (x : Group) : Group :=
  mkGroup (m_memberSlots x) (m_memberMgr x) (m_invitees x) (m_leaderGuid x) (m_groupType x)
    (m_bgGroup x) (m_rolls x) v (m_guid x) (m_dbStoreId x) (settings x).
Definition with_guid (v : Z) (x : Group) : Group :=
  mkGroup (m_memberSlots x) (m_memberMgr x) (m_invitees x) (m_leaderGuid x) (m_groupType x)
    (m_bgGroup x) (m_rolls x) (m_subGroupsCounts x) v (m_dbStoreId x) (settings x).
Definition with_dbStoreId (v : Z) (x : Group) : Group :=
  mkGroup (m_memberSlots x) (m_memberMgr x) (m_invitees x) (m_leaderGuid x) (m_groupType x)
    (m_bgGroup x) (m_rolls x) (m_subGroupsCounts x) (m_guid x) v (settings x).
Definition with_settings (v : Settings) (x : Group) : Group :=
  mkGroup (m_memberSlots x) (m_memberMgr x) (m_invitees x) (m_leaderGuid x) (m_groupType x)
    (m_bgGroup x) (m_rolls x) (m_subGroupsCounts x) (m_guid x) (m_dbStoreId x) v.

Definition with_pname (v : list Z) (x : Player) : Player :=
  mkPlayer v (m_group x) (m_originalGroup x) (m_groupInvite x) (m_bPassOnGroupLoot x)
    (m_groupUpdateMask x) (m_dungeonDiff x) (m_raidDiff x).
Definition with_pgroup (v : GroupReference) (x : Player) : Player :=
  mkPlayer (p_name x) v (m_originalGroup x) (m_groupInvite x) (m_bPassOnGroupLoot x)
    (m_groupUpdateMask x) (m_dungeonDiff x) (m_raidDiff x).
Definition with_originalGroup (v : GroupReference) (x : Player) : Player :=
  mkPlayer (p_name x) (m_group x) v (m_groupInvite x) (m_bPassOnGroupLoot x) (m_groupUpdateMask x)
    (m_dungeonDiff x) (m_raidDiff x).
Definition with_groupInvite (v : option Z) (x : Player) : Player :=
  mkPlayer (p_name x) (m_group x) (m_originalGroup x) v (m_bPassOnGroupLoot x) (m_groupUpdateMask x)
    (m_dungeonDiff x) (m_raidDiff x).
Definition with_bPassOnGroupLoot (v : bool) (x : Player) : Player :=
  mkPlayer (p_name x) (m_group x) (m_originalGroup x) (m_groupInvite x) v (m_groupUpdateMask x)
    (m_dungeonDiff x) (m_raidDiff x).
Definition with_groupUpdateMask (v : Z) (x : Player) : Player :=
  mkPlayer (p_name x) (m_group x) (m_originalGroup x) (m_groupInvite x) (m_bPassOnGroupLoot x) v
    (m_dungeonDiff x) (m_raidDiff x).
Definition with_dungeonDiff (v : Z) (x : Player) : Player :=
  mkPlayer (p_name x) (m_group x) (m_originalGroup x) (m_groupInvite x) (m_bPassOnGroupLoot x)
    (m_groupUpdateMask x) v (m_raidDiff x).
Definition with_raidDiff (v : Z) (x : Player) : Player :=
  mkPlayer (p_name x) (m_group x) (m_originalGroup x) (m_groupInvite x) (m_bPassOnGroupLoot x)
    (m_groupUpdateMask x) (m_dungeonDiff x) v.

Definition with_groups (v : gmap Z Group) (x : World) : World :=
  mkWorld v (online x) (GroupStore x) (GroupDbStore x) (NextGroupDbStoreId x) (NextGroupId x)
    (group_member x) (roll_world x) (gsent x).
Definition with_online (v : gmap Z Player) (x : World) : World :=
  mkWorld (groups x) v (GroupStore x) (GroupDbStore x) (NextGroupDbStoreId x) (NextGroupId x)
    (group_member x) (roll_world x) (gsent x).
Definition with_GroupStore (v : gmap Z Z) (x : World) : World :=
  mkWorld (groups x) (online x) v (GroupDbStore x) (NextGroupDbStoreId x) (NextGroupId x)
    (group_member x) (roll_world x) (gsent x).
Definition with_GroupDbStore (v : list (option Z)) (x : World) : World :=
  mkWorld (groups x) (online x) (GroupStore x) v (NextGroupDbStoreId x) (NextGroupId x) (group_member x)
    (roll_world x) (gsent x).
Definition with_NextGroupDbStoreId (v : Z) (x : World) : World :=
  mkWorld (groups x) (online x) (GroupStore x) (GroupDbStore x) v (NextGroupId x) (group_member x)
    (roll_world x) (gsent x).
Definition with_NextGroupId (v : Z) (x : World) : World :=
  mkWorld (groups x) (online x) (GroupStore x) (GroupDbStore x) (NextGroupDbStoreId x) v
    (group_member x) (roll_world x) (gsent x).
Definition with_group_member (v : gmap Z Z) (x : World) : World :=
  mkWorld (groups x) (online x) (GroupStore x) (GroupDbStore x) (NextGroupDbStoreId x) (NextGroupId x) v
    (roll_world x) (gsent x).
Definition with_roll_world (v : Rolls) (x : World) : World :=
  mkWorld (groups x) (online x) (GroupStore x) (GroupDbStore x) (NextGroupDbStoreId x) (NextGroupId x)
    (group_member x) v (gsent x).
Definition with_gsent (v : list geffect) (x : World) : World :=
  mkWorld (groups x) (online x) (GroupStore x) (GroupDbStore x) (NextGroupDbStoreId x) (NextGroupId x)
    (group_member x) (roll_world x) v.
