(* ===== verification/Group.v ===== *)
(** * Group: groups and raids, src/src/server/game/Groups/Group.cpp

    With the references of src/src/server/shared/Dynamic/LinkedReference/, the sides of
    src/src/server/game/Entities/Player/Player.cpp and the group manager
    src/src/server/game/Groups/GroupMgr.cpp. The binds of a group to instances are not part
    of the model: the calls that reach them are effects. *)

From Stdlib Require Import ZArith Lia.
From S2P Require Import Prelude ByteBuffer Guid LootRoll GroupData.
Local Open Scope Z_scope.

(** The rest of the server, as far as groups look at it. *)
Record GEnv := mkGEnv {
  SkillEnchanting : Z → Z;
  getLevel : Z → Z;
  InBattleground : Z → bool;
  GetTeam : Z → Z;
  HasGameMasterTagOn : Z → bool;
  GetInstanceId : Z → Z;
  GetMapId : Z → Z;
  HasIgnore : Z → Z → bool;
  CONFIG_ALLOW_GM_GROUP : bool;
  CONFIG_ALLOW_TWO_SIDE_INTERACTION_GROUP : bool;
  normalizePlayerName : list Z → option (list Z);
  GetPlayerGUIDByName : list Z → Z;
  GetPlayerNameByGUID : Z → option (list Z);
  near_loot : Z → bool;
  urand : nat → Z;
  urand_range : nat → Z → Z → Z;
  CanStore : list LootRoll.effect → Z → Z → Z → Z;
  ItemTemplates : Z → option ItemTemplate
}.

Fixpoint each {S Er A} (f : A → prog S Er unit) (l : list A) : prog S Er unit :=
  match l with [] => mret tt | x :: l => f x;; each f l end.

Definition gemit (e : geffect) : gw unit := modify (λ w, with_gsent (gsent w ++ [e]) w).

Definition ERR_PARTY_RESULT_OK : Z := 0.
Definition ERR_BAD_PLAYER_NAME_S : Z := 1.
Definition ERR_TARGET_NOT_IN_GROUP_S : Z := 2.
Definition ERR_TARGET_NOT_IN_INSTANCE_S : Z := 3.
Definition ERR_GROUP_FULL : Z := 4.
Definition ERR_ALREADY_IN_GROUP_S : Z := 5.
Definition ERR_NOT_IN_GROUP : Z := 6.
Definition ERR_NOT_LEADER : Z := 7.
Definition ERR_PLAYER_WRONG_FACTION : Z := 8.
Definition ERR_IGNORING_YOU_S : Z := 9.
Definition ERR_INVITE_RESTRICTED : Z := 13.

(** ** Access *)

Definition deref (a : Z) : gw Group := g ← gets (λ w, groups w !! a); of_option g.
Definition upd_group (a : Z) (f : Group → Group) : gw unit :=
  modify (λ w, with_groups (alter f a (groups w)) w).
Definition upd_settings (a : Z) (f : Settings → Settings) : gw unit :=
  upd_group a (λ g, with_settings (f (settings g)) g).
Definition upd_slot (a : Z) (i : nat) (f : MemberSlot → MemberSlot) : gw unit :=
  upd_group a (λ g, with_memberSlots (alter f i (m_memberSlots g)) g).

Definition FindPlayer (p : Z) : gw (option Player) := gets (λ w, online w !! p).
Definition player_at (p : Z) : gw Player := pl ← FindPlayer p; of_option pl.
Definition upd_player (p : Z) (f : Player → Player) : gw unit :=
  modify (λ w, with_online (alter f p (online w)) w).

Definition pack (p : bb unit) : ByteBuffer := (p empty_buffer).2.

(** ** References: [Reference::link], [unlink], [invalidate] *)

Definition ref_of (orig : bool) (pl : Player) : GroupReference :=
  if orig then m_originalGroup pl else m_group pl.
Definition with_ref (orig : bool) (r : GroupReference) (pl : Player) : Player :=
  if orig then with_originalGroup r pl else with_pgroup r pl.

Definition cut (orig : bool) (pl : Player) : Player :=
  with_ref orig (mkRef None (iSubGroup (ref_of orig pl))) pl.

Definition unlink (p : Z) (orig : bool) : gw unit :=
  pl ← player_at p;
  match target (ref_of orig pl) with
  | Some a => upd_group a (λ g, with_memberMgr (filter (λ x, x ≠ (p, orig)) (m_memberMgr g)) g)
  | None => mret tt
  end;;
  upd_player p (cut orig).

Definition link (p : Z) (orig : bool) (a : Z) : gw unit :=
  pl ← player_at p;
  (if bool_decide (is_Some (target (ref_of orig pl))) then unlink p orig else mret tt);;
  upd_player p (λ pl, with_ref orig (mkRef (Some a) (iSubGroup (ref_of orig pl))) pl);;
  deref a;;
  upd_group a (λ g, with_memberMgr ((p, orig) :: m_memberMgr g) g).

Definition setSubGroup (p : Z) (orig : bool) (sub : Z) : gw unit :=
  upd_player p (λ pl, with_ref orig (mkRef (target (ref_of orig pl)) sub) pl).

(** ** The player's side: Player.cpp *)

Definition GetGroup (pl : Player) : option Z := target (m_group pl).
Definition GetOriginalGroup (pl : Player) : option Z := target (m_originalGroup pl).
Definition SetGroupInvite (p : Z) (a : option Z) : gw unit := upd_player p (with_groupInvite a).

Definition SetGroup (p : Z) (a : option Z) (subgroup : Z) : gw unit :=
  match a with
  | None => unlink p false
  | Some a => assert_ (0 <=? swrap 8 subgroup);; link p false a;; setSubGroup p false (uwrap 8 subgroup)
  end;;
  gemit (PlayerCall p UpdateObjectVisibility).

Definition SetOriginalGroup (p : Z) (a : option Z) (subgroup : Z) : gw unit :=
  match a with
  | None => unlink p true
  | Some a => assert_ (0 <=? swrap 8 subgroup);; link p true a;; setSubGroup p true (uwrap 8 subgroup)
  end.

Definition SetBattlegroundRaid (p a subgroup : Z) : gw unit :=
  pl ← player_at p;
  SetOriginalGroup p (GetGroup pl) (iSubGroup (m_group pl));;
  unlink p false;;
  link p false a;;
  setSubGroup p false (uwrap 8 subgroup).

Definition RemoveFromBattlegroundRaid (p : Z) : gw unit :=
  unlink p false;;
  pl ← player_at p;
  match GetOriginalGroup pl with
  | Some a => link p false a;; setSubGroup p false (iSubGroup (m_originalGroup pl))
  | None => mret tt
  end;;
  SetOriginalGroup p None (-1).

(** ** Queries *)

Definition isRaidGroup (g : Group) : bool := has_bits (m_groupType g) GROUPTYPE_RAID.
Definition isBGGroup (g : Group) : bool := bool_decide (is_Some (m_bgGroup g)).
Definition GetMembersCount (g : Group) : Z := uwrap 32 (Z.of_nat (length (m_memberSlots g))).
Definition IsCreated (g : Group) : bool := 0 <? GetMembersCount g.
Definition IsFull (g : Group) : bool :=
  let n := Z.of_nat (length (m_memberSlots g)) in
  if isRaidGroup g then MAXRAIDSIZE <=? n else MAXGROUPSIZE <=? n.

Definition _getMemberSlot (g : Group) (Guid : Z) : option (nat * MemberSlot) :=
  list_find (λ s, slot_guid s = Guid) (m_memberSlots g).
Definition IsMember (g : Group) (guid : Z) : bool := bool_decide (is_Some (_getMemberSlot g guid)).
Definition IsLeader (g : Group) (guid : Z) : bool := m_leaderGuid g =? guid.
Definition IsAssistant (g : Group) (guid : Z) : bool :=
  match _getMemberSlot g guid with
  | Some (_, s) => has_bits (slot_flags s) MEMBER_FLAG_ASSISTANT
  | None => false
  end.
Definition GetMemberGUID (g : Group) (name : list Z) : Z :=
  match list_find (λ s, slot_name s = name) (m_memberSlots g) with
  | Some (_, s) => slot_guid s
  | None => 0
  end.
Definition GetMemberGroup (g : Group) (guid : Z) : Z :=
  match _getMemberSlot g guid with Some (_, s) => slot_group s | None => MAX_RAID_SUBGROUPS + 1 end.

Definition SameSubGroup_slot (g : Group) (guid1 : Z) (slot2 : option MemberSlot) : bool :=
  match _getMemberSlot g guid1, slot2 with
  | Some (_, s1), Some s2 => slot_group s1 =? slot_group s2
  | _, _ => false
  end.
Definition SameSubGroup_guids (g : Group) (guid1 guid2 : Z) : bool :=
  match _getMemberSlot g guid2 with Some (_, s2) => SameSubGroup_slot g guid1 (Some s2) | None => false end.
Definition SameSubGroup (a : Z) (member1 member2 : option Player) : bool :=
  match member1, member2 with
  | Some m1, Some m2 =>
    if bool_decide (GetGroup m1 = Some a) && bool_decide (GetGroup m2 = Some a)
    then iSubGroup (m_group m1) =? iSubGroup (m_group m2) else false
  | _, _ => false
  end.

(** An index past the eight counters is read out of bounds. *)
Definition HasFreeSlotSubGroup (g : Group) (subgroup : Z) : gw bool :=
  match m_subGroupsCounts g with
  | None => mret false
  | Some counts => n ← of_option (counts !! Z.to_nat subgroup); mret (n <? MAXGROUPSIZE)
  end.

Definition GetDifficulty (g : Group) (isRaid : bool) : Z :=
  if isRaid then m_raidDifficulty (settings g) else m_dungeonDifficulty (settings g).

(** The invited player with the guid, or the name. The set holds pointers: one that is left
    over from a player who is gone is followed. *)
Definition GetInvited_by (a : Z) (ok : Z → Player → bool) : gw (option Z) :=
  g ← deref a;
  on ← gets online;
  if bool_decide (set_Forall (λ q, is_Some (on !! q)) (m_invitees g)) then
    mret (snd <$> list_find (λ q, from_option (ok q) false (on !! q) = true) (elements (m_invitees g)))
  else throw Undefined.
Definition GetInvited (a guid : Z) : gw (option Z) := GetInvited_by a (λ q _, q =? guid).
Definition GetInvited_name (a : Z) (name : list Z) : gw (option Z) :=
  GetInvited_by a (λ _ pl, bool_decide (p_name pl = name)).

(** ** Sub-group counters *)

Definition count_subgroup (a subgroup d : Z) : gw unit :=
  g ← deref a;
  match m_subGroupsCounts g with
  | None => mret tt
  | Some counts =>
    n ← of_option (counts !! Z.to_nat subgroup);
    upd_group a (with_subGroupsCounts (Some (<[Z.to_nat subgroup := uwrap 8 (n + d)]> counts)))
  end.
Definition SubGroupCounterIncrease (a subgroup : Z) : gw unit := count_subgroup a subgroup 1.
Definition SubGroupCounterDecrease (a subgroup : Z) : gw unit := count_subgroup a subgroup (-1).

Definition _initRaidSubGroupsCounter (a : Z) : gw unit :=
  g ← deref a;
  upd_group a (with_subGroupsCounts (Some (replicate (Z.to_nat MAX_RAID_SUBGROUPS) 0)));;
  each (λ s, SubGroupCounterIncrease a (slot_group s)) (m_memberSlots g).

(** ** Packets to the group *)

Definition SendPacket_each (to : list Z) (op : gopcode) (data : ByteBuffer) : gw unit :=
  modify (λ w, with_gsent (gsent w ++ ((λ p, SendPacket p op data) <$> to)) w).

(** The loop over the references of the group; each leads to a player. *)
Definition BroadcastPacket (a : Z) (op : gopcode) (data : ByteBuffer) (ignorePlayersInBGRaid : bool)
    (group ignore : Z) : gw unit :=
  g ← deref a;
  each (λ '(p, orig),
    pl ← player_at p;
    if negb (ignore =? 0) && (p =? ignore) then mret tt
    else if ignorePlayersInBGRaid && negb (bool_decide (GetGroup pl = Some a)) then mret tt
    else if (group =? -1) || (iSubGroup (ref_of orig pl) =? group) then gemit (SendPacket p op data)
    else mret tt) (m_memberMgr g).

Definition BroadcastReadyCheck (a : Z) (op : gopcode) (data : ByteBuffer) : gw unit :=
  g ← deref a;
  each (λ x, player_at x.1;;
    if IsLeader g x.1 || IsAssistant g x.1 then gemit (SendPacket x.1 op data) else mret tt) (m_memberMgr g).

Definition OfflineReadyCheck (a : Z) : gw unit :=
  g ← deref a;
  each (λ s,
    pl ← FindPlayer (slot_guid s);
    match pl with
    | Some _ => mret tt
    | None => BroadcastReadyCheck a MSG_RAID_READY_CHECK_CONFIRM (pack (put_u64 (slot_guid s);; put_u8 0))
    end) (m_memberSlots g).

(** The other members, as the member list shows them. *)
Definition put_member (g : Group) (on : gmap Z Player) (s : MemberSlot) : bb unit :=
  let onlineState := Z.lor (if bool_decide (is_Some (on !! slot_guid s)) then MEMBER_STATUS_ONLINE
                            else MEMBER_STATUS_OFFLINE) (if isBGGroup g then MEMBER_STATUS_PVP else 0) in
  put_string (slot_name s);; put_u64 (slot_guid s);; put_u8 onlineState;; put_u8 (slot_group s);;
  put_u8 (slot_flags s);; put_u8 (slot_roles s).

Definition member_list (g : Group) (on : gmap Z Player) (slot : MemberSlot) : ByteBuffer :=
  pack (
    put_u8 (m_groupType g);; put_u8 (slot_group slot);; put_u8 (slot_flags slot);; put_u8 (slot_roles slot);;
    put_u64 (m_guid g);; put_u32 (m_counter (settings g));; put_u32 (GetMembersCount g - 1);;
    each (put_member g on) (filter (λ s, slot_guid s ≠ slot_guid slot) (m_memberSlots g));;
    put_u64 (m_leaderGuid g);;
    if negb (uwrap 32 (GetMembersCount g - 1) =? 0) then
      put_u8 (m_lootMethod (settings g));; put_u64 (m_looterGuid (settings g));;
      put_u8 (m_lootThreshold (settings g));; put_u8 (m_dungeonDifficulty (settings g));;
      put_u8 (m_raidDifficulty (settings g));; put_u8 0
    else mret tt).

Definition SendUpdateToPlayer (a playerGUID : Z) (slot : option MemberSlot) : gw unit :=
  player ← FindPlayer playerGUID;
  match player with
  | None => mret tt
  | Some pl =>
    if bool_decide (GetGroup pl = Some a) then
      g ← deref a;
      match (match slot with Some s => Some s | None => snd <$> _getMemberSlot g playerGUID end) with
      | None => mret tt
      | Some s =>
        on ← gets online;
        upd_settings a (λ x, with_counter (uwrap 32 (m_counter x + 1)) x);;
        gemit (SendPacket playerGUID SMSG_GROUP_LIST (member_list g on s))
      end
    else mret tt
  end.

Definition SendUpdate (a : Z) : gw unit :=
  g ← deref a; each (λ s, SendUpdateToPlayer a (slot_guid s) (Some s)) (m_memberSlots g).

(** The list of a player who left. *)
Definition empty_member_list (g : Group) : ByteBuffer :=
  pack (put_u8 0x10;; put_u8 0;; put_u8 0;; put_u8 0;; put_u64 (m_guid g);; put_u32 (m_counter (settings g));;
        put_u32 0;; put_u64 0).

(** ** Target icons *)

Definition set_icon (a id whoGuid targetGuid : Z) : gw unit :=
  upd_settings a (λ x, with_targetIcons (<[Z.to_nat id := targetGuid]> (m_targetIcons x)) x);;
  BroadcastPacket a MSG_RAID_TARGET_UPDATE (pack (put_u8 0;; put_u64 whoGuid;; put_u8 id;; put_u64 targetGuid))
    true (-1) 0.

(** The recursive calls set 0, so they do not call again. *)
Definition SetTargetIcon (a id whoGuid targetGuid : Z) : gw unit :=
  if TARGETICONCOUNT <=? id then mret tt
  else
    (if negb (targetGuid =? 0) then
       each (λ i,
         g ← deref a;
         icon ← of_option (m_targetIcons (settings g) !! Z.to_nat i);
         if icon =? targetGuid then set_icon a i 0 0 else mret tt) [0; 1; 2; 3; 4; 5; 6; 7]
     else mret tt);;
    set_icon a id whoGuid targetGuid.

Definition SendTargetIconList (a p : Z) : gw unit :=
  g ← deref a;
  gemit (SendPacket p MSG_RAID_TARGET_UPDATE (pack (
    put_u8 1;;
    each (λ x, if x.2 =? 0 then mret tt else put_u8 (Z.of_nat x.1);; put_u64 x.2)
      (imap pair (m_targetIcons (settings g)))))).

(** ** The group manager *)

(** The first free id after the one that is given out. *)
Fixpoint next_free (n : nat) (i : Z) (store : list (option Z)) : option Z :=
  match n with
  | O => None
  | S n =>
    match store !! Z.to_nat i with
    | Some (Some _) => next_free n (i + 1) store
    | _ => Some i
    end
  end.

Definition GenerateNewGroupDbStoreId : gw Z :=
  newStorageId ← gets NextGroupDbStoreId;
  store ← gets GroupDbStore;
  (* past the end of the vector every id is free, so the search needs no more turns *)
  let first := uwrap 32 (newStorageId + 1) in
  match next_free (S (length store)) first store with
  | Some i => if i <? 0xFFFFFFFF then modify (with_NextGroupDbStoreId i)
              else modify (with_NextGroupDbStoreId first)
  | None => modify (with_NextGroupDbStoreId first)
  end;;
  next ← gets NextGroupDbStoreId;
  (if newStorageId =? next then gemit GroupStopNow else mret tt);;
  mret newStorageId.

Definition RegisterGroupDbStoreId (storageId a : Z) : gw unit :=
  modify (λ w, with_GroupDbStore
    (let store := GroupDbStore w in
     let store := if bool_decide (length store <= Z.to_nat storageId)%nat
                  then store ++ replicate (S (Z.to_nat storageId) - length store) None else store in
     <[Z.to_nat storageId := Some a]> store) w).

Definition FreeGroupDbStoreId (a : Z) : gw unit :=
  g ← deref a;
  let storageId := m_dbStoreId g in
  next ← gets NextGroupDbStoreId;
  (if storageId <? next then modify (with_NextGroupDbStoreId storageId) else mret tt);;
  store ← gets GroupDbStore;
  if bool_decide (Z.to_nat storageId < length store)%nat then
    modify (λ w, with_GroupDbStore (<[Z.to_nat storageId := None]> (GroupDbStore w)) w)
  else throw Undefined.

Definition GetGroupByDbStoreId (storageId : Z) : gw (option Z) :=
  store ← gets GroupDbStore; mret (store !! Z.to_nat storageId ≫= id).

Definition GenerateGroupId : gw Z :=
  n ← gets NextGroupId;
  (if 0xFFFFFFFE <=? n then gemit GroupStopNow else mret tt);;
  modify (with_NextGroupId (uwrap 32 (n + 1)));;
  mret n.

Definition GetGroupByGUID (groupId : Z) : gw (option Z) := gets (λ w, GroupStore w !! groupId).
Definition AddGroup (a : Z) : gw unit :=
  g ← deref a; modify (λ w, with_GroupStore (<[GUID_LOPART (m_guid g) := a]> (GroupStore w)) w).
Definition RemoveGroup (a : Z) : gw unit :=
  g ← deref a; modify (λ w, with_GroupStore (delete (GUID_LOPART (m_guid g)) (GroupStore w)) w).

(** ** Statements on [group_member], whose key is the member *)

Definition insert_member_row (member store : Z) : gw unit :=
  modify (λ w, match group_member w !! member with
               | Some _ => w
               | None => with_group_member (<[member := store]> (group_member w)) w
               end).
Definition delete_member_row (member : Z) : gw unit :=
  modify (λ w, with_group_member (delete member (group_member w)) w).
Definition delete_group_rows (store : Z) : gw unit :=
  modify (λ w, with_group_member (filter (λ x, x.2 ≠ store) (group_member w)) w).

Section Members.
Context (E : GEnv).

(** A member function of the rolls of the group. *)
Definition roll_env (on : gmap Z Player) : LootRoll.Env :=
  mkEnv (λ p, bool_decide (is_Some (on !! p))) (urand E) (CanStore E) (ItemTemplates E).

Definition on_rolls {A} (a : Z) (p : LootRoll.Env → prog Rolls fault A) : gw A := λ w,
  match groups w !! a with
  | None => (Throw Undefined, w)
  | Some g =>
    let '(r, s) := p (roll_env (online w)) (with_RollId (m_rolls g) (roll_world w)) in
    (r, with_groups (<[a := with_rolls (RollId s) g]> (groups w)) (with_roll_world (with_RollId [] s) w))
  end.

Definition BroadcastGroupUpdate (a : Z) : gw unit :=
  g ← deref a;
  each (λ s,
    pl ← FindPlayer (slot_guid s);
    match pl with Some _ => gemit (PlayerCall (slot_guid s) ForceValuesUpdate) | None => mret tt end)
    (m_memberSlots g).

Definition max_enchanting (on : gmap Z Player) (slots : list MemberSlot) : Z :=
  foldl (λ m s, if bool_decide (is_Some (on !! slot_guid s)) && (m <? SkillEnchanting E (slot_guid s))
                then SkillEnchanting E (slot_guid s) else m) 0 slots.

Definition ResetMaxEnchantingLevel (a : Z) : gw unit :=
  g ← deref a;
  on ← gets online;
  upd_settings a (with_maxEnchantingLevel (max_enchanting on (m_memberSlots g))).

(** ** Invitations *)

Definition RemoveInvite (a p : Z) : gw unit :=
  deref a;;
  upd_group a (λ g, with_invitees (m_invitees g ∖ {[p]}) g);;
  SetGroupInvite p None.

Definition AddInvite (a p : Z) : gw bool :=
  pl ← player_at p;
  match m_groupInvite pl with
  | Some _ => mret false
  | None =>
    group ← (match GetGroup pl with
             | Some b => g ← deref b; mret (if isBGGroup g then GetOriginalGroup pl else Some b)
             | None => mret None
             end);
    match group with
    | Some _ => mret false
    | None =>
      RemoveInvite a p;;
      upd_group a (λ g, with_invitees (m_invitees g ∪ {[p]}) g);;
      SetGroupInvite p (Some a);;
      gemit (Script OnGroupInviteMember a [p]);;
      mret true
    end
  end.

Definition AddLeaderInvite (a p : Z) : gw bool :=
  ok ← AddInvite a p;
  if ok : bool then
    pl ← player_at p;
    upd_group a (with_leaderGuid p);;
    upd_settings a (with_leaderName (p_name pl));;
    mret true
  else mret false.

Definition RemoveAllInvites (a : Z) : gw unit :=
  g ← deref a;
  each (λ q, player_at q;; SetGroupInvite q None) (elements (m_invitees g));;
  upd_group a (with_invitees ∅).

(** ** Members *)

(** The first sub-group with a free place. *)
Fixpoint free_subgroup (i : Z) (counts : list Z) : option Z :=
  match counts with
  | [] => None
  | n :: counts => if n <? MAXGROUPSIZE then Some i else free_subgroup (i + 1) counts
  end.

Definition new_subgroup (g : Group) : option Z :=
  match m_subGroupsCounts g with
  | None => Some 0
  | Some counts => free_subgroup 0 counts
  end.

(** The new member takes the difficulties of the group. *)
Definition join_difficulty (a p : Z) : gw unit :=
  gemit (PlayerCall p ResetInstances_GROUP_JOIN);;
  gemit (PlayerCall p ResetInstances_GROUP_JOIN);;
  if LEVELREQUIREMENT_HEROIC <=? getLevel E p then
    g ← deref a;
    pl ← player_at p;
    (if negb (m_dungeonDiff pl =? m_dungeonDifficulty (settings g)) then
       upd_player p (with_dungeonDiff (m_dungeonDifficulty (settings g)));;
       gemit (PlayerCall p SendDungeonDifficulty)
     else mret tt);;
    (if negb (m_raidDiff pl =? m_raidDifficulty (settings g)) then
       upd_player p (with_raidDiff (m_raidDifficulty (settings g)));;
       gemit (PlayerCall p SendRaidDifficulty)
     else mret tt)
  else mret tt.

(** Which reference of the player the group takes. *)
Definition attach (a p subGroup : Z) : gw unit :=
  g ← deref a;
  pl ← player_at p;
  SetGroupInvite p None;;
  match GetGroup pl with
  | Some _ => if isBGGroup g then SetBattlegroundRaid p a subGroup else SetOriginalGroup p (Some a) subGroup
  | None => SetGroup p (Some a) subGroup
  end;;
  gemit (PlayerCall p ClearHomebindTimer).

Definition AddMember (a p : Z) : gw bool :=
  g ← deref a;
  match new_subgroup g with
  | None => mret false
  | Some subGroup =>
    pl ← player_at p;
    let member := mkSlot p (p_name pl) subGroup 0 0 in
    upd_group a (λ g, with_memberSlots (m_memberSlots g ++ [member]) g);;
    SubGroupCounterIncrease a subGroup;;
    attach a p subGroup;;
    (if negb (isRaidGroup g) then upd_settings a (with_targetIcons (replicate 8 0)) else mret tt);;
    (if negb (isBGGroup g) then
       gemit (Execute CHAR_INS_GROUP_MEMBER [m_dbStoreId g; GUID_LOPART p; 0; subGroup; 0]);;
       insert_member_row p (m_dbStoreId g)
     else mret tt);;
    SendUpdate a;;
    gemit (Script OnGroupAddMember a [p]);;
    (if negb (IsLeader g p) && negb (isBGGroup g) then join_difficulty a p else mret tt);;
    upd_player p (λ pl, with_groupUpdateMask (Z.lor (m_groupUpdateMask pl) GROUP_UPDATE_FULL) pl);;
    gemit (PlayerCall p UpdatePlayerOutOfRange);;
    (if isRaidGroup g then gemit (PlayerCall p UpdateForQuestWorldObjects) else mret tt);;
    upd_settings a (λ x, if m_maxEnchantingLevel x <? SkillEnchanting E p
                         then with_maxEnchantingLevel (SkillEnchanting E p) x else x);;
    mret true
  end.

Definition Create (a leader : Z) : gw bool :=
  pl ← player_at leader;
  lowguid ← GenerateGroupId;
  g ← deref a;
  let bg := isBGGroup g in
  let type := if bg then GROUPTYPE_BGRAID else GROUPTYPE_NORMAL in
  upd_group a (λ g, with_groupType type (with_leaderGuid leader (with_guid (MAKE_NEW_GUID lowguid 0 HIGHGUID_GROUP) g)));;
  upd_settings a (with_leaderName (p_name pl));;
  (if has_bits type GROUPTYPE_RAID then _initRaidSubGroupsCounter a else mret tt);;
  upd_settings a (λ x, with_raidDifficulty RAID_DIFFICULTY_10MAN_NORMAL (with_dungeonDifficulty DUNGEON_DIFFICULTY_NORMAL
    (with_looterGuid leader (with_lootThreshold ITEM_QUALITY_UNCOMMON (with_lootMethod GROUP_LOOT x)))));;
  if negb bg then
    upd_settings a (λ x, with_raidDifficulty (m_raidDiff pl) (with_dungeonDifficulty (m_dungeonDiff pl) x));;
    store ← GenerateNewGroupDbStoreId;
    upd_group a (with_dbStoreId store);;
    RegisterGroupDbStoreId store a;;
    g ← deref a;
    gemit (Execute CHAR_INS_GROUP ([store; GUID_LOPART leader; m_lootMethod (settings g);
      GUID_LOPART (m_looterGuid (settings g)); m_lootThreshold (settings g)] ++ (uwrap 32 <$> m_targetIcons (settings g)) ++
      [m_groupType g; m_dungeonDifficulty (settings g); m_raidDifficulty (settings g)]));;
    ok ← AddMember a leader;
    assert_ ok;;
    gemit (InstanceCall a (ConvertInstancesToGroup false));;
    mret true
  else AddMember a leader.

Definition Toggle (flags flag : Z) (apply : bool) : Z :=
  if apply then Z.lor flags flag else Z.land flags (Z.lnot flag).

Definition ToggleGroupMemberFlag (a : Z) (slot : nat) (flag : Z) (apply : bool) : gw unit :=
  upd_slot a slot (λ s, mkSlot (slot_guid s) (slot_name s) (slot_group s) (Toggle (slot_flags s) flag apply) (slot_roles s)).

Definition ChangeLeader (a guid : Z) : gw unit :=
  g ← deref a;
  match _getMemberSlot g guid with
  | None => mret tt
  | Some (i, slot) =>
    player ← FindPlayer guid;
    match player with
    | None => mret tt
    | Some pl =>
      gemit (Script OnGroupChangeLeader a [m_leaderGuid g; guid]);;
      (if negb (isBGGroup g) then
         gemit (InstanceCall a RemovePermanentBinds);;
         gemit (Execute CHAR_DEL_GROUP_INSTANCE_PERM_BINDING [m_dbStoreId g; GUID_LOPART guid]);;
         gemit (InstanceCall a (ConvertInstancesToGroup true));;
         gemit (Execute CHAR_UPD_GROUP_LEADER [GUID_LOPART guid; m_dbStoreId g])
       else mret tt);;
      upd_group a (with_leaderGuid guid);;
      upd_settings a (with_leaderName (p_name pl));;
      ToggleGroupMemberFlag a i MEMBER_FLAG_ASSISTANT false;;
      BroadcastPacket a SMSG_GROUP_SET_LEADER (pack (put_string (slot_name slot))) true (-1) 0
    end
  end.

(** [delete this]: the rolls go, the references that are left are cut. *)
Definition delete_group (a : Z) : gw unit :=
  g ← deref a;
  (if isBGGroup g then gemit (InstanceCall a UnlinkFromBattleground) else mret tt);;
  gemit (InstanceCall a RemoveGroupFromSaves);;
  each (λ x, player_at x.1;; upd_player x.1 (cut x.2)) (m_memberMgr g);;
  modify (λ w, with_groups (delete a (groups w)) w).

(** What a member in the server sees of the end of the group. *)
Definition disband_member (a : Z) (hideDestroy : bool) (s : MemberSlot) : gw unit :=
  let p := slot_guid s in
  player ← FindPlayer p;
  match player with
  | None => mret tt
  | Some pl =>
    g ← deref a;
    (if isBGGroup g then RemoveFromBattlegroundRaid p
     else if bool_decide (GetOriginalGroup pl = Some a) then SetOriginalGroup p None (-1)
     else SetGroup p None (-1));;
    (if isRaidGroup g then gemit (PlayerCall p UpdateForQuestWorldObjects) else mret tt);;
    (if negb hideDestroy then gemit (SendPacket p SMSG_GROUP_DESTROYED empty_buffer) else mret tt);;
    pl ← player_at p;
    match GetGroup pl with
    | Some b => SendUpdate b
    | None => g ← deref a; gemit (SendPacket p SMSG_GROUP_LIST (empty_member_list g))
    end;;
    gemit (PlayerCall p HomebindIfInstance)
  end.

Definition Disband (a : Z) (hideDestroy : bool) : gw unit :=
  gemit (Script OnGroupDisband a []);;
  g ← deref a;
  each (disband_member a hideDestroy) (m_memberSlots g);;
  upd_group a (λ g, with_memberSlots [] (with_rolls [] g));;
  RemoveAllInvites a;;
  (if negb (isBGGroup g) then
     gemit (Execute DELETE_FROM_groups [m_dbStoreId g]);;
     gemit (Execute DELETE_FROM_group_member [m_dbStoreId g]);;
     delete_group_rows (m_dbStoreId g);;
     gemit (InstanceCall a ResetInstances_GROUP_DISBAND);;
     gemit (InstanceCall a ResetInstances_GROUP_DISBAND);;
     FreeGroupDbStoreId a
   else mret tt);;
  RemoveGroup a;;
  delete_group a.

(** The first reference of the player in the group's list. *)
Definition DelinkMember (a guid : Z) : gw unit :=
  g ← deref a;
  match list_find (λ x, x.1 = guid) (m_memberMgr g) with
  | Some (_, (p, orig)) => unlink p orig
  | None => mret tt
  end.

(** The player object of a member who leaves. *)
Definition release (a guid : Z) (method : RemoveMethod) (pl : Player) : gw unit :=
  g ← deref a;
  (if isBGGroup g then RemoveFromBattlegroundRaid guid
   else
     (if bool_decide (GetOriginalGroup pl = Some a) then SetOriginalGroup guid None (-1)
      else SetGroup guid None (-1));;
     gemit (PlayerCall guid UpdateForQuestWorldObjects));;
  (if bool_decide (method = GROUP_REMOVEMETHOD_KICK) then gemit (SendPacket guid SMSG_GROUP_UNINVITE empty_buffer)
   else mret tt);;
  gemit (SendPacket guid SMSG_GROUP_LIST (empty_member_list g));;
  gemit (PlayerCall guid HomebindIfInstance).

(** The first member who is in the server becomes the leader. *)
Definition pick_leader (a : Z) : gw unit :=
  g ← deref a;
  on ← gets online;
  match list_find (λ s, is_Some (on !! slot_guid s)) (m_memberSlots g) with
  | Some (_, s) => ChangeLeader a (slot_guid s)
  | None => mret tt
  end.

Definition RemoveMember (a guid : Z) (method : RemoveMethod) (kicker : Z) : gw bool :=
  BroadcastGroupUpdate a;;
  gemit (Script OnGroupRemoveMember a [guid; kicker]);;
  g ← deref a;
  if (if isBGGroup g then 1 else 2) <? GetMembersCount g then
    player ← FindPlayer guid;
    match player with Some pl => release a guid method pl | None => mret tt end;;
    gemit (Execute CHAR_DEL_GROUP_MEMBER [GUID_LOPART guid]);;
    delete_member_row guid;;
    DelinkMember a guid;;
    (if bool_decide (player = None) || negb (SkillEnchanting E guid =? 0) then ResetMaxEnchantingLevel a
     else mret tt);;
    on_rolls a (λ RE, RemoveMember_rolls RE guid (GetMembersCount g));;
    match _getMemberSlot g guid with
    | Some (i, slot) =>
      SubGroupCounterDecrease a (slot_group slot);;
      upd_group a (λ g, with_memberSlots (delete i (m_memberSlots g)) g)
    | None => mret tt
    end;;
    (if m_leaderGuid g =? guid then pick_leader a else mret tt);;
    SendUpdate a;;
    g ← deref a;
    (if Z.of_nat (length (m_memberMgr g)) <? (if isBGGroup g then 1 else 2) then Disband a false else mret tt);;
    mret true
  else
    Disband a false;;
    mret false.

(** ** Settings *)

Definition ConvertToRaid (a : Z) : gw unit :=
  upd_group a (λ g, with_groupType (Z.lor (m_groupType g) GROUPTYPE_RAID) g);;
  _initRaidSubGroupsCounter a;;
  g ← deref a;
  (if negb (isBGGroup g) then gemit (Execute CHAR_UPD_GROUP_TYPE [m_groupType g; m_dbStoreId g]) else mret tt);;
  SendUpdate a;;
  each (λ s,
    pl ← FindPlayer (slot_guid s);
    match pl with
    | Some _ => gemit (PlayerCall (slot_guid s) UpdateForQuestWorldObjects)
    | None => mret tt
    end) (m_memberSlots g).

Definition with_group_of (sub : Z) (s : MemberSlot) : MemberSlot :=
  mkSlot (slot_guid s) (slot_name s) sub (slot_flags s) (slot_roles s).

Definition _setMembersGroup (a guid group : Z) : gw bool :=
  g ← deref a;
  match _getMemberSlot g guid with
  | None => mret false
  | Some (i, _) =>
    upd_slot a i (with_group_of group);;
    SubGroupCounterIncrease a group;;
    (if negb (isBGGroup g) then gemit (Execute CHAR_UPD_GROUP_MEMBER_SUBGROUP [group; GUID_LOPART guid]) else mret tt);;
    mret true
  end.

Definition ChangeMembersGroup (a guid group : Z) : gw unit :=
  g ← deref a;
  if negb (isRaidGroup g) then mret tt
  else
    match _getMemberSlot g guid with
    | None => mret tt
    | Some (i, slot) =>
      let prevSubGroup := slot_group slot in
      if prevSubGroup =? group then mret tt
      else
        upd_slot a i (with_group_of group);;
        SubGroupCounterIncrease a group;;
        SubGroupCounterDecrease a prevSubGroup;;
        (if negb (isBGGroup g) then gemit (Execute CHAR_UPD_GROUP_MEMBER_SUBGROUP [group; GUID_LOPART guid])
         else mret tt);;
        player ← FindPlayer guid;
        match player with
        | Some pl => setSubGroup guid (negb (bool_decide (GetGroup pl = Some a))) group
        | None => mret tt
        end;;
        SendUpdate a
    end.

Definition SetLootMethod (a method : Z) : gw unit := upd_settings a (with_lootMethod method).
Definition SetLooterGuid (a guid : Z) : gw unit := upd_settings a (with_looterGuid guid).
Definition SetLootThreshold (a threshold : Z) : gw unit := upd_settings a (with_lootThreshold threshold).

(** The next member after [oldLooter], around the list, who is in the server and near. *)
Definition next_looter (on : gmap Z Player) (slots : list MemberSlot) (oldLooter : Z) : option Z :=
  let ok s := bool_decide (is_Some (on !! slot_guid s)) && near_loot E (slot_guid s) in
  let start := match list_find (λ s, slot_guid s = oldLooter) slots with Some (i, _) => S i | None => length slots end in
  slot_guid ∘ snd <$> list_find (λ s, ok s = true) (drop start slots ++ take start slots).

Definition keeps_looter (on : gmap Z Player) (slots : list MemberSlot) (oldLooter : Z) : bool :=
  bool_decide (is_Some (list_find (λ s, slot_guid s = oldLooter) slots)) &&
  bool_decide (is_Some (on !! oldLooter)) && near_loot E oldLooter.

Definition UpdateLooterGuid (a : Z) (ifneed : bool) : gw unit :=
  g ← deref a;
  on ← gets online;
  let m := m_lootMethod (settings g) in
  let old := m_looterGuid (settings g) in
  if (m =? MASTER_LOOT) || (m =? FREE_FOR_ALL) then mret tt
  else if ifneed && keeps_looter on (m_memberSlots g) old then mret tt
  else
    match next_looter on (m_memberSlots g) old with
    | Some p => if negb (old =? p) then SetLooterGuid a p;; SendUpdate a else mret tt
    | None => SetLooterGuid a 0;; SendUpdate a
    end.

Definition RemoveUniqueGroupMemberFlag (a flag : Z) : gw unit :=
  upd_group a (λ g, with_memberSlots ((λ s,
    if has_bits (slot_flags s) flag
    then mkSlot (slot_guid s) (slot_name s) (slot_group s) (Toggle (slot_flags s) flag false) (slot_roles s)
    else s) <$> m_memberSlots g) g).

(** The statement gets its first parameter twice, and the second never. *)
Definition SetGroupMemberFlag (a guid : Z) (apply : bool) (flag : Z) : gw unit :=
  g ← deref a;
  if negb (isRaidGroup g) then mret tt
  else
    match _getMemberSlot g guid with
    | None => mret tt
    | Some (i, _) =>
      if (flag =? MEMBER_FLAG_MAINASSIST) || (flag =? MEMBER_FLAG_MAINTANK) || (flag =? MEMBER_FLAG_ASSISTANT) then
        (if negb (flag =? MEMBER_FLAG_ASSISTANT) then RemoveUniqueGroupMemberFlag a flag else mret tt);;
        ToggleGroupMemberFlag a i flag apply;;
        gemit (Execute CHAR_UPD_GROUP_MEMBER_FLAG [GUID_LOPART guid]);;
        SendUpdate a
      else mret tt
    end.

Definition tell_difficulty (a : Z) (set : Player → Player) (call : player_call) : gw unit :=
  g ← deref a;
  each (λ x, player_at x.1;; upd_player x.1 set;; gemit (PlayerCall x.1 call)) (m_memberMgr g).

Definition SetDungeonDifficulty (a difficulty : Z) : gw unit :=
  upd_settings a (with_dungeonDifficulty difficulty);;
  g ← deref a;
  (if negb (isBGGroup g) then gemit (Execute CHAR_UPD_GROUP_DIFFICULTY [difficulty; m_dbStoreId g]) else mret tt);;
  tell_difficulty a (with_dungeonDiff difficulty) SendDungeonDifficulty.

Definition SetRaidDifficulty (a difficulty : Z) : gw unit :=
  upd_settings a (with_raidDifficulty difficulty);;
  g ← deref a;
  (if negb (isBGGroup g) then gemit (Execute CHAR_UPD_GROUP_RAID_DIFFICULTY [difficulty; m_dbStoreId g]) else mret tt);;
  tell_difficulty a (with_raidDiff difficulty) SendRaidDifficulty.

Definition SendLooter (a creature : Z) (pLooter : option Z) : gw unit :=
  BroadcastPacket a SMSG_LOOT_LIST (pack (put_u64 creature;; put_u8 0;;
    match pLooter with Some p => appendPackGUID p | None => put_u8 0 end)) false (-1) 0.

(** ** The player's side: Player.cpp *)

Definition UninviteFromGroup (p : Z) : gw unit :=
  pl ← player_at p;
  match m_groupInvite pl with
  | None => mret tt
  | Some a =>
    RemoveInvite a p;;
    g ← deref a;
    if GetMembersCount g <=? 1 then
      if IsCreated g then Disband a true else RemoveAllInvites a;; delete_group a
    else mret tt
  end.

Definition RemoveFromGroup (group : option Z) (guid : Z) (method : RemoveMethod) (kicker : Z) : gw unit :=
  match group with Some a => RemoveMember a guid method kicker;; mret tt | None => mret tt end.

Definition CanUninviteFromGroup (p : Z) : gw Z :=
  pl ← player_at p;
  match GetGroup pl with
  | None => mret ERR_NOT_IN_GROUP
  | Some a =>
    g ← deref a;
    if negb (IsLeader g p) && negb (IsAssistant g p) then mret ERR_NOT_LEADER
    else if InBattleground E p then mret ERR_INVITE_RESTRICTED
    else mret ERR_PARTY_RESULT_OK
  end.

(** [row] is the answer of the database for the member. *)
Definition _LoadGroup (p : Z) (row : option Z) : gw unit :=
  match row with
  | None => mret tt
  | Some storeId =>
    group ← GetGroupByDbStoreId storeId;
    match group with
    | None => mret tt
    | Some a =>
      g ← deref a;
      SetGroup p (Some a) (GetMemberGroup g p);;
      if LEVELREQUIREMENT_HEROIC <=? getLevel E p then
        upd_player p (λ pl, with_raidDiff (m_raidDifficulty (settings g))
                              (with_dungeonDiff (m_dungeonDifficulty (settings g)) pl))
      else mret tt
    end
  end.

(** ** Loading at the start of the server *)

Definition new_Group : Group :=
  mkGroup [] [] ∅ 0 GROUPTYPE_NORMAL None [] None 0 0
    (mkSettings [] DUNGEON_DIFFICULTY_NORMAL RAID_DIFFICULTY_10MAN_NORMAL (replicate 8 0) FREE_FOR_ALL
       ITEM_QUALITY_UNCOMMON 0 0 0).

(** A row of [groups]: the leader, the loot settings, the icons, the type, the
    difficulties and the store id. *)
Record GroupRow := mkGroupRow {
  row_leader : Z; row_lootMethod : Z; row_looter : Z; row_lootThreshold : Z; row_icons : list Z;
  row_type : Z; row_difficulty : Z; row_raiddifficulty : Z; row_id : Z
}.

Definition LoadGroupFromDB (a : Z) (fields : GroupRow) : gw unit :=
  upd_group a (with_dbStoreId (row_id fields));;
  lowguid ← GenerateGroupId;
  upd_group a (λ g, with_leaderGuid (MAKE_NEW_GUID (row_leader fields) 0 HIGHGUID_PLAYER)
                      (with_guid (MAKE_NEW_GUID lowguid 0 HIGHGUID_GROUP) g));;
  match GetPlayerNameByGUID E (row_leader fields) with
  | None => mret tt
  | Some leaderName =>
    upd_settings a (λ x, with_targetIcons (row_icons fields) (with_lootThreshold (row_lootThreshold fields)
      (with_looterGuid (MAKE_NEW_GUID (row_looter fields) 0 HIGHGUID_PLAYER)
        (with_lootMethod (row_lootMethod fields) (with_leaderName leaderName x)))));;
    upd_group a (with_groupType (row_type fields));;
    (if has_bits (row_type fields) GROUPTYPE_RAID then _initRaidSubGroupsCounter a else mret tt);;
    upd_settings a (λ x,
      with_raidDifficulty (if MAX_RAID_DIFFICULTY <=? row_raiddifficulty fields then RAID_DIFFICULTY_10MAN_NORMAL
                           else row_raiddifficulty fields)
        (with_dungeonDifficulty (if MAX_DUNGEON_DIFFICULTY <=? row_difficulty fields then DUNGEON_DIFFICULTY_NORMAL
                                 else row_difficulty fields) x))
  end.

Definition LoadMemberFromDB (a guidLow memberFlags subgroup roles : Z) : gw unit :=
  let guid := MAKE_NEW_GUID guidLow 0 HIGHGUID_PLAYER in
  match GetPlayerNameByGUID E guid with
  | None => gemit (Execute CHAR_DEL_GROUP_MEMBER [guidLow]);; delete_member_row guid
  | Some name =>
    upd_group a (λ g, with_memberSlots (m_memberSlots g ++ [mkSlot guid name subgroup memberFlags roles]) g);;
    SubGroupCounterIncrease a subgroup
  end.

(** [LoadGroups], with the rows of [groups] and of [group_member] (store id, member,
    flags, sub-group, roles). *)
Definition load_group (fields : GroupRow) : gw unit :=
  a ← gets (λ w, fresh (dom (groups w)));
  modify (λ w, with_groups (<[a := new_Group]> (groups w)) w);;
  LoadGroupFromDB a fields;;
  AddGroup a;;
  g ← deref a;
  RegisterGroupDbStoreId (m_dbStoreId g) a;;
  next ← gets NextGroupDbStoreId;
  if m_dbStoreId g =? next then modify (with_NextGroupDbStoreId (uwrap 32 (next + 1))) else mret tt.

Definition load_member (row : Z * Z * Z * Z * Z) : gw unit :=
  let '(store, guidLow, flags, subgroup, roles) := row in
  group ← GetGroupByDbStoreId store;
  match group with Some a => LoadMemberFromDB a guidLow flags subgroup roles | None => mret tt end.

Definition LoadGroups (rows : list GroupRow) (members : list (Z * Z * Z * Z * Z)) : gw unit :=
  if bool_decide (rows = []) then mret tt
  else each load_group rows;; each load_member members.

End Members.
