(* ===== verification/GroupServer.v ===== *)
(** * GroupServer: the client's group opcodes

    src/src/server/game/Handlers/GroupHandler.cpp, and the group part of the log-in and
    log-out of a player (src/src/server/game/Server/WorldSession.cpp). [me] is the guid of
    the session's player, who is in the world. *)

From Stdlib Require Import ZArith Lia.
From S2P Require Import Prelude ByteBuffer Guid LootRoll GroupData Group.
Local Open Scope Z_scope.

Definition PARTY_OP_INVITE : Z := 0.
Definition PARTY_OP_UNINVITE : Z := 1.
Definition PARTY_OP_LEAVE : Z := 2.

Definition GROUP_ASSIGN_MAINTANK : Z := 0.
Definition GROUP_ASSIGN_MAINASSIST : Z := 1.

Section Server.
Context (E : GEnv).

(** Reads the packet and continues with the value and the rest of the packet; a
    [ByteBufferException] ends the handler. *)
Definition gparse {A} (d : bb A) (recv_data : ByteBuffer) (k : A → ByteBuffer → gw unit) : gw unit :=
  match d recv_data with
  | (Ret a, rest) => k a rest
  | (Throw (ByteBufferException _ _ _ _), _) => mret tt
  | (Throw _, _) => throw Undefined
  end.

Definition SendPartyResult (me operation : Z) (member : list Z) (res : Z) : gw unit :=
  gemit (SendPacket me SMSG_PARTY_COMMAND_RESULT
    (pack (put_u32 operation;; put_string member;; put_u32 res;; put_u32 0))).

Definition FindPlayerByName (name : list Z) : gw (option Z) :=
  on ← gets online;
  mret (fst ∘ snd <$> list_find (λ x, p_name x.2 = name) (map_to_list on)).

(** The group a player is invited from or to: not his battleground raid. *)
Definition party_of (pl : Player) : gw (option Z) :=
  match GetGroup pl with
  | Some b => g ← deref b; mret (if isBGGroup g then GetOriginalGroup pl else Some b)
  | None => mret None
  end.

(** Why the invitation is refused before groups are looked at. *)
Definition invite_refused (me p : Z) (pl mypl : Player) : option Z :=
  if negb (CONFIG_ALLOW_GM_GROUP E) && negb (HasGameMasterTagOn E me) && HasGameMasterTagOn E p
  then Some ERR_BAD_PLAYER_NAME_S
  else if negb (HasGameMasterTagOn E me) && negb (CONFIG_ALLOW_TWO_SIDE_INTERACTION_GROUP E) &&
          negb (GetTeam E me =? GetTeam E p) then Some ERR_PLAYER_WRONG_FACTION
  else if negb (GetInstanceId E me =? 0) && negb (GetInstanceId E p =? 0) &&
          negb (GetInstanceId E me =? GetInstanceId E p) && (GetMapId E me =? GetMapId E p)
  then Some ERR_TARGET_NOT_IN_INSTANCE_S
  else if negb (GetInstanceId E p =? 0) && negb (m_dungeonDiff pl =? m_dungeonDiff mypl) then Some ERR_IGNORING_YOU_S
  else if HasIgnore E p me then Some ERR_IGNORING_YOU_S
  else None.

Definition send_invite (p : Z) (invited : Z) (from : list Z) : gw unit :=
  gemit (SendPacket p SMSG_GROUP_INVITE (pack (put_u8 invited;; put_string from;; put_u32 0;; put_u8 0;; put_u32 0))).

(** The group that invites: the player's, or a new one that exists only for its invitations. *)
Definition invite_into (me p : Z) (group : option Z) : gw bool :=
  match group with
  | Some a => AddInvite a p
  | None =>
    a ← gets (λ w, fresh (dom (groups w)));
    modify (λ w, with_groups (<[a := new_Group]> (groups w)) w);;
    ok ← AddLeaderInvite a me;
    if negb ok then delete_group a;; mret false
    else
      ok ← AddInvite a p;
      if negb ok then delete_group a;; mret false else mret true
  end.

Definition may_invite (me : Z) (group : option Z) : gw (option Z) :=
  match group with
  | None => mret None
  | Some a =>
    g ← deref a;
    mret (if negb (IsLeader g me) && negb (IsAssistant g me) then Some ERR_NOT_LEADER
          else if IsFull g then Some ERR_GROUP_FULL else None)
  end.

Definition HandleGroupInviteOpcode (me : Z) (recv_data : ByteBuffer) : gw unit :=
  gparse (name ← get_string; read_skip_T 4;; mret name) recv_data (λ name _,
    match normalizePlayerName E name with
    | None => SendPartyResult me PARTY_OP_INVITE name ERR_BAD_PLAYER_NAME_S
    | Some membername =>
      player ← FindPlayerByName membername;
      match player with
      | None => SendPartyResult me PARTY_OP_INVITE membername ERR_BAD_PLAYER_NAME_S
      | Some p =>
        pl ← player_at p;
        mypl ← player_at me;
        match invite_refused me p pl mypl with
        | Some res => SendPartyResult me PARTY_OP_INVITE membername res
        | None =>
          group ← party_of mypl;
          group2 ← party_of pl;
          if bool_decide (is_Some group2) || bool_decide (is_Some (m_groupInvite pl)) then
            SendPartyResult me PARTY_OP_INVITE membername ERR_ALREADY_IN_GROUP_S;;
            if bool_decide (is_Some group2) then send_invite p 0 (p_name mypl) else mret tt
          else
            refused ← may_invite me group;
            match refused with
            | Some res => SendPartyResult me PARTY_OP_INVITE [] res
            | None =>
              ok ← invite_into me p group;
              if ok : bool then
                send_invite p 1 (p_name mypl);;
                SendPartyResult me PARTY_OP_INVITE membername ERR_PARTY_RESULT_OK
              else mret tt
            end
        end
      end
    end).

(** A group that has no members yet is created with its leader. *)
Definition HandleGroupAcceptOpcode (me : Z) (recv_data : ByteBuffer) : gw unit :=
  gparse (read_skip_T 4) recv_data (λ _ _,
    pl ← player_at me;
    match m_groupInvite pl with
    | None => mret tt
    | Some a =>
      RemoveInvite a me;;
      g ← deref a;
      if m_leaderGuid g =? me then mret tt
      else if IsFull g then SendPartyResult me PARTY_OP_INVITE [] ERR_GROUP_FULL
      else
        leader ← FindPlayer (m_leaderGuid g);
        ready ← (if negb (IsCreated g) then
                   match leader with
                   | None => RemoveAllInvites a;; mret false
                   | Some _ =>
                     RemoveInvite a (m_leaderGuid g);;
                     Create E a (m_leaderGuid g);;
                     AddGroup a;;
                     mret true
                   end
                 else mret true);
        if negb ready then mret tt
        else
          ok ← AddMember E a me;
          if ok : bool then BroadcastGroupUpdate a else mret tt
    end).

Definition HandleGroupDeclineOpcode (me : Z) (recv_data : ByteBuffer) : gw unit :=
  pl ← player_at me;
  match m_groupInvite pl with
  | None => mret tt
  | Some a =>
    g ← deref a;
    leader ← FindPlayer (m_leaderGuid g);
    UninviteFromGroup me;;
    match leader with
    | None => mret tt
    | Some _ => gemit (SendPacket (m_leaderGuid g) SMSG_GROUP_DECLINE (pack (put_string (p_name pl))))
    end
  end.

Definition HandleGroupUninviteGuidOpcode (me : Z) (recv_data : ByteBuffer) : gw unit :=
  gparse (guid ← get_u64; get_string;; mret guid) recv_data (λ guid _,
    if guid =? me then mret tt
    else
      res ← CanUninviteFromGroup E me;
      if negb (res =? ERR_PARTY_RESULT_OK) then SendPartyResult me PARTY_OP_UNINVITE [] res
      else
        pl ← player_at me;
        match GetGroup pl with
        | None => mret tt
        | Some a =>
          g ← deref a;
          if IsLeader g guid then SendPartyResult me PARTY_OP_UNINVITE [] ERR_NOT_LEADER
          else if IsMember g guid then RemoveFromGroup E (Some a) guid GROUP_REMOVEMETHOD_KICK me
          else
            player ← GetInvited a guid;
            match player with
            | Some p => UninviteFromGroup p
            | None => SendPartyResult me PARTY_OP_UNINVITE [] ERR_TARGET_NOT_IN_GROUP_S
            end
        end).

Definition HandleGroupUninviteOpcode (me : Z) (recv_data : ByteBuffer) : gw unit :=
  gparse get_string recv_data (λ name _,
    match normalizePlayerName E name with
    | None => mret tt
    | Some membername =>
      pl ← player_at me;
      if bool_decide (p_name pl = membername) then mret tt
      else
        res ← CanUninviteFromGroup E me;
        if negb (res =? ERR_PARTY_RESULT_OK) then SendPartyResult me PARTY_OP_UNINVITE [] res
        else
          match GetGroup pl with
          | None => mret tt
          | Some a =>
            g ← deref a;
            let guid := GetMemberGUID g membername in
            if negb (guid =? 0) then RemoveFromGroup E (Some a) guid GROUP_REMOVEMETHOD_KICK me
            else
              player ← GetInvited_name a membername;
              match player with
              | Some p => UninviteFromGroup p
              | None => SendPartyResult me PARTY_OP_UNINVITE membername ERR_TARGET_NOT_IN_GROUP_S
              end
          end
    end).

Definition HandleGroupSetLeaderOpcode (me : Z) (recv_data : ByteBuffer) : gw unit :=
  gparse get_u64 recv_data (λ guid _,
    player ← FindPlayer guid;
    pl ← player_at me;
    match GetGroup pl, player with
    | Some a, Some q =>
      g ← deref a;
      if negb (IsLeader g me) || negb (bool_decide (GetGroup q = Some a)) then mret tt
      else ChangeLeader a guid;; SendUpdate a
    | _, _ => mret tt
    end).

Definition HandleGroupDisbandOpcode (me : Z) (recv_data : ByteBuffer) : gw unit :=
  pl ← player_at me;
  match GetGroup pl with
  | None => mret tt
  | Some a =>
    if InBattleground E me then SendPartyResult me PARTY_OP_INVITE [] ERR_INVITE_RESTRICTED
    else
      SendPartyResult me PARTY_OP_LEAVE (p_name pl) ERR_PARTY_RESULT_OK;;
      RemoveFromGroup E (Some a) me GROUP_REMOVEMETHOD_LEAVE 0
  end.

(** The handlers that need a group and do nothing without one. *)
Definition with_group (me : Z) (k : Z → Group → gw unit) : gw unit :=
  pl ← player_at me;
  match GetGroup pl with
  | None => mret tt
  | Some a => g ← deref a; k a g
  end.

Definition HandleLootMethodOpcode (me : Z) (recv_data : ByteBuffer) : gw unit :=
  gparse (m ← get_u32; l ← get_u64; t ← get_u32; mret (m, l, t)) recv_data
    (λ '(lootMethod, lootMaster, lootThreshold) _,
      with_group me (λ a g,
        if negb (IsLeader g me) then mret tt
        else
          SetLootMethod a lootMethod;; SetLooterGuid a lootMaster;; SetLootThreshold a lootThreshold;;
          SendUpdate a)).

Definition HandleLootRoll_group (me : Z) (recv_data : ByteBuffer) : gw unit :=
  with_group me (λ a _, on_rolls E a (λ RE, HandleLootRoll RE me recv_data)).

Definition HandleMinimapPingOpcode (me : Z) (recv_data : ByteBuffer) : gw unit :=
  with_group me (λ a _,
    gparse (x ← get_float; y ← get_float; mret (x, y)) recv_data (λ '(x, y) _,
      BroadcastPacket a MSG_MINIMAP_PING (pack (put_u64 me;; put_float x;; put_float y)) true (-1) me)).

Definition HandleRandomRollOpcode (me : Z) (recv_data : ByteBuffer) : gw unit :=
  gparse (m ← get_u32; n ← get_u32; mret (m, n)) recv_data (λ '(minimum, maximum) _,
    if (maximum <? minimum) || (10000 <? maximum) then mret tt
    else
      r ← gets roll_world;
      let roll := urand_range E (draws r) minimum maximum in
      modify (λ w, with_roll_world (with_draws (S (draws (roll_world w))) (roll_world w)) w);;
      pl ← player_at me;
      let data := pack (put_u32 minimum;; put_u32 maximum;; put_u32 roll;; put_u64 me) in
      match GetGroup pl with
      | Some a => BroadcastPacket a MSG_RANDOM_ROLL data false (-1) 0
      | None => gemit (SendPacket me MSG_RANDOM_ROLL data)
      end).

Definition HandleRaidTargetUpdateOpcode (me : Z) (recv_data : ByteBuffer) : gw unit :=
  with_group me (λ a g,
    gparse get_u8 recv_data (λ x rest,
      if x =? 0xFF then SendTargetIconList a me
      else if negb (IsLeader g me) && negb (IsAssistant g me) then mret tt
      else gparse get_u64 rest (λ guid _, SetTargetIcon a x me guid))).

Definition HandleGroupRaidConvertOpcode (me : Z) (recv_data : ByteBuffer) : gw unit :=
  with_group me (λ a g,
    if InBattleground E me then mret tt
    else if negb (IsLeader g me) || (GetMembersCount g <? 2) then mret tt
    else SendPartyResult me PARTY_OP_INVITE [] ERR_PARTY_RESULT_OK;; ConvertToRaid a).

Definition HandleGroupChangeSubGroupOpcode (me : Z) (recv_data : ByteBuffer) : gw unit :=
  with_group me (λ a g,
    gparse (name ← get_string; groupNr ← get_u8; mret (name, groupNr)) recv_data (λ '(name, groupNr) _,
      if MAX_RAID_SUBGROUPS <=? groupNr then mret tt
      else if negb (IsLeader g me) && negb (IsAssistant g me) then mret tt
      else
        free ← HasFreeSlotSubGroup g groupNr;
        if negb free then mret tt
        else
          movedPlayer ← FindPlayerByName name;
          ChangeMembersGroup a (default (GetPlayerGUIDByName E name) movedPlayer) groupNr)).

Definition HandleGroupAssistantLeaderOpcode (me : Z) (recv_data : ByteBuffer) : gw unit :=
  with_group me (λ a g,
    if negb (IsLeader g me) then mret tt
    else
      gparse (guid ← get_u64; apply ← get_bool; mret (guid, apply)) recv_data (λ '(guid, apply) _,
        SetGroupMemberFlag a guid apply MEMBER_FLAG_ASSISTANT;; SendUpdate a)).

Definition HandlePartyAssignmentOpcode (me : Z) (recv_data : ByteBuffer) : gw unit :=
  with_group me (λ a g,
    if negb (IsLeader g me) && negb (IsAssistant g me) then mret tt
    else
      gparse (assignment ← get_u8; apply ← get_bool; guid ← get_u64; mret (assignment, apply, guid)) recv_data
        (λ '(assignment, apply, guid) _,
          (if assignment =? GROUP_ASSIGN_MAINASSIST then
             RemoveUniqueGroupMemberFlag a MEMBER_FLAG_MAINASSIST;;
             SetGroupMemberFlag a guid apply MEMBER_FLAG_MAINASSIST
           else if assignment =? GROUP_ASSIGN_MAINTANK then
             RemoveUniqueGroupMemberFlag a MEMBER_FLAG_MAINTANK;;
             SetGroupMemberFlag a guid apply MEMBER_FLAG_MAINTANK
           else mret tt);;
          SendUpdate a)).

Definition HandleRaidReadyCheckOpcode (me : Z) (recv_data : ByteBuffer) : gw unit :=
  with_group me (λ a g,
    if ByteBuffer.empty recv_data then
      if negb (IsLeader g me) && negb (IsAssistant g me) then mret tt
      else BroadcastPacket a MSG_RAID_READY_CHECK (pack (put_u64 me)) false (-1) 0;; OfflineReadyCheck a
    else
      gparse get_u8 recv_data (λ state _,
        BroadcastReadyCheck a MSG_RAID_READY_CHECK_CONFIRM (pack (put_u64 me;; put_u8 state)))).

Definition HandleOptOutOfLootOpcode (me : Z) (recv_data : ByteBuffer) : gw unit :=
  gparse get_u32 recv_data (λ passOnLoot _,
    upd_player me (with_bPassOnGroupLoot (negb (passOnLoot =? 0)))).

(** ** Log-in and log-out *)

Definition new_player (name : list Z) (dungeon raid : Z) : Player :=
  mkPlayer name (mkRef None 0) (mkRef None 0) None false 0 dungeon raid.

(** The player is loaded with his group and enters the server. *)
Definition Login (me : Z) (name : list Z) (dungeon raid : Z) : gw unit :=
  modify (λ w, with_online (<[me := new_player name dungeon raid]> (online w)) w);;
  row ← gets (λ w, group_member w !! me);
  _LoadGroup E me row;;
  with_group me (λ a _, SendUpdate a;; ResetMaxEnchantingLevel E a).

(** [LogoutPlayer] up to the end of the player object, which cuts its references;
    [socket] is false when the connection was lost. *)
Definition LogoutPlayer (me : Z) (socket : bool) : gw unit :=
  UninviteFromGroup me;;
  pl ← player_at me;
  match GetGroup pl with
  | Some a =>
    g ← deref a;
    if negb (isRaidGroup g) && socket
    then RemoveFromGroup E (Some a) me GROUP_REMOVEMETHOD_DEFAULT 0 else mret tt
  | None => mret tt
  end;;
  pl ← player_at me;
  match GetGroup pl with
  | Some a => SendUpdate a;; ResetMaxEnchantingLevel E a
  | None => mret tt
  end;;
  unlink me false;;
  unlink me true;;
  modify (λ w, with_online (delete me (online w)) w).

End Server.
