(* ===== verification/GroupFacts.v ===== *)
(** * GroupFacts: what the operations of a group change

    [wcore] forgets what does not decide who belongs where: settings, names, flags, roles,
    the effects. [Calm] code keeps the core. The other operations are described by what
    they do to it. *)

From Stdlib Require Import ZArith Lia.
From S2P Require Import Prelude ByteBuffer Guid LootRoll LootRollFacts GroupData Group.
Local Open Scope Z_scope.

(** ** The core of a world *)

Definition strip_slot (s : MemberSlot) : MemberSlot := mkSlot (slot_guid s) [] (slot_group s) 0 0.

(** Of the settings only the number of target icons is kept: they are an array. *)
Definition blank (icons : nat) : Settings := mkSettings [] 0 0 (replicate icons 0) 0 0 0 0 0.

Definition gcore (g : Group) : Group :=
  mkGroup (strip_slot <$> m_memberSlots g) (m_memberMgr g) (m_invitees g) (m_leaderGuid g) (m_groupType g)
    (m_bgGroup g) (m_rolls g) (m_subGroupsCounts g) (m_guid g) (m_dbStoreId g)
    (blank (length (m_targetIcons (settings g)))).

Definition pcore (pl : Player) : Player :=
  mkPlayer [] (m_group pl) (m_originalGroup pl) (m_groupInvite pl) false 0 0 0.

Definition wcore (w : World) : World :=
  mkWorld (gcore <$> groups w) (pcore <$> online w) (GroupStore w) (GroupDbStore w) (NextGroupDbStoreId w)
    (NextGroupId w) (group_member w) (mkRolls [] ∅ 0 0 []) [].

Definition guids (g : Group) : list Z := slot_guid <$> m_memberSlots g.

Lemma guids_core g : guids (gcore g) = guids g.
Proof. unfold guids, gcore. simpl. rewrite <- list_fmap_compose. done. Qed.

Lemma fmap_alter_commute {A B} (h : A → B) f f' (m : gmap Z A) a :
  (∀ x, h (f x) = f' (h x)) → h <$> alter f a m = alter f' a (h <$> m).
Proof.
  intros Hc. apply map_eq. intros b. rewrite lookup_fmap. destruct (decide (b = a)) as [->|Hb].
  - rewrite !lookup_alter_eq, lookup_fmap. destruct (m !! a); simpl; [|done]. by rewrite Hc.
  - by rewrite !lookup_alter_ne, lookup_fmap by done.
Qed.

Lemma fmap_alter_same {A B} (h : A → B) f (m : gmap Z A) a :
  (∀ x, h (f x) = h x) → h <$> alter f a m = h <$> m.
Proof.
  intros Hc. rewrite (fmap_alter_commute h f id) by done. apply map_eq. intros b.
  destruct (decide (b = a)) as [->|Hb]; [rewrite lookup_alter_eq|by rewrite lookup_alter_ne].
  by destruct ((h <$> m) !! a).
Qed.

(** A group and the players that references lead to are there. *)
Definition fit (a : Z) (w : World) : Prop :=
  is_Some (groups w !! a) ∧
  ∀ b g, groups w !! b = Some g → length (m_targetIcons (settings g)) = 8%nat ∧
    ∀ x, x ∈ m_memberMgr g → is_Some (online w !! x.1).

Lemma fit_core a w w' : wcore w' = wcore w → fit a w → fit a w'.
Proof.
  intros Hc [Ha Hr].
  assert (gcore <$> groups w' = gcore <$> groups w) as Hg by (by injection Hc).
  assert (pcore <$> online w' = pcore <$> online w) as Hp by (by injection Hc).
  split.
  - apply (fmap_is_Some gcore). rewrite <- lookup_fmap, Hg, lookup_fmap. by apply fmap_is_Some.
  - intros b g' Hb. assert ((gcore <$> groups w') !! b = Some (gcore g')) as Hb' by (by rewrite lookup_fmap, Hb).
    rewrite Hg, lookup_fmap in Hb'. apply fmap_Some in Hb' as (g & Hbg & Heq). destruct (Hr b g Hbg) as [Hl Hx].
    injection Heq as _ Hm _ _ _ _ _ _ _ _ Hi. apply (f_equal length) in Hi. rewrite !length_replicate in Hi.
    split; [congruence|]. intros x Hin. apply (fmap_is_Some pcore). rewrite <- lookup_fmap, Hp, lookup_fmap.
    apply fmap_is_Some, Hx. by rewrite <- Hm.
Qed.

(** ** Calm code *)

#[export] Typeclasses Opaque gets modify gemit upd_group upd_settings upd_player upd_slot deref FindPlayer
  player_at each.

Class Calm (a : Z) (p : gw unit) : Prop :=
  calm : ∀ w, fit a w → ∃ w', p w = (Ret tt, w') ∧ wcore w' = wcore w.

#[export] Instance calm_ret a : Calm a (mret tt).
Proof. intros w _. by exists w. Qed.
#[export] Instance calm_seq a p q : Calm a p → Calm a q → Calm a (p;; q).
Proof.
  intros Hp Hq w Hw. destruct (Hp w Hw) as (w1 & E1 & C1).
  destruct (Hq w1 (fit_core a w w1 C1 Hw)) as (w2 & E2 & C2). exists w2.
  erewrite bind_ret_run by exact E1. split; [done|congruence].
Qed.
#[export] Instance calm_if a (b : bool) p q : Calm a p → Calm a q → Calm a (if b then p else q).
Proof. by destruct b. Qed.
#[export] Instance calm_emit a e : Calm a (gemit e).
Proof. intros w _. by eexists. Qed.
#[export] Instance calm_gets {A} a (f : World → A) k : (∀ x, Calm a (k x)) → Calm a (gets f ≫= k).
Proof. intros Hk w Hw. destruct (Hk (f w) w Hw) as (w' & E & C). exists w'. by erewrite bind_ret_run. Qed.
#[export] Instance calm_find a p k : (∀ x, Calm a (k x)) → Calm a (FindPlayer p ≫= k).
Proof. intros Hk. by apply calm_gets. Qed.
#[export] Instance calm_option {A} a (x : option A) p q :
  Calm a p → (∀ y, Calm a (q y)) → Calm a (match x with Some y => q y | None => p end).
Proof. intros. by destruct x. Qed.
#[export] Instance calm_each {A} a (f : A → gw unit) l : (∀ x, Calm a (f x)) → Calm a (each f l).
Proof. intros Hf. induction l as [|x l IH]; simpl; apply _. Qed.

Lemma deref_group_run a w g : groups w !! a = Some g → deref a w = (Ret g, w).
Proof. intros H. unfold deref. erewrite bind_ret_run by done. by rewrite H. Qed.
Lemma player_at_run p w pl : online w !! p = Some pl → player_at p w = (Ret pl, w).
Proof. intros H. unfold player_at, FindPlayer. erewrite bind_ret_run by done. by rewrite H. Qed.

#[export] Instance calm_deref a k : (∀ g, Calm a (k g)) → Calm a (deref a ≫= k).
Proof.
  intros Hk w Hw. pose proof Hw as [[g Hg] _]. destruct (Hk g w Hw) as (w' & E & C). exists w'.
  by erewrite bind_ret_run by by apply deref_group_run.
Qed.

Class KeepsIcons (f : Settings → Settings) : Prop := keeps_icons x :
  length (m_targetIcons x) = 8%nat → length (m_targetIcons (f x)) = 8%nat.

#[export] Hint Extern 0 (KeepsIcons _) =>
  (intros ? ?; simpl; repeat case_match; simpl; by rewrite ?length_insert) : typeclass_instances.

#[export] Instance calm_settings a b f : KeepsIcons f → Calm a (upd_settings b f).
Proof.
  intros Hf w [_ Hw]. eexists. split; [done|]. unfold wcore. simpl. f_equal. apply map_eq. intros c.
  rewrite !lookup_fmap. destruct (decide (c = b)) as [->|Hc]; [|by rewrite lookup_alter_ne].
  rewrite lookup_alter_eq. destruct (groups w !! b) as [g|] eqn:Hb; [|done]. simpl. unfold gcore. simpl.
  destruct (Hw b g Hb) as [Hi _]. by rewrite Hi, (keeps_icons _ Hi).
Qed.

Lemma calm_upd_player a p f : (∀ pl, pcore (f pl) = pcore pl) → Calm a (upd_player p f).
Proof. intros Hf w _. eexists. split; [done|]. unfold wcore. simpl. f_equal. by apply fmap_alter_same. Qed.

Lemma calm_upd_group a b f : (∀ g, gcore (f g) = gcore g) → Calm a (upd_group b f).
Proof. intros Hf w _. eexists. split; [done|]. unfold wcore. simpl. f_equal. by apply fmap_alter_same. Qed.

Lemma calm_upd_slot a b i f : (∀ s, strip_slot (f s) = strip_slot s) → Calm a (upd_slot b i f).
Proof.
  intros Hf. apply calm_upd_group. intros g. unfold gcore. simpl. by rewrite list_fmap_alter_same.
Qed.

#[export] Instance calm_Toggle a b i flag apply : Calm a (ToggleGroupMemberFlag b i flag apply).
Proof. by apply calm_upd_slot. Qed.

#[export] Instance calm_RemoveUnique a b flag : Calm a (RemoveUniqueGroupMemberFlag b flag).
Proof.
  apply calm_upd_group. intros g. unfold gcore. simpl. f_equal. rewrite <- list_fmap_compose.
  apply list_fmap_ext. intros i s _. simpl. by case_match.
Qed.

(** Loops over the references of the group. *)
Lemma calm_refs a (f : Z * bool → gw unit) w g :
  fit a w → groups w !! a = Some g → (∀ x, x ∈ m_memberMgr g → ∀ w, fit a w → is_Some (online w !! x.1) →
    ∃ w', f x w = (Ret tt, w') ∧ wcore w' = wcore w) →
  ∃ w', each f (m_memberMgr g) w = (Ret tt, w') ∧ wcore w' = wcore w.
Proof.
  intros Hfit Hg Hf.
  assert (∀ l w1, l ⊆ m_memberMgr g → wcore w1 = wcore w →
    ∃ w', each f l w1 = (Ret tt, w') ∧ wcore w' = wcore w1) as H.
  { induction l as [|x l IH]; intros w1 Hl Hc; simpl; [by exists w1|].
    pose proof (fit_core a w w1 Hc Hfit) as Hfit1.
    assert (x ∈ m_memberMgr g) as Hx by (apply Hl; by left).
    assert (is_Some (online w1 !! x.1)) as Hon.
    { apply (fmap_is_Some pcore). rewrite <- lookup_fmap.
      assert (pcore <$> online w1 = pcore <$> online w) as -> by (by injection Hc).
      rewrite lookup_fmap. apply fmap_is_Some. apply (proj2 Hfit a g Hg), Hx. }
    destruct (Hf x Hx w1 Hfit1 Hon) as (w2 & E2 & C2).
    destruct (IH w2) as (w3 & E3 & C3); [intros y Hy; apply Hl; by right|congruence|].
    exists w3. erewrite bind_ret_run by exact E2. split; [done|congruence]. }
  apply H; [done|done].
Qed.

#[export] Instance calm_Broadcast a op data ig grp ign : Calm a (BroadcastPacket a op data ig grp ign).
Proof.
  intros w Hw. pose proof Hw as [[g Hg] _]. unfold BroadcastPacket.
  setoid_rewrite (bind_ret_run _ _ _ _ _ (deref_group_run _ _ _ Hg)). apply (calm_refs a); [done|done|].
  intros [p orig] _ w1 Hw1 [pl Hpl]. simpl in Hpl.
  setoid_rewrite (bind_ret_run _ _ _ _ _ (player_at_run _ _ _ Hpl)).
  by apply (calm (a := a)).
Qed.
#[export] Instance calm_BroadcastReady a op data : Calm a (BroadcastReadyCheck a op data).
Proof.
  intros w Hw. pose proof Hw as [[g Hg] _]. unfold BroadcastReadyCheck.
  setoid_rewrite (bind_ret_run _ _ _ _ _ (deref_group_run _ _ _ Hg)). apply (calm_refs a); [done|done|].
  intros x _ w1 Hw1 [pl Hpl]. setoid_rewrite (bind_ret_run _ _ _ _ _ (player_at_run _ _ _ Hpl)).
  by apply (calm (a := a)).
Qed.
#[export] Instance calm_Offline a : Calm a (OfflineReadyCheck a).
Proof. unfold OfflineReadyCheck. apply _. Qed.
#[export] Instance calm_SendUpdateToPlayer a p slot : Calm a (SendUpdateToPlayer a p slot).
Proof. unfold SendUpdateToPlayer. apply _. Qed.
#[export] Instance calm_SendUpdate a : Calm a (SendUpdate a).
Proof. unfold SendUpdate. apply _. Qed.
#[export] Instance calm_set_icon a i who t : Calm a (set_icon a i who t).
Proof. unfold set_icon. apply _. Qed.
#[export] Instance calm_IconList a p : Calm a (SendTargetIconList a p).
Proof. unfold SendTargetIconList. apply _. Qed.
#[export] Instance calm_BroadcastGroupUpdate a : Calm a (BroadcastGroupUpdate a).
Proof. unfold BroadcastGroupUpdate. apply _. Qed.
#[export] Instance calm_ResetMax E a : Calm a (ResetMaxEnchantingLevel E a).
Proof. unfold ResetMaxEnchantingLevel. apply _. Qed.
#[export] Instance calm_UpdateLooter E a b : Calm a (UpdateLooterGuid E a b).
Proof. unfold UpdateLooterGuid, SetLooterGuid. apply _. Qed.
#[export] Instance calm_SetMemberFlag a p apply flag : Calm a (SetGroupMemberFlag a p apply flag).
Proof.
  unfold SetGroupMemberFlag. apply calm_deref. intros g. apply calm_if; [apply _|].
  destruct (_getMemberSlot g p) as [[i s]|]; apply _.
Qed.
#[export] Instance calm_tell a set call : (∀ pl, pcore (set pl) = pcore pl) → Calm a (tell_difficulty a set call).
Proof.
  intros Hset w Hw. pose proof Hw as [[g Hg] _]. unfold tell_difficulty.
  setoid_rewrite (bind_ret_run _ _ _ _ _ (deref_group_run _ _ _ Hg)). apply (calm_refs a); [done|done|].
  intros x _ w1 Hw1 [pl Hpl]. setoid_rewrite (bind_ret_run _ _ _ _ _ (player_at_run _ _ _ Hpl)).
  pose proof (calm_upd_player a x.1 set Hset) as Hcalm. by apply (calm (a := a)).
Qed.
#[export] Instance calm_SetDungeon a d : Calm a (SetDungeonDifficulty a d).
Proof. unfold SetDungeonDifficulty. apply calm_seq; [apply _|]. apply calm_deref. intros g.
  apply calm_seq; [apply _|by apply calm_tell]. Qed.
#[export] Instance calm_SetRaid a d : Calm a (SetRaidDifficulty a d).
Proof. unfold SetRaidDifficulty. apply calm_seq; [apply _|]. apply calm_deref. intros g.
  apply calm_seq; [apply _|by apply calm_tell]. Qed.
