(* ===== verification/GroupInv.v ===== *)
(** * GroupInv: the invariant of groups, players and the group manager

    [world_ok X w] holds between two requests with [X] empty; a group in [X] is being
    created or changed: its leader may not be a member. *)

From Stdlib Require Import ZArith Lia.
From S2P Require Import Prelude ByteBuffer Guid LootRoll GroupData Group GroupFacts.
Local Open Scope Z_scope.

(** How many members are in the sub-group. *)
Definition in_subgroup (g : Group) (sub : Z) : nat :=
  length (filter (λ s, slot_group s = sub) (m_memberSlots g)).

(** The counters of a raid count its members; other groups have none. *)
Definition counts_ok (g : Group) : Prop :=
  if isRaidGroup g then
    ∃ counts, m_subGroupsCounts g = Some counts ∧ length counts = 8%nat ∧
      (∀ i n, counts !! i = Some n → n = Z.of_nat (in_subgroup g (Z.of_nat i)) ∧ n <= MAXGROUPSIZE) ∧
      (∀ s, s ∈ m_memberSlots g → 0 <= slot_group s < MAX_RAID_SUBGROUPS)
  else
    m_subGroupsCounts g = None ∧ (length (m_memberSlots g) <= 5)%nat ∧
    ∀ s, s ∈ m_memberSlots g → slot_group s = 0.

Section Inv.
Context (X : gset Z).

Record group_ok (w : World) (a : Z) (g : Group) : Prop := {
  go_nodup : NoDup (guids g);
  go_bg : m_bgGroup g = None;
  go_counts : counts_ok g;
  go_rolls : NoDup (itemGUID <$> m_rolls g);
  go_icons : length (m_targetIcons (settings g)) = 8%nat;
  go_refs_nodup : NoDup (m_memberMgr g);
  go_refs : ∀ p o, (p, o) ∈ m_memberMgr g →
    o = false ∧ ∃ pl, online w !! p = Some pl ∧ target (m_group pl) = Some a;
  go_members : ∀ s, s ∈ m_memberSlots g →
    group_member w !! slot_guid s = Some (m_dbStoreId g) ∧
    ∀ pl, online w !! slot_guid s = Some pl → m_group pl = mkRef (Some a) (slot_group s);
  go_invites : ∀ p, p ∈ m_invitees g → ∃ pl, online w !! p = Some pl ∧ m_groupInvite pl = Some a;
  go_new : m_memberSlots g = [] → isRaidGroup g = false ∧ (a ∉ X → m_leaderGuid g ∈ m_invitees g);
  go_live : m_memberSlots g ≠ [] →
    0 <= m_dbStoreId g ∧ GroupDbStore w !! Z.to_nat (m_dbStoreId g) = Some (Some a) ∧
    (a ∉ X → m_leaderGuid g ∈ guids g ∧ GroupStore w !! GUID_LOPART (m_guid g) = Some a)
}.

Record player_ok (w : World) (p : Z) (pl : Player) : Prop := {
  po_group : ∀ a, target (m_group pl) = Some a →
    ∃ g, groups w !! a = Some g ∧ p ∈ guids g ∧ (p, false) ∈ m_memberMgr g;
  po_orig : target (m_originalGroup pl) = None;
  po_invite : ∀ a, m_groupInvite pl = Some a →
    target (m_group pl) = None ∧ ∃ g, groups w !! a = Some g ∧ p ∈ m_invitees g
}.

Record world_ok (w : World) : Prop := {
  ok_group : ∀ a g, groups w !! a = Some g → group_ok w a g;
  ok_player : ∀ p pl, online w !! p = Some pl → player_ok w p pl;
  ok_table : ∀ p store, group_member w !! p = Some store →
    ∃ a g, groups w !! a = Some g ∧ p ∈ guids g ∧ m_dbStoreId g = store;
  ok_store : ∀ i a, GroupDbStore w !! i = Some (Some a) →
    ∃ g, groups w !! a = Some g ∧ 0 <= m_dbStoreId g ∧ Z.to_nat (m_dbStoreId g) = i ∧
      (a ∉ X → m_memberSlots g ≠ []);
  ok_next : 0 <= NextGroupDbStoreId w ∧
    ∀ a, GroupDbStore w !! Z.to_nat (NextGroupDbStoreId w) ≠ Some (Some a);
  ok_ids : 0 <= NextGroupId w ∧ ∀ id a, GroupStore w !! id = Some a →
    id < NextGroupId w ∧ ∃ g, groups w !! a = Some g ∧ GUID_LOPART (m_guid g) = id ∧ m_memberSlots g ≠ []
}.

(** ** The invariant is one of the core *)

Lemma strip_nil (l : list MemberSlot) : strip_slot <$> l = [] ↔ l = [].
Proof. by destruct l. Qed.

Lemma in_subgroup_core g sub : in_subgroup (gcore g) sub = in_subgroup g sub.
Proof.
  unfold in_subgroup. simpl. induction (m_memberSlots g) as [|s l IH]; [done|].
  rewrite fmap_cons, !filter_cons. simpl. destruct (decide (slot_group s = sub)); simpl; by rewrite IH.
Qed.

Lemma elem_of_strip s (l : list MemberSlot) : s ∈ l → strip_slot s ∈ strip_slot <$> l.
Proof. intros H. apply list_elem_of_fmap. by exists s. Qed.

Lemma counts_core g : counts_ok (gcore g) ↔ counts_ok g.
Proof.
  assert (∀ P : Z → Prop, (∀ s, s ∈ strip_slot <$> m_memberSlots g → P (slot_group s)) ↔
    (∀ s, s ∈ m_memberSlots g → P (slot_group s))) as H.
  { intros P. split; [intros H s Hs; apply (H (strip_slot s)); by apply elem_of_strip|].
    intros H s' (s & -> & Hs)%list_elem_of_fmap. by apply (H s). }
  unfold counts_ok. assert (isRaidGroup (gcore g) = isRaidGroup g) as -> by reflexivity.
  destruct (isRaidGroup g).
  - split; intros (c & Hc & Hl & Hn & Hs); exists c; (split_and!; [done|done| |]);
      [intros i n Hi; destruct (Hn i n Hi) as [-> ?]; by rewrite in_subgroup_core in *|by apply (H (λ z, 0 <= z < MAX_RAID_SUBGROUPS))
      |intros i n Hi; destruct (Hn i n Hi) as [-> ?]; by rewrite in_subgroup_core in *|by apply (H (λ z, 0 <= z < MAX_RAID_SUBGROUPS))].
  - split; intros (Hc & Hl & Hs); (split_and!; [done| |by apply (H (λ z, z = 0))]); simpl in *;
      by rewrite length_fmap in *.
Qed.

Lemma group_ok_core w a g : group_ok (wcore w) a (gcore g) ↔ group_ok w a g.
Proof.
  assert (∀ p (P : Player → Prop), (∀ pl, P (pcore pl) ↔ P pl) →
    (∃ pl, online (wcore w) !! p = Some pl ∧ P pl) ↔ (∃ pl, online w !! p = Some pl ∧ P pl)) as Hex.
  { intros p P HP. simpl. setoid_rewrite lookup_fmap. split.
    - intros (pl & (pl' & Hp & ->)%fmap_Some & H). exists pl'. by rewrite HP in H.
    - intros (pl & Hp & H). exists (pcore pl). by rewrite Hp, HP. }
  assert (∀ p (P : Player → Prop), (∀ pl, P (pcore pl) ↔ P pl) →
    (∀ pl, online (wcore w) !! p = Some pl → P pl) ↔ (∀ pl, online w !! p = Some pl → P pl)) as Hall.
  { intros p P HP. simpl. setoid_rewrite lookup_fmap. split.
    - intros H pl Hp. apply HP, H. by rewrite Hp.
    - intros H pl' (pl & Hp & ->)%fmap_Some. apply HP. by apply H. }
  split; intros [].
  - split; rewrite ?guids_core in *; try done.
    + by apply counts_core.
    + simpl in go_icons0. by rewrite length_replicate in go_icons0.
    + intros p o Hp. destruct (go_refs0 p o Hp) as [-> H]. split; [done|].
      by apply (proj1 (Hex _ (λ pl, target (m_group pl) = Some a) (λ _, iff_refl _))).
    + intros s Hs. destruct (go_members0 (strip_slot s) (elem_of_strip _ _ Hs)) as [? H]. split; [done|].
      by apply (proj1 (Hall _ (λ pl, m_group pl = mkRef (Some a) (slot_group s)) (λ _, iff_refl _))).
    + intros p Hp. by apply (proj1 (Hex _ (λ pl, m_groupInvite pl = Some a) (λ _, iff_refl _))), go_invites0.
    + intros H. apply go_new0. simpl. by apply strip_nil.
    + intros H. apply go_live0. simpl. by rewrite strip_nil.
  - split; rewrite ?guids_core in *; try done.
    + by apply counts_core.
    + simpl. by rewrite length_replicate.
    + intros p o Hp. destruct (go_refs0 p o Hp) as [-> H]. split; [done|].
      by apply (proj2 (Hex _ (λ pl, target (m_group pl) = Some a) (λ _, iff_refl _))).
    + intros s' (s & -> & Hs)%list_elem_of_fmap. destruct (go_members0 s Hs) as [? H]. split; [done|].
      by apply (proj2 (Hall _ (λ pl, m_group pl = mkRef (Some a) (slot_group s)) (λ _, iff_refl _))).
    + intros p Hp. by apply (proj2 (Hex _ (λ pl, m_groupInvite pl = Some a) (λ _, iff_refl _))), go_invites0.
    + intros H. apply go_new0. by apply strip_nil.
    + intros H. apply go_live0. simpl in H. by rewrite strip_nil in H.
Qed.

Lemma ex_group_core w a (P : Group → Prop) : (∀ g, P (gcore g) ↔ P g) →
  (∃ g, groups (wcore w) !! a = Some g ∧ P g) ↔ (∃ g, groups w !! a = Some g ∧ P g).
Proof.
  intros HP. simpl. setoid_rewrite lookup_fmap. split.
  - intros (g' & (g & Ha & ->)%fmap_Some & H). exists g. by rewrite HP in H.
  - intros (g & Ha & H). exists (gcore g). by rewrite Ha, HP.
Qed.

Lemma player_ok_core w p pl : player_ok (wcore w) p (pcore pl) ↔ player_ok w p pl.
Proof.
  pose proof (λ a, ex_group_core w a (λ g, p ∈ guids g ∧ (p, false) ∈ m_memberMgr g)) as H1.
  pose proof (λ a, ex_group_core w a (λ g, p ∈ m_invitees g) (λ _, iff_refl _)) as H2.
  assert (∀ g, p ∈ guids (gcore g) ∧ (p, false) ∈ m_memberMgr g ↔ p ∈ guids g ∧ (p, false) ∈ m_memberMgr g) as Hc
    by (intros g; by rewrite guids_core).
  split; intros [Hg Ho Hi]; split; [| done | | | done |].
  - intros a Ha. apply (proj1 (H1 a Hc)), Hg, Ha.
  - intros a Ha. destruct (Hi a Ha) as [? H]. split; [done|]. by apply (proj1 (H2 a)).
  - intros a Ha. apply (proj2 (H1 a Hc)), Hg, Ha.
  - intros a Ha. destruct (Hi a Ha) as [? H]. split; [done|]. by apply (proj2 (H2 a)).
Qed.

Lemma world_ok_core w : world_ok (wcore w) ↔ world_ok w.
Proof.
  pose proof (λ p store a, ex_group_core w a (λ g, p ∈ guids g ∧ m_dbStoreId g = store)) as H1.
  pose proof (λ i a, ex_group_core w a (λ g, 0 <= m_dbStoreId g ∧ Z.to_nat (m_dbStoreId g) = i ∧
    (a ∉ X → m_memberSlots g ≠ []))) as H2.
  pose proof (λ id a, ex_group_core w a (λ g, GUID_LOPART (m_guid g) = id ∧ m_memberSlots g ≠ [])) as H3.
  assert (∀ g, m_memberSlots (gcore g) ≠ [] ↔ m_memberSlots g ≠ []) as Hnil
    by (intros g; simpl; by rewrite strip_nil).
  assert (∀ p store g, p ∈ guids (gcore g) ∧ m_dbStoreId (gcore g) = store ↔ p ∈ guids g ∧ m_dbStoreId g = store)
    as C1 by (intros; by rewrite guids_core).
  split; intros [Hg Hp Ht Hs Hn Hi]; split; try done.
  - intros a g Ha. apply group_ok_core, Hg. simpl. by rewrite lookup_fmap, Ha.
  - intros p pl Hpl. apply player_ok_core, Hp. simpl. by rewrite lookup_fmap, Hpl.
  - intros p store Hst. destruct (Ht p store Hst) as (a & H). exists a. by apply (proj1 (H1 p store a (C1 p store))).
  - intros i a Ha. apply (proj1 (H2 i a ltac:(intros g; specialize (Hnil g); simpl in *; tauto))), Hs, Ha.
  - destruct Hi as [Hpos Hi]. split; [done|]. intros id a Ha. destruct (Hi id a Ha) as [Hlt H]. split; [done|].
    by apply (proj1 (H3 id a ltac:(intros g; specialize (Hnil g); simpl in *; tauto))).
  - intros a g' (g & <- & Ha)%lookup_fmap_Some. by apply group_ok_core, Hg.
  - intros p pl' (pl & <- & Hpl)%lookup_fmap_Some. by apply player_ok_core, Hp.
  - intros p store Hst. destruct (Ht p store Hst) as (a & H). exists a. by apply (proj2 (H1 p store a (C1 p store))).
  - intros i a Ha. apply (proj2 (H2 i a ltac:(intros g; specialize (Hnil g); simpl in *; tauto))), Hs, Ha.
  - destruct Hi as [Hpos Hi]. split; [done|]. intros id a Ha. destruct (Hi id a Ha) as [Hlt H]. split; [done|].
    by apply (proj2 (H3 id a ltac:(intros g; specialize (Hnil g); simpl in *; tauto))).
Qed.

Lemma world_ok_same w w' : wcore w' = wcore w → world_ok w → world_ok w'.
Proof. intros Hc H. apply world_ok_core. rewrite Hc. by apply world_ok_core. Qed.

(** A world that is well formed is fit for packets. *)
Lemma ok_fit w a g : world_ok w → groups w !! a = Some g → fit a w.
Proof.
  intros Hw Ha. split; [by eexists|]. intros b h Hb.
  split; [apply (go_icons w b h (ok_group w Hw b h Hb))|]. intros [p o] Hx.
  destruct (go_refs w b h (ok_group w Hw b h Hb) p o Hx) as (_ & pl & Hp & _). by eexists.
Qed.

Lemma calm_ok w a g p : Calm a p → world_ok w → groups w !! a = Some g →
  ∃ w', p w = (Ret tt, w') ∧ wcore w' = wcore w ∧ world_ok w'.
Proof.
  intros Hp Hw Ha. destruct (Hp w (ok_fit w a g Hw Ha)) as (w' & E & C). exists w'.
  split_and!; [done|done|]. by eapply world_ok_same.
Qed.

End Inv.
