(* ===== verification/GroupSteps.v ===== *)
(** * GroupSteps: the elementary changes of groups and players keep the invariant *)

From Stdlib Require Import ZArith Lia.
From S2P Require Import Prelude ByteBuffer Guid LootRoll GroupData Group GroupFacts GroupInv.
Local Open Scope Z_scope.

Definition g_upd (a : Z) (f : Group → Group) (w : World) : World := with_groups (alter f a (groups w)) w.
Definition p_upd (p : Z) (f : Player → Player) (w : World) : World := with_online (alter f p (online w)) w.

Lemma g_upd_run a f w : upd_group a f w = (Ret tt, g_upd a f w).
Proof. done. Qed.
Lemma p_upd_run p f w : upd_player p f w = (Ret tt, p_upd p f w).
Proof. done. Qed.

Lemma lookup_alter_Some {A} (f : A → A) (m : gmap Z A) a b y : alter f a m !! b = Some y →
  (b = a ∧ ∃ x, m !! a = Some x ∧ y = f x) ∨ (b ≠ a ∧ m !! b = Some y).
Proof.
  destruct (decide (b = a)) as [->|Hb].
  - rewrite lookup_alter_eq. intros (x & Hx & ->)%fmap_Some. left. eauto.
  - rewrite lookup_alter_ne by done. auto.
Qed.

(** ** Frames *)

Section Frames.
Context (X : gset Z).

Lemma group_ok_frame w w' a g : group_ok X w a g →
  (∀ p, p ∈ guids g ∨ (p, false) ∈ m_memberMgr g → m_group <$> online w' !! p = m_group <$> online w !! p) →
  (∀ p, p ∈ guids g → group_member w' !! p = group_member w !! p) →
  (∀ p, p ∈ m_invitees g → m_groupInvite <$> online w' !! p = m_groupInvite <$> online w !! p) →
  (m_memberSlots g ≠ [] → GroupDbStore w' !! Z.to_nat (m_dbStoreId g) = GroupDbStore w !! Z.to_nat (m_dbStoreId g) ∧
     GroupStore w' !! GUID_LOPART (m_guid g) = GroupStore w !! GUID_LOPART (m_guid g)) →
  group_ok X w' a g.
Proof.
  intros [Hnd Hbg Hc Hr Hic Hrn Hrefs Hmem Hinv Hnew Hlive] Hon Htab Hin Hst. split; try done.
  - intros p o Hp. destruct (Hrefs p o Hp) as [-> (pl & Hpl & Ht)]. split; [done|].
    specialize (Hon p (or_intror Hp)). rewrite Hpl in Hon. apply fmap_Some in Hon as (pl' & Hpl' & Hm).
    exists pl'. by rewrite <- Hm.
  - intros s Hs. assert (slot_guid s ∈ guids g) as Hg by (apply list_elem_of_fmap; eauto).
    destruct (Hmem s Hs) as [H1 H2]. split; [by rewrite Htab|]. intros pl' Hpl'.
    specialize (Hon _ (or_introl Hg)). rewrite Hpl' in Hon. symmetry in Hon. apply fmap_Some in Hon as (pl & Hpl & ->).
    by apply H2.
  - intros p Hp. destruct (Hinv p Hp) as (pl & Hpl & Hi). specialize (Hin p Hp). rewrite Hpl in Hin.
    apply fmap_Some in Hin as (pl' & Hpl' & Hm). exists pl'. by rewrite <- Hm.
  - intros Hne. destruct (Hst Hne) as [-> ->]. by apply Hlive.
Qed.

Lemma player_ok_frame w w' p pl : player_ok w p pl →
  (∀ a g, groups w !! a = Some g → target (m_group pl) = Some a → p ∈ guids g → (p, false) ∈ m_memberMgr g →
     ∃ g', groups w' !! a = Some g' ∧ p ∈ guids g' ∧ (p, false) ∈ m_memberMgr g') →
  (∀ a g, groups w !! a = Some g → m_groupInvite pl = Some a → p ∈ m_invitees g →
     ∃ g', groups w' !! a = Some g' ∧ p ∈ m_invitees g') →
  player_ok w' p pl.
Proof.
  intros [Hg Ho Hi] H1 H2. split; [|done|].
  - intros a Ha. destruct (Hg a Ha) as (g & ? & ? & ?). by eapply H1.
  - intros a Ha. destruct (Hi a Ha) as (? & g & ? & ?). split; [done|]. by eapply H2.
Qed.

(** The other parts are kept when the groups keep their members and names. *)
Lemma ok_change w w' : world_ok X w →
  (∀ b h', groups w' !! b = Some h' → group_ok X w' b h') →
  (∀ p pl', online w' !! p = Some pl' → player_ok w' p pl') →
  (∀ b h, groups w !! b = Some h → ∃ h', groups w' !! b = Some h' ∧ guids h' = guids h ∧
     m_dbStoreId h' = m_dbStoreId h ∧ m_guid h' = m_guid h) →
  group_member w' = group_member w → GroupDbStore w' = GroupDbStore w →
  NextGroupDbStoreId w' = NextGroupDbStoreId w → GroupStore w' = GroupStore w → NextGroupId w' = NextGroupId w →
  world_ok X w'.
Proof.
  intros [Hg Hp Ht Hs Hn Hi] Hg' Hp' Hk E1 E2 E3 E4 E5.
  assert (∀ g h, guids g = guids h → m_memberSlots h ≠ [] → m_memberSlots g ≠ []) as Hne.
  { intros g1 g2 He H1 H2. unfold guids in He. rewrite H2 in He. by destruct (m_memberSlots g2). }
  split; [done|done|..]; rewrite ?E1, ?E2, ?E3, ?E4, ?E5; [| |done|].
  - intros p store Hst. destruct (Ht p store Hst) as (b & h & Hb & Hin & Hid).
    destruct (Hk b h Hb) as (h' & Hb' & Eg & Es & _). exists b, h'. by rewrite Eg, Es.
  - intros i b Hb. destruct (Hs i b Hb) as (h & Hh & H0 & Hid & Hsl).
    destruct (Hk b h Hh) as (h' & Hb' & Eg & Es & _). exists h'. rewrite Es. split_and!; [done..|].
    intros Hx. apply (Hne h' h); [done|by apply Hsl].
  - destruct Hi as [H0 Hi]. split; [done|]. intros id b Hb. destruct (Hi id b Hb) as (Hlt & h & Hh & Hid & Hsl).
    destruct (Hk b h Hh) as (h' & Hb' & Eg & _ & Egu). split; [done|]. exists h'. rewrite Egu.
    split_and!; [done..|]. by apply (Hne h' h).
Qed.

Lemma group_ok_g_upd w a f b h : group_ok X w b h → group_ok X (g_upd a f w) b h.
Proof. intros H. by apply (group_ok_frame w). Qed.

End Frames.

(** Changes of one group that keep its members, its references, its invitations and its
    identity. *)
Lemma ok_g_upd X w a g f : world_ok X w → groups w !! a = Some g →
  guids (f g) = guids g → m_memberMgr (f g) = m_memberMgr g → m_invitees (f g) = m_invitees g →
  m_dbStoreId (f g) = m_dbStoreId g → m_guid (f g) = m_guid g →
  (group_ok X w a g → group_ok X w a (f g)) → world_ok X (g_upd a f w).
Proof.
  intros Hw Ha E1 E2 E3 E4 E5 Hf. pose proof Hw as [Hg Hp _ _ _ _].
  assert (∀ b h, groups w !! b = Some h → ∃ h', groups (g_upd a f w) !! b = Some h' ∧ guids h' = guids h ∧
    m_memberMgr h' = m_memberMgr h ∧ m_invitees h' = m_invitees h ∧ m_dbStoreId h' = m_dbStoreId h ∧
    m_guid h' = m_guid h) as Hk.
  { intros b h Hb. simpl. destruct (decide (b = a)) as [->|Hba].
    - rewrite lookup_alter_eq, Ha. simpl. assert (h = g) as -> by congruence. eauto 10.
    - rewrite lookup_alter_ne by done. eauto 10. }
  apply (ok_change X w); try done.
  - intros b h [(-> & g1 & Hg1 & ->)|(Hba & Hb)]%lookup_alter_Some; apply group_ok_g_upd; [|by apply Hg].
    assert (g1 = g) as -> by congruence. by apply Hf, Hg.
  - intros p pl Hpl. apply (player_ok_frame w); [by apply Hp| |];
      intros b h Hb; destruct (Hk b h Hb) as (h' & -> & Eg & Er & Ei & _); intros; exists h'; by rewrite ?Eg, ?Er, ?Ei.
  - intros b h Hb. destruct (Hk b h Hb) as (h' & ? & ? & _ & _ & ? & ?). eauto.
Qed.

(** The new leader is a member. *)
Lemma ok_leader X w a g p : world_ok X w → groups w !! a = Some g → p ∈ guids g →
  world_ok X (g_upd a (with_leaderGuid p) w).
Proof.
  intros Hw Ha Hp. apply (ok_g_upd X w a g); [done..|]. intros []. split; try done.
  - intros Hn. exfalso. unfold guids in Hp. simpl in Hn. rewrite Hn in Hp. by apply not_elem_of_nil in Hp.
  - intros Hne. destruct (go_live Hne) as (? & ? & H). split_and!; [done..|]. intros HX. split; [done|]. by apply H.
Qed.

(** The rolls change, but no item is rolled for twice. *)
Lemma ok_rolls X w a g l : world_ok X w → groups w !! a = Some g → NoDup (itemGUID <$> l) →
  world_ok X (g_upd a (with_rolls l) w).
Proof. intros Hw Ha Hl. apply (ok_g_upd X w a g); [done..|]. intros []. by split. Qed.

(** ** Invitations *)

(** The invitations of the group and of the player change together. *)
Definition set_invites (a p : Z) (fi : gset Z → gset Z) (i : option Z) (w : World) : World :=
  p_upd p (with_groupInvite i) (g_upd a (λ g, with_invitees (fi (m_invitees g)) g) w).
Definition invited (a p : Z) : World → World := set_invites a p (λ s, s ∪ {[p]}) (Some a).
Definition uninvited (a p : Z) : World → World := set_invites a p (λ s, s ∖ {[p]}) None.

Lemma m_group_p_upd f p q w : (∀ pl, m_group (f pl) = m_group pl) →
  m_group <$> online (p_upd p f w) !! q = m_group <$> online w !! q.
Proof.
  intros Hf. simpl. destruct (decide (q = p)) as [->|Hq].
  - rewrite lookup_alter_eq. destruct (online w !! p); simpl; [by rewrite Hf|done].
  - by rewrite lookup_alter_ne.
Qed.

Lemma ok_set_invites X w a p g pl fi i : world_ok X w → groups w !! a = Some g → online w !! p = Some pl →
  (∀ q, q ∈ fi (m_invitees g) ↔ if decide (q = p) then i = Some a else q ∈ m_invitees g) →
  (i = None ∨ i = Some a ∧ target (m_group pl) = None) → (m_groupInvite pl = None ∨ m_groupInvite pl = Some a) →
  (m_memberSlots g = [] → a ∉ X → m_leaderGuid g = p → i = Some a) →
  world_ok X (set_invites a p fi i w).
Proof.
  intros Hw Ha Hpl Hfi Hi Hold Hlead. pose proof Hw as [Hg Hp _ _ _ _].
  set (w' := set_invites a p fi i w).
  assert (∀ b h, groups w !! b = Some h → p ∈ m_invitees h → b = a) as Honly.
  { intros b h Hb Hin. destruct (go_invites X w b h (Hg b h Hb) p Hin) as (pl' & Hpl' & Hinv). naive_solver. }
  assert (∀ b h, groups w !! b = Some h → ∃ h', groups w' !! b = Some h' ∧ guids h' = guids h ∧
    m_memberMgr h' = m_memberMgr h ∧ (∀ q, q ≠ p → q ∈ m_invitees h → q ∈ m_invitees h') ∧
    m_dbStoreId h' = m_dbStoreId h ∧ m_guid h' = m_guid h) as Hk.
  { intros b h Hb. simpl. destruct (decide (b = a)) as [->|Hba].
    - rewrite lookup_alter_eq, Ha. simpl. assert (h = g) as -> by congruence. eexists. split; [done|].
      simpl. split_and!; [done..| |done|done]. intros q Hq. rewrite Hfi, decide_False by done. done.
    - rewrite lookup_alter_ne by done. eauto 10. }
  apply (ok_change X w); try done.
  - intros b h' [(-> & g1 & Hg1 & ->)|(Hba & Hb)]%lookup_alter_Some.
    + assert (g1 = g) as -> by congruence. destruct (Hg a g Ha) as [? ? ? ? ? ? Hrefs Hmem Hinv Hnew Hlive].
      assert (∀ q, m_group <$> online w' !! q = m_group <$> online w !! q) as Hm
        by (intros; unfold w', set_invites; by rewrite m_group_p_upd).
      split; try done; simpl m_memberSlots; simpl m_memberMgr; simpl m_invitees.
      * intros q o Hq. destruct (Hrefs q o Hq) as [-> (ql & Hql & Ht)]. split; [done|].
        specialize (Hm q). rewrite Hql in Hm. apply fmap_Some in Hm as (ql' & ? & Hm). exists ql'. by rewrite <- Hm.
      * intros s Hs. destruct (Hmem s Hs) as [H1 H2]. split; [done|]. intros ql' Hql'. specialize (Hm (slot_guid s)).
        rewrite Hql' in Hm. symmetry in Hm. apply fmap_Some in Hm as (ql & Hql & ->). by apply H2.
      * intros q. rewrite Hfi. case_decide as Hqp; [subst q|].
        -- intros ->. simpl. rewrite lookup_alter_eq, Hpl. by eexists.
        -- intros Hq. simpl. rewrite lookup_alter_ne by done. by apply Hinv.
      * intros Hsl. destruct (Hnew Hsl) as [? Hl]. split; [done|]. intros HX. simpl m_leaderGuid. rewrite Hfi.
        case_decide; [by apply Hlead|by apply Hl].
    + apply (group_ok_frame X w); [by apply Hg|..]; try done.
      * intros q _. unfold w', set_invites. by rewrite m_group_p_upd.
      * intros q Hq. simpl. rewrite lookup_alter_ne; [done|]. intros ->. by apply Hba, (Honly b h').
  - intros q ql [(-> & pl1 & Hpl1 & ->)|(Hqp & Hq)]%lookup_alter_Some.
    + simpl in Hpl1. assert (pl1 = pl) as -> by congruence. destruct (Hp p pl Hpl) as [H1 H2 H3]. split; [|done|].
      * intros b Hb. destruct (H1 b Hb) as (h & Hh & ? & ?). destruct (Hk b h Hh) as (h' & ? & Eg & Er & _).
        exists h'. by rewrite Eg, Er.
      * intros b Hb. simpl in Hb. destruct Hi as [->|[-> ?]]; [done|]. injection Hb as <-. split; [done|]. simpl.
        rewrite lookup_alter_eq, Ha. eexists. split; [done|]. simpl. by rewrite Hfi, decide_True.
    + apply (player_ok_frame w); [by apply Hp| |]; intros b h Hb;
        destruct (Hk b h Hb) as (h' & -> & Eg & Er & Ei & _); intros; exists h'; rewrite ?Eg, ?Er; auto.
  - intros b h Hb. destruct (Hk b h Hb) as (h' & ? & ? & _ & _ & ? & ?). eauto.
Qed.

Lemma ok_invited X w a p g pl : world_ok X w → groups w !! a = Some g → online w !! p = Some pl →
  m_groupInvite pl = None → target (m_group pl) = None → world_ok X (invited a p w).
Proof.
  intros Hw Ha Hpl Hn Ht. apply (ok_set_invites X w a p g pl); try done; [|by right|by left].
  intros q. case_decide; set_solver.
Qed.

Lemma ok_uninvited X w a p g pl : world_ok X w → groups w !! a = Some g → online w !! p = Some pl →
  (m_groupInvite pl = None ∨ m_groupInvite pl = Some a) →
  (m_memberSlots g = [] → a ∉ X → m_leaderGuid g ≠ p) → world_ok X (uninvited a p w).
Proof.
  intros Hw Ha Hpl Hn Ht. apply (ok_set_invites X w a p g pl); try done; [|by left|].
  - intros q. case_decide; set_solver.
  - intros H1 H2 H3. by destruct (Ht H1 H2).
Qed.

(** ** Sub-group counters *)

Definition adjust (sub d : Z) (counts : option (list Z)) : option (list Z) :=
  (λ c, alter (λ n, uwrap 8 (n + d)) (Z.to_nat sub) c) <$> counts.

Lemma free_subgroup_spec counts : ∀ i j, free_subgroup i counts = Some j →
  ∃ k n, j = i + Z.of_nat k ∧ counts !! k = Some n ∧ n < MAXGROUPSIZE.
Proof.
  induction counts as [|n counts IH]; intros i j; simpl; [done|].
  destruct (Z.ltb_spec n MAXGROUPSIZE) as [Hn|Hn].
  - intros [= <-]. exists 0%nat, n. split_and!; [lia|done|done].
  - intros (k & m & -> & Hk & Hm)%IH. exists (S k), m. split_and!; [lia|done|done].
Qed.

Lemma new_subgroup_spec g sub : counts_ok g → new_subgroup g = Some sub →
  if isRaidGroup g then 0 <= sub < MAX_RAID_SUBGROUPS ∧ Z.of_nat (in_subgroup g sub) < MAXGROUPSIZE
  else sub = 0.
Proof.
  unfold counts_ok, new_subgroup. destruct (isRaidGroup g).
  - intros (c & -> & Hl & Hn & _) (k & n & -> & Hk & Hlt)%free_subgroup_spec.
    pose proof (lookup_lt_Some _ _ _ Hk). destruct (Hn k n Hk) as [-> _]. rewrite Z.add_0_l.
    unfold MAX_RAID_SUBGROUPS. split; [lia|done].
  - intros (-> & _ & _). congruence.
Qed.

(** A slot more. *)
Definition count_of (sub : Z) (l : list MemberSlot) : nat := length (filter (λ s, slot_group s = sub) l).

Lemma count_of_app sub l1 l2 : count_of sub (l1 ++ l2) = (count_of sub l1 + count_of sub l2)%nat.
Proof. unfold count_of. by rewrite filter_app, length_app. Qed.
Lemma count_of_one sub s : count_of sub [s] = if decide (slot_group s = sub) then 1%nat else 0%nat.
Proof. unfold count_of. rewrite filter_cons. by case_decide. Qed.

(** The counters after the list of slots changed from [g] to [g'] in the sub-group [sub]. *)
Lemma counts_adjust g g' sub d c :
  m_subGroupsCounts g = Some c → length c = 8%nat → 0 <= sub < MAX_RAID_SUBGROUPS →
  (∀ i n, c !! i = Some n → n = Z.of_nat (in_subgroup g (Z.of_nat i)) ∧ n <= MAXGROUPSIZE) →
  m_subGroupsCounts g' = adjust sub d (m_subGroupsCounts g) →
  (∀ k, Z.of_nat (in_subgroup g' k) = Z.of_nat (in_subgroup g k) + if decide (k = sub) then d else 0) →
  Z.of_nat (in_subgroup g' sub) <= MAXGROUPSIZE →
  ∃ c', m_subGroupsCounts g' = Some c' ∧ length c' = 8%nat ∧
    ∀ i n, c' !! i = Some n → n = Z.of_nat (in_subgroup g' (Z.of_nat i)) ∧ n <= MAXGROUPSIZE.
Proof.
  intros Hc Hl Hsub Hn Hadj Hin Hmax. rewrite Hadj, Hc. eexists. split; [done|]. split; [by rewrite length_alter|].
  intros i n. destruct (decide (i = Z.to_nat sub)) as [->|Hi].
  - rewrite list_lookup_alter_eq. intros (m & Hm & ->)%fmap_Some. destruct (Hn _ _ Hm) as [-> Hle].
    specialize (Hin sub). rewrite decide_True in Hin by done. rewrite Z2Nat.id in * by lia.
    unfold MAXGROUPSIZE in *. rewrite uwrap_small by (unfold in_u; lia). lia.
  - rewrite list_lookup_alter_ne by done. intros Hm. destruct (Hn _ _ Hm) as [-> Hle].
    specialize (Hin (Z.of_nat i)). rewrite decide_False in Hin by lia. lia.
Qed.

Definition add_slot (p sub : Z) (g : Group) : Group :=
  with_memberSlots (m_memberSlots g ++ [mkSlot p [] sub 0 0])
    (with_memberMgr ((p, false) :: m_memberMgr g)
      (with_subGroupsCounts (adjust sub 1 (m_subGroupsCounts g)) g)).

Lemma counts_add p sub g : counts_ok g → new_subgroup g = Some sub →
  (isRaidGroup g = false → (length (m_memberSlots g) < 5)%nat) → counts_ok (add_slot p sub g).
Proof.
  intros Hc Hsub Hlt. pose proof (new_subgroup_spec g sub Hc Hsub) as Hs. unfold counts_ok in *.
  assert (isRaidGroup (add_slot p sub g) = isRaidGroup g) as -> by done. destruct (isRaidGroup g).
  - destruct Hc as (c & Hc & Hl & Hn & Hm). destruct Hs as [Hrange Hroom].
    assert (∀ k, in_subgroup (add_slot p sub g) k = (in_subgroup g k + if decide (k = sub) then 1 else 0)%nat) as Hin.
    { intros k. change (in_subgroup (add_slot p sub g) k) with (count_of k (m_memberSlots g ++ [mkSlot p [] sub 0 0])).
      rewrite count_of_app, count_of_one. simpl. unfold in_subgroup, count_of. repeat case_decide; congruence || lia. }
    destruct (counts_adjust g (add_slot p sub g) sub 1 c) as (c' & H1 & H2 & H3); try done.
    + intros k. rewrite Hin. case_decide; lia.
    + rewrite Hin, decide_True by done. unfold MAXGROUPSIZE in *. lia.
    + exists c'. split_and!; [done|done|done|]. intros s [Hs|Hs]%elem_of_app; [by apply Hm|].
      apply list_elem_of_singleton in Hs as ->. done.
  - destruct Hc as (Hc & Hl & Hm). subst sub. split_and!; [simpl; by rewrite Hc| |].
    + simpl. rewrite length_app. simpl. specialize (Hlt eq_refl). lia.
    + intros s [Hs|Hs]%elem_of_app; [by apply Hm|]. by apply list_elem_of_singleton in Hs as ->.
Qed.

Definition remove_slot (i : nat) (p sub : Z) (g : Group) : Group :=
  with_memberSlots (delete i (m_memberSlots g))
    (with_memberMgr (filter (λ x, x ≠ (p, false)) (m_memberMgr g))
      (with_subGroupsCounts (adjust sub (-1) (m_subGroupsCounts g)) g)).

Lemma elem_of_delete {A} (l : list A) i x : x ∈ delete i l → x ∈ l.
Proof.
  intros [j Hj]%list_elem_of_lookup. rewrite list_lookup_delete in Hj.
  case_decide; by eapply list_elem_of_lookup_2.
Qed.

Lemma count_of_delete k l i s : l !! i = Some s →
  count_of k l = (count_of k (delete i l) + if decide (k = slot_group s) then 1 else 0)%nat.
Proof.
  intros H. rewrite delete_take_drop. rewrite <- (take_drop_middle l i s H) at 1.
  change (s :: drop (S i) l) with ([s] ++ drop (S i) l).
  rewrite !count_of_app, count_of_one. repeat case_decide; congruence || lia.
Qed.

Lemma counts_remove i s g : counts_ok g → m_memberSlots g !! i = Some s →
  counts_ok (remove_slot i (slot_guid s) (slot_group s) g).
Proof.
  intros Hc Hs. unfold counts_ok in *.
  pose proof (list_elem_of_lookup_2 _ _ _ Hs) as Hin.
  set (g' := remove_slot i (slot_guid s) (slot_group s) g).
  assert (isRaidGroup g' = isRaidGroup g) as -> by done. destruct (isRaidGroup g).
  - destruct Hc as (c & Hc & Hl & Hn & Hm).
    assert (∀ k, in_subgroup g k = (in_subgroup g' k + if decide (k = slot_group s) then 1 else 0)%nat) as Hk
      by (intros k; by apply count_of_delete).
    destruct (counts_adjust g g' (slot_group s) (-1) c) as (c' & H1 & H2 & H3); try done.
    + by apply Hm.
    + intros k. rewrite (Hk k). case_decide; lia.
    + assert (is_Some (c !! Z.to_nat (slot_group s))) as [n Hc0].
      { apply lookup_lt_is_Some. specialize (Hm s Hin). unfold MAX_RAID_SUBGROUPS in Hm. lia. }
      destruct (Hn _ _ Hc0) as [Hn0 Hle]. specialize (Hm s Hin). rewrite Z2Nat.id in Hn0 by lia.
      specialize (Hk (slot_group s)). rewrite decide_True in Hk by done. lia.
    + exists c'. split_and!; [done|done|done|]. intros x Hx. by apply Hm, (elem_of_delete _ i).
  - destruct Hc as (Hc & Hl & Hm). split_and!; [simpl; by rewrite Hc| |].
    + simpl. rewrite length_delete by eauto. lia.
    + intros x Hx. by apply Hm, (elem_of_delete _ i).
Qed.
