(* ===== verification/GroupWorlds.v ===== *)
(** * GroupWorlds: the changes of membership keep the invariant

    Each definition is the core of the world after a change that the code makes in several
    steps: a member joins, leaves, logs out or returns, a group is registered, dissolved or
    converted. *)

From Stdlib Require Import ZArith Lia.
From S2P Require Import Prelude ByteBuffer Guid LootRoll GroupData Group GroupFacts GroupInv GroupSteps.
Local Open Scope Z_scope.
Lemma elem_of_guids s g : s ∈ m_memberSlots g → slot_guid s ∈ guids g.
Proof. intros H. apply list_elem_of_fmap. by exists s. Qed.

Lemma slots_of_guid p g : p ∈ guids g → m_memberSlots g ≠ [].
Proof. unfold guids. intros H Hn. rewrite Hn in H. by apply not_elem_of_nil in H. Qed.

(** ** Strangers: players without a group *)

Section Strangers.
Context (X : gset Z) (w : World) (Hw : world_ok X w).

(** A player in the server is a member of the group he points to only. *)
Lemma member_target b h p pl : groups w !! b = Some h → p ∈ guids h → online w !! p = Some pl →
  target (m_group pl) = Some b.
Proof.
  intros Hb (s & -> & Hs)%list_elem_of_fmap Hpl. by rewrite (proj2 (go_members X w b h (ok_group X w Hw b h Hb) s Hs) pl Hpl).
Qed.

Lemma ref_target b h p o pl : groups w !! b = Some h → (p, o) ∈ m_memberMgr h → online w !! p = Some pl →
  target (m_group pl) = Some b.
Proof.
  intros Hb Hin Hpl. destruct (go_refs X w b h (ok_group X w Hw b h Hb) p o Hin) as (_ & pl' & ? & ?). congruence.
Qed.

Lemma invitee_target b h p pl : groups w !! b = Some h → p ∈ m_invitees h → online w !! p = Some pl →
  m_groupInvite pl = Some b.
Proof.
  intros Hb Hin Hpl. destruct (go_invites X w b h (ok_group X w Hw b h Hb) p Hin) as (pl' & ? & ?). congruence.
Qed.

(** References and slots belong to the same players. *)
Lemma ref_member b h p o : groups w !! b = Some h → (p, o) ∈ m_memberMgr h → o = false ∧ p ∈ guids h.
Proof.
  intros Hb Hin. destruct (go_refs X w b h (ok_group X w Hw b h Hb) p o Hin) as (-> & pl & Hpl & Ht).
  split; [done|]. destruct (po_group w p pl (ok_player X w Hw p pl Hpl) b Ht) as (h' & ? & ? & _). congruence.
Qed.

Lemma member_ref b h p pl : groups w !! b = Some h → p ∈ guids h → online w !! p = Some pl → (p, false) ∈ m_memberMgr h.
Proof.
  intros Hb Hin Hpl. pose proof (member_target b h p pl Hb Hin Hpl) as Ht.
  destruct (po_group w p pl (ok_player X w Hw p pl Hpl) b Ht) as (h' & ? & _ & ?). congruence.
Qed.

Lemma member_row b h p : groups w !! b = Some h → p ∈ guids h → group_member w !! p = Some (m_dbStoreId h).
Proof. intros Hb (s & -> & Hs)%list_elem_of_fmap. apply (go_members X w b h (ok_group X w Hw b h Hb) s Hs). Qed.

(** Groups with members have stores of their own, so a player is a member of one group. *)
Lemma store_inj b h b' h' : groups w !! b = Some h → groups w !! b' = Some h' →
  m_memberSlots h ≠ [] → m_memberSlots h' ≠ [] → m_dbStoreId h = m_dbStoreId h' → b = b'.
Proof.
  intros Hb Hb' Hn Hn' He. destruct (go_live X w b h (ok_group X w Hw b h Hb) Hn) as (_ & H1 & _).
  destruct (go_live X w b' h' (ok_group X w Hw b' h' Hb') Hn') as (_ & H2 & _). congruence.
Qed.

Lemma member_unique b h b' h' p : groups w !! b = Some h → groups w !! b' = Some h' →
  p ∈ guids h → p ∈ guids h' → b = b'.
Proof.
  intros Hb Hb' Hp Hp'. apply (store_inj b h b' h'); try done; try by eapply slots_of_guid.
  pose proof (member_row b h p Hb Hp). pose proof (member_row b' h' p Hb' Hp'). congruence.
Qed.

Context (p : Z) (pl : Player) (Hpl : online w !! p = Some pl) (Ht : target (m_group pl) = None).

Lemma stranger_guids b h : groups w !! b = Some h → p ∉ guids h.
Proof. intros Hb Hin. pose proof (member_target b h p pl Hb Hin Hpl). congruence. Qed.
Lemma stranger_refs b h o : groups w !! b = Some h → (p, o) ∉ m_memberMgr h.
Proof. intros Hb Hin. pose proof (ref_target b h p o pl Hb Hin Hpl). congruence. Qed.
Lemma stranger_row : group_member w !! p = None.
Proof.
  destruct (group_member w !! p) as [st|] eqn:Hst; [|done].
  destruct (ok_table X w Hw p st Hst) as (b & h & Hb & Hin & _). by apply (stranger_guids b h Hb) in Hin.
Qed.
Lemma stranger_invites b h : m_groupInvite pl = None → groups w !! b = Some h → p ∉ m_invitees h.
Proof. intros Hi Hb Hin. pose proof (invitee_target b h p pl Hb Hin Hpl). congruence. Qed.

End Strangers.

(** ** Parts of the invariant that follow from frames *)

Lemma p_upd_lookup_ne p f w q : q ≠ p → online (p_upd p f w) !! q = online w !! q.
Proof. intros. simpl. by rewrite lookup_alter_ne. Qed.
Lemma p_upd_lookup p f w pl : online w !! p = Some pl → online (p_upd p f w) !! p = Some (f pl).
Proof. intros H. simpl. by rewrite lookup_alter_eq, H. Qed.
Lemma g_upd_lookup_ne a f w b : b ≠ a → groups (g_upd a f w) !! b = groups w !! b.
Proof. intros. simpl. by rewrite lookup_alter_ne. Qed.
Lemma g_upd_lookup a f w g : groups w !! a = Some g → groups (g_upd a f w) !! a = Some (f g).
Proof. intros H. simpl. by rewrite lookup_alter_eq, H. Qed.

(** The other groups do not know [p], so nothing they need changes with him. *)
Lemma group_ok_other X w w' p b h : group_ok X w b h → p ∉ guids h → (p, false) ∉ m_memberMgr h → p ∉ m_invitees h →
  (∀ q, q ≠ p → online w' !! q = online w !! q) → (∀ q, q ≠ p → group_member w' !! q = group_member w !! q) →
  (m_memberSlots h ≠ [] → GroupDbStore w' !! Z.to_nat (m_dbStoreId h) = GroupDbStore w !! Z.to_nat (m_dbStoreId h) ∧
     GroupStore w' !! GUID_LOPART (m_guid h) = GroupStore w !! GUID_LOPART (m_guid h)) →
  group_ok X w' b h.
Proof.
  intros Hok H1 H2 H3 Hon Htab Hst. apply (group_ok_frame X w); [done|..|done].
  - intros q [Hq|Hq]; rewrite Hon; [done| |done|]; by intros ->.
  - intros q Hq. apply Htab. by intros ->.
  - intros q Hq. rewrite Hon; [done|]. by intros ->.
Qed.

(** ** A member joins *)

Definition joined (a p sub : Z) (w : World) : World :=
  let w := with_group_member (from_option (λ g, <[p := m_dbStoreId g]> (group_member w)) (group_member w) (groups w !! a)) w in
  p_upd p (with_pgroup (mkRef (Some a) sub)) (g_upd a (add_slot p sub) w).

Lemma group_ok_joined X w a p g pl sub : world_ok X w → groups w !! a = Some g → online w !! p = Some pl →
  target (m_group pl) = None → m_groupInvite pl = None → new_subgroup g = Some sub →
  (isRaidGroup g = false → (length (m_memberSlots g) < 5)%nat) → 0 <= m_dbStoreId g →
  GroupDbStore w !! Z.to_nat (m_dbStoreId g) = Some (Some a) → (a ∉ X → m_memberSlots g ≠ []) →
  group_ok X (joined a p sub w) a (add_slot p sub g).
Proof.
  intros Hw Ha Hpl Ht Hi Hsub Hlt H0 Hdb Hne. pose proof (ok_group X w Hw a g Ha) as Hok.
  pose proof (stranger_guids X w Hw p pl Hpl Ht a g Ha) as Hg.
  pose proof (stranger_refs X w Hw p pl Hpl Ht a g false Ha) as Hr.
  pose proof (stranger_invites X w Hw p pl Hpl a g Hi Ha) as Hinv.
  assert (guids (add_slot p sub g) = guids g ++ [p]) as Hgu by (unfold guids; simpl; by rewrite fmap_app).
  split.
  - rewrite Hgu. apply NoDup_app. split; [apply Hok|]. split; [|apply NoDup_singleton].
    intros x Hx ->%list_elem_of_singleton. done.
  - apply Hok.
  - apply counts_add; [apply Hok|done|done].
  - apply Hok.
  - apply Hok.
  - simpl. apply NoDup_cons. split; [done|apply Hok].
  - intros q o [[= -> ->]|Hq]%elem_of_cons.
    + split; [done|]. eexists. split; [by apply p_upd_lookup|done].
    + destruct (go_refs X w a g Hok q o Hq) as (-> & ql & Hql & Htq). split; [done|]. exists ql. split; [|done].
      unfold joined. rewrite p_upd_lookup_ne; [done|]. by intros ->.
  - intros s [Hs|Hs]%elem_of_app.
    + assert (slot_guid s ≠ p) as Hsp by (intros <-; by apply Hg, elem_of_guids).
      destruct (go_members X w a g Hok s Hs) as [H1 H2]. split; [simpl; rewrite Ha; simpl; by rewrite lookup_insert_ne|].
      intros ql. unfold joined. rewrite p_upd_lookup_ne by done. apply H2.
    + apply list_elem_of_singleton in Hs as ->. split; [simpl; rewrite Ha; simpl; by rewrite lookup_insert_eq|].
      intros ql. unfold joined. simpl slot_guid. erewrite p_upd_lookup by done. by intros [= <-].
  - intros q Hq. destruct (go_invites X w a g Hok q Hq) as (ql & Hql & Hqi). exists ql. split; [|done].
    unfold joined. rewrite p_upd_lookup_ne; [done|]. by intros ->.
  - simpl. intros Hn. by apply app_eq_nil in Hn as [_ ?].
  - intros _. split_and!; [done|done|]. intros HX. destruct (go_live X w a g Hok (Hne HX)) as (_ & _ & H).
    destruct (H HX) as [H1 H2]. split; [|done]. rewrite Hgu. apply elem_of_app. by left.
Qed.

Lemma ok_joined X w a p g pl sub : world_ok X w → groups w !! a = Some g → online w !! p = Some pl →
  target (m_group pl) = None → m_groupInvite pl = None → new_subgroup g = Some sub →
  (isRaidGroup g = false → (length (m_memberSlots g) < 5)%nat) → 0 <= m_dbStoreId g →
  GroupDbStore w !! Z.to_nat (m_dbStoreId g) = Some (Some a) → (a ∉ X → m_memberSlots g ≠ []) →
  world_ok X (joined a p sub w).
Proof.
  intros Hw Ha Hpl Ht Hi Hsub Hlt H0 Hdb Hne.
  pose proof (group_ok_joined X w a p g pl sub Hw Ha Hpl Ht Hi Hsub Hlt H0 Hdb Hne) as Hnew.
  set (w' := joined a p sub w) in *.
  assert (∀ b h, groups w !! b = Some h → ∃ h', groups w' !! b = Some h' ∧ guids h ⊆ guids h' ∧
    m_memberMgr h ⊆ m_memberMgr h' ∧ m_invitees h' = m_invitees h ∧ m_dbStoreId h' = m_dbStoreId h ∧
    m_guid h' = m_guid h) as Hk.
  { intros b h Hb. destruct (decide (b = a)) as [->|Hba].
    - assert (h = g) as -> by congruence. eexists. split; [by apply g_upd_lookup|].
      split_and!; [|intros x Hx; by right|done..]. unfold guids. simpl. rewrite fmap_app. set_solver.
    - exists h. split; [simpl; by rewrite lookup_alter_ne|done]. }
  assert (∀ h h', guids h ⊆ guids h' → m_memberSlots h ≠ [] → m_memberSlots h' ≠ []) as Hnn.
  { intros h h' Hs Hn Hn'. destruct (m_memberSlots h) as [|s l] eqn:Hl; [done|].
    apply (slots_of_guid (slot_guid s) h'); [|done]. apply Hs, elem_of_guids. rewrite Hl. by left. }
  pose proof Hw as [Hg Hp Htab Hst Hnx Hid]. split.
  - intros b h [(-> & g1 & Hg1 & ->)|(Hba & Hb)]%lookup_alter_Some.
    + simpl in Hg1. by assert (g1 = g) as -> by congruence.
    + apply (group_ok_other X w w' p); [by apply Hg|by apply (stranger_guids X w Hw p pl Hpl Ht b)
        |by apply (stranger_refs X w Hw p pl Hpl Ht b)|by apply (stranger_invites X w Hw p pl Hpl b)|intros; unfold w', joined; by rewrite p_upd_lookup_ne| |done].
      intros q Hq. simpl. rewrite Ha. simpl. by rewrite lookup_insert_ne.
  - intros q ql [(-> & pl1 & Hpl1 & ->)|(Hqp & Hq)]%lookup_alter_Some.
    + simpl in Hpl1. assert (pl1 = pl) as -> by congruence. split; [|apply (Hp p pl Hpl)|].
      * intros b [= <-]. eexists. split; [by apply g_upd_lookup|]. split; [|by left].
        unfold guids. simpl. rewrite fmap_app. set_solver.
      * intros b Hb. simpl in Hb. congruence.
    + apply (player_ok_frame w); [by apply Hp| |]; intros b h Hb; destruct (Hk b h Hb) as (h' & Hh' & E1 & E2 & E3 & _);
        intros; exists h'; rewrite ?E3; auto.
  - intros q st. simpl. rewrite Ha. simpl. intros [[<- <-]|[Hq Hs]]%lookup_insert_Some.
    + exists a, (add_slot p sub g). split; [by apply g_upd_lookup|]. split; [|done].
      unfold guids. simpl. rewrite fmap_app. set_solver.
    + destruct (Htab q st Hs) as (b & h & Hb & Hin & <-). destruct (Hk b h Hb) as (h' & Hh' & E1 & _ & _ & E4 & _).
      exists b, h'. auto.
  - intros i b Hb. destruct (Hst i b Hb) as (h & Hh & H1 & H2 & H3).
    destruct (Hk b h Hh) as (h' & Hh' & E1 & _ & _ & E4 & _). exists h'. rewrite E4. split_and!; [done..|]. eauto.
  - done.
  - destruct Hid as [Hpos Hid]. split; [done|]. intros id b Hb. destruct (Hid id b Hb) as (? & h & Hh & H2 & H3).
    destruct (Hk b h Hh) as (h' & Hh' & E1 & _ & _ & _ & E5). split; [done|]. exists h'. rewrite E5. eauto.
Qed.

Lemma group_ok_weaken X Y w a g : X ⊆ Y → group_ok X w a g → group_ok Y w a g.
Proof.
  intros HXY []. split; try done.
  - intros Hn. destruct (go_new Hn) as [? H]. split; [done|]. intros HY. apply H. by intros ?%HXY.
  - intros Hn. destruct (go_live Hn) as (? & ? & H). split_and!; [done..|]. intros HY. apply H. by intros ?%HXY.
Qed.

Lemma ok_weaken X Y w : X ⊆ Y → world_ok X w → world_ok Y w.
Proof.
  intros HXY []. split; try done.
  - intros a g Ha. by apply (group_ok_weaken X), ok_group.
  - intros i a Hi. destruct (ok_store i a Hi) as (g & ? & ? & ? & H). exists g. split_and!; [done..|].
    intros HY. apply H. by intros ?%HXY.
Qed.

(** ** A member leaves *)

Definition left_group (a p : Z) (i : nat) (sub : Z) (l : list Roll) (w : World) : World :=
  p_upd p (cut false) (g_upd a (with_rolls l ∘ remove_slot i p sub) (with_group_member (delete p (group_member w)) w)).

Lemma elem_of_delete_nodup {A} (l : list A) i x y : NoDup l → l !! i = Some x → y ∈ delete i l ↔ y ∈ l ∧ y ≠ x.
Proof.
  intros Hnd Hi. rewrite delete_take_drop. pose proof (take_drop_middle l i x Hi) as Hl.
  assert (y ∈ l ↔ y ∈ take i l ++ x :: drop (S i) l) as -> by (by rewrite Hl). rewrite <- Hl in Hnd.
  apply NoDup_app in Hnd as (_ & H1 & [H2 _]%NoDup_cons). rewrite !elem_of_app, elem_of_cons.
  split; [|tauto]. intros [Hy|Hy]; (split; [tauto|]); intros ->; [|done]. apply (H1 x Hy). by left.
Qed.

Lemma guids_remove i p sub g : guids (remove_slot i p sub g) = delete i (guids g).
Proof. apply list_fmap_delete. Qed.

Section Leaving.
Context (X : gset Z) (w : World) (Hw : world_ok X w) (a p : Z) (g : Group) (Ha : groups w !! a = Some g).
Context (i : nat) (s : MemberSlot) (Hs : m_memberSlots g !! i = Some s) (Hp : slot_guid s = p).

Lemma leaver_guids : p ∈ guids g.
Proof. rewrite <- Hp. by eapply elem_of_guids, list_elem_of_lookup_2. Qed.

Lemma guids_left q sub : q ∈ guids (remove_slot i p sub g) ↔ q ∈ guids g ∧ q ≠ p.
Proof.
  rewrite guids_remove. apply elem_of_delete_nodup; [apply (go_nodup X w a g), (ok_group X w Hw a g Ha)|].
  unfold guids. by rewrite list_lookup_fmap, Hs, <- Hp.
Qed.

Lemma leaver_not_invited b h : groups w !! b = Some h → p ∉ m_invitees h.
Proof.
  intros Hb Hin. destruct (go_invites X w b h (ok_group X w Hw b h Hb) p Hin) as (pl & Hpl & Hi).
  destruct (po_invite w p pl (ok_player X w Hw p pl Hpl) b Hi) as [Ht _].
  pose proof (member_target X w Hw a g p pl Ha leaver_guids Hpl). congruence.
Qed.

Lemma leaver_other b h : b ≠ a → groups w !! b = Some h → p ∉ guids h ∧ (p, false) ∉ m_memberMgr h.
Proof.
  intros Hba Hb. assert (p ∉ guids h) as Hn by (intros Hin; apply Hba; by apply (member_unique X w Hw b h a g p Hb Ha Hin leaver_guids)).
  split; [done|]. intros Hr. by destruct (ref_member X w Hw b h p false Hb Hr).
Qed.

Lemma group_ok_left l : NoDup (itemGUID <$> l) → (1 < length (m_memberSlots g))%nat →
  group_ok (X ∪ {[a]}) (left_group a p i (slot_group s) l w) a (with_rolls l (remove_slot i p (slot_group s) g)).
Proof.
  intros Hl Hlen. pose proof (ok_group X w Hw a g Ha) as Hok.
  assert (∀ q, q ≠ p → online (left_group a p i (slot_group s) l w) !! q = online w !! q) as Hon
    by (intros; unfold left_group; by rewrite p_upd_lookup_ne).
  assert (∀ s', s' ∈ delete i (m_memberSlots g) → slot_guid s' ≠ p) as Hne.
  { intros s' Hs'. apply (guids_left (slot_guid s') (slot_group s)). by apply (elem_of_guids s' (remove_slot i p _ g)). }
  split.
  - change (NoDup (guids (remove_slot i p (slot_group s) g))). rewrite guids_remove.
    apply (sublist_NoDup _ (guids g)); [apply Hok|apply sublist_delete].
  - apply Hok.
  - rewrite <- Hp. apply (counts_remove i s); [apply Hok|done].
  - done.
  - apply Hok.
  - simpl. apply NoDup_filter, Hok.
  - intros q o [Hq Hin]%list_elem_of_filter. destruct (go_refs X w a g Hok q o Hin) as (-> & ql & Hql & Htq).
    split; [done|]. exists ql. rewrite Hon; [done|]. intros ->. by apply Hq.
  - intros s' Hs'. destruct (go_members X w a g Hok s' (elem_of_delete _ _ _ Hs')) as [H1 H2]. split.
    + simpl. rewrite lookup_delete_ne; [done|]. intros He. by apply (Hne s').
    + intros ql. rewrite Hon by by apply Hne. apply H2.
  - intros q Hq. destruct (go_invites X w a g Hok q Hq) as (ql & Hql & Hqi). exists ql. split; [|done].
    rewrite Hon; [done|]. intros ->. by apply (leaver_not_invited a g).
  - simpl. intros Hn. pose proof (f_equal length Hn) as Hn'. rewrite length_delete in Hn' by eauto. simpl in Hn'. lia.
  - intros _. destruct (go_live X w a g Hok) as (H0 & H1 & _); [intros Hnil; rewrite Hnil in Hlen; simpl in Hlen; lia|].
    split_and!; [done|done|]. intros Hn. exfalso. apply Hn. set_solver.
Qed.

Lemma ok_left l : NoDup (itemGUID <$> l) → (1 < length (m_memberSlots g))%nat →
  world_ok (X ∪ {[a]}) (left_group a p i (slot_group s) l w).
Proof.
  intros Hl Hlen. pose proof (group_ok_left l Hl Hlen) as Hnew.
  set (w' := left_group a p i (slot_group s) l w) in *.
  set (g' := with_rolls l (remove_slot i p (slot_group s) g)) in *.
  assert (groups w' !! a = Some g') as Ha' by (simpl; by rewrite lookup_alter_eq, Ha).
  assert (∀ b h, groups w !! b = Some h → ∃ h', groups w' !! b = Some h' ∧ (∀ q, q ≠ p → q ∈ guids h → q ∈ guids h') ∧
    (∀ q, q ≠ p → (q, false) ∈ m_memberMgr h → (q, false) ∈ m_memberMgr h') ∧ m_invitees h' = m_invitees h ∧
    m_dbStoreId h' = m_dbStoreId h ∧ m_guid h' = m_guid h ∧ (m_memberSlots h ≠ [] → m_memberSlots h' ≠ [])) as Hk.
  { intros b h Hb. destruct (decide (b = a)) as [->|Hba].
    - assert (h = g) as -> by congruence. exists g'. split_and!; [done| | |done|done|done|].
      + intros q Hq Hin. by apply guids_left.
      + intros q Hq Hin. apply list_elem_of_filter. split; [congruence|done].
      + intros _ Hn. pose proof (f_equal length Hn) as Hn'. simpl in Hn'. rewrite length_delete in Hn' by eauto. lia.
    - exists h. split; [simpl; by rewrite lookup_alter_ne|done]. }
  pose proof Hw as [Hg Hpl Htab Hst Hnx Hid]. split.
  - intros b h [(-> & g1 & Hg1 & ->)|(Hba & Hb)]%lookup_alter_Some.
    + simpl in Hg1. by assert (g1 = g) as -> by congruence.
    + destruct (leaver_other b h Hba Hb) as [H1 H2]. apply (group_ok_weaken X); [set_solver|].
      apply (group_ok_other X w w' p); [by apply Hg|done|done|by apply (leaver_not_invited b)
        |intros; unfold w', left_group; by rewrite p_upd_lookup_ne| |done].
      intros q Hq. simpl. by rewrite lookup_delete_ne.
  - intros q ql [(-> & pl1 & Hpl1 & ->)|(Hqp & Hq)]%lookup_alter_Some.
    + destruct (Hpl p pl1 Hpl1) as [H1 H2 H3]. split; [done|done|]. intros b Hb. simpl in Hb. split; [done|].
      destruct (H3 b Hb) as (_ & h & Hh & Hin). by apply (leaver_not_invited b h Hh) in Hin.
    + apply (player_ok_frame w); [by apply Hpl| |]; intros b h Hb;
        destruct (Hk b h Hb) as (h' & Hh' & E1 & E2 & E3 & _); intros; exists h'; rewrite ?E3; auto.
  - intros q st. simpl. intros [Hq Hq2]%lookup_delete_Some.
    destruct (Htab q st Hq2) as (b & h & Hb & Hin & <-). destruct (Hk b h Hb) as (h' & Hh' & E1 & _ & _ & E4 & _).
    exists b, h'. auto.
  - intros j b Hb. destruct (Hst j b Hb) as (h & Hh & H1 & H2 & H3).
    destruct (Hk b h Hh) as (h' & Hh' & _ & _ & _ & E4 & _ & E6). exists h'. rewrite E4. split_and!; [done..|].
    intros HX. apply E6, H3. set_solver.
  - done.
  - destruct Hid as [Hpos Hid]. split; [done|]. intros id b Hb. destruct (Hid id b Hb) as (? & h & Hh & H2 & H3).
    destruct (Hk b h Hh) as (h' & Hh' & _ & _ & _ & _ & E5 & E6). split; [done|]. exists h'. rewrite E5. eauto.
Qed.

End Leaving.

(** ** A group goes *)

Definition forget (a : Z) (pl : Player) : Player :=
  with_groupInvite (if decide (m_groupInvite pl = Some a) then None else m_groupInvite pl)
    (with_pgroup (if decide (target (m_group pl) = Some a) then mkRef None (iSubGroup (m_group pl)) else m_group pl) pl).

Definition erased (a : Z) (w : World) : World := with_online (forget a <$> online w) (with_groups (delete a (groups w)) w).

Definition dissolved (a : Z) (g : Group) (w : World) : World :=
  with_group_member (filter (λ x, x.2 ≠ m_dbStoreId g) (group_member w))
    (with_GroupDbStore (<[Z.to_nat (m_dbStoreId g) := None]> (GroupDbStore w))
      (with_NextGroupDbStoreId (if m_dbStoreId g <? NextGroupDbStoreId w then m_dbStoreId g else NextGroupDbStoreId w)
        (with_GroupStore (delete (GUID_LOPART (m_guid g)) (GroupStore w)) (erased a w)))).

Lemma forget_group a pl b : b ≠ a → target (m_group (forget a pl)) = Some b ↔ target (m_group pl) = Some b.
Proof. intros Hba. simpl. case_decide; simpl; split; congruence. Qed.
Lemma forget_invite a pl b : b ≠ a → m_groupInvite (forget a pl) = Some b ↔ m_groupInvite pl = Some b.
Proof. intros Hba. simpl. case_decide; split; congruence. Qed.
Lemma forget_not a pl : target (m_group (forget a pl)) ≠ Some a ∧ m_groupInvite (forget a pl) ≠ Some a.
Proof. simpl. split; case_decide; simpl; congruence. Qed.
Lemma forget_keeps a pl b : b ≠ a → target (m_group pl) = Some b → m_group (forget a pl) = m_group pl.
Proof. intros Hba Hb. simpl. rewrite decide_False; [done|]. congruence. Qed.

Lemma not_elem_diff (a b : Z) (X : gset Z) : b ≠ a → b ∉ X ∖ {[a]} → b ∉ X.
Proof. set_solver. Qed.

Section Erasing.
Context (X : gset Z) (w w' : World) (Hw : world_ok X w) (a : Z) (g : Group) (Ha : groups w !! a = Some g).
Context (Hgroups : groups w' = delete a (groups w)) (Honline : online w' = forget a <$> online w).
Context (Hrows : ∀ q, group_member w' !! q = if decide (q ∈ guids g) then None else group_member w !! q).
Context (Hdb : ∀ i b, GroupDbStore w' !! i = Some (Some b) ↔ GroupDbStore w !! i = Some (Some b) ∧ b ≠ a).
Context (Hstore : ∀ id b, GroupStore w' !! id = Some b ↔ GroupStore w !! id = Some b ∧ b ≠ a).
Context (Hid : NextGroupId w' = NextGroupId w).
Context (Hnext : 0 <= NextGroupDbStoreId w' ∧ ∀ b, GroupDbStore w' !! Z.to_nat (NextGroupDbStoreId w') ≠ Some (Some b)).

Lemma erased_group b h : b ≠ a → groups w !! b = Some h → group_ok (X ∖ {[a]}) w' b h.
Proof.
  intros Hba Hb. pose proof (ok_group X w Hw b h Hb) as [Hnd Hbg Hc Hr Hic Hrn Hrefs Hmem Hinv Hnew Hlive].
  split; try done.
  - intros q o Hq. destruct (Hrefs q o Hq) as [-> (ql & Hql & Ht)]. split; [done|]. exists (forget a ql).
    rewrite Honline, lookup_fmap, Hql. split; [done|]. by apply forget_group.
  - intros s Hs. destruct (Hmem s Hs) as [H1 H2]. split.
    + rewrite Hrows, decide_False; [done|]. intros Hin. apply Hba, (member_unique X w Hw b h a g (slot_guid s)); try done.
      by apply elem_of_guids.
    + intros ql'. rewrite Honline, lookup_fmap. intros (ql & Hql & ->)%fmap_Some. rewrite <- (H2 ql Hql).
      apply (forget_keeps a ql b Hba). by rewrite (H2 ql Hql).
  - intros q Hq. destruct (Hinv q Hq) as (ql & Hql & Ht). exists (forget a ql).
    rewrite Honline, lookup_fmap, Hql. split; [done|]. by apply forget_invite.
  - intros Hn. destruct (Hnew Hn) as [? H]. split; [done|]. intros HX. by apply H, (not_elem_diff a).
  - intros Hn. destruct (Hlive Hn) as (? & H1 & H). split_and!; [done|by apply Hdb|].
    intros HX. destruct H as [? H]; [by apply (not_elem_diff a)|]. split; [done|]. by apply Hstore.
Qed.

Lemma ok_erase : world_ok (X ∖ {[a]}) w'.
Proof.
  pose proof Hw as [Hg Hp Htab Hst Hnx [Hpos Hids]]. split.
  - intros b h. rewrite Hgroups. intros [Hba Hb]%lookup_delete_Some. by apply erased_group.
  - intros q ql'. rewrite Honline, lookup_fmap. intros (ql & Hql & ->)%fmap_Some. destruct (Hp q ql Hql) as [H1 H2 H3].
    destruct (forget_not a ql) as [Hn1 Hn2]. split; [|done|].
    + intros b Hb. assert (b ≠ a) as Hba by congruence. apply forget_group in Hb; [|done].
      destruct (H1 b Hb) as (h & Hh & ?). exists h. by rewrite Hgroups, lookup_delete_ne.
    + intros b Hb. assert (b ≠ a) as Hba by congruence. apply forget_invite in Hb; [|done].
      destruct (H3 b Hb) as (Ht & h & Hh & ?). split.
      * destruct (target (m_group (forget a ql))) as [c|] eqn:Hc; [|done]. simpl in Hc. rewrite Ht in Hc. by rewrite decide_False, Ht in Hc.
      * exists h. by rewrite Hgroups, lookup_delete_ne.
  - intros q st. rewrite Hrows. case_decide as Hq; [done|]. intros Hs.
    destruct (Htab q st Hs) as (b & h & Hb & Hin & <-). exists b, h. rewrite Hgroups, lookup_delete_ne; [done|].
    intros <-. apply Hq. congruence.
  - intros i b [Hb Hba]%Hdb. destruct (Hst i b Hb) as (h & Hh & H1 & H2 & H3). exists h.
    rewrite Hgroups, lookup_delete_ne by done. split_and!; [done..|]. intros HX. by apply H3, (not_elem_diff a).
  - done.
  - rewrite Hid. split; [done|]. intros id b [Hb Hba]%Hstore. destruct (Hids id b Hb) as (? & h & Hh & H2 & H3).
    split; [done|]. exists h. by rewrite Hgroups, lookup_delete_ne.
Qed.

End Erasing.

(** A group without members is only known to its invitees. *)
Lemma ok_erased X w a g : world_ok X w → groups w !! a = Some g → m_memberSlots g = [] →
  (∀ i, GroupDbStore w !! i ≠ Some (Some a)) → world_ok (X ∖ {[a]}) (erased a w).
Proof.
  intros Hw Ha Hn Hdb. apply (ok_erase X w _ Hw a g Ha); try done.
  - intros q. unfold guids. rewrite Hn. by rewrite decide_False by apply not_elem_of_nil.
  - intros i b. split; [|tauto]. intros Hb. split; [done|]. intros ->. by apply (Hdb i).
  - intros id b. split; [|tauto]. intros Hb. split; [done|]. intros ->.
    destruct (proj2 (ok_ids X w Hw) id a Hb) as (_ & h & ? & _ & ?). congruence.
  - apply Hw.
Qed.

Lemma ok_dissolved X w a g : world_ok X w → groups w !! a = Some g → m_memberSlots g ≠ [] →
  GroupStore w !! GUID_LOPART (m_guid g) = Some a → world_ok (X ∖ {[a]}) (dissolved a g w).
Proof.
  intros Hw Ha Hn Hstore. destruct (go_live X w a g (ok_group X w Hw a g Ha) Hn) as (H0 & Hdb & _).
  apply (ok_erase X w _ Hw a g Ha); try done.
  - intros q. simpl. destruct (group_member w !! q) as [st|] eqn:Hq.
    + destruct (ok_table X w Hw q st Hq) as (b & h & Hb & Hin & Hst). case_decide as Hg.
      * apply map_lookup_filter_None. right. intros st'. rewrite Hq. intros [= <-] Hne. apply Hne. simpl.
        rewrite <- Hst. by assert (h = g) as -> by (assert (b = a) by (by apply (member_unique X w Hw b h a g q)); congruence).
      * apply map_lookup_filter_Some. split; [done|]. simpl. intros He. apply Hg.
        assert (b = a) as -> by (apply (store_inj X w Hw b h a g); [done|done|by eapply slots_of_guid|done|congruence]). congruence.
    + rewrite (proj2 (map_lookup_filter_None _ _ _)) by auto. by case_decide.
  - intros i b. simpl. rewrite list_lookup_insert_Some. split.
    + intros [(_ & [=] & _)|[Hi Hb]]. split; [done|]. intros ->. apply Hi.
      destruct (ok_store X w Hw i a Hb) as (h & Hh & _ & Hid & _). congruence.
    + intros [Hb Hba]. right. split; [|done]. intros <-. congruence.
  - intros id b. change (GroupStore (dissolved a g w)) with (delete (GUID_LOPART (m_guid g)) (GroupStore w)).
    rewrite lookup_delete_Some. split.
    + intros [Hid Hb]. split; [done|]. intros ->. destruct (proj2 (ok_ids X w Hw) id a Hb) as (_ & h & Hh & Hl & _). congruence.
    + intros [Hb Hba]. split; [|done]. intros <-. congruence.
  - destruct (ok_next X w Hw) as [Hp Hf]. simpl.
    assert (∀ j b, GroupDbStore w !! j ≠ Some (Some b) ∨ j = Z.to_nat (m_dbStoreId g) →
      <[Z.to_nat (m_dbStoreId g) := None]> (GroupDbStore w) !! j ≠ Some (Some b)) as Hfree.
    { intros j b Hj. rewrite list_lookup_insert_Some. intros [(_ & ? & _)|[Hne Hb]]; [done|].
      destruct Hj as [Hj| ->]; [by apply Hj|done]. }
    destruct (m_dbStoreId g <? NextGroupDbStoreId w); (split; [lia|]); intros b; apply Hfree; auto.
Qed.

(** ** A group begins *)

Definition opened (a : Z) (w : World) : World := with_groups (<[a := new_Group]> (groups w)) w.

Lemma ok_opened X w a : world_ok X w → groups w !! a = None → world_ok (X ∪ {[a]}) (opened a w).
Proof.
  intros Hw Ha. apply (ok_weaken X (X ∪ {[a]})) in Hw; [|set_solver].
  assert (∀ b h, groups w !! b = Some h → groups (opened a w) !! b = Some h) as Hk
    by (intros b h Hb; simpl; rewrite lookup_insert_ne; congruence).
  pose proof Hw as [Hg Hp Htab Hst Hnx [Hpos Hids]]. split.
  - intros b h. simpl. intros [[<- <-]|[Hba Hb]]%lookup_insert_Some.
    + split; simpl; try done; try apply NoDup_nil_2.
      * split_and!; [done|simpl; lia|]. by intros s ?%elem_of_nil.
      * by intros p o ?%elem_of_nil.
      * by intros s ?%elem_of_nil.
      * set_solver.
    + apply (group_ok_frame _ w); [by apply Hg|done..].
  - intros q ql Hq. apply (player_ok_frame w); [by apply Hp|eauto..].
  - intros q st Hq. destruct (Htab q st Hq) as (b & h & Hb & ?). exists b, h. auto.
  - intros i b Hb. destruct (Hst i b Hb) as (h & Hh & ?). exists h. auto.
  - done.
  - split; [done|]. intros id b Hb. destruct (Hids id b Hb) as (? & h & Hh & ?). split; [done|]. exists h. auto.
Qed.

(** A group that is no longer being created or changed. *)
Lemma ok_settle X w a g : world_ok X w → groups w !! a = Some g →
  (m_memberSlots g = [] → m_leaderGuid g ∈ m_invitees g ∧ ∀ i, GroupDbStore w !! i ≠ Some (Some a)) →
  (m_memberSlots g ≠ [] → m_leaderGuid g ∈ guids g ∧ GroupStore w !! GUID_LOPART (m_guid g) = Some a) →
  world_ok (X ∖ {[a]}) w.
Proof.
  intros [Hg Hp Htab Hst Hnx Hids] Ha Hn Hl. split; try done.
  - intros b h Hb. specialize (Hg b h Hb). destruct Hg. split; try done.
    + intros Hnil. destruct (go_new Hnil) as [? Hlead]. split; [done|]. intros Hx.
      destruct (decide (b = a)) as [->|Hba]; [|by apply Hlead, (not_elem_diff a)].
      assert (h = g) as -> by congruence. by apply Hn.
    + intros Hnil. destruct (go_live Hnil) as (? & ? & Hlead). split_and!; [done..|]. intros Hx.
      destruct (decide (b = a)) as [->|Hba]; [|by apply Hlead, (not_elem_diff a)].
      assert (h = g) as -> by congruence. by apply Hl.
  - intros i b Hb. destruct (Hst i b Hb) as (h & Hh & H1 & H2 & H3). exists h. split_and!; [done..|]. intros Hx.
    destruct (decide (b = a)) as [->|Hba]; [|by apply H3, (not_elem_diff a)].
    assert (h = g) as -> by congruence. intros Hnil. by apply (proj2 (Hn Hnil) i).
Qed.

(** The new group gets its name and its place in the database. *)
Definition named (leader guid store : Z) (g : Group) : Group :=
  with_dbStoreId store (with_groupType GROUPTYPE_NORMAL (with_leaderGuid leader (with_guid guid g))).

Definition registered (a leader store next : Z) (db : list (option Z)) (w : World) : World :=
  g_upd a (named leader (MAKE_NEW_GUID (NextGroupId w) 0 HIGHGUID_GROUP) store)
    (with_GroupDbStore db (with_NextGroupDbStoreId next (with_NextGroupId (uwrap 32 (NextGroupId w + 1)) w))).

Lemma ok_registered X w a g leader next db : world_ok X w → groups w !! a = Some g → a ∈ X → m_memberSlots g = [] →
  (∀ i, GroupDbStore w !! i ≠ Some (Some a)) → NextGroupId w + 1 < 2 ^ 32 →
  (∀ i b, db !! i = Some (Some b) ↔
     i = Z.to_nat (NextGroupDbStoreId w) ∧ b = a ∨ GroupDbStore w !! i = Some (Some b)) →
  (0 <= next ∧ ∀ b, db !! Z.to_nat next ≠ Some (Some b)) →
  world_ok X (registered a leader (NextGroupDbStoreId w) next db w).
Proof.
  intros Hw Ha HX Hn Hfree Hid Hdb Hnext. set (w' := registered a leader _ next db w).
  pose proof Hw as [Hg Hp Htab Hst [Hnx0 _] [Hpos Hids]].
  assert (∀ b h, groups w !! b = Some h → ∃ h', groups w' !! b = Some h' ∧ guids h' = guids h ∧
    m_memberMgr h' = m_memberMgr h ∧ m_invitees h' = m_invitees h ∧ (b ≠ a → h' = h)) as Hk.
  { intros b h Hb. simpl. destruct (decide (b = a)) as [->|Hba].
    - rewrite lookup_alter_eq, Ha. simpl. assert (h = g) as -> by congruence. by eexists.
    - rewrite lookup_alter_ne by done. by exists h. }
  assert (∀ b h, groups w !! b = Some h → m_memberSlots h ≠ [] → b ≠ a) as Hne by (intros b h Hb Hh ->; congruence).
  assert (uwrap 32 (NextGroupId w + 1) = NextGroupId w + 1) as Hwrap by (apply uwrap_small; unfold in_u; lia).
  split.
  - intros b h' [(-> & g1 & Hg1 & ->)|(Hba & Hb)]%lookup_alter_Some.
    + simpl in Hg1. assert (g1 = g) as -> by congruence.
      destruct (Hg a g Ha) as [Hnd Hbg Hc Hr Hic Hrn Hrefs Hmem Hinv Hnew _]. destruct (Hnew Hn) as [Hraid _].
      split; try done.
      * unfold counts_ok in *. by rewrite Hraid in Hc.
      * intros s Hs. simpl in Hs. rewrite Hn in Hs. by apply not_elem_of_nil in Hs.
    + pose proof (Hg b h' Hb) as Hok. apply (group_ok_frame X w); try done.
      intros Hh. split; [|done]. destruct (go_live X w b h' Hok Hh) as (_ & Hs & _). rewrite Hs. apply Hdb. by right.
  - intros q ql Hq. apply (player_ok_frame w); [by apply Hp| |]; intros b h Hb;
      destruct (Hk b h Hb) as (h' & Hh' & E1 & E2 & E3 & _); intros; exists h'; rewrite ?E1, ?E2, ?E3; done.
  - intros q st Hq. destruct (Htab q st Hq) as (b & h & Hb & Hin & Hs). destruct (Hk b h Hb) as (h' & Hh' & _ & _ & _ & E).
    rewrite E in Hh' by by apply (Hne b h Hb), (slots_of_guid q). by exists b, h.
  - intros i b [[-> ->]|Hb]%Hdb.
    + eexists. split; [simpl; by rewrite lookup_alter_eq, Ha|]. simpl. split_and!; [lia|done|done].
    + destruct (Hst i b Hb) as (h & Hh & H1 & H2 & H3). destruct (Hk b h Hh) as (h' & Hh' & _ & _ & _ & E).
      rewrite E in Hh'; [by exists h|]. intros ->. by apply (Hfree i).
  - done.
  - change (NextGroupId w') with (uwrap 32 (NextGroupId w + 1)). rewrite Hwrap. split; [lia|].
    intros id b Hb. destruct (Hids id b Hb) as (? & h & Hh & H2 & H3).
    split; [lia|]. destruct (Hk b h Hh) as (h' & Hh' & _ & _ & _ & E). rewrite E in Hh' by by apply (Hne b h). by exists h.
Qed.

(** The group manager learns the group. *)
Definition stored (a : Z) (g : Group) (w : World) : World :=
  with_GroupStore (<[GUID_LOPART (m_guid g) := a]> (GroupStore w)) w.

Lemma ok_stored X w a g : world_ok X w → groups w !! a = Some g → m_memberSlots g ≠ [] →
  GroupStore w !! GUID_LOPART (m_guid g) = None → GUID_LOPART (m_guid g) < NextGroupId w →
  world_ok X (stored a g w).
Proof.
  intros Hw Ha Hn Hs Hlt. pose proof Hw as [Hg Hp Htab Hst Hnx [Hpos Hids]]. split; try done.
  - intros b h Hb. pose proof (Hg b h Hb) as Hok. destruct (decide (b ∈ X)) as [HX|HX].
    + destruct Hok. split; try done. intros Hh. destruct (go_live Hh) as (? & ? & _). done.
    + apply (group_ok_frame X w); try done. intros Hh. split; [done|].
      destruct (go_live X w b h Hok Hh) as (_ & _ & H). destruct (H HX) as [_ Hb'].
      change (GroupStore (stored a g w)) with (<[GUID_LOPART (m_guid g) := a]> (GroupStore w)). rewrite lookup_insert_ne; [done|]. intros He. rewrite He in Hs. congruence.
  - intros q ql Hq. apply (player_ok_frame w); [by apply Hp|eauto..].
  - split; [done|]. intros id b. change (GroupStore (stored a g w)) with (<[GUID_LOPART (m_guid g) := a]> (GroupStore w)).
    intros [[<- <-]|[_ Hb]]%lookup_insert_Some; [|by apply Hids].
    split; [done|]. by exists g.
Qed.

(** ** The sub-groups *)

Lemma raid_bit t : has_bits (Z.lor t GROUPTYPE_RAID) GROUPTYPE_RAID = true.
Proof. unfold has_bits, GROUPTYPE_RAID. rewrite Z.land_lor_distr_l. apply negb_true_iff, Z.eqb_neq. intros [_ ?]%Z.lor_eq_0_iff. done. Qed.

Definition raid_of (counts : list Z) (g : Group) : Group :=
  with_subGroupsCounts (Some counts) (with_groupType (Z.lor (m_groupType g) GROUPTYPE_RAID) g).

Lemma in_subgroup_le g sub : (in_subgroup g sub <= length (m_memberSlots g))%nat.
Proof. apply length_filter. Qed.

(** Whatever the group was, no sub-group is overfull and every slot names one of the eight. *)
Lemma counts_bounds g : counts_ok g →
  (∀ sub, 0 <= sub < MAX_RAID_SUBGROUPS → Z.of_nat (in_subgroup g sub) <= MAXGROUPSIZE) ∧
  ∀ s, s ∈ m_memberSlots g → 0 <= slot_group s < MAX_RAID_SUBGROUPS.
Proof.
  unfold counts_ok, MAX_RAID_SUBGROUPS, MAXGROUPSIZE. destruct (isRaidGroup g).
  - intros (c & _ & Hl & Hn & Hs). split; [|done]. intros sub Hsub.
    destruct (lookup_lt_is_Some_2 c (Z.to_nat sub)) as [n Hc]; [lia|]. destruct (Hn _ _ Hc) as [-> ?].
    by rewrite Z2Nat.id in * by lia.
  - intros (_ & Hl & Hs). split; [|intros s Hin; rewrite (Hs s Hin); lia].
    intros sub _. pose proof (in_subgroup_le g sub). lia.
Qed.

Lemma ok_converted X w a g counts : world_ok X w → groups w !! a = Some g → m_memberSlots g ≠ [] →
  length counts = 8%nat → (∀ i n, counts !! i = Some n → n = Z.of_nat (in_subgroup g (Z.of_nat i))) →
  world_ok X (g_upd a (raid_of counts) w).
Proof.
  intros Hw Ha Hne Hl Hn. apply (ok_g_upd X w a g); [done..|]. intros Hok.
  destruct (counts_bounds g (go_counts X w a g Hok)) as [Hb Hs]. destruct Hok. split; try done.
  - unfold counts_ok. change (isRaidGroup (raid_of counts g)) with (has_bits (Z.lor (m_groupType g) GROUPTYPE_RAID) GROUPTYPE_RAID).
    rewrite raid_bit. exists counts. split_and!; [done|done| |done]. intros i n Hi. rewrite (Hn i n Hi). split; [done|].
    apply Hb. pose proof (lookup_lt_Some _ _ _ Hi). unfold MAX_RAID_SUBGROUPS. lia.
Qed.

Definition resub (i : nat) (sub prev : Z) (g : Group) : Group :=
  with_subGroupsCounts (adjust prev (-1) (adjust sub 1 (m_subGroupsCounts g)))
    (with_memberSlots (alter (with_group_of sub) i (m_memberSlots g)) g).

Definition moved (a p : Z) (i : nat) (sub prev : Z) (w : World) : World :=
  p_upd p (λ pl, with_pgroup (mkRef (target (m_group pl)) sub) pl) (g_upd a (resub i sub prev) w).

Lemma count_of_alter k l i s sub : l !! i = Some s →
  (count_of k (alter (with_group_of sub) i l) + (if decide (k = slot_group s) then 1 else 0) =
   count_of k l + if decide (k = sub) then 1 else 0)%nat.
Proof.
  intros Hi. pose proof (count_of_delete k l i s Hi) as H1.
  assert (alter (with_group_of sub) i l !! i = Some (with_group_of sub s)) as Hi' by by rewrite list_lookup_alter_eq, Hi.
  pose proof (count_of_delete k _ i _ Hi') as H2. simpl in H2.
  assert (delete i (alter (with_group_of sub) i l) = delete i l) as Hd; [|rewrite Hd in H2; repeat case_decide; lia].
  by rewrite !delete_take_drop, take_alter_ge, drop_alter_lt by lia.
Qed.

Lemma counts_resub g i s sub : counts_ok g → isRaidGroup g = true → m_memberSlots g !! i = Some s →
  0 <= sub < MAX_RAID_SUBGROUPS → Z.of_nat (in_subgroup g sub) < MAXGROUPSIZE → slot_group s ≠ sub →
  counts_ok (resub i sub (slot_group s) g).
Proof.
  intros Hc Hraid Hi Hsub Hroom Hprev. set (g' := resub i sub (slot_group s) g).
  destruct (counts_bounds g Hc) as [Hb Hs]. pose proof (Hs s (list_elem_of_lookup_2 _ _ _ Hi)) as Hrange.
  unfold counts_ok in *. assert (isRaidGroup g' = isRaidGroup g) as -> by done. rewrite Hraid in *.
  destruct Hc as (c & Hc & Hl & Hn & Hm).
  set (g1 := with_subGroupsCounts (adjust sub 1 (m_subGroupsCounts g))
               (with_memberSlots (m_memberSlots g ++ [with_group_of sub s]) g)).
  assert (∀ k, in_subgroup g1 k = (in_subgroup g k + if decide (k = sub) then 1 else 0)%nat) as H1.
  { intros k. change (in_subgroup g1 k) with (count_of k (m_memberSlots g ++ [with_group_of sub s])).
    rewrite count_of_app, count_of_one. simpl. unfold in_subgroup, count_of. repeat case_decide; congruence || lia. }
  assert (∀ k, (in_subgroup g' k + (if decide (k = slot_group s) then 1 else 0) = in_subgroup g1 k)%nat) as H2
    by (intros k; rewrite H1; by apply count_of_alter).
  destruct (counts_adjust g g1 sub 1 c) as (c1 & E1 & L1 & N1); try done.
  { intros k. rewrite H1. case_decide; lia. }
  { rewrite H1, decide_True by done. lia. }
  destruct (counts_adjust g1 g' (slot_group s) (-1) c1) as (c2 & E2 & L2 & N2); try done.
  { intros k. specialize (H2 k). case_decide; lia. }
  { specialize (H2 (slot_group s)). rewrite H1, !decide_True, decide_False in H2 by done. specialize (Hb _ Hrange). lia. }
  exists c2. split_and!; [done|done|done|]. intros x [j Hj]%list_elem_of_lookup. simpl in Hj.
  destruct (decide (j = i)) as [->|Hji].
  - rewrite list_lookup_alter_eq, Hi in Hj. by injection Hj as <-.
  - rewrite list_lookup_alter_ne in Hj by done. by eapply Hm, list_elem_of_lookup_2.
Qed.

Lemma ok_moved X w a p g i s sub : world_ok X w → groups w !! a = Some g → isRaidGroup g = true →
  m_memberSlots g !! i = Some s → slot_guid s = p → 0 <= sub < MAX_RAID_SUBGROUPS →
  Z.of_nat (in_subgroup g sub) < MAXGROUPSIZE → slot_group s ≠ sub →
  world_ok X (moved a p i sub (slot_group s) w).
Proof.
  intros Hw Ha Hraid Hi Hsp Hsub Hroom Hprev. set (w' := moved a p i sub (slot_group s) w).
  set (g' := resub i sub (slot_group s) g). pose proof Hw as [Hg Hp _ _ _ _]. pose proof (Hg a g Ha) as Hok.
  assert (guids g' = guids g) as Hgu by (unfold guids; simpl; by apply list_fmap_alter_same).
  assert (p ∈ guids g) as Hin by (rewrite <- Hsp; by eapply elem_of_guids, list_elem_of_lookup_2).
  assert (∀ q, q ≠ p → online w' !! q = online w !! q) as Hon by (intros; unfold w', moved; by rewrite p_upd_lookup_ne).
  assert (∀ b h, groups w !! b = Some h → ∃ h', groups w' !! b = Some h' ∧ guids h' = guids h ∧
    m_memberMgr h' = m_memberMgr h ∧ m_invitees h' = m_invitees h ∧ m_dbStoreId h' = m_dbStoreId h ∧
    m_guid h' = m_guid h) as Hk.
  { intros b h Hb. simpl. destruct (decide (b = a)) as [->|Hba].
    - rewrite lookup_alter_eq, Ha. assert (h = g) as -> by congruence. by exists g'.
    - rewrite lookup_alter_ne by done. by exists h. }
  apply (ok_change X w); try done.
  - intros b h [(-> & g1 & Hg1 & ->)|(Hba & Hb)]%lookup_alter_Some.
    + assert (g1 = g) as -> by congruence. change (group_ok X w' a g').
      destruct Hok as [Hnd Hbg Hc Hr Hic Hrn Hrefs Hmem Hinv Hnew Hlive]. split; try done.
      * by rewrite Hgu.
      * by apply counts_resub.
      * intros q o Hq. destruct (Hrefs q o Hq) as [-> (ql & Hql & Htq)]. split; [done|].
        destruct (decide (q = p)) as [->|Hqp]; [|exists ql; by rewrite Hon].
        eexists. split; [by apply p_upd_lookup|done].
      * intros s' [j Hj]%list_elem_of_lookup. simpl in Hj. destruct (decide (j = i)) as [->|Hji].
        -- rewrite list_lookup_alter_eq, Hi in Hj. injection Hj as <-. simpl slot_guid. simpl slot_group. rewrite Hsp.
           destruct (Hmem s (list_elem_of_lookup_2 _ _ _ Hi)) as [H1 H2]. rewrite Hsp in H1, H2. split; [done|].
           intros pl'. simpl. rewrite lookup_alter_eq. intros (pl & Hpl & ->)%fmap_Some. simpl. by rewrite (H2 pl Hpl).
        -- rewrite list_lookup_alter_ne in Hj by done.
           assert (slot_guid s' ≠ p) as Hne.
           { intros He. apply Hji. apply (NoDup_lookup (guids g) j i p); [apply Hnd|..]; unfold guids; rewrite list_lookup_fmap.
             - rewrite Hj. simpl. by rewrite He.
             - rewrite Hi. simpl. by rewrite Hsp. }
           destruct (Hmem s' (list_elem_of_lookup_2 _ _ _ Hj)) as [H1 H2]. split; [done|].
           intros pl'. rewrite Hon by done. apply H2.
      * intros q Hq. destruct (Hinv q Hq) as (ql & Hql & Hqi). destruct (decide (q = p)) as [->|Hqp].
        -- eexists. split; [by apply p_upd_lookup|done].
        -- exists ql. by rewrite Hon.
      * simpl. intros Hn. exfalso. assert (m_memberSlots g = []) as Hn0; [|rewrite Hn0 in Hi; done].
        apply nil_length_inv. pose proof (f_equal length Hn) as Hlen. by rewrite length_alter in Hlen.
      * rewrite Hgu. intros _. apply Hlive. intros Hn0. by rewrite Hn0 in Hi.
    + apply (group_ok_other X w w' p); [by apply Hg| | |by eapply (leaver_not_invited X w Hw a p g Ha i s Hi Hsp)|done|done|done].
      * by apply (leaver_other X w Hw a p g Ha i s Hi Hsp b h Hba).
      * by apply (leaver_other X w Hw a p g Ha i s Hi Hsp b h Hba).
  - intros q ql [(-> & pl & Hpl & ->)|(Hqp & Hq)]%lookup_alter_Some.
    + destruct (Hp p pl Hpl) as [H1 H2 H3]. split; [|done|].
      * intros b Hb. simpl in Hb. destruct (H1 b Hb) as (h & Hh & ? & ?). destruct (Hk b h Hh) as (h' & Hh' & E1 & E2 & _).
        exists h'. by rewrite E1, E2.
      * intros b Hb. simpl in Hb. destruct (H3 b Hb) as (Ht & h & Hh & ?). destruct (Hk b h Hh) as (h' & Hh' & _ & _ & E3 & _).
        split; [done|]. exists h'. by rewrite E3.
    + apply (player_ok_frame w); [by apply Hp| |]; intros b h Hb;
        destruct (Hk b h Hb) as (h' & Hh' & E1 & E2 & E3 & _); intros; exists h'; by rewrite ?E1, ?E2, ?E3.
  - intros b h Hb. destruct (Hk b h Hb) as (h' & ? & ? & _ & _ & ? & ?). eauto.
Qed.

(** ** A player leaves the server, or enters it *)

Definition departed (p : Z) (t : option Z) (w : World) : World :=
  with_online (delete p (online w))
    (match t with Some a => g_upd a (λ g, with_memberMgr (filter (λ x, x ≠ (p, false)) (m_memberMgr g)) g) w | None => w end).

Lemma ok_departed X w p pl : world_ok X w → online w !! p = Some pl → m_groupInvite pl = None →
  world_ok X (departed p (target (m_group pl)) w).
Proof.
  intros Hw Hpl Hinv. set (w' := departed p (target (m_group pl)) w). pose proof Hw as [Hg Hp _ _ _ _].
  assert (online w' = delete p (online w)) as Hon by (unfold w', departed; by destruct (target (m_group pl))).
  assert (∀ b, groups w' !! b =
    (λ g, if decide (target (m_group pl) = Some b) then with_memberMgr (filter (λ x, x ≠ (p, false)) (m_memberMgr g)) g else g)
      <$> groups w !! b) as Hgr.
  { intros b. unfold w', departed. destruct (target (m_group pl)) as [a|].
    - simpl. destruct (decide (b = a)) as [->|Hba]; [rewrite lookup_alter_eq|rewrite lookup_alter_ne by done];
        destruct (groups w !! _); simpl; [|done| |done]; case_decide; congruence.
    - simpl. by destruct (groups w !! b). }
  assert (∀ b h h', groups w !! b = Some h → groups w' !! b = Some h' →
    m_memberSlots h' = m_memberSlots h ∧ m_invitees h' = m_invitees h ∧
    m_memberMgr h' = filter (λ x, x ≠ (p, false)) (m_memberMgr h) ∧ m_dbStoreId h' = m_dbStoreId h ∧
    m_guid h' = m_guid h) as Hk.
  { intros b h h' Hb. rewrite Hgr, Hb. simpl. intros [= <-]. case_decide as Ht; split_and!; try done.
    symmetry. apply filter_all. intros x Hx ->. apply Ht. by eapply (ref_target X w Hw b h p false). }
  apply (ok_change X w); try (by unfold w', departed; destruct (target (m_group pl))).
  - intros b h'. rewrite Hgr. intros (h & Hb & ->)%fmap_Some.
    assert (group_ok X w' b (with_memberMgr (filter (λ x, x ≠ (p, false)) (m_memberMgr h)) h)) as Hok.
    { destruct (Hg b h Hb) as [Hnd Hbg Hc Hr Hic Hrn Hrefs Hmem Hin Hnew Hlive].
      split; try done; try (by unfold w', departed; destruct (target (m_group pl))).
      - by apply NoDup_filter.
      - intros q o [Hq Hin']%list_elem_of_filter. destruct (Hrefs q o Hin') as [-> (ql & Hql & Htq)]. split; [done|].
        exists ql. rewrite Hon, lookup_delete_ne; [done|]. intros <-. by apply Hq.
      - intros s Hs. destruct (Hmem s Hs) as [H1 H2]. split; [by unfold w', departed; destruct (target (m_group pl))|].
        intros ql. rewrite Hon. intros [_ Hql]%lookup_delete_Some. by apply H2.
      - intros q Hq. destruct (Hin q Hq) as (ql & Hql & Hqi). exists ql. rewrite Hon, lookup_delete_ne; [done|].
        intros <-. congruence. }
    case_decide as Ht; [done|]. rewrite filter_all in Hok; [by destruct h|]. intros x Hx ->. apply Ht.
    by eapply (ref_target X w Hw b h p false).
  - intros q ql. rewrite Hon. intros [Hqp Hq]%lookup_delete_Some. apply (player_ok_frame w); [by apply Hp| |];
      intros b h Hb Ht; rewrite Hgr, Hb; simpl; intros; (eexists; split; [done|]);
      case_decide; simpl; try done. split; [done|]. apply list_elem_of_filter. split; [congruence|done].
  - intros b h Hb. assert (is_Some (groups w' !! b)) as [h' Hh'] by (rewrite Hgr, Hb; by eexists).
    exists h'. destruct (Hk b h h' Hb Hh') as (E1 & _ & _ & E4 & E5). unfold guids. by rewrite E1.
Qed.

Definition arrived (p : Z) (pl : Player) (t : option Z) (w : World) : World :=
  with_online (<[p := pl]> (online w))
    (match t with Some a => g_upd a (λ g, with_memberMgr ((p, false) :: m_memberMgr g) g) w | None => w end).

Lemma ok_arrived X w p pl : world_ok X w → online w !! p = None → m_groupInvite pl = None →
  target (m_originalGroup pl) = None →
  (match target (m_group pl) with
   | None => group_member w !! p = None
   | Some a => ∃ g s, groups w !! a = Some g ∧ s ∈ m_memberSlots g ∧ slot_guid s = p ∧ m_group pl = mkRef (Some a) (slot_group s)
   end) → world_ok X (arrived p pl (target (m_group pl)) w).
Proof.
  intros Hw Hoff Hinv Horig Ht. set (w' := arrived p pl (target (m_group pl)) w). pose proof Hw as [Hg Hp _ _ _ _].
  assert (online w' = <[p := pl]> (online w)) as Hon by (unfold w', arrived; by destruct (target (m_group pl))).
  assert (group_member w' = group_member w) as Htabw by (unfold w', arrived; by destruct (target (m_group pl))).
  assert (∀ q, q ≠ p → online w' !! q = online w !! q) as Hne by (intros; by rewrite Hon, lookup_insert_ne).
  assert (∀ b h o, groups w !! b = Some h → (p, o) ∉ m_memberMgr h) as Hnref.
  { intros b h o Hb Hin. destruct (go_refs X w b h (Hg b h Hb) p o Hin) as (_ & pl' & ? & _). congruence. }
  assert (∀ b h, groups w !! b = Some h → p ∉ m_invitees h) as Hninv.
  { intros b h Hb Hin. destruct (go_invites X w b h (Hg b h Hb) p Hin) as (pl' & ? & _). congruence. }
  assert (∀ b h, groups w !! b = Some h → p ∈ guids h ↔ target (m_group pl) = Some b) as Hmem.
  { intros b h Hb. destruct (target (m_group pl)) as [a|].
    - destruct Ht as (g & s & Ha & Hs & Hsp & _). assert (p ∈ guids g) as Hin by (rewrite <- Hsp; by apply elem_of_guids).
      split; [intros Hin'; f_equal; by apply (member_unique X w Hw a g b h p)|]. intros [= <-]. congruence.
    - split; [|done]. intros Hin. pose proof (member_row X w Hw b h p Hb Hin). congruence. }
  assert (∀ b, groups w' !! b =
    (λ g, if decide (target (m_group pl) = Some b) then with_memberMgr ((p, false) :: m_memberMgr g) g else g)
      <$> groups w !! b) as Hgr.
  { intros b. unfold w', arrived. destruct (target (m_group pl)) as [a|].
    - clear Ht Hmem. simpl. destruct (decide (b = a)) as [->|Hba]; [rewrite lookup_alter_eq|rewrite lookup_alter_ne by done];
        destruct (groups w !! _); simpl; try done; case_decide; congruence.
    - simpl. by destruct (groups w !! b). }
  apply (ok_change X w); try (by unfold w', arrived; destruct (target (m_group pl))).
  - intros b h'. rewrite Hgr. intros (h & Hb & ->)%fmap_Some. specialize (Hmem b h Hb). case_decide as Htb.
    + rewrite Htb in Ht. destruct Ht as (g & s & Ha & Hs & Hsp & Hm). assert (g = h) as -> by congruence.
      destruct (Hg b h Hb) as [Hnd Hbg Hc Hr Hic Hrn Hrefs Hmem' Hin Hnew Hlive].
      split; try done; try (by unfold w', arrived; destruct (target (m_group pl))).
      * apply NoDup_cons. split; [by apply (Hnref b)|done].
      * intros q o [[= -> ->]|Hq]%elem_of_cons.
        -- split; [done|]. exists pl. by rewrite Hon, lookup_insert_eq.
        -- destruct (Hrefs q o Hq) as [-> (ql & Hql & Htq)]. split; [done|]. exists ql. rewrite Hne; [done|].
           intros ->. by apply (Hnref b h false).
      * intros s' Hs'. destruct (Hmem' s' Hs') as [H1 H2]. split; [by rewrite Htabw|].
        intros ql. rewrite Hon. intros [[Heq <-]|[Hq Hql]]%lookup_insert_Some; [|by apply H2].
        rewrite Hm. f_equal. assert (s = s') as ->; [|done]. by apply (key_unique slot_guid (m_memberSlots h)); [..|congruence].
      * intros q Hq. destruct (Hin q Hq) as (ql & Hql & ?). exists ql. rewrite Hne; [done|]. intros ->. congruence.
    + assert (p ∉ guids h) by (rewrite Hmem; done).
      apply (group_ok_other X w w' p); [by apply Hg|done|by apply (Hnref b)|by apply (Hninv b)|done|..];
        by unfold w', arrived; destruct (target (m_group pl)).
  - intros q ql. rewrite Hon. intros [[<- <-]|[Hqp Hq]]%lookup_insert_Some.
    + split; [|done|by rewrite Hinv]. intros b Hb. rewrite Hb in Ht. destruct Ht as (g & s & Ha & Hs & Hsp & _).
      eexists. rewrite Hgr, Ha. simpl. split; [done|]. rewrite decide_True by done. split; [|by left].
      change (p ∈ guids g). rewrite <- Hsp. by apply elem_of_guids.
    + apply (player_ok_frame w); [by apply Hp| |]; intros b h Hb Htq; rewrite Hgr, Hb; simpl; intros;
        (eexists; split; [done|]); case_decide; simpl; try done. split; [done|]. by right.
  - intros b h Hb. rewrite Hgr, Hb. simpl. eexists. split; [done|]. by case_decide.
Qed.
