(* ===== verification/GroupRun.v ===== *)
(** * GroupRun: how the operations of groups move the core of the world

    Two worlds with the same core are equivalent. [leads W p Q] is total correctness up to
    this equivalence: from every world like [W] the program returns, without a fault, an
    answer and a world as [Q] says; [moves W p x W'] when it answers [x] in a world like
    [W']. The rules follow the structure of a program; calm steps disappear. *)

From Stdlib Require Import ZArith Lia.
From S2P Require Import Prelude ByteBuffer Guid LootRoll LootRollFacts GroupData Group GroupFacts GroupInv GroupSteps GroupWorlds.
Local Open Scope Z_scope.

(** ** Equivalence *)

#[export] Instance group_equiv : Equiv Group := λ g g', gcore g = gcore g'.
#[export] Instance player_equiv : Equiv Player := λ pl pl', pcore pl = pcore pl'.
#[export] Instance world_equiv : Equiv World := λ w w', wcore w = wcore w'.

#[export] Instance group_equivalence : Equivalence (≡@{Group}).
Proof. split; unfold equiv, group_equiv; [by intros ?|by intros ??|]. intros ??? H1 H2. by rewrite H1. Qed.
#[export] Instance player_equivalence : Equivalence (≡@{Player}).
Proof. split; unfold equiv, player_equiv; [by intros ?|by intros ??|]. intros ??? H1 H2. by rewrite H1. Qed.
#[export] Instance world_equivalence : Equivalence (≡@{World}).
Proof. split; unfold equiv, world_equiv; [by intros ?|by intros ??|]. intros ??? H1 H2. by rewrite H1. Qed.

Ltac by_core := let H := fresh in intros ? ? H; by injection H.

#[export] Instance memberMgr_proper : Proper ((≡) ==> (=)) m_memberMgr. Proof. by_core. Qed.
#[export] Instance invitees_proper : Proper ((≡) ==> (=)) m_invitees. Proof. by_core. Qed.
#[export] Instance leaderGuid_proper : Proper ((≡) ==> (=)) m_leaderGuid. Proof. by_core. Qed.
#[export] Instance groupType_proper : Proper ((≡) ==> (=)) m_groupType. Proof. by_core. Qed.
#[export] Instance bgGroup_proper : Proper ((≡) ==> (=)) m_bgGroup. Proof. by_core. Qed.
#[export] Instance rolls_proper : Proper ((≡) ==> (=)) m_rolls. Proof. by_core. Qed.
#[export] Instance counts_proper : Proper ((≡) ==> (=)) m_subGroupsCounts. Proof. by_core. Qed.
#[export] Instance guid_proper : Proper ((≡) ==> (=)) m_guid. Proof. by_core. Qed.
#[export] Instance dbStoreId_proper : Proper ((≡) ==> (=)) m_dbStoreId. Proof. by_core. Qed.
#[export] Instance group_proper : Proper ((≡) ==> (=)) m_group. Proof. by_core. Qed.
#[export] Instance originalGroup_proper : Proper ((≡) ==> (=)) m_originalGroup. Proof. by_core. Qed.
#[export] Instance groupInvite_proper : Proper ((≡) ==> (=)) m_groupInvite. Proof. by_core. Qed.
#[export] Instance guids_proper : Proper ((≡) ==> (=)) guids.
Proof. intros g g' H. unfold equiv, group_equiv in H. rewrite <- (guids_core g), <- (guids_core g'). by rewrite H. Qed.
#[export] Instance slots_nil_proper : Proper ((≡) ==> (=)) (λ g, length (m_memberSlots g)).
Proof. intros g g' H. injection H as H _. apply (f_equal length) in H. by rewrite !length_fmap in H. Qed.

#[export] Instance isRaidGroup_proper : Proper ((≡) ==> (=)) isRaidGroup.
Proof. intros g g' H. unfold isRaidGroup. by rewrite H. Qed.
#[export] Instance isBGGroup_proper : Proper ((≡) ==> (=)) isBGGroup.
Proof. intros g g' H. unfold isBGGroup. by rewrite (bgGroup_proper _ _ H). Qed.
#[export] Instance GetMembersCount_proper : Proper ((≡) ==> (=)) GetMembersCount.
Proof. intros g g' H. unfold GetMembersCount. by rewrite (slots_nil_proper _ _ H). Qed.
#[export] Instance IsCreated_proper : Proper ((≡) ==> (=)) IsCreated.
Proof. intros g g' H. unfold IsCreated. by rewrite H. Qed.
#[export] Instance IsFull_proper : Proper ((≡) ==> (=)) IsFull.
Proof. intros g g' H. unfold IsFull. rewrite (slots_nil_proper _ _ H), (isRaidGroup_proper _ _ H). done. Qed.
#[export] Instance IsLeader_proper : Proper ((≡) ==> (=) ==> (=)) IsLeader.
Proof. intros g g' H p _ <-. unfold IsLeader. by rewrite H. Qed.
#[export] Instance GetGroup_proper : Proper ((≡) ==> (=)) GetGroup.
Proof. intros g g' H. unfold GetGroup. by rewrite H. Qed.
#[export] Instance GetOriginalGroup_proper : Proper ((≡) ==> (=)) GetOriginalGroup.
Proof. intros g g' H. unfold GetOriginalGroup. by rewrite H. Qed.
#[export] Instance new_subgroup_proper : Proper ((≡) ==> (=)) new_subgroup.
Proof. intros g g' H. unfold new_subgroup. by rewrite H. Qed.

#[export] Instance world_ok_proper X : Proper ((≡) ==> iff) (world_ok X).
Proof. intros w w' H. split; by apply world_ok_same. Qed.

#[export] Instance fit_proper a : Proper ((≡) ==> iff) (fit a).
Proof. intros w w' H. split; by apply fit_core. Qed.

Section Lookups.
Context (w w' : World) (H : w ≡ w').

Lemma equiv_groups : gcore <$> groups w = gcore <$> groups w'.
Proof. by injection H. Qed.
Lemma equiv_online : pcore <$> online w = pcore <$> online w'.
Proof. by injection H. Qed.
Lemma equiv_rest : GroupStore w = GroupStore w' ∧ GroupDbStore w = GroupDbStore w' ∧
  NextGroupDbStoreId w = NextGroupDbStoreId w' ∧ NextGroupId w = NextGroupId w' ∧ group_member w = group_member w'.
Proof. by injection H. Qed.

Lemma equiv_group a g : groups w' !! a = Some g → ∃ g', groups w !! a = Some g' ∧ g' ≡ g.
Proof.
  intros Ha. pose proof (f_equal (lookup a) equiv_groups) as E. rewrite !lookup_fmap, Ha in E.
  apply fmap_Some in E as (g' & ? & ?). by exists g'.
Qed.
Lemma equiv_player p : match online w' !! p with
  | Some pl => ∃ pl', online w !! p = Some pl' ∧ pl' ≡ pl
  | None => online w !! p = None
  end.
Proof.
  pose proof (f_equal (lookup p) equiv_online) as E. rewrite !lookup_fmap in E.
  destruct (online w' !! p) as [pl|]; simpl in E.
  - apply fmap_Some in E as (pl' & ? & ?). by exists pl'.
  - by apply fmap_None in E.
Qed.

End Lookups.

Lemma world_ext w w' : (∀ a, gcore <$> groups w !! a = gcore <$> groups w' !! a) →
  (∀ p, pcore <$> online w !! p = pcore <$> online w' !! p) → GroupStore w = GroupStore w' →
  GroupDbStore w = GroupDbStore w' → NextGroupDbStoreId w = NextGroupDbStoreId w' →
  NextGroupId w = NextGroupId w' → group_member w = group_member w' → w ≡ w'.
Proof.
  intros Hg Hp H1 H2 H3 H4 H5. unfold equiv, world_equiv, wcore. rewrite H1, H2, H3, H4, H5. f_equal;
    apply map_eq; intros i; by rewrite !lookup_fmap.
Qed.

(** ** Programs up to equivalence *)

Definition leads {A} (W : World) (p : gw A) (Q : A → World → Prop) : Prop :=
  ∀ w, w ≡ W → ∃ x w', p w = (Ret x, w') ∧ Q x w'.

Definition moves {A} (W : World) (p : gw A) (x : A) (W' : World) : Prop :=
  leads W p (λ y w', y = x ∧ w' ≡ W').

#[export] Instance leads_proper {A} : Proper ((≡) ==> (=) ==> (=) ==> iff) (@leads A).
Proof. intros W W' HW p _ <- Q _ <-. unfold leads. by setoid_rewrite HW. Qed.

#[export] Instance moves_proper {A} : Proper ((≡) ==> (=) ==> (=) ==> (≡) ==> iff) (@moves A).
Proof.
  intros W W' HW p _ <- x _ <- V V' HV. unfold moves, leads. setoid_rewrite HW. by setoid_rewrite HV.
Qed.

Lemma leads_conseq {A} W (p : gw A) (Q Q' : A → World → Prop) : leads W p Q → (∀ x w, Q x w → Q' x w) → leads W p Q'.
Proof. intros Hp HQ w Hw. destruct (Hp w Hw) as (x & w' & E & H). eauto. Qed.

Lemma leads_at {A} W W' (p : gw A) Q : W ≡ W' → leads W' p Q → leads W p Q.
Proof. intros H Hp w Hw. apply Hp. by rewrite Hw. Qed.

Lemma leads_run {A} W (p : gw A) Q : leads W p Q → ∃ x w', p W = (Ret x, w') ∧ Q x w'.
Proof. intros H. by apply H. Qed.

Section Rules.
Context {A : Type}.
Implicit Types (W : World) (Q : A → World → Prop).

Lemma leads_bind {B} W (m : gw B) (k : B → gw A) (R : B → World → Prop) Q :
  leads W m R → (∀ x w, R x w → leads w (k x) Q) → leads W (m ≫= k) Q.
Proof.
  intros Hm Hk w Hw. destruct (Hm w Hw) as (x & w1 & E & HR). destruct (Hk x w1 HR w1 eq_refl) as (y & w2 & E2 & HQ).
  exists y, w2. by erewrite bind_ret_run.
Qed.

Lemma leads_moves {B} W W' (m : gw B) x (k : B → gw A) Q : moves W m x W' → leads W' (k x) Q → leads W (m ≫= k) Q.
Proof. intros Hm Hk. eapply leads_bind; [exact Hm|]. intros y w [-> Hw]. by rewrite Hw. Qed.

Lemma leads_assoc {B C} W (m : gw B) (k : B → gw C) (k' : C → gw A) Q :
  leads W (m ≫= λ x, k x ≫= k') Q → leads W ((m ≫= k) ≫= k') Q.
Proof.
  intros H w Hw. destruct (H w Hw) as (x & w' & E & HQ). exists x, w'. split; [|done]. rewrite <- E.
  unfold mbind, prog_bind. by destruct (m w) as [[y|e] w1].
Qed.

Lemma leads_ret W (x : A) Q : (∀ w, w ≡ W → Q x w) → leads W (mret x) Q.
Proof. intros H w Hw. exists x, w. auto. Qed.

Lemma leads_ret_bind {B} W (x : B) (k : B → gw A) Q : leads W (k x) Q → leads W (mret x ≫= k) Q.
Proof. done. Qed.

Lemma leads_emit W e (k : gw A) Q : leads W k Q → leads W (gemit e;; k) Q.
Proof. intros H w Hw. apply (H (with_gsent (gsent w ++ [e]) w)). exact Hw. Qed.

Lemma leads_calm a W p (k : gw A) Q : Calm a p → fit a W → leads W k Q → leads W (p;; k) Q.
Proof.
  intros Hp Hfit Hk w Hw. rewrite <- Hw in Hfit. destruct (Hp w Hfit) as (w1 & E & C).
  destruct (Hk w1) as (x & w2 & E2 & HQ); [by rewrite <- Hw|]. exists x, w2. by erewrite bind_ret_run.
Qed.

Lemma leads_deref W a g (k : Group → gw A) Q : groups W !! a = Some g →
  (∀ g', g' ≡ g → leads W (k g') Q) → leads W (deref a ≫= k) Q.
Proof.
  intros Ha Hk w Hw. destruct (equiv_group w W Hw a g Ha) as (g' & Hg' & He).
  destruct (Hk g' He w Hw) as (x & w' & E & HQ). exists x, w'. split; [|done].
  by erewrite bind_ret_run by by apply deref_group_run.
Qed.

Lemma leads_player W p pl (k : Player → gw A) Q : online W !! p = Some pl →
  (∀ pl', pl' ≡ pl → leads W (k pl') Q) → leads W (player_at p ≫= k) Q.
Proof.
  intros Hp Hk w Hw. pose proof (equiv_player w W Hw p) as Hpl. rewrite Hp in Hpl. destruct Hpl as (pl' & Hpl' & He).
  destruct (Hk pl' He w Hw) as (x & w' & E & HQ). exists x, w'. split; [|done].
  by erewrite bind_ret_run by by apply player_at_run.
Qed.

Lemma leads_gets {B} W (f : World → B) (k : B → gw A) Q : (∀ w, w ≡ W → leads W (k (f w)) Q) → leads W (gets f ≫= k) Q.
Proof. intros Hk w Hw. destruct (Hk w Hw w Hw) as (x & w' & E & HQ). exists x, w'. by erewrite bind_ret_run. Qed.

Lemma leads_find W p (k : option Player → gw A) Q :
  (∀ pl pl', online W !! p = Some pl → pl' ≡ pl → leads W (k (Some pl')) Q) →
  (online W !! p = None → leads W (k None) Q) → leads W (FindPlayer p ≫= k) Q.
Proof.
  intros H1 H2. apply leads_gets. intros w Hw. pose proof (equiv_player w W Hw p) as Hpl.
  destruct (online W !! p) as [pl|]; [|rewrite Hpl; by apply H2]. destruct Hpl as (pl' & -> & He). by eapply H1.
Qed.

Lemma leads_modify W f (k : gw A) Q : Proper ((≡) ==> (≡)) f → leads (f W) k Q → leads W (modify f;; k) Q.
Proof.
  intros Hf Hk w Hw. destruct (Hk (f w)) as (x & w' & E & HQ); [by apply Hf|]. exists x, w'. by erewrite bind_ret_run.
Qed.

Lemma leads_assert W (b : bool) (k : gw A) Q : b = true → leads W k Q → leads W (assert_ b;; k) Q.
Proof. intros -> H. exact H. Qed.

End Rules.

(** ** Elementary updates *)

Ltac core_map := let H := fresh in
  intros ? ? H; clear - H; unfold equiv, group_equiv, player_equiv, gcore, pcore in *; injection H; clear H; intros;
  simpl in *; f_equal; first [assumption | reflexivity | unfold blank; f_equal; assumption | rewrite ?fmap_app; congruence].

#[export] Hint Extern 0 (Proper ((≡@{Group}) ==> (≡@{Group})) _) => solve [core_map] : typeclass_instances.
#[export] Hint Extern 0 (Proper ((≡@{Player}) ==> (≡@{Player})) _) => solve [core_map] : typeclass_instances.

Lemma fmap_alter_proper {A B} (h : A → B) (f : A → A) (m m' : gmap Z A) a :
  (∀ x y, h x = h y → h (f x) = h (f y)) → h <$> m = h <$> m' → h <$> alter f a m = h <$> alter f a m'.
Proof.
  intros Hf Hm. apply map_eq. intros b. pose proof (f_equal (lookup b) Hm) as Hb. rewrite !lookup_fmap in *.
  destruct (decide (b = a)) as [->|Hba]; [rewrite !lookup_alter_eq|by rewrite !lookup_alter_ne].
  destruct (m !! a) as [x|], (m' !! a) as [y|]; simpl in *; try done. f_equal. apply Hf. congruence.
Qed.

#[export] Instance g_upd_proper a f : Proper ((≡) ==> (≡)) f → Proper ((≡) ==> (≡)) (g_upd a f).
Proof.
  intros Hf w w' H. pose proof (equiv_groups w w' H) as Hg. unfold equiv, world_equiv, wcore in *. injection H; intros.
  simpl. f_equal; try congruence. by apply fmap_alter_proper.
Qed.
#[export] Instance p_upd_proper p f : Proper ((≡) ==> (≡)) f → Proper ((≡) ==> (≡)) (p_upd p f).
Proof.
  intros Hf w w' H. pose proof (equiv_online w w' H) as Hg. unfold equiv, world_equiv, wcore in *. injection H; intros.
  simpl. f_equal; try congruence. by apply fmap_alter_proper.
Qed.

Lemma g_upd_change a f f' w : (∀ g, groups w !! a = Some g → f g ≡ f' g) → g_upd a f w ≡ g_upd a f' w.
Proof.
  intros H. apply world_ext; try done. intros b. simpl. destruct (decide (b = a)) as [->|Hba].
  - rewrite !lookup_alter_eq. destruct (groups w !! a) as [g|]; [|done]. simpl. f_equal. by apply H.
  - by rewrite !lookup_alter_ne.
Qed.
Lemma p_upd_change p f f' w : (∀ pl, online w !! p = Some pl → f pl ≡ f' pl) → p_upd p f w ≡ p_upd p f' w.
Proof.
  intros H. apply world_ext; try done. intros b. simpl. destruct (decide (b = p)) as [->|Hba].
  - rewrite !lookup_alter_eq. destruct (online w !! p) as [pl|]; [|done]. simpl. f_equal. by apply H.
  - by rewrite !lookup_alter_ne.
Qed.
Lemma g_upd_same a f w : (∀ g, groups w !! a = Some g → f g ≡ g) → g_upd a f w ≡ w.
Proof.
  intros H. rewrite (g_upd_change a f id w H). apply world_ext; try done. intros b. simpl.
  destruct (decide (b = a)) as [->|Hba]; [rewrite lookup_alter_eq; by destruct (groups w !! a)|by rewrite lookup_alter_ne].
Qed.
Lemma p_upd_same p f w : (∀ pl, online w !! p = Some pl → f pl ≡ pl) → p_upd p f w ≡ w.
Proof.
  intros H. rewrite (p_upd_change p f id w H). apply world_ext; try done. intros b. simpl.
  destruct (decide (b = p)) as [->|Hba]; [rewrite lookup_alter_eq; by destruct (online w !! p)|by rewrite lookup_alter_ne].
Qed.
Lemma g_g_upd a f f' w : g_upd a f (g_upd a f' w) = g_upd a (f ∘ f') w.
Proof. unfold g_upd. simpl. by rewrite alter_alter_eq. Qed.
Lemma p_p_upd p f f' w : p_upd p f (p_upd p f' w) = p_upd p (f ∘ f') w.
Proof. unfold p_upd. simpl. by rewrite alter_alter_eq. Qed.

(** Settings are not part of the core. *)
Lemma settings_same a f w g : groups w !! a = Some g → length (m_targetIcons (settings g)) = 8%nat → KeepsIcons f →
  g_upd a (λ g, with_settings (f (settings g)) g) w ≡ w.
Proof.
  intros Ha Hl Hf. apply g_upd_same. intros g1 Hg1. assert (g1 = g) as -> by congruence.
  unfold equiv, group_equiv, gcore. simpl. by rewrite Hl, (keeps_icons _ Hl).
Qed.


(** The icons of every group stay an array of eight: what settings need. *)
Definition icons_ok (W : World) : Prop := ∀ b g, groups W !! b = Some g → length (m_targetIcons (settings g)) = 8%nat.

Lemma icons_g_upd W a f : (∀ g, m_targetIcons (settings (f g)) = m_targetIcons (settings g)) → icons_ok W → icons_ok (g_upd a f W).
Proof. intros Hf Hi b h [(-> & h' & Hh & ->)|(_ & Hb)]%lookup_alter_Some; [rewrite Hf|]; by eapply Hi. Qed.

Section Updates.
Context {A : Type}.
Implicit Types (W : World) (Q : A → World → Prop).

Lemma leads_upd_group W a f (k : gw A) Q : Proper ((≡) ==> (≡)) f → leads (g_upd a f W) k Q → leads W (upd_group a f;; k) Q.
Proof. intros Hf Hk. apply leads_modify; [by apply g_upd_proper|exact Hk]. Qed.
Lemma leads_upd_player W p f (k : gw A) Q : Proper ((≡) ==> (≡)) f → leads (p_upd p f W) k Q → leads W (upd_player p f;; k) Q.
Proof. intros Hf Hk. apply leads_modify; [by apply p_upd_proper|exact Hk]. Qed.

Lemma leads_settings W a f (k : gw A) Q : KeepsIcons f → icons_ok W → leads W k Q → leads W (upd_settings a f;; k) Q.
Proof.
  intros Hf Hi Hk w Hw. destruct (Hk (g_upd a (λ g, with_settings (f (settings g)) g) w)) as (x & w' & E & HQ).
  - transitivity w; [|done]. destruct (groups w !! a) as [g|] eqn:Ha.
    + apply (settings_same a f w g Ha); [|done]. destruct (equiv_group W w (symmetry Hw) a g Ha) as (g' & Hg' & He).
      apply Hi in Hg'. unfold equiv, group_equiv in He. apply (f_equal (λ g, length (m_targetIcons (settings g)))) in He.
      simpl in He. rewrite !length_replicate in He. congruence.
    + apply g_upd_same. congruence.
  - exists x, w'. split; [|done]. exact E.
Qed.

Lemma leads_ret_unit W (k : gw A) Q : leads W k Q → leads W (mret tt;; k) Q.
Proof. done. Qed.
End Updates.

Lemma moves_leads {A} W (p : gw A) x W' Q : moves W p x W' → (∀ w, w ≡ W' → Q x w) → leads W p Q.
Proof. intros Hp HQ. eapply leads_conseq; [exact Hp|]. intros y w [-> Hw]. by apply HQ. Qed.

Lemma moves_to {A} W (p : gw A) x W1 W2 : moves W p x W1 → W1 ≡ W2 → moves W p x W2.
Proof. intros Hp H. eapply moves_leads; [exact Hp|]. intros w Hw. split; [done|]. by rewrite Hw. Qed.

Lemma moves_ret {A} W (x : A) W' : W ≡ W' → moves W (mret x) x W'.
Proof. intros HW. apply leads_ret. intros w Hw. split; [done|]. by rewrite Hw. Qed.


Lemma moves_emit W e : moves W (gemit e) tt W.
Proof. intros w Hw. eexists _, _. split; [done|]. by split. Qed.

(** A program in last position, seen as followed by nothing. *)
Lemma leads_unit W (p : gw unit) Q : leads W (p;; mret tt) Q → leads W p Q.
Proof.
  intros H w Hw. destruct (H w Hw) as ([] & w' & E & HW). exists tt, w'. split; [|done]. rewrite <- E.
  unfold mbind, prog_bind, mret, prog_ret. by destruct (p w) as [[[]|]].
Qed.
