(* ===== verification/GroupBook.v ===== *)
(** * GroupBook: the parties of a world

    What the groups are for, without references, invitations, counters and ids: which
    parties there are, who leads them and who is in which sub-group. [party_step] is the
    abstract specification: the ways in which the book of parties may change. *)

From Stdlib Require Import ZArith Lia.
From S2P Require Import Prelude ByteBuffer Guid LootRoll GroupData Group GroupFacts GroupInv GroupSteps GroupWorlds GroupRun.
Local Open Scope Z_scope.

Record Party := mkParty { p_leader : Z; p_raid : bool; p_roster : list (Z * Z) }.

Definition p_members (P : Party) : list Z := (p_roster P).*1.
Definition p_count (sub : Z) (P : Party) : Z := Z.of_nat (length (filter (λ x, x.2 = sub) (p_roster P))).

(** A place for one more: a raid has eight sub-groups of five, a party is one. *)
Definition p_place (P : Party) (sub : Z) : Prop :=
  if p_raid P then 0 <= sub < 8 ∧ p_count sub P < 5 else sub = 0 ∧ (length (p_roster P) < 5)%nat.

Abbreviation book_t := (gmap Z Party).

Definition unbound (b : book_t) (p : Z) : Prop := ∀ a P, b !! a = Some P → p ∉ p_members P.

Definition enter (p sub : Z) (P : Party) : Party := mkParty (p_leader P) (p_raid P) (p_roster P ++ [(p, sub)]).
Definition quit (p leader : Z) (P : Party) : Party := mkParty leader (p_raid P) (filter (λ x, x.1 ≠ p) (p_roster P)).
Definition assign (p sub : Z) (P : Party) : Party :=
  mkParty (p_leader P) (p_raid P) ((λ x, if decide (x.1 = p) then (p, sub) else x) <$> p_roster P).

Inductive party_step : book_t → book_t → Prop :=
| Found b a p : b !! a = None → unbound b p → party_step b (<[a := mkParty p false [(p, 0)]]> b)
| Enter b a P p sub : b !! a = Some P → unbound b p → p_place P sub → party_step b (<[a := enter p sub P]> b)
| Quit b a P p leader : b !! a = Some P → p ∈ p_members P → leader ∈ p_members P → leader ≠ p →
    (p_leader P ≠ p → leader = p_leader P) → party_step b (<[a := quit p leader P]> b)
| Dissolve b a P : b !! a = Some P → party_step b (delete a b)
| Appoint b a P leader : b !! a = Some P → leader ∈ p_members P →
    party_step b (<[a := mkParty leader (p_raid P) (p_roster P)]> b)
| BecomeRaid b a P : b !! a = Some P → party_step b (<[a := mkParty (p_leader P) true (p_roster P)]> b)
| Assign b a P p sub : b !! a = Some P → p ∈ p_members P → p_raid P = true → p_place P sub →
    party_step b (<[a := assign p sub P]> b).

(** ** The book of a world *)

Definition roster (g : Group) : list (Z * Z) := (λ s, (slot_guid s, slot_group s)) <$> m_memberSlots g.

Definition party (g : Group) : option Party :=
  match m_memberSlots g with
  | [] => None
  | _ => Some (mkParty (m_leaderGuid g) (isRaidGroup g) (roster g))
  end.

Definition book (w : World) : book_t := omap party (groups w).

Lemma book_lookup w a : book w !! a = groups w !! a ≫= party.
Proof. apply lookup_omap. Qed.

#[export] Instance party_proper : Proper ((≡) ==> (=)) party.
Proof.
  intros g g' H. unfold party. pose proof H as H'. injection H' as Hs _ Hi Hl Ht. rewrite (isRaidGroup_proper _ _ H), Hl.
  assert (roster g = roster g') as ->.
  { assert (∀ h, roster h = (λ s, (slot_guid s, slot_group s)) <$> (strip_slot <$> m_memberSlots h)) as Hr
      by (intros h; unfold roster; by rewrite <- list_fmap_compose).
    by rewrite !Hr, Hs. }
  destruct (m_memberSlots g), (m_memberSlots g'); done.
Qed.

#[export] Instance book_proper : Proper ((≡) ==> (=)) book.
Proof.
  intros w w' H. apply map_eq. intros a. rewrite !book_lookup.
  destruct (groups w' !! a) as [g|] eqn:Ha.
  - destruct (equiv_group w w' H a g Ha) as (g' & -> & He). simpl. by rewrite He.
  - destruct (groups w !! a) as [g|] eqn:Hb; [|done]. destruct (equiv_group w' w (symmetry H) a g Hb) as (? & ? & _). congruence.
Qed.

Lemma party_Some g : m_memberSlots g ≠ [] → party g = Some (mkParty (m_leaderGuid g) (isRaidGroup g) (roster g)).
Proof. intros H. unfold party. by destruct (m_memberSlots g). Qed.

Lemma p_members_roster l r g : p_members (mkParty l r (roster g)) = guids g.
Proof. unfold p_members, roster. simpl. by rewrite <- list_fmap_compose. Qed.

Lemma p_count_roster l r g sub : p_count sub (mkParty l r (roster g)) = Z.of_nat (in_subgroup g sub).
Proof.
  unfold p_count, in_subgroup, roster. simpl. induction (m_memberSlots g) as [|s t IH]; [done|].
  rewrite fmap_cons, !filter_cons. simpl. destruct (decide (slot_group s = sub)); simpl; lia.
Qed.

(** A group that changes as the book says, or as it does not show. *)
Lemma book_g_upd a f w g : groups w !! a = Some g → m_memberSlots (f g) ≠ [] →
  book (g_upd a f w) = <[a := mkParty (m_leaderGuid (f g)) (isRaidGroup (f g)) (roster (f g))]> (book w).
Proof.
  intros Ha Hn. apply map_eq. intros b. rewrite book_lookup. destruct (decide (b = a)) as [->|Hb].
  - rewrite (g_upd_lookup a f w g Ha), lookup_insert_eq. by apply party_Some.
  - by rewrite g_upd_lookup_ne, lookup_insert_ne, book_lookup.
Qed.

Lemma book_g_upd_same a f w : (∀ g, groups w !! a = Some g → party (f g) = party g) → book (g_upd a f w) = book w.
Proof.
  intros Hf. apply map_eq. intros b. rewrite !book_lookup. destruct (decide (b = a)) as [->|Hb].
  - destruct (groups w !! a) as [g|] eqn:Ha.
    + rewrite (g_upd_lookup a f w g Ha). simpl. by apply Hf.
    + simpl. by rewrite lookup_alter_eq, Ha.
  - by rewrite g_upd_lookup_ne.
Qed.

Lemma book_of_group w a g : groups w !! a = Some g → m_memberSlots g ≠ [] →
  book w !! a = Some (mkParty (m_leaderGuid g) (isRaidGroup g) (roster g)).
Proof. intros Ha Hn. rewrite book_lookup, Ha. by apply party_Some. Qed.

Lemma book_inv w a P : book w !! a = Some P →
  ∃ g, groups w !! a = Some g ∧ m_memberSlots g ≠ [] ∧ P = mkParty (m_leaderGuid g) (isRaidGroup g) (roster g).
Proof.
  rewrite book_lookup. intros (g & Ha & Hg)%bind_Some. exists g. split; [done|]. unfold party in Hg.
  destruct (m_memberSlots g); [done|]. by injection Hg.
Qed.

(** Nobody's members are members of no party. *)
Lemma unbound_stranger X w p pl : world_ok X w → online w !! p = Some pl → target (m_group pl) = None → unbound (book w) p.
Proof.
  intros Hw Hpl Ht a P (g & Ha & _ & ->)%book_inv. rewrite p_members_roster. by apply (stranger_guids X w Hw p pl Hpl Ht a).
Qed.

(** ** The changes of worlds in the book *)

Lemma book_groups w w' : groups w' = groups w → book w' = book w.
Proof. unfold book. by intros ->. Qed.

Lemma book_joined a p sub w g : groups w !! a = Some g →
  book (joined a p sub w) = <[a := mkParty (m_leaderGuid g) (isRaidGroup g) (roster g ++ [(p, sub)])]> (book w).
Proof.
  intros Ha. transitivity (book (g_upd a (add_slot p sub) w)); [by apply book_groups|].
  rewrite (book_g_upd a _ w g Ha) by (simpl; intros Hn; by apply app_eq_nil in Hn as [_ ?]).
  unfold roster. simpl. by rewrite fmap_app.
Qed.

Lemma book_left a p i s l w g : groups w !! a = Some g → NoDup (guids g) → m_memberSlots g !! i = Some s → slot_guid s = p →
  (1 < length (m_memberSlots g))%nat → book (left_group a p i (slot_group s) l w) =
  <[a := mkParty (m_leaderGuid g) (isRaidGroup g) (filter (λ x, x.1 ≠ p) (roster g))]> (book w).
Proof.
  intros Ha Hnd Hi Hs Hlen.
  transitivity (book (g_upd a (with_rolls l ∘ remove_slot i p (slot_group s)) w)); [by apply book_groups|].
  assert (roster (with_rolls l (remove_slot i p (slot_group s) g)) = filter (λ x, x.1 ≠ p) (roster g)) as Hr.
  { unfold roster. simpl. clear Ha Hlen. revert i Hi Hnd. unfold guids. induction (m_memberSlots g) as [|t ts IH]; [done|].
    intros [|i] Hi [Hnin Hnd]%NoDup_cons; simpl in Hi.
    - injection Hi as ->. rewrite fmap_cons, filter_cons_False by (simpl; by intros Hx).
      change (delete 0%nat (s :: ts)) with ts. symmetry. apply filter_all. intros x (s' & -> & Hs')%list_elem_of_fmap Hx. simpl in Hx. apply Hnin.
      rewrite Hs, <- Hx. apply list_elem_of_fmap. by exists s'.
    - change (delete (S i) (t :: ts)) with (t :: delete i ts). rewrite !fmap_cons, filter_cons_True.
      + f_equal. by apply IH.
      + simpl. intros Ht. apply Hnin. rewrite Ht, <- Hs. apply list_elem_of_fmap. exists s. split; [done|].
        by eapply list_elem_of_lookup_2. }
  rewrite (book_g_upd a _ w g Ha), <- Hr; [done|]. simpl. intros Hn. apply (f_equal length) in Hn.
  rewrite length_delete in Hn by eauto. simpl in Hn. lia.
Qed.

Lemma book_erased a w : book (erased a w) = delete a (book w).
Proof.
  apply map_eq. intros b. rewrite book_lookup. simpl. destruct (decide (b = a)) as [->|Hb].
  - by rewrite !lookup_delete_eq.
  - by rewrite !lookup_delete_ne, book_lookup.
Qed.

Lemma book_dissolved a g w : book (dissolved a g w) = delete a (book w).
Proof. rewrite <- book_erased. by apply book_groups. Qed.

Lemma book_departed p t w : book (departed p t w) = book w.
Proof.
  unfold departed. destruct t as [a|]; [|by apply book_groups].
  rewrite <- (book_g_upd_same a (λ g, with_memberMgr (filter (λ x, x ≠ (p, false)) (m_memberMgr g)) g) w); [by apply book_groups|done].
Qed.

Lemma book_arrived p pl t w : book (arrived p pl t w) = book w.
Proof.
  unfold arrived. destruct t as [a|]; [|by apply book_groups].
  rewrite <- (book_g_upd_same a (λ g, with_memberMgr ((p, false) :: m_memberMgr g) g) w); [by apply book_groups|done].
Qed.

Lemma book_set_invites a p fi i w : book (set_invites a p fi i w) = book w.
Proof. etransitivity; [|by apply (book_g_upd_same a (λ g, with_invitees (fi (m_invitees g)) g) w)]. by apply book_groups. Qed.

Lemma book_opened a w : groups w !! a = None → book (opened a w) = book w.
Proof.
  intros Ha. apply map_eq. intros b. rewrite !book_lookup. simpl. destruct (decide (b = a)) as [->|Hb].
  - by rewrite lookup_insert_eq, Ha.
  - by rewrite lookup_insert_ne.
Qed.

Lemma book_registered a leader store next db w g : groups w !! a = Some g → m_memberSlots g = [] →
  book (registered a leader store next db w) = book w.
Proof.
  intros Ha Hn. etransitivity; [|apply (book_g_upd_same a (named leader (MAKE_NEW_GUID (NextGroupId w) 0 HIGHGUID_GROUP) store) w)].
  - by apply book_groups.
  - intros g' Hg'. assert (g' = g) as -> by congruence. unfold party. simpl. by rewrite Hn.
Qed.

Lemma book_raid a c w g : groups w !! a = Some g → m_memberSlots g ≠ [] →
  book (g_upd a (raid_of c) w) = <[a := mkParty (m_leaderGuid g) true (roster g)]> (book w).
Proof.
  intros Ha Hn. rewrite (book_g_upd a _ w g Ha) by done. do 2 f_equal. unfold isRaidGroup, has_bits, raid_of, GROUPTYPE_RAID. simpl.
  apply negb_true_iff, Z.eqb_neq. intros H. assert (Z.testbit (Z.land (Z.lor (m_groupType g) 2) 2) 1 = true) as Ht
    by (rewrite Z.land_spec, Z.lor_spec; change (Z.testbit 2 1) with true; by rewrite orb_true_r).
  by rewrite H in Ht.
Qed.

Lemma book_moved a p i s sub w g : groups w !! a = Some g → NoDup (guids g) → m_memberSlots g !! i = Some s → slot_guid s = p →
  book (moved a p i sub (slot_group s) w) = <[a := assign p sub (mkParty (m_leaderGuid g) (isRaidGroup g) (roster g))]> (book w).
Proof.
  intros Ha Hnd Hi Hs. transitivity (book (g_upd a (resub i sub (slot_group s)) w)); [by apply book_groups|].
  assert (roster (resub i sub (slot_group s) g) = (λ x, if decide (x.1 = p) then (p, sub) else x) <$> roster g) as Hr.
  { unfold roster. simpl. rewrite <- list_fmap_compose. apply list_eq. intros j. rewrite !list_lookup_fmap.
    destruct (decide (j = i)) as [->|Hj].
    - rewrite list_lookup_alter_eq, Hi. simpl. by rewrite decide_True, Hs.
    - rewrite list_lookup_alter_ne by done. destruct (m_memberSlots g !! j) as [t|] eqn:Ht; [|done]. simpl.
      rewrite decide_False; [done|]. intros Hp. apply Hj. eapply (NoDup_lookup (guids g)); [done| |].
      + unfold guids. by rewrite list_lookup_fmap, Ht.
      + unfold guids. rewrite list_lookup_fmap, Hi. simpl. congruence. }
  rewrite (book_g_upd a _ w g Ha); [by rewrite Hr|]. simpl. intros Hn. apply (f_equal length) in Hn.
  rewrite length_alter in Hn. apply lookup_lt_Some in Hi. simpl in Hn. lia.
Qed.

(** ** The changes of worlds as steps of the book *)

Definition develops (w w' : World) : Prop := rtc party_step (book w) (book w').

#[export] Instance develops_proper : Proper ((≡) ==> (≡) ==> iff) develops.
Proof. intros w w' Hw v v' Hv. unfold develops. by rewrite (book_proper _ _ Hw), (book_proper _ _ Hv). Qed.

Lemma develops_refl w : develops w w.
Proof. constructor. Qed.

Lemma develops_same w w' : book w' = book w → develops w w'.
Proof. unfold develops. by intros ->. Qed.

Lemma develops_delete w w' a : book w' = delete a (book w) → develops w w'.
Proof.
  intros Hb. destruct (book w !! a) as [P|] eqn:Ha.
  - apply rtc_once. rewrite Hb. by eapply Dissolve.
  - apply develops_same. by rewrite Hb, delete_id.
Qed.

Lemma new_place X w a g sub : world_ok X w → groups w !! a = Some g → new_subgroup g = Some sub →
  (isRaidGroup g = false → (length (m_memberSlots g) < 5)%nat) →
  p_place (mkParty (m_leaderGuid g) (isRaidGroup g) (roster g)) sub.
Proof.
  intros Hw Ha Hsub Hlt. unfold p_place. cbn [p_raid p_roster].
  pose proof (new_subgroup_spec g sub (go_counts X w a g (ok_group X w Hw a g Ha)) Hsub) as H.
  rewrite p_count_roster. destruct (isRaidGroup g); [done|]. split; [done|]. unfold roster. rewrite length_fmap. by apply Hlt.
Qed.

Lemma develops_joined X w a p g pl sub : world_ok X w → groups w !! a = Some g → m_memberSlots g ≠ [] →
  online w !! p = Some pl → target (m_group pl) = None → new_subgroup g = Some sub →
  (isRaidGroup g = false → (length (m_memberSlots g) < 5)%nat) → develops w (joined a p sub w).
Proof.
  intros Hw Ha Hn Hpl Ht Hsub Hlt. apply rtc_once. rewrite (book_joined a p sub w g Ha).
  apply (Enter _ a (mkParty (m_leaderGuid g) (isRaidGroup g) (roster g))).
  - by apply book_of_group.
  - by eapply unbound_stranger.
  - by eapply new_place.
Qed.

(** The first member is the leader. *)
Lemma develops_founded w w0 a p g : book w = book w0 → book w0 !! a = None → unbound (book w0) p →
  groups w !! a = Some g → m_memberSlots g = [] → m_leaderGuid g = p → isRaidGroup g = false →
  develops w0 (joined a p 0 w).
Proof.
  intros Hb Hnone Hu Ha Hn Hl Hr. apply rtc_once. rewrite (book_joined a p 0 w g Ha), Hl, Hr, Hb. unfold roster. rewrite Hn.
  by apply Found.
Qed.

Lemma develops_raid w a c g : groups w !! a = Some g → m_memberSlots g ≠ [] → develops w (g_upd a (raid_of c) w).
Proof.
  intros Ha Hn. apply rtc_once. rewrite (book_raid a c w g Ha Hn).
  apply (BecomeRaid _ a (mkParty (m_leaderGuid g) (isRaidGroup g) (roster g))). by apply book_of_group.
Qed.

Lemma develops_leader w a p g : groups w !! a = Some g → p ∈ guids g → develops w (g_upd a (with_leaderGuid p) w).
Proof.
  intros Ha Hp. apply rtc_once. pose proof (slots_of_guid p g Hp) as Hn. rewrite (book_g_upd a _ w g Ha) by done.
  apply (Appoint _ a (mkParty (m_leaderGuid g) (isRaidGroup g) (roster g))); [by apply book_of_group|]. by rewrite p_members_roster.
Qed.

Lemma develops_moved X w a p i s sub g : world_ok X w → groups w !! a = Some g → isRaidGroup g = true →
  m_memberSlots g !! i = Some s → slot_guid s = p → 0 <= sub < MAX_RAID_SUBGROUPS →
  Z.of_nat (in_subgroup g sub) < MAXGROUPSIZE → develops w (moved a p i sub (slot_group s) w).
Proof.
  intros Hw Ha Hr Hi Hs Hsub Hroom. apply rtc_once. pose proof (go_nodup X w a g (ok_group X w Hw a g Ha)) as Hnd.
  rewrite (book_moved a p i s sub w g Ha Hnd Hi Hs).
  assert (p ∈ guids g) as Hp by (rewrite <- Hs; by eapply elem_of_guids, list_elem_of_lookup_2).
  apply Assign; [apply book_of_group; [done|by eapply slots_of_guid]|by rewrite p_members_roster|done|].
  unfold p_place. simpl. rewrite Hr, p_count_roster. done.
Qed.

(** A member leaves; [w'] is the world after a new leader was found, when he led. *)
Lemma develops_left w w' a p q g : groups w !! a = Some g → p ∈ guids g → q ∈ guids g → q ≠ p →
  (m_leaderGuid g ≠ p → q = m_leaderGuid g) →
  book w' = <[a := mkParty q (isRaidGroup g) (filter (λ x, x.1 ≠ p) (roster g))]> (book w) → develops w w'.
Proof.
  intros Ha Hp Hq Hne Hl Hb. apply rtc_once. rewrite Hb.
  apply (Quit _ a (mkParty (m_leaderGuid g) (isRaidGroup g) (roster g)) p q); [|by rewrite p_members_roster..|done|done].
  apply book_of_group; [done|by eapply slots_of_guid].
Qed.
