(* ===== verification/GroupOps.v ===== *)
(** * GroupOps: what the operations of a group do to the core of the world *)

From Stdlib Require Import ZArith Lia.
From S2P Require Import Prelude ByteBuffer Guid LootRoll LootRollFacts GroupData Group GroupFacts GroupInv GroupSteps GroupWorlds GroupRun.
Local Open Scope Z_scope.

(** ** Invitations *)

Lemma moves_RemoveInvite W a p g : groups W !! a = Some g → moves W (RemoveInvite a p) tt (uninvited a p W).
Proof.
  intros Ha. eapply leads_deref; [exact Ha|]. intros g' _.
  apply leads_upd_group; [apply _|]. apply leads_unit, leads_upd_player; [apply _|]. by apply moves_ret.
Qed.

Lemma moves_AddInvite W a p g pl : groups W !! a = Some g → online W !! p = Some pl →
  m_groupInvite pl = None → target (m_group pl) = None → moves W (AddInvite a p) true (invited a p W).
Proof.
  intros Ha Hpl Hi Ht. unfold AddInvite. eapply leads_player; [exact Hpl|]. intros pl' He.
  rewrite (groupInvite_proper _ _ He), Hi, (GetGroup_proper _ _ He). unfold GetGroup. rewrite Ht.
  apply leads_ret_bind. eapply leads_moves; [by eapply moves_RemoveInvite|].
  apply leads_upd_group; [apply _|]. apply leads_upd_player; [apply _|]. apply leads_emit, moves_ret.
  apply world_ext; try done.
  - intros b. simpl. destruct (decide (b = a)) as [->|Hba]; [|by rewrite !lookup_alter_ne].
    rewrite !lookup_alter_eq, Ha. simpl. f_equal. unfold gcore. simpl. f_equal.
    apply set_eq. intros x. rewrite !elem_of_union, elem_of_difference, elem_of_singleton. destruct (decide (x = p)); tauto.
  - intros q. simpl. destruct (decide (q = p)) as [->|Hq]; [|by rewrite !lookup_alter_ne].
    by rewrite !lookup_alter_eq, Hpl.
Qed.

Lemma moves_AddLeaderInvite W a p g pl : groups W !! a = Some g → online W !! p = Some pl →
  m_groupInvite pl = None → target (m_group pl) = None → icons_ok W →
  moves W (AddLeaderInvite a p) true (g_upd a (with_leaderGuid p) (invited a p W)).
Proof.
  intros Ha Hpl Hi Ht Hic. unfold AddLeaderInvite. eapply leads_moves; [by eapply moves_AddInvite|]. cbn iota.
  eapply leads_player; [simpl; by rewrite lookup_alter_eq, Hpl|]. intros pl' _.
  apply leads_upd_group; [apply _|]. apply leads_settings; [apply _| |by apply moves_ret].
  apply icons_g_upd; [done|]. by apply (icons_g_upd W a).
Qed.

(** ** Sub-group counters *)

Lemma moves_count W a g sub d : groups W !! a = Some g →
  (∀ c, m_subGroupsCounts g = Some c → length c = 8%nat ∧ 0 <= sub < MAX_RAID_SUBGROUPS) →
  moves W (count_subgroup a sub d) tt
    (g_upd a (λ g, with_subGroupsCounts (adjust sub d (m_subGroupsCounts g)) g) W).
Proof.
  intros Ha Hc. unfold count_subgroup. eapply leads_deref; [exact Ha|]. intros g' He.
  rewrite (counts_proper _ _ He). destruct (m_subGroupsCounts g) as [c|] eqn:Hcs.
  - destruct (Hc c eq_refl) as [Hl Hsub]. destruct (lookup_lt_is_Some_2 c (Z.to_nat sub)) as [n Hn].
    { unfold MAX_RAID_SUBGROUPS in Hsub. lia. }
    rewrite Hn. simpl. apply leads_ret_bind, leads_unit, leads_upd_group; [apply _|]. apply moves_ret, g_upd_change.
    intros g1 Hg1. assert (g1 = g) as -> by congruence. rewrite Hcs. simpl.
    by rewrite (alter_is_list_insert _ _ _ _ Hn).
  - apply moves_ret. symmetry. apply g_upd_same. intros g1 Hg1. assert (g1 = g) as -> by congruence.
    rewrite Hcs. unfold equiv, group_equiv, gcore. simpl. by rewrite Hcs.
Qed.

(** ** References *)

Definition set_ref (a : option Z) (sub : Z) : Player → Player := with_pgroup (mkRef a sub).
Definition add_ref (p : Z) (g : Group) : Group := with_memberMgr ((p, false) :: m_memberMgr g) g.
Definition drop_ref (p : Z) (g : Group) : Group := with_memberMgr (filter (λ x, x ≠ (p, false)) (m_memberMgr g)) g.

Lemma moves_unlink W p pl : online W !! p = Some pl →
  (∀ a, target (m_group pl) = Some a → is_Some (groups W !! a)) →
  moves W (unlink p false) tt
    (p_upd p (cut false) (match target (m_group pl) with Some a => g_upd a (drop_ref p) W | None => W end)).
Proof.
  intros Hpl Hg. unfold unlink. eapply leads_player; [exact Hpl|]. intros pl' He.
  change (ref_of false pl') with (m_group pl'). rewrite (group_proper _ _ He).
  destruct (target (m_group pl)) as [a|].
  - apply leads_upd_group; [apply _|]. apply leads_unit, leads_upd_player; [apply _|]. by apply moves_ret.
  - apply leads_ret_unit, leads_unit, leads_upd_player; [apply _|]. by apply moves_ret.
Qed.

Lemma moves_unlink_original W p pl : online W !! p = Some pl → target (m_originalGroup pl) = None →
  moves W (unlink p true) tt W.
Proof.
  intros Hpl Ht. unfold unlink. eapply leads_player; [exact Hpl|]. intros pl' He.
  change (ref_of true pl') with (m_originalGroup pl'). rewrite (originalGroup_proper _ _ He), Ht.
  apply leads_ret_unit, leads_unit, leads_upd_player; [apply _|]. apply moves_ret.
  apply p_upd_same. intros pl1 Hpl1. assert (pl1 = pl) as -> by congruence.
  unfold equiv, player_equiv, pcore, cut. simpl. rewrite <- Ht. by destruct (m_originalGroup pl).
Qed.

Lemma swrap_subgroup z : 0 <= z < 128 → swrap 8 z = z.
Proof. intros H. unfold swrap. rewrite Z.mod_small; simpl; lia. Qed.

Lemma moves_SetGroup W p a g pl sub : online W !! p = Some pl → groups W !! a = Some g →
  target (m_group pl) = None → 0 <= sub < 128 →
  moves W (SetGroup p (Some a) sub) tt (p_upd p (set_ref (Some a) sub) (g_upd a (add_ref p) W)).
Proof.
  intros Hpl Ha Ht Hsub. unfold SetGroup. apply leads_assoc, leads_assert.
  { rewrite swrap_subgroup by done. apply Z.leb_le. lia. }
  apply leads_assoc. unfold link. apply leads_assoc. eapply leads_player; [exact Hpl|]. intros pl' He.
  change (ref_of false pl') with (m_group pl'). rewrite (group_proper _ _ He), Ht.
  rewrite bool_decide_eq_false_2 by (by intros [? ?]). apply leads_assoc, leads_ret_unit.
  apply leads_assoc, leads_upd_player; [apply _|]. apply leads_assoc.
  eapply leads_deref; [exact Ha|]. intros g' _. apply leads_upd_group; [apply _|].
  unfold setSubGroup. apply leads_upd_player; [apply _|]. apply leads_unit, leads_emit, moves_ret.
  apply world_ext; try done. intros q. simpl. destruct (decide (q = p)) as [->|Hq]; [|by rewrite !lookup_alter_ne].
  rewrite !lookup_alter_eq, Hpl. simpl. unfold pcore. simpl. by rewrite uwrap_small by (unfold in_u; lia).
Qed.

Lemma moves_SetGroup_none W p pl : online W !! p = Some pl →
  (∀ a, target (m_group pl) = Some a → is_Some (groups W !! a)) →
  moves W (SetGroup p None (-1)) tt
    (p_upd p (cut false) (match target (m_group pl) with Some a => g_upd a (drop_ref p) W | None => W end)).
Proof.
  intros Hpl Hg. unfold SetGroup. eapply leads_moves; [by eapply moves_unlink|].
  apply leads_unit, leads_emit. by apply moves_ret.
Qed.

Lemma leads_when {A} W (b : bool) (p : gw unit) (k : gw A) Q : (b = true → moves W p tt W) → leads W k Q →
  leads W ((if b then p else mret tt);; k) Q.
Proof. intros Hp Hk. destruct b; [|exact Hk]. eapply leads_moves; [by apply Hp|exact Hk]. Qed.

Lemma leads_when_emit {A} W (b : bool) e (k : gw A) Q : leads W k Q → leads W ((if b then gemit e else mret tt);; k) Q.
Proof. intros Hk. apply leads_when; [intros _; apply moves_emit|exact Hk]. Qed.

(** ** Joining *)

Lemma moves_attach W a p g pl sub : groups W !! a = Some g → online W !! p = Some pl → m_bgGroup g = None →
  target (m_group pl) = None → m_groupInvite pl = None → 0 <= sub < 128 →
  moves W (attach a p sub) tt (p_upd p (set_ref (Some a) sub) (g_upd a (add_ref p) W)).
Proof.
  intros Ha Hpl Hbg Ht Hi Hsub. unfold attach. eapply leads_deref; [exact Ha|]. intros g' _.
  eapply leads_player; [exact Hpl|]. intros pl' He. unfold SetGroupInvite. apply leads_upd_player; [apply _|].
  assert (p_upd p (with_groupInvite None) W ≡ W) as ->.
  { apply p_upd_same. intros pl1 Hpl1. assert (pl1 = pl) as -> by congruence.
    unfold equiv, player_equiv, pcore. simpl. by rewrite Hi. }
  rewrite (GetGroup_proper _ _ He). unfold GetGroup. rewrite Ht.
  eapply leads_moves; [by eapply moves_SetGroup|]. apply leads_unit, leads_emit. by apply moves_ret.
Qed.

Lemma moves_join_difficulty E W a p pl : fit a W → online W !! p = Some pl →
  moves W (join_difficulty E a p) tt W.
Proof.
  intros [[g Ha] _] Hpl. unfold join_difficulty. do 2 apply leads_emit.
  case_match; [|by apply moves_ret]. eapply leads_deref; [exact Ha|]. intros g' _.
  eapply leads_player; [exact Hpl|]. intros pl' _.
  assert (∀ f e, (∀ pl, pcore (f pl) = pcore pl) → moves W (upd_player p f;; gemit e) tt W) as Hset.
  { intros f e Hf. apply leads_upd_player.
    - intros x y Hxy. unfold equiv, player_equiv in *. by rewrite !Hf.
    - apply leads_unit, leads_emit, moves_ret, p_upd_same. intros q _. apply Hf. }
  eapply leads_moves.
  - destruct (negb _); [by apply Hset|by apply moves_ret].
  - cbv beta. destruct (negb _); [by apply Hset|by apply moves_ret].
Qed.

Lemma insert_row_proper p st : Proper ((≡) ==> (≡))
  (λ w, match group_member w !! p with Some _ => w | None => with_group_member (<[p := st]> (group_member w)) w end).
Proof.
  intros w w' H. destruct (equiv_rest w w' H) as (_ & _ & _ & _ & E). rewrite E. destruct (group_member w' !! p); [done|].
  unfold equiv, world_equiv, wcore in *. injection H; intros. simpl. f_equal; congruence.
Qed.

Lemma joined_parts W a p g pl sub name : groups W !! a = Some g → online W !! p = Some pl → group_member W !! p = None →
  with_group_member (<[p := m_dbStoreId g]> (group_member W))
    (p_upd p (set_ref (Some a) sub) (g_upd a (add_ref p)
      (g_upd a (λ g, with_subGroupsCounts (adjust sub 1 (m_subGroupsCounts g)) g)
        (g_upd a (λ g, with_memberSlots (m_memberSlots g ++ [mkSlot p name sub 0 0]) g) W)))) ≡ joined a p sub W.
Proof.
  intros Ha Hpl Hrow. apply world_ext; try done.
  - intros b. simpl. destruct (decide (b = a)) as [->|Hba]; [|by rewrite !lookup_alter_ne].
    rewrite !lookup_alter_eq, Ha. simpl. unfold gcore. simpl. by rewrite !fmap_app.
  - simpl. by rewrite Ha.
Qed.

Lemma moves_AddMember E X W a p g pl sub : world_ok X W → groups W !! a = Some g → online W !! p = Some pl →
  target (m_group pl) = None → m_groupInvite pl = None → new_subgroup g = Some sub →
  world_ok X (joined a p sub W) → moves W (AddMember E a p) true (joined a p sub W).
Proof.
  intros HW Ha Hpl Ht Hi Hsub Hok. pose proof (ok_group X W HW a g Ha) as Hg.
  pose proof (new_subgroup_spec g sub (go_counts X W a g Hg) Hsub) as Hrange.
  assert (0 <= sub < MAX_RAID_SUBGROUPS) as Hs by (unfold MAX_RAID_SUBGROUPS in *; destruct (isRaidGroup g); lia).
  assert (∀ c, m_subGroupsCounts g = Some c → length c = 8%nat ∧ 0 <= sub < MAX_RAID_SUBGROUPS) as Hc.
  { intros c Hcs. split; [|done]. pose proof (go_counts X W a g Hg) as Hcok. unfold counts_ok in Hcok.
    destruct (isRaidGroup g); [destruct Hcok as (? & ? & ? & _); congruence|destruct Hcok; congruence]. }
  unfold AddMember. eapply leads_deref; [exact Ha|]. intros g' He. rewrite (new_subgroup_proper _ _ He), Hsub.
  eapply leads_player; [exact Hpl|]. intros pl' Hpe. apply leads_upd_group; [apply _|].
  eapply leads_moves; [eapply moves_count; [by apply g_upd_lookup|exact Hc]|]. cbv beta.
  eapply leads_moves; [eapply moves_attach; [simpl; by rewrite !lookup_alter_eq, Ha|exact Hpl|apply Hg|exact Ht|exact Hi|]|].
  { unfold MAX_RAID_SUBGROUPS in Hs. lia. }
  cbv beta. rewrite (isRaidGroup_proper _ _ He), (isBGGroup_proper _ _ He), (IsLeader_proper _ _ He _ _ eq_refl),
    (dbStoreId_proper _ _ He).
  assert (isBGGroup g = false) as -> by (unfold isBGGroup; by rewrite (go_bg X W a g Hg)). cbn [negb andb].
  apply leads_when.
  { intros _. apply leads_unit, leads_settings; [apply _| |by apply moves_ret].
    do 3 (apply icons_g_upd; [done|]). intros b h Hb. apply (ok_group X W HW b h Hb). }
  apply leads_assoc, leads_emit, leads_modify; [apply insert_row_proper|].
  assert (group_member W !! p = None) as Hrow by (by eapply stranger_row).
  simpl group_member. rewrite Hrow. rewrite (joined_parts W a p g pl sub _ Ha Hpl Hrow).
  assert (fit a (joined a p sub W)) as Hfit by (eapply ok_fit; [exact Hok|by apply g_upd_lookup]).
  assert (online (joined a p sub W) !! p = Some (with_pgroup (mkRef (Some a) sub) pl)) as Hpl2 by (by apply p_upd_lookup).
  eapply leads_calm; [apply _|exact Hfit|]. apply leads_emit. apply leads_when.
  { intros _. by eapply moves_join_difficulty. }
  apply leads_upd_player; [apply _|]. rewrite p_upd_same by done. apply leads_emit.
  apply leads_when_emit.
  apply leads_settings; [apply _| |by apply moves_ret].
  intros b h Hb. apply (ok_group X _ Hok b h Hb).
Qed.

(** ** Loops *)

Lemma moves_each {B} (f : B → gw unit) (F : World → B → World) (I : list B → World → Prop) :
  (∀ x l W, I (x :: l) W → moves W (f x) tt (F W x) ∧ I l (F W x)) →
  ∀ l W, I l W → moves W (each f l) tt (foldl F W l).
Proof.
  intros Hf l. induction l as [|x l IH]; intros W HI; simpl; [by apply moves_ret|].
  destruct (Hf x l W HI) as [Hm HI']. eapply leads_moves; [exact Hm|]. by apply IH.
Qed.

(** ** Invitations are withdrawn *)

Definition uninvite (W : World) (q : Z) : World := p_upd q (with_groupInvite None) W.

Lemma uninvite_all_online l : ∀ W q,
  online (foldl uninvite W l) !! q = (if decide (q ∈ l) then with_groupInvite None else id) <$> online W !! q.
Proof.
  induction l as [|p l IH]; intros W q; simpl.
  - by destruct (online W !! q).
  - rewrite IH. simpl. destruct (decide (q = p)) as [->|Hq].
    + rewrite lookup_alter_eq. rewrite (decide_True (P := p ∈ p :: l)) by by left.
      destruct (online W !! p) as [pl|]; simpl; [|done]. by destruct (decide (p ∈ l)).
    + rewrite lookup_alter_ne by done. assert (q ∈ p :: l ↔ q ∈ l) as Hin by (rewrite elem_of_cons; tauto).
      by rewrite (decide_ext _ _ _ _ Hin).
Qed.

Lemma uninvite_all_rest l : ∀ W, groups (foldl uninvite W l) = groups W ∧ group_member (foldl uninvite W l) = group_member W ∧
  GroupStore (foldl uninvite W l) = GroupStore W ∧ GroupDbStore (foldl uninvite W l) = GroupDbStore W ∧
  NextGroupDbStoreId (foldl uninvite W l) = NextGroupDbStoreId W ∧ NextGroupId (foldl uninvite W l) = NextGroupId W.
Proof. induction l as [|p l IH]; intros W; simpl; [done|]. apply (IH (uninvite W p)). Qed.

Definition all_uninvited (a : Z) (g : Group) (W : World) : World :=
  g_upd a (with_invitees ∅) (foldl uninvite W (elements (m_invitees g))).

Lemma moves_RemoveAllInvites W a g : groups W !! a = Some g →
  (∀ q, q ∈ m_invitees g → is_Some (online W !! q)) →
  moves W (RemoveAllInvites a) tt (all_uninvited a g W).
Proof.
  intros Ha Hon. unfold RemoveAllInvites. eapply leads_deref; [exact Ha|]. intros g' He. rewrite (invitees_proper _ _ He).
  eapply leads_moves.
  - apply (moves_each _ uninvite (λ l W, ∀ q, q ∈ l → is_Some (online W !! q))).
    + intros q l W1 HI. destruct (HI q) as [pl Hpl]; [by left|]. split.
      * eapply leads_player; [exact Hpl|]. intros pl' _. apply leads_unit, leads_upd_player; [apply _|]. by apply moves_ret.
      * intros q' Hq'. simpl. apply lookup_alter_is_Some, HI. by right.
    + intros q Hq. by apply Hon, elem_of_elements.
  - apply leads_unit, leads_upd_group; [apply _|]. by apply moves_ret.
Qed.

(** ** The end of a group *)

Lemma moves_delete_group W a g : groups W !! a = Some g → m_bgGroup g = None → m_memberMgr g = [] →
  moves W (delete_group a) tt (with_groups (delete a (groups W)) W).
Proof.
  intros Ha Hbg Hm. unfold delete_group. eapply leads_deref; [exact Ha|]. intros g' He.
  rewrite (isBGGroup_proper _ _ He), (memberMgr_proper _ _ He), Hm. unfold isBGGroup. rewrite Hbg.
  apply leads_ret_unit, leads_emit, leads_ret_unit. apply leads_unit, leads_modify.
  - intros w w' H. apply world_ext; try apply (equiv_rest w w' H); intros i.
    + pose proof (f_equal (lookup i) (equiv_groups w w' H)) as E. rewrite !lookup_fmap in E. simpl.
      destruct (decide (i = a)) as [->|Hi]; [by rewrite !lookup_delete_eq|by rewrite !lookup_delete_ne].
    + pose proof (f_equal (lookup i) (equiv_online w w' H)) as E. by rewrite !lookup_fmap in E.
  - by apply moves_ret.
Qed.

(** A group without members. *)
Lemma erased_parts X W a g : world_ok X W → groups W !! a = Some g → m_memberSlots g = [] →
  (with_groups (delete a (groups (all_uninvited a g W))) (all_uninvited a g W)) ≡ erased a W.
Proof.
  intros HW Ha Hn. destruct (uninvite_all_rest (elements (m_invitees g)) W) as (E1 & E2 & E3 & E4 & E5 & E6).
  apply world_ext; simpl; try done.
  - intros b. rewrite E1. destruct (decide (b = a)) as [->|Hba]; [by rewrite !lookup_delete_eq|].
    by rewrite !lookup_delete_ne, lookup_alter_ne.
  - intros q. rewrite uninvite_all_online, lookup_fmap. destruct (online W !! q) as [pl|] eqn:Hq; simpl; [|done].
    f_equal. rewrite (decide_ext _ (m_groupInvite pl = Some a)).
    + unfold pcore, forget. rewrite (decide_False (P := target (m_group pl) = Some a)).
      * case_decide as Hi; done.
      * intros Ht. destruct (po_group W q pl (ok_player X W HW q pl Hq) a Ht) as (h & Hh & Hin & _).
        apply (slots_of_guid q h Hin). congruence.
    + rewrite elem_of_elements. split.
      * intros Hin. by apply (invitee_target X W HW a g q).
      * intros Hi. destruct (po_invite W q pl (ok_player X W HW q pl Hq) a Hi) as (_ & h & Hh & ?). congruence.
Qed.

Lemma moves_forget X W a g : world_ok X W → groups W !! a = Some g → m_memberSlots g = [] →
  moves W (RemoveAllInvites a;; delete_group a) tt (erased a W).
Proof.
  intros HW Ha Hn. pose proof (ok_group X W HW a g Ha) as Hg. eapply leads_moves.
  - apply (moves_RemoveAllInvites W a g Ha). intros q Hq. destruct (go_invites X W a g Hg q Hq) as (pl & ? & _). eauto.
  - eapply moves_to; [|by apply (erased_parts X W a g HW Ha Hn)]. eapply moves_delete_group.
    + simpl. rewrite lookup_alter_eq. destruct (uninvite_all_rest (elements (m_invitees g)) W) as (-> & _). by rewrite Ha.
    + apply Hg.
    + simpl. destruct (m_memberMgr g) as [|[q o] l] eqn:Hm; [done|].
      destruct (ref_member X W HW a g q o Ha) as [_ Hin]; [rewrite Hm; by left|]. by apply slots_of_guid in Hin.
Qed.

(** ** Disband *)

Definition scatter (a : Z) (W : World) (s : MemberSlot) : World :=
  p_upd (slot_guid s) (cut false) (g_upd a (drop_ref (slot_guid s)) W).

Lemma scatter_online a l : ∀ W q, online (foldl (scatter a) W l) !! q =
  (if decide (q ∈ slot_guid <$> l) then cut false else id) <$> online W !! q.
Proof.
  induction l as [|s l IH]; intros W q; simpl foldl.
  - by destruct (online W !! q).
  - rewrite IH, fmap_cons. simpl. destruct (decide (q = slot_guid s)) as [->|Hq].
    + rewrite lookup_alter_eq. rewrite (decide_True (P := slot_guid s ∈ slot_guid s :: _)) by by left.
      destruct (online W !! slot_guid s) as [pl|]; simpl; [|done]. by destruct (decide (_ ∈ slot_guid <$> l)).
    + rewrite lookup_alter_ne by done.
      assert (q ∈ slot_guid s :: (slot_guid <$> l) ↔ q ∈ slot_guid <$> l) as Hin by (rewrite elem_of_cons; tauto).
      by rewrite (decide_ext _ _ _ _ Hin).
Qed.

Lemma scatter_groups a l : ∀ W b, groups (foldl (scatter a) W l) !! b =
  (λ g, if decide (b = a) then with_memberMgr (filter (λ x, x ∉ (λ s, (slot_guid s, false)) <$> l) (m_memberMgr g)) g
        else g) <$> groups W !! b.
Proof.
  induction l as [|s l IH]; intros W b; simpl foldl.
  - destruct (groups W !! b) as [g|]; simpl; [|done]. case_decide; [|done]. f_equal.
    rewrite filter_all by (intros x _; apply not_elem_of_nil). by destruct g.
  - rewrite IH. simpl. destruct (decide (b = a)) as [->|Hba]; [|by rewrite lookup_alter_ne].
    rewrite lookup_alter_eq. destruct (groups W !! a) as [g|]; simpl; [|done]. rewrite ?decide_True by done.
    assert (filter (λ x, x ∉ (λ s, (slot_guid s, false)) <$> l) (m_memberMgr (drop_ref (slot_guid s) g)) =
            filter (λ x, x ∉ (λ s, (slot_guid s, false)) <$> s :: l) (m_memberMgr g)) as E.
    2: { f_equal. by apply (f_equal (λ l, with_memberMgr l g)) in E. }
    unfold drop_ref. simpl. rewrite list_filter_filter. apply list_filter_iff. intros x.
    simpl; rewrite not_elem_of_cons. tauto.
Qed.

Lemma scatter_rest a l : ∀ W, group_member (foldl (scatter a) W l) = group_member W ∧
  GroupStore (foldl (scatter a) W l) = GroupStore W ∧ GroupDbStore (foldl (scatter a) W l) = GroupDbStore W ∧
  NextGroupDbStoreId (foldl (scatter a) W l) = NextGroupDbStoreId W ∧ NextGroupId (foldl (scatter a) W l) = NextGroupId W.
Proof. induction l as [|s l IH]; intros W; simpl; [done|]. apply (IH (scatter a W s)). Qed.

(** What the loop over the members relies on. *)
Definition to_scatter (a : Z) (l : list MemberSlot) (W : World) : Prop :=
  NoDup (slot_guid <$> l) ∧ ∃ g, groups W !! a = Some g ∧ m_bgGroup g = None ∧ ∀ s, s ∈ l →
    match online W !! slot_guid s with
    | Some pl => target (m_group pl) = Some a ∧ target (m_originalGroup pl) = None
    | None => (slot_guid s, false) ∉ m_memberMgr g
    end.

Lemma moves_disband_member W a hide s g : groups W !! a = Some g → m_bgGroup g = None →
  match online W !! slot_guid s with
  | Some pl => target (m_group pl) = Some a ∧ target (m_originalGroup pl) = None
  | None => (slot_guid s, false) ∉ m_memberMgr g
  end → moves W (disband_member a hide s) tt (scatter a W s).
Proof.
  intros Ha Hbg Hs. unfold disband_member. apply leads_find.
  - intros pl pl' Hpl He. rewrite Hpl in Hs. destruct Hs as [Ht Ho]. eapply leads_deref; [exact Ha|]. intros g' Hge.
    rewrite (isBGGroup_proper _ _ Hge). unfold isBGGroup. rewrite Hbg. cbn [bool_decide].
    rewrite (GetOriginalGroup_proper _ _ He). unfold GetOriginalGroup. rewrite Ho.
    rewrite bool_decide_eq_false_2 by (by intros [? ?]). rewrite bool_decide_eq_false_2 by done.
    eapply leads_moves.
    + eapply moves_SetGroup_none; [exact Hpl|]. intros b Hb. rewrite Ht in Hb. injection Hb as <-. by rewrite Ha.
    + rewrite Ht. apply leads_when_emit, leads_when_emit.
      eapply leads_player; [by apply p_upd_lookup|]. intros pl2 He2. rewrite (GetGroup_proper _ _ He2).
      unfold GetGroup. cbn [cut with_ref with_pgroup m_group target].
      apply leads_assoc. eapply leads_deref; [by apply g_upd_lookup|]. intros g2 _. apply leads_emit.
      apply leads_unit, leads_emit. by apply moves_ret.
  - intros Hpl. rewrite Hpl in Hs. apply moves_ret. symmetry. unfold scatter.
    rewrite p_upd_same by (simpl; congruence). apply g_upd_same. intros g1 Hg1. assert (g1 = g) as -> by congruence.
    unfold drop_ref. rewrite filter_all; [by destruct g|]. by intros x Hx ->.
Qed.

(** Only the guids of the slots count. *)
Lemma scatter_guids a l l' W : slot_guid <$> l = slot_guid <$> l' → foldl (scatter a) W l = foldl (scatter a) W l'.
Proof.
  revert l' W. induction l as [|s l IH]; intros [|s' l'] W; try done. rewrite !fmap_cons. intros [= Hs Hl]. simpl.
  unfold scatter at 2 4. rewrite Hs. by apply IH.
Qed.

Lemma to_scatter_guids a l l' W : slot_guid <$> l = slot_guid <$> l' → to_scatter a l W → to_scatter a l' W.
Proof.
  intros Hl (Hnd & g & Ha & Hbg & Hs). split; [by rewrite <- Hl|]. exists g. split_and!; [done|done|].
  intros s' Hs'. assert (slot_guid s' ∈ slot_guid <$> l) as (s & -> & Hin)%list_elem_of_fmap by (rewrite Hl; apply list_elem_of_fmap; by exists s').
  by apply Hs.
Qed.

Lemma moves_disband_loop a hide l W : to_scatter a l W →
  moves W (each (disband_member a hide) l) tt (foldl (scatter a) W l).
Proof.
  apply moves_each. clear. intros s l W (Hnd & g & Ha & Hbg & Hs). rewrite fmap_cons in Hnd. apply NoDup_cons in Hnd as [Hn Hnd].
  split; [apply (moves_disband_member W a hide s g Ha Hbg), Hs; by left|].
  split; [done|]. exists (drop_ref (slot_guid s) g). split; [by apply g_upd_lookup|]. split; [done|].
  intros s' Hs'. assert (slot_guid s' ≠ slot_guid s) as Hne by (intros He; apply Hn, list_elem_of_fmap; by exists s').
  unfold scatter. rewrite p_upd_lookup_ne by done. specialize (Hs s' ltac:(by right)). simpl.
  destruct (online W !! slot_guid s'); [done|]. intros [_ Hin]%list_elem_of_filter. done.
Qed.

Ltac rest_map := let H := fresh in
  intros w w' H; destruct (equiv_rest w w' H) as (? & ? & ? & ? & ?); apply world_ext; simpl; try congruence;
  [intros i; pose proof (f_equal (lookup i) (equiv_groups w w' H))|intros i; pose proof (f_equal (lookup i) (equiv_online w w' H))];
  by rewrite !lookup_fmap in *.

#[export] Instance delete_rows_proper st : Proper ((≡) ==> (≡)) (λ w, with_group_member (filter (λ x, x.2 ≠ st) (group_member w)) w).
Proof. rest_map. Qed.
#[export] Instance delete_row_proper p : Proper ((≡) ==> (≡)) (λ w, with_group_member (delete p (group_member w)) w).
Proof. rest_map. Qed.
#[export] Instance with_next_proper n : Proper ((≡) ==> (≡)) (with_NextGroupDbStoreId n).
Proof. rest_map. Qed.
#[export] Instance with_id_proper n : Proper ((≡) ==> (≡)) (with_NextGroupId n).
Proof. rest_map. Qed.
#[export] Instance with_store_proper f : Proper ((≡) ==> (≡)) (λ w, with_GroupDbStore (f (GroupDbStore w)) w).
Proof. rest_map. Qed.
#[export] Instance with_GroupStore_proper f : Proper ((≡) ==> (≡)) (λ w, with_GroupStore (f (GroupStore w)) w).
Proof. rest_map. Qed.

Definition freed (id : Z) (W : World) : World :=
  with_GroupDbStore (<[Z.to_nat id := None]> (GroupDbStore W))
    (with_NextGroupDbStoreId (if id <? NextGroupDbStoreId W then id else NextGroupDbStoreId W) W).

Lemma moves_FreeGroupDbStoreId W a g : groups W !! a = Some g →
  (Z.to_nat (m_dbStoreId g) < length (GroupDbStore W))%nat → moves W (FreeGroupDbStoreId a) tt (freed (m_dbStoreId g) W).
Proof.
  intros Ha Hlt. unfold FreeGroupDbStoreId. eapply leads_deref; [exact Ha|]. intros g' He.
  rewrite (dbStoreId_proper _ _ He). apply leads_gets. intros w Hw.
  destruct (equiv_rest w W Hw) as (_ & _ & -> & _).
  eapply (leads_moves _ (with_NextGroupDbStoreId (if m_dbStoreId g <? NextGroupDbStoreId W then m_dbStoreId g
    else NextGroupDbStoreId W) W)).
  - destruct (m_dbStoreId g <? NextGroupDbStoreId W).
    + apply leads_unit, leads_modify; [apply _|]. by apply moves_ret.
    + apply moves_ret. by destruct W.
  - apply leads_gets. intros w2 Hw2. destruct (equiv_rest w2 _ Hw2) as (_ & -> & _). simpl.
    rewrite bool_decide_eq_true_2 by done. apply leads_unit.
    eapply (leads_modify _ (λ w, with_GroupDbStore (<[Z.to_nat (m_dbStoreId g) := None]> (GroupDbStore w)) w)); [apply _|].
    by apply moves_ret.
Qed.

Section Disbanding.
Context (X : gset Z) (W : World) (HW : world_ok X W) (a : Z) (g : Group) (Ha : groups W !! a = Some g).
Context (Hn : m_memberSlots g ≠ []) (Hstore : GroupStore W !! GUID_LOPART (m_guid g) = Some a).

Lemma disband_scatter : to_scatter a (m_memberSlots g) W.
Proof.
  pose proof (ok_group X W HW a g Ha) as Hg. split; [apply Hg|]. exists g. split; [done|]. split; [apply Hg|].
  intros s Hs. pose proof (elem_of_guids s g Hs) as Hin. destruct (online W !! slot_guid s) as [pl|] eqn:Hpl.
  - split; [by apply (member_target X W HW a g (slot_guid s))|apply (po_orig W _ _ (ok_player X W HW _ _ Hpl))].
  - intros Hr. destruct (go_refs X W a g Hg _ _ Hr) as (_ & pl & ? & _). congruence.
Qed.

(** The group when its members are gone. *)
Definition emptied (g : Group) : Group := with_memberSlots [] (with_rolls [] (with_memberMgr [] g)).

Lemma scatter_emptied :
  groups (g_upd a (λ g, with_memberSlots [] (with_rolls [] g)) (foldl (scatter a) W (m_memberSlots g))) !! a = Some (emptied g).
Proof.
  simpl. rewrite lookup_alter_eq, scatter_groups, Ha. simpl. rewrite ?decide_True by done. unfold emptied.
  assert (filter (λ x, x ∉ (λ s, (slot_guid s, false)) <$> m_memberSlots g) (m_memberMgr g) = []) as ->; [|done].
  destruct (filter _ _) as [|[q o] l] eqn:Hf; [done|]. exfalso.
  assert ((q, o) ∈ (q, o) :: l) as Hq by by left. rewrite <- Hf in Hq. apply list_elem_of_filter in Hq as [Hq Hin].
  apply Hq. destruct (ref_member X W HW a g q o Ha Hin) as [-> Hg].
  apply list_elem_of_fmap in Hg as (s & -> & Hs). apply list_elem_of_fmap. by exists s.
Qed.

Definition disbanded : World :=
  all_uninvited a (emptied g)
    (g_upd a (λ g, with_memberSlots [] (with_rolls [] g)) (foldl (scatter a) W (m_memberSlots g))).

Lemma disbanded_rest : group_member disbanded = group_member W ∧ GroupStore disbanded = GroupStore W ∧
  GroupDbStore disbanded = GroupDbStore W ∧ NextGroupDbStoreId disbanded = NextGroupDbStoreId W ∧
  NextGroupId disbanded = NextGroupId W.
Proof.
  unfold disbanded, all_uninvited. simpl.
  edestruct (uninvite_all_rest (elements (m_invitees g))) as (_ & -> & -> & -> & -> & ->). simpl.
  by destruct (scatter_rest a (m_memberSlots g) W) as (-> & -> & -> & -> & ->).
Qed.

Lemma disbanded_group : groups disbanded !! a = Some (with_invitees ∅ (emptied g)).
Proof.
  unfold disbanded, all_uninvited. simpl. edestruct (uninvite_all_rest (elements (m_invitees g))) as (-> & _).
  rewrite lookup_alter_eq. by rewrite scatter_emptied.
Qed.

Lemma disbanded_other b : b ≠ a → groups disbanded !! b = groups W !! b.
Proof.
  intros Hb. unfold disbanded, all_uninvited. simpl. edestruct (uninvite_all_rest (elements (m_invitees g))) as (-> & _).
  rewrite lookup_alter_ne by done. simpl. rewrite lookup_alter_ne by done. rewrite scatter_groups.
  destruct (groups W !! b); simpl; [|done]. by rewrite decide_False.
Qed.

Lemma disbanded_online q : pcore <$> online disbanded !! q = pcore <$> (forget a <$> online W !! q).
Proof.
  unfold disbanded, all_uninvited. simpl. rewrite uninvite_all_online. simpl. rewrite scatter_online.
  destruct (online W !! q) as [pl|] eqn:Hpl; simpl; [|done]. f_equal.
  assert (q ∈ slot_guid <$> m_memberSlots g ↔ target (m_group pl) = Some a) as H1.
  { split; intros Hin; [by apply (member_target X W HW a g q)|].
    destruct (po_group W q pl (ok_player X W HW q pl Hpl) a Hin) as (h & Hh & ? & _).
    by assert (h = g) as -> by congruence. }
  assert (q ∈ elements (m_invitees g) ↔ m_groupInvite pl = Some a) as H2.
  { rewrite elem_of_elements. split; intros Hin; [by apply (invitee_target X W HW a g q)|].
    destruct (po_invite W q pl (ok_player X W HW q pl Hpl) a Hin) as (_ & h & Hh & ?).
    by assert (h = g) as -> by congruence. }
  rewrite (decide_ext _ _ _ _ H1), (decide_ext _ _ _ _ H2). unfold pcore, forget.
  case_decide; case_decide; done.
Qed.

Lemma moves_Disband hide : moves W (Disband a hide) tt (dissolved a g W).
Proof.
  destruct disbanded_rest as (E1 & E2 & E3 & E4 & E5).
  pose proof (ok_group X W HW a g Ha) as Hg. destruct (go_live X W a g Hg Hn) as (H0 & Hdb & _).
  unfold Disband. apply leads_emit. eapply leads_deref; [exact Ha|]. intros g' He.
  rewrite (isBGGroup_proper _ _ He), (dbStoreId_proper _ _ He). unfold isBGGroup. rewrite (go_bg X W a g Hg).
  eapply leads_moves.
  { apply moves_disband_loop, (to_scatter_guids a (m_memberSlots g)); [|apply disband_scatter].
    symmetry. exact (guids_proper _ _ He). }
  rewrite (scatter_guids a (m_memberSlots g') (m_memberSlots g)) by exact (guids_proper _ _ He).
  cbv beta. apply leads_upd_group; [apply _|]. eapply leads_moves.
  { eapply moves_RemoveAllInvites; [exact scatter_emptied|]. intros q Hq. simpl. rewrite scatter_online.
    destruct (go_invites X W a g Hg q Hq) as (pl & -> & _). by eexists. }
  cbn [negb bool_decide].
  apply leads_assoc, leads_emit, leads_assoc, leads_emit, leads_assoc, leads_modify; [apply _|].
  do 2 apply leads_assoc, leads_emit.
  eapply leads_moves; [eapply moves_FreeGroupDbStoreId; [exact disbanded_group|]|].
  { change (GroupDbStore _) with (GroupDbStore disbanded). rewrite E3. by eapply lookup_lt_Some. }
  unfold RemoveGroup. apply leads_assoc. eapply leads_deref; [exact disbanded_group|]. intros g2 He2.
  rewrite (guid_proper _ _ He2).
  eapply (leads_modify _ (λ w, with_GroupStore (delete (GUID_LOPART (m_guid (with_invitees ∅ (emptied g)))) (GroupStore w)) w)); [apply _|].
  eapply moves_to; [eapply moves_delete_group; [exact disbanded_group|apply Hg|done]|].
  apply world_ext.
  - intros b. cbn [groups freed with_groups with_GroupStore with_GroupDbStore with_NextGroupDbStoreId with_group_member dissolved erased with_online].
    destruct (decide (b = a)) as [->|Hb]; [by rewrite !lookup_delete_eq|]. by rewrite !lookup_delete_ne, disbanded_other.
  - intros q. change (pcore <$> online disbanded !! q = pcore <$> (forget a <$> online W) !! q).
    rewrite lookup_fmap. apply disbanded_online.
  - change (delete (GUID_LOPART (m_guid g)) (GroupStore disbanded) = delete (GUID_LOPART (m_guid g)) (GroupStore W)). by rewrite E2.
  - change (<[Z.to_nat (m_dbStoreId g) := None]> (GroupDbStore disbanded) = <[Z.to_nat (m_dbStoreId g) := None]> (GroupDbStore W)).
    by rewrite E3.
  - change ((if m_dbStoreId g <? NextGroupDbStoreId disbanded then m_dbStoreId g else NextGroupDbStoreId disbanded) =
            (if m_dbStoreId g <? NextGroupDbStoreId W then m_dbStoreId g else NextGroupDbStoreId W)). by rewrite E4.
  - exact E5.
  - change (filter (λ x, x.2 ≠ m_dbStoreId g) (group_member disbanded) = filter (λ x, x.2 ≠ m_dbStoreId g) (group_member W)).
    by rewrite E1.
Qed.
End Disbanding.
