(* ===== verification/GroupLife.v ===== *)
(** * GroupLife: a group is created, changes its leader and its sub-groups, loses members *)

From Stdlib Require Import ZArith Lia.
From S2P Require Import Prelude ByteBuffer Guid LootRoll LootRollFacts GroupData Group GroupFacts GroupInv GroupSteps GroupWorlds GroupRun GroupBook GroupOps.
Local Open Scope Z_scope.

(** ** Slots *)

Lemma getMemberSlot_Some g p i s : _getMemberSlot g p = Some (i, s) → m_memberSlots g !! i = Some s ∧ slot_guid s = p.
Proof. unfold _getMemberSlot. intros (? & ? & _)%list_find_Some. done. Qed.

Lemma getMemberSlot_member g p : p ∈ guids g → ∃ i s, _getMemberSlot g p = Some (i, s).
Proof.
  intros (s & -> & Hs)%list_elem_of_fmap. destruct (list_find_elem_of (λ s', slot_guid s' = slot_guid s) _ s Hs eq_refl) as [[i s'] H].
  by exists i, s'.
Qed.

Lemma getMemberSlot_None g p : _getMemberSlot g p = None → p ∉ guids g.
Proof. intros H Hp. destruct (getMemberSlot_member g p Hp) as (i & s & ?). congruence. Qed.

(** Equivalent groups have the same players in the same places and sub-groups. *)
Lemma equiv_slot g g' i s : g' ≡ g → m_memberSlots g' !! i = Some s →
  ∃ s', m_memberSlots g !! i = Some s' ∧ slot_guid s' = slot_guid s ∧ slot_group s' = slot_group s.
Proof.
  intros He Hi. assert (strip_slot <$> m_memberSlots g' = strip_slot <$> m_memberSlots g) as H by (by injection He).
  apply (f_equal (lookup i)) in H. rewrite !list_lookup_fmap, Hi in H. symmetry in H.
  apply fmap_Some in H as (s' & ? & E). exists s'. injection E. auto.
Qed.

Lemma fit_g_upd a b f W : fit a W →
  (∀ g, groups W !! b = Some g → length (m_targetIcons (settings (f g))) = 8%nat ∧ ∀ x, x ∈ m_memberMgr (f g) → is_Some (online W !! x.1)) →
  fit a (g_upd b f W).
Proof.
  intros [[g Ha] Hf] Hb. split.
  - simpl. apply lookup_alter_is_Some. by eexists.
  - intros c h [(-> & h' & Hh & ->)|(_ & Hc)]%lookup_alter_Some; [by apply Hb|exact (Hf c h Hc)].
Qed.
Lemma fit_p_upd a p f W : fit a W → fit a (p_upd p f W).
Proof.
  intros [Ha Hf]. split; [done|]. intros b g Hb. destruct (Hf b g Hb) as [? Hx]. split; [done|].
  intros x Hin. simpl. by apply lookup_alter_is_Some, Hx.
Qed.

(** ** The leader *)

Lemma moves_ChangeLeader W a g p pl : groups W !! a = Some g → p ∈ guids g → online W !! p = Some pl → fit a W →
  moves W (ChangeLeader a p) tt (g_upd a (with_leaderGuid p) W).
Proof.
  intros Ha Hp Hpl Hfit. unfold ChangeLeader. eapply leads_deref; [exact Ha|]. intros g' He.
  rewrite <- (guids_proper _ _ He) in Hp. destruct (getMemberSlot_member g' p Hp) as (i & s & ->).
  apply leads_find; [|congruence]. intros pl1 pl' _ _. apply leads_emit. apply leads_when.
  { intros _. do 3 apply leads_emit. apply moves_emit. }
  apply leads_upd_group; [apply _|].
  assert (fit a (g_upd a (with_leaderGuid p) W)) as Hfit' by (apply fit_g_upd; [done|]; intros h Hh; exact (proj2 Hfit a h Hh)).
  eapply leads_calm; [apply _|exact Hfit'|]. eapply leads_calm; [apply _|exact Hfit'|].
  apply leads_unit. eapply leads_calm; [apply _|exact Hfit'|]. by apply moves_ret.
Qed.

Lemma moves_ChangeLeader_not W a g p : groups W !! a = Some g → p ∉ guids g ∨ online W !! p = None →
  moves W (ChangeLeader a p) tt W.
Proof.
  intros Ha Hp. unfold ChangeLeader. eapply leads_deref; [exact Ha|]. intros g' He.
  destruct (_getMemberSlot g' p) as [[i s]|] eqn:Hs; [|by apply moves_ret].
  apply leads_find; [|intros _; by apply moves_ret]. intros pl pl' Hpl _. exfalso.
  destruct Hp as [Hp|Hp]; [|congruence]. apply Hp. rewrite <- (guids_proper _ _ He).
  apply getMemberSlot_Some in Hs as [Hs <-]. by eapply elem_of_guids, list_elem_of_lookup_2.
Qed.

(** ** Rolls *)

Lemma moves_on_rolls E W a g p n : groups W !! a = Some g → NoDup (itemGUID <$> m_rolls g) →
  moves W (on_rolls E a (λ RE, RemoveMember_rolls RE p n)) tt
    (g_upd a (λ g, with_rolls (leave p <$> m_rolls g) g) W).
Proof.
  intros Ha Hnd w Hw. destruct (equiv_group w W Hw a g Ha) as (g' & Hg' & He). unfold on_rolls. rewrite Hg'.
  unfold RemoveMember_rolls. erewrite bind_ret_run by done. cbn [RollId with_RollId].
  rewrite remove_votes_run; [|simpl; by rewrite (rolls_proper _ _ He)|done]. simpl.
  eexists _, _. split; [done|]. split; [done|]. 
  transitivity (g_upd a (λ g, with_rolls (leave p <$> m_rolls g) g) w).
  - apply world_ext; try done. intros b. simpl. destruct (decide (b = a)) as [->|Hb].
    + by rewrite lookup_insert_eq, lookup_alter_eq, Hg'.
    + by rewrite lookup_insert_ne, lookup_alter_ne.
  - rewrite Hw. done.
Qed.

Lemma leave_items p (l : list Roll) : itemGUID <$> (leave p <$> l) = itemGUID <$> l.
Proof.
  rewrite <- list_fmap_compose. apply list_fmap_ext. intros i r _. simpl. unfold leave. by destruct (playerVote r !! p).
Qed.

(** ** A member leaves *)

(** His reference is cut; nothing happens to a member who is not in the server. *)
Lemma cut_offline X W a p g : world_ok X W → groups W !! a = Some g → online W !! p = None →
  W ≡ p_upd p (cut false) (g_upd a (drop_ref p) W).
Proof.
  intros HW Ha Hpl. symmetry. rewrite p_upd_same by (simpl; congruence). apply g_upd_same.
  intros h Hh. assert (h = g) as -> by congruence. unfold drop_ref. rewrite filter_all; [by destruct g|].
  intros x Hx ->. destruct (go_refs X W a g (ok_group X W HW a g Ha) _ _ Hx) as (_ & pl & ? & _). congruence.
Qed.

Lemma moves_release W a p g method pl pl' : groups W !! a = Some g → m_bgGroup g = None →
  online W !! p = Some pl → pl' ≡ pl → target (m_group pl) = Some a → target (m_originalGroup pl) = None →
  moves W (release a p method pl') tt (p_upd p (cut false) (g_upd a (drop_ref p) W)).
Proof.
  intros Ha Hbg Hpl He Ht Ho. unfold release. eapply leads_deref; [exact Ha|]. intros g' Hge.
  rewrite (isBGGroup_proper _ _ Hge). unfold isBGGroup. rewrite Hbg. rewrite (bool_decide_eq_false_2 (is_Some None)) by (by intros [? ?]).
  rewrite (GetOriginalGroup_proper _ _ He). unfold GetOriginalGroup. rewrite Ho, (bool_decide_eq_false_2 (None = Some a)) by done.
  apply leads_assoc. eapply leads_moves.
  - eapply moves_SetGroup_none; [exact Hpl|]. intros b Hb. rewrite Ht in Hb. injection Hb as <-. by rewrite Ha.
  - rewrite Ht. cbv beta. apply leads_emit, leads_when_emit, leads_emit, leads_unit, leads_emit. by apply moves_ret.
Qed.

Lemma moves_Delink W a p g : groups W !! a = Some g → (∀ o, (p, o) ∉ m_memberMgr g) → moves W (DelinkMember a p) tt W.
Proof.
  intros Ha Hp. unfold DelinkMember. eapply leads_deref; [exact Ha|]. intros g' He. rewrite (memberMgr_proper _ _ He).
  destruct (list_find _ _) as [[i [q o]]|] eqn:Hf; [|by apply moves_ret].
  apply list_find_Some in Hf as (Hi & Hq & _). simpl in Hq. subst q. exfalso. apply (Hp o). by eapply list_elem_of_lookup_2.
Qed.

Section Removing.
Context (E : GEnv) (X : gset Z) (W : World) (HW : world_ok X W) (a p : Z) (g : Group) (Ha : groups W !! a = Some g).

Lemma drop_ref_none o : (p, o) ∉ m_memberMgr (drop_ref p g).
Proof. intros [Hne Hin]%list_elem_of_filter. destruct (ref_member X W HW a g p o Ha Hin) as [-> _]. done. Qed.

Lemma left_parts i s s' l : m_memberSlots g !! i = Some s → slot_group s' = slot_group s →
  g_upd a (λ g, with_memberSlots (delete i (m_memberSlots g)) g)
    (g_upd a (λ g, with_subGroupsCounts (adjust (slot_group s') (-1) (m_subGroupsCounts g)) g)
      (g_upd a (λ g, with_rolls (l g) g)
        (with_group_member (delete p (group_member W)) (p_upd p (cut false) (g_upd a (drop_ref p) W)))))
  ≡ left_group a p i (slot_group s) (l (drop_ref p g)) W.
Proof.
  intros Hi Hs. apply world_ext; try done. intros b. simpl. destruct (decide (b = a)) as [->|Hb]; [|by rewrite !lookup_alter_ne].
  rewrite !lookup_alter_eq, Ha. simpl. rewrite Hs. done.
Qed.

Lemma fit_left : fit a (with_group_member (delete p (group_member W)) (p_upd p (cut false) (g_upd a (drop_ref p) W))).
Proof.
  change (fit a (p_upd p (cut false) (g_upd a (drop_ref p) W))). apply fit_p_upd, fit_g_upd; [by eapply ok_fit|].
  intros h Hh. destruct (proj2 (ok_fit X W a g HW Ha) a h Hh) as [Hl Hr]. split; [done|].
  intros x [_ Hx]%list_elem_of_filter. by apply Hr.
Qed.

End Removing.

(** ** The whole of [RemoveMember] *)

(** The players stay in the server and get no invitation. *)
Definition stays (W w : World) : Prop := ∀ q pl, online W !! q = Some pl →
  ∃ pl', online w !! q = Some pl' ∧ (m_groupInvite pl = None → m_groupInvite pl' = None).

Lemma stays_trans W1 W2 W3 : stays W1 W2 → stays W2 W3 → stays W1 W3.
Proof.
  intros H1 H2 q pl Hq. destruct (H1 q pl Hq) as (pl2 & Hq2 & Hi). destruct (H2 q pl2 Hq2) as (pl3 & ? & ?). exists pl3. auto.
Qed.

Lemma stays_equiv W w : w ≡ W → stays W w.
Proof.
  intros H q pl Hq. pose proof (equiv_player w W H q) as Hp. rewrite Hq in Hp. destruct Hp as (pl' & ? & He).
  exists pl'. split; [done|]. by rewrite (groupInvite_proper _ _ He).
Qed.

Lemma stays_same W w : online w = online W → stays W w.
Proof. intros H q pl Hq. exists pl. by rewrite H. Qed.

Lemma stays_p_upd p f W w : (∀ pl, m_groupInvite pl = None → m_groupInvite (f pl) = None) →
  online w = online (p_upd p f W) → stays W w.
Proof.
  intros Hf Hw q pl Hq. rewrite Hw. destruct (decide (q = p)) as [->|Hqp].
  - exists (f pl). split; [by apply p_upd_lookup|auto].
  - exists pl. by rewrite p_upd_lookup_ne.
Qed.

Lemma stays_left a p i sub l W : stays W (left_group a p i sub l W).
Proof. by apply (stays_p_upd p (cut false)). Qed.

Lemma stays_erased a W : stays W (erased a W).
Proof.
  intros q pl Hq. exists (forget a pl). simpl. rewrite lookup_fmap, Hq. split; [done|]. intros Hi.
  simpl. by case_decide.
Qed.

Lemma stays_dissolved a g W : stays W (dissolved a g W).
Proof. exact (stays_erased a W). Qed.

(** And the book of parties develops as its specification allows. *)
Definition keeps (W w : World) : Prop := stays W w ∧ develops W w.

Lemma keeps_then W1 W2 W3 : keeps W1 W2 → keeps W2 W3 → keeps W1 W3.
Proof. intros [H1 D1] [H2 D2]. split; [by eapply stays_trans|]. unfold develops in *. by etransitivity. Qed.

Lemma keeps_equiv W w : w ≡ W → keeps W w.
Proof. intros H. split; [by apply stays_equiv|]. apply develops_same. by rewrite H. Qed.

Lemma keeps_dissolved a g W : keeps W (dissolved a g W).
Proof. split; [apply stays_dissolved|]. by eapply develops_delete, book_dissolved. Qed.

Definition safe (W : World) {A} (p : gw A) : Prop := leads W p (λ _ w, world_ok ∅ w ∧ keeps W w).

Lemma safe_moves W {A} (p : gw A) x W' : moves W p x W' → world_ok ∅ W' → keeps W W' → safe W p.
Proof.
  intros Hp Hok Hk. eapply moves_leads; [exact Hp|]. intros w Hw. split; [by rewrite Hw|].
  eapply keeps_then; [exact Hk|by apply keeps_equiv].
Qed.

Lemma safe_then W {A B} (p : gw A) x W' (k : A → gw B) : moves W p x W' → keeps W W' → safe W' (k x) → safe W (p ≫= k).
Proof.
  intros Hp Hk Hs. eapply leads_moves; [exact Hp|]. eapply leads_conseq; [exact Hs|]. intros y w [? ?].
  split; [done|]. by eapply keeps_then.
Qed.

Lemma safe_end W W' {A} (p : gw A) x : world_ok ∅ W' → keeps W W' → moves W' p x W' → leads W' p (λ _ w, world_ok ∅ w ∧ keeps W w).
Proof.
  intros Hok Hk Hp. eapply moves_leads; [exact Hp|]. intros w Hw. split; [by rewrite Hw|].
  eapply keeps_then; [exact Hk|by apply keeps_equiv].
Qed.

Lemma moves_calm a W p : Calm a p → fit a W → moves W p tt W.
Proof. intros Hp Hfit. apply leads_unit. eapply leads_calm; [exact Hp|exact Hfit|]. by apply moves_ret. Qed.

Lemma online_ref X W a g p pl : world_ok X W → groups W !! a = Some g → p ∈ guids g → online W !! p = Some pl →
  (1 <= length (m_memberMgr g))%nat.
Proof.
  intros HW Ha Hp Hpl. pose proof (member_ref X W HW a g p pl Ha Hp Hpl) as Hin. destruct (m_memberMgr g); [by apply not_elem_of_nil in Hin|simpl; lia].
Qed.

Lemma pick_leader_leads V a h : groups V !! a = Some h → fit a V →
  leads V (pick_leader a) (λ _ w, (∃ q, q ∈ guids h ∧ is_Some (online V !! q) ∧ w ≡ g_upd a (with_leaderGuid q) V) ∨
    (w ≡ V ∧ ∀ q, q ∈ guids h → online V !! q = None)).
Proof.
  intros Ha Hfit. unfold pick_leader. eapply leads_deref; [exact Ha|]. intros g' He.
  apply leads_gets. intros w Hw. destruct (list_find _ _) as [[i s]|] eqn:Hf.
  - apply list_find_Some in Hf as (Hi & [pl Hpl] & _).
    assert (slot_guid s ∈ guids h) as Hin by (rewrite <- (guids_proper _ _ He); by eapply elem_of_guids, list_elem_of_lookup_2).
    pose proof (equiv_player V w (symmetry Hw) (slot_guid s)) as Hpl'. rewrite Hpl in Hpl'. destruct Hpl' as (pl' & Hpl' & _).
    eapply moves_leads; [by eapply moves_ChangeLeader|]. intros w' Hw'. left. exists (slot_guid s). by rewrite Hpl'.
  - apply list_find_None in Hf. rewrite Forall_forall in Hf. eapply (moves_leads _ _ _ V); [by apply moves_ret|]. intros w' Hw'.
    right. split; [done|]. intros q. rewrite <- (guids_proper _ _ He). intros (s & -> & Hs)%list_elem_of_fmap.
    destruct (online V !! slot_guid s) as [pl|] eqn:Hpl; [|done]. exfalso. apply (Hf s Hs).
    pose proof (equiv_player w V Hw (slot_guid s)) as Hpl'. rewrite Hpl in Hpl'. destruct Hpl' as (pl' & ? & _). by eexists.
Qed.

(** The members that are left get the news; a group with fewer than two of them in the
    server ends. *)
Definition after_removal (a : Z) : gw bool :=
  SendUpdate a;;
  g ← deref a;
  (if Z.of_nat (length (m_memberMgr g)) <? (if isBGGroup g then 1 else 2) then Disband a false else mret tt);;
  mret true.

Lemma diff_within (a : Z) (X : gset Z) : X ⊆ {[a]} → X ∖ {[a]} = ∅.
Proof. set_solver. Qed.

(** The world [V] with the group [h] at [a] after a removal, and the end result [w]. *)
Definition removal_result (a : Z) (h : Group) (V w : World) : Prop :=
  if decide (length (m_memberMgr h) < 2)%nat then w ≡ dissolved a h V else w ≡ V.

Lemma after_removal_leads X V a h : world_ok X V → groups V !! a = Some h → m_memberSlots h ≠ [] →
  leads V (after_removal a) (λ r w, r = true ∧ removal_result a h V w).
Proof.
  intros HV Ha Hn. unfold after_removal. eapply leads_calm; [apply _|by eapply ok_fit|].
  eapply leads_deref; [exact Ha|]. intros g' He. rewrite (memberMgr_proper _ _ He), (isBGGroup_proper _ _ He).
  unfold isBGGroup. rewrite (go_bg X V a h (ok_group X V HV a h Ha)), (bool_decide_eq_false_2 (is_Some None)) by (by intros [? ?]).
  unfold removal_result. destruct (Z.ltb_spec (Z.of_nat (length (m_memberMgr h))) 2) as [Hlt|Hge].
  - eapply leads_moves; [by apply (moves_Disband X V HV a h Ha Hn)|]. apply leads_ret. intros w Hw. split; [done|].
    rewrite decide_True by lia. exact Hw.
  - apply leads_ret_unit, leads_ret. intros w Hw. split; [done|]. rewrite decide_False by lia. exact Hw.
Qed.

(** A raid has at most forty members. *)
Lemma count_all (l : list MemberSlot) : (∀ s, s ∈ l → 0 <= slot_group s < MAX_RAID_SUBGROUPS) →
  Z.of_nat (length l) = foldr Z.add 0 ((λ k, Z.of_nat (count_of k l)) <$> [0; 1; 2; 3; 4; 5; 6; 7]).
Proof.
  unfold MAX_RAID_SUBGROUPS. induction l as [|s l IH]; intros Hl; [done|].
  assert (∀ k, count_of k (s :: l) = ((if decide (slot_group s = k) then 1 else 0) + count_of k l)%nat) as Hcons.
  { intros k. change (s :: l) with ([s] ++ l). by rewrite count_of_app, count_of_one. }
  specialize (Hl s (list_elem_of_here s l)) as Hsg. specialize (IH (λ x Hx, Hl x (list_elem_of_further x s l Hx))).
  simpl length. rewrite Nat2Z.inj_succ, IH. cbn [fmap list_fmap foldr]. rewrite !Hcons. repeat case_decide; lia.
Qed.

Lemma group_size g : counts_ok g → (length (m_memberSlots g) <= 40)%nat.
Proof.
  intros Hc. destruct (counts_bounds g Hc) as [Hb Hs].
  enough (Z.of_nat (length (m_memberSlots g)) <= 40) by lia.
  rewrite (count_all _ Hs). cbn [fmap list_fmap foldr].
  pose proof (Hb 0). pose proof (Hb 1). pose proof (Hb 2). pose proof (Hb 3). pose proof (Hb 4). pose proof (Hb 5).
  pose proof (Hb 6). pose proof (Hb 7). unfold in_subgroup, MAX_RAID_SUBGROUPS, MAXGROUPSIZE in *.
  unfold count_of in *. lia.
Qed.

(** A raid without a free place has forty members. *)
Lemma raid_full g : counts_ok g → isRaidGroup g = true → new_subgroup g = None → length (m_memberSlots g) = 40%nat.
Proof.
  intros Hc Hr Hnew. destruct (counts_bounds g Hc) as [_ Hs]. unfold counts_ok, new_subgroup in *. rewrite Hr in Hc.
  destruct Hc as (c & Hcs & Hl & Hn & _). rewrite Hcs in Hnew.
  assert (∀ i c, free_subgroup i c = None → ∀ k n, c !! k = Some n → MAXGROUPSIZE <= n) as Hfree.
  { clear. intros i c. revert i. induction c as [|m c IH]; intros i; simpl; [by intros _ [|?] ?|].
    destruct (Z.ltb_spec m MAXGROUPSIZE); [done|]. intros H' [|k] n; simpl; [by intros [= <-]|]. by eapply IH. }
  assert (∀ k, 0 <= k < 8 → Z.of_nat (count_of k (m_memberSlots g)) = 5) as Hall.
  { intros k Hk. destruct (lookup_lt_is_Some_2 c (Z.to_nat k)) as [n Hkn]; [lia|].
    pose proof (Hfree 0 c Hnew _ n Hkn). destruct (Hn _ n Hkn) as [Heq Hle]. rewrite Z2Nat.id in Heq by lia.
    unfold MAXGROUPSIZE, in_subgroup, count_of in *. lia. }
  enough (Z.of_nat (length (m_memberSlots g)) = 40) by lia. rewrite (count_all _ Hs). cbn [fmap list_fmap foldr].
  by rewrite !Hall by lia.
Qed.

(** The place that is given out is in the first sub-group with room. *)
Lemma first_subgroup g sub : counts_ok g → new_subgroup g = Some sub →
  ∀ k, 0 <= k < sub → Z.of_nat (in_subgroup g k) = MAXGROUPSIZE.
Proof.
  intros Hc Hsub k Hk. unfold counts_ok, new_subgroup in *. destruct (isRaidGroup g).
  - destruct Hc as (c & Hcs & Hl & Hn & _). rewrite Hcs in Hsub.
    assert (∀ c i j, free_subgroup i c = Some j → ∀ k n, c !! k = Some n → i + Z.of_nat k < j → MAXGROUPSIZE <= n) as Hfree.
    { clear. induction c as [|m c IH]; intros i j; simpl; [done|]. destruct (Z.ltb_spec m MAXGROUPSIZE).
      - intros [= <-] k n _ Hk. lia.
      - intros H' [|k] n; simpl; [by intros [= <-]|]. intros Hk Hlt. apply (IH (i + 1) j H' k n Hk). lia. }
    destruct (free_subgroup_spec c 0 sub Hsub) as (k' & n' & -> & Hk' & _). apply lookup_lt_Some in Hk'.
    destruct (lookup_lt_is_Some_2 c (Z.to_nat k)) as [n Hkn]; [lia|]. destruct (Hn _ n Hkn) as [Heq Hle].
    pose proof (Hfree c 0 _ Hsub (Z.to_nat k) n Hkn ltac:(lia)). rewrite Z2Nat.id in Heq by lia. lia.
  - destruct Hc as (Hcs & _). rewrite Hcs in Hsub. injection Hsub as <-. lia.
Qed.

Lemma members_count g : counts_ok g → GetMembersCount g = Z.of_nat (length (m_memberSlots g)).
Proof. intros Hc. pose proof (group_size g Hc). apply uwrap_small. unfold in_u. lia. Qed.

Lemma singleton_diff (a : Z) : ({[a]} : gset Z) ∖ {[a]} = ∅.
Proof. set_solver. Qed.

Lemma removal_result_ok V a h w : world_ok {[a]} V → groups V !! a = Some h → m_memberSlots h ≠ [] →
  GroupStore V !! GUID_LOPART (m_guid h) = Some a →
  (m_leaderGuid h ∈ guids h ∨ ∀ q, q ∈ guids h → online V !! q = None) →
  removal_result a h V w → world_ok ∅ w ∧ stays V w.
Proof.
  intros HV Ha Hn Hst Hl. unfold removal_result. case_decide as Hm; intros Hw.
  - split; [|eapply stays_trans; [apply stays_dissolved|by apply stays_equiv]].
    rewrite Hw, <- (singleton_diff a). by apply ok_dissolved.
  - split; [|by apply stays_equiv]. rewrite Hw, <- (singleton_diff a). eapply ok_settle; [exact HV|exact Ha|done|].
    intros _. split; [|exact Hst]. destruct Hl as [?|Hoff]; [done|].
    destruct (m_memberMgr h) as [|[q o] r] eqn:Hr; [simpl in Hm; lia|].
    assert ((q, o) ∈ m_memberMgr h) as Hin by (rewrite Hr; by left).
    destruct (ref_member _ V HV a h q o Ha Hin) as [_ Hq].
    destruct (go_refs _ V a h (ok_group _ V HV a h Ha) q o Hin) as (_ & ql & Hql & _). rewrite (Hoff q Hq) in Hql. done.
Qed.

Section Remove.
Context (E : GEnv) (W : World) (HW : world_ok ∅ W) (a p : Z) (g : Group) (Ha : groups W !! a = Some g) (Hp : p ∈ guids g).

(** A group that keeps members keeps its leader, or takes a new one among those in the server. *)
Definition new_leader (V0 : World) (h0 : Group) (V : World) (h : Group) : Prop :=
  if decide (m_leaderGuid g = p) then
    (∃ q, q ∈ guids h0 ∧ is_Some (online V0 !! q) ∧ V = g_upd a (with_leaderGuid q) V0 ∧ h = with_leaderGuid q h0) ∨
    (V = V0 ∧ h = h0 ∧ ∀ q, q ∈ guids h0 → online V0 !! q = None)
  else V = V0 ∧ h = h0.

Definition left_behind (i : nat) (s : MemberSlot) : Group := with_rolls (leave p <$> m_rolls g) (remove_slot i p (slot_group s) g).
Definition leaving (i : nat) (s : MemberSlot) : World := left_group a p i (slot_group s) (leave p <$> m_rolls g) W.

Section End_.
Context (i : nat) (s : MemberSlot) (Hi : m_memberSlots g !! i = Some s) (Hsp : slot_guid s = p).
Context (Hlen : (2 < length (m_memberSlots g))%nat).

Lemma leaving_ok : world_ok {[a]} (leaving i s) ∧ groups (leaving i s) !! a = Some (left_behind i s) ∧
  m_memberSlots (left_behind i s) ≠ [] ∧ GroupStore (leaving i s) !! GUID_LOPART (m_guid (left_behind i s)) = Some a.
Proof.
  split_and!.
  - rewrite <- (union_empty_l_L {[a]}). apply (ok_left ∅ W HW a p g Ha i s Hi Hsp); [|lia]. rewrite leave_items.
    apply (ok_group ∅ W HW a g Ha).
  - simpl. by rewrite lookup_alter_eq, Ha.
  - intros Hn. pose proof (f_equal length Hn) as Hn'. simpl in Hn'. rewrite length_delete in Hn' by eauto. lia.
  - destruct (go_live ∅ W a g (ok_group ∅ W HW a g Ha) (slots_of_guid p g Hp)) as (_ & _ & Hlive).
    by destruct (Hlive (not_elem_of_empty a)) as [_ Hst].
Qed.

Lemma removal_end : leads (leaving i s) ((if m_leaderGuid g =? p then pick_leader a else mret tt);; after_removal a)
  (λ r w, r = true ∧ ∃ V h, new_leader (leaving i s) (left_behind i s) V h ∧ removal_result a h V w).
Proof.
  destruct leaving_ok as (HV & HVa & Hn & Hst). set (V := leaving i s) in *. set (h := left_behind i s) in *.
  assert (∀ V' h', world_ok {[a]} V' → groups V' !! a = Some h' → m_memberSlots h' ≠ [] → new_leader V h V' h' →
    leads V' (after_removal a) (λ r w, r = true ∧ ∃ V h, new_leader (leaving i s) (left_behind i s) V h ∧ removal_result a h V w)) as Hend.
  { intros V' h' HV' Ha' Hn' Hnew. eapply leads_conseq; [by eapply after_removal_leads|]. intros r w [-> Hw].
    split; [done|]. by exists V', h'. }
  destruct (Z.eqb_spec (m_leaderGuid g) p) as [Hlp|Hlp].
  - eapply leads_bind; [apply (pick_leader_leads V a h HVa); by eapply ok_fit|]. intros [] w Hw. cbv beta.
    destruct Hw as [(q & Hq & Hon & Hw)|[Hw Hoff]]; rewrite Hw.
    + apply (Hend _ (with_leaderGuid q h)); [by eapply ok_leader|by apply g_upd_lookup|done|].
      unfold new_leader. rewrite decide_True by done. left. eauto.
    + apply (Hend V h); [done|done|done|]. unfold new_leader. rewrite decide_True by done. by right.
  - apply leads_ret_unit, (Hend V h); [done|done|done|]. unfold new_leader. by rewrite decide_False.
Qed.

Lemma new_leader_stays V h w : new_leader (leaving i s) (left_behind i s) V h → removal_result a h V w → world_ok ∅ w ∧ stays W w.
Proof.
  destruct leaving_ok as (HV0 & Ha0 & Hn0 & Hst0). intros Hnew Hres.
  assert (stays W (leaving i s)) as Hk0 by apply stays_left.
  destruct (go_live ∅ W a g (ok_group ∅ W HW a g Ha) (slots_of_guid p g Hp)) as (_ & _ & Hlive).
  destruct (Hlive (not_elem_of_empty a)) as [Hlead _].
  assert (world_ok ∅ w ∧ stays V w ∧ online V = online (leaving i s)) as (? & Hk & Ho).
  { unfold new_leader in Hnew. case_decide as Hlp; [destruct Hnew as [(q & Hq & Hon & -> & ->)|(-> & -> & Hoff)]|destruct Hnew as [-> ->]].
    - destruct (removal_result_ok (g_upd a (with_leaderGuid q) (leaving i s)) a (with_leaderGuid q (left_behind i s)) w)
        as [? ?]; [by eapply ok_leader|by apply g_upd_lookup|done|exact Hst0|by left|done|done].
    - destruct (removal_result_ok (leaving i s) a (left_behind i s) w) as [? ?]; [done|done|done|done|by right|done|done].
    - destruct (removal_result_ok (leaving i s) a (left_behind i s) w) as [? ?]; [done|done|done|done|left|done|done].
      apply (guids_left ∅ W HW a p g Ha i s Hi Hsp). done. }
  split; [done|]. eapply stays_trans; [exact Hk0|]. intros q ql. rewrite <- Ho. apply Hk.
Qed.

(** The members who are left and in the server. *)
Definition remaining : list Z := filter (λ q, q ≠ p ∧ is_Some (online W !! q)) (guids g).

Lemma remaining_refs : length (m_memberMgr (left_behind i s)) = length remaining.
Proof.
  unfold remaining. rewrite <- (length_fmap fst (m_memberMgr _)). apply Permutation_length, NoDup_Permutation.
  - apply NoDup_fmap_2_strong; [|apply NoDup_filter, (go_refs_nodup ∅ W a g (ok_group ∅ W HW a g Ha))].
    intros [q o] [q' o'] [_ H1]%list_elem_of_filter [_ H2]%list_elem_of_filter. simpl.
    destruct (ref_member ∅ W HW a g q o Ha H1) as [-> _]. destruct (ref_member ∅ W HW a g q' o' Ha H2) as [-> _]. by intros ->.
  - apply NoDup_filter, (go_nodup ∅ W a g (ok_group ∅ W HW a g Ha)).
  - intros q. rewrite list_elem_of_filter, list_elem_of_fmap. split.
    + intros ([q' o] & -> & [Hne Hin]%list_elem_of_filter). destruct (ref_member ∅ W HW a g q' o Ha Hin) as [-> Hg].
      destruct (go_refs ∅ W a g (ok_group ∅ W HW a g Ha) q' false Hin) as (_ & pl & Hpl & _). simpl. split_and!; [|by eexists|done].
      intros ->. by apply Hne.
    + intros ((Hne & [pl Hpl]) & Hin). exists (q, false). split; [done|]. apply list_elem_of_filter. split; [by intros [= ->]|].
      by eapply (member_ref ∅ W HW a g q pl).
Qed.

(** The party goes on with a leader, or is dissolved when fewer than two remain. *)
Lemma removal_book V h w : new_leader (leaving i s) (left_behind i s) V h → removal_result a h V w →
  if decide (length remaining < 2)%nat then book w = delete a (book W)
  else ∃ q, q ∈ guids g ∧ q ≠ p ∧ (if decide (m_leaderGuid g = p) then is_Some (online W !! q) else q = m_leaderGuid g) ∧
    book w = <[a := mkParty q (isRaidGroup g) (filter (λ x, x.1 ≠ p) (roster g))]> (book W).
Proof.
  intros Hnew Hres. destruct leaving_ok as (HV0 & Ha0 & Hn0 & _). pose proof (ok_group ∅ W HW a g Ha) as Hg.
  pose proof (book_left a p i s (leave p <$> m_rolls g) W g Ha (go_nodup ∅ W a g Hg) Hi Hsp ltac:(lia)) as Hbook.
  fold (leaving i s) in Hbook. pose proof (λ q, guids_left ∅ W HW a p g Ha i s Hi Hsp q (slot_group s)) as Hgl.
  assert (∀ q, is_Some (online (leaving i s) !! q) ↔ is_Some (online W !! q)) as Hon.
  { intros q. simpl. split; [apply lookup_alter_is_Some|]. intros ?. by apply lookup_alter_is_Some. }
  assert (∀ q, roster (with_leaderGuid q (left_behind i s)) = filter (λ x, x.1 ≠ p) (roster g)) as Hros.
  { intros q. pose proof (book_of_group _ a _ Ha0 Hn0) as H. rewrite Hbook, lookup_insert_eq in H. by injection H. }
  assert (m_memberMgr h = m_memberMgr (left_behind i s)) as Hm.
  { unfold new_leader in Hnew. case_decide; [destruct Hnew as [(? & _ & _ & _ & ->)|(_ & -> & _)]|destruct Hnew as [_ ->]]; done. }
  unfold removal_result in Hres. rewrite Hm, remaining_refs in Hres.
  assert (∀ P, book V = <[a := P]> (book W) → book (dissolved a h V) = delete a (book W)) as Hdis
    by (intros P HP; by rewrite book_dissolved, HP, delete_insert_eq).
  unfold new_leader in Hnew.
  destruct (decide (m_leaderGuid g = p)) as [Hlp|Hlp]; [destruct Hnew as [(q & Hq & Hqon & -> & ->)|(-> & -> & Hoff)]|destruct Hnew as [-> ->]].
  - assert (book (g_upd a (with_leaderGuid q) (leaving i s)) =
      <[a := mkParty q (isRaidGroup g) (filter (λ x, x.1 ≠ p) (roster g))]> (book W)) as HbV.
    { by rewrite (book_g_upd a (with_leaderGuid q) _ _ Ha0 Hn0), Hros, Hbook, insert_insert_eq. }
    apply Hgl in Hq as [Hq Hne]. case_decide; rewrite ?(book_proper _ _ Hres); [by eapply Hdis|].
    exists q. split_and!; [done|done|by apply Hon|exact HbV].
  - case_decide as Hle; rewrite ?(book_proper _ _ Hres); [by eapply Hdis|]. exfalso. apply Hle.
    destruct remaining as [|q l] eqn:Hr; [simpl; lia|]. assert (q ∈ remaining) as Hq by (rewrite Hr; by left).
    unfold remaining in Hq. apply list_elem_of_filter in Hq as ((Hne & Hqon) & Hq).
    destruct (proj2 (Hon q) Hqon) as [ql Hql]. rewrite Hoff in Hql; [done|]. by apply Hgl.
  - case_decide; rewrite ?(book_proper _ _ Hres); [by eapply Hdis|]. exists (m_leaderGuid g). split_and!; [|done|done|exact Hbook].
    destruct (go_live ∅ W a g Hg (slots_of_guid p g Hp)) as (_ & _ & Hlive). apply (Hlive (not_elem_of_empty a)).
Qed.

Lemma new_leader_ok V h w : new_leader (leaving i s) (left_behind i s) V h → removal_result a h V w → world_ok ∅ w ∧ keeps W w.
Proof.
  intros Hnew Hres. destruct (new_leader_stays V h w Hnew Hres) as [Hok Hst]. split; [done|]. split; [done|].
  pose proof (removal_book V h w Hnew Hres) as Hb. case_decide; [by eapply develops_delete|].
  destruct Hb as (q & Hq & Hne & Hl & Hb). apply (develops_left W w a p q g); [done|done|done|done| |done].
  intros Hlp. by rewrite decide_False in Hl.
Qed.

End End_.

(** What follows when the player object has been dealt with. *)
Definition removal_rest (g' : Group) (reset : bool) : gw bool :=
  gemit (Execute CHAR_DEL_GROUP_MEMBER [GUID_LOPART p]);;
  delete_member_row p;;
  DelinkMember a p;;
  (if reset then ResetMaxEnchantingLevel E a else mret tt);;
  on_rolls E a (λ RE, RemoveMember_rolls RE p (GetMembersCount g'));;
  match _getMemberSlot g' p with
  | Some (i, slot) =>
    SubGroupCounterDecrease a (slot_group slot);;
    upd_group a (λ g, with_memberSlots (delete i (m_memberSlots g)) g)
  | None => mret tt
  end;;
  (if m_leaderGuid g' =? p then pick_leader a else mret tt);;
  after_removal a.

Lemma removal_rest_leads g' b Q : g' ≡ g →
  (∀ i s, m_memberSlots g !! i = Some s → slot_guid s = p →
     leads (leaving i s) ((if m_leaderGuid g =? p then pick_leader a else mret tt);; after_removal a) Q) →
  leads (p_upd p (cut false) (g_upd a (drop_ref p) W)) (removal_rest g' b) Q.
Proof.
  intros He HQ. pose proof (ok_group ∅ W HW a g Ha) as Hg.
  set (W1 := p_upd p (cut false) (g_upd a (drop_ref p) W)). set (W2 := with_group_member (delete p (group_member W)) W1).
  assert (groups W2 !! a = Some (drop_ref p g)) as Ha2 by (by apply g_upd_lookup).
  destruct (getMemberSlot_member g' p) as (i & s & Hf); [by rewrite (guids_proper _ _ He)|].
  destruct (getMemberSlot_Some _ _ _ _ Hf) as [Hi Hs]. destruct (equiv_slot g g' i s He Hi) as (s0 & Hi0 & Hs0 & Hsub).
  assert (∀ c, m_subGroupsCounts g = Some c → length c = 8%nat ∧ 0 <= slot_group s < MAX_RAID_SUBGROUPS) as Hc.
  { intros c Hcs. rewrite <- Hsub. split.
    - pose proof (go_counts ∅ W a g Hg) as Hcok. unfold counts_ok in Hcok.
      destruct (isRaidGroup g); [destruct Hcok as (? & ? & ? & _); congruence|destruct Hcok; congruence].
    - apply (counts_bounds g (go_counts ∅ W a g Hg)). by eapply list_elem_of_lookup_2. }
  unfold removal_rest. apply leads_emit, leads_modify; [apply _|]. fold W2.
  eapply leads_moves; [apply (moves_Delink W2 a p (drop_ref p g) Ha2); intros o; by apply (drop_ref_none ∅ W HW a p g Ha)|].
  eapply leads_moves.
  { destruct b; [|by apply moves_ret]. apply leads_unit. eapply leads_calm; [apply _|by apply (fit_left ∅ W HW a p g Ha)|].
    by apply moves_ret. }
  eapply leads_moves; [apply (moves_on_rolls E W2 a (drop_ref p g) p _ Ha2), Hg|]. cbv beta. rewrite Hf.
  apply leads_assoc. eapply leads_moves; [eapply moves_count; [by apply g_upd_lookup|exact Hc]|]. cbv beta.
  apply leads_upd_group.
  { intros x y Hxy. unfold equiv, group_equiv, gcore in *. injection Hxy; intros. simpl. f_equal; try assumption.
    - rewrite !list_fmap_delete. congruence.
    - unfold blank; by f_equal. }
  unfold W2, W1. rewrite (left_parts W a p g Ha i s0 s (λ g, leave p <$> m_rolls g)) by done.
  rewrite (leaderGuid_proper _ _ He). apply HQ; [done|congruence].
Qed.

Lemma RemoveMember_leads method kicker Q :
  ((length (m_memberSlots g) <= 2)%nat → ∀ w, w ≡ dissolved a g W → Q false w) →
  ((2 < length (m_memberSlots g))%nat → ∀ i s, m_memberSlots g !! i = Some s → slot_guid s = p →
     leads (leaving i s) ((if m_leaderGuid g =? p then pick_leader a else mret tt);; after_removal a) Q) →
  leads W (RemoveMember E a p method kicker) Q.
Proof.
  intros Hsmall Hlarge. pose proof (ok_group ∅ W HW a g Ha) as Hg. pose proof (slots_of_guid p g Hp) as Hn.
  pose proof (ok_fit ∅ W a g HW Ha) as Hfit.
  unfold RemoveMember. eapply leads_calm; [apply _|exact Hfit|]. apply leads_emit.
  eapply leads_deref; [exact Ha|]. intros g' He.
  assert (isBGGroup g' = false) as -> by (rewrite (isBGGroup_proper _ _ He); unfold isBGGroup; by rewrite (go_bg ∅ W a g Hg)).
  destruct (Z.ltb_spec 2 (GetMembersCount g')) as [Hlen|Hlen];
    rewrite (GetMembersCount_proper _ _ He), (members_count g (go_counts ∅ W a g Hg)) in Hlen.
  - assert ((2 < length (m_memberSlots g))%nat) as Hlen' by lia. specialize (Hlarge Hlen'). apply leads_find.
    + intros pl pl' Hpl Hpe. eapply leads_moves; [|apply (removal_rest_leads g' _ _ He Hlarge)].
      apply (moves_release _ _ _ g _ pl); [done|apply Hg|done|done|by apply (member_target ∅ W HW a g p)|].
      apply (po_orig W p pl (ok_player ∅ W HW p pl Hpl)).
    + intros Hpl. eapply leads_moves; [|apply (removal_rest_leads g' _ _ He Hlarge)].
      apply moves_ret. by apply (cut_offline ∅ W a p g).
  - eapply leads_moves; [by apply (moves_Disband ∅ W HW a g Ha Hn)|]. apply leads_ret, Hsmall. lia.
Qed.

Lemma RemoveMember_safe method kicker : safe W (RemoveMember E a p method kicker).
Proof.
  destruct (go_live ∅ W a g (ok_group ∅ W HW a g Ha) (slots_of_guid p g Hp)) as (_ & _ & Hlive).
  destruct (Hlive (not_elem_of_empty a)) as [_ Hst]. apply RemoveMember_leads.
  - intros _ w Hw. split; [|eapply keeps_then; [apply keeps_dissolved|by apply keeps_equiv]].
    rewrite Hw. pose proof (ok_dissolved ∅ W a g HW Ha (slots_of_guid p g Hp) Hst) as H. by rewrite (diff_within a ∅) in H.
  - intros Hlen i s Hi Hs. eapply leads_conseq; [by apply removal_end|]. intros r w (_ & V & h & Hnew & Hres).
    by eapply new_leader_ok.
Qed.

End Remove.

(** ** The group becomes a raid *)

Definition tally (c : option (list Z)) (l : list MemberSlot) : option (list Z) := foldl (λ c s, adjust (slot_group s) 1 c) c l.

Lemma tally_spec l : ∀ c, length c = 8%nat → (∀ s, s ∈ l → 0 <= slot_group s < MAX_RAID_SUBGROUPS) →
  (∀ i n, c !! i = Some n → 0 <= n ∧ n + Z.of_nat (count_of (Z.of_nat i) l) < 256) →
  ∃ c', tally (Some c) l = Some c' ∧ length c' = 8%nat ∧
    ∀ i n, c !! i = Some n → c' !! i = Some (n + Z.of_nat (count_of (Z.of_nat i) l)).
Proof.
  induction l as [|s l IH]; intros c Hl Hs Hn.
  - exists c. split_and!; [done|done|]. intros i n ->. by rewrite Z.add_0_r.
  - assert (∀ k, count_of k (s :: l) = ((if decide (slot_group s = k) then 1 else 0) + count_of k l)%nat) as Hcons.
    { intros k. change (s :: l) with ([s] ++ l). by rewrite count_of_app, count_of_one. }
    pose proof (Hs s ltac:(by left)) as Hrange.
    set (c1 := alter (λ n, uwrap 8 (n + 1)) (Z.to_nat (slot_group s)) c).
    assert (∀ i n, c !! i = Some n → c1 !! i = Some (n + if decide (slot_group s = Z.of_nat i) then 1 else 0)) as Hc1.
    { intros i n Hi. destruct (Hn i n Hi) as [H0 H1]. rewrite Hcons in H1. unfold c1. case_decide as Hd.
      - rewrite <- Hd, Nat2Z.id || replace (Z.to_nat (slot_group s)) with i by lia. rewrite list_lookup_alter_eq, Hi. simpl.
        rewrite uwrap_small; [done|unfold in_u; lia].
      - rewrite list_lookup_alter_ne by lia. rewrite Hi. f_equal. lia. }
    assert (∀ i n1, c1 !! i = Some n1 → ∃ n, c !! i = Some n) as Hback.
    { intros i n1 Hi. apply lookup_lt_is_Some. pose proof (lookup_lt_Some _ _ _ Hi). unfold c1 in *. by rewrite length_alter in *. }
    destruct (IH c1) as (c' & Ht & Hl' & Hc').
    + unfold c1. by rewrite length_alter.
    + intros s' Hs'. apply Hs. by right.
    + intros i n1 Hi. destruct (Hback i n1 Hi) as [n Hi0]. rewrite (Hc1 i n Hi0) in Hi. injection Hi as <-.
      destruct (Hn i n Hi0) as [H0 H1]. rewrite Hcons in H1. case_decide; lia.
    + exists c'. split_and!; [exact Ht|done|]. intros i n Hi. rewrite (Hc' i _ (Hc1 i n Hi)), Hcons. f_equal. case_decide; lia.
Qed.

Definition count_slot (a : Z) (W : World) (s : MemberSlot) : World :=
  g_upd a (λ g, with_subGroupsCounts (adjust (slot_group s) 1 (m_subGroupsCounts g)) g) W.

Lemma count_slots a l : ∀ W, foldl (count_slot a) W l ≡ g_upd a (λ g, with_subGroupsCounts (tally (m_subGroupsCounts g) l) g) W.
Proof.
  induction l as [|s l IH]; intros W.
  - symmetry. apply g_upd_same. intros g _. by destruct g.
  - simpl. rewrite IH. unfold count_slot. rewrite g_g_upd. done.
Qed.

Lemma moves_init W a g : groups W !! a = Some g → (∀ s, s ∈ m_memberSlots g → 0 <= slot_group s < MAX_RAID_SUBGROUPS) →
  moves W (_initRaidSubGroupsCounter a) tt
    (g_upd a (with_subGroupsCounts (tally (Some (replicate (Z.to_nat MAX_RAID_SUBGROUPS) 0)) (m_memberSlots g))) W).
Proof.
  intros Ha Hs. unfold _initRaidSubGroupsCounter. eapply leads_deref; [exact Ha|]. intros g' He.
  apply leads_upd_group; [apply _|]. eapply moves_to.
  - apply (moves_each _ (count_slot a) (λ l W, (∀ s, s ∈ l → 0 <= slot_group s < MAX_RAID_SUBGROUPS) ∧
      ∃ h c, groups W !! a = Some h ∧ m_subGroupsCounts h = Some c ∧ length c = 8%nat)).
    + intros s l V [Hl (h & c & Hh & Hc & Hlen)]. split; [|split].
      * apply (moves_count V a h); [done|]. intros c' Hc'. rewrite Hc in Hc'. injection Hc' as <-. split; [done|]. apply Hl. by left.
      * intros s' Hs'. apply Hl. by right.
      * eexists _, _. split; [by apply g_upd_lookup|]. simpl. rewrite Hc. split; [done|]. simpl. by rewrite length_alter.
    + split; [|eexists _, _; split; [by apply g_upd_lookup|done]]. intros s [i Hi]%list_elem_of_lookup.
      destruct (equiv_slot g g' i s He Hi) as (s' & Hi' & _ & <-). apply Hs. by eapply list_elem_of_lookup_2.
  - rewrite count_slots, g_g_upd. apply g_upd_change. intros h Hh. simpl.
    assert (tally (Some (replicate (Z.to_nat MAX_RAID_SUBGROUPS) 0)) (m_memberSlots g') =
            tally (Some (replicate (Z.to_nat MAX_RAID_SUBGROUPS) 0)) (m_memberSlots g)) as Ht; [|simpl in Ht; by rewrite Ht].
    assert (∀ l l' c, strip_slot <$> l = strip_slot <$> l' → tally c l = tally c l') as Hstrip.
    { clear. induction l as [|s l IH]; intros [|s' l'] c; try done. rewrite !fmap_cons. intros H. injection H as _ Hg Hl.
      simpl. rewrite Hg. by apply IH. }
    apply Hstrip. by injection He.
Qed.

Lemma ConvertToRaid_safe W a g : world_ok ∅ W → groups W !! a = Some g → m_memberSlots g ≠ [] → safe W (ConvertToRaid a).
Proof.
  intros HW Ha Hn. pose proof (ok_group ∅ W HW a g Ha) as Hg. destruct (counts_bounds g (go_counts ∅ W a g Hg)) as [Hb Hs].
  destruct (tally_spec (m_memberSlots g) (replicate 8 0)) as (c & Ht & Hl & Hc).
  - done.
  - exact Hs.
  - intros i n Hi. apply lookup_replicate in Hi as [-> Hi]. split; [lia|].
    assert (0 <= Z.of_nat i < MAX_RAID_SUBGROUPS) as Hr by (unfold MAX_RAID_SUBGROUPS; lia).
    specialize (Hb _ Hr). unfold MAXGROUPSIZE, in_subgroup in Hb. unfold count_of. lia.
  - assert (world_ok ∅ (g_upd a (raid_of c) W)) as Hok.
    { apply (ok_converted ∅ W a g); [done|done|done|done|]. intros i n Hi.
      assert (i < 8)%nat by (rewrite <- Hl; by eapply lookup_lt_Some).
      rewrite (Hc i 0) in Hi by by apply lookup_replicate_2. injection Hi as <-. done. }
    unfold ConvertToRaid. eapply (leads_upd_group _ a (λ g, with_groupType (Z.lor (m_groupType g) GROUPTYPE_RAID) g)).
    { intros x y Hxy. unfold equiv, group_equiv, gcore in *. injection Hxy; intros. simpl. f_equal; congruence. }
    eapply (leads_moves _ (g_upd a (raid_of c) W)).
    { eapply moves_to; [eapply moves_init; [by apply g_upd_lookup|exact Hs]|].
      rewrite g_g_upd. apply g_upd_change. intros h _. unfold raid_of. simpl. simpl in Ht. by rewrite Ht. }
    assert (fit a (g_upd a (raid_of c) W)) as Hfit by (eapply ok_fit; [exact Hok|by apply g_upd_lookup]).
    cbv beta. eapply leads_deref; [by apply g_upd_lookup|]. intros g' _. apply leads_when_emit.
    eapply leads_calm; [apply _|exact Hfit|]. apply leads_unit. eapply leads_calm; [apply _|exact Hfit|].
    apply (safe_end W (g_upd a (raid_of c) W) _ tt); [done|split; [by apply stays_same|by eapply develops_raid]|by apply moves_ret].
Qed.

(** ** A member changes the sub-group *)

Lemma moved_parts a p i sub prev W pl : online W !! p = Some pl →
  p_upd p (λ pl, with_ref false (mkRef (target (m_group pl)) sub) pl)
    (g_upd a (λ g, with_subGroupsCounts (adjust prev (-1) (m_subGroupsCounts g)) g)
      (g_upd a (λ g, with_subGroupsCounts (adjust sub 1 (m_subGroupsCounts g)) g)
        (g_upd a (λ g, with_memberSlots (alter (with_group_of sub) i (m_memberSlots g)) g) W))) = moved a p i sub prev W.
Proof. intros _. rewrite !g_g_upd. done. Qed.

Lemma alter_slot_proper i sub : Proper ((≡) ==> (≡)) (λ g, with_memberSlots (alter (with_group_of sub) i (m_memberSlots g)) g).
Proof.
  intros x y Hxy. unfold equiv, group_equiv, gcore in *. injection Hxy; intros. simpl. f_equal; try assumption.
  - assert (∀ l : list MemberSlot, strip_slot <$> alter (with_group_of sub) i l = alter (with_group_of sub) i (strip_slot <$> l)) as Hc.
    { clear. intros l. revert i. induction l as [|s l IH]; intros [|i]; [done..| |]; cbn; f_equal; auto. }
    rewrite !Hc. congruence.
  - unfold blank. by f_equal.
Qed.

Lemma ChangeMembersGroup_safe W a g p sub : world_ok ∅ W → groups W !! a = Some g → 0 <= sub < MAX_RAID_SUBGROUPS →
  (isRaidGroup g = true → Z.of_nat (in_subgroup g sub) < MAXGROUPSIZE) → safe W (ChangeMembersGroup a p sub).
Proof.
  intros HW Ha Hsub Hroom. pose proof (ok_group ∅ W HW a g Ha) as Hg.
  assert (safe W (mret tt)) as Hnop by (eapply safe_moves; [by apply (moves_ret W tt W)|done|by apply keeps_equiv]).
  unfold ChangeMembersGroup. eapply leads_deref; [exact Ha|]. intros g' He. rewrite (isRaidGroup_proper _ _ He).
  destruct (isRaidGroup g) eqn:Hraid; [|exact Hnop]. cbn [negb].
  destruct (_getMemberSlot g' p) as [[i s]|] eqn:Hf; [|exact Hnop].
  destruct (getMemberSlot_Some _ _ _ _ Hf) as [Hi Hs]. destruct (equiv_slot g g' i s He Hi) as (s0 & Hi0 & Hs0 & Hsub0).
  rewrite <- Hsub0. destruct (Z.eqb_spec (slot_group s0) sub) as [Heq|Hne]; [exact Hnop|].
  pose proof (ok_moved ∅ W a p g i s0 sub HW Ha Hraid Hi0 ltac:(congruence) Hsub (Hroom eq_refl) Hne) as Hok.
  assert (keeps W (moved a p i sub (slot_group s0) W)) as Hk
    by (split; [by apply (stays_p_upd p (λ pl, with_pgroup (mkRef (target (m_group pl)) sub) pl))|];
        eapply develops_moved; [exact HW|exact Ha|exact Hraid|exact Hi0|congruence|exact Hsub|by apply Hroom]).
  assert (fit a (moved a p i sub (slot_group s0) W)) as Hfit by (eapply ok_fit; [exact Hok|by apply g_upd_lookup]).
  assert (0 <= slot_group s0 < MAX_RAID_SUBGROUPS) as Hprev.
  { apply (counts_bounds g (go_counts ∅ W a g Hg)). by eapply list_elem_of_lookup_2. }
  assert (∀ c, m_subGroupsCounts g = Some c → length c = 8%nat) as Hc.
  { intros c Hcs. pose proof (go_counts ∅ W a g Hg) as Hcok. unfold counts_ok in Hcok. rewrite Hraid in Hcok.
    destruct Hcok as (? & ? & ? & _). congruence. }
  apply leads_upd_group; [apply alter_slot_proper|].
  eapply leads_moves; [eapply moves_count; [by apply g_upd_lookup|intros c Hcs; split; [by apply Hc|done]]|]. cbv beta.
  eapply leads_moves; [eapply moves_count; [by repeat apply g_upd_lookup|]|].
  { simpl. intros c Hcs. destruct (m_subGroupsCounts g) as [c0|] eqn:Hc0; [|done]. simpl in Hcs. injection Hcs as <-.
    rewrite length_alter. split; [by apply Hc|done]. }
  cbv beta. apply leads_when_emit. apply leads_find.
  - intros pl pl' Hpl Hpe. rewrite (GetGroup_proper _ _ Hpe). unfold GetGroup.
    assert (target (m_group pl) = Some a) as Ht.
    { apply (member_target ∅ W HW a g p); [done| |done]. rewrite <- Hs, <- Hs0. by eapply elem_of_guids, list_elem_of_lookup_2. }
    rewrite Ht, bool_decide_eq_true_2 by done. cbn [negb]. unfold setSubGroup.
    apply leads_upd_player; [apply _|]. change (ref_of false) with m_group. rewrite (moved_parts a p i sub _ W pl Hpl).
    apply (safe_end _ _ _ tt); [done|exact Hk|]. apply (moves_calm a); [apply _|exact Hfit].
  - intros Hpl. apply leads_ret_unit. match goal with |- leads ?V _ _ => assert (moved a p i sub (slot_group s0) W ≡ V) as Hm end.
    { rewrite !g_g_upd. apply p_upd_same. intros pl Hpl'. exfalso. revert Hpl Hpl'. simpl. congruence. }
    rewrite <- Hm.
    apply (safe_end _ _ _ tt); [done|exact Hk|]. apply (moves_calm a); [apply _|exact Hfit].
Qed.

(** ** An invitation is declined or withdrawn *)

Lemma keeps_uninvited a p W : keeps W (uninvited a p W).
Proof. split; [by apply (stays_p_upd p (with_groupInvite None))|]. apply develops_same, book_set_invites. Qed.

Lemma keeps_erased a W : keeps W (erased a W).
Proof. split; [apply stays_erased|]. by eapply develops_delete, book_erased. Qed.

(** Afterwards the player has no invitation. *)
Lemma UninviteFromGroup_safe W p pl : world_ok ∅ W → online W !! p = Some pl →
  leads W (UninviteFromGroup p) (λ _ w, world_ok ∅ w ∧ keeps W w ∧ ∃ pl', online w !! p = Some pl' ∧ m_groupInvite pl' = None).
Proof.
  intros HW Hpl. unfold UninviteFromGroup. eapply leads_player; [exact Hpl|]. intros pl1 He.
  rewrite (groupInvite_proper _ _ He). destruct (m_groupInvite pl) as [a|] eqn:Hi.
  2: { eapply (moves_leads _ _ tt W); [by apply moves_ret|]. intros w Hw. split; [by rewrite Hw|]. split; [by apply keeps_equiv|].
       destruct (stays_equiv W w Hw p pl Hpl) as (pl' & ? & H). eauto. }
  destruct (po_invite W p pl (ok_player ∅ W HW p pl Hpl) a Hi) as (_ & g & Ha & Hin).
  pose proof (ok_group ∅ W HW a g Ha) as Hg. set (V := uninvited a p W).
  assert (groups V !! a = Some (with_invitees (m_invitees g ∖ {[p]}) g)) as HVa by (simpl; by rewrite lookup_alter_eq, Ha).
  set (h := with_invitees (m_invitees g ∖ {[p]}) g) in *.
  assert (world_ok {[a]} V) as HV1.
  { apply (ok_uninvited {[a]} W a p g pl); [by apply (ok_weaken ∅)|done|done|by right|]. intros _ Hx. set_solver. }
  assert (m_memberSlots g ≠ [] → world_ok ∅ V) as HV0.
  { intros Hn. apply (ok_uninvited ∅ W a p g pl); [done|done|done|by right|done]. }
  assert (online V !! p = Some (with_groupInvite None pl)) as HVp by by apply p_upd_lookup.
  assert (∀ W', world_ok ∅ W' → keeps V W' → ∀ w, w ≡ W' →
    world_ok ∅ w ∧ keeps W w ∧ ∃ pl', online w !! p = Some pl' ∧ m_groupInvite pl' = None) as Hend.
  { intros W' Hok Hk w Hw. pose proof (keeps_then _ _ _ Hk (keeps_equiv _ _ Hw)) as Hk'. split; [by rewrite Hw|].
    split; [by eapply keeps_then; [apply keeps_uninvited|]|]. destruct (proj1 Hk' p _ HVp) as (pl' & ? & H). eauto. }
  eapply leads_moves; [by eapply moves_RemoveInvite|]. fold V. eapply leads_deref; [exact HVa|]. intros g' Hge.
  rewrite (GetMembersCount_proper _ _ Hge), (IsCreated_proper _ _ Hge). unfold IsCreated.
  change (GetMembersCount h) with (GetMembersCount g). rewrite (members_count g (go_counts ∅ W a g Hg)).
  destruct (Z.leb_spec (Z.of_nat (length (m_memberSlots g))) 1) as [Hle|Hgt].
  - destruct (Z.ltb_spec 0 (Z.of_nat (length (m_memberSlots g)))) as [Hpos|Hzero].
    + assert (m_memberSlots h ≠ []) as Hn by (intros Hn; unfold h in Hn; simpl in Hn; rewrite Hn in Hpos; simpl in Hpos; lia).
      destruct (go_live ∅ W a g Hg Hn) as (_ & _ & Hlive). destruct (Hlive (not_elem_of_empty a)) as [_ Hst].
      eapply moves_leads; [by apply (moves_Disband {[a]} V HV1 a h HVa Hn)|]. apply Hend; [|apply keeps_dissolved].
      rewrite <- (singleton_diff a). by apply ok_dissolved.
    + assert (m_memberSlots h = []) as Hn by (apply nil_length_inv; change (m_memberSlots h) with (m_memberSlots g); lia).
      eapply moves_leads; [by apply (moves_forget {[a]} V a h HV1 HVa Hn)|]. apply Hend; [|apply keeps_erased].
      rewrite <- (singleton_diff a). apply (ok_erased {[a]} V a h); [done|done|done|]. intros i Hdb.
      destruct (ok_store ∅ W HW i a Hdb) as (g1 & Hg1 & _ & _ & Hne). assert (g1 = g) as -> by congruence.
      by apply (Hne (not_elem_of_empty a)).
  - eapply (moves_leads _ _ tt V); [by apply moves_ret|]. apply Hend; [|by apply keeps_equiv].
    apply HV0. intros Hn. rewrite Hn in Hgt. simpl in Hgt. lia.
Qed.

(** ** Ids for the database *)

Lemma next_free_spec store : ∀ n i, 0 <= i → (0 < n)%nat → (length store < n + Z.to_nat i)%nat →
  ∃ j, next_free n i store = Some j ∧ i <= j ∧ j <= Z.max i (Z.of_nat (length store)) ∧ ∀ b, store !! Z.to_nat j ≠ Some (Some b).
Proof.
  induction n as [|n IH]; intros i Hi Hpos Hn; [lia|]. simpl. destruct (store !! Z.to_nat i) as [[b|]|] eqn:Hs.
  - pose proof (lookup_lt_Some _ _ _ Hs). destruct (IH (i + 1)) as (j & Hj & ? & ? & ?); [lia..|].
    exists j. split_and!; [done|lia|lia|done].
  - exists i. split_and!; [done|lia|lia|]. by rewrite Hs.
  - exists i. split_and!; [done|lia|lia|]. by rewrite Hs.
Qed.

Definition roomy (W : World) : Prop :=
  NextGroupDbStoreId W < 0xFFFFFFFE ∧ Z.of_nat (length (GroupDbStore W)) < 0xFFFFFFFE ∧ NextGroupId W < 0xFFFFFFFE.

Lemma moves_GenerateNewGroupDbStoreId W : 0 <= NextGroupDbStoreId W < 0xFFFFFFFE →
  Z.of_nat (length (GroupDbStore W)) < 0xFFFFFFFE →
  ∃ next, NextGroupDbStoreId W < next ∧ (∀ b, GroupDbStore W !! Z.to_nat next ≠ Some (Some b)) ∧
    moves W GenerateNewGroupDbStoreId (NextGroupDbStoreId W) (with_NextGroupDbStoreId next W).
Proof.
  intros [H0 H1] H2. destruct (next_free_spec (GroupDbStore W) (S (length (GroupDbStore W))) (NextGroupDbStoreId W + 1)) as (next & Hn & Hle & Hmax & Hfree); [lia..|].
  exists next. split; [lia|]. split; [done|]. unfold GenerateNewGroupDbStoreId.
  apply leads_gets. intros w Hw. destruct (equiv_rest w W Hw) as (_ & _ & -> & _).
  apply leads_gets. intros w2 Hw2. destruct (equiv_rest w2 W Hw2) as (_ & -> & _). cbv zeta.
  rewrite uwrap_small by (unfold in_u; lia). rewrite Hn. rewrite (proj2 (Z.ltb_lt next 0xFFFFFFFF)) by lia.
  apply leads_modify; [apply _|]. apply leads_gets. intros w3 Hw3. destruct (equiv_rest w3 _ Hw3) as (_ & _ & -> & _).
  change (NextGroupDbStoreId (with_NextGroupDbStoreId next W)) with next.
  rewrite (proj2 (Z.eqb_neq _ _)) by lia. apply leads_ret_unit. by apply moves_ret.
Qed.

Definition register (id : Z) (a : Z) (store : list (option Z)) : list (option Z) :=
  <[Z.to_nat id := Some a]> (if bool_decide (length store <= Z.to_nat id)%nat
                             then store ++ replicate (S (Z.to_nat id) - length store) None else store).

Lemma moves_Register W id a : moves W (RegisterGroupDbStoreId id a) tt (with_GroupDbStore (register id a (GroupDbStore W)) W).
Proof.
  apply leads_unit, (leads_modify _ (λ w, with_GroupDbStore (register id a (GroupDbStore w)) w)); [apply with_store_proper|].
  by apply moves_ret.
Qed.

Lemma register_spec id a store i b : 0 <= id → (∀ b, store !! Z.to_nat id ≠ Some (Some b)) →
  register id a store !! i = Some (Some b) ↔ i = Z.to_nat id ∧ b = a ∨ store !! i = Some (Some b).
Proof.
  intros Hid Hfree. unfold register.
  set (store' := if bool_decide _ then _ else _).
  assert (Z.to_nat id < length store')%nat as Hlt.
  { unfold store'. case_bool_decide; [rewrite length_app, length_replicate; lia|lia]. }
  assert (store' !! i = Some (Some b) ↔ store !! i = Some (Some b)) as Hst.
  { unfold store'. case_bool_decide; [|done]. rewrite lookup_app_Some. split; [|tauto].
    intros [?|[_ [[=] _]%lookup_replicate]]; done. }
  rewrite list_lookup_insert_Some, Hst. split.
  - intros [(-> & [= ->] & _)|[_ ?]]; auto.
  - intros [[-> ->]|Hb]; [by left|]. right. split; [|done]. intros <-. by apply (Hfree b).
Qed.

(** ** A group is created *)

Lemma moves_GenerateGroupId W :
  moves W GenerateGroupId (NextGroupId W) (with_NextGroupId (uwrap 32 (NextGroupId W + 1)) W).
Proof.
  unfold GenerateGroupId. apply leads_gets. intros w Hw. destruct (equiv_rest w W Hw) as (_ & _ & _ & -> & _).
  apply leads_when_emit, leads_modify; [apply _|]. by apply moves_ret.
Qed.

Lemma icons_of X W : world_ok X W → icons_ok W.
Proof. intros HW b g Hb. apply (ok_group X W HW b g Hb). Qed.

Section Creating.
Context (E : GEnv) (W : World) (a leader : Z) (g : Group) (pl : Player).
Context (HW : world_ok {[a]} W) (Ha : groups W !! a = Some g) (Hn : m_memberSlots g = []).
Context (Hpl : online W !! leader = Some pl) (Ht : target (m_group pl) = None) (Hi : m_groupInvite pl = None).
Context (Hdb : ∀ i, GroupDbStore W !! i ≠ Some (Some a)) (Hroom : roomy W).

Definition created (next : Z) : World :=
  registered a leader (NextGroupDbStoreId W) next (register (NextGroupDbStoreId W) a (GroupDbStore W)) W.

Definition created_group : Group := named leader (MAKE_NEW_GUID (NextGroupId W) 0 HIGHGUID_GROUP) (NextGroupDbStoreId W) g.

Lemma created_ok next : NextGroupDbStoreId W < next → (∀ b, GroupDbStore W !! Z.to_nat next ≠ Some (Some b)) →
  world_ok {[a]} (created next) ∧ world_ok {[a]} (joined a leader 0 (created next)).
Proof.
  intros Hlt Hfree. destruct (ok_next _ W HW) as [H0 Hnext].
  assert (∀ i b, register (NextGroupDbStoreId W) a (GroupDbStore W) !! i = Some (Some b) ↔
    i = Z.to_nat (NextGroupDbStoreId W) ∧ b = a ∨ GroupDbStore W !! i = Some (Some b)) as Hreg by (intros; by apply register_spec).
  assert (world_ok {[a]} (created next)) as Hok.
  { apply (ok_registered {[a]} W a g); [done|done|set_solver|done|done| |done|].
    - destruct Hroom as (_ & _ & ?). lia.
    - split; [lia|]. intros b [[He _]|Hb]%Hreg; [lia|by apply (Hfree b)]. }
  split; [done|].
  destruct (go_new _ W a g (ok_group _ W HW a g Ha) Hn) as [Hraid _].
  pose proof (go_counts _ W a g (ok_group _ W HW a g Ha)) as Hc. unfold counts_ok in Hc. rewrite Hraid in Hc.
  apply (ok_joined {[a]} _ a leader created_group pl 0); [done|by apply g_upd_lookup|done|done|done| | | | |].
  - unfold new_subgroup. simpl. by rewrite (proj1 Hc).
  - intros _. simpl. rewrite Hn. simpl. lia.
  - exact H0.
  - apply Hreg. by left.
  - set_solver.
Qed.

Lemma created_parts next f : (∀ g, f g = with_groupType GROUPTYPE_NORMAL (with_leaderGuid leader (with_guid (MAKE_NEW_GUID (NextGroupId W) 0 HIGHGUID_GROUP) g))) →
  with_GroupDbStore (register (NextGroupDbStoreId W) a (GroupDbStore W))
    (g_upd a (with_dbStoreId (NextGroupDbStoreId W))
      (with_NextGroupDbStoreId next (g_upd a f (with_NextGroupId (uwrap 32 (NextGroupId W + 1)) W)))) ≡ created next.
Proof.
  intros Hf. apply world_ext; try done. intros b. simpl. destruct (decide (b = a)) as [->|Hb].
  - rewrite !lookup_alter_eq, Ha. simpl. by rewrite Hf.
  - by rewrite !lookup_alter_ne.
Qed.

Lemma Create_moves : ∃ next, world_ok {[a]} (joined a leader 0 (created next)) ∧
  moves W (Create E a leader) true (joined a leader 0 (created next)).
Proof.
  set (Wid := with_NextGroupId (uwrap 32 (NextGroupId W + 1)) W).
  set (f := λ g, with_groupType GROUPTYPE_NORMAL (with_leaderGuid leader (with_guid (MAKE_NEW_GUID (NextGroupId W) 0 HIGHGUID_GROUP) g))).
  assert (∃ next, NextGroupDbStoreId W < next ∧ (∀ b, GroupDbStore W !! Z.to_nat next ≠ Some (Some b)) ∧
    moves (g_upd a f Wid) GenerateNewGroupDbStoreId (NextGroupDbStoreId W) (with_NextGroupDbStoreId next (g_upd a f Wid)))
    as (next & Hlt & Hfree & Hgen).
  { destruct Hroom as (? & ? & _). destruct (ok_next _ W HW) as [? _].
    by apply (moves_GenerateNewGroupDbStoreId (g_upd a f Wid)). }
  exists next. destruct (created_ok next Hlt Hfree) as [Hok Hok2]. split; [done|].
  destruct (go_new _ W a g (ok_group _ W HW a g Ha) Hn) as [Hraid _].
  pose proof (ok_group _ W HW a g Ha) as Hg. pose proof (icons_of _ W HW) as Hic.
  assert (icons_ok (g_upd a f Wid)) as Hic2 by (by apply icons_g_upd).
  unfold Create. eapply leads_player; [exact Hpl|]. intros pl' _.
  eapply leads_moves; [apply moves_GenerateGroupId|]. fold Wid. cbv beta.
  eapply leads_deref; [exact Ha|]. intros g' He. cbv zeta.
  assert (isBGGroup g' = false) as -> by (rewrite (isBGGroup_proper _ _ He); unfold isBGGroup; by rewrite (go_bg _ W a g Hg)).
  cbn iota. apply leads_upd_group; [apply _|].
  apply leads_settings; [apply _|exact Hic2|]. change (has_bits GROUPTYPE_NORMAL GROUPTYPE_RAID) with false. cbn iota.
  apply leads_ret_unit. apply leads_settings; [apply _|exact Hic2|]. cbn [negb].
  apply leads_settings; [apply _|exact Hic2|]. eapply leads_moves; [exact Hgen|]. cbv beta.
  apply leads_upd_group; [apply _|]. eapply leads_moves; [apply moves_Register|]. cbv beta.
  change (GroupDbStore (g_upd a _ _)) with (GroupDbStore W).
  apply (leads_at _ (created next)); [by apply (created_parts next f)|].
  eapply leads_deref; [by apply g_upd_lookup|]. intros g2 _. apply leads_emit.
  eapply leads_moves; [eapply (moves_AddMember E {[a]} (created next) a leader created_group pl 0 Hok); try done|].
  - by apply g_upd_lookup.
  - pose proof (go_counts _ W a g Hg) as Hc. unfold counts_ok in Hc. rewrite Hraid in Hc.
    unfold new_subgroup. simpl. by rewrite (proj1 Hc).
  - cbv beta. apply leads_assert; [done|]. apply leads_emit. by apply moves_ret.
Qed.

End Creating.
