(* ===== verification/GroupHandlers.v ===== *)
(** * GroupHandlers: no group opcode faults or breaks the invariant *)

From Stdlib Require Import ZArith Lia.
From S2P Require Import Prelude ByteBuffer ByteBufferFacts Packets Guid LootRoll GroupData Group GroupServer GroupFacts GroupInv GroupSteps GroupWorlds GroupRun GroupBook GroupOps GroupLife.
Local Open Scope Z_scope.

(** ** Requests that end well *)

(** From this world itself: what is read at the start may be more than the core. *)
Definition fine (W : World) (p : gw unit) : Prop := ∃ w', p W = (Ret tt, w') ∧ world_ok ∅ w' ∧ develops W w'.

Lemma fine_leads W (p : gw unit) : leads W p (λ _ w, world_ok ∅ w ∧ develops W w) → fine W p.
Proof. intros H. destruct (leads_run _ _ _ H) as ([] & w' & ? & ?). by exists w'. Qed.

Lemma fine_safe W (p : gw unit) : safe W p → fine W p.
Proof. intros H. apply fine_leads. eapply leads_conseq; [exact H|]. by intros x w (? & _ & ?). Qed.

Lemma leads_gparse {A} W (d : bb A) recv k Q : SafeReader d → packet_ok recv → leads W (mret tt) Q →
  (∀ x rest, d recv = (Ret x, rest) → packet_ok rest → leads W (k x rest) Q) → leads W (gparse d recv k) Q.
Proof.
  intros Hd Hp H1 H2. unfold gparse. destruct (Hd recv (proj1 Hp)) as (_ & _ & Hb).
  destruct (d recv) as [[x|e] rest] eqn:He.
  - apply H2; [done|]. by eapply storage_kept.
  - simpl in Hb. destruct e; [exact H1|done..].
Qed.

Section Handlers.
Context (E : GEnv) (W : World) (HW : world_ok ∅ W) (me : Z) (mypl : Player) (Hme : online W !! me = Some mypl).

Lemma safe_ret : safe W (mret tt).
Proof. apply (safe_moves W _ tt W); [by apply moves_ret|done|by apply keeps_equiv]. Qed.

Lemma safe_emit e : safe W (gemit e).
Proof. apply (safe_moves W _ tt W); [apply moves_emit|done|by apply keeps_equiv]. Qed.

Lemma safe_calm a g p : groups W !! a = Some g → Calm a p → safe W p.
Proof.
  intros Ha Hp. apply (safe_moves W _ tt W); [apply (moves_calm a); [done|by eapply ok_fit]|done|by apply keeps_equiv].
Qed.

Lemma safe_seq (p q : gw unit) : (∀ w, world_ok ∅ w → keeps W w → safe w q) → safe W p → safe W (p;; q).
Proof.
  intros Hq Hp. eapply leads_bind; [exact Hp|]. intros x w [Hw Hk]. eapply leads_conseq; [by apply Hq|].
  intros y w' [? ?]. split; [done|]. by eapply keeps_then.
Qed.

Lemma safe_if (b : bool) (p q : gw unit) : (b = true → safe W p) → (b = false → safe W q) → safe W (if b then p else q).
Proof. destruct b; auto. Qed.

Lemma safe_parse {A} (d : bb A) recv k : SafeReader d → packet_ok recv →
  (∀ x rest, d recv = (Ret x, rest) → packet_ok rest → safe W (k x rest)) → safe W (gparse d recv k).
Proof. intros Hd Hp Hk. apply leads_gparse; [done|done|apply safe_ret|exact Hk]. Qed.

Lemma my_group a : target (m_group mypl) = Some a → ∃ g, groups W !! a = Some g ∧ me ∈ guids g ∧ m_memberSlots g ≠ [].
Proof.
  intros Ht. destruct (po_group W me mypl (ok_player ∅ W HW me mypl Hme) a Ht) as (g & Ha & Hin & _).
  exists g. split_and!; [done|done|by eapply slots_of_guid].
Qed.

Lemma safe_with_group k : (∀ a g g', target (m_group mypl) = Some a → groups W !! a = Some g → me ∈ guids g → g' ≡ g →
  safe W (k a g')) → safe W (with_group me k).
Proof.
  intros Hk. unfold with_group. eapply leads_player; [exact Hme|]. intros pl' He. rewrite (GetGroup_proper _ _ He).
  unfold GetGroup. destruct (target (m_group mypl)) as [a|] eqn:Ht; [|apply safe_ret].
  destruct (my_group a Ht) as (g & Ha & Hin & _). eapply leads_deref; [exact Ha|]. intros g' Hg'. by apply (Hk a g g').
Qed.

Lemma HandleLootMethod_safe recv : packet_ok recv → safe W (HandleLootMethodOpcode me recv).
Proof.
  intros Hp. apply safe_parse; [apply _|done|]. intros [[m l] t] rest _ _. apply safe_with_group.
  intros a g g' _ Ha _ _. apply (safe_calm a g); [done|].
  unfold SetLootMethod, SetLooterGuid, SetLootThreshold. apply _.
Qed.

Lemma HandleMinimapPing_safe recv : packet_ok recv → safe W (HandleMinimapPingOpcode me recv).
Proof.
  intros Hp. apply safe_with_group. intros a g g' _ Ha _ _. apply safe_parse; [apply _|done|]. intros [x y] rest _ _.
  apply (safe_calm a g); [done|apply _].
Qed.

Lemma HandleRandomRoll_safe recv : packet_ok recv → safe W (HandleRandomRollOpcode E me recv).
Proof.
  intros Hp. apply safe_parse; [apply _|done|]. intros [mi ma] rest _ _. apply safe_if; [intros _; apply safe_ret|intros _].
  apply leads_gets. intros w _. cbv zeta. apply leads_modify; [intros x y Hxy; exact Hxy|].
  apply (leads_at _ W); [done|]. eapply leads_player; [exact Hme|]. intros pl' He. rewrite (GetGroup_proper _ _ He). unfold GetGroup.
  destruct (target (m_group mypl)) as [a|] eqn:Ht; [|apply safe_emit].
  destruct (my_group a Ht) as (g & Ha & _). apply (safe_calm a g); [done|apply _].
Qed.

Lemma HandleRaidReadyCheck_safe recv : packet_ok recv → safe W (HandleRaidReadyCheckOpcode me recv).
Proof.
  intros Hp. apply safe_with_group. intros a g g' _ Ha _ _.
  apply safe_if; intros _; [apply (safe_calm a g); [done|apply _]|].
  apply safe_parse; [apply _|done|]. intros st rest _ _. apply (safe_calm a g); [done|apply _].
Qed.

Lemma HandleGroupAssistantLeader_safe recv : packet_ok recv → safe W (HandleGroupAssistantLeaderOpcode me recv).
Proof.
  intros Hp. apply safe_with_group. intros a g g' _ Ha _ _. apply safe_if; intros _; [apply safe_ret|].
  apply safe_parse; [apply _|done|]. intros [guid b] rest _ _. apply (safe_calm a g); [done|apply _].
Qed.

Lemma HandlePartyAssignment_safe recv : packet_ok recv → safe W (HandlePartyAssignmentOpcode me recv).
Proof.
  intros Hp. apply safe_with_group. intros a g g' _ Ha _ _. apply safe_if; intros _; [apply safe_ret|].
  apply safe_parse; [apply _|done|]. intros [[x b] guid] rest _ _. apply (safe_calm a g); [done|apply _].
Qed.

Lemma HandleOptOutOfLoot_safe recv : packet_ok recv → safe W (HandleOptOutOfLootOpcode me recv).
Proof.
  intros Hp. apply safe_parse; [apply _|done|]. intros x rest _ _. apply leads_unit, leads_upd_player; [apply _|].
  apply (leads_at _ W); [by apply p_upd_same|]. apply safe_ret.
Qed.

(** Icons. *)
Lemma calm_icon a i (k : Z → gw unit) : (Z.to_nat i < 8)%nat → (∀ x, Calm a (k x)) →
  Calm a (g ← deref a; icon ← of_option (m_targetIcons (settings g) !! Z.to_nat i); k icon).
Proof.
  intros Hi Hk w Hw. pose proof Hw as [[g Hg] Hl]. destruct (Hl a g Hg) as [Hlen _].
  destruct (lookup_lt_is_Some_2 (m_targetIcons (settings g)) (Z.to_nat i)) as [x Hx]; [lia|].
  destruct (Hk x w Hw) as (w' & Ew & Cw). exists w'. split; [|done].
  erewrite bind_ret_run by by apply deref_group_run. rewrite Hx. exact Ew.
Qed.

Lemma calm_SetTargetIcon a id who t : Calm a (SetTargetIcon a id who t).
Proof.
  unfold SetTargetIcon. apply calm_if; [apply _|]. apply calm_seq; [|apply _]. apply calm_if; [|apply _].
  simpl. repeat apply calm_seq; try apply _; (apply calm_icon; [simpl; lia|intros x; apply _]).
Qed.

Lemma HandleRaidTargetUpdate_safe recv : packet_ok recv → safe W (HandleRaidTargetUpdateOpcode me recv).
Proof.
  intros Hp. apply safe_with_group. intros a g g' _ Ha _ _. apply safe_parse; [apply _|done|]. intros x rest _ Hrest.
  apply safe_if; intros _; [apply (safe_calm a g); [done|apply _]|]. apply safe_if; intros _; [apply safe_ret|].
  apply safe_parse; [apply _|done|]. intros guid rest2 _ _. apply (safe_calm a g); [done|apply calm_SetTargetIcon].
Qed.

Lemma HandleGroupRaidConvert_safe recv : safe W (HandleGroupRaidConvertOpcode E me recv).
Proof.
  apply safe_with_group. intros a g g' _ Ha Hin _. apply safe_if; intros _; [apply safe_ret|].
  apply safe_if; intros _; [apply safe_ret|]. apply leads_emit. eapply ConvertToRaid_safe; [done|done|by eapply slots_of_guid].
Qed.

Lemma leads_FindPlayerByName {A} V name (k : option Z → gw A) Q : (∀ r, leads V (k r) Q) → leads V (FindPlayerByName name ≫= k) Q.
Proof. intros Hk. unfold FindPlayerByName. apply leads_assoc, leads_gets. intros w _. apply leads_ret_bind, Hk. Qed.

(** The counter of the sub-group tells whether there is room. *)
Lemma leads_HasFree {A} V a g g' sub (k : bool → gw A) Q : world_ok ∅ V → groups V !! a = Some g → g' ≡ g → 0 <= sub < MAX_RAID_SUBGROUPS →
  (∀ b, (b = true → isRaidGroup g = true → Z.of_nat (in_subgroup g sub) < MAXGROUPSIZE) → leads V (k b) Q) →
  leads V (HasFreeSlotSubGroup g' sub ≫= k) Q.
Proof.
  intros HV Ha He Hsub Hk. unfold HasFreeSlotSubGroup. rewrite (counts_proper _ _ He).
  pose proof (go_counts ∅ V a g (ok_group ∅ V HV a g Ha)) as Hc. unfold counts_ok in Hc. destruct (isRaidGroup g).
  - destruct Hc as (c & -> & Hl & Hn & _). destruct (lookup_lt_is_Some_2 c (Z.to_nat sub)) as [n Hi].
    { unfold MAX_RAID_SUBGROUPS in Hsub. lia. }
    rewrite Hi. cbn [of_option]. apply leads_assoc, leads_ret_bind, leads_ret_bind, Hk.
    destruct (Hn _ _ Hi) as [-> _]. rewrite Z2Nat.id by lia. intros Hb%Z.ltb_lt _. done.
  - destruct Hc as (-> & _). apply leads_ret_bind, Hk. done.
Qed.

Lemma HandleGroupChangeSubGroup_safe recv : packet_ok recv → safe W (HandleGroupChangeSubGroupOpcode E me recv).
Proof.
  intros Hp. apply safe_with_group. intros a g g' _ Ha _ He. apply safe_parse; [apply _|done|]. intros [name nr] rest Hr _.
  assert (0 <= nr) as H0.
  { apply bind_Ret in Hr as (x & b1 & H1 & (n & b2 & H2 & [= <- <- _])%bind_Ret).
    assert (packet_ok b1) as Hp1 by exact (storage_kept get_string recv x b1 _ Hp H1). pose proof (byte_range b1 n b2 Hp1 H2). lia. }
  destruct (Z.leb_spec MAX_RAID_SUBGROUPS nr) as [_|Hlt]; [apply safe_ret|]. apply safe_if; intros _; [apply safe_ret|].
  eapply leads_HasFree; [done|done|done|done|]. intros b Hb. destruct b; [|apply safe_ret]. cbn [negb].
  apply leads_FindPlayerByName. intros r. eapply ChangeMembersGroup_safe; [done|done|done|by apply Hb].
Qed.

Lemma HandleGroupSetLeader_safe recv : packet_ok recv → safe W (HandleGroupSetLeaderOpcode me recv).
Proof.
  intros Hp. apply safe_parse; [apply _|done|]. intros guid rest _ _.
  apply leads_find.
  - intros q q' Hq Hqe. eapply leads_player; [exact Hme|]. intros pl' He. rewrite (GetGroup_proper _ _ He). unfold GetGroup at 1.
    destruct (target (m_group mypl)) as [a|] eqn:Ht; [|apply safe_ret]. destruct (my_group a Ht) as (g & Ha & Hin & _).
    eapply leads_deref; [exact Ha|]. intros g' Hge. destruct (_ || _) eqn:Hc; [apply safe_ret|].
    apply orb_false_iff in Hc as [_ Hc%negb_false_iff]. apply bool_decide_eq_true in Hc. rewrite (GetGroup_proper _ _ Hqe) in Hc.
    destruct (po_group W guid q (ok_player ∅ W HW guid q Hq) a Hc) as (h & Hh & Hg & _). assert (h = g) as -> by congruence.
    assert (world_ok ∅ (g_upd a (with_leaderGuid guid) W)) as Hok by by eapply ok_leader.
    eapply leads_moves; [eapply moves_ChangeLeader; [done|done|done|by eapply ok_fit]|].
    eapply (safe_end _ _ _ tt); [exact Hok|split; [by apply stays_same|by eapply develops_leader]|]. apply (moves_calm a); [apply _|].
    eapply ok_fit; [exact Hok|by apply g_upd_lookup].
  - intros _. eapply leads_player; [exact Hme|]. intros pl' _. destruct (GetGroup pl'); apply safe_ret.
Qed.

Lemma safe_ret_after {A} V (p : gw A) : safe V p → safe V (p;; mret tt).
Proof. intros Hp. eapply leads_bind; [exact Hp|]. intros x w [Hw Hk]. apply leads_ret. intros w' Hw'.
  split; [by rewrite Hw'|]. eapply keeps_then; [exact Hk|by apply keeps_equiv].
Qed.

Lemma RemoveFromGroup_safe a g p method kicker : groups W !! a = Some g → p ∈ guids g →
  safe W (RemoveFromGroup E (Some a) p method kicker).
Proof. intros Ha Hp. apply safe_ret_after. by eapply RemoveMember_safe. Qed.

Lemma HandleGroupDisband_safe recv : safe W (HandleGroupDisbandOpcode E me recv).
Proof.
  unfold HandleGroupDisbandOpcode. eapply leads_player; [exact Hme|]. intros pl' He. rewrite (GetGroup_proper _ _ He).
  unfold GetGroup. destruct (target (m_group mypl)) as [a|] eqn:Ht; [|apply safe_ret].
  destruct (my_group a Ht) as (g & Ha & Hin & _). apply safe_if; intros _; [apply safe_emit|].
  apply leads_emit. by eapply RemoveFromGroup_safe.
Qed.

(** The player who may remove members: he has a group. *)
Lemma leads_CanUninvite {A} (k : Z → gw A) Q : (∀ r, leads W (k r) Q) → leads W (CanUninviteFromGroup E me ≫= k) Q.
Proof.
  intros Hk. unfold CanUninviteFromGroup. apply leads_assoc. eapply leads_player; [exact Hme|]. intros pl' He.
  rewrite (GetGroup_proper _ _ He). unfold GetGroup. destruct (target (m_group mypl)) as [a|] eqn:Ht; [|apply Hk].
  destruct (my_group a Ht) as (g & Ha & _). apply leads_assoc. eapply leads_deref; [exact Ha|]. intros g' _.
  destruct (_ && _); [apply Hk|]. destruct (InBattleground E me); apply Hk.
Qed.

Lemma leads_GetInvited {A} a g ok (k : option Z → gw A) Q : groups W !! a = Some g →
  (∀ p pl, online W !! p = Some pl → leads W (k (Some p)) Q) → leads W (k None) Q → leads W (GetInvited_by a ok ≫= k) Q.
Proof.
  intros Ha H1 H2. unfold GetInvited_by. apply leads_assoc. eapply leads_deref; [exact Ha|]. intros g' He.
  apply leads_assoc, leads_gets. intros w Hw. rewrite (invitees_proper _ _ He).
  assert (∀ q, q ∈ m_invitees g → is_Some (online W !! q)) as Hin.
  { intros q Hq. destruct (go_invites ∅ W a g (ok_group ∅ W HW a g Ha) q Hq) as (pl & ? & _). by eexists. }
  rewrite bool_decide_eq_true_2.
  - apply leads_ret_bind. destruct (list_find _ _) as [[i q]|] eqn:Hf; [|exact H2]. simpl.
    apply list_find_Some in Hf as (Hi & _). destruct (Hin q) as [pl Hpl]; [|by eapply H1].
    apply elem_of_elements. by eapply list_elem_of_lookup_2.
  - intros q Hq. destruct (Hin q Hq) as [pl Hpl]. pose proof (equiv_player w W Hw q) as He'. rewrite Hpl in He'.
    destruct He' as (pl' & ? & _). by eexists.
Qed.

Lemma Uninvite_safe p pl : online W !! p = Some pl → safe W (UninviteFromGroup p).
Proof. intros Hp. eapply leads_conseq; [by eapply UninviteFromGroup_safe|]. intros x w (? & ? & _). done. Qed.

Lemma HandleGroupUninviteGuid_safe recv : packet_ok recv → safe W (HandleGroupUninviteGuidOpcode E me recv).
Proof.
  intros Hp. apply safe_parse; [apply _|done|]. intros guid rest _ _. apply safe_if; intros _; [apply safe_ret|].
  apply leads_CanUninvite. intros r. apply safe_if; intros _; [apply safe_emit|].
  eapply leads_player; [exact Hme|]. intros pl' He. rewrite (GetGroup_proper _ _ He). unfold GetGroup.
  destruct (target (m_group mypl)) as [a|] eqn:Ht; [|apply safe_ret]. destruct (my_group a Ht) as (g & Ha & Hin & _).
  eapply leads_deref; [exact Ha|]. intros g' Hge. apply safe_if; intros _; [apply safe_emit|].
  unfold IsMember. case_bool_decide as Hm.
  - destruct Hm as [[i s] Hf]. destruct (getMemberSlot_Some _ _ _ _ Hf) as [Hi <-]. eapply RemoveFromGroup_safe; [exact Ha|].
    rewrite <- (guids_proper _ _ Hge). by eapply elem_of_guids, list_elem_of_lookup_2.
  - eapply leads_GetInvited; [exact Ha| |apply safe_emit]. intros p pl Hpl. by eapply Uninvite_safe.
Qed.

Lemma GetMemberGUID_member g name : GetMemberGUID g name ≠ 0 → GetMemberGUID g name ∈ guids g.
Proof.
  unfold GetMemberGUID. destruct (list_find _ _) as [[i s]|] eqn:Hf; [|done]. intros _.
  apply list_find_Some in Hf as (Hi & _). by eapply elem_of_guids, list_elem_of_lookup_2.
Qed.

Lemma HandleGroupUninvite_safe recv : packet_ok recv → safe W (HandleGroupUninviteOpcode E me recv).
Proof.
  intros Hp. apply safe_parse; [apply _|done|]. intros name rest _ _.
  destruct (normalizePlayerName E name) as [membername|]; [|apply safe_ret].
  eapply leads_player; [exact Hme|]. intros pl' He. apply safe_if; intros _; [apply safe_ret|].
  apply leads_CanUninvite. intros r. apply safe_if; intros _; [apply safe_emit|].
  rewrite (GetGroup_proper _ _ He). unfold GetGroup.
  destruct (target (m_group mypl)) as [a|] eqn:Ht; [|apply safe_ret]. destruct (my_group a Ht) as (g & Ha & Hin & _).
  eapply leads_deref; [exact Ha|]. intros g' Hge. cbv zeta.
  destruct (Z.eqb_spec (GetMemberGUID g' membername) 0) as [_|Hm]; cbn [negb].
  - eapply leads_GetInvited; [exact Ha| |apply safe_emit]. intros p pl Hpl. by eapply Uninvite_safe.
  - eapply RemoveFromGroup_safe; [exact Ha|]. rewrite <- (guids_proper _ _ Hge). by apply GetMemberGUID_member.
Qed.

Lemma HandleGroupDecline_safe recv : safe W (HandleGroupDeclineOpcode me recv).
Proof.
  unfold HandleGroupDeclineOpcode. eapply leads_player; [exact Hme|]. intros pl' He.
  rewrite (groupInvite_proper _ _ He). destruct (m_groupInvite mypl) as [a|] eqn:Hi; [|apply safe_ret].
  destruct (po_invite W me mypl (ok_player ∅ W HW me mypl Hme) a Hi) as (_ & g & Ha & Hin).
  eapply leads_deref; [exact Ha|]. intros g' _. apply leads_gets. intros w _.
  eapply leads_bind; [by eapply Uninvite_safe|]. intros x w' [Hw' Hk]. destruct (online w !! _).
  - eapply (moves_leads _ _ tt w'); [apply moves_emit|]. intros w2 H2. split; [by rewrite H2|].
    eapply keeps_then; [exact Hk|by apply keeps_equiv].
  - eapply (moves_leads _ _ tt w'); [by apply moves_ret|]. intros w2 H2. split; [by rewrite H2|].
    eapply keeps_then; [exact Hk|by apply keeps_equiv].
Qed.

End Handlers.

(** ** Invitations *)

Lemma join_safe E V a h p pl : world_ok ∅ V → groups V !! a = Some h → m_memberSlots h ≠ [] → IsFull h = false →
  online V !! p = Some pl → target (m_group pl) = None → m_groupInvite pl = None →
  safe V (ok ← AddMember E a p; if ok : bool then BroadcastGroupUpdate a else mret tt).
Proof.
  intros HV Ha Hn Hfull Hpl Ht Hi. pose proof (ok_group ∅ V HV a h Ha) as Hg.
  destruct (new_subgroup h) as [sub|] eqn:Hsub.
  - destruct (go_live ∅ V a h Hg Hn) as (H0 & Hdb & _).
    assert (world_ok ∅ (joined a p sub V)) as Hok.
    { apply (ok_joined ∅ V a p h pl sub); try done. intros Hraid. unfold IsFull in Hfull. rewrite Hraid in Hfull.
      apply Z.leb_gt in Hfull. unfold MAXGROUPSIZE in Hfull. lia. }
    eapply safe_then; [by eapply moves_AddMember| |].
    { split; [by apply (stays_p_upd p (with_pgroup (mkRef (Some a) sub)))|]. eapply develops_joined; try done.
      intros Hraid. unfold IsFull in Hfull. rewrite Hraid in Hfull. apply Z.leb_gt in Hfull. unfold MAXGROUPSIZE in Hfull. lia. }
    cbn iota. eapply safe_calm; [exact Hok|by apply g_upd_lookup|apply _].
  - eapply (safe_then V _ false V); [|by apply keeps_equiv|by apply safe_ret].
    unfold AddMember. eapply leads_deref; [exact Ha|]. intros g' He. rewrite (new_subgroup_proper _ _ He), Hsub. by apply moves_ret.
Qed.

(** The first member accepts: the group is created with its leader. *)
Lemma create_leads E V a h leader pl : world_ok {[a]} V → groups V !! a = Some h → m_memberSlots h = [] →
  (∀ i, GroupDbStore V !! i ≠ Some (Some a)) → roomy V → online V !! leader = Some pl → target (m_group pl) = None → m_groupInvite pl = None →
  leads V (Create E a leader;; AddGroup a;; mret true) (λ r w, r = true ∧ ∃ V' h', w ≡ V' ∧ world_ok ∅ V' ∧ groups V' !! a = Some h' ∧
    length (m_memberSlots h') = 1%nat ∧ keeps V V' ∧ ∀ q, q ≠ leader → online V' !! q = online V !! q).
Proof.
  intros HV Ha Hn Hdb Hroom Hpl Ht Hi.
  destruct (Create_moves E V a leader h pl HV Ha Hn Hpl Ht Hi Hdb Hroom) as (next & Hok & Hmoves).
  set (V3 := joined a leader 0 (created V a leader next)) in *.
  set (h3 := add_slot leader 0 (created_group V leader h)).
  assert (groups V3 !! a = Some h3) as Ha3 by (simpl; by rewrite lookup_alter_eq, lookup_alter_eq, Ha).
  eapply leads_moves; [exact Hmoves|]. cbv beta. unfold AddGroup. apply leads_assoc. eapply leads_deref; [exact Ha3|]. intros g' He.
  rewrite (guid_proper _ _ He). destruct (ok_ids _ V HV) as [Hpos Hids]. destruct Hroom as (_ & _ & Hid).
  assert (GUID_LOPART (m_guid h3) = NextGroupId V) as Hlow.
  { apply (guid_parts_roundtrip (NextGroupId V) 0 HIGHGUID_GROUP); [done|]. split; [unfold in_u; lia|done]. }
  assert (world_ok {[a]} (stored a h3 V3)) as Hok4.
  { apply (ok_stored {[a]} V3 a h3); [done|done| | |].
    - simpl. intros Hx. by apply app_eq_nil in Hx as [_ ?].
    - rewrite Hlow. change (GroupStore V3) with (GroupStore V). destruct (GroupStore V !! NextGroupId V) eqn:Hs; [|done].
      apply Hids in Hs as [? _]. lia.
    - rewrite Hlow. change (NextGroupId V3) with (uwrap 32 (NextGroupId V + 1)). rewrite uwrap_small by (unfold in_u; lia). lia. }
  assert (world_ok ∅ (stored a h3 V3)) as Hok5.
  { rewrite <- (singleton_diff a). apply (ok_settle {[a]} _ a h3); [done|done| |].
    - simpl. intros Hx. by apply app_eq_nil in Hx as [_ ?].
    - intros _. split; [unfold guids; simpl; rewrite Hn; set_solver|].
      change (GroupStore (stored a h3 V3)) with (<[GUID_LOPART (m_guid h3) := a]> (GroupStore V3)). by rewrite lookup_insert_eq. }
  assert (keeps V (stored a h3 V3)) as Hkeeps.
  { split; [by apply (stays_p_upd leader (with_pgroup (mkRef (Some a) 0)))|].
    assert (develops V V3) as HV3; [|exact HV3].
    apply (develops_founded (created V a leader next) V a leader (created_group V leader h)); [| | |simpl; by rewrite lookup_alter_eq, Ha|done..].
    - by eapply book_registered.
    - rewrite book_lookup, Ha. simpl. unfold party. by rewrite Hn.
    - by eapply unbound_stranger. }
  apply (leads_modify _ (λ w, with_GroupStore (<[GUID_LOPART (m_guid h3) := a]> (GroupStore w)) w)); [apply with_GroupStore_proper|].
  eapply (moves_leads _ _ true (stored a h3 V3)); [by apply moves_ret|]. intros w Hw. split; [done|]. exists (stored a h3 V3), h3.
  split_and!; [done|done|done|simpl; by rewrite Hn|exact Hkeeps|].
  intros q Hq.
  change (online (p_upd leader (with_pgroup (mkRef (Some a) 0)) V) !! q = online V !! q). by apply p_upd_lookup_ne.
Qed.

Section Accepting.
Context (E : GEnv) (W : World) (HW : world_ok ∅ W) (me : Z) (mypl : Player) (Hme : online W !! me = Some mypl).

(** A player who is invited and has no group enters the group of his invitation; the
    group is created when he is the first to accept. *)
Lemma HandleGroupAccept_safe recv : packet_ok recv → roomy W →
  (∀ a g, m_groupInvite mypl = Some a → groups W !! a = Some g → m_leaderGuid g ≠ me) →
  safe W (HandleGroupAcceptOpcode E me recv).
Proof.
  intros Hp Hroom Hlead. apply (safe_parse W HW); [apply _|done|]. intros [] rest _ _.
  eapply leads_player; [exact Hme|]. intros pl' He. rewrite (groupInvite_proper _ _ He).
  destruct (m_groupInvite mypl) as [a|] eqn:Hi; [|by apply safe_ret].
  destruct (po_invite W me mypl (ok_player ∅ W HW me mypl Hme) a Hi) as (Ht & g & Ha & Hin).
  specialize (Hlead a g eq_refl Ha). pose proof (ok_group ∅ W HW a g Ha) as Hg.
  set (V := uninvited a me W). set (h := with_invitees (m_invitees g ∖ {[me]}) g).
  assert (groups V !! a = Some h) as HVa by (simpl; by rewrite lookup_alter_eq, Ha).
  assert (world_ok ∅ V) as HV by (apply (ok_uninvited ∅ W a me g mypl); [done|done|done|by right|done]).
  assert (online V !! me = Some (with_groupInvite None mypl)) as HVme by by apply p_upd_lookup.
  eapply safe_then; [by eapply moves_RemoveInvite|apply keeps_uninvited|]. fold V.
  eapply leads_deref; [exact HVa|]. intros g' Hge. rewrite (leaderGuid_proper _ _ Hge), (IsFull_proper _ _ Hge), (IsCreated_proper _ _ Hge).
  change (m_leaderGuid h) with (m_leaderGuid g). rewrite (proj2 (Z.eqb_neq _ _) Hlead).
  destruct (IsFull h) eqn:Hfull; [by apply safe_emit|]. unfold IsCreated.
  change (GetMembersCount h) with (GetMembersCount g). rewrite (members_count g (go_counts ∅ W a g Hg)).
  destruct (Z.ltb_spec 0 (Z.of_nat (length (m_memberSlots g)))) as [Hpos|Hzero]; cbn [negb].
  - apply leads_find; intros; apply leads_ret_bind; cbn iota; (eapply join_safe; [exact HV|exact HVa| |exact Hfull|exact HVme|exact Ht|done]);
      intros Hn; simpl in Hn; rewrite Hn in Hpos; simpl in Hpos; lia.
  - assert (m_memberSlots g = []) as Hn by (apply nil_length_inv; lia).
    destruct (go_new ∅ V a h (ok_group ∅ V HV a h HVa) Hn) as [_ Hlin]. specialize (Hlin (not_elem_of_empty a)).
    change (m_leaderGuid h) with (m_leaderGuid g) in Hlin. set (leader := m_leaderGuid g) in *.
    destruct (go_invites ∅ V a h (ok_group ∅ V HV a h HVa) leader Hlin) as (lp & Hlp & Hli).
    destruct (po_invite V leader lp (ok_player ∅ V HV leader lp Hlp) a Hli) as (Hlt & _).
    set (V2 := uninvited a leader V). set (h2 := with_invitees (m_invitees h ∖ {[leader]}) h).
    assert (groups V2 !! a = Some h2) as HV2a by (simpl; rewrite lookup_alter_eq; simpl in HVa; by rewrite HVa).
    assert (world_ok {[a]} V2) as HV2.
    { apply (ok_uninvited {[a]} V a leader h lp); [by apply (ok_weaken ∅)|done|done|by right|]. intros _ Hx. set_solver. }
    assert (∀ i, GroupDbStore V2 !! i ≠ Some (Some a)) as Hdb.
    { intros i Hdb. destruct (ok_store ∅ W HW i a Hdb) as (g1 & Hg1 & _ & _ & Hne). assert (g1 = g) as -> by congruence.
      by apply (Hne (not_elem_of_empty a)). }
    apply leads_find; [|congruence]. intros lp1 lp' _ _. apply leads_assoc.
    eapply leads_moves; [by eapply moves_RemoveInvite|]. fold V2. cbv beta.
    assert (keeps V V2) as Hk2 by apply keeps_uninvited.
    eapply leads_bind.
    { apply (create_leads E V2 a h2 leader (with_groupInvite None lp)); [done|done|done|done|exact Hroom|by apply p_upd_lookup|done|done]. }
    intros r w [-> (V4 & h4 & Hw & HV4 & Ha4 & Hlen & Hk4 & Hon)]. cbn [negb]. rewrite Hw.
    assert (online V4 !! me = Some (with_groupInvite None mypl)) as Hme4.
    { rewrite Hon by done. unfold V2, uninvited, set_invites. by rewrite p_upd_lookup_ne. }
    assert (m_memberSlots h4 ≠ []) as Hn4 by (intros Hx; rewrite Hx in Hlen; simpl in Hlen; lia).
    eapply leads_conseq.
    + eapply (join_safe E V4 a h4 me); [done|done|exact Hn4| |exact Hme4|exact Ht|done].
      unfold IsFull. rewrite Hlen. by destruct (isRaidGroup h4).
    + intros x w' [? Hk]. split; [done|]. by eapply keeps_then, keeps_then.
Qed.

End Accepting.

Lemma ok_new_leader X w a g p : world_ok X w → groups w !! a = Some g → m_memberSlots g = [] → a ∈ X →
  world_ok X (g_upd a (with_leaderGuid p) w).
Proof.
  intros Hw Ha Hn HX. apply (ok_g_upd X w a g); [done..|]. intros []. split; try done.
  intros _. destruct (go_new Hn) as [? _]. done.
Qed.

Lemma equiv_dom w w' : w ≡ w' → dom (groups w) = dom (groups w').
Proof.
  intros H. rewrite <- (dom_fmap_L gcore (groups w)), <- (dom_fmap_L gcore (groups w')). by rewrite (equiv_groups w w' H).
Qed.

#[export] Instance insert_group_proper a g : Proper ((≡) ==> (≡)) (λ w, with_groups (<[a := g]> (groups w)) w).
Proof.
  intros w w' H. apply world_ext; try apply (equiv_rest w w' H); intros i.
  - pose proof (f_equal (lookup i) (equiv_groups w w' H)) as E. rewrite !lookup_fmap in E. simpl.
    destruct (decide (i = a)) as [->|Hi]; [by rewrite !lookup_insert_eq|by rewrite !lookup_insert_ne].
  - pose proof (f_equal (lookup i) (equiv_online w w' H)) as E. by rewrite !lookup_fmap in E.
Qed.

Section Inviting.
Context (E : GEnv) (W : World) (HW : world_ok ∅ W) (me p : Z) (mypl pl : Player).
Context (Hme : online W !! me = Some mypl) (Hpl : online W !! p = Some pl) (Hne : p ≠ me).

Lemma leads_party {A} q ql ql' (k : option Z → gw A) Q : online W !! q = Some ql → ql' ≡ ql →
  leads W (k (target (m_group ql))) Q → leads W (party_of ql' ≫= k) Q.
Proof.
  intros Hq He Hk. unfold party_of. rewrite (GetGroup_proper _ _ He). unfold GetGroup.
  destruct (target (m_group ql)) as [b|] eqn:Ht; [|exact Hk].
  destruct (po_group W q ql (ok_player ∅ W HW q ql Hq) b Ht) as (g & Hb & _).
  apply leads_assoc. eapply leads_deref; [exact Hb|]. intros g' Hge.
  rewrite (isBGGroup_proper _ _ Hge). unfold isBGGroup. rewrite (go_bg ∅ W b g (ok_group ∅ W HW b g Hb)).
  rewrite (bool_decide_eq_false_2 (is_Some None)) by (by intros [? ?]). exact Hk.
Qed.

Context (Ht : target (m_group pl) = None) (Hi : m_groupInvite pl = None).

(** What [invite_into] leads to: the invitation stands, or nothing happened. *)
Lemma invite_into_leads group : target (m_group mypl) = group →
  leads W (invite_into me p group) (λ _ w, world_ok ∅ w ∧ develops W w).
Proof.
  intros Hg. unfold invite_into. destruct group as [a|].
  - destruct (po_group W me mypl (ok_player ∅ W HW me mypl Hme) a Hg) as (g & Ha & _).
    eapply moves_leads; [by eapply moves_AddInvite|]. intros w Hw. rewrite Hw.
    split; [by eapply ok_invited|]. apply develops_same, book_set_invites.
  - apply leads_gets. intros w0 Hw0. rewrite (equiv_dom w0 W Hw0). set (a := fresh (dom (groups W))).
    assert (groups W !! a = None) as Hfresh by (apply not_elem_of_dom, is_fresh).
    apply (leads_modify _ (λ w, with_groups (<[a := new_Group]> (groups w)) w)); [apply _|]. fold (opened a W).
    pose proof (ok_opened ∅ W a HW Hfresh) as Hok1. rewrite union_empty_l_L in Hok1. set (W1 := opened a W) in *.
    assert (groups W1 !! a = Some new_Group) as Ha1 by apply lookup_insert_eq.
    destruct (m_groupInvite mypl) as [b|] eqn:Hmi.
    + eapply (leads_moves _ W1 _ false).
      { unfold AddLeaderInvite, AddInvite. apply leads_assoc. eapply leads_player; [exact Hme|]. intros pl' He.
        rewrite (groupInvite_proper _ _ He), Hmi. by apply moves_ret. }
      cbn [negb]. eapply leads_moves; [by eapply moves_delete_group|]. apply leads_ret. intros w Hw. rewrite Hw.
      assert (with_groups (delete a (groups W1)) W1 ≡ W) as ->; [|split; [done|apply develops_refl]].
      apply world_ext; try done. intros c. simpl. rewrite delete_insert_id; done.
    + set (W2 := invited a me W1). set (W3 := g_upd a (with_leaderGuid me) W2).
      eapply (leads_moves _ W3 _ true); [by eapply moves_AddLeaderInvite; [..|by eapply icons_of]|]. cbn [negb].
      assert (world_ok {[a]} W2) as Hok2 by by eapply ok_invited.
      assert (groups W2 !! a = Some (with_invitees (∅ ∪ {[me]}) new_Group)) as Ha2 by (simpl; by rewrite lookup_alter_eq, lookup_insert_eq).
      assert (world_ok {[a]} W3) as Hok3 by (eapply ok_new_leader; [done|done|done|set_solver]).
      assert (groups W3 !! a = Some (with_leaderGuid me (with_invitees (∅ ∪ {[me]}) new_Group))) as Ha3 by (by apply g_upd_lookup).
      assert (online W3 !! p = Some pl) as Hp3 by (unfold W3, W2, invited, set_invites; simpl; by rewrite lookup_alter_ne).
      set (W4 := invited a p W3). assert (world_ok {[a]} W4) as Hok4 by by eapply ok_invited.
      eapply leads_moves; [by eapply moves_AddInvite|]. cbn [negb]. fold W4.
      apply leads_ret. intros w Hw. rewrite Hw.
      split; [|apply develops_same; unfold W4, W3, W2, W1; etransitivity; [apply book_set_invites|];
               rewrite book_g_upd_same; [etransitivity; [apply book_set_invites|by apply book_opened]|];
               intros g Hg'; fold W1 W2 in Hg'; rewrite Ha2 in Hg'; by injection Hg' as <-].
      rewrite <- (singleton_diff a). eapply ok_settle; [exact Hok4|simpl; by rewrite lookup_alter_eq, lookup_alter_eq, lookup_alter_eq, lookup_insert_eq| |done].
      intros _. split; [simpl; set_solver|]. intros i Hdb.
      destruct (ok_store ∅ W HW i a Hdb) as (g & Hg' & _). congruence.
Qed.

End Inviting.

(** The name in the packet is the player's own. *)
Definition invites_self (E : GEnv) (W : World) (me : Z) (recv : ByteBuffer) : Prop :=
  ∃ name rest membername pl, (name ← get_string; read_skip_T 4;; mret name) recv = (Ret name, rest) ∧
    normalizePlayerName E name = Some membername ∧ online W !! me = Some pl ∧ p_name pl = membername.

Lemma leads_nop W : world_ok ∅ W → leads W (mret tt) (λ _ w, world_ok ∅ w ∧ develops W w).
Proof. intros HW. apply leads_ret. intros w Hw. rewrite Hw. split; [done|apply develops_refl]. Qed.

Lemma leads_emitted W e : world_ok ∅ W → leads W (gemit e) (λ _ w, world_ok ∅ w ∧ develops W w).
Proof. intros HW. apply leads_unit, leads_emit. by apply leads_nop. Qed.

Lemma leads_after W w {A} (p : gw A) : develops W w → leads w p (λ _ v, world_ok ∅ v ∧ develops w v) →
  leads w p (λ _ v, world_ok ∅ v ∧ develops W v).
Proof. intros Hd Hp. eapply leads_conseq; [exact Hp|]. intros x v [? ?]. split; [done|]. unfold develops in *. by etransitivity. Qed.

Lemma HandleGroupInvite_fine E W me mypl recv : world_ok ∅ W → online W !! me = Some mypl → packet_ok recv →
  ¬ invites_self E W me recv → fine W (HandleGroupInviteOpcode E me recv).
Proof.
  intros HW Hme Hp Hself. unfold HandleGroupInviteOpcode, gparse.
  destruct (safe_reader (d := name ← get_string; read_skip_T 4;; mret name) recv (proj1 Hp)) as (_ & _ & Hb).
  destruct ((name ← get_string; read_skip_T 4;; mret name) recv) as [[name|e] rest] eqn:Hr.
  2: { simpl in Hb. destruct e; [|done..]. by apply fine_leads, leads_nop. }
  destruct (normalizePlayerName E name) as [membername|] eqn:Hname; [|by apply fine_leads, leads_emitted].
  unfold FindPlayerByName. set (r := list_find (λ x, p_name x.2 = membername) (map_to_list (online W))).
  assert (∀ k : option Z → gw unit, leads W (k (fst ∘ snd <$> r)) (λ _ w, world_ok ∅ w ∧ develops W w) → fine W ((on ← gets online;
    mret (fst ∘ snd <$> list_find (λ x, p_name x.2 = membername) (map_to_list on))) ≫= k)) as Hfind
    by (intros k Hk; exact (fine_leads W (k _) Hk)).
  apply Hfind. clear Hfind. destruct r as [[i [p pl]]|] eqn:Hf; simpl; [|by apply leads_emitted].
  apply list_find_Some in Hf as (Hi & Hpn & _). apply list_elem_of_lookup_2 in Hi.
  apply elem_of_map_to_list in Hi. simpl in Hpn.
  assert (p ≠ me) as Hne.
  { intros ->. apply Hself. assert (pl = mypl) as -> by congruence. by exists name, rest, membername, mypl. }
  eapply leads_player; [exact Hi|]. intros pl' Hpe. eapply leads_player; [exact Hme|]. intros mypl' Hme'.
  destruct (invite_refused E me p pl' mypl') as [res|]; [by apply leads_emitted|].
  eapply leads_party; [exact HW|exact Hme|exact Hme'|]. eapply leads_party; [exact HW|exact Hi|exact Hpe|].
  rewrite (groupInvite_proper _ _ Hpe).
  destruct (bool_decide (is_Some (target (m_group pl)))) eqn:H1; cbn [orb].
  { apply leads_emit. by apply leads_emitted. }
  apply bool_decide_eq_false in H1. apply eq_None_not_Some in H1.
  case_bool_decide as H2; [apply leads_emit; by apply leads_nop|]. apply eq_None_not_Some in H2.
  unfold may_invite.
  assert (∀ o, leads W (match o with
    | Some res => SendPartyResult me PARTY_OP_INVITE [] res
    | None => ok ← invite_into me p (target (m_group mypl));
      if ok : bool then send_invite p 1 (p_name mypl');; SendPartyResult me PARTY_OP_INVITE membername ERR_PARTY_RESULT_OK else mret tt
    end) (λ _ w, world_ok ∅ w ∧ develops W w)) as Hrest.
  { intros [res|]; [by apply leads_emitted|]. eapply leads_bind; [by eapply invite_into_leads|]. intros [] w [Hw Hd]; cbn beta iota;
      apply (leads_after W w _ Hd); [apply leads_emit; by apply leads_emitted|by apply leads_nop]. }
  destruct (target (m_group mypl)) as [a|] eqn:Ht; [|exact (Hrest None)].
  destruct (my_group W HW me mypl Hme a Ht) as (g & Ha & _).
  apply leads_assoc. eapply leads_deref; [exact Ha|]. intros g' _. apply leads_ret_bind, Hrest.
Qed.

(** ** Log-in and log-out *)

(** The place that the table keeps for a player. *)
Definition kept_place (W : World) (me : Z) (t : option Z) (sub : Z) : Prop :=
  match group_member W !! me with
  | Some _ => ∃ a g s, groups W !! a = Some g ∧ s ∈ m_memberSlots g ∧ slot_guid s = me ∧ t = Some a ∧ sub = slot_group s
  | None => t = None ∧ sub = 0
  end.

Lemma Login_moves E W me name dungeon raid : world_ok ∅ W → online W !! me = None →
  ∃ t sub, kept_place W me t sub ∧ world_ok ∅ (arrived me (set_ref t sub (new_player name dungeon raid)) t W) ∧
    moves W (Login E me name dungeon raid) tt (arrived me (set_ref t sub (new_player name dungeon raid)) t W).
Proof.
  intros HW Hoff. set (pl0 := new_player name dungeon raid).
  assert (∃ t sub, kept_place W me t sub ∧ world_ok ∅ (arrived me (set_ref t sub pl0) t W)) as (t & sub & Hplace & Hok).
  { unfold kept_place. destruct (group_member W !! me) as [store|] eqn:Hrow.
    - destruct (ok_table ∅ W HW me store Hrow) as (a & g & Ha & Hin & Hst). apply list_elem_of_fmap in Hin as (s & Hs & Hslot).
      exists (Some a), (slot_group s). split; [by exists a, g, s|].
      apply (ok_arrived ∅ W me (set_ref (Some a) (slot_group s) pl0)); try done. simpl. by exists g, s.
    - exists None, 0. split; [done|]. by apply (ok_arrived ∅ W me (set_ref None 0 pl0)). }
  exists t, sub. split; [done|]. split; [done|]. unfold Login. fold pl0.
  apply (leads_modify _ (λ w, with_online (<[me := pl0]> (online w)) w)).
  { intros w w' H. apply world_ext; try apply (equiv_rest w w' H); intros i.
    - pose proof (f_equal (lookup i) (equiv_groups w w' H)) as E0. by rewrite !lookup_fmap in E0.
    - pose proof (f_equal (lookup i) (equiv_online w w' H)) as E0. rewrite !lookup_fmap in E0. simpl.
      destruct (decide (i = me)) as [->|Hi]; [by rewrite !lookup_insert_eq|by rewrite !lookup_insert_ne]. }
  set (W1 := with_online (<[me := pl0]> (online W)) W).
  assert (online W1 !! me = Some pl0) as Hme1 by apply lookup_insert_eq.
  apply leads_gets. intros w Hw. destruct (equiv_rest w W1 Hw) as (_ & _ & _ & _ & ->).
  change (group_member W1) with (group_member W).
  assert (moves (arrived me (set_ref t sub pl0) t W) (with_group me (λ a _, SendUpdate a;; ResetMaxEnchantingLevel E a)) tt
    (arrived me (set_ref t sub pl0) t W)) as Hend.
  { assert (online (arrived me (set_ref t sub pl0) t W) !! me = Some (set_ref t sub pl0)) as Hpl
      by (unfold arrived; destruct t; simpl; apply lookup_insert_eq).
    unfold with_group. eapply leads_player; [exact Hpl|]. intros pl' He. rewrite (GetGroup_proper _ _ He).
    change (GetGroup (set_ref t sub pl0)) with t. destruct t as [a|]; [|by apply moves_ret].
    destruct (my_group _ Hok me _ Hpl a eq_refl) as (g & Ha & _). eapply leads_deref; [exact Ha|]. intros g' _.
    apply (moves_calm a); [apply _|by eapply ok_fit]. }
  unfold kept_place in Hplace. destruct (group_member W !! me) as [store|] eqn:Hrow; cbn [_LoadGroup].
  - destruct Hplace as (a & g & s & Ha & Hslot & Hs & -> & ->).
    assert (me ∈ guids g) as Hin by (rewrite <- Hs; by apply elem_of_guids).
    assert (m_dbStoreId g = store) as Hst by (pose proof (member_row ∅ W HW a g me Ha Hin); congruence).
    pose proof (ok_group ∅ W HW a g Ha) as Hg. destruct (go_live ∅ W a g Hg) as (H0 & Hdb & _); [by eapply slots_of_guid|].
    destruct (counts_bounds g (go_counts ∅ W a g Hg)) as [_ Hrange]. specialize (Hrange s Hslot).
    unfold GetGroupByDbStoreId. apply leads_assoc, leads_assoc, leads_gets. intros w2 Hw2.
    destruct (equiv_rest w2 W1 Hw2) as (_ & -> & _). apply leads_ret_bind.
    change (GroupDbStore W1) with (GroupDbStore W). rewrite <- Hst, Hdb. cbn [mbind option_bind id].
    apply leads_assoc. eapply leads_deref; [exact Ha|]. intros g' He.
    assert (GetMemberGroup g' me = slot_group s) as ->.
    { unfold GetMemberGroup. destruct (getMemberSlot_member g' me) as (i & s' & H); [by rewrite (guids_proper _ _ He)|]. rewrite H.
      destruct (getMemberSlot_Some _ _ _ _ H) as [Hi Hs']. destruct (equiv_slot g g' i s' He Hi) as (s2 & Hi2 & E1 & <-).
      f_equal. apply (key_unique slot_guid (m_memberSlots g)); [apply Hg|by eapply list_elem_of_lookup_2|done|congruence]. }
    apply leads_assoc. eapply leads_moves; [eapply moves_SetGroup; [exact Hme1|exact Ha|done|unfold MAX_RAID_SUBGROUPS in Hrange; lia]|].
    cbv beta.
    apply (leads_at _ (arrived me (set_ref (Some a) (slot_group s) pl0) (Some a) W)).
    { apply world_ext; try done. intros q. simpl. destruct (decide (q = me)) as [->|Hq].
      - by rewrite lookup_alter_eq, !lookup_insert_eq.
      - by rewrite lookup_alter_ne, !lookup_insert_ne. }
    destruct (_ <=? _).
    + apply leads_upd_player; [apply _|]. eapply leads_at; [by apply p_upd_same|]. exact Hend.
    + apply leads_ret_unit. exact Hend.
  - destruct Hplace as [-> ->]. apply leads_ret_unit. exact Hend.
Qed.

Lemma Login_leads E W me name dungeon raid : world_ok ∅ W → online W !! me = None →
  leads W (Login E me name dungeon raid) (λ _ w, world_ok ∅ w ∧ develops W w).
Proof.
  intros HW Hoff. destruct (Login_moves E W me name dungeon raid HW Hoff) as (t & sub & _ & Hok & Hm).
  eapply moves_leads; [exact Hm|]. intros w Hw. rewrite Hw.
  split; [done|]. apply develops_same, book_arrived.
Qed.

(** The end of [LogoutPlayer]: news for the group, then the references are cut. *)
Definition logout_end (E : GEnv) (me : Z) : gw unit :=
  pl ← player_at me;
  match GetGroup pl with
  | Some a => SendUpdate a;; ResetMaxEnchantingLevel E a
  | None => mret tt
  end;;
  unlink me false;;
  unlink me true;;
  modify (λ w, with_online (delete me (online w)) w).

Lemma moves_logout_end E W2 me pl2 : world_ok ∅ W2 → online W2 !! me = Some pl2 →
  moves W2 (logout_end E me) tt (departed me (target (m_group pl2)) W2).
Proof.
  intros HW2 Hpl2. unfold logout_end.
  eapply leads_player; [exact Hpl2|]. intros pl2' He2. rewrite (GetGroup_proper _ _ He2). unfold GetGroup.
  eapply (leads_moves _ W2 _ tt).
  { destruct (target (m_group pl2)) as [a|] eqn:Ht; [|by apply moves_ret].
    destruct (my_group W2 HW2 me pl2 Hpl2 a Ht) as (g & Ha & _).
    apply (moves_calm a); [apply _|by eapply ok_fit]. }
  cbv beta. eapply leads_moves.
  { eapply moves_unlink; [exact Hpl2|]. intros a Ht. destruct (my_group W2 HW2 me pl2 Hpl2 a Ht) as (g & Ha & _). by eexists. }
  cbv beta. eapply leads_moves.
  { eapply (moves_unlink_original _ me (cut false pl2)); [|exact (po_orig W2 me pl2 (ok_player ∅ W2 HW2 me pl2 Hpl2))].
    destruct (target (m_group pl2)); by apply p_upd_lookup. }
  cbv beta. apply leads_unit, leads_modify.
  { intros w w' H. apply world_ext; try apply (equiv_rest w w' H); intros i.
    - pose proof (f_equal (lookup i) (equiv_groups w w' H)) as E0. by rewrite !lookup_fmap in E0.
    - pose proof (f_equal (lookup i) (equiv_online w w' H)) as E0. rewrite !lookup_fmap in E0. simpl.
      destruct (decide (i = me)) as [->|Hi]; [by rewrite !lookup_delete_eq|by rewrite !lookup_delete_ne]. }
  apply (leads_at _ (departed me (target (m_group pl2)) W2)).
  { apply world_ext; try (by destruct (target (m_group pl2))). intros q. unfold departed.
    destruct (target (m_group pl2)); simpl; (destruct (decide (q = me)) as [->|Hq];
      [by rewrite !lookup_delete_eq|by rewrite !lookup_delete_ne, lookup_alter_ne]). }
  by apply moves_ret.
Qed.

Lemma LogoutPlayer_leads E W me pl socket : world_ok ∅ W → online W !! me = Some pl →
  leads W (LogoutPlayer E me socket) (λ _ w, world_ok ∅ w ∧ develops W w).
Proof.
  intros HW Hme. unfold LogoutPlayer. eapply leads_bind; [by eapply UninviteFromGroup_safe|].
  intros x W1 (HW1 & [_ Hd1] & pl1 & Hpl1 & Hi1). cbv beta. eapply leads_player; [exact Hpl1|]. intros pl' He.
  rewrite (GetGroup_proper _ _ He). change (GetGroup pl1) with (target (m_group pl1)).
  apply (leads_after W W1 _ Hd1). eapply (leads_bind _ _ _ (λ _ w, world_ok ∅ w ∧ keeps W1 w)).
  { destruct (target (m_group pl1)) as [a|] eqn:Ht; [|by apply safe_ret].
    destruct (my_group W1 HW1 me pl1 Hpl1 a Ht) as (g & Ha & Hin & _).
    eapply leads_deref; [exact Ha|]. intros g' Hge. destruct (_ && _); [|by apply safe_ret].
    eapply RemoveFromGroup_safe; [exact HW1|exact Ha|exact Hin]. }
  intros y W2 [HW2 [Hk Hd2]]. cbv beta. destruct (Hk me pl1 Hpl1) as (pl2 & Hpl2 & Hi2). specialize (Hi2 Hi1).
  eapply moves_leads; [by apply (moves_logout_end E W2 me pl2)|]. intros w Hw. rewrite Hw.
  split; [by apply (ok_departed ∅ W2 me pl2)|]. unfold develops in *; etransitivity; [exact Hd2|]. apply develops_same, book_departed.
Qed.
