(* ===== verification/GroupSafety.v ===== *)
(** * GroupSafety: the group server as a state machine

    The requests of the clients, log-ins and log-outs as steps from the empty server. What
    the rest of the server does shows as the two other steps: the rolls of a group change,
    or something outside the core does. *)

From Stdlib Require Import ZArith Lia.
From S2P Require Import Prelude ByteBuffer ByteBufferFacts Packets Guid LootRoll GroupData Group GroupServer GroupFacts GroupInv GroupSteps GroupWorlds GroupRun GroupBook GroupOps GroupLife GroupHandlers.
Local Open Scope Z_scope.

(** ** Requests *)

Inductive group_op := CMSG_GROUP_INVITE | CMSG_GROUP_ACCEPT | CMSG_GROUP_DECLINE | CMSG_GROUP_UNINVITE
| CMSG_GROUP_UNINVITE_GUID | CMSG_GROUP_SET_LEADER | CMSG_LOOT_METHOD | CMSG_GROUP_DISBAND | OP_MINIMAP_PING
| OP_RANDOM_ROLL | CMSG_GROUP_CHANGE_SUB_GROUP | CMSG_GROUP_RAID_CONVERT | CMSG_GROUP_ASSISTANT_LEADER
| OP_RAID_TARGET_UPDATE | OP_RAID_READY_CHECK | OP_PARTY_ASSIGNMENT | CMSG_OPT_OUT_OF_LOOT.

Inductive request :=
| Packet (op : group_op) (me : Z) (recv_data : ByteBuffer)
| PlayerLogin (me : Z) (name : list Z) (dungeon raid : Z)
| PlayerLogout (me : Z) (socket : bool).

Section Server.
Context (E : GEnv).

Definition handle (op : group_op) (me : Z) (recv : ByteBuffer) : gw unit :=
  match op with
  | CMSG_GROUP_INVITE => HandleGroupInviteOpcode E me recv
  | CMSG_GROUP_ACCEPT => HandleGroupAcceptOpcode E me recv
  | CMSG_GROUP_DECLINE => HandleGroupDeclineOpcode me recv
  | CMSG_GROUP_UNINVITE => HandleGroupUninviteOpcode E me recv
  | CMSG_GROUP_UNINVITE_GUID => HandleGroupUninviteGuidOpcode E me recv
  | CMSG_GROUP_SET_LEADER => HandleGroupSetLeaderOpcode me recv
  | CMSG_LOOT_METHOD => HandleLootMethodOpcode me recv
  | CMSG_GROUP_DISBAND => HandleGroupDisbandOpcode E me recv
  | OP_MINIMAP_PING => HandleMinimapPingOpcode me recv
  | OP_RANDOM_ROLL => HandleRandomRollOpcode E me recv
  | CMSG_GROUP_CHANGE_SUB_GROUP => HandleGroupChangeSubGroupOpcode E me recv
  | CMSG_GROUP_RAID_CONVERT => HandleGroupRaidConvertOpcode E me recv
  | CMSG_GROUP_ASSISTANT_LEADER => HandleGroupAssistantLeaderOpcode me recv
  | OP_RAID_TARGET_UPDATE => HandleRaidTargetUpdateOpcode me recv
  | OP_RAID_READY_CHECK => HandleRaidReadyCheckOpcode me recv
  | OP_PARTY_ASSIGNMENT => HandlePartyAssignmentOpcode me recv
  | CMSG_OPT_OUT_OF_LOOT => HandleOptOutOfLootOpcode me recv
  end.

Definition serve (r : request) : gw unit :=
  match r with
  | Packet op me recv => handle op me recv
  | PlayerLogin me name dungeon raid => Login E me name dungeon raid
  | PlayerLogout me socket => LogoutPlayer E me socket
  end.

(** The two invitations the code does not guard against. *)
Definition invites_himself (w : World) (me : Z) (recv : ByteBuffer) : bool :=
  match ((name ← get_string; read_skip_T 4;; mret name) recv).1, online w !! me with
  | Ret name, Some pl => bool_decide (normalizePlayerName E name = Some (p_name pl))
  | _, _ => false
  end.

Definition leads_his_invitation (w : World) (me : Z) : bool :=
  match online w !! me ≫= m_groupInvite with
  | Some a => match groups w !! a with Some g => m_leaderGuid g =? me | None => false end
  | None => false
  end.

(** Opcodes come from a player who is logged in; ids for new groups are left. *)
Definition allowed (w : World) (r : request) : Prop :=
  match r with
  | Packet op me recv =>
    is_Some (online w !! me) ∧ packet_ok recv ∧
    match op with
    | CMSG_GROUP_INVITE => invites_himself w me recv = false
    | CMSG_GROUP_ACCEPT => leads_his_invitation w me = false ∧ roomy w
    | _ => True
    end
  | PlayerLogin me _ _ _ => online w !! me = None
  | PlayerLogout me _ => is_Some (online w !! me)
  end.

Inductive step : World → World → Prop :=
| step_request w r : allowed w r → step w (serve r w).2
| step_rolls w a g l : groups w !! a = Some g → NoDup (itemGUID <$> l) → step w (g_upd a (with_rolls l) w)
| step_outside w w' : w' ≡ w → step w w'.

Lemma request_fine w r : world_ok ∅ w → allowed w r → fine w (serve r).
Proof.
  intros Hw. destruct r as [op me recv|me name dungeon raid|me socket]; simpl.
  - intros ([pl Hme] & Hp & Hop). destruct op; simpl.
    1: { eapply HandleGroupInvite_fine; [done|done|done|]. intros (name & rest & m & pl' & Hr & Hn & Hpl & Hpn).
         unfold invites_himself in Hop. rewrite Hr, Hpl in Hop. simpl in Hop. apply bool_decide_eq_false in Hop.
         apply Hop. by rewrite Hpn. }
    1: { destruct Hop as [Hl Hroom]. apply fine_safe. apply (HandleGroupAccept_safe E w Hw me pl); [done|done|done|].
         intros a g Hi Ha Hg. unfold leads_his_invitation in Hl. rewrite Hme in Hl. simpl in Hl. rewrite Hi, Ha, Hg in Hl.
         by rewrite Z.eqb_refl in Hl. }
    all: apply fine_safe.
    + by eapply HandleGroupDecline_safe.
    + by eapply HandleGroupUninvite_safe.
    + by eapply HandleGroupUninviteGuid_safe.
    + by eapply HandleGroupSetLeader_safe.
    + by eapply HandleLootMethod_safe.
    + by eapply HandleGroupDisband_safe.
    + by eapply HandleMinimapPing_safe.
    + by eapply HandleRandomRoll_safe.
    + by eapply HandleGroupChangeSubGroup_safe.
    + by eapply HandleGroupRaidConvert_safe.
    + by eapply HandleGroupAssistantLeader_safe.
    + by eapply HandleRaidTargetUpdate_safe.
    + by eapply HandleRaidReadyCheck_safe.
    + by eapply HandlePartyAssignment_safe.
    + by eapply HandleOptOutOfLoot_safe.
  - intros Hoff. apply fine_leads. by apply Login_leads.
  - intros [pl Hme]. apply fine_leads. by eapply LogoutPlayer_leads.
Qed.

(** The server before anybody logs in, with no groups in the database. *)
Definition empty_server : World := mkWorld ∅ ∅ ∅ [] 1 1 ∅ (mkRolls [] ∅ 0 0 []) [].

Lemma empty_ok : world_ok ∅ empty_server.
Proof. by split. Qed.

Lemma step_ok w w' : world_ok ∅ w → step w w' → world_ok ∅ w'.
Proof.
  intros Hw Hs. destruct Hs as [w r Hr|w a g l Ha Hl|w w' He].
  - destruct (request_fine w r Hw Hr) as (w' & E1 & Hw' & _). by rewrite E1.
  - by eapply ok_rolls.
  - by rewrite He.
Qed.

Lemma step_develops w w' : world_ok ∅ w → step w w' → develops w w'.
Proof.
  intros Hw Hs. destruct Hs as [w r Hr|w a g l Ha Hl|w w' He].
  - destruct (request_fine w r Hw Hr) as (w' & E1 & _ & Hd). by rewrite E1.
  - by apply develops_same, book_g_upd_same.
  - rewrite He. apply develops_refl.
Qed.

Lemma reachable_ok w : rtc step empty_server w → world_ok ∅ w.
Proof.
  intros H. pose proof empty_ok as H0. revert H0. induction H as [|w1 w2 w3 Hs _ IH]; [done|].
  intros Hw. by apply IH, (step_ok w1).
Qed.

End Server.
