(* ===== verification/GroupProps.v ===== *)
(** * GroupProps: what groups promise

    The theorems about reachable states of the group server, and about single operations.
    The witnesses run a small server of four players. *)

From Stdlib Require Import ZArith Lia.
From S2P Require Import Prelude ByteBuffer ByteBufferFacts Packets Guid LootRoll LootRollFacts GroupData Group GroupServer GroupFacts GroupInv GroupSteps GroupWorlds GroupRun GroupBook GroupOps GroupLife GroupHandlers GroupSafety.
Local Open Scope Z_scope.

(** ** Runs of the server *)

#[export] Instance packet_ok_dec b : Decision (packet_ok b).
Proof. unfold packet_ok, valid, in_u. apply _. Defined.

#[export] Instance allowed_dec E w r : Decision (allowed E w r).
Proof. destruct r as [[] me recv|me name d rd|me s]; unfold allowed, roomy; apply _. Defined.

(** Each request in the state that the earlier ones left. *)
Definition run (E : GEnv) (w : World) (rs : list request) : World := foldl (λ w r, (serve E r w).2) w rs.

Fixpoint all_allowed (E : GEnv) (w : World) (rs : list request) : bool :=
  match rs with
  | [] => true
  | r :: rs => bool_decide (allowed E w r) && all_allowed E (serve E r w).2 rs
  end.

Lemma run_reachable E rs : ∀ w, all_allowed E w rs = true → rtc (step E) w (run E w rs).
Proof.
  induction rs as [|r rs IH]; intros w; simpl; [done|]. intros [Hr Hrs]%andb_prop.
  apply bool_decide_eq_true in Hr. eapply rtc_l; [by apply step_request|by apply IH].
Qed.

(** Nobody plays in a battleground, every name is right, everything is near. *)
Definition demo_env : GEnv :=
  mkGEnv (λ _, 0) (λ _, 80) (λ _, false) (λ _, 1) (λ _, false) (λ _, 0) (λ _, 0) (λ _ _, false) true true
    Some (λ _, 0) (λ _, None) (λ _, true) (λ _, 1) (λ _ a _, a) (λ _ _ _ _, 0) (λ _, None).

Definition demo_name (p : Z) : list Z := [96 + p].
Definition login (p : Z) : request := PlayerLogin p (demo_name p) 0 0.
Definition invite (me p : Z) : request := Packet CMSG_GROUP_INVITE me (pack (put_string (demo_name p);; put_u32 0)).
Definition accept (me : Z) : request := Packet CMSG_GROUP_ACCEPT me (pack (put_u32 0)).
Definition to_raid (me : Z) : request := Packet CMSG_GROUP_RAID_CONVERT me empty_buffer.

(** 1 leads a raid with 2 and 3; 4 is alone. *)
Definition demo_requests : list request :=
  [login 1; login 2; login 3; login 4; invite 1 2; accept 2; invite 1 3; accept 3; to_raid 1].
Definition demo : World := run demo_env empty_server demo_requests.

Lemma group_demo_reachable : rtc (step demo_env) empty_server demo.
Proof. apply run_reachable. by vm_compute. Qed.

Lemma demo_ok : world_ok ∅ demo.
Proof. apply (reachable_ok demo_env), group_demo_reachable. Qed.

(** ** Reachable states *)

(** C5. In every state reachable by [allowed] client packets, log-ins and log-outs, every further
    allowed request runs to its end: no handler follows the pointer of a deleted group, indexes
    past the sub-group counters or fails an assertion. Allowed is any packet of bytes of a player
    in the server but two: an invitation of himself, and the acceptance of an invitation to a
    group that he leads himself or when no group id is left. C36 shows that the first of these
    can end in a use after free. *)
Theorem group_server_safe E w r : rtc (step E) empty_server w → allowed E w r →
  ∃ w', serve E r w = (Ret tt, w').
Proof.
  intros Hw Hr. destruct (request_fine E w r (reachable_ok E w Hw) Hr) as (w' & H & _). by exists w'.
Qed.

Lemma group_server_safe_witness : ∃ w', serve demo_env (invite 1 4) demo = (Ret tt, w').
Proof. apply (group_server_safe demo_env); [exact group_demo_reachable|]. apply (bool_decide_unpack _). by vm_compute. Defined.

(** A player is a member of the group he points to, and of no other. *)
Lemma consistent_members w p pl a : world_ok ∅ w → online w !! p = Some pl →
  GetGroup pl = Some a ↔ ∃ g, groups w !! a = Some g ∧ p ∈ guids g.
Proof.
  intros Hw Hpl. split.
  - intros Ha. destruct (po_group w p pl (ok_player ∅ w Hw p pl Hpl) a Ha) as (g & Hg & Hin & _). by exists g.
  - intros (g & Hg & Hin). by eapply (member_target ∅ w Hw a g p).
Qed.

Lemma consistent_subgroup w p pl a g : world_ok ∅ w → online w !! p = Some pl → groups w !! a = Some g → p ∈ guids g →
  GetMemberGroup g p = iSubGroup (m_group pl).
Proof.
  intros Hw Hpl Ha Hin. destruct (getMemberSlot_member g p Hin) as (i & s & Hs). unfold GetMemberGroup. rewrite Hs.
  destruct (getMemberSlot_Some g p i s Hs) as [Hi Hsp]. apply list_elem_of_lookup_2 in Hi.
  destruct (go_members ∅ w a g (ok_group ∅ w Hw a g Ha) s Hi) as [_ H]. rewrite Hsp in H. by rewrite (H pl Hpl).
Qed.

Lemma consistent_table w p store : world_ok ∅ w →
  group_member w !! p = Some store ↔ ∃ a g, groups w !! a = Some g ∧ p ∈ guids g ∧ m_dbStoreId g = store.
Proof.
  intros Hw. split; [apply (ok_table ∅ w Hw)|]. intros (a & g & Ha & Hin & <-). by eapply (member_row ∅ w Hw a g).
Qed.

Lemma consistent_refs w a g p o : world_ok ∅ w → groups w !! a = Some g →
  (p, o) ∈ m_memberMgr g ↔ o = false ∧ p ∈ guids g ∧ is_Some (online w !! p).
Proof.
  intros Hw Ha. split.
  - intros Hr. destruct (ref_member ∅ w Hw a g p o Ha Hr) as [-> Hin].
    destruct (go_refs ∅ w a g (ok_group ∅ w Hw a g Ha) p _ Hr) as (_ & pl & Hpl & _). by split_and!.
  - intros (-> & Hin & [pl Hpl]). by eapply (member_ref ∅ w Hw a g p pl).
Qed.

Lemma consistent_sizes g : counts_ok g →
  (length (m_memberSlots g) <= if isRaidGroup g then 40 else 5)%nat ∧
  ∀ sub, 0 <= sub < MAX_RAID_SUBGROUPS → Z.of_nat (in_subgroup g sub) <= MAXGROUPSIZE.
Proof.
  intros Hc. split; [|by apply (counts_bounds g)]. pose proof (group_size g Hc) as Hs. unfold counts_ok in Hc.
  destruct (isRaidGroup g); [done|]. by destruct Hc as (_ & ? & _).
Qed.

(** A group with members has its leader among them and is found by both ids; a new one has
    invited its leader. *)
Definition registered_group (w : World) (a : Z) (g : Group) : Prop :=
  m_leaderGuid g ∈ guids g ∧ GetGroupByGUID (GUID_LOPART (m_guid g)) w = (Ret (Some a), w) ∧
  GetGroupByDbStoreId (m_dbStoreId g) w = (Ret (Some a), w).

Lemma consistent_registered w a g : world_ok ∅ w → groups w !! a = Some g →
  if IsCreated g then registered_group w a g else m_leaderGuid g ∈ m_invitees g.
Proof.
  intros Hw Ha. pose proof (ok_group ∅ w Hw a g Ha) as Hg. unfold IsCreated.
  rewrite (members_count g (go_counts ∅ w a g Hg)). destruct (m_memberSlots g) as [|s l] eqn:Hs; cbn [length Z.of_nat Z.ltb Z.compare].
  - apply (go_new ∅ w a g Hg Hs). set_solver.
  - destruct (go_live ∅ w a g Hg) as (_ & Hdb & H); [by rewrite Hs|]. destruct (H (not_elem_of_empty a)) as [Hl Hst].
    split; [done|]. split; [unfold GetGroupByGUID, gets; by rewrite Hst|].
    unfold GetGroupByDbStoreId. erewrite bind_ret_run by done. by rewrite Hdb.
Qed.

(** C6. In every state the server reaches by [allowed] requests (no packet invites its sender or
    accepts the invitation to a group its sender leads, and group ids are left; see C5): a player points to a group exactly when he
    is one of its members, in the same sub-group; a character is a member of one group at
    most, the one the table [group_member] names; a group refers to its members who are in
    the server and to nobody else; no party has more than 5 members, no raid more than 40,
    no sub-group more than 5; a group with members has its leader among them and the group
    manager finds it by both its ids. *)
Theorem group_server_consistent E w : rtc (step E) empty_server w →
  (∀ p pl a, online w !! p = Some pl → GetGroup pl = Some a ↔ ∃ g, groups w !! a = Some g ∧ p ∈ guids g) ∧
  (∀ p store, group_member w !! p = Some store ↔
     ∃ a g, groups w !! a = Some g ∧ p ∈ guids g ∧ m_dbStoreId g = store) ∧
  (∀ a g b h p, groups w !! a = Some g → groups w !! b = Some h → p ∈ guids g → p ∈ guids h → a = b) ∧
  (∀ a g, groups w !! a = Some g →
     (∀ p pl, online w !! p = Some pl → p ∈ guids g → GetMemberGroup g p = iSubGroup (m_group pl)) ∧
     (∀ p o, (p, o) ∈ m_memberMgr g ↔ o = false ∧ p ∈ guids g ∧ is_Some (online w !! p)) ∧
     (length (m_memberSlots g) <= if isRaidGroup g then 40 else 5)%nat ∧
     (∀ sub, 0 <= sub < MAX_RAID_SUBGROUPS → Z.of_nat (in_subgroup g sub) <= MAXGROUPSIZE) ∧
     if IsCreated g then registered_group w a g else m_leaderGuid g ∈ m_invitees g).
Proof.
  intros Hr. pose proof (reachable_ok E w Hr) as Hw. split_and!.
  - intros p pl a. by apply consistent_members.
  - intros p store. by apply consistent_table.
  - intros a g b h p. by apply (member_unique ∅ w Hw).
  - intros a g Ha. pose proof (consistent_sizes g (go_counts ∅ w a g (ok_group ∅ w Hw a g Ha))) as [? ?].
    split_and!; [|intros; by eapply (consistent_refs w a g)|done|done|by apply consistent_registered].
    intros p pl Hpl Hin. by eapply consistent_subgroup.
Qed.

Lemma group_server_consistent_witness : group_member demo !! 3 = Some 1 ↔
  ∃ a g, groups demo !! a = Some g ∧ 3 ∈ guids g ∧ m_dbStoreId g = 1.
Proof. apply (group_server_consistent demo_env demo group_demo_reachable). Defined.

(** ** The abstract specification *)

(** C2. The group server refines the book of parties: its history of [allowed] requests from the
    empty server (no packet invites its sender or accepts the invitation to a group its sender
    leads, and group ids are left; see C5) is a history of the book, and every further allowed
    request changes the book only in the ways that [party_step] allows. *)
Theorem group_server_refines E w : rtc (step E) empty_server w →
  rtc party_step ∅ (book w) ∧ ∀ r, allowed E w r → rtc party_step (book w) (book (serve E r w).2).
Proof.
  intros Hr. assert (∀ r, allowed E w r → world_ok ∅ w → develops w (serve E r w).2) as Hreq.
  { intros r Hal Hw. destruct (request_fine E w r Hw Hal) as (w' & E1 & _ & Hd). by rewrite E1. }
  split; [|intros r Hal; by apply Hreq, (reachable_ok E)].
  clear Hreq. change ∅ with (book empty_server). pose proof empty_ok as Hw.
  induction Hr as [w|w1 w2 w3 Hs _ IH]; [constructor|]. etransitivity; [by eapply step_develops|].
  by apply IH, (step_ok E w1).
Qed.

Lemma group_server_refines_witness : rtc party_step (book demo) (book (serve demo_env (invite 1 4) demo).2).
Proof.
  apply (group_server_refines demo_env demo group_demo_reachable). apply (bool_decide_unpack _). by vm_compute.
Defined.

(** What the book says about a player is what the table and his reference say. *)
Lemma unbound_row w p : world_ok ∅ w → unbound (book w) p → group_member w !! p = None.
Proof.
  intros Hw Hu. destruct (group_member w !! p) as [store|] eqn:Hrow; [|done]. exfalso.
  destruct (ok_table ∅ w Hw p store Hrow) as (a & g & Ha & Hin & _).
  eapply Hu; [apply (book_of_group w a g Ha); by eapply slots_of_guid|]. by rewrite p_members_roster.
Qed.

Lemma book_unbound w p a g f : world_ok ∅ w → groups w !! a = Some g → p ∈ guids g →
  (∀ P, f = Some P → p ∉ p_members P) → unbound (partial_alter (λ _, f) a (book w)) p.
Proof.
  intros Hw Ha Hin Hf b P Hb. destruct (decide (b = a)) as [->|Hne].
  - rewrite lookup_partial_alter_eq in Hb. by apply Hf.
  - rewrite lookup_partial_alter_ne in Hb by done. destruct (book_inv w b P Hb) as (h & Hh & _ & ->).
    rewrite p_members_roster. intros Hp. apply Hne. by eapply (member_unique ∅ w Hw b h a g p).
Qed.

Lemma quit_members p l P : p ∉ p_members (quit p l P).
Proof. intros (x & -> & Hx)%list_elem_of_fmap. simpl in Hx. apply list_elem_of_filter in Hx as [? _]. done. Qed.

(** ** Single operations *)

Definition party_of_group (g : Group) : Party := mkParty (m_leaderGuid g) (isRaidGroup g) (roster g).

(** C7. [RemoveMember] of a member always succeeds. The table forgets him and so does his
    player object. If only two members were there, or fewer than two of the others are in
    the server, the whole group is dissolved and deleted; otherwise exactly he is off the
    roster, and if he led, another member who is in the server leads. The answer is true
    exactly when there were more than two members. *)
Theorem RemoveMember_spec E w a g p method kicker : world_ok ∅ w → groups w !! a = Some g → p ∈ guids g →
  ∃ w', RemoveMember E a p method kicker w = (Ret (bool_decide (2 < length (m_memberSlots g))%nat), w') ∧
    world_ok ∅ w' ∧ group_member w' !! p = None ∧ (∀ pl, online w' !! p = Some pl → GetGroup pl = None) ∧
    if decide (length (m_memberSlots g) <= 2 ∨ length (remaining w p g) < 2)%nat
    then book w' = delete a (book w)
    else ∃ leader, leader ∈ guids g ∧ leader ≠ p ∧
      (if decide (m_leaderGuid g = p) then is_Some (online w !! leader) else leader = m_leaderGuid g) ∧
      book w' = <[a := quit p leader (party_of_group g)]> (book w).
Proof.
  intros Hw Ha Hp.
  assert (∀ w' f, world_ok ∅ w' → book w' = partial_alter (λ _, f) a (book w) → (∀ P, f = Some P → p ∉ p_members P) →
    group_member w' !! p = None ∧ ∀ pl, online w' !! p = Some pl → GetGroup pl = None) as Hgone.
  { intros w' f Hw' Hb Hf. pose proof (book_unbound w p a g f Hw Ha Hp Hf) as Hu. rewrite <- Hb in Hu.
    split; [by apply unbound_row|]. intros pl Hpl. destruct (GetGroup pl) as [b|] eqn:Hg; [|done].
    apply (consistent_members w' p pl b Hw' Hpl) in Hg as (h & Hh & Hin).
    pose proof (unbound_row w' p Hw' Hu) as Hn. pose proof (member_row ∅ w' Hw' b h p Hh Hin). congruence. }
  pose proof (RemoveMember_safe E w Hw a p g Ha Hp method kicker) as Hsafe. apply leads_run in Hsafe as (r & w' & E1 & Hw' & _).
  exists w'.
  assert (leads w (RemoveMember E a p method kicker) (λ r v, r = bool_decide (2 < length (m_memberSlots g))%nat ∧
    if decide (length (m_memberSlots g) <= 2 ∨ length (remaining w p g) < 2)%nat then book v = delete a (book w)
    else ∃ leader, leader ∈ guids g ∧ leader ≠ p ∧
      (if decide (m_leaderGuid g = p) then is_Some (online w !! leader) else leader = m_leaderGuid g) ∧
      book v = <[a := quit p leader (party_of_group g)]> (book w))) as Hl.
  { apply (RemoveMember_leads E w Hw a p g Ha Hp).
    - intros Hle v Hv. rewrite bool_decide_eq_false_2 by lia. split; [done|].
      destruct (decide (_ ∨ _)) as [_|Hd]; [by rewrite Hv, book_dissolved|exfalso; apply Hd; by left].
    - intros Hlt i s Hi Hs. eapply leads_conseq; [by apply removal_end|]. intros r' v (-> & V & h & Hnew & Hres).
      rewrite bool_decide_eq_true_2 by done. split; [done|].
      pose proof (removal_book w Hw a p g Ha Hp i s Hi Hs Hlt V h v Hnew Hres) as Hb.
      destruct (decide (_ ∨ _)) as [Hd|Hd], (decide (length (remaining w p g) < 2)%nat); try (exfalso; lia); exact Hb. }
  apply leads_run in Hl as (r' & w'' & E2 & -> & Hb). rewrite E1 in E2. injection E2 as -> <-.
  rewrite E1. split; [done|]. split; [done|]. apply and_assoc. split; [|exact Hb].
  case_decide as Hd.
  - apply (Hgone w' None); [done|exact Hb|done].
  - destruct Hb as (l & _ & _ & _ & Hb). apply (Hgone w' (Some (quit p l (party_of_group g)))); [done|exact Hb|].
    intros P [= <-]. apply quit_members.
Qed.

Definition demo_group : Group := default new_Group (groups demo !! 0).

Lemma demo_group_at : groups demo !! 0 = Some demo_group.
Proof. by vm_compute. Qed.

Lemma demo_guids : guids demo_group = [1; 2; 3].
Proof. by vm_compute. Qed.

Lemma RemoveMember_spec_witness : ∃ b w', RemoveMember demo_env 0 1 GROUP_REMOVEMETHOD_LEAVE 0 demo = (Ret b, w') ∧
  group_member w' !! 1 = None.
Proof.
  assert (1 ∈ guids demo_group) as H1 by (rewrite demo_guids; apply list_elem_of_here).
  destruct (RemoveMember_spec demo_env demo 0 demo_group 1 GROUP_REMOVEMETHOD_LEAVE 0 demo_ok demo_group_at H1)
    as (w' & Hrun & _ & Hrow & _). eexists _, w'. split; [exact Hrun|exact Hrow].
Defined.

(** C33. [AddMember] of a player who is in no group gives him the first sub-group with room:
    all earlier sub-groups hold five. He is then the last on the roster, the table names his
    group and his reference leads there. A raid refuses him, and nothing changes, exactly
    when it has forty members. *)
Theorem AddMember_spec E w a g p pl : world_ok ∅ w → groups w !! a = Some g → m_memberSlots g ≠ [] →
  online w !! p = Some pl → GetGroup pl = None → m_groupInvite pl = None → isRaidGroup g = true ∨ IsFull g = false →
  match new_subgroup g with
  | None => AddMember E a p w = (Ret false, w) ∧ isRaidGroup g = true ∧ length (m_memberSlots g) = 40%nat
  | Some sub => ∃ w', AddMember E a p w = (Ret true, w') ∧ world_ok ∅ w' ∧
      p_place (party_of_group g) sub ∧ (∀ k, 0 <= k < sub → p_count k (party_of_group g) = 5) ∧
      book w' = <[a := enter p sub (party_of_group g)]> (book w) ∧
      group_member w' = <[p := m_dbStoreId g]> (group_member w) ∧
      ∃ pl', online w' !! p = Some pl' ∧ m_group pl' = mkRef (Some a) sub
  end.
Proof.
  intros Hw Ha Hn Hpl Ht Hi Hfull. pose proof (ok_group ∅ w Hw a g Ha) as Hg.
  assert (isRaidGroup g = false → (length (m_memberSlots g) < 5)%nat) as Hlt.
  { intros Hr. destruct Hfull as [?|Hf]; [congruence|]. unfold IsFull in Hf. rewrite Hr in Hf.
    apply Z.leb_gt in Hf. unfold MAXGROUPSIZE in Hf. lia. }
  destruct (new_subgroup g) as [sub|] eqn:Hsub.
  - destruct (go_live ∅ w a g Hg Hn) as (H0 & Hdb & _).
    assert (world_ok ∅ (joined a p sub w)) as Hok by by apply (ok_joined ∅ w a p g pl sub).
    pose proof (moves_AddMember E ∅ w a p g pl sub Hw Ha Hpl Ht Hi Hsub Hok) as Hm.
    apply leads_run in Hm as (x & w' & Hrun & -> & Hw'). exists w'. split; [done|]. split; [by rewrite Hw'|].
    split; [by apply (new_place ∅ w a g sub)|]. split.
    { intros k Hk. unfold party_of_group. rewrite p_count_roster. by apply (first_subgroup g sub (go_counts ∅ w a g Hg)). }
    split; [by rewrite Hw', (book_joined a p sub w g Ha)|].
    destruct (equiv_rest w' _ Hw') as (_ & _ & _ & _ & ->). split; [simpl; by rewrite Ha|].
    pose proof (equiv_player w' _ Hw' p) as Hp.
    unfold joined in Hp. rewrite (p_upd_lookup p _ _ pl) in Hp by done. destruct Hp as (pl' & Hpl' & He).
    exists pl'. split; [done|]. by rewrite He.
  - assert (isRaidGroup g = true) as Hr.
    { destruct (isRaidGroup g) eqn:Hr; [done|]. pose proof (go_counts ∅ w a g Hg) as Hc. unfold counts_ok in Hc.
      rewrite Hr in Hc. destruct Hc as [Hc _]. unfold new_subgroup in Hsub. by rewrite Hc in Hsub. }
    split; [|split; [done|by apply raid_full; [apply Hg|..]]].
    unfold AddMember. erewrite bind_ret_run by by apply deref_group_run. by rewrite Hsub.
Qed.

Definition demo_player : Player := default (new_player [] 0 0) (online demo !! 4).

Lemma demo_player_at : online demo !! 4 = Some demo_player.
Proof. by vm_compute. Qed.

Lemma demo_subgroup : new_subgroup demo_group = Some 0.
Proof. by vm_compute. Qed.

Lemma demo_raid : isRaidGroup demo_group = true ∧ m_memberSlots demo_group ≠ [] ∧ GetGroup demo_player = None ∧
  m_groupInvite demo_player = None.
Proof. split_and!; by vm_compute. Qed.

Lemma AddMember_spec_witness : ∃ w', AddMember demo_env 0 4 demo = (Ret true, w') ∧
  book w' = <[0 := enter 4 0 (party_of_group demo_group)]> (book demo).
Proof.
  destruct demo_raid as (Hr & Hn & Ht & Hi).
  pose proof (AddMember_spec demo_env demo 0 demo_group 4 demo_player demo_ok demo_group_at Hn demo_player_at Ht Hi
    (or_introl Hr)) as H.
  rewrite demo_subgroup in H. destruct H as (w' & Hrun & _ & _ & _ & Hb & _). exists w'. split; [exact Hrun|exact Hb].
Defined.

Lemma departed_slots p t w b h : groups (departed p t w) !! b = Some h →
  ∃ h', groups w !! b = Some h' ∧ m_memberSlots h' = m_memberSlots h.
Proof.
  unfold departed. destruct t as [c|]; simpl; [|by exists h].
  intros [(-> & h0 & ? & ->)|(_ & ?)]%lookup_alter_Some; [by exists h0|by exists h].
Qed.

(** The table keeps the place of a member who left the server. *)
Lemma kept_place_departed w w1 p pl a t sub : world_ok ∅ w → online w !! p = Some pl → GetGroup pl = Some a →
  w1 ≡ departed p (target (m_group pl)) w → kept_place w1 p t sub → mkRef t sub = m_group pl.
Proof.
  intros Hw Hpl Ht Hw1 Hplace. destruct (equiv_rest w1 _ Hw1) as (_ & _ & _ & _ & Htab).
  assert (group_member w1 = group_member w) as HtabW by (rewrite Htab; unfold departed; by destruct (target (m_group pl))).
  destruct (po_group w p pl (ok_player ∅ w Hw p pl Hpl) a Ht) as (g0 & Hg0 & Hin & _).
  unfold kept_place in Hplace. rewrite HtabW, (member_row ∅ w Hw a g0 p Hg0 Hin) in Hplace.
  destruct Hplace as (b & h & s & Hb & Hs & Hsp & -> & ->).
  apply list_elem_of_lookup in Hs as [i Hi]. destruct (equiv_group _ w1 (symmetry Hw1) b h Hb) as (h1 & Hb1 & He).
  destruct (equiv_slot h1 h i s (symmetry He) Hi) as (s1 & Hi1 & E1 & <-).
  destruct (departed_slots p _ w b h1 Hb1) as (h' & Hb' & Hsl). rewrite <- Hsl in Hi1. apply list_elem_of_lookup_2 in Hi1.
  destruct (go_members ∅ w b h' (ok_group ∅ w Hw b h' Hb') s1 Hi1) as [_ Href].
  rewrite E1, Hsp in Href. by rewrite (Href pl Hpl).
Qed.

(** A raid member who logs out only leaves the server. *)
Lemma moves_Logout_raid E w p pl a g socket : world_ok ∅ w → online w !! p = Some pl →
  GetGroup pl = Some a → groups w !! a = Some g → isRaidGroup g = true ∨ socket = false →
  m_groupInvite pl = None ∧ moves w (LogoutPlayer E p socket) tt (departed p (target (m_group pl)) w).
Proof.
  intros Hw Hpl Ht Ha Hstay.
  assert (m_groupInvite pl = None) as Hi.
  { destruct (m_groupInvite pl) as [b|] eqn:Hi; [|done].
    destruct (po_invite w p pl (ok_player ∅ w Hw p pl Hpl) b Hi) as [Hn _]. unfold GetGroup in Ht. congruence. }
  split; [done|]. unfold LogoutPlayer. eapply (leads_moves _ w _ tt).
  { unfold UninviteFromGroup. eapply leads_player; [exact Hpl|]. intros pl' He. rewrite (groupInvite_proper _ _ He), Hi.
    by apply moves_ret. }
  cbv beta. eapply leads_player; [exact Hpl|]. intros pl' He. rewrite (GetGroup_proper _ _ He), Ht.
  eapply (leads_moves _ w _ tt); [|by apply moves_logout_end].
  eapply leads_deref; [exact Ha|]. intros g' Hge. rewrite (isRaidGroup_proper _ _ Hge).
  destruct Hstay as [-> | ->]; [|rewrite andb_false_r]; by apply moves_ret.
Qed.

(** C34. A raid member, or a player who loses the connection, keeps his place: the log-out
    changes no party, and when he logs in again he is in the same group and sub-group. *)
Theorem relog_keeps_place E w p pl a g socket name dungeon raid : world_ok ∅ w → online w !! p = Some pl →
  GetGroup pl = Some a → groups w !! a = Some g → isRaidGroup g = true ∨ socket = false →
  ∃ w1 w2, LogoutPlayer E p socket w = (Ret tt, w1) ∧ online w1 !! p = None ∧ book w1 = book w ∧
    Login E p name dungeon raid w1 = (Ret tt, w2) ∧ book w2 = book w ∧
    ∃ pl', online w2 !! p = Some pl' ∧ m_group pl' = m_group pl.
Proof.
  intros Hw Hpl Ht Ha Hstay. destruct (moves_Logout_raid E w p pl a g socket Hw Hpl Ht Ha Hstay) as [Hi Hout].
  apply leads_run in Hout as ([] & w1 & Hrun1 & _ & Hw1). set (W1 := departed p (target (m_group pl)) w) in *.
  assert (world_ok ∅ W1) as HW1 by by apply (ok_departed ∅ w p pl).
  assert (online W1 !! p = None) as Hoff1 by (unfold W1, departed; destruct (target (m_group pl)); apply lookup_delete_eq).
  assert (online w1 !! p = None) as Hoff by (pose proof (equiv_player w1 W1 Hw1 p) as H; by rewrite Hoff1 in H).
  assert (book w1 = book w) as Hb1 by (rewrite Hw1; apply book_departed).
  destruct (Login_moves E w1 p name dungeon raid) as (t & sub & Hplace & _ & Hin); [by rewrite Hw1|done|].
  apply leads_run in Hin as ([] & w2 & Hrun2 & _ & Hw2). exists w1, w2.
  split_and!; [done..|by rewrite Hw2, book_arrived|].
  pose proof (equiv_player w2 _ Hw2 p) as Hp.
  assert (online (arrived p (set_ref t sub (new_player name dungeon raid)) t w1) !! p =
    Some (set_ref t sub (new_player name dungeon raid))) as Har by (unfold arrived; destruct t; apply lookup_insert_eq).
  rewrite Har in Hp. destruct Hp as (pl' & Hpl' & He). exists pl'. split; [done|]. rewrite He.
  by apply (kept_place_departed w w1 p pl a).
Qed.

Definition demo_leader : Player := default (new_player [] 0 0) (online demo !! 1).

Lemma demo_leader_at : online demo !! 1 = Some demo_leader ∧ GetGroup demo_leader = Some 0.
Proof. split; by vm_compute. Qed.

Lemma relog_keeps_place_witness : ∃ w1 w2, LogoutPlayer demo_env 1 true demo = (Ret tt, w1) ∧
  Login demo_env 1 [97] 0 0 w1 = (Ret tt, w2) ∧ book w2 = book demo.
Proof.
  destruct demo_leader_at as [Hpl Ht]. destruct demo_raid as [Hr _].
  destruct (relog_keeps_place demo_env demo 1 demo_leader 0 demo_group true [97] 0 0 demo_ok Hpl Ht demo_group_at (or_introl Hr))
    as (w1 & w2 & H1 & _ & _ & H2 & H3 & _). exists w1, w2. split; [exact H1|split; [exact H2|exact H3]].
Defined.

Definition tick (c : Z) : Z := uwrap 32 (c + 1).
Definition at_counter (c : Z) (g : Group) : Group := with_settings (with_counter c (settings g)) g.

(** One list for every member who is in the server, each with the next counter. *)
Definition list_packets (g : Group) (on : gmap Z Player) (l : list MemberSlot) : list geffect :=
  imap (λ i s, SendPacket (slot_guid s) SMSG_GROUP_LIST (member_list (at_counter (Nat.iter i tick (m_counter (settings g))) g) on s))
    (filter (λ s, is_Some (on !! slot_guid s)) l).

Lemma SendUpdate_loop a l : ∀ w g, groups w !! a = Some g →
  (∀ s pl, s ∈ l → online w !! slot_guid s = Some pl → GetGroup pl = Some a) →
  each (λ s, SendUpdateToPlayer a (slot_guid s) (Some s)) l w =
  (Ret tt, with_gsent (gsent w ++ list_packets g (online w) l)
    (g_upd a (at_counter (Nat.iter (length (filter (λ s, is_Some (online w !! slot_guid s)) l)) tick (m_counter (settings g)))) w)).
Proof.
  induction l as [|s l IH]; intros w g Ha Hl.
  - unfold list_packets. rewrite filter_nil. simpl. rewrite app_nil_r. unfold mret, prog_ret. f_equal.
    destruct w as [gs ? ? ? ? ? ? ? ?]. unfold g_upd, with_groups, with_gsent. simpl in *. f_equal.
    symmetry. apply alter_id. intros h Hh. assert (h = g) as -> by congruence. destruct g as [????????? ? []]. done.
  - cbn [each]. destruct (online w !! slot_guid s) as [pl|] eqn:Hon.
    + set (w1 := with_gsent (gsent w ++ [SendPacket (slot_guid s) SMSG_GROUP_LIST (member_list g (online w) s)])
        (g_upd a (λ g, with_settings (with_counter (tick (m_counter (settings g))) (settings g)) g) w)).
      erewrite (bind_ret_run _ _ w tt w1).
      2: { unfold SendUpdateToPlayer, FindPlayer. erewrite bind_ret_run by done. rewrite Hon, (bool_decide_eq_true_2 _ (Hl s pl (list_elem_of_here s l) Hon)).
           erewrite bind_ret_run by by apply deref_group_run. by erewrite bind_ret_run by done. }
      assert (groups w1 !! a = Some (at_counter (tick (m_counter (settings g))) g)) as Ha1
        by exact (g_upd_lookup a (λ g, with_settings (with_counter (tick (m_counter (settings g))) (settings g)) g) w g Ha).
      rewrite (IH w1 _ Ha1) by (intros s' pl' Hs'; apply Hl; by right). f_equal.
      rewrite filter_cons_True by by eexists. unfold list_packets. rewrite filter_cons_True by by eexists.
      change (online w1) with (online w). rewrite imap_cons. cbn [length]. rewrite Nat.iter_succ_r.
      unfold with_gsent, g_upd, w1. cbn [gsent groups online GroupStore GroupDbStore NextGroupDbStoreId NextGroupId group_member
        roll_world with_groups with_gsent]. f_equal.
      * unfold g_upd. cbn [groups with_groups]. rewrite alter_alter_eq. apply alter_ext. intros h Hh. assert (h = g) as -> by congruence. done.
      * rewrite <- app_assoc. f_equal. cbn [app]. f_equal. apply imap_ext. intros i s' _. unfold compose. by rewrite Nat.iter_succ_r.
    + erewrite (bind_ret_run _ _ w tt w)
        by (unfold SendUpdateToPlayer, FindPlayer; erewrite bind_ret_run by done; by rewrite Hon).
      rewrite (IH w g Ha) by (intros s' pl' Hs'; apply Hl; by right).
      unfold list_packets. rewrite filter_cons_False by (intros [??]; congruence). done.
Qed.

(** C35. [SendUpdate] sends to each member who is in the server, in the order of the slots,
    one SMSG_GROUP_LIST that shows his own slot, all other members with who is online, and a
    counter one higher than in the packet before; besides the counter nothing changes. *)
Theorem SendUpdate_lists w a g : world_ok ∅ w → groups w !! a = Some g →
  SendUpdate a w = (Ret tt, with_gsent (gsent w ++ list_packets g (online w) (m_memberSlots g))
    (g_upd a (at_counter (Nat.iter (length (filter (λ s, is_Some (online w !! slot_guid s)) (m_memberSlots g))) tick
      (m_counter (settings g)))) w)).
Proof.
  intros Hw Ha. unfold SendUpdate. erewrite bind_ret_run by by apply deref_group_run.
  apply SendUpdate_loop; [done|]. intros s pl Hs Hpl.
  apply (consistent_members w (slot_guid s) pl a Hw Hpl). exists g. split; [done|by apply elem_of_guids].
Qed.

Lemma SendUpdate_lists_witness : ∃ w', SendUpdate 0 demo = (Ret tt, w') ∧
  gsent w' = gsent demo ++ list_packets demo_group (online demo) (m_memberSlots demo_group).
Proof. eexists. split; [exact (SendUpdate_lists demo 0 demo_group demo_ok demo_group_at)|reflexivity]. Defined.

(** ** Invitations the code does not guard against *)

Section SelfInvite.
Context (E : GEnv) (w : World) (Hw : world_ok ∅ w) (me : Z) (pl : Player) (Hpl : online w !! me = Some pl).
Context (Ht : GetGroup pl = None) (Hi : m_groupInvite pl = None).

Lemma invite_into_self : leads w (invite_into me me None) (λ ok w1, ok = false ∧
  ∃ pl1 a, online w1 !! me = Some pl1 ∧ m_groupInvite pl1 = Some a ∧ groups w1 !! a = None).
Proof.
  unfold invite_into. apply leads_gets. intros w0 Hw0. rewrite (equiv_dom w0 w Hw0). set (a := fresh (dom (groups w))).
  apply (leads_modify _ (λ w, with_groups (<[a := new_Group]> (groups w)) w)); [apply _|]. fold (opened a w).
  assert (groups w !! a = None) as Hfresh by (apply not_elem_of_dom, is_fresh).
  pose proof (ok_opened ∅ w a Hw Hfresh) as Hok1. set (W1 := opened a w) in *.
  assert (groups W1 !! a = Some new_Group) as Ha1 by apply lookup_insert_eq.
  set (W2 := g_upd a (with_leaderGuid me) (invited a me W1)).
  assert (online W2 !! me = Some (with_groupInvite (Some a) pl)) as Hpl2
    by exact (p_upd_lookup me (with_groupInvite (Some a)) (g_upd a _ W1) pl Hpl).
  eapply (leads_moves _ W2 _ true); [by eapply moves_AddLeaderInvite; [..|by eapply icons_of]|]. cbn [negb].
  eapply (leads_moves _ W2 _ false).
  { unfold AddInvite. eapply leads_player; [exact Hpl2|]. intros pl' He. rewrite (groupInvite_proper _ _ He). by apply moves_ret. }
  cbn [negb]. eapply leads_moves.
  { eapply moves_delete_group; [apply g_upd_lookup, g_upd_lookup; exact Ha1|done|done]. }
  apply leads_ret. intros w3 Hw3. split; [done|].
  pose proof (equiv_player w3 _ Hw3 me) as Hp. change (online (with_groups _ W2)) with (online W2) in Hp. rewrite Hpl2 in Hp.
  destruct Hp as (pl1 & Hpl1 & He). exists pl1, a. split; [done|]. split; [by rewrite He|].
  destruct (groups w3 !! a) as [g|] eqn:Hg; [|done]. exfalso.
  destruct (equiv_group _ w3 (symmetry Hw3) a g Hg) as (g' & Hg' & _). simpl in Hg'. by rewrite lookup_delete_eq in Hg'.
Qed.

End SelfInvite.

(** C36. A player without group or invitation who invites himself leads the server to the use
    of a deleted group: the new group is deleted when it refuses the second invitation, but
    the player keeps the pointer, and his accepting follows it. *)
Theorem self_invite_use_after_free E w me pl name recv rest recv2 rest2 : world_ok ∅ w → online w !! me = Some pl →
  GetGroup pl = None → m_groupInvite pl = None →
  (name ← get_string; read_skip_T 4;; mret name) recv = (Ret name, rest) → normalizePlayerName E name = Some (p_name pl) →
  FindPlayerByName (p_name pl) w = (Ret (Some me), w) → invite_refused E me me pl pl = None →
  read_skip_T 4 recv2 = (Ret tt, rest2) →
  ∃ w1, HandleGroupInviteOpcode E me recv w = (Ret tt, w1) ∧ (HandleGroupAcceptOpcode E me recv2 w1).1 = Throw Undefined.
Proof.
  intros Hw Hpl Ht Hi Hr Hn Hf Href Hr2.
  assert (∃ w1, HandleGroupInviteOpcode E me recv w = (Ret tt, w1) ∧
    ∃ pl1 a, online w1 !! me = Some pl1 ∧ m_groupInvite pl1 = Some a ∧ groups w1 !! a = None) as (w1 & Hrun & pl1 & a & Hpl1 & Hi1 & Ha).
  { unfold HandleGroupInviteOpcode, gparse. rewrite Hr, Hn. erewrite bind_ret_run by exact Hf.
    cbv beta iota. do 2 erewrite bind_ret_run by by apply player_at_run. rewrite Href. cbv beta iota.
    assert (party_of pl w = (Ret None, w)) as Hparty by (unfold party_of; by rewrite Ht).
    do 2 erewrite bind_ret_run by exact Hparty. rewrite Hi, !bool_decide_eq_false_2 by (by intros [? ?]). cbn [orb].
    erewrite bind_ret_run by done. cbv beta iota.
    destruct (leads_run _ _ _ (invite_into_self w Hw me pl Hpl Ht Hi)) as (ok & w1 & Hinv & -> & H).
    exists w1. split; [by erewrite bind_ret_run by exact Hinv|exact H]. }
  exists w1. split; [done|]. unfold HandleGroupAcceptOpcode, gparse. rewrite Hr2.
  erewrite bind_ret_run by by apply player_at_run. rewrite Hi1. unfold RemoveInvite, deref.
  cbv [mbind prog_bind gets]. by rewrite Ha.
Qed.

Definition invite_packet (p : Z) : ByteBuffer := pack (put_string (demo_name p);; put_u32 0).

Lemma self_invite_facts :
  ((name ← get_string; read_skip_T 4;; mret name) (invite_packet 4) =
     (Ret (demo_name 4), ((name ← get_string; read_skip_T 4;; mret name) (invite_packet 4)).2)) ∧
  demo_name 4 = p_name demo_player ∧ FindPlayerByName (demo_name 4) demo = (Ret (Some 4), demo) ∧
  invite_refused demo_env 4 4 demo_player demo_player = None ∧
  read_skip_T 4 (pack (put_u32 0)) = (Ret tt, (read_skip_T 4 (pack (put_u32 0))).2).
Proof. split_and!; by vm_compute. Qed.

Lemma self_invite_use_after_free_witness : ∃ w1, HandleGroupInviteOpcode demo_env 4 (invite_packet 4) demo = (Ret tt, w1) ∧
  (HandleGroupAcceptOpcode demo_env 4 (pack (put_u32 0)) w1).1 = Throw Undefined.
Proof.
  destruct demo_raid as (_ & _ & Ht & Hi). destruct self_invite_facts as (H1 & H2 & H3 & H4 & H5). rewrite H2 in H3.
  exact (self_invite_use_after_free demo_env demo 4 demo_player (demo_name 4) (invite_packet 4) _ (pack (put_u32 0)) _
    demo_ok demo_player_at Ht Hi H1 (f_equal Some H2) H3 H4 H5).
Defined.
