(* ===== verification/ItemData.v ===== *)
(** * ItemData: items, bags and the players who carry them

    src/src/server/game/Entities/Item/Item.h, ItemPrototype.h, Container/Bag.h, and the
    inventory and trade fields of src/src/server/game/Entities/Player/Player.h. Items are
    heap objects; a player has an array of pointers to them, and so has a bag. *)

From Stdlib Require Import ZArith Lia.
From S2P Require Import Prelude ByteBuffer Guid.
Local Open Scope Z_scope.

(** ** Constants *)

Definition NULL_BAG : Z := 0.
Definition NULL_SLOT : Z := 255.
Definition INVENTORY_SLOT_BAG_0 : Z := 255.
Definition EQUIPMENT_SLOT_START : Z := 0.
Definition EQUIPMENT_SLOT_MAINHAND : Z := 15.
Definition EQUIPMENT_SLOT_OFFHAND : Z := 16.
Definition EQUIPMENT_SLOT_RANGED : Z := 17.
Definition EQUIPMENT_SLOT_END : Z := 19.
Definition INVENTORY_SLOT_BAG_START : Z := 19.
Definition INVENTORY_SLOT_BAG_END : Z := 23.
Definition INVENTORY_SLOT_ITEM_START : Z := 23.
Definition INVENTORY_SLOT_ITEM_END : Z := 39.
Definition BANK_SLOT_ITEM_START : Z := 39.
Definition BANK_SLOT_ITEM_END : Z := 67.
Definition BANK_SLOT_BAG_START : Z := 67.
Definition BANK_SLOT_BAG_END : Z := 74.
Definition BUYBACK_SLOT_START : Z := 74.
Definition BUYBACK_SLOT_END : Z := 86.
Definition KEYRING_SLOT_START : Z := 86.
Definition KEYRING_SLOT_END : Z := 118.
Definition CURRENCYTOKEN_SLOT_START : Z := 118.
Definition CURRENCYTOKEN_SLOT_END : Z := 150.
Definition PLAYER_SLOT_END : Z := 150.
Definition MAX_BAG_SIZE : Z := 36.
Definition MAX_MONEY_AMOUNT : Z := 0x7FFFFFFE.

Definition TRADE_SLOT_COUNT : Z := 7.
Definition TRADE_SLOT_TRADED_COUNT : Z := 6.
Definition TRADE_SLOT_NONTRADED : Z := 6.
Definition TRADE_SLOT_INVALID : Z := (-1).

Definition BAG_FAMILY_MASK_ARROWS : Z := 0x0001.
Definition BAG_FAMILY_MASK_BULLETS : Z := 0x0002.
Definition BAG_FAMILY_MASK_SOUL_SHARDS : Z := 0x0004.
Definition BAG_FAMILY_MASK_LEATHERWORKING_SUPP : Z := 0x0008.
Definition BAG_FAMILY_MASK_INSCRIPTION_SUPP : Z := 0x0010.
Definition BAG_FAMILY_MASK_HERBS : Z := 0x0020.
Definition BAG_FAMILY_MASK_ENCHANTING_SUPP : Z := 0x0040.
Definition BAG_FAMILY_MASK_ENGINEERING_SUPP : Z := 0x0080.
Definition BAG_FAMILY_MASK_KEYS : Z := 0x0100.
Definition BAG_FAMILY_MASK_GEMS : Z := 0x0200.
Definition BAG_FAMILY_MASK_MINING_SUPP : Z := 0x0400.
Definition BAG_FAMILY_MASK_CURRENCY_TOKENS : Z := 0x2000.

Definition INVTYPE_SHIELD : Z := 14.
Definition INVTYPE_BAG : Z := 18.
Definition INVTYPE_HOLDABLE : Z := 23.
Definition INVTYPE_RELIC : Z := 28.
Definition ITEM_CLASS_CONTAINER : Z := 1.
Definition ITEM_CLASS_WEAPON : Z := 2.
Definition ITEM_CLASS_PROJECTILE : Z := 6.
Definition ITEM_CLASS_QUIVER : Z := 11.
Definition ITEM_SUBCLASS_CONTAINER : Z := 0.
Definition ITEM_SUBCLASS_SOUL_CONTAINER : Z := 1.
Definition ITEM_SUBCLASS_HERB_CONTAINER : Z := 2.
Definition ITEM_SUBCLASS_ENCHANTING_CONTAINER : Z := 3.
Definition ITEM_SUBCLASS_ENGINEERING_CONTAINER : Z := 4.
Definition ITEM_SUBCLASS_GEM_CONTAINER : Z := 5.
Definition ITEM_SUBCLASS_MINING_CONTAINER : Z := 6.
Definition ITEM_SUBCLASS_LEATHERWORKING_CONTAINER : Z := 7.
Definition ITEM_SUBCLASS_INSCRIPTION_CONTAINER : Z := 8.
Definition ITEM_SUBCLASS_QUIVER : Z := 2.
Definition ITEM_SUBCLASS_AMMO_POUCH : Z := 3.
Definition BIND_WHEN_PICKED_UP : Z := 1.
Definition BIND_WHEN_EQUIPED : Z := 2.
Definition BIND_QUEST_ITEM : Z := 4.
Definition ITEM_PROTO_FLAG_BIND_TO_ACCOUNT : Z := 0x08000000.
Definition ITEM_FLAG_SOULBOUND : Z := 0x0001.
Definition ITEM_FLAG_WRAPPED : Z := 0x0008.
Definition ITEM_FLAG_BOP_TRADEABLE : Z := 0x0100.
Definition ITEM_FLAG_REFUNDABLE : Z := 0x1000.
Definition ITEM_LIMIT_CATEGORY_MODE_HAVE : Z := 0.
Definition ENCHANTMENT_CAN_SOULBOUND : Z := 0x01.

Definition PERM_ENCHANTMENT_SLOT : Z := 0.
Definition SOCK_ENCHANTMENT_SLOT : Z := 2.
Definition MAX_GEM_SOCKETS : Z := 3.
Definition PROP_ENCHANTMENT_SLOT_0 : Z := 7.
Definition PROP_ENCHANTMENT_SLOT_1 : Z := 8.
Definition PROP_ENCHANTMENT_SLOT_2 : Z := 9.
Definition PROP_ENCHANTMENT_SLOT_3 : Z := 10.
Definition PROP_ENCHANTMENT_SLOT_4 : Z := 11.
Definition MAX_ENCHANTMENT_SLOT : Z := 12.

Definition EQUIP_ERR_OK : Z := 0.
Definition EQUIP_ERR_NONEMPTY_BAG_OVER_OTHER_BAG : Z := 5.
Definition EQUIP_ERR_ITEM_DOESNT_GO_INTO_BAG : Z := 15.
Definition EQUIP_ERR_CANT_CARRY_MORE_OF_THIS : Z := 17.
Definition EQUIP_ERR_ITEM_CANT_STACK : Z := 19.
Definition EQUIP_ERR_ITEM_CANT_BE_EQUIPPED : Z := 20.
Definition EQUIP_ERR_ITEMS_CANT_BE_SWAPPED : Z := 21.
Definition EQUIP_ERR_ITEM_NOT_FOUND : Z := 23.
Definition EQUIP_ERR_CAN_ONLY_DO_WITH_EMPTY_BAGS : Z := 31.
Definition EQUIP_ERR_DONT_OWN_THAT_ITEM : Z := 32.
Definition EQUIP_ERR_ALREADY_LOOTED : Z := 49.
Definition EQUIP_ERR_INVENTORY_FULL : Z := 50.
Definition EQUIP_ERR_NOT_IN_COMBAT : Z := 60.
Definition EQUIP_ERR_TOO_MUCH_GOLD : Z := 77.
Definition EQUIP_ERR_NOT_DURING_ARENA_MATCH : Z := 78.
Definition EQUIP_ERR_ITEM_MAX_LIMIT_CATEGORY_COUNT_EXCEEDED : Z := 84.

(** ** Data *)

Inductive ItemUpdateState := ITEM_UNCHANGED | ITEM_CHANGED | ITEM_NEW | ITEM_REMOVED.

#[export] Instance ItemUpdateState_eq_dec : EqDecision ItemUpdateState.
Proof. solve_decision. Defined.

Record ItemTemplate := mkTemplate {
  ItemId : Z;
  Class_ : Z;
  SubClass : Z;
  DisplayInfoID : Z;
  Flags : Z;
  InventoryType : Z;
  MaxCount : Z;
  Stackable : Z;
  ContainerSlots : Z;
  Bonding : Z;
  LockID : Z;
  ItemSet : Z;
  BagFamily : Z;
  SocketColor : Z;
  GemProperties : Z;
  TemplateDurability : Z;
  TemplateDuration : Z;
  TemplateCharges : list Z;
  ItemLimitCategory : Z
}.

Definition CanChangeEquipStateInCombat (t : ItemTemplate) : bool :=
  (InventoryType t =? INVTYPE_RELIC) || (InventoryType t =? INVTYPE_SHIELD) || (InventoryType t =? INVTYPE_HOLDABLE) ||
  (Class_ t =? ITEM_CLASS_WEAPON) || (Class_ t =? ITEM_CLASS_PROJECTILE).

Definition GetMaxStackSize (t : ItemTemplate) : Z :=
  if (Stackable t =? 2147483647) || (Stackable t <=? 0) then 0x7FFFFFFE else Stackable t.

(** An item; the last three fields are those of a [Bag]. An enchantment is its id, its
    duration and its charges. *)
Record Item := mkItem {
  i_guid : Z;
  Entry : Z;
  Owner : Z;
  Contained : Z;
  Creator : Z;
  GiftCreator : Z;
  Count : Z;
  Duration : Z;
  IFlags : Z;
  CreatePlayedTime : Z;
  RandomProperty : Z;
  SuffixFactor : Z;
  MaxDurability : Z;
  Durability : Z;
  SpellCharges : list Z;
  Enchantments : list (Z * Z * Z);
  m_lootGenerated : bool;
  m_slot : Z;
  m_container : option Z;
  uState : ItemUpdateState;
  mb_in_trade : bool;
  m_refundRecipient : Z;
  m_paidMoney : Z;
  m_paidExtendedCost : Z;
  allowedGUIDs : list Z;
  NumSlots : Z;
  SlotGuids : list Z;
  m_bagslot : list (option Z)
}.

(** A player: what he carries, his gold, and his side of a trade. *)
Record Player := mkPlayer {
  m_items : list (option Z);
  InvSlotGuids : list Z;
  Coinage : Z;
  p_inWorld : bool;
  m_itemSoulboundTradeable : list Z;
  m_refundableItems : gset Z;
  m_lootGuid : Z;
  m_trade : option Z
}.

(** One side of a trade. [t_items] are the guids of [m_items]. *)
Record TradeData := mkTrade {
  m_player : Z;
  m_trader : Z;
  m_accepted : bool;
  m_acceptProccess : bool;
  m_money : Z;
  m_spell : Z;
  m_spellCastItem : Z;
  t_items : list Z
}.

(** Calls that leave the model: packets, the item update queue of the database, timers,
    quests, auras and spells. *)
Inductive effect :=
| SendPacket (p opcode : Z) (data : ByteBuffer)
| SendNotification (p text : Z)
| QuestCheck (p : Z) (added : bool) (entry count : Z)
| AchievementEpicItem (p entry count : Z)
| RemoveEnchantmentDurations (p a : Z)
| RemoveItemDurations (p a : Z)
| AddEnchantmentDurations (p a : Z)
| AddItemDurations (p a : Z)
| RemoveItemsSetItem (p entry : Z)
| ApplyItemMods (p a slot : Z) (apply : bool)
| RemoveItemDependentAurasAndCasts (p a : Z)
| UpdateExpertise (p attack : Z)
| RecalculateArmorPenetration (p : Z)
| SetVisibleItemSlot (p slot : Z) (a : option Z)
| AddKnownCurrency (p entry : Z)
| SendUpdateToPlayer (a p : Z)
| AddToWorld (a : Z)
| LeaveWorld (a p : Z)
| AddToUpdateQueueOf (a : Z) (p : option Z)
| RemoveFromUpdateQueueOf (a p : Z)
| OnPlayerMoneyChanged (p amount : Z)
| MoneyChanged (p amount : Z)
| DeleteBopTrade (guid : Z)
| LogTrade (from entry count to : Z)
| SpellPrepare (p spell : Z) (castItem : option Z)
| SendCastResult (p spell res : Z)
| SaveInventoryAndGold (p : Z)
| StopNow
| BeginTransaction
| CommitTransaction.

Record World := mkWorld {
  items : gmap Z Item;
  players : gmap Z Player;
  trades : gmap Z TradeData;
  m_hiItemGuid : Z;
  sent : list effect
}.

Abbreviation iw := (prog World fault).

(** ** Field updates *)

Definition with_Owner (v : Z) (x : Item) : Item :=
  mkItem (i_guid x) (Entry x) v (Contained x) (Creator x) (GiftCreator x) (Count x) (Duration
    x) (IFlags x) (CreatePlayedTime x) (RandomProperty x) (SuffixFactor x) (MaxDurability x)
    (Durability x) (SpellCharges x) (Enchantments x) (m_lootGenerated x) (m_slot x)
    (m_container x) (uState x) (mb_in_trade x) (m_refundRecipient x) (m_paidMoney x)
    (m_paidExtendedCost x) (allowedGUIDs x) (NumSlots x) (SlotGuids x) (m_bagslot x).
Definition with_Contained (v : Z) (x : Item) : Item :=
  mkItem (i_guid x) (Entry x) (Owner x) v (Creator x) (GiftCreator x) (Count x) (Duration x)
    (IFlags x) (CreatePlayedTime x) (RandomProperty x) (SuffixFactor x) (MaxDurability x)
    (Durability x) (SpellCharges x) (Enchantments x) (m_lootGenerated x) (m_slot x)
    (m_container x) (uState x) (mb_in_trade x) (m_refundRecipient x) (m_paidMoney x)
    (m_paidExtendedCost x) (allowedGUIDs x) (NumSlots x) (SlotGuids x) (m_bagslot x).
Definition with_Creator (v : Z) (x : Item) : Item :=
  mkItem (i_guid x) (Entry x) (Owner x) (Contained x) v (GiftCreator x) (Count x) (Duration x)
    (IFlags x) (CreatePlayedTime x) (RandomProperty x) (SuffixFactor x) (MaxDurability x)
    (Durability x) (SpellCharges x) (Enchantments x) (m_lootGenerated x) (m_slot x)
    (m_container x) (uState x) (mb_in_trade x) (m_refundRecipient x) (m_paidMoney x)
    (m_paidExtendedCost x) (allowedGUIDs x) (NumSlots x) (SlotGuids x) (m_bagslot x).
Definition with_GiftCreator (v : Z) (x : Item) : Item :=
  mkItem (i_guid x) (Entry x) (Owner x) (Contained x) (Creator x) v (Count x) (Duration x)
    (IFlags x) (CreatePlayedTime x) (RandomProperty x) (SuffixFactor x) (MaxDurability x)
    (Durability x) (SpellCharges x) (Enchantments x) (m_lootGenerated x) (m_slot x)
    (m_container x) (uState x) (mb_in_trade x) (m_refundRecipient x) (m_paidMoney x)
    (m_paidExtendedCost x) (allowedGUIDs x) (NumSlots x) (SlotGuids x) (m_bagslot x).
Definition with_Count (v : Z) (x : Item) : Item :=
  mkItem (i_guid x) (Entry x) (Owner x) (Contained x) (Creator x) (GiftCreator x) v (Duration
    x) (IFlags x) (CreatePlayedTime x) (RandomProperty x) (SuffixFactor x) (MaxDurability x)
    (Durability x) (SpellCharges x) (Enchantments x) (m_lootGenerated x) (m_slot x)
    (m_container x) (uState x) (mb_in_trade x) (m_refundRecipient x) (m_paidMoney x)
    (m_paidExtendedCost x) (allowedGUIDs x) (NumSlots x) (SlotGuids x) (m_bagslot x).
Definition with_Duration (v : Z) (x : Item) : Item :=
  mkItem (i_guid x) (Entry x) (Owner x) (Contained x) (Creator x) (GiftCreator x) (Count x) v
    (IFlags x) (CreatePlayedTime x) (RandomProperty x) (SuffixFactor x) (MaxDurability x)
    (Durability x) (SpellCharges x) (Enchantments x) (m_lootGenerated x) (m_slot x)
    (m_container x) (uState x) (mb_in_trade x) (m_refundRecipient x) (m_paidMoney x)
    (m_paidExtendedCost x) (allowedGUIDs x) (NumSlots x) (SlotGuids x) (m_bagslot x).
Definition with_IFlags (v : Z) (x : Item) : Item :=
  mkItem (i_guid x) (Entry x) (Owner x) (Contained x) (Creator x) (GiftCreator x) (Count x)
    (Duration x) v (CreatePlayedTime x) (RandomProperty x) (SuffixFactor x) (MaxDurability x)
    (Durability x) (SpellCharges x) (Enchantments x) (m_lootGenerated x) (m_slot x)
    (m_container x) (uState x) (mb_in_trade x) (m_refundRecipient x) (m_paidMoney x)
    (m_paidExtendedCost x) (allowedGUIDs x) (NumSlots x) (SlotGuids x) (m_bagslot x).
Definition with_CreatePlayedTime (v : Z) (x : Item) : Item :=
  mkItem (i_guid x) (Entry x) (Owner x) (Contained x) (Creator x) (GiftCreator x) (Count x)
    (Duration x) (IFlags x) v (RandomProperty x) (SuffixFactor x) (MaxDurability x)
    (Durability x) (SpellCharges x) (Enchantments x) (m_lootGenerated x) (m_slot x)
    (m_container x) (uState x) (mb_in_trade x) (m_refundRecipient x) (m_paidMoney x)
    (m_paidExtendedCost x) (allowedGUIDs x) (NumSlots x) (SlotGuids x) (m_bagslot x).
Definition with_RandomProperty (v : Z) (x : Item) : Item :=
  mkItem (i_guid x) (Entry x) (Owner x) (Contained x) (Creator x) (GiftCreator x) (Count x)
    (Duration x) (IFlags x) (CreatePlayedTime x) v (SuffixFactor x) (MaxDurability x)
    (Durability x) (SpellCharges x) (Enchantments x) (m_lootGenerated x) (m_slot x)
    (m_container x) (uState x) (mb_in_trade x) (m_refundRecipient x) (m_paidMoney x)
    (m_paidExtendedCost x) (allowedGUIDs x) (NumSlots x) (SlotGuids x) (m_bagslot x).
Definition with_SuffixFactor (v : Z) (x : Item) : Item :=
  mkItem (i_guid x) (Entry x) (Owner x) (Contained x) (Creator x) (GiftCreator x) (Count x)
    (Duration x) (IFlags x) (CreatePlayedTime x) (RandomProperty x) v (MaxDurability x)
    (Durability x) (SpellCharges x) (Enchantments x) (m_lootGenerated x) (m_slot x)
    (m_container x) (uState x) (mb_in_trade x) (m_refundRecipient x) (m_paidMoney x)
    (m_paidExtendedCost x) (allowedGUIDs x) (NumSlots x) (SlotGuids x) (m_bagslot x).
Definition with_Enchantments (v : list (Z * Z * Z)) (x : Item) : Item :=
  mkItem (i_guid x) (Entry x) (Owner x) (Contained x) (Creator x) (GiftCreator x) (Count x)
    (Duration x) (IFlags x) (CreatePlayedTime x) (RandomProperty x) (SuffixFactor x)
    (MaxDurability x) (Durability x) (SpellCharges x) v (m_lootGenerated x) (m_slot x)
    (m_container x) (uState x) (mb_in_trade x) (m_refundRecipient x) (m_paidMoney x)
    (m_paidExtendedCost x) (allowedGUIDs x) (NumSlots x) (SlotGuids x) (m_bagslot x).
Definition with_m_slot (v : Z) (x : Item) : Item :=
  mkItem (i_guid x) (Entry x) (Owner x) (Contained x) (Creator x) (GiftCreator x) (Count x)
    (Duration x) (IFlags x) (CreatePlayedTime x) (RandomProperty x) (SuffixFactor x)
    (MaxDurability x) (Durability x) (SpellCharges x) (Enchantments x) (m_lootGenerated x) v
    (m_container x) (uState x) (mb_in_trade x) (m_refundRecipient x) (m_paidMoney x)
    (m_paidExtendedCost x) (allowedGUIDs x) (NumSlots x) (SlotGuids x) (m_bagslot x).
Definition with_m_container (v : option Z) (x : Item) : Item :=
  mkItem (i_guid x) (Entry x) (Owner x) (Contained x) (Creator x) (GiftCreator x) (Count x)
    (Duration x) (IFlags x) (CreatePlayedTime x) (RandomProperty x) (SuffixFactor x)
    (MaxDurability x) (Durability x) (SpellCharges x) (Enchantments x) (m_lootGenerated x)
    (m_slot x) v (uState x) (mb_in_trade x) (m_refundRecipient x) (m_paidMoney x)
    (m_paidExtendedCost x) (allowedGUIDs x) (NumSlots x) (SlotGuids x) (m_bagslot x).
Definition with_uState (v : ItemUpdateState) (x : Item) : Item :=
  mkItem (i_guid x) (Entry x) (Owner x) (Contained x) (Creator x) (GiftCreator x) (Count x)
    (Duration x) (IFlags x) (CreatePlayedTime x) (RandomProperty x) (SuffixFactor x)
    (MaxDurability x) (Durability x) (SpellCharges x) (Enchantments x) (m_lootGenerated x)
    (m_slot x) (m_container x) v (mb_in_trade x) (m_refundRecipient x) (m_paidMoney x)
    (m_paidExtendedCost x) (allowedGUIDs x) (NumSlots x) (SlotGuids x) (m_bagslot x).
Definition with_mb_in_trade (v : bool) (x : Item) : Item :=
  mkItem (i_guid x) (Entry x) (Owner x) (Contained x) (Creator x) (GiftCreator x) (Count x)
    (Duration x) (IFlags x) (CreatePlayedTime x) (RandomProperty x) (SuffixFactor x)
    (MaxDurability x) (Durability x) (SpellCharges x) (Enchantments x) (m_lootGenerated x)
    (m_slot x) (m_container x) (uState x) v (m_refundRecipient x) (m_paidMoney x)
    (m_paidExtendedCost x) (allowedGUIDs x) (NumSlots x) (SlotGuids x) (m_bagslot x).
Definition with_m_refundRecipient (v : Z) (x : Item) : Item :=
  mkItem (i_guid x) (Entry x) (Owner x) (Contained x) (Creator x) (GiftCreator x) (Count x)
    (Duration x) (IFlags x) (CreatePlayedTime x) (RandomProperty x) (SuffixFactor x)
    (MaxDurability x) (Durability x) (SpellCharges x) (Enchantments x) (m_lootGenerated x)
    (m_slot x) (m_container x) (uState x) (mb_in_trade x) v (m_paidMoney x)
    (m_paidExtendedCost x) (allowedGUIDs x) (NumSlots x) (SlotGuids x) (m_bagslot x).
Definition with_m_paidMoney (v : Z) (x : Item) : Item :=
  mkItem (i_guid x) (Entry x) (Owner x) (Contained x) (Creator x) (GiftCreator x) (Count x)
    (Duration x) (IFlags x) (CreatePlayedTime x) (RandomProperty x) (SuffixFactor x)
    (MaxDurability x) (Durability x) (SpellCharges x) (Enchantments x) (m_lootGenerated x)
    (m_slot x) (m_container x) (uState x) (mb_in_trade x) (m_refundRecipient x) v
    (m_paidExtendedCost x) (allowedGUIDs x) (NumSlots x) (SlotGuids x) (m_bagslot x).
Definition with_m_paidExtendedCost (v : Z) (x : Item) : Item :=
  mkItem (i_guid x) (Entry x) (Owner x) (Contained x) (Creator x) (GiftCreator x) (Count x)
    (Duration x) (IFlags x) (CreatePlayedTime x) (RandomProperty x) (SuffixFactor x)
    (MaxDurability x) (Durability x) (SpellCharges x) (Enchantments x) (m_lootGenerated x)
    (m_slot x) (m_container x) (uState x) (mb_in_trade x) (m_refundRecipient x) (m_paidMoney
    x) v (allowedGUIDs x) (NumSlots x) (SlotGuids x) (m_bagslot x).
Definition with_allowedGUIDs (v : list Z) (x : Item) : Item :=
  mkItem (i_guid x) (Entry x) (Owner x) (Contained x) (Creator x) (GiftCreator x) (Count x)
    (Duration x) (IFlags x) (CreatePlayedTime x) (RandomProperty x) (SuffixFactor x)
    (MaxDurability x) (Durability x) (SpellCharges x) (Enchantments x) (m_lootGenerated x)
    (m_slot x) (m_container x) (uState x) (mb_in_trade x) (m_refundRecipient x) (m_paidMoney
    x) (m_paidExtendedCost x) v (NumSlots x) (SlotGuids x) (m_bagslot x).
Definition with_SlotGuids (v : list Z) (x : Item) : Item :=
  mkItem (i_guid x) (Entry x) (Owner x) (Contained x) (Creator x) (GiftCreator x) (Count x)
    (Duration x) (IFlags x) (CreatePlayedTime x) (RandomProperty x) (SuffixFactor x)
    (MaxDurability x) (Durability x) (SpellCharges x) (Enchantments x) (m_lootGenerated x)
    (m_slot x) (m_container x) (uState x) (mb_in_trade x) (m_refundRecipient x) (m_paidMoney
    x) (m_paidExtendedCost x) (allowedGUIDs x) (NumSlots x) v (m_bagslot x).
Definition with_m_bagslot (v : list (option Z)) (x : Item) : Item :=
  mkItem (i_guid x) (Entry x) (Owner x) (Contained x) (Creator x) (GiftCreator x) (Count x)
    (Duration x) (IFlags x) (CreatePlayedTime x) (RandomProperty x) (SuffixFactor x)
    (MaxDurability x) (Durability x) (SpellCharges x) (Enchantments x) (m_lootGenerated x)
    (m_slot x) (m_container x) (uState x) (mb_in_trade x) (m_refundRecipient x) (m_paidMoney
    x) (m_paidExtendedCost x) (allowedGUIDs x) (NumSlots x) (SlotGuids x) v.

Definition with_m_items (v : list (option Z)) (x : Player) : Player :=
  mkPlayer v (InvSlotGuids x) (Coinage x) (p_inWorld x) (m_itemSoulboundTradeable x)
    (m_refundableItems x) (m_lootGuid x) (m_trade x).
Definition with_InvSlotGuids (v : list Z) (x : Player) : Player :=
  mkPlayer (m_items x) v (Coinage x) (p_inWorld x) (m_itemSoulboundTradeable x)
    (m_refundableItems x) (m_lootGuid x) (m_trade x).
Definition with_Coinage (v : Z) (x : Player) : Player :=
  mkPlayer (m_items x) (InvSlotGuids x) v (p_inWorld x) (m_itemSoulboundTradeable x)
    (m_refundableItems x) (m_lootGuid x) (m_trade x).
Definition with_p_inWorld (v : bool) (x : Player) : Player :=
  mkPlayer (m_items x) (InvSlotGuids x) (Coinage x) v (m_itemSoulboundTradeable x)
    (m_refundableItems x) (m_lootGuid x) (m_trade x).
Definition with_m_itemSoulboundTradeable (v : list Z) (x : Player) : Player :=
  mkPlayer (m_items x) (InvSlotGuids x) (Coinage x) (p_inWorld x) v (m_refundableItems x)
    (m_lootGuid x) (m_trade x).
Definition with_m_refundableItems (v : gset Z) (x : Player) : Player :=
  mkPlayer (m_items x) (InvSlotGuids x) (Coinage x) (p_inWorld x) (m_itemSoulboundTradeable x)
    v (m_lootGuid x) (m_trade x).
Definition with_m_lootGuid (v : Z) (x : Player) : Player :=
  mkPlayer (m_items x) (InvSlotGuids x) (Coinage x) (p_inWorld x) (m_itemSoulboundTradeable x)
    (m_refundableItems x) v (m_trade x).
Definition with_m_trade (v : option Z) (x : Player) : Player :=
  mkPlayer (m_items x) (InvSlotGuids x) (Coinage x) (p_inWorld x) (m_itemSoulboundTradeable x)
    (m_refundableItems x) (m_lootGuid x) v.

Definition with_m_accepted (v : bool) (x : TradeData) : TradeData :=
  mkTrade (m_player x) (m_trader x) v (m_acceptProccess x) (m_money x) (m_spell x)
    (m_spellCastItem x) (t_items x).
Definition with_m_acceptProccess (v : bool) (x : TradeData) : TradeData :=
  mkTrade (m_player x) (m_trader x) (m_accepted x) v (m_money x) (m_spell x) (m_spellCastItem
    x) (t_items x).
Definition with_m_money (v : Z) (x : TradeData) : TradeData :=
  mkTrade (m_player x) (m_trader x) (m_accepted x) (m_acceptProccess x) v (m_spell x)
    (m_spellCastItem x) (t_items x).
Definition with_m_spell (v : Z) (x : TradeData) : TradeData :=
  mkTrade (m_player x) (m_trader x) (m_accepted x) (m_acceptProccess x) (m_money x) v
    (m_spellCastItem x) (t_items x).
Definition with_m_spellCastItem (v : Z) (x : TradeData) : TradeData :=
  mkTrade (m_player x) (m_trader x) (m_accepted x) (m_acceptProccess x) (m_money x) (m_spell x)
    v (t_items x).
Definition with_t_items (v : list Z) (x : TradeData) : TradeData :=
  mkTrade (m_player x) (m_trader x) (m_accepted x) (m_acceptProccess x) (m_money x) (m_spell x)
    (m_spellCastItem x) v.

Definition with_items (v : gmap Z Item) (x : World) : World :=
  mkWorld v (players x) (trades x) (m_hiItemGuid x) (sent x).
Definition with_players (v : gmap Z Player) (x : World) : World :=
  mkWorld (items x) v (trades x) (m_hiItemGuid x) (sent x).
Definition with_trades (v : gmap Z TradeData) (x : World) : World :=
  mkWorld (items x) (players x) v (m_hiItemGuid x) (sent x).
Definition with_m_hiItemGuid (v : Z) (x : World) : World :=
  mkWorld (items x) (players x) (trades x) v (sent x).
Definition with_sent (v : list effect) (x : World) : World :=
  mkWorld (items x) (players x) (trades x) (m_hiItemGuid x) v.
