(* ===== verification/Inventory.v ===== *)
(** * Inventory: where a player's items are, and where another one would go

    The const methods of src/src/server/game/Entities/Player/Player.cpp on the inventory,
    with those of Item.cpp and Bag.cpp they call. [CanStoreItem] plans the places of an
    item as a list of positions and counts; [CanStoreItems] tests whether several fit.
    A position is [bag << 8 | slot]; the bag 255 is the player's own array. *)

From Stdlib Require Import ZArith Lia.
From S2P Require Import Prelude ByteBuffer Guid ItemData.
Local Open Scope Z_scope.

(** The rest of the server, as far as items and trades look at it. *)
Record IEnv := mkIEnv {
  GetItemTemplate : Z → option ItemTemplate;
  sItemLimitCategoryStore : Z → option (Z * Z);        (* mode, maxCount *)
  sSpellItemEnchantmentStore : Z → option (Z * Z);     (* slot, GemID *)
  sItemRandomPropertiesStore : Z → option (Z * list Z);
  sItemRandomSuffixStore : Z → option (Z * list Z);
  GenerateEnchSuffixFactor : Z → Z;
  isInCombat : Z → bool;
  inRunningArena : Z → bool;
  isAlive : Z → bool;
  isStunned : Z → bool;
  isInFlight : Z → bool;
  isLogingOut : Z → bool;
  loggedOutOrRecently : Z → bool;
  getLevel : Z → Z;
  GetTeam : Z → Z;
  GetSecurity : Z → Z;
  GetTotalPlayedTime : Z → Z;
  HasIgnore : Z → Z → bool;
  IsWithinTradeDist : Z → Z → bool;
  CONFIG_TRADE_LEVEL_REQ : Z;
  CONFIG_ALLOW_TWO_SIDE_TRADE : bool;
  HasSpellInfo : Z → bool;
  CheckCast : World → Z → Z → option Z → Z;
  uninitialised : World → Z * list Z
}.

(** ** Access *)

Definition emit (e : effect) : iw unit := modify (λ w, with_sent (sent w ++ [e]) w).

Definition FindPlayer (p : Z) : iw (option Player) := gets (λ w, players w !! p).
Definition player_at (p : Z) : iw Player := pl ← FindPlayer p; of_option pl.
Definition item_at (a : Z) : iw Item := it ← gets (λ w, items w !! a); of_option it.
Definition upd_player (p : Z) (f : Player → Player) : iw unit :=
  player_at p;; modify (λ w, with_players (alter f p (players w)) w).
Definition upd_item (a : Z) (f : Item → Item) : iw unit :=
  item_at a;; modify (λ w, with_items (alter f a (items w)) w).

(** An element of an array. *)
Definition elem {A} (l : list A) (i : Z) : iw A := of_option (l !! Z.to_nat i).

Definition slots (first last : Z) : list Z := seqZ first (last - first).

Fixpoint first_of {A B} (f : A → iw (option B)) (l : list A) : iw (option B) :=
  match l with
  | [] => mret None
  | x :: l => r ← f x; match r with Some b => mret (Some b) | None => first_of f l end
  end.

(** Sums in [uint32]. *)
Fixpoint sum_of {A} (f : A → iw Z) (l : list A) : iw Z :=
  match l with [] => mret 0 | x :: l => c ← f x; r ← sum_of f l; mret (uwrap 32 (c + r)) end.

Definition pos_of (bag slot : Z) : Z := Z.lor (Z.shiftl bag 8) slot.
Definition pos_bag (pos : Z) : Z := Z.shiftr pos 8.
Definition pos_slot (pos : Z) : Z := Z.land pos 255.

Definition has_flag (it : Item) (flag : Z) : bool := has_bits (IFlags it) flag.

(** ** Positions *)

Definition IsInventoryPos (bag slot : Z) : bool :=
  ((bag =? INVENTORY_SLOT_BAG_0) && (slot =? NULL_SLOT)) ||
  ((bag =? INVENTORY_SLOT_BAG_0) && (INVENTORY_SLOT_ITEM_START <=? slot) && (slot <? INVENTORY_SLOT_ITEM_END)) ||
  ((INVENTORY_SLOT_BAG_START <=? bag) && (bag <? INVENTORY_SLOT_BAG_END)) ||
  ((bag =? INVENTORY_SLOT_BAG_0) && (KEYRING_SLOT_START <=? slot) && (slot <? CURRENCYTOKEN_SLOT_END)).

Definition IsEquipmentPos (bag slot : Z) : bool :=
  ((bag =? INVENTORY_SLOT_BAG_0) && (slot <? EQUIPMENT_SLOT_END)) ||
  ((bag =? INVENTORY_SLOT_BAG_0) && (INVENTORY_SLOT_BAG_START <=? slot) && (slot <? INVENTORY_SLOT_BAG_END)).

Definition is_bag_slot (slot : Z) : bool :=
  ((INVENTORY_SLOT_BAG_START <=? slot) && (slot <? INVENTORY_SLOT_BAG_END)) ||
  ((BANK_SLOT_BAG_START <=? slot) && (slot <? BANK_SLOT_BAG_END)).

Definition IsBagPos (pos : Z) : bool := (pos_bag pos =? INVENTORY_SLOT_BAG_0) && is_bag_slot (pos_slot pos).

(** The slots of the player's own array that hold items. *)
Definition in_own_array (slot : Z) : bool :=
  (slot <? BANK_SLOT_BAG_END) || ((KEYRING_SLOT_START <=? slot) && (slot <? CURRENCYTOKEN_SLOT_END)).

Section Reading.
Context (E : IEnv).

Definition GetTemplate (it : Item) : iw ItemTemplate := of_option (GetItemTemplate E (Entry it)).

(** ** Bags *)

Definition IsBag (it : Item) : iw bool := t ← GetTemplate it; mret (InventoryType t =? INVTYPE_BAG).

Definition Bag_GetItemByPos (b : Item) (slot : Z) : iw (option Z) :=
  if slot <? NumSlots b then elem (m_bagslot b) slot else mret None.

Definition Bag_IsEmpty (b : Item) : iw bool :=
  o ← first_of (elem (m_bagslot b)) (slots 0 (NumSlots b)); mret (negb (bool_decide (is_Some o))).

Definition IsNotEmptyBag (it : Item) : iw bool :=
  b ← IsBag it; if b : bool then e ← Bag_IsEmpty it; mret (negb e) else mret false.

(** [ToBag] of the item at [a]. *)
Definition ToBag (a : Z) : iw (option Z) := it ← item_at a; b ← IsBag it; mret (if b : bool then Some a else None).

(** ** Items by position *)

Definition GetItemInSlot (p slot : Z) : iw (option Z) := pl ← player_at p; elem (m_items pl) slot.

Definition GetBagByPos (p bag : Z) : iw (option Z) :=
  if is_bag_slot bag then
    o ← GetItemInSlot p bag;
    match o with Some a => ToBag a | None => mret None end
  else mret None.

Definition GetItemByPos (p bag slot : Z) : iw (option Z) :=
  if (bag =? INVENTORY_SLOT_BAG_0) && in_own_array slot then GetItemInSlot p slot
  else
    o ← GetBagByPos p bag;
    match o with Some b => bi ← item_at b; Bag_GetItemByPos bi slot | None => mret None end.

Definition GetItemByPos16 (p pos : Z) : iw (option Z) := GetItemByPos p (pos_bag pos) (pos_slot pos).

Definition GetBagSlot (it : Item) : iw Z :=
  match m_container it with
  | Some b => bi ← item_at b; mret (m_slot bi)
  | None => mret INVENTORY_SLOT_BAG_0
  end.

Definition GetPos (it : Item) : iw Z := b ← GetBagSlot it; mret (pos_of b (m_slot it)).

(** ** Items by guid *)

Definition has_guid (guid : Z) (o : option Z) : iw (option Z) :=
  match o with
  | Some a => it ← item_at a; mret (if i_guid it =? guid then Some a else None)
  | None => mret None
  end.

Definition own_by_guid (p guid slot : Z) : iw (option Z) :=
  o ← GetItemByPos p INVENTORY_SLOT_BAG_0 slot; has_guid guid o.

Definition bag_by_guid (p guid bag : Z) : iw (option Z) :=
  o ← GetBagByPos p bag;
  match o with
  | Some b => bi ← item_at b; first_of (λ j, o ← Bag_GetItemByPos bi j; has_guid guid o) (slots 0 (NumSlots bi))
  | None => mret None
  end.

Definition orelse {A} (m1 m2 : iw (option A)) : iw (option A) :=
  r ← m1; match r with Some x => mret (Some x) | None => m2 end.

Definition GetItemByGuid (p guid : Z) : iw (option Z) :=
  orelse (first_of (own_by_guid p guid) (slots EQUIPMENT_SLOT_START INVENTORY_SLOT_ITEM_END))
  (orelse (first_of (own_by_guid p guid) (slots KEYRING_SLOT_START CURRENCYTOKEN_SLOT_END))
  (orelse (first_of (own_by_guid p guid) (slots BANK_SLOT_ITEM_START BANK_SLOT_ITEM_END))
  (orelse (first_of (bag_by_guid p guid) (slots INVENTORY_SLOT_BAG_START INVENTORY_SLOT_BAG_END))
  (first_of (bag_by_guid p guid) (slots BANK_SLOT_BAG_START BANK_SLOT_BAG_END))))).

(** ** Properties of an item *)

Definition enchantment_id (it : Item) (slot : Z) : iw Z := e ← elem (Enchantments it) slot; mret e.1.1.

Definition IsSoulBound (it : Item) : bool := has_flag it ITEM_FLAG_SOULBOUND.

Definition IsBoundAccountWide (it : Item) : iw bool :=
  t ← GetTemplate it; mret (has_bits (Flags t) ITEM_PROTO_FLAG_BIND_TO_ACCOUNT).

(** The guid of a player is its low part. *)
Definition IsBindedNotWith (it : Item) (p : Z) : iw bool :=
  if negb (IsSoulBound it) then mret false
  else if Owner it =? p then mret false
  else if has_flag it ITEM_FLAG_BOP_TRADEABLE && bool_decide (GUID_LOPART p ∈ allowedGUIDs it) then mret false
  else b ← IsBoundAccountWide it; mret (negb b).

Definition IsBoundByEnchant (it : Item) : iw bool :=
  o ← first_of (λ s,
        id ← enchantment_id it s;
        mret (if id =? 0 then None else
              match sSpellItemEnchantmentStore E id with
              | Some (sl, _) => if has_bits sl ENCHANTMENT_CAN_SOULBOUND then Some tt else None
              | None => None
              end)) (slots PERM_ENCHANTMENT_SLOT MAX_ENCHANTMENT_SLOT);
  mret (bool_decide (is_Some o)).

Definition CanBeMergedPartlyWith (it : Item) (proto : ItemTemplate) : iw Z :=
  if m_lootGenerated it then mret EQUIP_ERR_ALREADY_LOOTED
  else if negb (Entry it =? ItemId proto) then mret EQUIP_ERR_ITEM_CANT_STACK
  else if GetMaxStackSize proto <=? Count it then mret EQUIP_ERR_ITEM_CANT_STACK
  else mret EQUIP_ERR_OK.

Definition GetGemCountWithID (it : Item) (gem : Z) : iw Z :=
  n ← sum_of (λ s,
        id ← enchantment_id it s;
        mret (if id =? 0 then 0 else
              match sSpellItemEnchantmentStore E id with
              | Some (_, g) => if gem =? g then 1 else 0
              | None => 0
              end)) (slots SOCK_ENCHANTMENT_SLOT (SOCK_ENCHANTMENT_SLOT + MAX_GEM_SOCKETS));
  mret (uwrap 8 n).

(** [ItemCanGoIntoBag] of Item.cpp. *)
Definition ItemCanGoIntoBag (pProto pBagProto : ItemTemplate) : bool :=
  let fam := has_bits (BagFamily pProto) in
  let sub := SubClass pBagProto in
  if Class_ pBagProto =? ITEM_CLASS_CONTAINER then
    if sub =? ITEM_SUBCLASS_CONTAINER then true
    else if sub =? ITEM_SUBCLASS_SOUL_CONTAINER then fam BAG_FAMILY_MASK_SOUL_SHARDS
    else if sub =? ITEM_SUBCLASS_HERB_CONTAINER then fam BAG_FAMILY_MASK_HERBS
    else if sub =? ITEM_SUBCLASS_ENCHANTING_CONTAINER then fam BAG_FAMILY_MASK_ENCHANTING_SUPP
    else if sub =? ITEM_SUBCLASS_MINING_CONTAINER then fam BAG_FAMILY_MASK_MINING_SUPP
    else if sub =? ITEM_SUBCLASS_ENGINEERING_CONTAINER then fam BAG_FAMILY_MASK_ENGINEERING_SUPP
    else if sub =? ITEM_SUBCLASS_GEM_CONTAINER then fam BAG_FAMILY_MASK_GEMS
    else if sub =? ITEM_SUBCLASS_LEATHERWORKING_CONTAINER then fam BAG_FAMILY_MASK_LEATHERWORKING_SUPP
    else if sub =? ITEM_SUBCLASS_INSCRIPTION_CONTAINER then fam BAG_FAMILY_MASK_INSCRIPTION_SUPP
    else false
  else if Class_ pBagProto =? ITEM_CLASS_QUIVER then
    if sub =? ITEM_SUBCLASS_QUIVER then fam BAG_FAMILY_MASK_ARROWS
    else if sub =? ITEM_SUBCLASS_AMMO_POUCH then fam BAG_FAMILY_MASK_BULLETS
    else false
  else false.

(** ** Counting *)

(** What an item in some place counts: [f] of it, unless it is the skipped one. *)
Definition count_at (skip : option Z) (f : Item → iw Z) (o : option Z) : iw Z :=
  match o with
  | Some a => if bool_decide (Some a = skip) then mret 0 else it ← item_at a; f it
  | None => mret 0
  end.

Definition own_count (p : Z) (skip : option Z) (f : Item → iw Z) (first last : Z) : iw Z :=
  sum_of (λ i, o ← GetItemByPos p INVENTORY_SLOT_BAG_0 i; count_at skip f o) (slots first last).

Definition of_entry (entry : Z) (it : Item) : iw Z := mret (if Entry it =? entry then Count it else 0).

Definition gems_of (entry : Z) (it : Item) : iw Z :=
  t ← GetTemplate it; if negb (SocketColor t =? 0) then GetGemCountWithID it entry else mret 0.

Definition is_gem (o : option Z) : iw bool :=
  match o with Some a => it ← item_at a; t ← GetTemplate it; mret (negb (GemProperties t =? 0)) | None => mret false end.

Definition Bag_GetItemCount (b : Item) (entry : Z) (eItem : option Z) : iw Z :=
  n ← sum_of (λ i, o ← elem (m_bagslot b) i; count_at eItem (of_entry entry) o) (slots 0 (NumSlots b));
  gem ← is_gem eItem;
  m ← (if gem : bool then
         sum_of (λ i, o ← elem (m_bagslot b) i; count_at eItem (gems_of entry) o) (slots 0 (NumSlots b))
       else mret 0);
  mret (uwrap 32 (n + m)).

Definition Bag_GetItemCountWithLimitCategory (b : Item) (f : Item → iw Z) (skip : option Z) : iw Z :=
  sum_of (λ i, o ← elem (m_bagslot b) i; count_at skip f o) (slots 0 (NumSlots b)).

(** A count over the bags in the slots [first] to [last]. *)
Definition bags_count (p : Z) (f : Item → iw Z) (first last : Z) : iw Z :=
  sum_of (λ i, o ← GetBagByPos p i; match o with Some b => bi ← item_at b; f bi | None => mret 0 end) (slots first last).

Definition GetItemCount (p entry : Z) (inBankAlso : bool) (skipItem : option Z) : iw Z :=
  worn ← own_count p skipItem (of_entry entry) EQUIPMENT_SLOT_START INVENTORY_SLOT_ITEM_END;
  keys ← own_count p skipItem (of_entry entry) KEYRING_SLOT_START CURRENCYTOKEN_SLOT_END;
  bags ← bags_count p (λ b, Bag_GetItemCount b entry skipItem) INVENTORY_SLOT_BAG_START INVENTORY_SLOT_BAG_END;
  gem ← is_gem skipItem;
  gems ← (if gem : bool then own_count p skipItem (gems_of entry) EQUIPMENT_SLOT_START INVENTORY_SLOT_ITEM_END else mret 0);
  bank ← (if inBankAlso then
            n ← own_count p skipItem (of_entry entry) BANK_SLOT_ITEM_START BANK_SLOT_ITEM_END;
            m ← bags_count p (λ b, Bag_GetItemCount b entry skipItem) BANK_SLOT_BAG_START BANK_SLOT_BAG_END;
            g ← (if gem : bool then own_count p skipItem (gems_of entry) BANK_SLOT_ITEM_START BANK_SLOT_ITEM_END else mret 0);
            mret (n + m + g)
          else mret 0);
  mret (uwrap 32 (worn + keys + bags + gems + bank)).

Definition of_category (cat : Z) (it : Item) : iw Z :=
  mret match GetItemTemplate E (Entry it) with
       | Some t => if ItemLimitCategory t =? cat then Count it else 0
       | None => 0
       end.

Definition GetItemCountWithLimitCategory (p cat : Z) (skipItem : option Z) : iw Z :=
  worn ← own_count p skipItem (of_category cat) EQUIPMENT_SLOT_START INVENTORY_SLOT_ITEM_END;
  keys ← own_count p skipItem (of_category cat) KEYRING_SLOT_START CURRENCYTOKEN_SLOT_END;
  bags ← bags_count p (λ b, Bag_GetItemCountWithLimitCategory b (of_category cat) skipItem)
           INVENTORY_SLOT_BAG_START INVENTORY_SLOT_BAG_END;
  bank ← own_count p skipItem (of_category cat) BANK_SLOT_ITEM_START BANK_SLOT_ITEM_END;
  bankbags ← bags_count p (λ b, Bag_GetItemCountWithLimitCategory b (of_category cat) skipItem)
               BANK_SLOT_BAG_START BANK_SLOT_BAG_END;
  mret (uwrap 32 (worn + keys + bags + bank + bankbags)).

(** The result, and [no_space_count] where it is set. *)
Definition CanTakeMoreSimilarItems (p entry count : Z) (pItem : option Z) : iw (Z * option Z) :=
  match GetItemTemplate E entry with
  | None => mret (EQUIP_ERR_CANT_CARRY_MORE_OF_THIS, Some count)
  | Some t =>
    looted ← match pItem with Some a => it ← item_at a; mret (m_lootGenerated it) | None => mret false end;
    if looted : bool then mret (EQUIP_ERR_ALREADY_LOOTED, None)
    else if ((MaxCount t <=? 0) && (ItemLimitCategory t =? 0)) || (MaxCount t =? 2147483647) then mret (EQUIP_ERR_OK, None)
    else
      over ← (if 0 <? MaxCount t then
                cur ← GetItemCount p (ItemId t) true pItem;
                mret (if MaxCount t <? uwrap 32 (cur + count) then Some (uwrap 32 (count + cur - MaxCount t)) else None)
              else mret None);
      match over with
      | Some n => mret (EQUIP_ERR_CANT_CARRY_MORE_OF_THIS, Some n)
      | None =>
        if ItemLimitCategory t =? 0 then mret (EQUIP_ERR_OK, None)
        else
          match sItemLimitCategoryStore E (ItemLimitCategory t) with
          | None => mret (EQUIP_ERR_ITEM_CANT_BE_EQUIPPED, Some count)
          | Some (mode, maxCount) =>
            if mode =? ITEM_LIMIT_CATEGORY_MODE_HAVE then
              cur ← GetItemCountWithLimitCategory p (ItemLimitCategory t) pItem;
              if maxCount <? uwrap 32 (cur + count)
              then mret (EQUIP_ERR_ITEM_MAX_LIMIT_CATEGORY_COUNT_EXCEEDED, Some (uwrap 32 (count + cur - maxCount)))
              else mret (EQUIP_ERR_OK, None)
            else mret (EQUIP_ERR_OK, None)
          end
      end
  end.

(** ** Planning the places of an item *)

(** The positions chosen so far, with counts, and the count still without a place. *)
Abbreviation plan := (list (Z * Z) * Z)%type.

Definition isContainedIn (pos : Z) (dest : list (Z * Z)) : bool := bool_decide (pos ∈ dest.*1).

(** Ignores the item that moves: its slot will be empty. *)
Definition other_item (o pSrcItem : option Z) : option Z := if bool_decide (o = pSrcItem) then None else o.

Definition add_position (bag slot need_space : Z) (st : plan) : bool * plan :=
  let '(dest, count) := st in
  let need := if count <? need_space then count else need_space in
  let pos := pos_of bag slot in
  if isContainedIn pos dest then (false, st) else (true, (dest ++ [(pos, need)], uwrap 32 (count - need))).

Definition CanStoreItem_InSpecificSlot (p bag slot : Z) (pProto : ItemTemplate) (swap : bool) (pSrcItem : option Z)
    (st : plan) : iw (Z * plan) :=
  o ← GetItemByPos p bag slot;
  let pItem2 := other_item o pSrcItem in
  full_bag ← match pSrcItem with
             | Some a => it ← item_at a; b ← IsNotEmptyBag it; mret (b && negb (IsBagPos (pos_of bag slot)))
             | None => mret false
             end;
  if full_bag : bool then mret (EQUIP_ERR_CAN_ONLY_DO_WITH_EMPTY_BAGS, st)
  else
    space ← match pItem2, swap with
            | Some a, false =>
              it ← item_at a;
              res ← CanBeMergedPartlyWith it pProto;
              mret (if res =? EQUIP_ERR_OK then inr (uwrap 32 (GetMaxStackSize pProto - Count it)) else inl res)
            | _, _ =>
              if bag =? INVENTORY_SLOT_BAG_0 then
                mret (if (KEYRING_SLOT_START <=? slot) && (slot <? KEYRING_SLOT_END) &&
                         negb (has_bits (BagFamily pProto) BAG_FAMILY_MASK_KEYS) then inl EQUIP_ERR_ITEM_DOESNT_GO_INTO_BAG
                      else if (CURRENCYTOKEN_SLOT_START <=? slot) && (slot <? CURRENCYTOKEN_SLOT_END) &&
                         negb (has_bits (BagFamily pProto) BAG_FAMILY_MASK_CURRENCY_TOKENS) then inl EQUIP_ERR_ITEM_DOESNT_GO_INTO_BAG
                      else if ((BUYBACK_SLOT_START <=? slot) && (slot <? BUYBACK_SLOT_END)) || (PLAYER_SLOT_END <=? slot)
                      then inl EQUIP_ERR_ITEM_DOESNT_GO_INTO_BAG
                      else inr (GetMaxStackSize pProto))
              else
                o ← GetBagByPos p bag;
                match o with
                | None => mret (inl EQUIP_ERR_ITEM_DOESNT_GO_INTO_BAG)
                | Some b =>
                  bi ← item_at b;
                  mret match GetItemTemplate E (Entry bi) with
                       | None => inl EQUIP_ERR_ITEM_DOESNT_GO_INTO_BAG
                       | Some pBagProto =>
                         if ContainerSlots pBagProto <=? slot then inl EQUIP_ERR_ITEM_DOESNT_GO_INTO_BAG
                         else if negb (ItemCanGoIntoBag pProto pBagProto) then inl EQUIP_ERR_ITEM_DOESNT_GO_INTO_BAG
                         else inr (GetMaxStackSize pProto)
                       end
                end
            end;
    mret match space with
         | inl res => (res, st)
         | inr need_space => (EQUIP_ERR_OK, (add_position bag slot need_space st).2)
         end.

(** One slot in the scan of a bag or of the own array; with [true] the scan ends. *)
Definition offer_slot (p : Z) (pProto : ItemTemplate) (merge : bool) (pSrcItem : option Z) (bag j : Z) (st : plan)
    : iw (bool * plan) :=
  o ← GetItemByPos p bag j;
  match other_item o pSrcItem with
  | None =>
    mret (if merge then (false, st)
          else let '(added, st) := add_position bag j (GetMaxStackSize pProto) st in (added && (st.2 =? 0), st))
  | Some a =>
    if negb merge then mret (false, st)
    else
      it ← item_at a;
      res ← CanBeMergedPartlyWith it pProto;
      mret (if negb (res =? EQUIP_ERR_OK) then (false, st)
            else let '(added, st) := add_position bag j (uwrap 32 (GetMaxStackSize pProto - Count it)) st in
                 (added && (st.2 =? 0), st))
  end.

Fixpoint scan (offer : Z → plan → iw (bool * plan)) (skip : Z → bool) (js : list Z) (st : plan) : iw plan :=
  match js with
  | [] => mret st
  | j :: js =>
    if skip j then scan offer skip js st
    else '(stop, st) ← offer j st; if stop : bool then mret st else scan offer skip js st
  end.

Definition src_not_empty_bag (pSrcItem : option Z) : iw bool :=
  match pSrcItem with Some a => it ← item_at a; IsNotEmptyBag it | None => mret false end.

Definition CanStoreItem_InBag (p bag : Z) (pProto : ItemTemplate) (merge non_specialized : bool) (pSrcItem : option Z)
    (skip_bag skip_slot : Z) (st : plan) : iw (Z * plan) :=
  if bag =? skip_bag then mret (EQUIP_ERR_ITEM_DOESNT_GO_INTO_BAG, st)
  else
    o ← GetBagByPos p bag;
    match o with
    | None => mret (EQUIP_ERR_ITEM_DOESNT_GO_INTO_BAG, st)
    | Some b =>
      if bool_decide (Some b = pSrcItem) then mret (EQUIP_ERR_ITEM_DOESNT_GO_INTO_BAG, st)
      else
        full ← src_not_empty_bag pSrcItem;
        if full : bool then mret (EQUIP_ERR_CAN_ONLY_DO_WITH_EMPTY_BAGS, st)
        else
          bi ← item_at b;
          match GetItemTemplate E (Entry bi) with
          | None => mret (EQUIP_ERR_ITEM_DOESNT_GO_INTO_BAG, st)
          | Some pBagProto =>
            let plain := (Class_ pBagProto =? ITEM_CLASS_CONTAINER) && (SubClass pBagProto =? ITEM_SUBCLASS_CONTAINER) in
            if negb (Bool.eqb non_specialized plain) then mret (EQUIP_ERR_ITEM_DOESNT_GO_INTO_BAG, st)
            else if negb (ItemCanGoIntoBag pProto pBagProto) then mret (EQUIP_ERR_ITEM_DOESNT_GO_INTO_BAG, st)
            else
              st ← scan (offer_slot p pProto merge pSrcItem bag) (λ j, j =? skip_slot) (slots 0 (NumSlots bi)) st;
              mret (EQUIP_ERR_OK, st)
          end
    end.

Definition CanStoreItem_InInventorySlots (p slot_begin slot_end : Z) (pProto : ItemTemplate) (merge : bool)
    (pSrcItem : option Z) (skip_bag skip_slot : Z) (st : plan) : iw (Z * plan) :=
  full ← src_not_empty_bag pSrcItem;
  if full : bool then mret (EQUIP_ERR_CAN_ONLY_DO_WITH_EMPTY_BAGS, st)
  else
    st ← scan (offer_slot p pProto merge pSrcItem INVENTORY_SLOT_BAG_0)
              (λ j, (INVENTORY_SLOT_BAG_0 =? skip_bag) && (j =? skip_slot)) (slots slot_begin slot_end) st;
    mret (EQUIP_ERR_OK, st).

(** What [CanStoreItem] returns: the result, [dest], and [no_space_count] where it is set. *)
Record StoreResult := mkStore { sr_res : Z; sr_dest : list (Z * Z); sr_no_space : option Z }.

(** The end of every stage of [CanStoreItem]: an error ends it, or with [may] is ignored; a
    count of 0 ends it. *)
Inductive stage := must (f : plan → iw (Z * plan)) | may (f : plan → iw (Z * plan)).

Definition all_placed (no_similar_count : Z) (st : plan) : StoreResult :=
  if no_similar_count =? 0 then mkStore EQUIP_ERR_OK st.1 None
  else mkStore EQUIP_ERR_CANT_CARRY_MORE_OF_THIS st.1 (Some (uwrap 32 (st.2 + no_similar_count))).

Definition no_space (no_similar_count res : Z) (st : plan) : StoreResult :=
  mkStore res st.1 (Some (uwrap 32 (st.2 + no_similar_count))).

Fixpoint stages (no_similar_count : Z) (l : list stage) (st : plan) : iw (StoreResult + plan) :=
  match l with
  | [] => mret (inr st)
  | s :: l =>
    '(res, st) ← match s with must f | may f => f st end;
    if negb (res =? EQUIP_ERR_OK) then
      match s with
      | must _ => mret (inl (no_space no_similar_count res st))
      | may _ => stages no_similar_count l st
      end
    else if st.2 =? 0 then mret (inl (all_placed no_similar_count st))
    else stages no_similar_count l st
  end.

(** [res = f(st); if (res != EQUIP_ERR_OK) res = g(st);] *)
Definition first_fit (f g : plan → iw (Z * plan)) (st : plan) : iw (Z * plan) :=
  '(res, st) ← f st; if negb (res =? EQUIP_ERR_OK) then g st else mret (res, st).

Definition inventory_bags : list Z := slots INVENTORY_SLOT_BAG_START INVENTORY_SLOT_BAG_END.

(** The search for keyring and currency slots, first in a specific bag, then in any. *)
Definition family_stages (p : Z) (t : ItemTemplate) (pItem : option Z) (bag slot : Z) (both : bool) : list stage :=
  let free first last := must (CanStoreItem_InInventorySlots p first last t false pItem bag slot) in
  if has_bits (BagFamily t) BAG_FAMILY_MASK_KEYS then
    free KEYRING_SLOT_START KEYRING_SLOT_END ::
    (if both then [free CURRENCYTOKEN_SLOT_START CURRENCYTOKEN_SLOT_END] else [])
  else if has_bits (BagFamily t) BAG_FAMILY_MASK_CURRENCY_TOKENS then [free CURRENCYTOKEN_SLOT_START CURRENCYTOKEN_SLOT_END]
  else [].

(** In a specific bag. *)
Definition specific_bag_stages (p : Z) (t : ItemTemplate) (pItem : option Z) (bag slot : Z) : list stage :=
  let own first last merge := must (CanStoreItem_InInventorySlots p first last t merge pItem bag slot) in
  let in_bag merge := must (first_fit (CanStoreItem_InBag p bag t merge false pItem NULL_BAG slot)
                                      (CanStoreItem_InBag p bag t merge true pItem NULL_BAG slot)) in
  (if negb (Stackable t =? 1) then
     if bag =? INVENTORY_SLOT_BAG_0 then
       [own KEYRING_SLOT_START CURRENCYTOKEN_SLOT_END true; own INVENTORY_SLOT_ITEM_START INVENTORY_SLOT_ITEM_END true]
     else [in_bag true]
   else []) ++
  (if bag =? INVENTORY_SLOT_BAG_0 then
     family_stages p t pItem bag slot true ++ [own INVENTORY_SLOT_ITEM_START INVENTORY_SLOT_ITEM_END false]
   else [in_bag false]).

(** In any bag: stacks to merge with, then special slots and bags. *)
Definition merge_stages (p : Z) (t : ItemTemplate) (pItem : option Z) (bag slot : Z) : list stage :=
  let own first last := must (CanStoreItem_InInventorySlots p first last t true pItem bag slot) in
  let in_bag special i := may (CanStoreItem_InBag p i t true (negb special) pItem bag slot) in
  if negb (Stackable t =? 1) then
    [own KEYRING_SLOT_START CURRENCYTOKEN_SLOT_END; own INVENTORY_SLOT_ITEM_START INVENTORY_SLOT_ITEM_END] ++
    (if negb (BagFamily t =? 0) then in_bag true <$> inventory_bags else []) ++ (in_bag false <$> inventory_bags)
  else [].

Definition special_stages (p : Z) (t : ItemTemplate) (pItem : option Z) (bag slot : Z) : list stage :=
  if negb (BagFamily t =? 0) then
    family_stages p t pItem bag slot false ++
    ((λ i, may (CanStoreItem_InBag p i t false false pItem bag slot)) <$> inventory_bags)
  else [].

(** The free slots of the backpack and of plain bags. *)
Definition free_stages (p : Z) (t : ItemTemplate) (pItem : option Z) (bag slot : Z) : list stage :=
  must (CanStoreItem_InInventorySlots p INVENTORY_SLOT_ITEM_START INVENTORY_SLOT_ITEM_END t false pItem bag slot) ::
  ((λ i, may (CanStoreItem_InBag p i t false true pItem bag slot)) <$> inventory_bags).

Definition CanStoreItem_stages (p bag slot : Z) (t : ItemTemplate) (pItem : option Z) (swap : bool) : list stage :=
  (if negb (bag =? NULL_BAG) && negb (slot =? NULL_SLOT)
   then [must (CanStoreItem_InSpecificSlot p bag slot t swap pItem)] else []) ++
  (if negb (bag =? NULL_BAG) then specific_bag_stages p t pItem bag slot else []) ++
  merge_stages p t pItem bag slot ++ special_stages p t pItem bag slot.

(** [dest] may hold positions already: the code appends. *)
Definition CanStoreItem (p bag slot : Z) (dest : list (Z * Z)) (entry count : Z) (pItem : option Z) (swap : bool)
    : iw StoreResult :=
  match GetItemTemplate E entry with
  | None => mret (mkStore (if swap then EQUIP_ERR_ITEMS_CANT_BE_SWAPPED else EQUIP_ERR_ITEM_NOT_FOUND) dest (Some count))
  | Some t =>
    refused ← match pItem with
              | Some a =>
                it ← item_at a;
                if m_lootGenerated it then mret (Some EQUIP_ERR_ALREADY_LOOTED)
                else b ← IsBindedNotWith it p; mret (if b : bool then Some EQUIP_ERR_DONT_OWN_THAT_ITEM else None)
              | None => mret None
              end;
    match refused with
    | Some res => mret (mkStore res dest (Some count))
    | None =>
      '(res, set) ← CanTakeMoreSimilarItems p entry count pItem;
      let no_similar_count := default 0 set in
      if negb (res =? EQUIP_ERR_OK) && (count =? no_similar_count)
      then mret (mkStore res dest (Some no_similar_count))
      else
        let count := if res =? EQUIP_ERR_OK then count else uwrap 32 (count - no_similar_count) in
        r ← stages no_similar_count (CanStoreItem_stages p bag slot t pItem swap) (dest, count);
        match r with
        | inl sr => mret sr
        | inr st =>
          full ← src_not_empty_bag pItem;
          if full : bool then mret (mkStore EQUIP_ERR_NONEMPTY_BAG_OVER_OTHER_BAG st.1 None)
          else
            r ← stages no_similar_count (free_stages p t pItem bag slot) st;
            mret match r with inl sr => sr | inr st => no_space no_similar_count EQUIP_ERR_INVENTORY_FULL st end
        end
    end
  end.

(** The overload for an item that exists. *)
Definition CanStoreItem_item (p bag slot : Z) (dest : list (Z * Z)) (pItem : option Z) (swap : bool) : iw StoreResult :=
  match pItem with
  | None => mret (mkStore EQUIP_ERR_ITEM_NOT_FOUND dest None)
  | Some a => it ← item_at a; CanStoreItem p bag slot dest (Entry it) (Count it) (Some a) swap
  end.

End Reading.
