(* ===== verification/InventoryStore.v ===== *)
(** * InventoryStore: items change hands

    The methods of Player.cpp, Item.cpp and Bag.cpp (src/src/server/game/Entities/) that
    put an item into an inventory or take it out, with the test whether several items fit,
    and the gold of a player. The item update queue, timers, auras and quests are effects. *)

From Stdlib Require Import ZArith Lia.
From S2P Require Import Prelude ByteBuffer Guid ItemData Inventory.
Local Open Scope Z_scope.

Definition pack (p : bb unit) : ByteBuffer := (p empty_buffer).2.

Definition SMSG_INVENTORY_CHANGE_FAILURE : Z := 0x112.

Section Changing.
Context (E : IEnv).

(** ** Room for several items *)

(** The space table: what the slots hold, after the items that fit so far. *)
Record Space := mkSpace {
  inv_slot_items : list Z;
  inv_bags : list (list Z);
  inv_keys : list Z;
  inv_tokens : list Z
}.

Definition space_at (o : option Z) : iw Z :=
  match o with Some a => it ← item_at a; mret (if mb_in_trade it then 0 else swrap 32 (Count it)) | None => mret 0 end.

Fixpoint each_of {A B} (f : A → iw B) (l : list A) : iw (list B) :=
  match l with [] => mret [] | x :: l => y ← f x; ys ← each_of f l; mret (y :: ys) end.

Definition own_space (p first last : Z) : iw (list Z) :=
  each_of (λ i, o ← GetItemByPos E p INVENTORY_SLOT_BAG_0 i; space_at o) (slots first last).

(** Slots beyond the bag stay 0. *)
Definition bag_space (p i : Z) : iw (list Z) :=
  o ← GetBagByPos E p i;
  match o with
  | Some b =>
    bi ← item_at b;
    l ← each_of (λ j, o ← GetItemByPos E p i j; space_at o) (slots 0 (NumSlots bi));
    mret (take (Z.to_nat MAX_BAG_SIZE) (l ++ replicate (Z.to_nat MAX_BAG_SIZE) 0))
  | None => mret (replicate (Z.to_nat MAX_BAG_SIZE) 0)
  end.

Definition space_of (p : Z) : iw Space :=
  s ← own_space p INVENTORY_SLOT_ITEM_START INVENTORY_SLOT_ITEM_END;
  k ← own_space p KEYRING_SLOT_START KEYRING_SLOT_END;
  t ← own_space p CURRENCYTOKEN_SLOT_START CURRENCYTOKEN_SLOT_END;
  b ← each_of (bag_space p) inventory_bags;
  mret (mkSpace s b k t).

(** Searches the slots [ts] of a bag for a stack that takes the whole item; [start] is the
    slot of the first entry of [inv]. *)
Fixpoint merge_whole (p bag start : Z) (t : ItemTemplate) (count : Z) (ts : list Z) (inv : list Z) : iw (option (list Z)) :=
  match ts with
  | [] => mret None
  | i :: ts =>
    o ← GetItemByPos E p bag i;
    fits ← match o with
           | Some a =>
             it ← item_at a;
             res ← CanBeMergedPartlyWith it t;
             if negb (res =? EQUIP_ERR_OK) then mret false
             else n ← elem inv (i - start); mret (uwrap 32 (n + count) <=? GetMaxStackSize t)
           | None => mret false
           end;
    if fits : bool then mret (Some (alter (λ n, swrap 32 (n + count)) (Z.to_nat (i - start)) inv))
    else merge_whole p bag start t count ts inv
  end.

(** Takes the first free entry among the first [n]. *)
Fixpoint take_free (n : nat) (inv : list Z) : option (list Z) :=
  match n, inv with
  | S n, x :: inv => if x =? 0 then Some (1 :: inv) else (λ l, x :: l) <$> take_free n inv
  | _, _ => None
  end.

(** A search in the bags in turn: [f] of the bag, its slot and its row of the table. *)
Fixpoint in_bags (p : Z) (f : Item → Z → list Z → iw (option (list Z))) (bs : list Z) (rows : list (list Z))
    : iw (option (list (list Z))) :=
  match bs, rows with
  | i :: bs, row :: rows =>
    o ← GetBagByPos E p i;
    r ← match o with Some b => bi ← item_at b; f bi i row | None => mret None end;
    match r with
    | Some row => mret (Some (row :: rows))
    | None => r ← in_bags p f bs rows; mret ((λ l, row :: l) <$> r)
    end
  | _, _ => mret None
  end.

Definition merge_in_bag (p : Z) (t : ItemTemplate) (count : Z) (bi : Item) (i : Z) (row : list Z) : iw (option (list Z)) :=
  match GetItemTemplate E (Entry bi) with
  | Some bt => if ItemCanGoIntoBag t bt then merge_whole p i 0 t count (slots 0 (NumSlots bi)) row else mret None
  | None => mret None
  end.

Definition is_plain (bt : ItemTemplate) : bool :=
  (Class_ bt =? ITEM_CLASS_CONTAINER) && (SubClass bt =? ITEM_SUBCLASS_CONTAINER).

Definition free_in_special_bag (t : ItemTemplate) (bi : Item) (i : Z) (row : list Z) : iw (option (list Z)) :=
  mret match GetItemTemplate E (Entry bi) with
       | Some bt => if negb (is_plain bt) && ItemCanGoIntoBag t bt then take_free (Z.to_nat (NumSlots bi)) row else None
       | None => None
       end.

Definition free_in_plain_bag (bi : Item) (i : Z) (row : list Z) : iw (option (list Z)) :=
  mret match GetItemTemplate E (Entry bi) with
       | Some bt => if negb (is_plain bt) then None else take_free (Z.to_nat (NumSlots bi)) row
       | None => take_free (Z.to_nat (NumSlots bi)) row
       end.

Definition with_slot_items (s : Space) (l : list Z) : Space := mkSpace l (inv_bags s) (inv_keys s) (inv_tokens s).
Definition with_bags (s : Space) (l : list (list Z)) : Space := mkSpace (inv_slot_items s) l (inv_keys s) (inv_tokens s).
Definition with_keys (s : Space) (l : list Z) : Space := mkSpace (inv_slot_items s) (inv_bags s) l (inv_tokens s).
Definition with_tokens (s : Space) (l : list Z) : Space := mkSpace (inv_slot_items s) (inv_bags s) (inv_keys s) l.

(** The search stack for merge to. *)
Definition fit_merge (p : Z) (t : ItemTemplate) (count : Z) (s : Space) : iw (option Space) :=
  let own first last := merge_whole p INVENTORY_SLOT_BAG_0 first t count (slots first last) in
  orelse (k ← own KEYRING_SLOT_START KEYRING_SLOT_END (inv_keys s); mret (with_keys s <$> k))
  (orelse (k ← own CURRENCYTOKEN_SLOT_START CURRENCYTOKEN_SLOT_END (inv_tokens s); mret (with_tokens s <$> k))
  (orelse (l ← own INVENTORY_SLOT_ITEM_START INVENTORY_SLOT_ITEM_END (inv_slot_items s); mret (with_slot_items s <$> l))
  (r ← in_bags p (merge_in_bag p t count) inventory_bags (inv_bags s); mret (with_bags s <$> r)))).

(** The special bag case. *)
Definition fit_special (p : Z) (t : ItemTemplate) (s : Space) : iw (option Space) :=
  orelse (mret (if has_bits (BagFamily t) BAG_FAMILY_MASK_KEYS then with_keys s <$> take_free 32 (inv_keys s) else None))
  (orelse (mret (if has_bits (BagFamily t) BAG_FAMILY_MASK_CURRENCY_TOKENS then with_tokens s <$> take_free 32 (inv_tokens s) else None))
  (r ← in_bags p (free_in_special_bag t) inventory_bags (inv_bags s); mret (with_bags s <$> r))).

Definition fit_free (p : Z) (s : Space) : iw (option Space) :=
  orelse (mret (with_slot_items s <$> take_free 16 (inv_slot_items s)))
  (r ← in_bags p free_in_plain_bag inventory_bags (inv_bags s); mret (with_bags s <$> r)).

Definition fit_item (p a : Z) (s : Space) : iw (Z + Space) :=
  it ← item_at a;
  match GetItemTemplate E (Entry it) with
  | None => mret (inl EQUIP_ERR_ITEM_NOT_FOUND)
  | Some t =>
    if m_lootGenerated it then mret (inl EQUIP_ERR_ALREADY_LOOTED)
    else
      bound ← IsBindedNotWith E it p;
      if bound : bool then mret (inl EQUIP_ERR_DONT_OWN_THAT_ITEM)
      else
        '(res, _) ← CanTakeMoreSimilarItems E p (Entry it) (Count it) (Some a);
        if negb (res =? EQUIP_ERR_OK) then mret (inl res)
        else
          r ← orelse (if negb (Stackable t =? 1) then fit_merge p t (Count it) s else mret None)
              (orelse (if negb (BagFamily t =? 0) then fit_special p t s else mret None)
              (fit_free p s));
          mret match r with Some s => inr s | None => inl EQUIP_ERR_INVENTORY_FULL end
  end.

Fixpoint fit_items (p : Z) (l : list (option Z)) (s : Space) : iw Z :=
  match l with
  | [] => mret EQUIP_ERR_OK
  | None :: l => fit_items p l s
  | Some a :: l => r ← fit_item p a s; match r with inl res => mret res | inr s => fit_items p l s end
  end.

Definition CanStoreItems (p : Z) (pItems : list (option Z)) : iw Z := s ← space_of p; fit_items p pItems s.

(** ** May an item leave? *)

Definition CanUnequipItem (p pos : Z) (swap : bool) : iw Z :=
  if negb (IsEquipmentPos (pos_bag pos) (pos_slot pos)) && negb (IsBagPos pos) then mret EQUIP_ERR_OK
  else
    o ← GetItemByPos16 E p pos;
    match o with
    | None => mret EQUIP_ERR_OK
    | Some a =>
      it ← item_at a;
      match GetItemTemplate E (Entry it) with
      | None => mret EQUIP_ERR_ITEM_NOT_FOUND
      | Some t =>
        if m_lootGenerated it then mret EQUIP_ERR_ALREADY_LOOTED
        else if negb (CanChangeEquipStateInCombat t) && isInCombat E p then mret EQUIP_ERR_NOT_IN_COMBAT
        else if negb (CanChangeEquipStateInCombat t) && inRunningArena E p then mret EQUIP_ERR_NOT_DURING_ARENA_MATCH
        else
          full ← IsNotEmptyBag E it;
          mret (if negb swap && full then EQUIP_ERR_CAN_ONLY_DO_WITH_EMPTY_BAGS else EQUIP_ERR_OK)
      end
    end.

Definition owner_allows (it : Item) : iw bool :=
  o ← FindPlayer (Owner it);
  match o with
  | None => mret true
  | Some owner =>
    pos ← GetPos it;
    res ← CanUnequipItem (Owner it) pos false;
    mret ((res =? EQUIP_ERR_OK) && negb (m_lootGuid owner =? i_guid it))
  end.

Definition CanBeTraded (a : Z) (mail trade : bool) : iw bool :=
  it ← item_at a;
  if m_lootGenerated it then mret false
  else
    account ← IsBoundAccountWide E it;
    if (negb mail || negb account) && (IsSoulBound it && (negb (has_flag it ITEM_FLAG_BOP_TRADEABLE) || negb trade))
    then mret false
    else
      is_bag ← IsBag E it;
      pos ← GetPos it;
      empty ← (if is_bag : bool then Bag_IsEmpty it else mret true);
      if is_bag && (IsBagPos pos || negb empty) then mret false
      else
        ok ← owner_allows it;
        if negb ok then mret false else b ← IsBoundByEnchant E it; mret (negb b).

(** ** An item changes *)

Definition delete_item (a : Z) : iw unit := item_at a;; modify (λ w, with_items (delete a (items w)) w).

Definition DeleteRefundReference (p it : Z) : iw unit :=
  upd_player p (λ pl, with_m_refundableItems (m_refundableItems pl ∖ {[it]}) pl).

(** [player] is the one the change is queued for. An item that was never saved is freed. *)
Definition SetState (a : Z) (state : ItemUpdateState) (player : option Z) : iw unit :=
  it ← item_at a;
  if bool_decide (uState it = ITEM_NEW) && bool_decide (state = ITEM_REMOVED) then
    p ← of_option player;
    emit (RemoveFromUpdateQueueOf a p);;
    DeleteRefundReference p (GUID_LOPART (i_guid it));;
    delete_item a
  else if bool_decide (state = ITEM_UNCHANGED) then upd_item a (with_uState ITEM_UNCHANGED)
  else
    (if bool_decide (uState it = ITEM_NEW) then mret tt else upd_item a (with_uState state));;
    emit (AddToUpdateQueueOf a player).

Definition SetNotRefundable (a p : Z) (changestate : bool) : iw unit :=
  it ← item_at a;
  if negb (has_flag it ITEM_FLAG_REFUNDABLE) then mret tt
  else
    upd_item a (λ it, with_IFlags (Z.land (IFlags it) (Z.lnot ITEM_FLAG_REFUNDABLE)) it);;
    (if changestate then SetState a ITEM_CHANGED (Some p) else mret tt);;
    upd_item a (λ it, with_m_refundRecipient 0 (with_m_paidMoney 0 (with_m_paidExtendedCost 0 it)));;
    DeleteRefundReference p (GUID_LOPART (i_guid it)).

Definition ClearSoulboundTradeable (a p : Z) : iw unit :=
  upd_item a (λ it, with_IFlags (Z.land (IFlags it) (Z.lnot ITEM_FLAG_BOP_TRADEABLE)) it);;
  it ← item_at a;
  if bool_decide (allowedGUIDs it = []) then mret tt
  else
    upd_item a (with_allowedGUIDs []);;
    SetState a ITEM_CHANGED (Some p);;
    emit (DeleteBopTrade (GUID_LOPART (i_guid it))).

Definition SetBinding (a : Z) : iw unit := upd_item a (λ it, with_IFlags (Z.lor (IFlags it) ITEM_FLAG_SOULBOUND) it).

(** [SetState(ITEM_CHANGED, GetOwner())] *)
Definition owner_changed (a : Z) : iw unit :=
  it ← item_at a; o ← FindPlayer (Owner it); SetState a ITEM_CHANGED ((λ _, Owner it) <$> o).

Definition ClearEnchantment (a slot : Z) : iw unit :=
  it ← item_at a;
  id ← enchantment_id it slot;
  if id =? 0 then mret tt
  else
    upd_item a (λ it, with_Enchantments (<[Z.to_nat slot := (0, 0, 0)]> (Enchantments it)) it);;
    owner_changed a.

Definition SetEnchantment (a slot id duration charges : Z) : iw unit :=
  it ← item_at a;
  e ← elem (Enchantments it) slot;
  if bool_decide (e = (id, duration, charges)) then mret tt
  else
    upd_item a (λ it, with_Enchantments (<[Z.to_nat slot := (id, duration, charges)]> (Enchantments it)) it);;
    owner_changed a.

Fixpoint set_enchantments (a slot : Z) (ids : list Z) : iw unit :=
  match ids with [] => mret tt | id :: ids => SetEnchantment a slot id 0 0;; set_enchantments a (slot + 1) ids end.

Definition SetItemRandomProperties (a randomPropId : Z) : iw unit :=
  if randomPropId =? 0 then mret tt
  else if 0 <? randomPropId then
    match sItemRandomPropertiesStore E randomPropId with
    | None => mret tt
    | Some (id, ids) =>
      it ← item_at a;
      (if negb (RandomProperty it =? swrap 32 id) then
         upd_item a (with_RandomProperty (swrap 32 id));; owner_changed a
       else mret tt);;
      set_enchantments a PROP_ENCHANTMENT_SLOT_2 (take 3 ids)
    end
  else
    match sItemRandomSuffixStore E (- randomPropId) with
    | None => mret tt
    | Some (id, ids) =>
      it ← item_at a;
      (if negb (RandomProperty it =? - swrap 32 id) || (SuffixFactor it =? 0) then
         upd_item a (λ it, with_SuffixFactor (GenerateEnchSuffixFactor E (Entry it)) (with_RandomProperty (- swrap 32 id) it));;
         owner_changed a
       else mret tt);;
      set_enchantments a PROP_ENCHANTMENT_SLOT_0 (take 3 ids)
    end.

(** ** A new item *)

Definition GenerateLowGuid : iw Z :=
  g ← gets m_hiItemGuid;
  (if 0xFFFFFFFE <=? g then emit StopNow else mret tt);;
  modify (with_m_hiItemGuid (uwrap 32 (g + 1)));;
  mret g.

(** [Item::Create] and [Bag::Create] for the owner [p]; the fields a new object has. *)
Definition Create (t : ItemTemplate) (guidlow entry p : Z) : option Item :=
  let is_bag := InventoryType t =? INVTYPE_BAG in
  if is_bag && (MAX_BAG_SIZE <? ContainerSlots t) then None
  else
    Some (mkItem (MAKE_NEW_GUID guidlow 0 HIGHGUID_ITEM) entry p p 0 0 1
      (if is_bag then 0 else Z.abs (TemplateDuration t)) 0 0 0 0 (TemplateDurability t) (TemplateDurability t)
      (if is_bag then replicate 5 0 else TemplateCharges t) (replicate (Z.to_nat MAX_ENCHANTMENT_SLOT) (0, 0, 0))
      false 0 None ITEM_NEW false 0 0 0 []
      (if is_bag then ContainerSlots t else 0)
      (if is_bag then replicate (Z.to_nat MAX_BAG_SIZE) 0 else [])
      (if is_bag then replicate (Z.to_nat MAX_BAG_SIZE) None else [])).

Definition CreateItem (entry count p : Z) : iw (option Z) :=
  if count <? 1 then mret None
  else
    match GetItemTemplate E entry with
    | None => throw AssertFailed
    | Some t =>
      let count := if GetMaxStackSize t <? count then GetMaxStackSize t else count in
      assert_ (negb (count =? 0));;
      guidlow ← GenerateLowGuid;
      match Create t guidlow entry p with
      | None => mret None
      | Some it =>
        a ← gets (λ w, fresh (dom (items w)));
        modify (λ w, with_items (<[a := with_Count count it]> (items w)) w);;
        mret (Some a)
      end
    end.

(** The low words of [ITEM_FIELD_CREATOR] and [ITEM_FIELD_GIFTCREATOR] are copied. *)
Definition low_word (from into : Z) : Z := Z.lor (Z.shiftl (Z.shiftr into 32) 32) (uwrap 32 from).

Definition CloneItem (a count p : Z) : iw (option Z) :=
  it ← item_at a;
  o ← CreateItem (Entry it) count p;
  match o with
  | None => mret None
  | Some b =>
    upd_item b (λ n, with_Creator (low_word (Creator it) (Creator n)) (with_GiftCreator (low_word (GiftCreator it) (GiftCreator n))
      (with_IFlags (IFlags it) (with_Duration (Duration it) n))));;
    SetItemRandomProperties b (RandomProperty it);;
    mret (Some b)
  end.

(** ** An item is stored *)

Definition Bag_StoreItem (b slot a : Z) : iw unit :=
  assert_ (slot <? MAX_BAG_SIZE);;
  bi ← item_at b;
  it ← item_at a;
  if i_guid it =? i_guid bi then mret tt
  else
    elem (m_bagslot bi) slot;;
    upd_item b (λ bi, with_SlotGuids (<[Z.to_nat slot := i_guid it]> (SlotGuids bi))
      (with_m_bagslot (<[Z.to_nat slot := Some a]> (m_bagslot bi)) bi));;
    upd_item a (λ it, with_m_slot slot (with_m_container (Some b) (with_Owner (Owner bi) (with_Contained (i_guid bi) it)))).

Definition Bag_RemoveItem (b slot : Z) : iw unit :=
  assert_ (slot <? MAX_BAG_SIZE);;
  bi ← item_at b;
  o ← elem (m_bagslot bi) slot;
  match o with Some a => upd_item a (with_m_container None) | None => mret tt end;;
  upd_item b (λ bi, with_SlotGuids (<[Z.to_nat slot := 0]> (SlotGuids bi))
    (with_m_bagslot (<[Z.to_nat slot := None]> (m_bagslot bi)) bi)).

Definition binds_at (t : ItemTemplate) (pos : Z) : bool :=
  (Bonding t =? BIND_WHEN_PICKED_UP) || (Bonding t =? BIND_QUEST_ITEM) ||
  ((Bonding t =? BIND_WHEN_EQUIPED) && IsBagPos pos).

Definition bind_at (a pos : Z) : iw unit :=
  it ← item_at a; t ← GetTemplate E it; if binds_at t pos then SetBinding a else mret tt.

(** A slot of the player's own array is an element of [m_items]. *)
Definition own_slot (p slot : Z) (o : option Z) (guid : Z) : iw unit :=
  pl ← player_at p;
  elem (m_items pl) slot;;
  upd_player p (λ pl, with_InvSlotGuids (<[Z.to_nat slot := guid]> (InvSlotGuids pl))
    (with_m_items (<[Z.to_nat slot := o]> (m_items pl)) pl)).

Definition store_empty (p pos a : Z) (update : bool) : iw unit :=
  let slot := pos_slot pos in
  bind_at a pos;;
  pBag ← (if pos_bag pos =? INVENTORY_SLOT_BAG_0 then mret None else GetBagByPos E p (pos_bag pos));
  match pBag with
  | None =>
    it ← item_at a;
    own_slot p slot (Some a) (i_guid it);;
    upd_item a (λ it, with_m_slot slot (with_m_container None (with_Owner p (with_Contained p it))));;
    (if (CURRENCYTOKEN_SLOT_START <=? slot) && (slot <? CURRENCYTOKEN_SLOT_END) then emit (AddKnownCurrency p (Entry it)) else mret tt)
  | Some b => Bag_StoreItem b slot a
  end;;
  pl ← player_at p;
  (if p_inWorld pl && update then emit (AddToWorld a);; emit (SendUpdateToPlayer a p) else mret tt);;
  SetState a ITEM_CHANGED (Some p);;
  match pBag with Some b => SetState b ITEM_CHANGED (Some p) | None => mret tt end;;
  emit (AddEnchantmentDurations p a);;
  emit (AddItemDurations p a).

Definition RemoveTradeableItem (p a : Z) : iw unit :=
  upd_player p (λ pl, with_m_itemSoulboundTradeable (filter (λ x, x ≠ a) (m_itemSoulboundTradeable pl)) pl).

(** The stack at [b] takes [count]; without [clone] the item at [a] is gone. *)
Definition store_merged (p pos a b count : Z) (clone update : bool) : iw unit :=
  bind_at b pos;;
  upd_item b (λ bi, with_Count (uwrap 32 (Count bi + count)) bi);;
  pl ← player_at p;
  (if p_inWorld pl && update then emit (SendUpdateToPlayer b p) else mret tt);;
  (if negb clone then
     (if p_inWorld pl && update then emit (LeaveWorld a p) else mret tt);;
     emit (RemoveEnchantmentDurations p a);;
     emit (RemoveItemDurations p a);;
     upd_item a (with_Owner p);;
     SetNotRefundable a p true;;
     ClearSoulboundTradeable a p;;
     RemoveTradeableItem p a;;
     SetState a ITEM_REMOVED (Some p)
   else mret tt);;
  emit (AddEnchantmentDurations p b);;
  SetState b ITEM_CHANGED (Some p).

Definition _StoreItem (p pos a count : Z) (clone update : bool) : iw (option Z) :=
  pItem2 ← GetItemByPos E p (pos_bag pos) (pos_slot pos);
  match pItem2 with
  | None =>
    o ← (if clone then CloneItem a count p else upd_item a (with_Count count);; mret (Some a));
    match o with
    | None => mret None
    | Some a => store_empty p pos a update;; mret (Some a)
    end
  | Some b => store_merged p pos a b count clone update;; mret (Some b)
  end.

(** Every position but the last takes a clone; the last takes the item itself. *)
Fixpoint StoreItem (p : Z) (dest : list (Z * Z)) (a : Z) (update : bool) : iw (option Z) :=
  match dest with
  | [] => mret (Some a)
  | [(pos, count)] => _StoreItem p pos a count false update
  | (pos, count) :: dest => _StoreItem p pos a count true update;; StoreItem p dest a update
  end.

(** ** An item is taken out *)

Definition unequip (p a slot : Z) : iw unit :=
  it ← item_at a;
  match GetItemTemplate E (Entry it) with
  | Some t => if negb (ItemSet t =? 0) then emit (RemoveItemsSetItem p (Entry it)) else mret tt
  | None => mret tt
  end;;
  emit (ApplyItemMods p a slot false);;
  if slot <? EQUIPMENT_SLOT_END then
    emit (RemoveItemDependentAurasAndCasts p a);;
    (if slot =? EQUIPMENT_SLOT_MAINHAND then
       (if negb (SuffixFactor it =? 0) then ClearEnchantment a PROP_ENCHANTMENT_SLOT_3;; ClearEnchantment a PROP_ENCHANTMENT_SLOT_4
        else ClearEnchantment a PROP_ENCHANTMENT_SLOT_0;; ClearEnchantment a PROP_ENCHANTMENT_SLOT_1);;
       emit (UpdateExpertise p 0)
     else if slot =? EQUIPMENT_SLOT_OFFHAND then emit (UpdateExpertise p 1) else mret tt);;
    (if (slot =? EQUIPMENT_SLOT_MAINHAND) || (slot =? EQUIPMENT_SLOT_OFFHAND) || (slot =? EQUIPMENT_SLOT_RANGED)
     then emit (RecalculateArmorPenetration p) else mret tt)
  else mret tt.

Definition RemoveItem (p bag slot : Z) (update : bool) : iw unit :=
  o ← GetItemByPos E p bag slot;
  match o with
  | None => mret tt
  | Some a =>
    emit (RemoveEnchantmentDurations p a);;
    emit (RemoveItemDurations p a);;
    RemoveTradeableItem p a;;
    (if bag =? INVENTORY_SLOT_BAG_0 then
       (if slot <? INVENTORY_SLOT_BAG_END then unequip p a slot else mret tt);;
       own_slot p slot None 0;;
       (if slot <? EQUIPMENT_SLOT_END then emit (SetVisibleItemSlot p slot None) else mret tt)
     else
       pBag ← GetBagByPos E p bag;
       match pBag with Some b => Bag_RemoveItem b slot | None => mret tt end);;
    upd_item a (λ it, with_m_slot NULL_SLOT (with_Contained 0 it));;
    pl ← player_at p;
    if p_inWorld pl && update then emit (SendUpdateToPlayer a p) else mret tt
  end.

Definition MoveItemFromInventory (p bag slot : Z) (update : bool) : iw unit :=
  o ← GetItemByPos E p bag slot;
  match o with
  | None => mret tt
  | Some a =>
    it ← item_at a;
    emit (QuestCheck p false (Entry it) (Count it));;
    RemoveItem p bag slot update;;
    SetNotRefundable a p false;;
    emit (RemoveFromUpdateQueueOf a p);;
    emit (LeaveWorld a p)
  end.

Definition MoveItemToInventory (p : Z) (dest : list (Z * Z)) (a : Z) (update in_characterInventoryDB : bool) : iw unit :=
  it ← item_at a;
  emit (QuestCheck p true (Entry it) (Count it));;
  emit (AchievementEpicItem p (Entry it) (Count it));;
  o ← StoreItem p dest a update;
  last ← of_option o;
  (if last =? a then
     it ← item_at a;
     (if negb (Owner it =? p) then upd_item a (with_Owner p) else mret tt);;
     SetState a (if in_characterInventoryDB then ITEM_CHANGED else ITEM_NEW) (Some p)
   else mret tt);;
  it ← item_at last;
  if has_flag it ITEM_FLAG_BOP_TRADEABLE then
    upd_player p (λ pl, with_m_itemSoulboundTradeable (m_itemSoulboundTradeable pl ++ [last]) pl)
  else mret tt.

(** ** Gold *)

Definition SendEquipError_plain (p msg : Z) : iw unit :=
  emit (SendPacket p SMSG_INVENTORY_CHANGE_FAILURE
    (pack (put_u8 msg;; (if negb (msg =? EQUIP_ERR_OK) then put_u64 0;; put_u64 0;; put_u8 0 else mret tt)))).

Definition HasEnoughMoney (pl : Player) (amount : Z) : bool := amount <=? Coinage pl.

Definition SetMoney (p value : Z) : iw unit := upd_player p (with_Coinage value);; emit (MoneyChanged p value).

(** [d] is an [int32]. *)
Definition ModifyMoney (p d : Z) : iw unit :=
  emit (OnPlayerMoneyChanged p d);;
  pl ← player_at p;
  let money := Coinage pl in
  if d <? 0 then
    SetMoney p (if uwrap 32 (- d) <? money then uwrap 32 (money + d) else 0)
  else if money <? uwrap 32 (MAX_MONEY_AMOUNT - d) then SetMoney p (uwrap 32 (money + d))
  else
    (if negb (d =? 0) then SendEquipError_plain p EQUIP_ERR_TOO_MUCH_GOLD else mret tt);;
    SetMoney p MAX_MONEY_AMOUNT.

End Changing.
