(* ===== verification/Trade.v ===== *)
(** * Trade: two players exchange items and gold

    src/src/server/game/Handlers/TradeHandler.cpp, and [TradeData] of
    src/src/server/game/Entities/Player/Player.cpp. [me] is the player of the session; the
    two sides of a trade are heap objects, each pointed to by its player. *)

From Stdlib Require Import ZArith Lia.
From S2P Require Import Prelude ByteBuffer Guid ItemData Inventory InventoryStore.
Local Open Scope Z_scope.

Definition SMSG_TRADE_STATUS : Z := 0x120.
Definition SMSG_TRADE_STATUS_EXTENDED : Z := 0x121.

Definition TRADE_STATUS_BUSY : Z := 0.
Definition TRADE_STATUS_BEGIN_TRADE : Z := 1.
Definition TRADE_STATUS_OPEN_WINDOW : Z := 2.
Definition TRADE_STATUS_TRADE_CANCELED : Z := 3.
Definition TRADE_STATUS_TRADE_ACCEPT : Z := 4.
Definition TRADE_STATUS_NO_TARGET : Z := 6.
Definition TRADE_STATUS_BACK_TO_TRADE : Z := 7.
Definition TRADE_STATUS_TRADE_COMPLETE : Z := 8.
Definition TRADE_STATUS_TARGET_TO_FAR : Z := 10.
Definition TRADE_STATUS_WRONG_FACTION : Z := 11.
Definition TRADE_STATUS_CLOSE_WINDOW : Z := 12.
Definition TRADE_STATUS_IGNORE_YOU : Z := 14.
Definition TRADE_STATUS_YOU_STUNNED : Z := 15.
Definition TRADE_STATUS_TARGET_STUNNED : Z := 16.
Definition TRADE_STATUS_YOU_DEAD : Z := 17.
Definition TRADE_STATUS_TARGET_DEAD : Z := 18.
Definition TRADE_STATUS_YOU_LOGOUT : Z := 19.
Definition TRADE_STATUS_TARGET_LOGOUT : Z := 20.
Definition TRADE_STATUS_ONLY_CONJURED : Z := 22.
Definition TRADE_STATUS_NOT_ELIGIBLE : Z := 23.

Definition LANG_NOT_ENOUGH_GOLD : Z := 801.
Definition LANG_NOT_FREE_TRADE_SLOTS : Z := 802.
Definition LANG_NOT_PARTNER_FREE_TRADE_SLOTS : Z := 803.
Definition LANG_TRADE_REQ : Z := 6609.
Definition LANG_TRADE_OTHER_REQ : Z := 6610.

Definition SPELL_CAST_OK : Z := 255.
Definition SEC_GAMEMASTER : Z := 2.

Section Trading.
Context (E : IEnv).

Definition trade_at (t : Z) : iw TradeData := td ← gets (λ w, trades w !! t); of_option td.
Definition upd_trade (t : Z) (f : TradeData → TradeData) : iw unit :=
  trade_at t;; modify (λ w, with_trades (alter f t (trades w)) w).

(** ** Messages *)

(** The session of a player: the player is there. *)
Definition send_to (p opcode : Z) (data : ByteBuffer) : iw unit := player_at p;; emit (SendPacket p opcode data).

Definition notify (p text : Z) : iw unit := player_at p;; emit (SendNotification p text).

Definition SendTradeStatus (p status : Z) : iw unit :=
  send_to p SMSG_TRADE_STATUS (pack
    (put_u32 status;;
     if status =? TRADE_STATUS_BEGIN_TRADE then put_u64 0
     else if status =? TRADE_STATUS_OPEN_WINDOW then put_u32 0
     else if status =? TRADE_STATUS_CLOSE_WINDOW then put_u32 0;; put_u8 0;; put_u32 0
     else if (status =? TRADE_STATUS_ONLY_CONJURED) || (status =? TRADE_STATUS_NOT_ELIGIBLE) then put_u8 0
     else mret tt)).

Definition SendCancelTrade (p : Z) : iw unit :=
  player_at p;;
  if loggedOutOrRecently E p then mret tt else SendTradeStatus p TRADE_STATUS_TRADE_CANCELED.

(** ** [TradeData] *)

Definition GetTraderData (td : TradeData) : iw (option Z) := pl ← player_at (m_trader td); mret (m_trade pl).

Definition GetItem (td : TradeData) (slot : Z) : iw (option Z) :=
  guid ← elem (t_items td) slot;
  if negb (guid =? 0) then GetItemByGuid E (m_player td) guid else mret None.

Definition HasItem (td : TradeData) (guid : Z) : bool := bool_decide (guid ∈ t_items td).

Definition GetTradeSlotForItem (td : TradeData) (guid : Z) : Z :=
  match list_find (λ g, g = guid) (t_items td) with Some (i, _) => Z.of_nat i | None => TRADE_SLOT_INVALID end.

Definition HasSpellCastItem (td : TradeData) : bool := negb (m_spellCastItem td =? 0).

Definition GetSpellCastItem (td : TradeData) : iw (option Z) :=
  if HasSpellCastItem td then GetItemByGuid E (m_player td) (m_spellCastItem td) else mret None.

(** One line of [SendUpdateTrade]. *)
Definition put_trade_slot (i : Z) (o : option (Item * ItemTemplate)) (enchants : list Z) : bb unit :=
  put_u8 i;;
  match o with
  | Some (it, t) =>
    put_u32 (ItemId t);; put_u32 (DisplayInfoID t);; put_u32 (Count it);;
    put_u32 (if has_flag it ITEM_FLAG_WRAPPED then 1 else 0);; put_u64 (GiftCreator it);;
    append_array 4 enchants;;
    put_u64 (Creator it);; put_u32 (default 0 (SpellCharges it !! 0%nat));; put_u32 (SuffixFactor it);;
    put_u32 (RandomProperty it);; put_u32 (LockID t);; put_u32 (MaxDurability it);; put_u32 (Durability it)
  | None => append_array 4 (replicate 18 0)
  end.

Definition trade_slot (td : TradeData) (i : Z) : iw (bb unit) :=
  o ← GetItem td i;
  match o with
  | Some a =>
    it ← item_at a;
    t ← GetTemplate E it;
    perm ← enchantment_id it PERM_ENCHANTMENT_SLOT;
    socks ← each_of (enchantment_id it) (slots SOCK_ENCHANTMENT_SLOT (SOCK_ENCHANTMENT_SLOT + MAX_GEM_SOCKETS));
    mret (put_trade_slot i (Some (it, t)) (perm :: socks))
  | None => mret (put_trade_slot i None [])
  end.

(** To the player [p]: the offer of the other one, or his own. *)
Definition SendUpdateTrade (p : Z) (trader_data : bool) : iw unit :=
  pl ← player_at p;
  my ← of_option (m_trade pl);
  td ← trade_at my;
  view ← (if trader_data then GetTraderData td else mret (Some my));
  view ← of_option view;
  vd ← trade_at view;
  lines ← each_of (trade_slot vd) (slots 0 TRADE_SLOT_COUNT);
  send_to p SMSG_TRADE_STATUS_EXTENDED (pack
    (put_u8 (if trader_data then 1 else 0);; put_u32 0;; put_u32 TRADE_SLOT_COUNT;; put_u32 TRADE_SLOT_COUNT;;
     put_u32 (m_money vd);; put_u32 (m_spell vd);;
     foldr (λ line rest, (line : bb unit);; rest) (mret tt) lines)).

Definition Update (td : TradeData) (forTarget : bool) : iw unit :=
  if forTarget then SendUpdateTrade (m_trader td) true else SendUpdateTrade (m_player td) false.

Definition SetAccepted (t : Z) (state crosssend : bool) : iw unit :=
  upd_trade t (with_m_accepted state);;
  if negb state then
    td ← trade_at t;
    SendTradeStatus (if crosssend then m_trader td else m_player td) TRADE_STATUS_BACK_TO_TRADE
  else mret tt.

(** [SetAccepted(false); GetTraderData()->SetAccepted(false);] *)
Definition unaccept_both (t : Z) : iw unit :=
  SetAccepted t false false;;
  td ← trade_at t;
  o ← GetTraderData td;
  his ← of_option o;
  SetAccepted his false false.

Definition guid_of (o : option Z) : iw Z :=
  match o with Some a => it ← item_at a; mret (i_guid it) | None => mret 0 end.

Definition SetSpell (t spell_id : Z) (castItem : option Z) : iw unit :=
  itemGuid ← guid_of castItem;
  td ← trade_at t;
  if (m_spell td =? spell_id) && (m_spellCastItem td =? itemGuid) then mret tt
  else
    upd_trade t (λ td, with_m_spellCastItem itemGuid (with_m_spell spell_id td));;
    unaccept_both t;;
    Update td true;;
    Update td false.

Definition SetItem (t slot : Z) (item : option Z) : iw unit :=
  itemGuid ← guid_of item;
  td ← trade_at t;
  old ← elem (t_items td) slot;
  if old =? itemGuid then mret tt
  else
    upd_trade t (λ td, with_t_items (<[Z.to_nat slot := itemGuid]> (t_items td)) td);;
    unaccept_both t;;
    Update td true;;
    (if slot =? TRADE_SLOT_NONTRADED then
       o ← GetTraderData td; his ← of_option o; SetSpell his 0 None
     else mret tt);;
    SetSpell t 0 None.

Definition SetTradeMoney (t money : Z) : iw unit :=
  td ← trade_at t;
  if m_money td =? money then mret tt
  else
    upd_trade t (with_m_money money);;
    unaccept_both t;;
    Update td true.

(** The constructor leaves [m_spellCastItem] and [m_items] as the memory was: [uninitialised]
    gives the words it held, any words, and reading them later is no fault. *)
Definition new_TradeData (player trader : Z) : iw Z :=
  '(junk, stale) ← gets (uninitialised E);
  t ← gets (λ w, fresh (dom (trades w)));
  modify (λ w, with_trades (<[t := mkTrade player trader false false 0 0 junk
                               (take (Z.to_nat TRADE_SLOT_COUNT) (stale ++ replicate (Z.to_nat TRADE_SLOT_COUNT) 0))]> (trades w)) w);;
  mret t.

Definition delete_trade (o : option Z) : iw unit :=
  match o with Some t => trade_at t;; modify (λ w, with_trades (delete t (trades w)) w) | None => mret tt end.

(** [delete p->m_trade; p->m_trade = NULL;] *)
Definition drop_trade (p : Z) : iw unit :=
  pl ← player_at p; delete_trade (m_trade pl);; upd_player p (with_m_trade None).

Definition TradeCancel (p : Z) (sendback : bool) : iw unit :=
  pl ← player_at p;
  match m_trade pl with
  | None => mret tt
  | Some t =>
    td ← trade_at t;
    (if sendback then SendCancelTrade p else mret tt);;
    SendCancelTrade (m_trader td);;
    drop_trade p;;
    drop_trade (m_trader td)
  end.

(** ** The items change hands *)

Abbreviation traded := (list (option Z)) (only parsing).

(** [from] gives the item to [to]. *)
Definition give (from to : Z) (dst : list (Z * Z)) (o : option Z) : iw unit :=
  match o with
  | None => mret tt
  | Some a =>
    it ← item_at a;
    (if SEC_GAMEMASTER <=? GetSecurity E from then emit (LogTrade from (Entry it) (Count it) to) else mret tt);;
    (if has_flag it ITEM_FLAG_BOP_TRADEABLE then
       upd_item a (λ it, with_CreatePlayedTime
         (uwrap 32 (GetTotalPlayedTime E to - (GetTotalPlayedTime E from - CreatePlayedTime it))) it)
     else mret tt);;
    MoveItemToInventory E to dst a true true
  end.

(** The item goes back to its owner, if he can take it. *)
Definition give_back (owner : Z) (dst : list (Z * Z)) (o : option Z) : iw unit :=
  match o with
  | None => mret tt
  | Some a =>
    sr ← CanStoreItem_item E owner NULL_BAG NULL_SLOT dst (Some a) false;
    if sr_res sr =? EQUIP_ERR_OK then MoveItemToInventory E owner (sr_dest sr) a true true else mret tt
  end.

Definition can_take (p : Z) (o : option Z) : iw (bool * list (Z * Z)) :=
  match o with
  | None => mret (true, [])
  | Some a => sr ← CanStoreItem_item E p NULL_BAG NULL_SLOT [] (Some a) false; mret (sr_res sr =? EQUIP_ERR_OK, sr_dest sr)
  end.

Definition move_pair (me trader : Z) (my his : option Z) : iw unit :=
  '(traderCanTrade, traderDst) ← can_take trader my;
  '(playerCanTrade, playerDst) ← can_take me his;
  if traderCanTrade && playerCanTrade then
    give me trader traderDst my;;
    give trader me playerDst his
  else
    give_back me playerDst my;;
    give_back trader traderDst his.

Fixpoint each_pair (f : option Z → option Z → iw unit) (mine his : list (option Z)) : iw unit :=
  match mine, his with
  | a :: mine, b :: his => f a b;; each_pair f mine his
  | _, _ => mret tt
  end.

Definition GetTrader (pl : Player) : iw (option Z) :=
  match m_trade pl with Some t => td ← trade_at t; mret (Some (m_trader td)) | None => mret None end.

Definition moveItems (me : Z) (myItems hisItems : traded) : iw unit :=
  pl ← player_at me;
  o ← GetTrader pl;
  match o with None => mret tt | Some trader => each_pair (move_pair me trader) myItems hisItems end.

Definition set_in_trade (b : bool) (o : option Z) : iw unit :=
  match o with Some a => upd_item a (with_mb_in_trade b) | None => mret tt end.

(** The items of slot [i] on both sides, flagged. *)
Definition accept_slot (my his i : Z) : iw (option Z * option Z) :=
  md ← trade_at my; a ← GetItem md i; set_in_trade true a;;
  hd ← trade_at his; b ← GetItem hd i; set_in_trade true b;;
  mret (a, b).

Definition setAcceptTradeMode (my his : Z) : iw (traded * traded) :=
  upd_trade my (with_m_acceptProccess true);;
  upd_trade his (with_m_acceptProccess true);;
  l ← each_of (accept_slot my his) (slots 0 TRADE_SLOT_TRADED_COUNT);
  mret (l.*1, l.*2).

Definition clearAcceptTradeMode (my his : Z) : iw unit :=
  upd_trade my (with_m_acceptProccess false);; upd_trade his (with_m_acceptProccess false).

Definition clearAcceptTradeMode_items (myItems hisItems : traded) : iw unit :=
  each_pair (λ a b, set_in_trade false a;; set_in_trade false b) myItems hisItems.

(** ** Accepting *)

(** With [true] the trade is not accepted. *)
Fixpoint refused_items (me trader my his : Z) (l : list Z) : iw bool :=
  match l with
  | [] => mret false
  | i :: l =>
    md ← trade_at my;
    a ← GetItem md i;
    refused ← match a with
              | Some a =>
                ok ← CanBeTraded E a false true;
                if negb ok then SendTradeStatus me TRADE_STATUS_TRADE_CANCELED;; mret true
                else
                  it ← item_at a;
                  b ← IsBindedNotWith E it trader;
                  if b : bool then
                    SendTradeStatus me TRADE_STATUS_NOT_ELIGIBLE;; SendTradeStatus me TRADE_STATUS_CLOSE_WINDOW;; mret true
                  else mret false
              | None => mret false
              end;
    if refused : bool then mret true
    else
      hd ← trade_at his;
      b ← GetItem hd i;
      refused ← match b with
                | Some b =>
                  ok ← CanBeTraded E b false true;
                  if negb ok then SendTradeStatus me TRADE_STATUS_TRADE_CANCELED;; mret true else mret false
                | None => mret false
                end;
      if refused : bool then mret true else refused_items me trader my his l
  end.

(** Why the spell of the side [t] cannot be cast: the spell or its item is gone ([inl]), or
    the cast is refused ([inr]). *)
Definition spell_fault (t other : Z) : iw (option (unit + Z)) :=
  td ← trade_at t;
  castItem ← GetSpellCastItem td;
  od ← trade_at other;
  target ← GetItem od TRADE_SLOT_NONTRADED;
  if negb (HasSpellInfo E (m_spell td)) || negb (bool_decide (is_Some target)) ||
     (HasSpellCastItem td && negb (bool_decide (is_Some castItem)))
  then mret (Some (inl tt))
  else
    res ← gets (λ w, CheckCast E w (m_player td) (m_spell td) castItem);
    mret (if res =? SPELL_CAST_OK then None else Some (inr res)).

Definition prepare_spell (t : Z) (td : TradeData) (castItem : option Z) : iw unit :=
  if negb (m_spell td =? 0) then emit (SpellPrepare (m_player td) (m_spell td) castItem) else mret tt.

(** Both spells can be cast; with [false] the trade goes on without being completed. *)
Definition check_spells (my his : Z) (myItems hisItems : traded) : iw bool :=
  let clear := clearAcceptTradeMode my his;; clearAcceptTradeMode_items myItems hisItems in
  md ← trade_at my;
  f ← (if negb (m_spell md =? 0) then spell_fault my his else mret None);
  match f with
  | Some f =>
    match f with inr res => emit (SendCastResult (m_player md) (m_spell md) res) | inl _ => mret tt end;;
    clear;;
    SetSpell my 0 None;;
    mret false
  | None =>
    hd ← trade_at his;
    f ← (if negb (m_spell hd =? 0) then spell_fault his my else mret None);
    match f with
    | Some (inl _) => SetSpell his 0 None;; clear;; mret false
    | Some (inr res) =>
      emit (SendCastResult (m_player hd) (m_spell hd) res);; clear;; SetSpell his 0 None;; mret false
    | None => mret true
    end
  end.

(** Execute trade: 1. remove. *)
Definition remove_item (p : Z) (o : option Z) : iw unit :=
  match o with
  | None => mret tt
  | Some a =>
    upd_item a (with_GiftCreator p);;
    it ← item_at a;
    bag ← GetBagSlot it;
    MoveItemFromInventory E p bag (m_slot it) true
  end.

Definition remove_items (me trader : Z) (myItems hisItems : traded) : iw unit :=
  each_pair (λ a b, remove_item me a;; remove_item trader b) myItems hisItems.

(** [-int32(money)] *)
Definition negative (money : Z) : iw Z := int32 (- swrap 32 money).

Definition exchange_money (me trader my_money his_money : Z) : iw unit :=
  m ← negative my_money;
  ModifyMoney me m;;
  ModifyMoney me (swrap 32 his_money);;
  h ← negative his_money;
  ModifyMoney trader h;;
  ModifyMoney trader (swrap 32 my_money).

(** Nothing on the way changes the gold and the spells of the offers, so they are read once,
    at the start; the text that game masters' trades leave in the log is left out. *)
Definition execute_trade (me trader my his : Z) (myItems hisItems : traded) : iw unit :=
  md ← trade_at my;
  hd ← trade_at his;
  myCast ← GetSpellCastItem md;
  hisCast ← GetSpellCastItem hd;
  remove_items me trader myItems hisItems;;
  moveItems me myItems hisItems;;
  exchange_money me trader (m_money md) (m_money hd);;
  prepare_spell my md myCast;;
  prepare_spell his hd hisCast;;
  clearAcceptTradeMode my his;;
  drop_trade me;;
  drop_trade trader;;
  emit BeginTransaction;;
  emit (SaveInventoryAndGold me);;
  emit (SaveInventoryAndGold trader);;
  emit CommitTransaction;;
  SendTradeStatus trader TRADE_STATUS_TRADE_COMPLETE;;
  SendTradeStatus me TRADE_STATUS_TRADE_COMPLETE.

Definition no_room (mine his my_text his_text my his_trade : Z) : iw unit :=
  clearAcceptTradeMode my his_trade;;
  notify mine my_text;;
  notify his his_text;;
  SetAccepted my false false;;
  SetAccepted his_trade false false.

(** Both have accepted. *)
Definition complete_trade (me trader my his : Z) : iw unit :=
  '(myItems, hisItems) ← setAcceptTradeMode my his;
  ok ← check_spells my his myItems hisItems;
  if negb ok then mret tt
  else
    SendTradeStatus trader TRADE_STATUS_TRADE_ACCEPT;;
    hisRes ← CanStoreItems E trader myItems;
    myRes ← CanStoreItems E me hisItems;
    clearAcceptTradeMode_items myItems hisItems;;
    if negb (myRes =? EQUIP_ERR_OK) then
      no_room me trader LANG_NOT_FREE_TRADE_SLOTS LANG_NOT_PARTNER_FREE_TRADE_SLOTS my his
    else if negb (hisRes =? EQUIP_ERR_OK) then
      no_room me trader LANG_NOT_PARTNER_FREE_TRADE_SLOTS LANG_NOT_FREE_TRADE_SLOTS my his
    else execute_trade me trader my his myItems hisItems.

Definition HandleAcceptTradeOpcode (me : Z) : iw unit :=
  pl ← player_at me;
  match m_trade pl with
  | None => mret tt
  | Some my =>
    md ← trade_at my;
    let trader := m_trader md in
    tpl ← player_at trader;
    match m_trade tpl with
    | None => mret tt
    | Some his =>
      SetAccepted my true false;;
      md ← trade_at my;
      hd ← trade_at his;
      if negb (HasEnoughMoney pl (m_money md)) then
        notify me LANG_NOT_ENOUGH_GOLD;; SetAccepted my false true
      else if negb (HasEnoughMoney tpl (m_money hd)) then
        notify trader LANG_NOT_ENOUGH_GOLD;; SetAccepted his false true
      else
        refused ← refused_items me trader my his (slots 0 TRADE_SLOT_TRADED_COUNT);
        if refused : bool then mret tt
        else
          if m_accepted hd then complete_trade me trader my his
          else SendTradeStatus trader TRADE_STATUS_TRADE_ACCEPT
    end
  end.

(** ** The other opcodes *)

Definition HandleUnacceptTradeOpcode (me : Z) : iw unit :=
  pl ← player_at me;
  match m_trade pl with None => mret tt | Some my => SetAccepted my false true end.

Definition HandleBeginTradeOpcode (me : Z) : iw unit :=
  pl ← player_at me;
  match m_trade pl with
  | None => mret tt
  | Some my =>
    td ← trade_at my;
    SendTradeStatus (m_trader td) TRADE_STATUS_OPEN_WINDOW;;
    SendTradeStatus me TRADE_STATUS_OPEN_WINDOW
  end.

Definition HandleCancelTradeOpcode (me : Z) : iw unit := TradeCancel me true.

(** Reads the packet; a [ByteBufferException] ends the handler. *)
Definition parse {A} (d : bb A) (recvPacket : ByteBuffer) (k : A → iw unit) : iw unit :=
  match d recvPacket with
  | (Ret a, _) => k a
  | (Throw (ByteBufferException _ _ _ _), _) => mret tt
  | (Throw _, _) => throw Undefined
  end.

(** Why a trade cannot start, before the other player is looked for and after. *)
Definition cannot_trade (me : Z) : option Z :=
  if negb (isAlive E me) then Some TRADE_STATUS_YOU_DEAD
  else if isStunned E me then Some TRADE_STATUS_YOU_STUNNED
  else if isLogingOut E me then Some TRADE_STATUS_YOU_LOGOUT
  else if isInFlight E me then Some TRADE_STATUS_TARGET_TO_FAR
  else None.

Definition cannot_trade_with (me other : Z) (pl : Player) : option Z :=
  if (other =? me) || bool_decide (is_Some (m_trade pl)) then Some TRADE_STATUS_BUSY
  else if negb (isAlive E other) then Some TRADE_STATUS_TARGET_DEAD
  else if isInFlight E other then Some TRADE_STATUS_TARGET_TO_FAR
  else if isStunned E other then Some TRADE_STATUS_TARGET_STUNNED
  else if isLogingOut E other then Some TRADE_STATUS_TARGET_LOGOUT
  else if HasIgnore E other (GUID_LOPART me) then Some TRADE_STATUS_IGNORE_YOU
  else if negb (CONFIG_ALLOW_TWO_SIDE_TRADE E) && negb (GetTeam E other =? GetTeam E me) then Some TRADE_STATUS_WRONG_FACTION
  else if negb (IsWithinTradeDist E other me) then Some TRADE_STATUS_TARGET_TO_FAR
  else None.

Definition start_trade (me other : Z) : iw unit :=
  t ← new_TradeData me other;
  upd_player me (with_m_trade (Some t));;
  t ← new_TradeData other me;
  upd_player other (with_m_trade (Some t));;
  send_to other SMSG_TRADE_STATUS (pack (put_u32 TRADE_STATUS_BEGIN_TRADE;; put_u64 me)).

Definition HandleInitiateTradeOpcode (me : Z) (recvPacket : ByteBuffer) : iw unit :=
  pl ← player_at me;
  if bool_decide (is_Some (m_trade pl)) then mret tt
  else
    parse get_u64 recvPacket (λ ID,
      match cannot_trade me with
      | Some status => SendTradeStatus me status
      | None =>
        if getLevel E me <? CONFIG_TRADE_LEVEL_REQ E then notify me LANG_TRADE_REQ
        else
          o ← FindPlayer ID;
          match o with
          | None => SendTradeStatus me TRADE_STATUS_NO_TARGET
          | Some other =>
            match cannot_trade_with me ID other with
            | Some status => SendTradeStatus me status
            | None =>
              if getLevel E ID <? CONFIG_TRADE_LEVEL_REQ E then notify me LANG_TRADE_OTHER_REQ
              else start_trade me ID
            end
          end
      end).

Definition HandleSetTradeGoldOpcode (me : Z) (recvPacket : ByteBuffer) : iw unit :=
  parse get_u32 recvPacket (λ gold,
    pl ← player_at me;
    match m_trade pl with None => mret tt | Some my => SetTradeMoney my gold end).

Definition HandleSetTradeItemOpcode (me : Z) (recvPacket : ByteBuffer) : iw unit :=
  parse (tradeSlot ← get_u8; bag ← get_u8; slot ← get_u8; mret (tradeSlot, bag, slot)) recvPacket (λ '(tradeSlot, bag, slot),
    pl ← player_at me;
    match m_trade pl with
    | None => mret tt
    | Some my =>
      if TRADE_SLOT_COUNT <=? tradeSlot then SendTradeStatus me TRADE_STATUS_TRADE_CANCELED
      else
        o ← GetItemByPos E me bag slot;
        match o with
        | None => SendTradeStatus me TRADE_STATUS_TRADE_CANCELED
        | Some a =>
          ok ← (if tradeSlot =? TRADE_SLOT_NONTRADED then mret true else CanBeTraded E a false true);
          if negb ok then SendTradeStatus me TRADE_STATUS_TRADE_CANCELED
          else
            it ← item_at a;
            td ← trade_at my;
            if HasItem td (i_guid it) then SendTradeStatus me TRADE_STATUS_TRADE_CANCELED
            else SetItem my tradeSlot (Some a)
        end
    end).

Definition HandleClearTradeItemOpcode (me : Z) (recvPacket : ByteBuffer) : iw unit :=
  parse get_u8 recvPacket (λ tradeSlot,
    pl ← player_at me;
    match m_trade pl with
    | None => mret tt
    | Some my => if TRADE_SLOT_COUNT <=? tradeSlot then mret tt else SetItem my tradeSlot None
    end).

(** [Spell::cast] of a spell on the item that is not traded. *)
Definition cast_on_trade_slot (me spell : Z) (castItem : option Z) : iw unit :=
  pl ← player_at me;
  match m_trade pl with
  | None => mret tt
  | Some my => td ← trade_at my; if m_acceptProccess td then mret tt else SetSpell my spell castItem
  end.

End Trading.
