(* ===== verification/ItemFacts.v ===== *)
(** * ItemFacts: where items are, and that looking at them never faults

    [at_pos] says what is in a position; [inv_ok] is the invariant of items and the players
    who carry them. [yields w m Q] is a program that only looks: in [w] it answers as [Q]
    says and changes nothing. *)

From Stdlib Require Import ZArith Lia.
From S2P Require Import Prelude ByteBuffer Guid ItemData Inventory InventoryStore.
Local Open Scope Z_scope.

(** ** Programs that only look *)

Definition yields {A} (w : World) (m : iw A) (Q : A → Prop) : Prop := ∃ x, m w = (Ret x, w) ∧ Q x.

Lemma yields_ret {A} w (x : A) (Q : A → Prop) : Q x → yields w (mret x) Q.
Proof. intros H. by exists x. Qed.

Lemma yields_bind {A B} w (m : iw A) (k : A → iw B) (P : A → Prop) (Q : B → Prop) :
  yields w m P → (∀ x, P x → yields w (k x) Q) → yields w (m ≫= k) Q.
Proof. intros (x & E1 & H1) H2. destruct (H2 x H1) as (y & E2 & Hy). exists y. split; [|done]. by rewrite (bind_ret_run _ _ _ _ _ E1). Qed.

Lemma yields_mono {A} w (m : iw A) (P Q : A → Prop) : yields w m P → (∀ x, P x → Q x) → yields w m Q.
Proof. intros (x & E1 & H1) H. exists x. auto. Qed.

Lemma yields_any {A} w (m : iw A) (P : A → Prop) : yields w m P → yields w m (λ _, True).
Proof. intros H. by eapply yields_mono. Qed.

Lemma yields_eq {A} w (m : iw A) x (Q : A → Prop) : m w = (Ret x, w) → Q x → yields w m Q.
Proof. intros H ?. by exists x. Qed.

Lemma yields_gets {A} w (f : World → A) (Q : A → Prop) : Q (f w) → yields w (gets f) Q.
Proof. intros H. by exists (f w). Qed.

Lemma yields_item w a it (Q : Item → Prop) : items w !! a = Some it → Q it → yields w (item_at a) Q.
Proof. intros H HQ. exists it. split; [|done]. unfold item_at, mbind, prog_bind, gets, of_option. by rewrite H. Qed.

Lemma yields_player w p pl (Q : Player → Prop) : players w !! p = Some pl → Q pl → yields w (player_at p) Q.
Proof. intros H HQ. exists pl. split; [|done]. unfold player_at, FindPlayer, mbind, prog_bind, gets, of_option. by rewrite H. Qed.

Lemma yields_option {A} w (o : option A) x (Q : A → Prop) : o = Some x → Q x → yields w (of_option o) Q.
Proof. intros -> H. by exists x. Qed.

Lemma yields_elem {A} w (l : list A) i x (Q : A → Prop) : l !! Z.to_nat i = Some x → Q x → yields w (elem l i) Q.
Proof. apply yields_option. Qed.

Lemma yields_first {A B} w (f : A → iw (option B)) (l : list A) (Q : B → Prop) :
  (∀ x, x ∈ l → yields w (f x) (λ o, ∀ b, o = Some b → Q b)) → yields w (first_of f l) (λ o, ∀ b, o = Some b → Q b).
Proof.
  induction l as [|x l IH]; intros H; cbn [first_of]; [by apply yields_ret|].
  eapply yields_bind; [apply H; by left|]. intros [b|] Hb; [by apply yields_ret|]. apply IH. intros y Hy. apply H. by right.
Qed.

Lemma yields_sum {A} w (f : A → iw Z) (l : list A) :
  (∀ x, x ∈ l → yields w (f x) (λ _, True)) → yields w (sum_of f l) (λ _, True).
Proof.
  induction l as [|x l IH]; intros H; cbn [sum_of]; [by apply yields_ret|].
  eapply yields_bind; [apply H; by left|]. intros c _.
  eapply yields_bind; [apply IH; intros y Hy; apply H; by right|]. intros r _. by apply yields_ret.
Qed.

Lemma yields_each {A B} w (f : A → iw B) (l : list A) (Q : B → Prop) :
  (∀ x, x ∈ l → yields w (f x) Q) → yields w (each_of f l) (λ ys, Forall Q ys ∧ length ys = length l).
Proof.
  induction l as [|x l IH]; intros H; cbn [each_of]; [by apply yields_ret|].
  eapply yields_bind; [apply H; by left|]. intros y Hy.
  eapply yields_bind; [apply IH; intros z Hz; apply H; by right|]. intros ys [Hys Hlen].
  apply yields_ret. split; [by constructor|]. simpl. by rewrite Hlen.
Qed.

Lemma elem_of_slots i first last : i ∈ slots first last ↔ first ≤ i < last.
Proof. unfold slots. rewrite elem_of_seqZ. lia. Qed.

Lemma lookup_range {A} (l : list A) i n : length l = n → 0 ≤ i < Z.of_nat n → is_Some (l !! Z.to_nat i).
Proof. intros <- H. apply lookup_lt_is_Some. lia. Qed.

(** Arithmetic on slot numbers. *)
Ltac slot_lia :=
  unfold EQUIPMENT_SLOT_START, EQUIPMENT_SLOT_END, INVENTORY_SLOT_BAG_START, INVENTORY_SLOT_BAG_END, INVENTORY_SLOT_ITEM_START,
    INVENTORY_SLOT_ITEM_END, BANK_SLOT_ITEM_START, BANK_SLOT_ITEM_END, BANK_SLOT_BAG_START, BANK_SLOT_BAG_END,
    BUYBACK_SLOT_START, BUYBACK_SLOT_END, KEYRING_SLOT_START, KEYRING_SLOT_END, CURRENCYTOKEN_SLOT_START, CURRENCYTOKEN_SLOT_END,
    PLAYER_SLOT_END, INVENTORY_SLOT_BAG_0, NULL_BAG, NULL_SLOT, MAX_BAG_SIZE, PERM_ENCHANTMENT_SLOT, SOCK_ENCHANTMENT_SLOT,
    MAX_GEM_SOCKETS, PROP_ENCHANTMENT_SLOT_0, PROP_ENCHANTMENT_SLOT_1, PROP_ENCHANTMENT_SLOT_2, PROP_ENCHANTMENT_SLOT_3,
    PROP_ENCHANTMENT_SLOT_4, MAX_ENCHANTMENT_SLOT, TRADE_SLOT_COUNT, TRADE_SLOT_TRADED_COUNT, TRADE_SLOT_NONTRADED in *; lia.

(** ** Positions *)

Section Positions.
Context (E : IEnv).

Definition is_bag (it : Item) : bool :=
  match GetItemTemplate E (Entry it) with Some t => InventoryType t =? INVTYPE_BAG | None => false end.

Definition own_at (pl : Player) (slot : Z) : option Z := mjoin (m_items pl !! Z.to_nat slot).

Definition bag_at (w : World) (p bag : Z) : option Z :=
  if is_bag_slot bag then
    pl ← players w !! p; b ← own_at pl bag; bi ← items w !! b; if is_bag bi then Some b else None
  else None.

Definition in_bag (w : World) (b slot : Z) : option Z :=
  bi ← items w !! b; if slot <? NumSlots bi then mjoin (m_bagslot bi !! Z.to_nat slot) else None.

(** The item in a position of a player. *)
Definition at_pos (w : World) (p bag slot : Z) : option Z :=
  if (bag =? INVENTORY_SLOT_BAG_0) && in_own_array slot then pl ← players w !! p; own_at pl slot
  else b ← bag_at w p bag; in_bag w b slot.

(** The bag object of a position; the player's own array is none. *)
Definition container_at (w : World) (p bag : Z) : option Z :=
  if bag =? INVENTORY_SLOT_BAG_0 then None else bag_at w p bag.

(** ** The invariant *)

Record good (it : Item) (t : ItemTemplate) : Prop := {
  good_template : GetItemTemplate E (Entry it) = Some t;
  good_id : ItemId t = Entry it;
  good_count : 0 < Count it ≤ GetMaxStackSize t;
  good_stack : in_s 32 (Stackable t);
  good_enchants : length (Enchantments it) = Z.to_nat MAX_ENCHANTMENT_SLOT;
  good_bag : InventoryType t = INVTYPE_BAG →
    length (m_bagslot it) = Z.to_nat MAX_BAG_SIZE ∧ NumSlots it = ContainerSlots t ∧ 0 ≤ ContainerSlots t ≤ MAX_BAG_SIZE
}.

Record inv_ok (w : World) : Prop := {
  ok_array : ∀ p pl, players w !! p = Some pl → length (m_items pl) = Z.to_nat PLAYER_SLOT_END;
  ok_item : ∀ a it, items w !! a = Some it → ∃ t, good it t;
  ok_live : ∀ p pl slot a, players w !! p = Some pl → is_bag_slot slot = true → own_at pl slot = Some a →
    ∃ it, items w !! a = Some it ∧ is_bag it = true;
  ok_place : ∀ p bag slot a, 0 ≤ slot → at_pos w p bag slot = Some a →
    ∃ it, items w !! a = Some it ∧ Owner it = p ∧ m_slot it = slot ∧ m_container it = container_at w p bag;
  ok_counter : in_u 32 (m_hiItemGuid w);
  ok_guid : ∀ a it, items w !! a = Some it →
    ∃ low, 0 ≤ low < m_hiItemGuid w ∧ i_guid it = MAKE_NEW_GUID low 0 HIGHGUID_ITEM;
  ok_unique : ∀ a b it it', items w !! a = Some it → items w !! b = Some it' → i_guid it = i_guid it' → a = b
}.

Definition here (w : World) (p : Z) : Prop := is_Some (players w !! p).
Definition live (w : World) (a : Z) : Prop := is_Some (items w !! a).

Lemma good_max it t : good it t → 0 < GetMaxStackSize t < 2 ^ 31.
Proof.
  intros Ht. destruct (good_stack it t Ht) as [_ Hs]. unfold GetMaxStackSize in *. pow_consts.
  destruct (Z.eqb_spec (Stackable t) 2147483647), (Z.leb_spec (Stackable t) 0); simpl; lia.
Qed.

(** ** Looking at positions *)

Section Look.
Context (w : World) (Hw : inv_ok w).

Lemma yields_template a it (Q : ItemTemplate → Prop) :
  items w !! a = Some it → (∀ t, good it t → Q t) → yields w (GetTemplate E it) Q.
Proof. intros Ha HQ. destruct (ok_item w Hw a it Ha) as [t Ht]. eapply yields_option; [apply Ht|]. by apply HQ. Qed.

Lemma yields_good a it : items w !! a = Some it → yields w (GetTemplate E it) (good it).
Proof. intros Ha. by eapply yields_template. Qed.

Lemma yields_IsBag a it : items w !! a = Some it → yields w (IsBag E it) (λ b, b = is_bag it).
Proof.
  intros Ha. eapply yields_bind; [by eapply yields_good|]. intros t Ht. apply yields_ret. unfold is_bag.
  by rewrite (good_template it t Ht).
Qed.

Lemma is_bag_good it t : good it t → is_bag it = true →
  length (m_bagslot it) = Z.to_nat MAX_BAG_SIZE ∧ NumSlots it = ContainerSlots t ∧ 0 ≤ NumSlots it ≤ MAX_BAG_SIZE.
Proof.
  intros Ht Hb. unfold is_bag in Hb. rewrite (good_template it t Ht) in Hb. apply Z.eqb_eq in Hb.
  destruct (good_bag it t Ht Hb) as (-> & -> & ?). done.
Qed.

Lemma yields_bag_elem a it i (Q : option Z → Prop) : items w !! a = Some it → is_bag it = true → 0 ≤ i < NumSlots it →
  Q (in_bag w a i) → yields w (elem (m_bagslot it) i) Q.
Proof.
  intros Ha Hb Hi HQ. destruct (ok_item w Hw a it Ha) as [t Ht]. destruct (is_bag_good it t Ht Hb) as (Hl & _ & Hn).
  destruct (lookup_range (m_bagslot it) i 36 Hl) as [o Ho]; [unfold MAX_BAG_SIZE in *; lia|].
  eapply yields_elem; [exact Ho|]. unfold in_bag in HQ. rewrite Ha in HQ. simpl in HQ.
  rewrite (proj2 (Z.ltb_lt _ _)) in HQ by lia. by rewrite Ho in HQ.
Qed.

Lemma yields_empty a it : items w !! a = Some it → is_bag it = true → yields w (Bag_IsEmpty it) (λ _, True).
Proof.
  intros Ha Hb. eapply yields_bind; [|intros o _; by apply yields_ret].
  apply (yields_any _ _ (λ o, ∀ b, o = Some b → True)). apply yields_first. intros i Hi%elem_of_slots. by eapply yields_bag_elem.
Qed.

Lemma yields_IsNotEmptyBag a it : items w !! a = Some it → yields w (IsNotEmptyBag E it) (λ _, True).
Proof.
  intros Ha. eapply yields_bind; [by eapply yields_IsBag|]. intros b ->.
  destruct (is_bag it) eqn:Hb; [|by apply yields_ret].
  eapply yields_bind; [by eapply yields_empty|]. intros ? _. by apply yields_ret.
Qed.

Lemma yields_slot p slot (Q : option Z → Prop) : here w p → 0 ≤ slot < PLAYER_SLOT_END →
  (∀ pl, players w !! p = Some pl → Q (own_at pl slot)) → yields w (GetItemInSlot p slot) Q.
Proof.
  intros [pl Hpl] Hs HQ. eapply yields_bind; [eapply yields_player with (Q := λ x, x = pl); [exact Hpl|done]|].
  intros _ ->. pose proof (ok_array w Hw p pl Hpl) as Hl.
  destruct (lookup_range (m_items pl) slot 150 Hl) as [o Ho]; [unfold PLAYER_SLOT_END in *; lia|].
  eapply yields_elem; [exact Ho|]. specialize (HQ pl Hpl). unfold own_at in HQ. by rewrite Ho in HQ.
Qed.

Lemma bag_slot_range bag : is_bag_slot bag = true → 0 ≤ bag < PLAYER_SLOT_END ∧ bag ≠ INVENTORY_SLOT_BAG_0 ∧ in_own_array bag = true.
Proof.
  unfold is_bag_slot, in_own_array, INVENTORY_SLOT_BAG_START, INVENTORY_SLOT_BAG_END, BANK_SLOT_BAG_START, BANK_SLOT_BAG_END,
    PLAYER_SLOT_END, INVENTORY_SLOT_BAG_0. intros H. repeat split; lia.
Qed.

Lemma yields_GetBagByPos p bag : here w p →
  yields w (GetBagByPos E p bag) (λ o, o = bag_at w p bag ∧ ∀ b, o = Some b → ∃ bi, items w !! b = Some bi ∧ is_bag bi = true).
Proof.
  intros Hp. unfold GetBagByPos, bag_at. destruct (is_bag_slot bag) eqn:Hbag; [|by apply yields_ret].
  apply bag_slot_range in Hbag as Hr. destruct Hp as [pl Hpl]. rewrite Hpl. simpl.
  eapply yields_bind; [apply (yields_slot p bag (λ o, o = own_at pl bag)); [by exists pl|tauto|]|].
  { intros pl' Hpl'. congruence. }
  intros o ->. destruct (own_at pl bag) as [b|] eqn:Hb; simpl; [|by apply yields_ret].
  destruct (ok_live w Hw p pl bag b Hpl Hbag Hb) as (bi & Hbi & _). rewrite Hbi. simpl.
  eapply yields_bind; [by eapply (yields_item _ _ _ (λ x, x = bi))|]. intros _ ->.
  eapply yields_bind; [by eapply yields_IsBag|]. intros ? ->. apply yields_ret.
  destruct (is_bag bi) eqn:Hib; [|done]. split; [done|]. intros ? [= <-]. by exists bi.
Qed.

Lemma bag_at_here p bag b : bag_at w p bag = Some b → ∃ bi, items w !! b = Some bi ∧ is_bag bi = true.
Proof.
  unfold bag_at. destruct (is_bag_slot bag); [|done]. intros (pl & Hpl & (b' & Hb & (bi & Hbi & H)%bind_Some)%bind_Some)%bind_Some.
  destruct (is_bag bi) eqn:Hib; [|done]. injection H as <-. by exists bi.
Qed.

Lemma yields_Bag_pos b bi slot : items w !! b = Some bi → is_bag bi = true → 0 ≤ slot →
  yields w (Bag_GetItemByPos bi slot) (λ o, o = in_bag w b slot).
Proof.
  intros Hb Hi Hs. unfold Bag_GetItemByPos. destruct (Z.ltb_spec slot (NumSlots bi)).
  - by eapply yields_bag_elem.
  - apply yields_ret. unfold in_bag. rewrite Hb. simpl. by rewrite (proj2 (Z.ltb_ge _ _)).
Qed.

Lemma own_array_range slot : in_own_array slot = true → 0 ≤ slot → slot < PLAYER_SLOT_END.
Proof. unfold in_own_array, BANK_SLOT_BAG_END, KEYRING_SLOT_START, CURRENCYTOKEN_SLOT_END, PLAYER_SLOT_END. lia. Qed.

Lemma yields_GetItemByPos p bag slot : here w p → 0 ≤ slot → yields w (GetItemByPos E p bag slot) (λ o, o = at_pos w p bag slot).
Proof.
  intros Hp Hs. unfold GetItemByPos, at_pos. destruct ((bag =? INVENTORY_SLOT_BAG_0) && in_own_array slot) eqn:Hc.
  - apply andb_true_iff in Hc as [_ Ho]. destruct Hp as [pl Hpl]. rewrite Hpl. simpl.
    apply yields_slot; [by exists pl|split; [done|by apply own_array_range]|]. intros pl' ?. congruence.
  - eapply yields_bind; [by apply yields_GetBagByPos|]. intros o [-> Hb].
    destruct (bag_at w p bag) as [b|]; simpl; [|by apply yields_ret].
    destruct (Hb b eq_refl) as (bi & Hbi & Hib).
    eapply yields_bind; [by eapply (yields_item _ _ _ (λ x, x = bi))|]. intros _ ->. by apply yields_Bag_pos.
Qed.

Lemma at_pos_live p bag slot a : 0 ≤ slot → at_pos w p bag slot = Some a → live w a.
Proof. intros Hs H. destruct (ok_place w Hw p bag slot a Hs H) as (it & ? & _). by exists it. Qed.

Lemma in_bag_live p bag b slot a : bag_at w p bag = Some b → 0 ≤ slot → in_bag w b slot = Some a → live w a.
Proof.
  intros Hb Hs Ha. apply (at_pos_live p bag slot a Hs). unfold at_pos.
  assert (is_bag_slot bag = true) as Hbag. { unfold bag_at in Hb. by destruct (is_bag_slot bag). }
  apply bag_slot_range in Hbag as (_ & Hne & _). rewrite (proj2 (Z.eqb_neq _ _) Hne). simpl. by rewrite Hb.
Qed.


(** ** Looking at items *)

Lemma yields_here_item a it : items w !! a = Some it → yields w (item_at a) (λ x, x = it).
Proof. intros H. by eapply yields_item. Qed.

Lemma yields_GetBagSlot it : (∀ b, m_container it = Some b → live w b) → yields w (GetBagSlot it) (λ _, True).
Proof.
  intros H. unfold GetBagSlot. destruct (m_container it) as [b|]; [|by apply yields_ret].
  destruct (H b eq_refl) as [bi Hb]. eapply yields_bind; [by eapply yields_here_item|]. intros. by apply yields_ret.
Qed.

Lemma yields_has_guid guid o : (∀ a, o = Some a → live w a) →
  yields w (has_guid guid o) (λ r, ∀ a, r = Some a → o = Some a).
Proof.
  intros H. destruct o as [a|]; simpl; [|by apply yields_ret]. destruct (H a eq_refl) as [it Ha].
  eapply yields_bind; [by eapply yields_here_item|]. intros ? ->. apply yields_ret.
  destruct (i_guid it =? guid); congruence.
Qed.

(** [a] is somewhere in the inventory of [p]. *)
Definition carried (p a : Z) : Prop := ∃ bag slot, 0 ≤ slot ∧ at_pos w p bag slot = Some a.

Lemma carried_live p a : carried p a → live w a.
Proof. intros (bag & slot & Hs & H). by eapply at_pos_live. Qed.

Lemma yields_own_by_guid p guid slot : here w p → 0 ≤ slot →
  yields w (own_by_guid E p guid slot) (λ r, ∀ a, r = Some a → carried p a).
Proof.
  intros Hp Hs. eapply yields_bind; [by apply yields_GetItemByPos|]. intros o ->.
  eapply yields_mono; [apply yields_has_guid; intros a; by apply at_pos_live|]. intros r Hr a ->.
  exists INVENTORY_SLOT_BAG_0, slot. auto.
Qed.

Lemma at_pos_bag p bag b slot : bag_at w p bag = Some b → at_pos w p bag slot = in_bag w b slot.
Proof.
  intros Hb. unfold at_pos.
  assert (is_bag_slot bag = true) as Hbag. { unfold bag_at in Hb. by destruct (is_bag_slot bag). }
  apply bag_slot_range in Hbag as (_ & Hne & _). rewrite (proj2 (Z.eqb_neq _ _) Hne). simpl. by rewrite Hb.
Qed.

Lemma yields_bag_by_guid p guid bag : here w p →
  yields w (bag_by_guid E p guid bag) (λ r, ∀ a, r = Some a → carried p a).
Proof.
  intros Hp. eapply yields_bind; [by apply yields_GetBagByPos|]. intros o [Ho Hb].
  destruct o as [b|]; [|by apply yields_ret]. destruct (Hb b eq_refl) as (bi & Hbi & Hib).
  eapply yields_bind; [by eapply yields_here_item|]. intros ? ->.
  apply yields_first. intros j Hj%elem_of_slots.
  eapply yields_bind; [eapply yields_Bag_pos; [done..|lia]|]. intros o ->.
  eapply yields_mono; [apply yields_has_guid; intros a; eapply in_bag_live; [by symmetry|lia]|].
  intros r Hr a ->. exists bag, j. split; [lia|]. rewrite (at_pos_bag p bag b) by done. auto.
Qed.

Lemma yields_orelse {A} (m1 m2 : iw (option A)) (Q : A → Prop) : yields w m1 (λ r, ∀ a, r = Some a → Q a) →
  yields w m2 (λ r, ∀ a, r = Some a → Q a) → yields w (orelse m1 m2) (λ r, ∀ a, r = Some a → Q a).
Proof.
  intros H1 H2. eapply yields_bind; [exact H1|]. intros [a|] Ha; [|done]. apply yields_ret. intros ? [= <-]. by apply Ha.
Qed.

Lemma yields_GetItemByGuid p guid : here w p →
  yields w (GetItemByGuid E p guid) (λ r, ∀ a, r = Some a → carried p a).
Proof.
  intros Hp. unfold GetItemByGuid.
  assert (∀ first last, 0 ≤ first →
    yields w (first_of (own_by_guid E p guid) (slots first last)) (λ r, ∀ a, r = Some a → carried p a)) as Ho.
  { intros first last H0. apply yields_first. intros i Hi%elem_of_slots. apply yields_own_by_guid; [done|lia]. }
  assert (∀ first last,
    yields w (first_of (bag_by_guid E p guid) (slots first last)) (λ r, ∀ a, r = Some a → carried p a)) as Hb.
  { intros first last. apply yields_first. intros i _. by apply yields_bag_by_guid. }
  apply yields_orelse; [by apply Ho|]. apply yields_orelse; [by apply Ho|]. apply yields_orelse; [by apply Ho|].
  apply yields_orelse; apply Hb.
Qed.

Lemma enchant_elem it t i : good it t → 0 ≤ i < MAX_ENCHANTMENT_SLOT → yields w (enchantment_id it i) (λ _, True).
Proof.
  intros Ht Hi. destruct (lookup_range _ i 12 (good_enchants it t Ht)) as [e He]; [unfold MAX_ENCHANTMENT_SLOT in *; lia|].
  eapply yields_bind; [by eapply (yields_elem _ _ _ _ (λ _, True))|]. intros. by apply yields_ret.
Qed.

Lemma yields_IsBoundAccountWide a it : items w !! a = Some it → yields w (IsBoundAccountWide E it) (λ _, True).
Proof. intros Ha. eapply yields_bind; [by eapply yields_good|]. intros. by apply yields_ret. Qed.

Lemma yields_IsBindedNotWith a it p : items w !! a = Some it → yields w (IsBindedNotWith E it p) (λ _, True).
Proof.
  intros Ha. unfold IsBindedNotWith. repeat case_match; try (by apply yields_ret).
  eapply yields_bind; [by eapply yields_IsBoundAccountWide|]. intros. by apply yields_ret.
Qed.

Lemma yields_IsBoundByEnchant a it : items w !! a = Some it → yields w (IsBoundByEnchant E it) (λ _, True).
Proof.
  intros Ha. destruct (ok_item w Hw a it Ha) as [t Ht].
  eapply yields_bind; [|intros o _; by apply yields_ret].
  apply (yields_any _ _ (λ o, ∀ b, o = Some b → True)). apply yields_first. intros i Hi%elem_of_slots.
  eapply yields_bind; [eapply enchant_elem; [done|slot_lia]|]. intros. by apply yields_ret.
Qed.

Lemma yields_merge it t : yields w (CanBeMergedPartlyWith it t) (λ res, res = EQUIP_ERR_OK →
  m_lootGenerated it = false ∧ Entry it = ItemId t ∧ Count it < GetMaxStackSize t).
Proof.
  unfold CanBeMergedPartlyWith. destruct (m_lootGenerated it); [by apply yields_ret|].
  destruct (Z.eqb_spec (Entry it) (ItemId t)); [|by apply yields_ret].
  destruct (Z.leb_spec (GetMaxStackSize t) (Count it)); by apply yields_ret.
Qed.

(** ** Counting never faults *)

Lemma yields_count_at skip (f : Item → iw Z) o : (∀ a, o = Some a → live w a) →
  (∀ a it, items w !! a = Some it → yields w (f it) (λ _, True)) → yields w (count_at skip f o) (λ _, True).
Proof.
  intros Ho Hf. destruct o as [a|]; simpl; [|by apply yields_ret]. case_bool_decide; [by apply yields_ret|].
  destruct (Ho a eq_refl) as [it Ha]. eapply yields_bind; [by eapply yields_here_item|]. intros ? ->. by eapply Hf.
Qed.

Lemma yields_own_count p skip f first last : here w p → 0 ≤ first →
  (∀ a it, items w !! a = Some it → yields w (f it) (λ _, True)) → yields w (own_count E p skip f first last) (λ _, True).
Proof.
  intros Hp H0 Hf. apply yields_sum. intros i Hi%elem_of_slots.
  eapply yields_bind; [apply yields_GetItemByPos; [done|lia]|]. intros o ->.
  apply yields_count_at; [|done]. intros a. apply at_pos_live. lia.
Qed.

Lemma yields_of_entry entry it : yields w (of_entry entry it) (λ _, True).
Proof. by apply yields_ret. Qed.

Lemma yields_gems a it entry : items w !! a = Some it → yields w (gems_of E entry it) (λ _, True).
Proof.
  intros Ha. eapply yields_bind; [by eapply yields_good|]. intros t Ht.
  case_match; [|by apply yields_ret]. eapply yields_bind; [|intros; by apply yields_ret].
  apply yields_sum. intros i Hi%elem_of_slots.
  eapply yields_bind; [eapply enchant_elem; [done|slot_lia]|]. intros. by apply yields_ret.
Qed.

Lemma yields_is_gem o : (∀ a, o = Some a → live w a) → yields w (is_gem E o) (λ _, True).
Proof.
  intros Ho. destruct o as [a|]; simpl; [|by apply yields_ret]. destruct (Ho a eq_refl) as [it Ha].
  eapply yields_bind; [by eapply yields_here_item|]. intros ? ->.
  eapply yields_bind; [by eapply yields_good|]. intros. by apply yields_ret.
Qed.

Lemma yields_bag_sum p bag b bi skip f : bag_at w p bag = Some b → items w !! b = Some bi → is_bag bi = true →
  (∀ a it, items w !! a = Some it → yields w (f it) (λ _, True)) →
  yields w (sum_of (λ i, o ← elem (m_bagslot bi) i; count_at skip f o) (slots 0 (NumSlots bi))) (λ _, True).
Proof.
  intros Hat Hb Hib Hf. apply yields_sum. intros i Hi%elem_of_slots.
  eapply yields_bind; [by eapply (yields_bag_elem _ _ _ (λ o, o = in_bag w b i))|]. intros o ->.
  apply yields_count_at; [|done]. intros a. eapply in_bag_live; [done|lia].
Qed.

Lemma yields_bags_count p f first last : here w p →
  (∀ bag b bi, bag_at w p bag = Some b → items w !! b = Some bi → is_bag bi = true → yields w (f bi) (λ _, True)) →
  yields w (bags_count E p f first last) (λ _, True).
Proof.
  intros Hp Hf. apply yields_sum. intros i _.
  eapply yields_bind; [by apply yields_GetBagByPos|]. intros o [Ho Hb]. destruct o as [b|]; [|by apply yields_ret].
  destruct (Hb b eq_refl) as (bi & Hbi & Hib). eapply yields_bind; [by eapply yields_here_item|]. intros ? ->. by eapply Hf.
Qed.

Lemma yields_Bag_GetItemCount p bag b bi entry skip : bag_at w p bag = Some b → items w !! b = Some bi → is_bag bi = true →
  (∀ a, skip = Some a → live w a) → yields w (Bag_GetItemCount E bi entry skip) (λ _, True).
Proof.
  intros Hat Hb Hib Hs. eapply yields_bind; [eapply yields_bag_sum; [done..|]; intros; apply yields_of_entry|]. intros n _.
  eapply yields_bind; [by apply yields_is_gem|]. intros gem _.
  eapply yields_bind with (P := λ _, True); [|intros; by apply yields_ret].
  destruct gem; [|by apply yields_ret]. eapply yields_bag_sum; [done..|]. intros. by eapply yields_gems.
Qed.

Lemma yields_GetItemCount p entry bank skip : here w p → (∀ a, skip = Some a → live w a) →
  yields w (GetItemCount E p entry bank skip) (λ _, True).
Proof.
  intros Hp Hs. unfold GetItemCount.
  assert (∀ first last, 0 ≤ first → yields w (own_count E p skip (of_entry entry) first last) (λ _, True)) as Ho
    by (intros; apply yields_own_count; [done..|]; intros; apply yields_of_entry).
  assert (∀ first last, 0 ≤ first → yields w (own_count E p skip (gems_of E entry) first last) (λ _, True)) as Hg
    by (intros; apply yields_own_count; [done..|]; intros; by eapply yields_gems).
  assert (∀ first last, yields w (bags_count E p (λ b, Bag_GetItemCount E b entry skip) first last) (λ _, True)) as Hb
    by (intros; apply yields_bags_count; [done|]; intros; by eapply yields_Bag_GetItemCount).
  eapply yields_bind; [by apply Ho|]. intros worn _. eapply yields_bind; [by apply Ho|]. intros keys _.
  eapply yields_bind; [apply Hb|]. intros bags _. eapply yields_bind; [by apply yields_is_gem|]. intros gem _.
  eapply yields_bind with (P := λ _, True); [destruct gem; [by apply Hg|by apply yields_ret]|]. intros gems _.
  eapply yields_bind with (P := λ _, True); [|intros; by apply yields_ret].
  destruct bank; [|by apply yields_ret].
  eapply yields_bind; [by apply Ho|]. intros n _. eapply yields_bind; [apply Hb|]. intros m _.
  eapply yields_bind with (P := λ _, True); [destruct gem; [by apply Hg|by apply yields_ret]|]. intros. by apply yields_ret.
Qed.

Lemma yields_GetItemCountWithLimitCategory p cat skip : here w p → (∀ a, skip = Some a → live w a) →
  yields w (GetItemCountWithLimitCategory E p cat skip) (λ _, True).
Proof.
  intros Hp Hs. unfold GetItemCountWithLimitCategory.
  assert (∀ a it, items w !! a = Some it → yields w (of_category E cat it) (λ _, True)) as Hf
    by (intros; by apply yields_ret).
  assert (∀ first last, yields w (bags_count E p (λ b, Bag_GetItemCountWithLimitCategory b (of_category E cat) skip) first last)
    (λ _, True)) as Hb by (intros; apply yields_bags_count; [done|]; intros; by eapply yields_bag_sum).
  repeat (eapply yields_bind; [first [by apply yields_own_count|apply Hb]|intros ? _]). by apply yields_ret.
Qed.

Lemma yields_CanTakeMore p entry count skip : here w p → (∀ a, skip = Some a → live w a) → in_u 32 count →
  yields w (CanTakeMoreSimilarItems E p entry count skip) (λ r, ∀ n, r.2 = Some n → in_u 32 n).
Proof.
  intros Hp Hs Hc. unfold CanTakeMoreSimilarItems.
  assert (∀ z n, Some (uwrap 32 z) = Some n → in_u 32 n) as Hu by (intros z ? [= <-]; by apply uwrap_range).
  destruct (GetItemTemplate E entry) as [t|]; [|apply yields_ret; by intros ? [= <-]].
  eapply yields_bind with (P := λ _, True).
  { destruct skip as [a|]; [|by apply yields_ret]. destruct (Hs a eq_refl) as [it Ha].
    eapply yields_bind; [by eapply yields_here_item|]. intros. by apply yields_ret. }
  intros looted _. destruct looted; [by apply yields_ret|]. case_match; [by apply yields_ret|].
  eapply yields_bind with (P := λ o, ∀ n, o = Some n → in_u 32 n).
  { case_match; [|by apply yields_ret]. eapply yields_bind; [by apply yields_GetItemCount|]. intros c _. apply yields_ret.
    case_match; [by apply Hu|done]. }
  intros [n|] Hn; [by apply yields_ret|]. case_match; [by apply yields_ret|].
  destruct (sItemLimitCategoryStore E _) as [[mode mx]|]; [|apply yields_ret; by intros ? [= <-]].
  case_match; [|by apply yields_ret].
  eapply yields_bind; [by apply yields_GetItemCountWithLimitCategory|]. intros c _. case_match; apply yields_ret; [by apply Hu|done].
Qed.

Lemma yields_src_bag src : (∀ a, src = Some a → live w a) → yields w (src_not_empty_bag E src) (λ _, True).
Proof.
  intros Hs. destruct src as [a|]; simpl; [|by apply yields_ret]. destruct (Hs a eq_refl) as [it Ha].
  eapply yields_bind; [by eapply yields_here_item|]. intros ? ->. by eapply yields_IsNotEmptyBag.
Qed.

End Look.
End Positions.
