(* ===== verification/ItemRun.v ===== *)
(** * ItemRun: programs on items up to what does not matter

    The core of a world is who has which items, gold and trade. Two worlds with the same
    core are equivalent. [runs w m Q] is total correctness: in [w] the program returns,
    without a fault, an answer and a world as [Q] says; a [quiet] program keeps the core. *)

From Stdlib Require Import ZArith Lia.
From S2P Require Import Prelude ByteBuffer Guid ItemData Inventory InventoryStore ItemFacts.
Local Open Scope Z_scope.

(** ** The core *)

Definition icore (it : Item) :=
  (i_guid it, Entry it, Owner it, Count it, m_slot it, m_container it, NumSlots it, m_bagslot it,
   length (Enchantments it), m_lootGenerated it).

Definition pcore (pl : Player) := (m_items pl, Coinage pl, m_trade pl).

Definition wcore (w : World) := (icore <$> items w, pcore <$> players w, trades w, m_hiItemGuid w).

#[export] Instance item_world_equiv : Equiv World := λ w w', wcore w = wcore w'.

#[export] Instance item_world_equivalence : Equivalence (≡@{World}).
Proof. split; unfold equiv, item_world_equiv; [by intros ?|by intros ??|]. intros ??? H1 H2. by rewrite H1. Qed.

Lemma equiv_item (w w' : World) a it : w' ≡ w → items w !! a = Some it → ∃ it', items w' !! a = Some it' ∧ icore it' = icore it.
Proof.
  intros H Ha. assert (icore <$> items w' = icore <$> items w) as E by (by injection H).
  apply (f_equal (lookup a)) in E. rewrite !lookup_fmap, Ha in E. apply fmap_Some in E as (it' & ? & ?). by exists it'.
Qed.

Lemma equiv_owner (w w' : World) p pl : w' ≡ w → players w !! p = Some pl → ∃ pl', players w' !! p = Some pl' ∧ pcore pl' = pcore pl.
Proof.
  intros H Hp. assert (pcore <$> players w' = pcore <$> players w) as E by (by injection H).
  apply (f_equal (lookup p)) in E. rewrite !lookup_fmap, Hp in E. apply fmap_Some in E as (pl' & ? & ?). by exists pl'.
Qed.

Lemma equiv_others (w w' : World) : w' ≡ w → trades w' = trades w ∧ m_hiItemGuid w' = m_hiItemGuid w.
Proof. intros H. by injection H. Qed.

Lemma live_equiv w w' a : w' ≡ w → live w a → live w' a.
Proof. intros H [it Ha]. destruct (equiv_item _ _ _ _ H Ha) as (it' & ? & _). by exists it'. Qed.

Lemma here_equiv w w' p : w' ≡ w → here w p → here w' p.
Proof. intros H [pl Hp]. destruct (equiv_owner _ _ _ _ H Hp) as (pl' & ? & _). by exists pl'. Qed.

Section Core.
Context (E : IEnv).

Lemma is_bag_core it it' : icore it' = icore it → is_bag E it' = is_bag E it.
Proof. intros [= _ He _ _ _ _ _ _ _ _]. unfold is_bag. by rewrite He. Qed.

Lemma good_core it it' t : icore it' = icore it → good E it t → good E it' t.
Proof. intros [= _ He _ Hc _ _ Hn Hb Hl _] []. split; try congruence. by rewrite Hb, Hn. Qed.

Lemma own_at_core pl pl' slot : pcore pl' = pcore pl → own_at pl' slot = own_at pl slot.
Proof. intros [= Hi _ _]. unfold own_at. by rewrite Hi. Qed.

Lemma bag_at_equiv (w w' : World) p bag : w' ≡ w → bag_at E w' p bag = bag_at E w p bag.
Proof.
  intros H. unfold bag_at. destruct (is_bag_slot bag); [|done].
  destruct (players w !! p) as [pl|] eqn:Hp.
  - destruct (equiv_owner _ _ _ _ H Hp) as (pl' & -> & Hc). simpl. rewrite (own_at_core _ _ _ Hc).
    destruct (own_at pl bag) as [b|]; [|done]. simpl. destruct (items w !! b) as [bi|] eqn:Hb.
    + destruct (equiv_item _ _ _ _ H Hb) as (bi' & -> & Hi). simpl. by rewrite (is_bag_core _ _ Hi).
    + destruct (items w' !! b) eqn:Hb'; [|done]. symmetry in H. destruct (equiv_item _ _ _ _ H Hb') as (? & ? & _). congruence.
  - destruct (players w' !! p) eqn:Hp'; [|done]. symmetry in H. destruct (equiv_owner _ _ _ _ H Hp') as (? & ? & _). congruence.
Qed.

Lemma in_bag_equiv (w w' : World) b slot : w' ≡ w → in_bag w' b slot = in_bag w b slot.
Proof.
  intros H. unfold in_bag. destruct (items w !! b) as [bi|] eqn:Hb.
  - destruct (equiv_item _ _ _ _ H Hb) as (bi' & -> & [= _ _ _ _ _ _ Hn Hs _ _]). simpl. by rewrite Hn, Hs.
  - destruct (items w' !! b) eqn:Hb'; [|done]. symmetry in H. destruct (equiv_item _ _ _ _ H Hb') as (? & ? & _). congruence.
Qed.

Lemma at_pos_equiv (w w' : World) p bag slot : w' ≡ w → at_pos E w' p bag slot = at_pos E w p bag slot.
Proof.
  intros H. unfold at_pos. destruct ((bag =? INVENTORY_SLOT_BAG_0) && in_own_array slot).
  - destruct (players w !! p) as [pl|] eqn:Hp.
    + destruct (equiv_owner _ _ _ _ H Hp) as (pl' & -> & Hc). simpl. by apply own_at_core.
    + destruct (players w' !! p) eqn:Hp'; [|done]. symmetry in H. destruct (equiv_owner _ _ _ _ H Hp') as (? & ? & _). congruence.
  - rewrite (bag_at_equiv w w') by done. destruct (bag_at E w p bag); [|done]. simpl. by apply in_bag_equiv.
Qed.

Lemma inv_ok_equiv (w w' : World) : w' ≡ w → inv_ok E w → inv_ok E w'.
Proof.
  intros H Hw. symmetry in H. destruct (equiv_others _ _ H) as [_ Hhi]. split.
  - intros p pl' Hp. destruct (equiv_owner _ _ _ _ H Hp) as (pl & Hpl & [= Hi _ _]). rewrite <- Hi. by apply (ok_array E w Hw p).
  - intros a it' Ha. destruct (equiv_item _ _ _ _ H Ha) as (it & Hit & Hc). destruct (ok_item E w Hw a it Hit) as [t Ht].
    exists t. by eapply good_core.
  - intros p pl' slot a Hp Hs Ha. destruct (equiv_owner _ _ _ _ H Hp) as (pl & Hpl & Hc). rewrite <- (own_at_core _ _ slot Hc) in Ha.
    destruct (ok_live E w Hw p pl slot a Hpl Hs Ha) as (it & Hit & Hib). symmetry in H.
    destruct (equiv_item _ _ _ _ H Hit) as (it' & Hit' & Hi). exists it'. split; [done|]. by rewrite (is_bag_core _ _ Hi).
  - intros p bag slot a Hs Ha. symmetry in H. rewrite (at_pos_equiv w w') in Ha by done.
    destruct (ok_place E w Hw p bag slot a Hs Ha) as (it & Hit & Ho & Hsl & Hco).
    destruct (equiv_item _ _ _ _ H Hit) as (it' & Hit' & [= _ _ Eo _ Es Ec _ _ _ _]). exists it'. split_and!; try congruence.
    rewrite Ec, Hco. unfold container_at. by rewrite (bag_at_equiv w w').
  - rewrite <- Hhi. apply (ok_counter E w Hw).
  - intros a it' Ha. destruct (equiv_item _ _ _ _ H Ha) as (it & Hit & [= Hg _ _ _ _ _ _ _ _ _]).
    rewrite <- Hhi, <- Hg. by apply (ok_guid E w Hw a).
  - intros a b it' it2' Ha Hb Hg. destruct (equiv_item _ _ _ _ H Ha) as (it & Hit & [= Hg1 _ _ _ _ _ _ _ _ _]).
    destruct (equiv_item _ _ _ _ H Hb) as (it2 & Hit2 & [= Hg2 _ _ _ _ _ _ _ _ _]).
    apply (ok_unique E w Hw a b it it2); [done|done|congruence].
Qed.

End Core.

(** ** Running *)

Definition runs {A} (w : World) (m : iw A) (Q : A → World → Prop) : Prop := ∃ x w', m w = (Ret x, w') ∧ Q x w'.

Definition quiet {A} (w : World) (m : iw A) : Prop := runs w m (λ _ w', w' ≡ w).

Lemma runs_ret {A} w (x : A) (Q : A → World → Prop) : Q x w → runs w (mret x) Q.
Proof. intros H. by exists x, w. Qed.

Lemma runs_bind {A B} w (m : iw A) (k : A → iw B) (P : A → World → Prop) (Q : B → World → Prop) :
  runs w m P → (∀ x w', P x w' → runs w' (k x) Q) → runs w (m ≫= k) Q.
Proof.
  intros (x & w' & E1 & H1) H2. destruct (H2 x w' H1) as (y & w'' & E2 & Hy). exists y, w''. split; [|done].
  by rewrite (bind_ret_run _ _ _ _ _ E1).
Qed.

Lemma runs_mono {A} w (m : iw A) (P Q : A → World → Prop) : runs w m P → (∀ x w', P x w' → Q x w') → runs w m Q.
Proof. intros (x & w' & E1 & H1) H. exists x, w'. auto. Qed.

Lemma runs_look {A} w (m : iw A) (P : A → Prop) (Q : A → World → Prop) :
  yields w m P → (∀ x, P x → Q x w) → runs w m Q.
Proof. intros (x & E1 & H1) H. exists x, w. auto. Qed.

Lemma runs_look_bind {A B} w (m : iw A) (k : A → iw B) (P : A → Prop) (Q : B → World → Prop) :
  yields w m P → (∀ x, P x → runs w (k x) Q) → runs w (m ≫= k) Q.
Proof. intros (x & E1 & Hx) H. destruct (H x Hx) as (y & w' & E2 & Hy). exists y, w'. split; [|done]. by rewrite (bind_ret_run _ _ _ _ _ E1). Qed.

Lemma runs_modify w f (Q : unit → World → Prop) : Q tt (f w) → runs w (modify f) Q.
Proof. intros H. by exists tt, (f w). Qed.

Lemma quiet_ret {A} w (x : A) : quiet w (mret x).
Proof. by apply runs_ret. Qed.

Lemma quiet_bind {A B} w (m : iw A) (k : A → iw B) : quiet w m → (∀ x w', w' ≡ w → quiet w' (k x)) → quiet w (m ≫= k).
Proof.
  intros H1 H2. eapply runs_bind; [exact H1|]. intros x w' Hw'. eapply runs_mono; [by apply H2|]. intros ? w'' H.
  simpl in *. by transitivity w'.
Qed.

(** Quiet code, then the rest. *)
Lemma quiet_then {A B} w (m : iw A) (k : A → iw B) (Q : B → World → Prop) :
  quiet w m → (∀ x w', w' ≡ w → runs w' (k x) Q) → runs w (m ≫= k) Q.
Proof. apply runs_bind. Qed.

Lemma quiet_look {A} w (m : iw A) (P : A → Prop) : yields w m P → quiet w m.
Proof. intros H. by eapply runs_look. Qed.

Lemma quiet_emit w e : quiet w (emit e).
Proof. by apply runs_modify. Qed.

Lemma wcore_items w (m m' : gmap Z Item) : icore <$> m = icore <$> m' → with_items m w ≡ with_items m' w.
Proof. intros H. unfold equiv, item_world_equiv, wcore. simpl. by rewrite H. Qed.

Lemma runs_upd_item w a f (Q : unit → World → Prop) : live w a → Q tt (with_items (alter f a (items w)) w) → runs w (upd_item a f) Q.
Proof.
  intros [it Ha] H. eapply runs_look_bind; [by apply yields_here_item|]. intros ? ->. by apply runs_modify.
Qed.

Lemma runs_upd_player w p f (Q : unit → World → Prop) : here w p → Q tt (with_players (alter f p (players w)) w) → runs w (upd_player p f) Q.
Proof.
  intros [pl Hp] H. eapply runs_look_bind; [by eapply (yields_player _ _ _ (λ x, x = pl))|]. intros ? ->. by apply runs_modify.
Qed.

Lemma quiet_upd_item w a f : live w a → (∀ it, icore (f it) = icore it) → quiet w (upd_item a f).
Proof.
  intros Ha Hf. apply runs_upd_item; [done|]. unfold equiv, item_world_equiv, wcore. simpl. f_equal. f_equal. f_equal.
  apply map_eq. intros b. rewrite !lookup_fmap. destruct (decide (a = b)) as [->|].
  - rewrite lookup_alter_eq. destruct (items w !! b); simpl; [|done]. by rewrite Hf.
  - by rewrite lookup_alter_ne.
Qed.

Lemma quiet_upd_player w p f : here w p → (∀ pl, pcore (f pl) = pcore pl) → quiet w (upd_player p f).
Proof.
  intros Hp Hf. apply runs_upd_player; [done|]. unfold equiv, item_world_equiv, wcore. simpl. f_equal. f_equal. f_equal.
  apply map_eq. intros b. rewrite !lookup_fmap. destruct (decide (p = b)) as [->|].
  - rewrite lookup_alter_eq. destruct (players w !! b); simpl; [|done]. by rewrite Hf.
  - by rewrite lookup_alter_ne.
Qed.

(** ** Quiet operations on items *)

Lemma quiet_SetState w a state p : live w a → state ≠ ITEM_REMOVED → quiet w (SetState a state p).
Proof.
  intros [it Ha] Hs. eapply runs_look_bind; [by apply yields_here_item|]. intros ? ->.
  rewrite (bool_decide_false (state = ITEM_REMOVED)) by done. rewrite andb_false_r.
  assert (live w a) as Hl by (by exists it).
  case_bool_decide; [by apply quiet_upd_item|].
  apply quiet_bind; [case_bool_decide; [apply quiet_ret|by apply quiet_upd_item]|]. intros ? w' _. apply quiet_emit.
Qed.

Lemma quiet_owner_changed w a : live w a → quiet w (owner_changed a).
Proof.
  intros [it Ha]. eapply runs_look_bind; [by apply yields_here_item|]. intros ? ->.
  eapply runs_look_bind; [by apply (yields_gets _ _ (λ _, True))|]. intros o _. apply quiet_SetState; [by exists it|done].
Qed.

Lemma quiet_DeleteRefund w p g : here w p → quiet w (DeleteRefundReference p g).
Proof. intros Hp. by apply quiet_upd_player. Qed.

Lemma quiet_SetNotRefundable w a p b : live w a → here w p → quiet w (SetNotRefundable a p b).
Proof.
  intros [it Ha] Hp. eapply runs_look_bind; [by apply yields_here_item|]. intros ? ->.
  assert (live w a) as Hl by (by exists it). case_match; [apply quiet_ret|].
  apply quiet_bind; [by apply quiet_upd_item|]. intros _ w1 H1.
  apply quiet_bind; [destruct b; [apply quiet_SetState; [by eapply live_equiv|done]|apply quiet_ret]|]. intros _ w2 H2.
  assert (w2 ≡ w) as H2' by (by transitivity w1).
  apply quiet_bind; [apply quiet_upd_item; [by eapply live_equiv|done]|]. intros _ w3 H3.
  apply quiet_DeleteRefund. eapply here_equiv; [|exact Hp]. by transitivity w2.
Qed.

Lemma quiet_ClearSoulbound w a p : live w a → quiet w (ClearSoulboundTradeable a p).
Proof.
  intros Hl. apply quiet_bind; [by apply quiet_upd_item|]. intros _ w1 H1.
  destruct (live_equiv _ _ a H1 Hl) as [it Ha]. eapply runs_look_bind; [by apply yields_here_item|]. intros ? ->.
  assert (live w1 a) as Hl1 by (by exists it). case_bool_decide; [apply quiet_ret|].
  apply quiet_bind; [by apply quiet_upd_item|]. intros _ w2 H2.
  apply quiet_bind; [apply quiet_SetState; [by eapply live_equiv|done]|]. intros _ w3 _. apply quiet_emit.
Qed.

Lemma quiet_SetBinding w a : live w a → quiet w (SetBinding a).
Proof. intros Hl. by apply quiet_upd_item. Qed.

(** An item with its twelve enchantments. *)
Definition enchanted (w : World) (a : Z) : Prop :=
  ∃ it, items w !! a = Some it ∧ length (Enchantments it) = Z.to_nat MAX_ENCHANTMENT_SLOT.

Lemma enchanted_live w a : enchanted w a → live w a.
Proof. intros (it & ? & _). by exists it. Qed.

Lemma enchanted_equiv w w' a : w' ≡ w → enchanted w a → enchanted w' a.
Proof.
  intros H (it & Ha & Hl). destruct (equiv_item _ _ _ _ H Ha) as (it' & Ha' & Hc). exists it'. split; [done|].
  injection Hc as _ _ _ _ _ _ _ _ Hc _. congruence.
Qed.

Lemma icore_enchants i e it : icore (with_Enchantments (<[i := e]> (Enchantments it)) it) = icore it.
Proof. unfold icore. simpl. by rewrite length_insert. Qed.

Lemma quiet_ClearEnchantment w a slot : enchanted w a → 0 ≤ slot < MAX_ENCHANTMENT_SLOT → quiet w (ClearEnchantment a slot).
Proof.
  intros (it & Ha & Hl) Hs. eapply runs_look_bind; [by apply yields_here_item|]. intros ? ->.
  destruct (lookup_range _ slot 12 Hl) as [e He]; [slot_lia|].
  eapply runs_look_bind; [eapply yields_bind; [by eapply (yields_elem _ _ _ _ (λ _, True))|]; intros; by apply (yields_ret _ _ (λ _, True))|].
  intros id _. case_match; [apply quiet_ret|].
  apply quiet_bind; [apply quiet_upd_item; [by exists it|]; intros; apply icore_enchants|]. intros _ w1 H1.
  apply quiet_owner_changed. apply (live_equiv w); [done|by exists it].
Qed.

Lemma quiet_SetEnchantment w a slot id d c : enchanted w a → 0 ≤ slot < MAX_ENCHANTMENT_SLOT → quiet w (SetEnchantment a slot id d c).
Proof.
  intros (it & Ha & Hl) Hs. eapply runs_look_bind; [by apply yields_here_item|]. intros ? ->.
  destruct (lookup_range _ slot 12 Hl) as [e He]; [slot_lia|].
  eapply runs_look_bind; [by eapply (yields_elem _ _ _ _ (λ _, True))|]. intros e' _. case_bool_decide; [apply quiet_ret|].
  apply quiet_bind; [apply quiet_upd_item; [by exists it|]; intros; apply icore_enchants|]. intros _ w1 H1.
  apply quiet_owner_changed. apply (live_equiv w); [done|by exists it].
Qed.

Lemma quiet_set_enchantments w a slot ids : enchanted w a → 0 ≤ slot → slot + Z.of_nat (length ids) ≤ MAX_ENCHANTMENT_SLOT →
  quiet w (set_enchantments a slot ids).
Proof.
  revert w slot. induction ids as [|id ids IH]; intros w slot Ha H0 Hl; cbn [set_enchantments]; [apply quiet_ret|].
  simpl in Hl. apply quiet_bind; [apply quiet_SetEnchantment; [done|lia]|]. intros _ w1 H1.
  apply IH; [by eapply enchanted_equiv|lia|lia].
Qed.

Lemma quiet_random (E : IEnv) w a n : enchanted w a → quiet w (SetItemRandomProperties E a n).
Proof.
  intros Ha. pose proof (enchanted_live _ _ Ha) as Hl. unfold SetItemRandomProperties. case_match; [apply quiet_ret|].
  assert (∀ (c : Item → bool) (f : Item → Item), (∀ it, icore (f it) = icore it) → ∀ slot ids, 0 ≤ slot → slot ≤ 9 →
    quiet w (it ← item_at a; (if c it then upd_item a f;; owner_changed a else mret tt);; set_enchantments a slot (take 3 ids))) as Hset.
  { intros c f Hf slot ids H0 Hs. destruct Hl as [it Hit]. eapply runs_look_bind; [by apply yields_here_item|]. intros ? ->.
    apply quiet_bind.
    { destruct (c it); [|apply quiet_ret]. apply quiet_bind; [apply quiet_upd_item; [by exists it|done]|]. intros _ w1 H1.
      apply quiet_owner_changed. eapply live_equiv; [done|by exists it]. }
    intros _ w1 H1. apply quiet_set_enchantments; [by eapply enchanted_equiv|done|]. rewrite length_take. slot_lia. }
  case_match.
  - destruct (sItemRandomPropertiesStore E n) as [[id ids]|]; [|apply quiet_ret]. by apply (Hset (λ it, negb (RandomProperty it =? swrap 32 id))).
  - destruct (sItemRandomSuffixStore E (- n)) as [[id ids]|]; [|apply quiet_ret].
    by apply (Hset (λ it, negb (RandomProperty it =? - swrap 32 id) || (SuffixFactor it =? 0))
      (λ it, with_SuffixFactor (GenerateEnchSuffixFactor E (Entry it)) (with_RandomProperty (- swrap 32 id) it))).
Qed.
