(* ===== verification/PlanFacts.v ===== *)
(** * PlanFacts: the plan of [CanStoreItem] fits

    [plan_ok] says that every position of a plan is a place of the player's inventory that
    is empty or holds a stack with room. [CanStoreItem] and [CanStoreItems] never fault. *)

From Stdlib Require Import ZArith Lia.
From S2P Require Import Prelude ByteBuffer Guid ItemData Inventory InventoryStore ItemFacts.
Local Open Scope Z_scope.

(** ** Positions as numbers *)

Lemma pos_of_bag bag slot : 0 ≤ bag → 0 ≤ slot < 256 → pos_bag (pos_of bag slot) = bag.
Proof.
  intros. unfold pos_bag, pos_of. rewrite Z.shiftr_lor, Z.shiftr_shiftl_l by lia. rewrite (Z.shiftr_div_pow2 slot) by lia.
  rewrite Z.div_small by (simpl; lia). rewrite Z.lor_0_r. simpl. apply Z.shiftl_0_r.
Qed.

Lemma pos_of_slot bag slot : 0 ≤ bag → 0 ≤ slot < 256 → pos_slot (pos_of bag slot) = slot.
Proof.
  intros. unfold pos_slot, pos_of. change 255 with (Z.ones 8). rewrite Z.land_lor_distr_l.
  rewrite !Z.land_ones by lia. rewrite Z.shiftl_mul_pow2 by lia.
  rewrite Z.mod_mul by lia. rewrite Z.mod_small by (simpl; lia). by rewrite Z.lor_0_l.
Qed.

Section Plans.
Context (E : IEnv).

(** The position exists: a slot of the own array that is not for bags, or of a bag that is
    there. *)
Definition has_place (w : World) (p bag slot : Z) : Prop :=
  0 ≤ bag < 256 ∧ 0 ≤ slot < 256 ∧
  (bag = INVENTORY_SLOT_BAG_0 ∧ in_own_array slot = true ∧ is_bag_slot slot = false ∨
   ∃ b bi, bag_at E w p bag = Some b ∧ items w !! b = Some bi ∧ slot < NumSlots bi).

(** The position takes [n] of the template; the item [src] is about to move. *)
Definition has_room (w : World) (p : Z) (t : ItemTemplate) (src : option Z) (bag slot n : Z) : Prop :=
  match other_item (at_pos E w p bag slot) src with
  | None => n ≤ GetMaxStackSize t
  | Some b => ∃ bi, items w !! b = Some bi ∧ Entry bi = ItemId t ∧ m_lootGenerated bi = false ∧
                    Count bi + n ≤ GetMaxStackSize t
  end.

Definition fits (w : World) (p : Z) (t : ItemTemplate) (src : option Z) (x : Z * Z) : Prop :=
  ∃ bag slot, x.1 = pos_of bag slot ∧ 0 < x.2 ∧ has_place w p bag slot ∧ has_room w p t src bag slot x.2.

Definition planned (dest : list (Z * Z)) : Z := foldr Z.add 0 dest.*2.

Definition plan_ok (w : World) (p : Z) (t : ItemTemplate) (src : option Z) (dest : list (Z * Z)) : Prop :=
  NoDup dest.*1 ∧ Forall (fits w p t src) dest.

Lemma planned_app l l' : planned (l ++ l') = planned l + planned l'.
Proof. unfold planned. rewrite fmap_app, foldr_app. induction l.*2; simpl; [done|]. lia. Qed.

Lemma planned_one pos n : planned [(pos, n)] = n.
Proof. unfold planned. simpl. lia. Qed.

(** What holds while a plan grows from [d0]: the new positions fit, and with the rest they
    make the total. *)
Definition growing (w : World) (p : Z) (t : ItemTemplate) (src : option Z) (d0 : list (Z * Z)) (total : Z)
    (st : list (Z * Z) * Z) : Prop :=
  ∃ d, st.1 = d0 ++ d ∧ Forall (fits w p t src) d ∧ (NoDup d0.*1 → NoDup st.1.*1) ∧
       0 ≤ st.2 < 2 ^ 32 ∧ planned d + st.2 = total.

(** ** The stages *)

Section Look.
Context (w : World) (Hw : inv_ok E w) (p : Z) (Hp : here w p) (t : ItemTemplate) (src : option Z)
  (Hsrc : ∀ a, src = Some a → live w a) (Hmax : 0 < GetMaxStackSize t < 2 ^ 32)
  (d0 : list (Z * Z)) (total : Z).
Let grow := growing w p t src d0 total.

Lemma add_position_grow bag slot need st : 0 < need < 2 ^ 32 → 0 < st.2 → has_place w p bag slot →
  (∀ n, 0 < n ≤ need → has_room w p t src bag slot n) → grow st → grow (add_position bag slot need st).2.
Proof.
  intros Hn Hc Hpl Hr (d & Hd & Hf & Hnd & Hrange & Hsum). unfold add_position. destruct st as [dest count]; simpl in *.
  unfold isContainedIn. case_bool_decide as Hin; [by exists d|].
  set (n := if count <? need then count else need). assert (0 < n ≤ need ∧ n ≤ count) as Hn'.
  { unfold n. destruct (Z.ltb_spec count need); lia. }
  exists (d ++ [(pos_of bag slot, n)]). simpl. rewrite uwrap_small by (unfold in_u; lia). split_and!.
  - by rewrite Hd, app_assoc.
  - apply Forall_app. split; [done|]. apply Forall_singleton. exists bag, slot. simpl. split_and!; [done|lia|done|apply Hr; lia].
  - intros H0. rewrite fmap_app. apply NoDup_app. split_and!; [by apply Hnd| |apply NoDup_singleton].
    intros x Hx ->%list_elem_of_singleton. by apply Hin.
  - lia.
  - lia.
  - rewrite planned_app, planned_one. lia.
Qed.

Lemma count_kept bag slot need st : 0 ≤ st.2 < 2 ^ 32 → (add_position bag slot need st).1 = false →
  (add_position bag slot need st).2 = st.
Proof. intros H. unfold add_position. destruct st. simpl. by destruct (isContainedIn _ _). Qed.

Lemma yields_offer merge bag j st : has_place w p bag j → 0 < st.2 → grow st →
  yields w (offer_slot E p t merge src bag j st) (λ r, grow r.2 ∧ (r.1 = false → 0 < r.2.2)).
Proof.
  intros Hpl Hc Hg. unfold offer_slot.
  eapply yields_bind; [apply yields_GetItemByPos; [done..|]; apply Hpl|]. intros o ->.
  assert (∀ need, 0 < need < 2 ^ 32 → (∀ n, 0 < n ≤ need → has_room w p t src bag j n) →
    let r := let '(added, st) := add_position bag j need st in (added && (st.2 =? 0), st) in
    grow r.2 ∧ (r.1 = false → 0 < r.2.2)) as Hadd.
  { intros need Hn Hr. pose proof (add_position_grow bag j need st Hn Hc Hpl Hr Hg) as H.
    pose proof (count_kept bag j need st) as Hk.
    destruct (add_position bag j need st) as [added st'] eqn:Ea; simpl in *. split; [done|].
    destruct H as (_ & _ & _ & _ & Hr' & _). destruct added; simpl.
    - intros ?%Z.eqb_neq. lia.
    - intros _. destruct Hg as (_ & _ & _ & _ & Hr0 & _). rewrite Hk; [done|lia|done]. }
  destruct (other_item (at_pos E w p bag j) src) as [a|] eqn:Ho.
  - destruct merge; simpl; [|by apply yields_ret].
    assert (live w a) as [it Ha].
    { unfold other_item in Ho. case_bool_decide; [done|]. eapply at_pos_live; [done| |done]. apply Hpl. }
    eapply yields_bind; [by apply yields_here_item|]. intros ? ->.
    eapply yields_bind; [apply yields_merge|]. intros res Hres.
    destruct (Z.eqb_spec res EQUIP_ERR_OK) as [E1|]; simpl; [|by apply yields_ret].
    destruct (Hres E1) as (Hl & He & Hlt). destruct (ok_item E w Hw a it Ha) as [t' Ht'].
    apply yields_ret. pose proof (good_count E it t' Ht').
    apply Hadd; rewrite uwrap_small by (unfold in_u; lia); [lia|].
    intros n Hn. unfold has_room. rewrite Ho. exists it. split_and!; [done..|lia].
  - destruct merge; [by apply yields_ret|]. apply yields_ret. apply Hadd; [done|].
    intros n Hn. unfold has_room. rewrite Ho. lia.
Qed.

Lemma yields_scan merge bag skip js st : (∀ j, j ∈ js → has_place w p bag j) → 0 < st.2 → grow st →
  yields w (scan (offer_slot E p t merge src bag) skip js st) grow.
Proof.
  revert st. induction js as [|j js IH]; intros st Hpl Hc Hg; cbn [scan]; [by apply yields_ret|].
  assert (∀ j, j ∈ js → has_place w p bag j) as Hpl' by (intros; apply Hpl; by right).
  destruct (skip j); [by apply IH|].
  eapply yields_bind; [apply yields_offer; [|done..]; apply Hpl; by left|].
  intros [stop st'] [Hg' Hc']. simpl in *. destruct stop; [by apply yields_ret|]. apply IH; auto.
Qed.

(** A stage keeps the plan good; a stage that refuses changes nothing. *)
Definition stage_ok (f : list (Z * Z) * Z → iw (Z * (list (Z * Z) * Z))) : Prop :=
  ∀ st, 0 < st.2 → grow st → yields w (f st) (λ r, grow r.2 ∧ (r.1 ≠ EQUIP_ERR_OK → r.2 = st)).

Lemma own_places first last : INVENTORY_SLOT_BAG_END ≤ first → last ≤ BANK_SLOT_ITEM_END ∨ KEYRING_SLOT_START ≤ first ∧ last ≤ CURRENCYTOKEN_SLOT_END →
  ∀ j, j ∈ slots first last → has_place w p INVENTORY_SLOT_BAG_0 j.
Proof.
  intros H0 Hr j Hj%elem_of_slots. split; [slot_lia|]. split; [slot_lia|]. left. split; [done|].
  unfold in_own_array, is_bag_slot. slot_lia.
Qed.

Lemma stage_own first last merge skip_bag skip_slot : INVENTORY_SLOT_BAG_END ≤ first →
  last ≤ BANK_SLOT_ITEM_END ∨ KEYRING_SLOT_START ≤ first ∧ last ≤ CURRENCYTOKEN_SLOT_END →
  stage_ok (CanStoreItem_InInventorySlots E p first last t merge src skip_bag skip_slot).
Proof.
  intros H0 Hr st Hc Hg. eapply yields_bind; [by apply yields_src_bag|]. intros full _.
  destruct full; [by apply yields_ret|].
  eapply yields_bind; [apply yields_scan; [by apply own_places|done..]|]. intros st' Hg'. apply yields_ret.
  split; [done|]. by intros [].
Qed.

Lemma bag_place bag b bi j : bag_at E w p bag = Some b → items w !! b = Some bi → 0 ≤ j < NumSlots bi → has_place w p bag j.
Proof.
  intros Hb Hbi Hj. assert (is_bag_slot bag = true) as Hs. { unfold bag_at in Hb. by destruct (is_bag_slot bag). }
  apply bag_slot_range in Hs as (Hs & _).
  destruct (bag_at_here E w p bag b Hb) as (bi' & Hbi' & Hib). assert (bi' = bi) as -> by congruence.
  destruct (ok_item E w Hw b bi Hbi) as [bt Hbt]. destruct (is_bag_good E bi bt Hbt Hib) as (_ & _ & Hn).
  split; [slot_lia|]. split; [slot_lia|]. right. exists b, bi. split_and!; [done..|lia].
Qed.

Lemma stage_bag bag merge special skip_bag skip_slot : stage_ok (CanStoreItem_InBag E p bag t merge special src skip_bag skip_slot).
Proof.
  intros st Hc Hg. unfold CanStoreItem_InBag. case_match; [by apply yields_ret|].
  eapply yields_bind; [by apply yields_GetBagByPos|]. intros o [Ho Hb]. destruct o as [b|]; [|by apply yields_ret].
  case_bool_decide; [by apply yields_ret|].
  eapply yields_bind; [by apply yields_src_bag|]. intros full _. destruct full; [by apply yields_ret|].
  destruct (Hb b eq_refl) as (bi & Hbi & Hib). eapply yields_bind; [by apply yields_here_item|]. intros ? ->.
  destruct (GetItemTemplate E (Entry bi)) as [bt|]; [|by apply yields_ret].
  case_match; [by apply yields_ret|]. case_match; [by apply yields_ret|].
  eapply yields_bind; [apply yields_scan; [|done..]|].
  { intros j Hj%elem_of_slots. by eapply bag_place. }
  intros st' Hg'. apply yields_ret. split; [done|]. by intros [].
Qed.

Lemma stage_first_fit f g : stage_ok f → stage_ok g → stage_ok (first_fit f g).
Proof.
  intros Hf Hg st Hc Hst. eapply yields_bind; [by apply Hf|]. intros [res st'] [Hst' Hk]. simpl in *.
  destruct (Z.eqb_spec res EQUIP_ERR_OK) as [->|Hne]; simpl.
  - apply yields_ret. split; [done|]. by intros [].
  - rewrite (Hk Hne) in *. by apply Hg.
Qed.

Lemma stage_specific bag slot : 0 ≤ bag < 256 → 0 ≤ slot < 256 → (bag = INVENTORY_SLOT_BAG_0 → is_bag_slot slot = false) →
  stage_ok (CanStoreItem_InSpecificSlot E p bag slot t false src).
Proof.
  intros Hbag Hslot Hns st Hc Hg. unfold CanStoreItem_InSpecificSlot.
  eapply yields_bind; [apply yields_GetItemByPos; [done..|lia]|]. intros o ->.
  eapply yields_bind with (P := λ _, True).
  { destruct src as [a|]; [|by apply yields_ret]. destruct (Hsrc a eq_refl) as [it Ha].
    eapply yields_bind; [by apply yields_here_item|]. intros ? ->.
    eapply yields_bind; [by eapply yields_IsNotEmptyBag|]. intros. by apply yields_ret. }
  intros full _. destruct full; [by apply yields_ret|].
  eapply yields_bind with (P := λ s, match s with
    | inl res => res ≠ EQUIP_ERR_OK
    | inr need => 0 < need < 2 ^ 32 ∧ has_place w p bag slot ∧ ∀ n, 0 < n ≤ need → has_room w p t src bag slot n
    end).
  2:{ intros [res|need] H; apply yields_ret; simpl; [done|]. destruct H as (Hn & Hpl & Hr).
      split; [by apply add_position_grow|by intros []]. }
  destruct (other_item (at_pos E w p bag slot) src) as [a|] eqn:Ho.
  - assert (at_pos E w p bag slot = Some a) as Hat by (unfold other_item in Ho; by case_bool_decide).
    destruct (at_pos_live E w Hw p bag slot a) as [it Ha]; [lia|done|].
    eapply yields_bind; [by apply yields_here_item|]. intros ? ->.
    eapply yields_bind; [apply yields_merge|]. intros res Hres. apply yields_ret.
    destruct (Z.eqb_spec res EQUIP_ERR_OK) as [E1|]; simpl; [|done].
    destruct (Hres E1) as (Hl & He & Hlt). destruct (ok_item E w Hw a it Ha) as [t' Ht'].
    pose proof (good_count E it t' Ht'). rewrite uwrap_small by (unfold in_u; lia). split_and!; [lia|lia| |].
    + unfold at_pos in Hat. destruct ((bag =? INVENTORY_SLOT_BAG_0) && in_own_array slot) eqn:Hc2.
      * apply andb_true_iff in Hc2 as [->%Z.eqb_eq ?]. split; [done|]. split; [done|]. left. auto.
      * apply bind_Some in Hat as (b & Hb & (bi & Hbi & Hin)%bind_Some).
        destruct (Z.ltb_spec slot (NumSlots bi)); [|done]. eapply bag_place; [done..|lia].
    + intros n Hn. unfold has_room. rewrite Ho. exists it. split_and!; [done..|lia].
  - assert (∀ n, 0 < n ≤ GetMaxStackSize t → has_room w p t src bag slot n) as Hr.
    { intros n Hn. unfold has_room. rewrite Ho. lia. }
    destruct (Z.eqb_spec bag INVENTORY_SLOT_BAG_0) as [->|Hne].
    + apply yields_ret. do 2 (match goal with |- context [if ?b then inl _ else _] => destruct b; [done|] end).
      match goal with |- context [if ?b then inl _ else _] => destruct b eqn:Hb; [done|] end. split_and!; [lia|lia| |done].
      split; [done|]. split; [done|]. left. split; [done|]. split; [|by apply Hns]. unfold in_own_array. slot_lia.
    + eapply yields_bind; [by apply yields_GetBagByPos|]. intros o [-> Hb].
      destruct (bag_at E w p bag) as [b|] eqn:Hba; [|by apply yields_ret].
      destruct (Hb b eq_refl) as (bi & Hbi & Hib). eapply yields_bind; [by apply yields_here_item|]. intros ? ->.
      apply yields_ret. destruct (ok_item E w Hw b bi Hbi) as [bt Hbt]. rewrite (good_template E bi bt Hbt).
      destruct (Z.leb_spec (ContainerSlots bt) slot); [done|]. destruct (ItemCanGoIntoBag t bt); simpl; [|done].
      split_and!; [lia|lia| |done].
      destruct (is_bag_good E bi bt Hbt Hib) as (_ & Hn & _). eapply bag_place; [done..|lia].
Qed.

(** ** A sequence of stages *)

Definition stage_good (s : stage) : Prop := match s with must f | may f => stage_ok f end.

Lemma yields_stages nsc l st : Forall stage_good l → 0 < st.2 → grow st →
  yields w (stages nsc l st) (λ r, match r with
    | inl sr => (∃ c, grow (sr_dest sr, c)) ∧ (sr_res sr = EQUIP_ERR_OK → nsc = 0 ∧ grow (sr_dest sr, 0))
    | inr st => 0 < st.2 ∧ grow st
    end).
Proof.
  revert st. induction l as [|s l IH]; intros st Hl Hc Hg; cbn [stages]; [by apply yields_ret|].
  apply Forall_cons in Hl as [Hs Hl].
  eapply yields_bind with (P := λ r, grow r.2 ∧ (r.1 ≠ EQUIP_ERR_OK → r.2 = st)); [by destruct s; apply Hs|].
  intros [res st'] [Hg' Hk]. simpl in *.
  destruct (Z.eqb_spec res EQUIP_ERR_OK) as [->|Hne]; simpl.
  - destruct (Z.eqb_spec st'.2 0) as [E0|].
    + apply yields_ret. unfold all_placed. destruct st' as [dest' c]; simpl in *. subst c.
      destruct (Z.eqb_spec nsc 0); simpl; split; try done; by exists 0.
    + apply IH; [done| |done]. destruct Hg' as (_ & _ & _ & _ & ? & _). lia.
  - destruct s; [|apply IH; [done| |done]; by rewrite (Hk Hne)]. apply yields_ret. destruct st' as [dest' c]. split; [by exists c|done].
Qed.

Lemma own_ok first last merge bag slot :
  (INVENTORY_SLOT_BAG_END <=? first) && ((last <=? BANK_SLOT_ITEM_END) || (KEYRING_SLOT_START <=? first) && (last <=? CURRENCYTOKEN_SLOT_END)) = true →
  stage_good (must (CanStoreItem_InInventorySlots E p first last t merge src bag slot)).
Proof. intros H. apply stage_own; lia. Qed.

Lemma family_good bag slot both : Forall stage_good (family_stages E p t src bag slot both).
Proof.
  unfold family_stages. repeat case_match; repeat (apply Forall_cons; split; [by apply own_ok|]); apply Forall_nil; done.
Qed.

Lemma bags_good (f : Z → list (Z * Z) * Z → iw (Z * (list (Z * Z) * Z))) l :
  (∀ i, stage_ok (f i)) → Forall stage_good ((λ i, may (f i)) <$> l).
Proof. intros H. apply Forall_fmap, Forall_true. exact H. Qed.

Lemma merge_good bag slot : Forall stage_good (merge_stages E p t src bag slot).
Proof.
  unfold merge_stages. case_match; [|by apply Forall_nil].
  apply Forall_app. split; [repeat (apply Forall_cons; split; [by apply own_ok|]); by apply Forall_nil|].
  apply Forall_app. split; [case_match; [|by apply Forall_nil]|]; apply bags_good; intros i; apply stage_bag.
Qed.

Lemma special_good bag slot : Forall stage_good (special_stages E p t src bag slot).
Proof.
  unfold special_stages. case_match; [|by apply Forall_nil]. apply Forall_app. split; [apply family_good|].
  apply bags_good. intros i. apply stage_bag.
Qed.

Lemma free_good bag slot : Forall stage_good (free_stages E p t src bag slot).
Proof. apply Forall_cons. split; [by apply own_ok|]. apply bags_good. intros i. apply stage_bag. Qed.

Lemma specific_bag_good bag slot : Forall stage_good (specific_bag_stages E p t src bag slot).
Proof.
  unfold specific_bag_stages.
  assert (∀ merge, stage_good (must (first_fit (CanStoreItem_InBag E p bag t merge false src NULL_BAG slot)
    (CanStoreItem_InBag E p bag t merge true src NULL_BAG slot)))) as Hb
    by (intros merge; apply stage_first_fit; apply stage_bag).
  apply Forall_app. split; repeat case_match; try apply Forall_app; try split; try apply family_good;
    repeat (apply Forall_cons; split; [first [by apply own_ok|apply Hb]|]); by apply Forall_nil.
Qed.

Lemma stages_good bag slot : 0 ≤ bag < 256 → 0 ≤ slot < 256 → (bag = INVENTORY_SLOT_BAG_0 → is_bag_slot slot = false) →
  Forall stage_good (CanStoreItem_stages E p bag slot t src false).
Proof.
  intros. unfold CanStoreItem_stages. repeat (apply Forall_app; split).
  - case_match; [|by apply Forall_nil]. apply Forall_singleton. by apply stage_specific.
  - case_match; [|by apply Forall_nil]. apply specific_bag_good.
  - apply merge_good.
  - apply special_good.
Qed.

End Look.

(** ** [CanStoreItem] *)

(** What is in the list so far fits, also where the search fails. *)
Definition partial (w : World) (p : Z) (t : ItemTemplate) (src : option Z) (d0 dest : list (Z * Z)) : Prop :=
  ∃ total c, growing w p t src d0 total (dest, c).

Lemma growing_start w p t src d0 c : 0 ≤ c < 2 ^ 32 → growing w p t src d0 c (d0, c).
Proof.
  intros Hc. exists []. simpl. rewrite app_nil_r. split_and!; [done|by apply Forall_nil|done|lia|lia|unfold planned; simpl; lia].
Qed.

Lemma partial_start w p t src d0 : partial w p t src d0 d0.
Proof. exists 0, 0. by apply growing_start. Qed.

Lemma yields_CanStoreItem w p bag slot dest a it t : inv_ok E w → here w p → items w !! a = Some it → good E it t →
  0 ≤ bag < 256 → 0 ≤ slot < 256 → (bag = INVENTORY_SLOT_BAG_0 → is_bag_slot slot = false) →
  yields w (CanStoreItem_item E p bag slot dest (Some a) false) (λ sr, partial w p t (Some a) dest (sr_dest sr) ∧
    (sr_res sr = EQUIP_ERR_OK → growing w p t (Some a) dest (Count it) (sr_dest sr, 0))).
Proof.
  intros Hw Hp Ha Ht Hbag Hslot Hns. unfold CanStoreItem_item, CanStoreItem.
  pose proof (good_count E it t Ht) as Hc. pose proof (good_template E it t Ht) as Hgt.
  pose proof (good_max E it t Ht) as Hmax. assert (0 < GetMaxStackSize t < 2 ^ 32) as Hmax' by (pow_consts; lia).
  pose proof (partial_start w p t (Some a) dest) as Hstart.
  eapply yields_bind; [by apply yields_here_item|]. intros ? ->. rewrite Hgt.
  assert (∀ a', Some a = Some a' → live w a') as Hlive by (intros ? [= <-]; by exists it).
  eapply yields_bind with (P := λ o, ∀ r, o = Some r → r ≠ EQUIP_ERR_OK).
  { eapply yields_bind; [by apply yields_here_item|]. intros ? ->.
    destruct (m_lootGenerated it); [by apply yields_ret; intros ? [= <-]|].
    eapply yields_bind; [by eapply yields_IsBindedNotWith|]. intros b _. apply yields_ret. destruct b; by intros ? [= <-]. }
  intros [res|] Hr; [apply yields_ret; simpl; split; [done|]; intros ->; by destruct (Hr _ eq_refl)|].
  eapply yields_bind; [apply yields_CanTakeMore; [done..|unfold in_u; lia]|]. intros [res set] Hset. simpl in Hset.
  assert (in_u 32 (default 0 set)) as Hu by (destruct set; [by apply Hset|by unfold in_u; simpl; lia]).
  set (nsc := default 0 set) in *.
  destruct (negb (res =? EQUIP_ERR_OK) && (Count it =? nsc)) eqn:Hskip.
  { apply yields_ret. simpl. split; [done|]. intros ->. by rewrite Z.eqb_refl in Hskip. }
  set (count := if res =? EQUIP_ERR_OK then Count it else uwrap 32 (Count it - nsc)).
  assert (0 < count < 2 ^ 32) as Hcount.
  { unfold count. destruct (Z.eqb_spec res EQUIP_ERR_OK); [lia|]. simpl in Hskip. apply Z.eqb_neq in Hskip.
    unfold in_u in Hu. unfold uwrap. pose proof (Z.mod_pos_bound (Count it - nsc) (2 ^ 32)).
    enough ((Count it - nsc) mod 2 ^ 32 ≠ 0) by lia. intros Hz%Z.mod_divide; [|lia]. destruct Hz as [k Hk]. pow_consts; lia. }
  assert (growing w p t (Some a) dest count (dest, count)) as Hg by (apply growing_start; lia).
  assert (∀ sr, (∃ c, growing w p t (Some a) dest count (sr_dest sr, c)) ∧
    (sr_res sr = EQUIP_ERR_OK → nsc = 0 ∧ growing w p t (Some a) dest count (sr_dest sr, 0)) →
    partial w p t (Some a) dest (sr_dest sr) ∧
    (sr_res sr = EQUIP_ERR_OK → growing w p t (Some a) dest (Count it) (sr_dest sr, 0))) as Hend.
  { intros sr [[c Hc2] Hsr]. split; [by exists count, c|]. intros E1. destruct (Hsr E1) as [E0 Hg']. enough (Count it = count) as -> by done.
    unfold count. case_match; [done|]. rewrite E0, Z.sub_0_r. symmetry. apply uwrap_small. unfold in_u. lia. }
  eapply yields_bind; [apply (yields_stages w p t (Some a) dest count nsc); [by apply stages_good|simpl; lia|exact Hg]|].
  intros [sr|st] Hst; [apply yields_ret; by apply Hend|]. destruct Hst as [Hc' Hg'].
  eapply yields_bind; [by apply yields_src_bag|]. intros full _.
  destruct full; [apply yields_ret; split; [exists count, st.2; by destruct st|done]|].
  eapply yields_bind; [apply (yields_stages w p t (Some a) dest count nsc); [by apply free_good|done|exact Hg']|].
  intros [sr|st'] Hst'; apply yields_ret; [by apply Hend|]. split; [|done]. exists count, st'.2. destruct Hst'. by destruct st'.
Qed.

(** A plan made from nothing. *)
Lemma growing_ok w p t src count dest : growing w p t src [] count (dest, 0) → plan_ok w p t src dest ∧ planned dest = count.
Proof.
  intros (d & Hd & Hf & Hnd & _ & Hs). simpl in *. subst d. split; [|lia]. split; [|done]. apply Hnd. apply NoDup_nil_2.
Qed.

End Plans.
