(* ===== verification/StoreFacts.v ===== *)
(** * StoreFacts: what storing and taking out do to the positions

    [put] and [grow_stack] are the core of the world after [_StoreItem]; [takeout] after
    [RemoveItem]. Each keeps the invariant, and the positions are as expected. *)

From Stdlib Require Import ZArith Lia.
From S2P Require Import Prelude ByteBuffer Guid ItemData Inventory InventoryStore ItemFacts ItemRun PlanFacts.
Local Open Scope Z_scope.

Section Store.
Context (E : IEnv).

(** An item that is in no position. *)
Definition loose (w : World) (a : Z) : Prop := live w a ∧ ∀ p bag slot, 0 ≤ slot → at_pos E w p bag slot ≠ Some a.

Lemma loose_equiv w w' a : w' ≡ w → loose w a → loose w' a.
Proof.
  intros H [Hl Hp]. split; [by eapply live_equiv|]. intros p bag slot Hs. rewrite (at_pos_equiv E w w') by done. by apply Hp.
Qed.

(** What positions read of an item. *)
Definition acore (it : Item) := (Entry it, NumSlots it, m_bagslot it).

(** [b] is the object in some bag slot. *)
Definition in_bag_slot (w : World) (b : Z) : Prop :=
  ∃ p pl slot, players w !! p = Some pl ∧ is_bag_slot slot = true ∧ own_at pl slot = Some b.

Lemma bag_slot_at w p slot : is_bag_slot slot = true → at_pos E w p INVENTORY_SLOT_BAG_0 slot = pl ← players w !! p; own_at pl slot.
Proof. intros H. unfold at_pos. apply bag_slot_range in H as (_ & _ & ->). done. Qed.

Lemma loose_not_bag w a : loose w a → ¬ in_bag_slot w a.
Proof.
  intros [_ H] (p & pl & slot & Hp & Hs & Ha). apply (H p INVENTORY_SLOT_BAG_0 slot); [by apply bag_slot_range in Hs as [[]]|].
  rewrite bag_slot_at by done. by rewrite Hp.
Qed.

Lemma bag_at_slot w p bag b : bag_at E w p bag = Some b → in_bag_slot w b ∧ is_bag_slot bag = true.
Proof.
  unfold bag_at. destruct (is_bag_slot bag) eqn:Hs; [|done]. intros (pl & Hpl & (b' & Hb & (bi & Hbi & H)%bind_Some)%bind_Some)%bind_Some.
  destruct (is_bag E bi); [|done]. injection H as <-. split; [|done]. by exists p, pl, bag.
Qed.

Lemma bag_at_ext w w' p bag : (∀ p, m_items <$> players w' !! p = m_items <$> players w !! p) →
  (∀ b, in_bag_slot w b → Entry <$> items w' !! b = Entry <$> items w !! b) → bag_at E w' p bag = bag_at E w p bag.
Proof.
  intros Hp Hi. unfold bag_at. destruct (is_bag_slot bag) eqn:Hs; [|done]. specialize (Hp p).
  destruct (players w !! p) as [pl|] eqn:Hpl, (players w' !! p) as [pl'|]; try done. simpl in *. injection Hp as Hp.
  assert (own_at pl' bag = own_at pl bag) as -> by (unfold own_at; by rewrite Hp).
  destruct (own_at pl bag) as [b|] eqn:Hb; [|done]. simpl.
  specialize (Hi b). destruct (items w !! b) as [bi|], (items w' !! b) as [bi'|]; simpl in *.
  - assert (Some (Entry bi') = Some (Entry bi)) as [= He] by (apply Hi; by exists p, pl, bag). unfold is_bag. by rewrite He.
  - discriminate Hi. by exists p, pl, bag.
  - discriminate Hi. by exists p, pl, bag.
  - done.
Qed.

Lemma at_pos_ext w w' p bag slot : (∀ p, m_items <$> players w' !! p = m_items <$> players w !! p) →
  (∀ b, in_bag_slot w b → acore <$> items w' !! b = acore <$> items w !! b) → at_pos E w' p bag slot = at_pos E w p bag slot.
Proof.
  intros Hp Hi. unfold at_pos. destruct ((bag =? INVENTORY_SLOT_BAG_0) && in_own_array slot).
  - specialize (Hp p). destruct (players w !! p) as [pl|], (players w' !! p) as [pl'|]; try done. simpl in *.
    injection Hp as Hp. unfold own_at. by rewrite Hp.
  - rewrite (bag_at_ext w w'); [|done|].
    + destruct (bag_at E w p bag) as [b|] eqn:Hb; [|done]. simpl. apply bag_at_slot in Hb as [Hb _]. apply Hi in Hb.
      unfold in_bag. destruct (items w !! b), (items w' !! b); try done. simpl in *. by injection Hb as _ -> ->.
    + intros b Hb. apply Hi in Hb. destruct (items w !! b), (items w' !! b); try done. simpl in *. by injection Hb as -> _ _.
Qed.

(** ** A change that leaves the positions alone *)

(** The fields of an item the invariant ties to its position. *)
Definition fixed (it it' : Item) : Prop :=
  i_guid it' = i_guid it ∧ Owner it' = Owner it ∧ m_slot it' = m_slot it ∧ m_container it' = m_container it ∧ acore it' = acore it.

Lemma inv_ok_keep w w' : inv_ok E w → (∀ p, m_items <$> players w' !! p = m_items <$> players w !! p) →
  (∀ a it, items w !! a = Some it → ¬ loose w a → ∃ it', items w' !! a = Some it' ∧ fixed it it') →
  (∀ a it', items w' !! a = Some it' → ∃ t, good E it' t) →
  in_u 32 (m_hiItemGuid w') → (∀ a it', items w' !! a = Some it' → ∃ low, 0 ≤ low < m_hiItemGuid w' ∧ i_guid it' = MAKE_NEW_GUID low 0 HIGHGUID_ITEM) →
  (∀ a b it it', items w' !! a = Some it → items w' !! b = Some it' → i_guid it = i_guid it' → a = b) →
  inv_ok E w' ∧ (∀ p bag slot, at_pos E w' p bag slot = at_pos E w p bag slot) ∧ (∀ p bag, bag_at E w' p bag = bag_at E w p bag).
Proof.
  intros Hw Hp Hi Hgood Hc Hg Hu.
  assert (∀ b, in_bag_slot w b → ∃ it it', items w !! b = Some it ∧ items w' !! b = Some it' ∧ fixed it it') as Hb.
  { intros b Hb. assert (¬ loose w b) as Hl by (intros Hl; by apply loose_not_bag in Hl).
    destruct Hb as (p & pl & slot & Hpl & Hs & Ha). destruct (ok_live E w Hw p pl slot b Hpl Hs Ha) as (it & Hit & _).
    destruct (Hi b it Hit Hl) as (it' & ? & ?). by exists it, it'. }
  assert (∀ p bag slot, at_pos E w' p bag slot = at_pos E w p bag slot) as Hat.
  { intros p bag slot. apply at_pos_ext; [done|]. intros b (it & it' & -> & -> & (_ & _ & _ & _ & H))%Hb. simpl. by f_equal. }
  assert (∀ p bag, bag_at E w' p bag = bag_at E w p bag) as Hba.
  { intros p bag. apply bag_at_ext; [done|]. intros b (it & it' & -> & -> & (_ & _ & _ & _ & H))%Hb. simpl. by injection H as ->. }
  split; [|done]. split; [..|done|done|done].
  - intros p pl' Hpl'. specialize (Hp p). rewrite Hpl' in Hp. symmetry in Hp. apply fmap_Some in Hp as (pl & Hpl & ->).
    by apply (ok_array E w Hw p).
  - done.
  - intros p pl' slot a Hpl' Hs Ha. specialize (Hp p). rewrite Hpl' in Hp. symmetry in Hp. apply fmap_Some in Hp as (pl & Hpl & Hm).
    assert (own_at pl slot = Some a) as Ha' by (unfold own_at in *; by rewrite <- Hm).
    destruct (ok_live E w Hw p pl slot a Hpl Hs Ha') as (it0 & Hit0 & Hib).
    destruct (Hb a) as (it & it' & Hit & -> & (_ & _ & _ & _ & [= He _ _])); [by exists p, pl, slot|]. exists it'. split; [done|].
    rewrite <- Hib. assert (it0 = it) as -> by congruence. unfold is_bag. by rewrite He.
  - intros p bag slot a Hs Ha. rewrite Hat in Ha. destruct (ok_place E w Hw p bag slot a Hs Ha) as (it & Hit & Ho & Hsl & Hco).
    destruct (Hi a it Hit) as (it' & Hit' & (_ & Eo & Es & Ec & _)); [intros [_ Hl]; by apply (Hl p bag slot)|].
    exists it'. split_and!; [done|congruence..|]. rewrite Ec, Hco. unfold container_at. by rewrite Hba.
Qed.

(** ** A stack grows *)

Definition set_count (n a : Z) (w : World) : World := with_items (alter (with_Count n) a (items w)) w.

Lemma lookup_alter_cases {A} (f : A → A) (m : gmap Z A) i j x : alter f i m !! j = Some x →
  ∃ y, m !! j = Some y ∧ x = if decide (i = j) then f y else y.
Proof.
  destruct (decide (i = j)) as [->|].
  - rewrite lookup_alter_eq. intros (y & -> & ->)%fmap_Some. by exists y.
  - rewrite lookup_alter_ne by done. intros H. by exists x.
Qed.

Lemma inv_set_count w a it t n : inv_ok E w → items w !! a = Some it → good E it t → 0 < n ≤ GetMaxStackSize t →
  inv_ok E (set_count n a w) ∧ (∀ p bag slot, at_pos E (set_count n a w) p bag slot = at_pos E w p bag slot) ∧
  (∀ p bag, bag_at E (set_count n a w) p bag = bag_at E w p bag).
Proof.
  intros Hw Ha Ht Hn. apply inv_ok_keep; [done|done|..]; simpl.
  - intros b bt Hb _. destruct (decide (a = b)) as [<-|].
    + rewrite lookup_alter_eq, Hb. by exists (with_Count n bt).
    + rewrite lookup_alter_ne by done. by exists bt.
  - intros b bt' (bt & Hb & ->)%lookup_alter_cases. destruct (decide (a = b)) as [<-|]; [|by apply (ok_item E w Hw b)].
    assert (bt = it) as -> by congruence. exists t. destruct Ht. by split.
  - apply (ok_counter E w Hw).
  - intros b bt' (bt & Hb & ->)%lookup_alter_cases. destruct (ok_guid E w Hw b bt Hb) as (low & ? & ?). exists low. by case_match.
  - intros b c bt ct (bt' & Hb & ->)%lookup_alter_cases (ct' & Hc & ->)%lookup_alter_cases Hg.
    apply (ok_unique E w Hw b c bt' ct'); [done..|]. by destruct (decide (a = b)), (decide (a = c)).
Qed.

(** ** A loose item goes away *)

Definition freed (a : Z) (w : World) : World := with_items (delete a (items w)) w.

Lemma inv_freed w a : inv_ok E w → loose w a →
  inv_ok E (freed a w) ∧ (∀ p bag slot, at_pos E (freed a w) p bag slot = at_pos E w p bag slot) ∧
  (∀ p bag, bag_at E (freed a w) p bag = bag_at E w p bag).
Proof.
  intros Hw Ha. apply inv_ok_keep; [done|done|..]; simpl.
  - intros b bt Hb Hn. rewrite lookup_delete_ne by (intros ->; by destruct Hn). by exists bt.
  - intros b bt [_ Hb]%lookup_delete_Some. by apply (ok_item E w Hw b).
  - apply (ok_counter E w Hw).
  - intros b bt [_ Hb]%lookup_delete_Some. by apply (ok_guid E w Hw b).
  - intros b c bt ct [_ Hb]%lookup_delete_Some [_ Hc]%lookup_delete_Some. by apply (ok_unique E w Hw).
Qed.

(** Its owner changes. *)
Definition owned (a p : Z) (w : World) : World := with_items (alter (with_Owner p) a (items w)) w.

Lemma inv_owned w a p : inv_ok E w → loose w a →
  inv_ok E (owned a p w) ∧ (∀ q bag slot, at_pos E (owned a p w) q bag slot = at_pos E w q bag slot) ∧
  (∀ q bag, bag_at E (owned a p w) q bag = bag_at E w q bag).
Proof.
  intros Hw Ha. apply inv_ok_keep; [done|done|..]; simpl.
  - intros b bt Hb Hn. rewrite lookup_alter_ne by (intros ->; by destruct Hn). by exists bt.
  - intros b bt' (bt & Hb & ->)%lookup_alter_cases. destruct (ok_item E w Hw b bt Hb) as [t Ht].
    exists t. case_match; [|done]. destruct Ht. by split.
  - apply (ok_counter E w Hw).
  - intros b bt' (bt & Hb & ->)%lookup_alter_cases. destruct (ok_guid E w Hw b bt Hb) as (low & ? & ?). exists low. by case_match.
  - intros b c bt ct (bt' & Hb & ->)%lookup_alter_cases (ct' & Hc & ->)%lookup_alter_cases Hg.
    apply (ok_unique E w Hw b c bt' ct'); [done..|]. by destruct (decide (a = b)), (decide (a = c)).
Qed.

(** ** A new item *)

Definition created (a : Z) (it : Item) (w : World) : World :=
  with_m_hiItemGuid (m_hiItemGuid w + 1) (with_items (<[a := it]> (items w)) w).

Lemma item_guid_inj low low' : 0 ≤ low < 2 ^ 32 → 0 ≤ low' < 2 ^ 32 →
  MAKE_NEW_GUID low 0 HIGHGUID_ITEM = MAKE_NEW_GUID low' 0 HIGHGUID_ITEM → low = low'.
Proof.
  assert (∀ l, 0 ≤ l < 2 ^ 32 → MAKE_NEW_GUID l 0 HIGHGUID_ITEM = l + 0x4000 * 2 ^ 48) as H.
  { intros l Hl. unfold MAKE_NEW_GUID. rewrite (uwrap_small 64 l) by (unfold in_u; pow_consts; lia).
    rewrite Z.shiftl_0_l. change (uwrap 64 0) with 0. rewrite Z.lor_0_r.
    change (uwrap 64 (Z.shiftl (uwrap 64 HIGHGUID_ITEM) 48)) with (Z.shiftl 0x4000 48).
    rewrite lor_disjoint by (unfold in_u; pow_consts; lia). apply uwrap_small. unfold in_u. pow_consts. lia. }
  intros H1 H2. rewrite !H by done. lia.
Qed.

Lemma inv_created w a it t : inv_ok E w → items w !! a = None → good E it t → m_hiItemGuid w + 1 < 2 ^ 32 →
  i_guid it = MAKE_NEW_GUID (m_hiItemGuid w) 0 HIGHGUID_ITEM →
  inv_ok E (created a it w) ∧ (∀ p bag slot, at_pos E (created a it w) p bag slot = at_pos E w p bag slot) ∧
  (∀ p bag, bag_at E (created a it w) p bag = bag_at E w p bag).
Proof.
  intros Hw Ha Ht Hhi Hg. pose proof (ok_counter E w Hw) as [Hc0 _]. apply inv_ok_keep; [done|done|..]; simpl.
  - intros b bt Hb _. rewrite lookup_insert_ne by congruence. by exists bt.
  - intros b bt [[_ <-]|[_ Hb]]%lookup_insert_Some; [by exists t|by apply (ok_item E w Hw b)].
  - unfold in_u. lia.
  - intros b bt [[_ <-]|[_ Hb]]%lookup_insert_Some.
    + exists (m_hiItemGuid w). split; [lia|done].
    + destruct (ok_guid E w Hw b bt Hb) as (low & ? & ?). exists low. split; [lia|done].
  - assert (∀ b bt, items w !! b = Some bt → i_guid bt ≠ i_guid it) as Hne.
    { intros b bt Hb. destruct (ok_guid E w Hw b bt Hb) as (low & Hl & ->). rewrite Hg. intros H%item_guid_inj; lia. }
    intros b c bt ct [[<- <-]|[_ Hb]]%lookup_insert_Some [[<- <-]|[_ Hc]]%lookup_insert_Some He; [done|..].
    + symmetry in He. by apply (Hne c ct) in He.
    + by apply (Hne b bt) in He.
    + by apply (ok_unique E w Hw b c bt ct).
Qed.

(** ** A position is written *)

Definition own_put (p slot : Z) (o : option Z) (w : World) : World :=
  with_players (alter (λ pl, with_m_items (<[Z.to_nat slot := o]> (m_items pl)) pl) p (players w)) w.

Definition bag_put (b slot : Z) (o : option Z) (w : World) : World :=
  with_items (alter (λ bi, with_m_bagslot (<[Z.to_nat slot := o]> (m_bagslot bi)) bi) b (items w)) w.

Definition set_slot (p bag slot : Z) (o : option Z) (w : World) : World :=
  match container_at E w p bag with
  | None => own_put p slot o w
  | Some b => bag_put b slot o w
  end.

(** The item gets its place: the owner, the slot and the bag. *)
Definition placed (a p slot : Z) (c : option Z) (w : World) : World :=
  with_items (alter (λ it, with_m_slot slot (with_m_container c (with_Owner p it))) a (items w)) w.

Lemma own_at_insert pl slot o s : length (m_items pl) = 150%nat → 0 ≤ slot < 150 → 0 ≤ s →
  own_at (with_m_items (<[Z.to_nat slot := o]> (m_items pl)) pl) s = if decide (s = slot) then o else own_at pl s.
Proof.
  intros Hl Hs H0. unfold own_at. simpl. destruct (decide (s = slot)) as [->|].
  - by rewrite list_lookup_insert_eq by lia.
  - by rewrite list_lookup_insert_ne by lia.
Qed.

Lemma place_bag_at w p bag slot b : has_place E w p bag slot → container_at E w p bag = Some b →
  bag ≠ INVENTORY_SLOT_BAG_0 ∧ bag_at E w p bag = Some b ∧ ∃ bi, items w !! b = Some bi ∧ is_bag E bi = true ∧ 0 ≤ slot < NumSlots bi.
Proof.
  intros (_ & Hs & Hpl) Hc. unfold container_at in Hc. destruct (Z.eqb_spec bag INVENTORY_SLOT_BAG_0) as [|Hne]; [done|].
  split; [done|]. split; [done|]. destruct (bag_at_here E w p bag b Hc) as (bi & Hbi & Hib). exists bi. split_and!; [done|done|lia|].
  destruct Hpl as [(? & _)|(b' & bi' & Hb' & Hbi' & Hlt)]; [done|]. congruence.
Qed.

Lemma place_own w p bag slot : has_place E w p bag slot → container_at E w p bag = None →
  bag = INVENTORY_SLOT_BAG_0 ∧ in_own_array slot = true ∧ is_bag_slot slot = false.
Proof.
  intros (_ & _ & [H|(b & bi & Hb & _)]) Hc; [done|]. exfalso. unfold container_at in Hc.
  destruct (Z.eqb_spec bag INVENTORY_SLOT_BAG_0) as [->|]; [by apply bag_at_slot in Hb as [_ ?]|congruence].
Qed.

(** A bag object is in one bag slot only. *)
Lemma bag_at_inj w p q bag bag' b : inv_ok E w → bag_at E w p bag = Some b → bag_at E w q bag' = Some b → p = q ∧ bag = bag'.
Proof.
  intros Hw H1 H2. assert (∀ r c, bag_at E w r c = Some b → at_pos E w r INVENTORY_SLOT_BAG_0 c = Some b ∧ 0 ≤ c) as H.
  { intros r c Hb. pose proof (bag_at_slot w r c b Hb) as [_ Hs]. split; [|by apply bag_slot_range in Hs as [[]]].
    rewrite bag_slot_at by done. unfold bag_at in Hb. rewrite Hs in Hb.
    apply bind_Some in Hb as (pl & -> & (b' & Hb & (bi & _ & Hi)%bind_Some)%bind_Some). simpl. destruct (is_bag E bi); [|done].
    by injection Hi as <-. }
  destruct (H _ _ H1) as [Ha Hr], (H _ _ H2) as [Ha' Hr'].
  destruct (ok_place E w Hw _ _ _ _ Hr Ha) as (it & Hit & Ho & Hs & _), (ok_place E w Hw _ _ _ _ Hr' Ha') as (it' & Hit' & Ho' & Hs' & _).
  assert (it' = it) as -> by congruence. split; congruence.
Qed.

Section Write.
Context (w : World) (Hw : inv_ok E w) (p bag slot : Z) (Hp : here w p) (Hpl : has_place E w p bag slot) (o : option Z).
Let w' := set_slot p bag slot o w.

Lemma set_slot_bag_at q b : bag_at E w' q b = bag_at E w q b.
Proof.
  unfold w', set_slot. destruct (container_at E w p bag) as [c|] eqn:Hc.
  - apply bag_at_ext; [done|]. intros x _. simpl. destruct (decide (c = x)) as [<-|]; [|by rewrite lookup_alter_ne].
    rewrite lookup_alter_eq. by destruct (items w !! c).
  - destruct (place_own w p bag slot Hpl Hc) as (Hbag & Ho & Hs). destruct Hpl as (_ & Hr & _). unfold bag_at.
    destruct (is_bag_slot b) eqn:Hb; [|done]. simpl. destruct (decide (p = q)) as [->|]; [|by rewrite lookup_alter_ne].
    rewrite lookup_alter_eq. destruct (players w !! q) as [pl|] eqn:Hq; [|done]. simpl.
    apply own_array_range in Ho; [|lia]. apply bag_slot_range in Hb as Hb'.
    rewrite own_at_insert; [|by eapply (ok_array E w Hw)|slot_lia|lia]. rewrite decide_False; [done|]. congruence.
Qed.

Lemma at_set_slot q b s : 0 ≤ s → at_pos E w' q b s = if decide ((q, b, s) = (p, bag, slot)) then o else at_pos E w q b s.
Proof.
  intros H0. unfold at_pos. rewrite set_slot_bag_at. unfold w', set_slot. destruct (container_at E w p bag) as [c|] eqn:Hc.
  - destruct (place_bag_at w p bag slot c Hpl Hc) as (Hne & Hb & bi & Hbi & Hib & Hs).
    destruct ((b =? INVENTORY_SLOT_BAG_0) && in_own_array s) eqn:Hown; simpl.
    + rewrite decide_False; [done|]. intros [= -> -> ->]. apply Z.eqb_neq in Hne. by rewrite Hne in Hown.
    + destruct (bag_at E w q b) as [d|] eqn:Hd; simpl.
      * unfold in_bag. simpl. destruct (decide (c = d)) as [<-|Hcd].
        -- destruct (bag_at_inj w p q bag b c Hw Hb Hd) as [<- <-]. rewrite lookup_alter_eq, Hbi. simpl.
           destruct (decide (s = slot)) as [->|Hss].
           ++ rewrite decide_True by done. rewrite (proj2 (Z.ltb_lt _ _)) by lia.
              destruct (ok_item E w Hw c bi Hbi) as [t Ht]. destruct (is_bag_good E bi t Ht Hib) as (Hl & _ & Hn).
              rewrite list_lookup_insert_eq; [done|]. slot_lia.
           ++ rewrite decide_False by congruence. case_match; [|done]. by rewrite list_lookup_insert_ne by lia.
        -- rewrite decide_False; [by rewrite lookup_alter_ne|]. intros [= -> -> ->]. congruence.
      * rewrite decide_False; [done|]. intros [= -> -> ->]. congruence.
  - destruct (place_own w p bag slot Hpl Hc) as (Hbag & Ho & Hs). destruct Hpl as (_ & Hr & _). apply own_array_range in Ho as Ho'; [|lia].
    destruct ((b =? INVENTORY_SLOT_BAG_0) && in_own_array s) eqn:Hown; simpl.
    + apply andb_true_iff in Hown as [->%Z.eqb_eq Hos]. destruct (decide (p = q)) as [<-|Hpq].
      * rewrite lookup_alter_eq. destruct Hp as [pl Hpl']. rewrite Hpl'. simpl.
        rewrite own_at_insert; [|by eapply (ok_array E w Hw)|slot_lia|done].
        destruct (decide (s = slot)) as [->|]; [by rewrite decide_True by congruence|by rewrite decide_False by congruence].
      * rewrite lookup_alter_ne by done. by rewrite decide_False by congruence.
    + rewrite decide_False; [done|]. intros [= -> -> ->]. by rewrite Hbag, Ho in Hown.
Qed.

Lemma set_slot_item x it : items w !! x = Some it → ∃ it', items w' !! x = Some it' ∧
  i_guid it' = i_guid it ∧ Entry it' = Entry it ∧ Owner it' = Owner it ∧ Count it' = Count it ∧ m_slot it' = m_slot it ∧
  m_container it' = m_container it ∧ m_lootGenerated it' = m_lootGenerated it.
Proof.
  intros Hx. unfold w', set_slot. destruct (container_at E w p bag) as [c|]; [|by exists it]. simpl.
  destruct (decide (c = x)) as [<-|]; [|rewrite lookup_alter_ne by done; by exists it].
  rewrite lookup_alter_eq, Hx. by eexists.
Qed.

Lemma set_slot_item_inv x it' : items w' !! x = Some it' → ∃ it, items w !! x = Some it ∧ i_guid it' = i_guid it ∧
  ∀ t, good E it t → good E it' t.
Proof.
  unfold w', set_slot. destruct (container_at E w p bag) as [c|] eqn:Hc; simpl; [|intros H; by exists it'].
  intros (it & Hx & ->)%lookup_alter_cases. exists it. split; [done|]. case_match; [|done]. split; [done|].
  intros t []. split; try done. simpl. by rewrite length_insert.
Qed.

Lemma set_slot_player q pl' : players w' !! q = Some pl' → ∃ pl, players w !! q = Some pl ∧ length (m_items pl') = length (m_items pl) ∧
  (∀ s, is_bag_slot s = true → own_at pl' s = own_at pl s) ∧ Coinage pl' = Coinage pl ∧ m_trade pl' = m_trade pl.
Proof.
  unfold w', set_slot. destruct (container_at E w p bag) as [c|] eqn:Hc; simpl; [intros H; by exists pl'|].
  destruct (place_own w p bag slot Hpl Hc) as (_ & Ho & Hs). destruct Hpl as (_ & Hr & _). apply own_array_range in Ho as Ho'; [|lia].
  intros (pl & Hq & ->)%lookup_alter_cases. exists pl. split; [done|]. case_match; [|done]. simpl. rewrite length_insert.
  split_and!; [done| |done|done]. intros s Hb. apply bag_slot_range in Hb as Hb'.
  rewrite own_at_insert; [|by eapply (ok_array E w Hw)|slot_lia|lia]. rewrite decide_False; [done|]. congruence.
Qed.

Lemma set_slot_rest : trades w' = trades w ∧ m_hiItemGuid w' = m_hiItemGuid w.
Proof. unfold w', set_slot. by destruct (container_at E w p bag). Qed.

(** The position is written and the item at [a] is told. *)
Context (a : Z) (f : Item → Item) (Hf : ∀ it, i_guid (f it) = i_guid it ∧ acore (f it) = acore it ∧ ∀ t, good E it t → good E (f it) t).
Let w1 := with_items (alter f a (items w')) w'.

Lemma at_written q b s : 0 ≤ s → at_pos E w1 q b s = if decide ((q, b, s) = (p, bag, slot)) then o else at_pos E w q b s.
Proof.
  intros Hs. rewrite <- at_set_slot by done. apply at_pos_ext; [done|]. intros x _. unfold w1. simpl.
  destruct (decide (a = x)) as [<-|]; [|by rewrite lookup_alter_ne]. rewrite lookup_alter_eq.
  destruct (items w' !! a) as [it|]; [|done]. simpl. f_equal. apply Hf.
Qed.

Lemma bag_at_written q b : bag_at E w1 q b = bag_at E w q b.
Proof.
  rewrite <- set_slot_bag_at. apply bag_at_ext; [done|]. intros x _. unfold w1. simpl.
  destruct (decide (a = x)) as [<-|]; [|by rewrite lookup_alter_ne]. rewrite lookup_alter_eq.
  destruct (items w' !! a) as [it|]; [|done]. simpl. f_equal. destruct (Hf it) as (_ & [= H _ _] & _). done.
Qed.

Lemma written_item x it : items w !! x = Some it → ∃ it', items w1 !! x = Some (if decide (a = x) then f it' else it') ∧
  i_guid it' = i_guid it ∧ Entry it' = Entry it ∧ Owner it' = Owner it ∧ Count it' = Count it ∧ m_slot it' = m_slot it ∧
  m_container it' = m_container it ∧ m_lootGenerated it' = m_lootGenerated it.
Proof.
  intros Hx. destruct (set_slot_item x it Hx) as (it' & Hx' & H). exists it'. split; [|done]. unfold w1. simpl.
  destruct (decide (a = x)) as [<-|]; [|by rewrite lookup_alter_ne]. by rewrite lookup_alter_eq, Hx'.
Qed.

Lemma inv_written : (∀ q b s x, 0 ≤ s → at_pos E w1 q b s = Some x →
    ∃ it, items w1 !! x = Some it ∧ Owner it = q ∧ m_slot it = s ∧ m_container it = container_at E w q b) → inv_ok E w1.
Proof.
  intros Hplace. destruct set_slot_rest as [_ Hhi].
  assert (∀ x it', items w1 !! x = Some it' → ∃ it, items w !! x = Some it ∧ i_guid it' = i_guid it ∧ ∀ t, good E it t → good E it' t) as Hi.
  { intros x it' (it1 & Hx & ->)%lookup_alter_cases. destruct (set_slot_item_inv x it1 Hx) as (it & Hit & Hg & Ht).
    exists it. split; [done|]. destruct (Hf it1) as (Hg1 & _ & Ht1). case_match; [|done]. split; [congruence|]. auto. }
  split.
  - intros q pl' Hq. destruct (set_slot_player q pl' Hq) as (pl & Hpl' & -> & _). by apply (ok_array E w Hw q).
  - intros x it' Hx. destruct (Hi x it' Hx) as (it & Hit & _ & Ht). destruct (ok_item E w Hw x it Hit) as [t ?]. exists t. auto.
  - intros q pl' s x Hq Hs Hx. destruct (set_slot_player q pl' Hq) as (pl & Hpl' & _ & Hown & _). rewrite Hown in Hx by done.
    destruct (ok_live E w Hw q pl s x Hpl' Hs Hx) as (it & Hit & Hib). destruct (written_item x it Hit) as (it' & ? & _ & He & _).
    eexists. split; [done|]. rewrite <- Hib. unfold is_bag. case_decide; [|by rewrite He].
    destruct (Hf it') as (_ & [= -> _ _] & _). by rewrite He.
  - intros q b s x Hs Hx. destruct (Hplace q b s x Hs Hx) as (it & ? & ? & ? & Hc). exists it. split_and!; [done..|].
    rewrite Hc. unfold container_at. by rewrite bag_at_written.
  - change (in_u 32 (m_hiItemGuid w')). rewrite Hhi. apply (ok_counter E w Hw).
  - intros x it' Hx. destruct (Hi x it' Hx) as (it & Hit & -> & _). change (m_hiItemGuid w1) with (m_hiItemGuid w'). rewrite Hhi.
    by apply (ok_guid E w Hw x).
  - intros x y it' jt' Hx Hy. destruct (Hi x it' Hx) as (it & Hit & -> & _), (Hi y jt' Hy) as (jt & Hjt & -> & _).
    by apply (ok_unique E w Hw).
Qed.

End Write.

(** An item is in one position at most. *)
Lemma at_pos_inj w p q bag bag' slot slot' a : inv_ok E w → 0 ≤ slot → 0 ≤ slot' →
  at_pos E w p bag slot = Some a → at_pos E w q bag' slot' = Some a → (q, bag', slot') = (p, bag, slot).
Proof.
  intros Hw Hs Hs' H1 H2. destruct (ok_place E w Hw _ _ _ _ Hs H1) as (it & Hit & Ho & Hsl & Hc),
    (ok_place E w Hw _ _ _ _ Hs' H2) as (it' & Hit' & Ho' & Hsl' & Hc'). assert (it' = it) as -> by congruence.
  assert (∀ r b s, at_pos E w r b s = Some a → container_at E w r b = None → b = INVENTORY_SLOT_BAG_0) as Hn.
  { intros r b s Ha Hr. unfold container_at in Hr. destruct (Z.eqb_spec b INVENTORY_SLOT_BAG_0); [done|].
    unfold at_pos in Ha. rewrite (proj2 (Z.eqb_neq _ _)) in Ha by done. simpl in Ha. by rewrite Hr in Ha. }
  assert (∀ r b c, container_at E w r b = Some c → bag_at E w r b = Some c) as Hb.
  { intros r b c. unfold container_at. by case_match. }
  destruct (m_container it) as [c|].
  - symmetry in Hc, Hc'. apply Hb in Hc, Hc'. destruct (bag_at_inj w q p bag' bag c Hw Hc' Hc) as [-> ->]. congruence.
  - symmetry in Hc, Hc'. apply (Hn _ _ _ H1) in Hc. apply (Hn _ _ _ H2) in Hc'. congruence.
Qed.

(** ** An item is put into a position, or taken out *)

Definition put (p bag slot a : Z) (w : World) : World :=
  placed a p slot (container_at E w p bag) (set_slot p bag slot (Some a) w).

Lemma put_at w p bag slot a q b s : inv_ok E w → here w p → has_place E w p bag slot → 0 ≤ s →
  at_pos E (put p bag slot a w) q b s = if decide ((q, b, s) = (p, bag, slot)) then Some a else at_pos E w q b s.
Proof. intros. apply at_written; try done. intros it. split_and!; try done. by intros t []. Qed.

Lemma inv_put w p bag slot a : inv_ok E w → here w p → has_place E w p bag slot → loose w a → inv_ok E (put p bag slot a w).
Proof.
  intros Hw Hp Hpl [[it Ha] Hl]. apply (inv_written w Hw p bag slot Hp Hpl (Some a)).
  { intros x. split_and!; try done. by intros t []. }
  intros q b s x Hs Hx. change (at_pos E (put p bag slot a w) q b s = Some x) in Hx. rewrite put_at in Hx by done. case_decide as Hd.
  - injection Hd as -> -> ->. injection Hx as <-. destruct (written_item w p bag slot (Some a) a
      (λ it, with_m_slot slot (with_m_container (container_at E w p bag) (with_Owner p it))) a it Ha) as (it' & Hit' & _).
    rewrite decide_True in Hit' by done. eexists. split; [exact Hit'|]. done.
  - destruct (ok_place E w Hw q b s x Hs Hx) as (xt & Hxt & Ho & Hsl & Hc). assert (a ≠ x) by (intros ->; by apply (Hl q b s)).
    destruct (written_item w p bag slot (Some a) a
      (λ it, with_m_slot slot (with_m_container (container_at E w p bag) (with_Owner p it))) x xt Hxt) as (it' & Hit' & _ & _ & Eo & _ & Es & Ec & _).
    rewrite decide_False in Hit' by done. exists it'. split_and!; [done|congruence..].
Qed.

Definition take_out (p bag slot a : Z) (w : World) : World :=
  let w := set_slot p bag slot None w in with_items (alter (λ it, with_m_slot NULL_SLOT (with_m_container None it)) a (items w)) w.

Lemma take_out_at w p bag slot a q b s : inv_ok E w → here w p → has_place E w p bag slot → 0 ≤ s →
  at_pos E (take_out p bag slot a w) q b s = if decide ((q, b, s) = (p, bag, slot)) then None else at_pos E w q b s.
Proof. intros. apply (at_written w); try done. intros it. split_and!; try done. by intros t []. Qed.

Lemma take_out_ok w p bag slot a : inv_ok E w → here w p → has_place E w p bag slot → at_pos E w p bag slot = Some a →
  inv_ok E (take_out p bag slot a w) ∧ loose (take_out p bag slot a w) a.
Proof.
  intros Hw Hp Hpl Hat. assert (0 ≤ slot) as H0 by apply Hpl.
  assert (∀ q b s, 0 ≤ s → at_pos E (take_out p bag slot a w) q b s ≠ Some a) as Hno.
  { intros q b s Hs. rewrite take_out_at by done. case_decide as Hd; [done|]. intros Ha. apply Hd. by eapply at_pos_inj. }
  split.
  - apply (inv_written w Hw p bag slot Hp Hpl None).
    { intros it. split_and!; try done. by intros t []. }
    intros q b s x Hs Hx. assert (a ≠ x) by (intros ->; by apply (Hno q b s)).
    change (at_pos E (take_out p bag slot a w) q b s = Some x) in Hx. rewrite take_out_at in Hx by done. case_decide; [done|].
    destruct (ok_place E w Hw q b s x Hs Hx) as (xt & Hxt & Ho & Hsl & Hc).
    destruct (written_item w p bag slot None a (λ it, with_m_slot NULL_SLOT (with_m_container None it)) x xt Hxt)
      as (it' & Hit' & _ & _ & Eo & _ & Es & Ec & _).
    rewrite decide_False in Hit' by done. exists it'. split_and!; [done|congruence..].
  - split; [|done]. destruct (at_pos_live E w Hw p bag slot a H0 Hat) as [it Hit].
    destruct (written_item w p bag slot None a (λ it, with_m_slot NULL_SLOT (with_m_container None it)) a it Hit) as (it' & Hit' & _).
    by eexists.
Qed.

End Store.
