(* ===== verification/StoreRun.v ===== *)
(** * StoreRun: what [_StoreItem] and [RemoveItem] do, up to the core

    Each program runs without a fault and ends in a world that is equivalent to a core
    operation of StoreFacts ([put], [set_count], [created], [owned], [freed], [take_out])
    on the world it began in. *)

From Stdlib Require Import ZArith Lia.
From S2P Require Import Prelude ByteBuffer Guid ItemData Inventory InventoryStore ItemFacts ItemRun PlanFacts StoreFacts.
Local Open Scope Z_scope.

(** ** The core operations respect equivalence *)

Lemma alter_core {A B} (c : A → B) (f g : A → A) (m m' : gmap Z A) a : c <$> m' = c <$> m →
  (∀ x x', c x' = c x → c (f x') = c (g x)) → c <$> alter f a m' = c <$> alter g a m.
Proof.
  intros Hm Hfg. apply map_eq. intros b. rewrite !lookup_fmap. apply (f_equal (lookup b)) in Hm. rewrite !lookup_fmap in Hm.
  destruct (decide (a = b)) as [<-|]; [|by rewrite !lookup_alter_ne]. rewrite !lookup_alter_eq.
  destruct (m !! a), (m' !! a); simpl in *; try done. f_equal. apply Hfg. by injection Hm.
Qed.

Lemma alter_items_equiv (w w' : World) f g a : w' ≡ w → (∀ it it', icore it' = icore it → icore (f it') = icore (g it)) →
  with_items (alter f a (items w')) w' ≡ with_items (alter g a (items w)) w.
Proof.
  intros [= Hi Hp Ht Hg] Hfg. unfold equiv, item_world_equiv, wcore. simpl. rewrite Hp, Ht, Hg. by rewrite (alter_core icore f g (items w)).
Qed.

Lemma alter_players_equiv (w w' : World) f g p : w' ≡ w → (∀ pl pl', pcore pl' = pcore pl → pcore (f pl') = pcore (g pl)) →
  with_players (alter f p (players w')) w' ≡ with_players (alter g p (players w)) w.
Proof.
  intros [= Hi Hp Ht Hg] Hfg. unfold equiv, item_world_equiv, wcore. simpl. rewrite Hi, Ht, Hg. by rewrite (alter_core pcore f g (players w)).
Qed.

(** A function that changes a few core fields respects the core. *)
Ltac core_eq := intros ?? Hcore; unfold icore, pcore in *; simpl in *; injection Hcore; intros; congruence.

Lemma set_count_equiv w w' n a : w' ≡ w → set_count n a w' ≡ set_count n a w.
Proof. intros H. apply alter_items_equiv; [done|]. core_eq. Qed.

Lemma owned_equiv w w' a p : w' ≡ w → owned a p w' ≡ owned a p w.
Proof. intros H. apply alter_items_equiv; [done|]. core_eq. Qed.

Lemma freed_equiv w w' a : w' ≡ w → freed a w' ≡ freed a w.
Proof.
  intros [= Hi Hp Ht Hg]. unfold equiv, item_world_equiv, wcore, freed. simpl. rewrite Hp, Ht, Hg, !fmap_delete. by rewrite Hi.
Qed.

Lemma created_equiv w w' a it it' : w' ≡ w → icore it' = icore it → created a it' w' ≡ created a it w.
Proof.
  intros [= Hi Hp Ht Hg] Hc. unfold equiv, item_world_equiv, wcore, created. simpl. rewrite Hp, Ht, Hg, !fmap_insert. by rewrite Hi, Hc.
Qed.

Section Equivalent.
Context (E : IEnv).

Lemma container_at_equiv w w' p bag : w' ≡ w → container_at E w' p bag = container_at E w p bag.
Proof. intros H. unfold container_at. by rewrite (bag_at_equiv E w w'). Qed.

Lemma set_slot_equiv w w' p bag slot o : w' ≡ w → set_slot E p bag slot o w' ≡ set_slot E p bag slot o w.
Proof.
  intros H. unfold set_slot. rewrite (container_at_equiv w w') by done. destruct (container_at E w p bag).
  - apply alter_items_equiv; [done|]. core_eq.
  - apply alter_players_equiv; [done|]. core_eq.
Qed.

Lemma put_equiv w w' p bag slot a : w' ≡ w → put E p bag slot a w' ≡ put E p bag slot a w.
Proof.
  intros H. unfold put. rewrite (container_at_equiv w w') by done. apply alter_items_equiv; [by apply set_slot_equiv|]. core_eq.
Qed.

Lemma take_out_equiv w w' p bag slot a : w' ≡ w → take_out E p bag slot a w' ≡ take_out E p bag slot a w.
Proof. intros H. apply alter_items_equiv; [by apply set_slot_equiv|]. core_eq. Qed.

Lemma loose_equiv' w w' a : w' ≡ w → loose E w a → loose E w' a.
Proof. apply loose_equiv. Qed.

Lemma has_place_equiv w w' p bag slot : w' ≡ w → has_place E w p bag slot → has_place E w' p bag slot.
Proof.
  intros H (Hb & Hs & Hpl). split; [done|]. split; [done|]. destruct Hpl as [?|(b & bi & Hba & Hbi & Hlt)]; [by left|right].
  destruct (equiv_item _ _ _ _ H Hbi) as (bi' & ? & [= _ _ _ _ _ _ Hn _ _ _]). exists b, bi'. rewrite (bag_at_equiv E w w') by done.
  split_and!; [done..|lia].
Qed.

(** ** Storing *)

Lemma quiet_emits w e1 e2 : quiet w (emit e1;; emit e2).
Proof. apply quiet_bind; [apply quiet_emit|]. intros. apply quiet_emit. Qed.

Lemma quiet_bind_at w a pos : inv_ok E w → live w a → quiet w (bind_at E a pos).
Proof.
  intros Hw [it Ha]. eapply runs_look_bind; [by apply yields_here_item|]. intros ? ->.
  eapply runs_look_bind; [by eapply yields_good|]. intros t _. destruct (binds_at t pos); [apply quiet_SetBinding; by exists it|apply quiet_ret].
Qed.

(** Then quiet code. *)
Lemma runs_then {A B} w w1 (m : iw A) (k : A → iw B) : runs w m (λ _ w', w' ≡ w1) → (∀ x w', w' ≡ w1 → quiet w' (k x)) →
  runs w (m ≫= k) (λ _ w', w' ≡ w1).
Proof.
  intros H1 H2. eapply runs_bind; [exact H1|]. intros x w' Hw'. eapply runs_mono; [by apply H2|]. intros ? w'' H.
  simpl in *. by transitivity w'.
Qed.

Lemma own_slot_runs w p bag slot o g : inv_ok E w → here w p → has_place E w p bag slot → container_at E w p bag = None →
  runs w (own_slot p slot o g) (λ _ w', w' ≡ set_slot E p bag slot o w).
Proof.
  intros Hw [pl Hp] Hpl Hc. destruct (place_own E w p bag slot Hpl Hc) as (-> & Ho & _).
  apply own_array_range in Ho; [|destruct Hpl; lia]. destruct Hpl as (_ & Hs & _).
  eapply runs_look_bind; [eapply (yields_player _ _ _ (λ x, x = pl)); [exact Hp|done]|]. intros ? ->.
  destruct (lookup_range (m_items pl) slot 150) as [x Hx]; [by apply (ok_array E w Hw p)|slot_lia|].
  eapply runs_look_bind; [by eapply (yields_elem _ _ _ _ (λ _, True))|]. intros _ _.
  apply runs_upd_player; [by exists pl|]. unfold set_slot. rewrite Hc. apply alter_players_equiv; [done|]. core_eq.
Qed.

Lemma bag_owner w p bag b : inv_ok E w → bag_at E w p bag = Some b →
  ∃ bi, items w !! b = Some bi ∧ Owner bi = p ∧ m_slot bi = bag.
Proof.
  intros Hw Hb. destruct (bag_at_slot E w p bag b Hb) as [_ Hs]. apply bag_slot_range in Hs as Hr.
  destruct (ok_place E w Hw p INVENTORY_SLOT_BAG_0 bag b) as (bi & ? & ? & ? & _); [lia| |by exists bi].
  rewrite bag_slot_at by done. unfold bag_at in Hb. rewrite Hs in Hb.
  apply bind_Some in Hb as (pl & -> & (b' & Hb & (bi & _ & Hi)%bind_Some)%bind_Some). simpl. destruct (is_bag E bi); [|done].
  by injection Hi as <-.
Qed.

Lemma Bag_StoreItem_runs w p bag slot a b : inv_ok E w → here w p → has_place E w p bag slot → loose E w a →
  container_at E w p bag = Some b → runs w (Bag_StoreItem b slot a) (λ _ w', w' ≡ put E p bag slot a w).
Proof.
  intros Hw Hp Hpl Ha Hc. destruct (place_bag_at E w p bag slot b Hpl Hc) as (_ & Hba & bi & Hbi & Hib & Hs).
  destruct (bag_owner w p bag b Hw Hba) as (bi' & Hbi' & Ho & _). assert (bi' = bi) as -> by congruence.
  destruct (ok_item E w Hw b bi Hbi) as [bt Hbt]. destruct (is_bag_good E bi bt Hbt Hib) as (Hlen & _ & Hn).
  destruct (proj1 Ha) as [it Hit]. unfold Bag_StoreItem. rewrite (proj2 (Z.ltb_lt slot MAX_BAG_SIZE)) by lia.
  eapply runs_look_bind; [by apply (yields_ret _ _ (λ _, True))|]. intros _ _.
  eapply runs_look_bind; [by apply yields_here_item|]. intros ? ->. eapply runs_look_bind; [by apply yields_here_item|]. intros ? ->.
  destruct (Z.eqb_spec (i_guid it) (i_guid bi)) as [Hg|_].
  { exfalso. assert (a = b) as -> by (by eapply (ok_unique E w Hw)). apply (loose_not_bag E w b Ha). by apply (bag_at_slot E w p bag). }
  destruct (lookup_range (m_bagslot bi) slot 36 Hlen) as [x Hx]; [slot_lia|].
  eapply runs_look_bind; [by eapply (yields_elem _ _ _ _ (λ _, True))|]. intros _ _.
  eapply runs_bind.
  { apply (runs_upd_item _ _ _ (λ _ w', w' ≡ set_slot E p bag slot (Some a) w)); [by exists bi|].
    unfold set_slot. rewrite Hc. apply alter_items_equiv; [done|]. core_eq. }
  intros ? w1 H1. apply runs_upd_item.
  { destruct (set_slot_item E w p bag slot (Some a) a it Hit) as (it' & ? & _). apply (live_equiv _ _ a H1); by exists it'. }
  unfold put. rewrite Hc. apply alter_items_equiv; [done|]. rewrite Ho. core_eq.
Qed.

Lemma yields_container w p bag : inv_ok E w → here w p →
  yields w (if bag =? INVENTORY_SLOT_BAG_0 then mret None else GetBagByPos E p bag) (λ o, o = container_at E w p bag).
Proof.
  intros Hw Hp. unfold container_at. case_match; [by apply yields_ret|].
  eapply yields_mono; [by apply yields_GetBagByPos|]. by intros o [-> _].
Qed.

Lemma put_live w p bag slot a x : live w x → live (put E p bag slot a w) x.
Proof.
  intros [it Hx]. unfold put, placed. destruct (set_slot_item E w p bag slot (Some a) x it Hx) as (it' & Hx' & _).
  unfold live. simpl. destruct (decide (a = x)) as [<-|]; [|rewrite lookup_alter_ne by done; by exists it'].
  rewrite lookup_alter_eq, Hx'. by eexists.
Qed.

Lemma set_slot_here w p bag slot o q : here w q → here (set_slot E p bag slot o w) q.
Proof.
  intros [pl Hq]. unfold set_slot, here. destruct (container_at E w p bag); simpl; [by exists pl|].
  destruct (decide (p = q)) as [<-|]; [|rewrite lookup_alter_ne by done; by exists pl].
  rewrite lookup_alter_eq, Hq. by eexists.
Qed.

Lemma store_empty_runs w p bag slot a update : inv_ok E w → here w p → has_place E w p bag slot → loose E w a →
  runs w (store_empty E p (pos_of bag slot) a update) (λ _ w', w' ≡ put E p bag slot a w).
Proof.
  intros Hw Hp Hpl Ha. unfold store_empty. rewrite pos_of_bag, pos_of_slot by (destruct Hpl; lia).
  eapply quiet_then; [apply quiet_bind_at; [done|apply Ha]|]. intros ? w1 H1.
  assert (inv_ok E w1) as Hw1 by (by eapply inv_ok_equiv). assert (here w1 p) as Hp1 by (by eapply here_equiv).
  eapply runs_look_bind; [by apply yields_container|]. intros ? ->. rewrite (container_at_equiv w w1) by done.
  assert (∀ w', w' ≡ put E p bag slot a w → here w' p) as Hhere.
  { intros w' H. apply (here_equiv _ _ p H). apply set_slot_here. done. }
  assert (∀ x w', live w x → w' ≡ put E p bag slot a w → live w' x) as Hlive.
  { intros y w' Hx H. apply (live_equiv _ _ y H). by apply put_live. }
  apply runs_then.
  { destruct (container_at E w p bag) as [b|] eqn:Hc.
    - eapply runs_mono; [eapply (Bag_StoreItem_runs w1 p bag slot a b); [done|done|by eapply has_place_equiv|by eapply loose_equiv|]|].
      + by rewrite (container_at_equiv w w1).
      + intros ? w' H. simpl in *. rewrite H. by apply put_equiv.
    - destruct (live_equiv _ _ a H1 (proj1 Ha)) as [it Hit].
      eapply runs_look_bind; [by apply yields_here_item|]. intros ? ->.
      eapply runs_bind; [apply (own_slot_runs w1 p bag slot); [done|done|by eapply has_place_equiv|by rewrite (container_at_equiv w w1)]|].
      intros ? w2 H2. simpl in H2. rewrite (set_slot_equiv w w1) in H2 by done.
      assert (live w2 a) as Hl2.
      { destruct (proj1 Ha) as [it0 Hit0]. destruct (set_slot_item E w p bag slot (Some a) a it0 Hit0) as (it' & ? & _).
        apply (live_equiv _ _ a H2). by exists it'. }
      apply runs_then; [|intros; case_match; [apply quiet_emit|apply quiet_ret]].
      apply runs_upd_item; [done|]. unfold put. rewrite Hc. apply alter_items_equiv; [done|]. core_eq. }
  intros ? w2 H2. assert (here w2 p) as [pl2 Hp2] by (by apply Hhere).
  eapply runs_look_bind; [by eapply (yields_player _ _ _ (λ x, x = pl2))|]. intros ? ->.
  apply quiet_bind; [case_match; [apply quiet_emits|apply quiet_ret]|]. intros ? w3 H3.
  assert (w3 ≡ put E p bag slot a w) as H3' by (by rewrite H3).
  apply quiet_bind; [apply quiet_SetState; [apply Hlive; [apply Ha|done]|done]|]. intros ? w4 H4.
  apply quiet_bind; [|intros; apply quiet_emits].
  destruct (container_at E w p bag) as [b|] eqn:Hc; [|apply quiet_ret]. apply quiet_SetState; [|done].
  destruct (place_bag_at E w p bag slot b Hpl Hc) as (_ & _ & bi & Hbi & _).
  apply Hlive; [by exists bi|]. by rewrite H4.
Qed.

(** An item that was never saved is freed at once. *)
Lemma SetState_removed_runs w a p : live w a → here w p →
  runs w (SetState a ITEM_REMOVED (Some p)) (λ _ w', w' ≡ w ∨ w' ≡ freed a w).
Proof.
  intros [it Ha] Hp. eapply runs_look_bind; [by apply yields_here_item|]. intros ? ->.
  rewrite (bool_decide_true (ITEM_REMOVED = ITEM_REMOVED)) by done. rewrite andb_true_r.
  assert (live w a) as Hl by (by exists it). case_bool_decide.
  - eapply runs_look_bind; [by apply (yields_option _ _ p (λ x, x = p))|]. intros ? ->.
    eapply quiet_then; [apply quiet_emit|]. intros ? w1 H1.
    eapply quiet_then; [apply quiet_DeleteRefund; by eapply here_equiv|]. intros ? w2 H2.
    assert (w2 ≡ w) as H2' by (by rewrite H2). destruct (live_equiv _ _ a H2' Hl) as [it2 Ha2].
    eapply runs_look_bind; [by apply yields_here_item|]. intros ? ->. apply runs_modify. right. by apply (freed_equiv w w2).
  - case_bool_decide; [done|]. eapply runs_mono; [|intros ? w' Hw'; left; exact Hw'].
    apply quiet_bind; [by apply quiet_upd_item|intros; apply quiet_emit].
Qed.

Lemma freed_owned w a p : freed a (owned a p w) = freed a w.
Proof. unfold freed, owned, with_items. simpl. f_equal. rewrite delete_alter. by rewrite decide_True by done. Qed.

(** What is left of the item when a stack has taken the last of it. *)
Definition dissolved (a p : Z) (w w' : World) : Prop := w' ≡ owned a p w ∨ w' ≡ freed a w.

Lemma dissolved_live w w' a p x : dissolved a p w w' → a ≠ x → live w x → live w' x.
Proof.
  intros [H|H] Hne [it Hx]; apply (live_equiv _ _ x H); unfold live; simpl.
  - rewrite lookup_alter_ne by done. by exists it.
  - rewrite lookup_delete_ne by done. by exists it.
Qed.

Lemma dissolved_here w w' a p q : dissolved a p w w' → here w q → here w' q.
Proof. intros [H|H] Hq; by apply (here_equiv _ _ q H). Qed.

Lemma dissolve_runs w p a : live w a → here w p →
  runs w (emit (RemoveEnchantmentDurations p a);; emit (RemoveItemDurations p a);; upd_item a (with_Owner p);;
    SetNotRefundable a p true;; ClearSoulboundTradeable a p;; RemoveTradeableItem p a;; SetState a ITEM_REMOVED (Some p))
    (λ _ w', dissolved a p w w').
Proof.
  intros Ha Hp. eapply quiet_then; [apply quiet_emit|]. intros ? w1 H1. eapply quiet_then; [apply quiet_emit|]. intros ? w2 H2.
  assert (w2 ≡ w) as H2' by (by rewrite H2). eapply runs_bind.
  { apply (runs_upd_item _ _ _ (λ _ w', w' ≡ owned a p w)); [by eapply live_equiv|]. by apply (owned_equiv w w2). }
  intros ? w3 H3. simpl in H3.
  assert (∀ w', w' ≡ owned a p w → live w' a ∧ here w' p) as Hw'.
  { intros w' H. split; [apply (live_equiv _ _ a H)|by apply (here_equiv _ _ p H)]. destruct Ha as [it Ha]. unfold live. simpl.
    rewrite lookup_alter_eq, Ha. by eexists. }
  eapply quiet_then; [apply quiet_SetNotRefundable; by apply Hw'|]. intros ? w4 H4. rewrite H3 in H4.
  eapply quiet_then; [apply quiet_ClearSoulbound; by apply Hw'|]. intros ? w5 H5. rewrite H4 in H5.
  eapply quiet_then; [apply quiet_upd_player; [by apply Hw'|done]|]. intros ? w6 H6. rewrite H5 in H6.
  eapply runs_mono; [apply SetState_removed_runs; by apply Hw'|]. intros ? w7 [H7|H7]; simpl in *.
  - left. by rewrite H7.
  - right. rewrite H7, (freed_equiv _ w6 a H6). by rewrite freed_owned.
Qed.

Lemma dissolved_equiv w w1 w' a p : w1 ≡ w → dissolved a p w1 w' → dissolved a p w w'.
Proof. intros H [Hd|Hd]; [left|right]; rewrite Hd; [by apply owned_equiv|by apply freed_equiv]. Qed.

Lemma set_count_live w n b x : live w x → live (set_count n b w) x.
Proof.
  intros [it Hx]. unfold live. simpl. destruct (decide (b = x)) as [<-|]; [|rewrite lookup_alter_ne by done; by exists it].
  rewrite lookup_alter_eq, Hx. by eexists.
Qed.

Lemma store_merged_runs w p pos a b bi n clone update : inv_ok E w → here w p → live w a → items w !! b = Some bi → a ≠ b →
  in_u 32 (Count bi + n) →
  runs w (store_merged E p pos a b n clone update) (λ _ w',
    if clone then w' ≡ set_count (Count bi + n) b w else dissolved a p (set_count (Count bi + n) b w) w').
Proof.
  intros Hw Hp Ha Hb Hne Hn. set (w0 := set_count (Count bi + n) b w).
  assert (∀ w', w' ≡ w0 → live w' a ∧ live w' b ∧ here w' p) as Hall.
  { intros w' H. split_and!; [apply (live_equiv _ _ a H)|apply (live_equiv _ _ b H)|by apply (here_equiv _ _ p H)];
      apply set_count_live; [done|by exists bi]. }
  unfold store_merged. eapply quiet_then; [apply quiet_bind_at; [done|by exists bi]|]. intros ? w1 H1.
  eapply runs_bind.
  { apply (runs_upd_item _ _ _ (λ _ w', w' ≡ w0)); [eapply live_equiv; [done|by exists bi]|].
    destruct (equiv_item _ _ _ _ H1 Hb) as (bi1 & Hb1 & Hc1). unfold equiv, item_world_equiv, wcore, w0, set_count. simpl.
    injection H1 as Hi1 Hp1 Ht1 Hg1. rewrite Hp1, Ht1, Hg1. f_equal. f_equal. f_equal. apply map_eq. intros y. rewrite !lookup_fmap.
    apply (f_equal (lookup y)) in Hi1. rewrite !lookup_fmap in Hi1.
    destruct (decide (b = y)) as [<-|]; [|by rewrite !lookup_alter_ne]. rewrite !lookup_alter_eq, Hb, Hb1. simpl. f_equal.
    unfold icore in *. simpl. injection Hc1 as ??? Hcn ??????. rewrite Hcn, uwrap_small by done. congruence. }
  intros ? w2 H2. simpl in H2. destruct (Hall w2 H2) as (Ha2 & Hb2 & [pl Hp2]).
  eapply runs_look_bind; [by eapply (yields_player _ _ _ (λ x, x = pl))|]. intros ? ->.
  eapply quiet_then; [case_match; [apply quiet_emit|apply quiet_ret]|]. intros ? w3 H3. rewrite H2 in H3.
  destruct (Hall w3 H3) as (Ha3 & Hb3 & Hp3).
  eapply runs_bind with (P := λ _ w', if clone then w' ≡ w0 else dissolved a p w0 w').
  - destruct clone; simpl; [by apply runs_ret|].
    eapply quiet_then; [case_match; [apply quiet_emit|apply quiet_ret]|]. intros ? w4 H4. rewrite H3 in H4.
    destruct (Hall w4 H4) as (Ha4 & _ & Hp4).
    eapply runs_mono; [by apply dissolve_runs|]. intros ? w5 H5. by apply (dissolved_equiv w0 w4).
  - intros ? w4 H4. eapply runs_mono.
    + eapply (quiet_bind w4); [apply quiet_emit|]. intros ? w5 H5. apply quiet_SetState; [|done].
      apply (live_equiv _ _ b H5). destruct clone; [by apply Hall|]. by apply (dissolved_live _ _ _ _ _ H4 Hne), Hall.
    + intros ? w5 H5. simpl in *. destruct clone; [by rewrite H5|]. by destruct H4 as [H4|H4]; [left|right]; rewrite H5.
Qed.

(** ** A clone *)

Lemma Create_good it t low p n : good E it t → 0 < n ≤ GetMaxStackSize t →
  ∃ c, Create t low (Entry it) p = Some c ∧ good E (with_Count n c) t ∧ Entry c = Entry it ∧ m_lootGenerated c = false ∧
    i_guid c = MAKE_NEW_GUID low 0 HIGHGUID_ITEM ∧ length (Enchantments c) = Z.to_nat MAX_ENCHANTMENT_SLOT.
Proof.
  intros Ht Hn. unfold Create. pose proof (good_template E it t Ht) as Hg. pose proof (good_id E it t Ht) as Hid.
  pose proof (good_stack E it t Ht) as Hst. pose proof (good_bag E it t Ht) as Hb.
  destruct (Z.eqb_spec (InventoryType t) INVTYPE_BAG) as [Hbag|Hbag]; simpl.
  - destruct (Hb Hbag) as (_ & _ & Hcs). rewrite (proj2 (Z.ltb_ge _ _)) by lia. eexists. split; [done|]. split_and!; [|done..].
    split; simpl; try done.
  - eexists. split; [done|]. split_and!; [|done..]. split; simpl; try done.
Qed.

Lemma CreateItem_runs w it t n p : inv_ok E w → good E it t → 0 < n → m_hiItemGuid w + 1 < 2 ^ 32 →
  runs w (CreateItem E (Entry it) n p) (λ o w', ∃ b c, o = Some b ∧ items w !! b = None ∧ good E c t ∧ Count c = Z.min n (GetMaxStackSize t) ∧
    Entry c = Entry it ∧ m_lootGenerated c = false ∧ i_guid c = MAKE_NEW_GUID (m_hiItemGuid w) 0 HIGHGUID_ITEM ∧
    w' ≡ created b c w).
Proof.
  intros Hw Ht Hn Hhi. unfold CreateItem. rewrite (proj2 (Z.ltb_ge n 1)) by lia. rewrite (good_template E it t Ht).
  pose proof (good_max E it t Ht) as Hmax.
  replace (if GetMaxStackSize t <? n then GetMaxStackSize t else n) with (Z.min n (GetMaxStackSize t))
    by (destruct (Z.ltb_spec (GetMaxStackSize t) n); lia).
  set (m := Z.min n (GetMaxStackSize t)). assert (0 < m ≤ GetMaxStackSize t) as Hm by lia.
  rewrite (proj2 (Z.eqb_neq m 0)) by lia. simpl.
  eapply runs_look_bind; [by apply (yields_ret _ _ (λ _, True))|]. intros ? _.
  pose proof (ok_counter E w Hw) as [Hc0 _].
  destruct (Create_good it t (m_hiItemGuid w) p m Ht Hm) as (c & Hc & Hcg & He & Hl & Hcguid & _).
  eapply runs_bind with (P := λ g w', g = m_hiItemGuid w ∧ w' ≡ with_m_hiItemGuid (m_hiItemGuid w + 1) w).
  - eapply runs_look_bind; [by apply (yields_gets _ _ (λ x, x = m_hiItemGuid w))|]. intros ? ->.
    eapply quiet_then; [case_match; [apply quiet_emit|apply quiet_ret]|]. intros ? w1 [= Hi1 Hp1 Ht1 Hg1].
    eapply runs_bind; [by apply (runs_modify _ _ (λ _ w', w' = with_m_hiItemGuid (uwrap 32 (m_hiItemGuid w + 1)) w1))|].
    intros ? w2 ->. apply runs_ret. split; [done|]. unfold equiv, item_world_equiv, wcore. simpl.
    rewrite uwrap_small by (unfold in_u; lia). congruence.
  - intros ? w1 [-> H1]. rewrite Hc. eapply runs_look_bind; [by apply (yields_gets _ _ (λ x, x = fresh (dom (items w1))))|].
    intros ? ->. set (b := fresh (dom (items w1))). assert (items w !! b = None) as Hb.
    { assert (b ∉ dom (items w1)) as Hf by apply is_fresh. apply not_elem_of_dom in Hf.
      destruct (items w !! b) as [x'|] eqn:Hx; [|done].
      destruct (equiv_item _ _ b x' H1 Hx) as (? & ? & _). congruence. }
    eapply runs_bind; [by apply (runs_modify _ _ (λ _ w', w' = with_items (<[b := with_Count m c]> (items w1)) w1))|].
    intros ? w2 ->. apply runs_ret. exists b, (with_Count m c). split_and!; try done.
    injection H1 as Hi1 Hp1 Ht1 Hg1. unfold equiv, item_world_equiv, wcore, created. simpl in *.
    rewrite Hp1, Ht1, Hg1, !fmap_insert. by rewrite Hi1.
Qed.

Lemma CloneItem_runs w a it t n p : inv_ok E w → items w !! a = Some it → good E it t → 0 < n →
  m_hiItemGuid w + 1 < 2 ^ 32 →
  runs w (CloneItem E a n p) (λ o w', ∃ b c, o = Some b ∧ items w !! b = None ∧ good E c t ∧ Count c = Z.min n (GetMaxStackSize t) ∧ Entry c = Entry it ∧
    m_lootGenerated c = false ∧ i_guid c = MAKE_NEW_GUID (m_hiItemGuid w) 0 HIGHGUID_ITEM ∧ w' ≡ created b c w).
Proof.
  intros Hw Ha Ht Hn Hhi. unfold CloneItem. eapply runs_look_bind; [by apply yields_here_item|]. intros ? ->.
  eapply runs_bind; [by apply (CreateItem_runs w it t)|].
  intros ? w1 (b & c & -> & Hb & Hcg & Hcn & Hce & Hcl & Hcguid & H1).
  assert (∀ w', w' ≡ created b c w → enchanted w' b) as Hen.
  { intros w' H. apply (enchanted_equiv _ _ b H). exists c. split; [simpl; by rewrite lookup_insert_eq|]. by destruct Hcg. }
  eapply quiet_then; [apply quiet_upd_item; [by apply enchanted_live, Hen|done]|]. intros ? w2 H2. rewrite H1 in H2.
  eapply quiet_then; [apply quiet_random; by apply Hen|]. intros ? w3 H3. rewrite H2 in H3.
  apply runs_ret. exists b, c. done.
Qed.

End Equivalent.
