(* ===== verification/StoreSpec.v ===== *)
(** * StoreSpec: [StoreItem] fills the positions of its plan and nothing else

    [filled] is the specification; [filled_trans] composes it. *)

From Stdlib Require Import ZArith Lia.
From S2P Require Import Prelude ByteBuffer Guid ItemData Inventory InventoryStore ItemFacts ItemRun PlanFacts StoreFacts StoreRun.
Local Open Scope Z_scope.

Section Spec.
Context (E : IEnv).

(** ** The specification *)

(** What others read of an item. *)
Definition idata (it : Item) := (Entry it, Count it, m_lootGenerated it, NumSlots it).

(** The entry and the count in a position. *)
Definition shelf (w : World) (p bag slot : Z) : option (Z * Z) :=
  a ← at_pos E w p bag slot; it ← items w !! a; Some (Entry it, Count it).

(** [n] more in a position: a stack grows; an empty one gets a stack of the kind [k], which
    is an entry and its largest stack. *)
Definition grown (k : Z * Z) (o : option (Z * Z)) (n : Z) : Z * Z :=
  match o with Some (e, c) => (e, c + n) | None => (k.1, Z.min n k.2) end.

Definition byte_pos (bag slot : Z) : Prop := 0 ≤ bag < 256 ∧ 0 ≤ slot < 256.

(** The positions [dest] of [p] get what the plan says, of the kind [k]; the items [gone]
    are used up, all others are where they were and as they were. *)
Record filled (w w' : World) (p : Z) (k : Z * Z) (dest : list (Z * Z)) (gone : Z → Prop) : Prop := {
  f_inv : inv_ok E w';
  f_bag : ∀ q b, bag_at E w' q b = bag_at E w q b;
  f_at : ∀ q b s, 0 ≤ s → (q = p → pos_of b s ∉ dest.*1) → at_pos E w' q b s = at_pos E w q b s;
  f_item : ∀ x, live w x → ¬ gone x → (∀ b s, byte_pos b s → pos_of b s ∈ dest.*1 → at_pos E w p b s ≠ Some x) →
    idata <$> items w' !! x = idata <$> items w !! x;
  f_shelf : ∀ b s n, byte_pos b s → (pos_of b s, n) ∈ dest → shelf w' p b s = Some (grown k (shelf w p b s) n);
  f_loose : ∀ x, loose E w x → ¬ gone x → loose E w' x;
  f_player : ∀ q, (λ pl, (Coinage pl, m_trade pl)) <$> players w' !! q = (λ pl, (Coinage pl, m_trade pl)) <$> players w !! q;
  f_trades : trades w' = trades w
}.

Lemma pos_of_inj b s b' s' : byte_pos b s → byte_pos b' s' → pos_of b s = pos_of b' s' → b = b' ∧ s = s'.
Proof.
  intros [Hb Hs] [Hb' Hs'] H. split.
  - by rewrite <- (pos_of_bag b s), H, pos_of_bag by lia.
  - by rewrite <- (pos_of_slot b s), H, pos_of_slot by lia.
Qed.

Lemma shelf_eq w w' q b s : at_pos E w' q b s = at_pos E w q b s →
  (∀ x, at_pos E w q b s = Some x → idata <$> items w' !! x = idata <$> items w !! x) → shelf w' q b s = shelf w q b s.
Proof.
  intros Hat Hi. unfold shelf. rewrite Hat. destruct (at_pos E w q b s) as [x|]; [|done]. simpl. specialize (Hi x eq_refl).
  destruct (items w !! x), (items w' !! x); simpl in *; try done. by injection Hi as -> -> _ _.
Qed.

Lemma filled_equiv w w1 w' p k dest gone : w' ≡ w1 → filled w w1 p k dest gone → filled w w' p k dest gone.
Proof.
  intros H [Hinv Hbag Hat Hitem Hshelf Hloose Hpl Htr].
  assert (∀ x, idata <$> items w' !! x = idata <$> items w1 !! x) as Hi.
  { intros x. destruct (items w1 !! x) as [it|] eqn:Hx.
    - destruct (equiv_item _ _ _ _ H Hx) as (it' & -> & [= _ He _ Hc _ _ Hn _ _ Hl]). simpl. unfold idata. congruence.
    - destruct (items w' !! x) eqn:Hx'; [|done]. symmetry in H. destruct (equiv_item _ _ _ _ H Hx') as (? & ? & _). congruence. }
  split.
  - by eapply inv_ok_equiv.
  - intros q b. rewrite (bag_at_equiv E w1 w') by done. apply Hbag.
  - intros q b s Hs Hq. rewrite (at_pos_equiv E w1 w') by done. by apply Hat.
  - intros x Hl Hg Hx. rewrite Hi. by apply Hitem.
  - intros b s n Hb Hn. rewrite <- (Hshelf b s n Hb Hn). apply shelf_eq; [by apply at_pos_equiv|auto].
  - intros x Hl Hg. eapply loose_equiv; [done|]. by apply Hloose.
  - intros q. rewrite <- Hpl. destruct (players w1 !! q) as [pl|] eqn:Hq.
    + destruct (equiv_owner _ _ _ _ H Hq) as (pl' & -> & [= _ Hc Ht]). simpl. by rewrite Hc, Ht.
    + destruct (players w' !! q) eqn:Hq'; [|done]. symmetry in H. destruct (equiv_owner _ _ _ _ H Hq') as (? & ? & _). congruence.
  - rewrite <- Htr. by apply (equiv_others _ _ H).
Qed.

Lemma filled_weaken w w' p k d (g g' : Z → Prop) : (∀ x, g x → g' x) → filled w w' p k d g → filled w w' p k d g'.
Proof. intros Hg []. split; auto. Qed.

Lemma live_idata w w' x : idata <$> items w' !! x = idata <$> items w !! x → live w x → live w' x.
Proof. intros H [it Hx]. rewrite Hx in H. apply fmap_Some in H as (it' & ? & _). by exists it'. Qed.

(** Quiet code first. *)
Lemma filled_before w w1 w' p k dest gone : w1 ≡ w → filled w1 w' p k dest gone → filled w w' p k dest gone.
Proof.
  intros H [Hinv Hbag Hat Hitem Hshelf Hloose Hpl Htr].
  assert (∀ x, idata <$> items w1 !! x = idata <$> items w !! x) as Hi.
  { intros x. destruct (items w !! x) as [it|] eqn:Hx.
    - destruct (equiv_item _ _ _ _ H Hx) as (it' & -> & [= _ He _ Hc _ _ Hn _ _ Hl]). simpl. unfold idata. congruence.
    - destruct (items w1 !! x) eqn:Hx'; [|done]. symmetry in H. destruct (equiv_item _ _ _ _ H Hx') as (? & ? & _). congruence. }
  split.
  - done.
  - intros q b. rewrite Hbag. by apply bag_at_equiv.
  - intros q b s Hs Hq. rewrite Hat by done. by apply at_pos_equiv.
  - intros x Hl Hg Hx. rewrite Hitem; [done|by eapply live_equiv|done|]. intros b s Hb Hin. rewrite (at_pos_equiv E w w1) by done. by apply Hx.
  - intros b s n Hb Hn. rewrite (Hshelf b s n Hb Hn). do 2 f_equal. apply shelf_eq; [by apply at_pos_equiv|auto].
  - intros x Hl Hg. apply Hloose; [by eapply loose_equiv|done].
  - intros q. rewrite Hpl. destruct (players w !! q) as [pl|] eqn:Hq.
    + destruct (equiv_owner _ _ _ _ H Hq) as (pl' & -> & [= _ Hc Ht]). simpl. by rewrite Hc, Ht.
    + destruct (players w1 !! q) eqn:Hq'; [|done]. symmetry in H. destruct (equiv_owner _ _ _ _ H Hq') as (? & ? & _). congruence.
  - rewrite Htr. by apply (equiv_others _ _ H).
Qed.

Lemma filled_trans w w1 w2 p k d1 d2 (g1 g2 g : Z → Prop) : inv_ok E w → filled w w1 p k d1 g1 → filled w1 w2 p k d2 g2 →
  NoDup (d1 ++ d2).*1 → (∀ x, live w x → g1 x ∨ g2 x → g x) →
  (∀ x, g1 x → ∀ b s, 0 ≤ s → at_pos E w p b s ≠ Some x) → (∀ x, g2 x → ∀ b s, 0 ≤ s → at_pos E w1 p b s ≠ Some x) →
  filled w w2 p k (d1 ++ d2) g.
Proof.
  intros Hw F1 F2 Hnd Hg Hg1 Hg2. rewrite fmap_app in Hnd. apply NoDup_app in Hnd as (Hn1 & Hd & Hn2).
  assert (∀ b s, 0 ≤ s → pos_of b s ∈ d2.*1 → at_pos E w1 p b s = at_pos E w p b s) as Hat2.
  { intros b s Hs Hin. apply (f_at _ _ _ _ _ _ F1); [done|]. intros _ H1. by apply (Hd _ H1). }
  assert (∀ x, live w x → ¬ g x → (∀ b s, byte_pos b s → pos_of b s ∈ (d1 ++ d2).*1 → at_pos E w p b s ≠ Some x) →
    idata <$> items w2 !! x = idata <$> items w !! x) as Hitem.
  { intros x Hl Hgx Hx. rewrite fmap_app in Hx. setoid_rewrite elem_of_app in Hx.
    assert (idata <$> items w1 !! x = idata <$> items w !! x) as H1.
    { apply (f_item _ _ _ _ _ _ F1); [done|auto|]. intros b s Hb Hin. apply Hx; auto. }
    rewrite <- H1. apply (f_item _ _ _ _ _ _ F2); [by apply (live_idata w)|auto|].
    intros b s Hb Hin. rewrite Hat2; [apply Hx; auto|apply Hb|done]. }
  split.
  - apply F2.
  - intros q b. rewrite (f_bag _ _ _ _ _ _ F2). apply F1.
  - intros q b s Hs Hq. rewrite fmap_app in Hq. setoid_rewrite not_elem_of_app in Hq.
    rewrite (f_at _ _ _ _ _ _ F2); [|done|by intros ?; apply Hq]. apply (f_at _ _ _ _ _ _ F1); [done|]. intros ?. by apply Hq.
  - done.
  - intros b s n Hb [Hin|Hin]%elem_of_app.
    + rewrite <- (f_shelf _ _ _ _ _ _ F1 b s n Hb Hin). assert (pos_of b s ∈ d1.*1) as Hin1 by (by apply (list_elem_of_fmap_2' fst _ (pos_of b s, n))).
      assert (pos_of b s ∉ d2.*1) as Hin2 by (by apply Hd).
      assert (at_pos E w2 p b s = at_pos E w1 p b s) as Hat by (apply (f_at _ _ _ _ _ _ F2); [apply Hb|done]).
      apply shelf_eq; [done|]. intros x Hx. apply (f_item _ _ _ _ _ _ F2).
      * apply (at_pos_live E w1) in Hx; [done|apply F1|apply Hb].
      * intros Hgx. by apply (Hg2 x Hgx b s ltac:(apply Hb)).
      * intros b' s' Hb' Hin' Hx'. destruct Hb as [? Hs], Hb' as [? Hs']. 
        pose proof (at_pos_inj E w1 p p b b' s s' x (f_inv _ _ _ _ _ _ F1) (proj1 Hs) (proj1 Hs') Hx Hx') as [= -> ->]. done.
    + rewrite (f_shelf _ _ _ _ _ _ F2 b s n Hb Hin). do 2 f_equal.
      assert (pos_of b s ∈ d2.*1) as Hin2 by (by apply (list_elem_of_fmap_2' fst _ (pos_of b s, n))).
      enough (shelf w1 p b s = shelf w p b s) as -> by done.
      apply shelf_eq; [apply Hat2; [apply Hb|done]|]. intros x Hx.
      assert (0 ≤ s) as Hs by apply Hb.
      apply (f_item _ _ _ _ _ _ F1); [by apply (at_pos_live E w Hw p b s)| |].
      * intros Hgx. by apply (Hg1 x Hgx b s).
      * intros b' s' Hb' Hin' Hx'.
        pose proof (at_pos_inj E w p p b b' s s' x Hw Hs ltac:(apply Hb') Hx Hx') as [= -> ->]. by apply (Hd _ Hin').
  - intros x Hl Hgx. apply (f_loose _ _ _ _ _ _ F2); [|intros ?; apply Hgx, Hg; [apply Hl|by right]].
    apply (f_loose _ _ _ _ _ _ F1); [done|]. intros ?; apply Hgx, Hg; [apply Hl|by left].
  - intros q. rewrite (f_player _ _ _ _ _ _ F2). apply F1.
  - rewrite (f_trades _ _ _ _ _ _ F2). apply F1.
Qed.

(** ** The core operations *)

(** Positions stay; the items of [gone] change. *)
Lemma filled_keep w w' p k (gone : Z → Prop) :
  inv_ok E w' ∧ (∀ q b s, at_pos E w' q b s = at_pos E w q b s) ∧ (∀ q b, bag_at E w' q b = bag_at E w q b) →
  (∀ x, live w x → ¬ gone x → idata <$> items w' !! x = idata <$> items w !! x) → players w' = players w → trades w' = trades w →
  filled w w' p k [] gone.
Proof.
  intros (Hinv & Hat & Hbag) Hi Hp Ht. split; try done; [auto|..].
  - intros b s n _ []%not_elem_of_nil.
  - intros x [Hl Hx] Hg. split; [by apply (live_idata w); [apply Hi|]|]. intros q b s Hs. rewrite Hat. by apply Hx.
  - by rewrite Hp.
Qed.

Lemma idata_alter (f : Item → Item) a (m : gmap Z Item) x : a ≠ x → idata <$> alter f a m !! x = idata <$> m !! x.
Proof. intros H. by rewrite lookup_alter_ne. Qed.

Lemma filled_loose_count w p k a it t n : inv_ok E w → items w !! a = Some it → good E it t → 0 < n ≤ GetMaxStackSize t →
  filled w (set_count n a w) p k [] (λ x, x = a).
Proof.
  intros Hw Ha Ht Hn. apply filled_keep; [by eapply inv_set_count| |done|done]. intros x _ Hx. by apply idata_alter.
Qed.

Lemma filled_dissolved w w' p k a : inv_ok E w → loose E w a → dissolved a p w w' → filled w w' p k [] (λ x, x = a).
Proof.
  intros Hw Ha [H|H]; eapply filled_equiv; try exact H.
  - apply filled_keep; [by apply inv_owned| |done|done]. intros x _ Hx. by apply idata_alter.
  - apply filled_keep; [by apply inv_freed| |done|done]. intros x _ Hx. simpl. by rewrite lookup_delete_ne.
Qed.

Lemma filled_created w p k a it t : inv_ok E w → items w !! a = None → good E it t → m_hiItemGuid w + 1 < 2 ^ 32 →
  i_guid it = MAKE_NEW_GUID (m_hiItemGuid w) 0 HIGHGUID_ITEM → filled w (created a it w) p k [] (λ _, False).
Proof.
  intros Hw Ha Ht Hhi Hg. apply filled_keep; [by eapply inv_created| |done|done].
  intros x [xt Hx] _. simpl. rewrite lookup_insert_ne by congruence. done.
Qed.

(** A stack grows by [n]. *)
Lemma filled_grown w p k bag slot b bi t n : inv_ok E w → byte_pos bag slot → at_pos E w p bag slot = Some b →
  items w !! b = Some bi → good E bi t → 0 < n → Count bi + n ≤ GetMaxStackSize t →
  filled w (set_count (Count bi + n) b w) p k [(pos_of bag slot, n)] (λ _, False).
Proof.
  intros Hw Hb Hat Hbi Ht Hn Hle. pose proof (good_count E bi t Ht) as Hc.
  destruct (inv_set_count E w b bi t (Count bi + n) Hw Hbi Ht) as (Hinv & Hat' & Hbag'); [lia|]. split; try done.
  - intros x Hl _ Hx. apply idata_alter. intros <-. apply (Hx bag slot Hb); [|done]. simpl. by apply list_elem_of_singleton.
  - intros b' s m Hbs [= Hpos ->]%list_elem_of_singleton. destruct (pos_of_inj _ _ _ _ Hbs Hb Hpos) as [-> ->].
    unfold grown, shelf. rewrite Hat', Hat. simpl. by rewrite lookup_alter_eq, Hbi.
  - intros x [Hl Hx] _. split; [by apply set_count_live|]. intros q b' s Hs. rewrite Hat'. by apply Hx.
Qed.

Lemma put_idata w p bag slot a x : idata <$> items (put E p bag slot a w) !! x = idata <$> items w !! x.
Proof.
  unfold put, placed. simpl.
  assert (idata <$> items (set_slot E p bag slot (Some a) w) !! x = idata <$> items w !! x) as <-.
  { unfold set_slot. destruct (container_at E w p bag) as [c|]; simpl; [|done].
    destruct (decide (c = x)) as [<-|]; [|by rewrite lookup_alter_ne]. rewrite lookup_alter_eq. by destruct (items w !! c). }
  destruct (decide (a = x)) as [<-|]; [|by rewrite lookup_alter_ne]. rewrite lookup_alter_eq.
  by destruct (items (set_slot E p bag slot (Some a) w) !! a).
Qed.

Lemma set_slot_player_rest w p bag slot o q :
  (λ pl, (Coinage pl, m_trade pl)) <$> players (set_slot E p bag slot o w) !! q = (λ pl, (Coinage pl, m_trade pl)) <$> players w !! q.
Proof.
  unfold set_slot. destruct (container_at E w p bag); simpl; [done|].
  destruct (decide (p = q)) as [<-|]; [|by rewrite lookup_alter_ne]. rewrite lookup_alter_eq. by destruct (players w !! p).
Qed.

(** An item goes to an empty position. *)
Lemma filled_put w p m bag slot a it n : inv_ok E w → here w p → has_place E w p bag slot → at_pos E w p bag slot = None → loose E w a →
  items w !! a = Some it → Count it = Z.min n m → filled w (put E p bag slot a w) p (Entry it, m) [(pos_of bag slot, n)] (λ x, x = a).
Proof.
  intros Hw Hp Hpl Hfree Ha Hit Hcn. assert (byte_pos bag slot) as Hb by (split; apply Hpl). split.
  - by apply inv_put.
  - intros q b. apply (bag_at_written E w Hw p bag slot Hp Hpl (Some a)). intros x. split_and!; try done. by intros t [].
  - intros q b s Hs Hq. rewrite put_at by done. rewrite decide_False; [done|]. intros [= -> -> ->].
    apply Hq; [done|]. simpl. by apply list_elem_of_singleton.
  - intros x _ _ _. apply put_idata.
  - intros b s n0 Hbs [= Hpos ->]%list_elem_of_singleton. destruct (pos_of_inj _ _ _ _ Hbs Hb Hpos) as [-> ->].
    unfold grown, shelf. rewrite put_at by (try done; apply Hb). rewrite decide_True by done. rewrite Hfree. cbn [mbind option_bind].
    pose proof (put_idata w p bag slot a a) as Hd. rewrite Hit in Hd. apply fmap_Some in Hd as (it' & -> & Hd). simpl.
    unfold idata in Hd. injection Hd as <- <- _ _. by rewrite Hcn.
  - intros x [Hl Hx] Hne. split; [by apply put_live|]. intros q b s Hs. rewrite put_at by done. case_decide; [congruence|by apply Hx].
  - intros q. by rewrite <- (set_slot_player_rest w p bag slot (Some a)).
  - by apply set_slot_rest.
Qed.

(** ** The rest of the plan still fits *)

(** A stack in the position can grow by [n]. *)
Definition roomy (w : World) (p bag slot n : Z) : Prop :=
  ∀ b, at_pos E w p bag slot = Some b → ∃ bi tb, items w !! b = Some bi ∧ good E bi tb ∧ Count bi + n ≤ GetMaxStackSize tb.

Definition spot (w : World) (p : Z) (x : Z * Z) : Prop :=
  ∃ bag slot, x.1 = pos_of bag slot ∧ 0 < x.2 ∧ has_place E w p bag slot ∧ roomy w p bag slot x.2.

(** An empty position gets no more than a stack of [m]. *)
Definition tight (w : World) (p m : Z) (x : Z * Z) : Prop :=
  ∀ bag slot, byte_pos bag slot → x.1 = pos_of bag slot → at_pos E w p bag slot = None → x.2 ≤ m.

(** What [StoreItem] needs: the last position takes the item itself. *)
Definition storable (w : World) (p m : Z) (dest : list (Z * Z)) : Prop :=
  NoDup dest.*1 ∧ Forall (spot w p) dest ∧ ∀ x, last dest = Some x → tight w p m x.

Lemma other_loose w p bag slot a : 0 ≤ slot → loose E w a → other_item (at_pos E w p bag slot) (Some a) = at_pos E w p bag slot.
Proof. intros Hs [_ Ha]. unfold other_item. rewrite bool_decide_false; [done|]. by apply Ha. Qed.

Lemma same_template it it' t t' : Entry it' = Entry it → good E it t → good E it' t' → t' = t.
Proof. intros He Ht Ht'. pose proof (good_template E it t Ht) as H1. rewrite <- He, (good_template E it' t' Ht') in H1. by injection H1. Qed.

Lemma fits_spot w p t a x : inv_ok E w → loose E w a → fits E w p t (Some a) x →
  (∃ it, Entry it = ItemId t ∧ good E it t) → spot w p x ∧ tight w p (GetMaxStackSize t) x.
Proof.
  intros Hw Ha (bag & slot & Hpos & Hn & Hpl & Hr) (it & He & Ht). assert (byte_pos bag slot) as Hb by (split; apply Hpl).
  unfold has_room in Hr. rewrite other_loose in Hr by (apply Hb || done). split.
  - exists bag, slot. split_and!; [done..|]. intros b Hat. rewrite Hat in Hr. destruct Hr as (bi & Hbi & He' & _ & Hle).
    destruct (ok_item E w Hw b bi Hbi) as [tb Htb]. exists bi, tb. split_and!; [done..|].
    assert (tb = t) as -> by (eapply (same_template it bi); [congruence|done|done]). done.
  - intros b s Hbs Hx Hat. rewrite Hpos in Hx. destruct (pos_of_inj bag slot b s) as [-> ->]; [done..|]. by rewrite Hat in Hr.
Qed.

Lemma plan_storable w p t a it dest : inv_ok E w → loose E w a → good E it t → plan_ok E w p t (Some a) dest →
  storable w p (GetMaxStackSize t) dest.
Proof.
  intros Hw Ha Ht [Hnd Hf]. assert (∃ it, Entry it = ItemId t ∧ good E it t) as Hex by (exists it; split; [by rewrite (good_id E it t Ht)|done]).
  assert (∀ x, x ∈ dest → spot w p x ∧ tight w p (GetMaxStackSize t) x) as H.
  { intros x Hx. rewrite Forall_forall in Hf. by eapply fits_spot; [..|apply Hf|]. }
  split_and!; [done|apply Forall_forall; by intros x [? _]%H|]. intros x Hx%last_Some_elem_of. by apply H.
Qed.

Section Kept.
Context (w w1 : World) (p : Z) (k : Z * Z) (d : list (Z * Z)) (gone : Z → Prop).
Context (Hw : inv_ok E w) (F : filled w w1 p k d gone) (Hg : ∀ x, gone x → loose E w x).

Lemma filled_here q : here w q → here w1 q.
Proof. intros [pl Hq]. pose proof (f_player _ _ _ _ _ _ F q) as H. rewrite Hq in H. apply fmap_Some in H as (pl' & ? & _). by exists pl'. Qed.

(** An item that is neither used up nor grown. *)
Lemma filled_item x it t : items w !! x = Some it → good E it t → ¬ gone x →
  (∀ b s, byte_pos b s → pos_of b s ∈ d.*1 → at_pos E w p b s ≠ Some x) →
  ∃ it', items w1 !! x = Some it' ∧ idata it' = idata it ∧ good E it' t.
Proof.
  intros Hx Ht Hgx Hd. pose proof (f_item _ _ _ _ _ _ F x ltac:(by exists it) Hgx Hd) as Hi. rewrite Hx in Hi.
  apply fmap_Some in Hi as (it' & Hx' & Hi). exists it'. split_and!; [done|done|].
  destruct (ok_item E w1 (f_inv _ _ _ _ _ _ F) x it' Hx') as [t' Ht']. by rewrite <- (same_template it it' t t'); [|injection Hi|..].
Qed.

Lemma filled_loose_item x it t : items w !! x = Some it → good E it t → ¬ gone x → loose E w x →
  ∃ it', items w1 !! x = Some it' ∧ idata it' = idata it ∧ good E it' t.
Proof. intros Hx Ht Hgx [_ Hl]. eapply filled_item; [done..|]. intros b s Hb _. apply Hl, Hb. Qed.

Lemma filled_place q bag slot : Forall (spot w p) d → has_place E w q bag slot → has_place E w1 q bag slot.
Proof.
  intros Hd (Hb & Hs & Hpl). split; [done|]. split; [done|]. destruct Hpl as [?|(b & bi & Hba & Hbi & Hlt)]; [by left|right].
  destruct (ok_item E w Hw b bi Hbi) as [tb Htb]. destruct (bag_at_slot E w q bag b Hba) as [Hin Hbs].
  destruct (filled_item b bi tb) as (bi' & Hbi' & [= _ _ _ Hn] & _); [done|done|by intros ?%Hg%loose_not_bag|..].
  - intros b' s' Hb' (x & Hx & Hxd)%list_elem_of_fmap Hat'. rewrite Forall_forall in Hd.
    destruct (Hd x Hxd) as (b2 & s2 & Hx2 & _ & Hpl2 & _). rewrite Hx2 in Hx.
    destruct (pos_of_inj b' s' b2 s2 Hb') as [-> ->]; [split; apply Hpl2|done|].
    destruct Hin as (r & pl & slot' & Hr & Hslot' & Hown). apply bag_slot_range in Hslot' as Hrange.
    assert (at_pos E w r INVENTORY_SLOT_BAG_0 slot' = Some b) as Hat2 by (rewrite bag_slot_at by done; by rewrite Hr).
    pose proof (at_pos_inj E w r p _ _ _ _ b Hw (proj1 (proj1 Hrange)) (proj1 (proj2 Hb')) Hat2 Hat') as [= -> -> ->].
    destruct Hpl2 as (_ & _ & [(_ & _ & ?)|(c & ci & Hc & _)]); [congruence|].
    by destruct (bag_at_slot E w r INVENTORY_SLOT_BAG_0 c Hc) as [_ ?].
  - exists b, bi'. rewrite (f_bag _ _ _ _ _ _ F). split_and!; [done..|lia].
Qed.

Lemma filled_spot q x : Forall (spot w p) d → (q = p → x.1 ∉ d.*1) → spot w q x → spot w1 q x.
Proof.
  intros Hd Hx (bag & slot & Hpos & Hn & Hpl & Hr). exists bag, slot. split_and!; [done|done|by apply filled_place|].
  assert (byte_pos bag slot) as Hb by (split; apply Hpl). rewrite Hpos in Hx. intros b Hat.
  rewrite (f_at _ _ _ _ _ _ F) in Hat by (done || apply Hb). destruct (Hr b Hat) as (bi & tb & Hbi & Htb & Hle).
  destruct (filled_item b bi tb) as (bi' & Hbi' & [= _ Hc _ _] & Htb'); [done|done|..].
  - intros [_ Hl]%Hg. apply (Hl q bag slot); [apply Hb|done].
  - intros b' s' Hb' Hin Hat'. pose proof (at_pos_inj E w q p _ _ _ _ b Hw (proj1 (proj2 Hb)) (proj1 (proj2 Hb')) Hat Hat') as [= -> -> ->].
    by apply Hx.
  - exists bi', tb. split_and!; [done|done|lia].
Qed.

Lemma filled_tight q m x : (q = p → x.1 ∉ d.*1) → tight w q m x → tight w1 q m x.
Proof.
  intros Hx Ht b s Hb Hpos Hat. apply (Ht b s Hb Hpos). rewrite <- Hat. symmetry. apply (f_at _ _ _ _ _ _ F); [apply Hb|]. by rewrite <- Hpos.
Qed.

(** What was planned for another player, or for other positions, still fits. *)
Lemma filled_storable q m dest : Forall (spot w p) d → (q = p → ∀ x, x ∈ dest → x.1 ∉ d.*1) → storable w q m dest → storable w1 q m dest.
Proof.
  intros Hd Hx (Hnd & Hf & Hl). split_and!; [done|..].
  - rewrite Forall_forall in *. intros x Hin. apply filled_spot; [by apply Forall_forall|by intros; apply Hx|by apply Hf].
  - intros x Hlast. apply filled_tight; [intros ->; by apply Hx, last_Some_elem_of|by apply Hl].
Qed.

End Kept.

(** ** [_StoreItem] *)

Section One.
Context (w : World) (p bag slot a : Z) (it : Item) (t : ItemTemplate) (n : Z) (update : bool).
Context (Hw : inv_ok E w) (Hp : here w p) (Ha : items w !! a = Some it) (Ht : good E it t) (Hl : loose E w a).
Context (Hn : 0 < n) (Hpl : has_place E w p bag slot) (Hhi : m_hiItemGuid w + 1 < 2 ^ 32).
Local Abbreviation kind := (Entry it, GetMaxStackSize t).

Lemma place_byte : byte_pos bag slot.
Proof. split; apply Hpl. Qed.

(** The position is filled and an item is returned. *)
Definition one (clone : bool) (o : option Z) (w' : World) : Prop :=
  filled w w' p kind [(pos_of bag slot, n)] (λ x, clone = false ∧ x = a) ∧
  m_hiItemGuid w' ≤ m_hiItemGuid w + 1 ∧ ∃ x, o = Some x ∧ carried E w' p x.

Lemma one_merged b bi tb clone : at_pos E w p bag slot = Some b → items w !! b = Some bi → good E bi tb →
  Count bi + n ≤ GetMaxStackSize tb → runs w (store_merged E p (pos_of bag slot) a b n clone update;; mret (Some b)) (one clone).
Proof.
  intros Hat Hbi Hbt Hle. pose proof place_byte as Hb. assert (a ≠ b) as Hne by (intros ->; apply (proj2 Hl p bag slot); [apply Hb|done]).
  pose proof (good_max E bi tb Hbt) as Hmax. pow_consts. pose proof (good_count E bi tb Hbt) as Hc.
  assert (filled w (set_count (Count bi + n) b w) p kind [(pos_of bag slot, n)] (λ _, False)) as F1 by (by eapply filled_grown).
  eapply runs_bind; [eapply (store_merged_runs E w p _ a b bi n); [done|done|apply Hl|done|done|unfold in_u; pow_consts; lia]|].
  intros ? w' H. apply runs_ret. unfold one.
  assert (at_pos E (set_count (Count bi + n) b w) p bag slot = Some b) as Hat1
    by (destruct (inv_set_count E w b bi tb (Count bi + n) Hw Hbi Hbt) as (_ & -> & _); [lia|done]).
  destruct clone.
  + assert (filled w w' p kind [(pos_of bag slot, n)] (λ x, true = false ∧ x = a)) as F.
    { eapply filled_equiv; [exact H|]. by apply (filled_weaken _ _ _ _ _ (λ _, False)). }
    destruct (equiv_others _ _ H) as [_ ->]. split; [done|]. split; [simpl; lia|].
    exists b. split; [done|]. exists bag, slot. split; [apply Hb|]. by rewrite (at_pos_equiv E _ _ _ _ _ H).
  + assert (loose E (set_count (Count bi + n) b w) a) as Hl1 by (apply (f_loose _ _ _ _ _ _ F1); [done|by intros []]).
    pose proof (filled_dissolved _ _ p kind a (f_inv _ _ _ _ _ _ F1) Hl1 H) as F2.
    assert (filled w w' p kind ([(pos_of bag slot, n)] ++ []) (λ x, false = false ∧ x = a)) as F.
    { eapply (filled_trans w _ w' p _ _ []); [done|exact F1|exact F2|by apply NoDup_singleton|by intros y _ [[]| ->]|done|].
      intros y -> b' s' Hs'. by apply Hl1. }
    split; [done|]. split; [destruct H as [H|H]; destruct (equiv_others _ _ H) as [_ ->]; simpl; lia|].
    exists b. split; [done|]. exists bag, slot. split; [apply Hb|].
    rewrite (f_at _ _ _ _ _ _ F2); [done|apply Hb|intros _; apply not_elem_of_nil].
Qed.

(** An item that is loose in [w1] goes to the position, after a step that leaves the
    positions alone. *)
Lemma one_put clone w1 x xt : filled w w1 p kind [] (λ y, clone = false ∧ y = a) → items w1 !! x = Some xt → Entry xt = Entry it →
  Count xt = Z.min n (GetMaxStackSize t) → loose E w1 x → (clone = true → items w !! x = None) → (clone = false → x = a) →
  at_pos E w p bag slot = None → m_hiItemGuid w1 ≤ m_hiItemGuid w + 1 →
  runs w1 (store_empty E p (pos_of bag slot) x update;; mret (Some x)) (one clone).
Proof.
  intros F1 Hx He Hcn Hl1 Hnew Hself Hat Hhi1. pose proof place_byte as Hb. pose proof (f_inv _ _ _ _ _ _ F1) as Hw1.
  assert (∀ y, clone = false ∧ y = a → loose E w y) as Hg by (by intros y [_ ->]).
  assert (has_place E w1 p bag slot) as Hpl1 by (by eapply (filled_place w w1); [..|apply Forall_nil|]).
  assert (at_pos E w1 p bag slot = None) as Hat1 by (rewrite (f_at _ _ _ _ _ _ F1); [done|apply Hb|intros _; apply not_elem_of_nil]).
  assert (here w1 p) as Hp1 by (by eapply filled_here).
  eapply runs_bind; [by apply (store_empty_runs E w1 p bag slot x update)|]. intros ? w2 H2. apply runs_ret.
  assert (filled w1 w2 p kind [(pos_of bag slot, n)] (λ y, y = x)) as F2.
  { eapply filled_equiv; [exact H2|]. rewrite <- He. by apply filled_put. }
  split; [|split].
  - eapply (filled_trans w w1 w2 p _ [] [(pos_of bag slot, n)]); [done|exact F1|exact F2|by apply NoDup_singleton|..].
    + intros y [yt Hy] [[]| ->]; [done|]. destruct clone; [|auto]. by rewrite Hnew in Hy.
    + intros y [_ ->] b' s' Hs'. by apply Hl.
    + intros y -> b' s' Hs'. by apply Hl1.
  - destruct (equiv_others _ _ H2) as [_ ->]. unfold put, placed. simpl. by destruct (set_slot_rest E w1 p bag slot (Some x)) as [_ ->].
  - exists x. split; [done|]. exists bag, slot. split; [apply Hb|]. rewrite (at_pos_equiv E _ _ _ _ _ H2).
    rewrite put_at; [by rewrite decide_True|done..|apply Hb].
Qed.

Lemma one_cloned : at_pos E w p bag slot = None →
  runs w (o ← CloneItem E a n p;
    match o with None => mret None | Some a => store_empty E p (pos_of bag slot) a update;; mret (Some a) end) (one true).
Proof.
  intros Hat. eapply runs_bind; [by eapply (CloneItem_runs E w a it t n p)|].
  intros ? w1 (b & c & -> & Hnew & Hcg & Hcn & Hce & _ & Hcguid & H1).
  assert (filled w w1 p kind [] (λ _, False)) as F1 by (eapply filled_equiv; [exact H1|by eapply filled_created]).
  assert (items (created b c w) !! b = Some c) as Hc0 by (simpl; by rewrite lookup_insert_eq).
  destruct (equiv_item _ _ _ _ H1 Hc0) as (c1 & Hc1 & [= _ Ec1 _ Cc1 _ _ _ _ _ _]).
  apply (one_put true w1 b c1); [by apply (filled_weaken _ _ _ _ _ (λ _, False))|done|congruence|congruence| |done..|].
  - split; [by exists c1|]. intros q b' s' Hs'. rewrite (f_at _ _ _ _ _ _ F1) by (try done; intros _; apply not_elem_of_nil).
    intros Hx. destruct (at_pos_live E w Hw q b' s' b Hs' Hx) as [? ?]. congruence.
  - destruct (equiv_others _ _ H1) as [_ ->]. simpl. lia.
Qed.

Lemma one_moved : at_pos E w p bag slot = None → n ≤ GetMaxStackSize t →
  runs w (o ← (upd_item a (with_Count n);; mret (Some a));
    match o with None => mret None | Some a => store_empty E p (pos_of bag slot) a update;; mret (Some a) end) (one false).
Proof.
  intros Hat Hr. eapply runs_bind.
  { eapply runs_bind; [apply (runs_upd_item w a _ (λ _ w', w' = set_count n a w)); [by exists it|done]|].
    intros ? w1 ->. apply (runs_ret _ _ (λ o w', o = Some a ∧ w' = set_count n a w)). done. }
  intros ? w1 [-> ->]. set (w1 := set_count n a w).
  assert (filled w w1 p kind [] (λ x, x = a)) as F1 by (by eapply filled_loose_count).
  apply (one_put false w1 a (with_Count n it)).
  - eapply filled_weaken; [|exact F1]. done.
  - unfold w1. simpl. by rewrite lookup_alter_eq, Ha.
  - done.
  - simpl. lia.
  - split; [apply set_count_live, Hl|]. intros q b' s' Hs'. rewrite (f_at _ _ _ _ _ _ F1) by (try done; intros _; apply not_elem_of_nil). by apply Hl.
  - done.
  - done.
  - done.
  - simpl. lia.
Qed.

Lemma StoreItem_one clone : roomy w p bag slot n → (clone = false → at_pos E w p bag slot = None → n ≤ GetMaxStackSize t) →
  runs w (_StoreItem E p (pos_of bag slot) a n clone update) (one clone).
Proof.
  intros Hr Htight. pose proof place_byte as Hb.
  unfold _StoreItem. rewrite pos_of_bag, pos_of_slot by (destruct Hb; lia).
  eapply runs_look_bind; [apply yields_GetItemByPos; [done..|apply Hb]|]. intros ? ->.
  destruct (at_pos E w p bag slot) as [b|] eqn:Hat.
  - destruct (Hr b Hat) as (bi & tb & ? & ? & ?). by eapply one_merged.
  - destruct clone; [by apply one_cloned|by apply one_moved; auto].
Qed.

End One.

(** ** [StoreItem] *)

Theorem StoreItem_runs p t a dest update : dest ≠ [] → ∀ w it, inv_ok E w → here w p → items w !! a = Some it → good E it t →
  loose E w a → storable w p (GetMaxStackSize t) dest → m_hiItemGuid w + Z.of_nat (length dest) < 2 ^ 32 →
  runs w (StoreItem E p dest a update) (λ o w',
    filled w w' p (Entry it, GetMaxStackSize t) dest (λ x, x = a) ∧ m_hiItemGuid w' ≤ m_hiItemGuid w + Z.of_nat (length dest) ∧
    ∃ x, o = Some x ∧ carried E w' p x).
Proof.
  induction dest as [|[pos n] dest IH]; [done|]. intros _ w it Hw Hp Ha Ht Hl (Hnd & Hf & Hlast) Hhi.
  apply Forall_cons in Hf as [(bag & slot & Hpos & Hn & Hpl & Hr) Hf]. simpl in Hpos, Hn, Hr, Hhi. subst pos. cbn [StoreItem].
  assert (byte_pos bag slot) as Hb by (split; apply Hpl).
  destruct dest as [|d dest].
  { eapply runs_mono; [eapply (StoreItem_one w p bag slot a it t n); try done|].
    - intros _ Hat. by apply (Hlast _ eq_refl bag slot).
    - intros o w' (F & ? & ?). split_and!; [|done..]. eapply filled_weaken; [|exact F]. by intros x [_ ->]. }
  assert (m_hiItemGuid w + 1 < 2 ^ 32) as Hhi1 by (simpl in Hhi; lia).
  eapply runs_bind; [by eapply (StoreItem_one w p bag slot a it t n update Hw Hp Ha Ht Hl Hn Hpl Hhi1 true)|].
  intros o1 w1 (F1 & Hhi2 & _). apply (filled_weaken _ _ _ _ _ _ (λ _, False)) in F1; [|by intros ? [? _]].
  rewrite fmap_cons in Hnd. apply NoDup_cons in Hnd as [Hnot Hnd].
  assert (loose E w1 a) as Hl1 by (apply (f_loose _ _ _ _ _ _ F1); [done|by intros []]).
  assert (∀ x : Z, False → loose E w x) as Hg by done.
  destruct (filled_loose_item w w1 p _ _ _ F1 a it t) as (it1 & Ha1 & [= He1 _ _ _] & Ht1); [done..|by intros []|done|].
  assert (storable w1 p (GetMaxStackSize t) (d :: dest)) as Hst.
  { eapply (filled_storable w w1 p); [done|exact F1|done| | |done].
    - apply Forall_singleton. by exists bag, slot.
    - intros _ x Hx Hx1%list_elem_of_singleton. apply Hnot. simpl in Hx1. rewrite <- Hx1. apply list_elem_of_fmap. by exists x. }
  eapply runs_mono; [apply (IH ltac:(done) w1 it1); try done|].
  - apply F1.
  - by eapply filled_here.
  - simpl in *. lia.
  - intros o w' (F2 & ? & ?). split_and!; [|simpl in *; lia|done]. rewrite He1 in F2.
    apply (filled_trans w w1 w' p _ [(pos_of bag slot, n)] (d :: dest) (λ _, False) (λ x, x = a)); [exact Hw|exact F1|exact F2| | |by intros ? []|].
    + apply NoDup_cons. done.
    + by intros y _ [[]|].
    + intros y -> b s. apply Hl1.
Qed.

End Spec.
