(* ===== verification/ItemMoves.v ===== *)
(** * ItemMoves: items move into an inventory and out of it

    [MoveItemToInventory] fills the plan; [MoveItemFromInventory] empties one position; gold
    is paid. *)

From Stdlib Require Import ZArith Lia.
From S2P Require Import Prelude ByteBuffer Guid ItemData Inventory InventoryStore.
From S2P Require Import ItemFacts ItemRun PlanFacts StoreFacts StoreRun StoreSpec.
Local Open Scope Z_scope.

Section Moves.
Context (E : IEnv).

(** ** Into the inventory *)

Lemma carried_owner w p a : inv_ok E w → carried E w p a → ∃ it, items w !! a = Some it ∧ Owner it = p.
Proof. intros Hw (bag & slot & Hs & Ha). destruct (ok_place E w Hw p bag slot a Hs Ha) as (it & ? & ? & _). by exists it. Qed.

Lemma carried_equiv w w' p a : w' ≡ w → carried E w p a → carried E w' p a.
Proof. intros H (bag & slot & Hs & Ha). exists bag, slot. by rewrite (at_pos_equiv E w w'). Qed.

Lemma MoveItemToInventory_runs w p t a it dest update db : dest ≠ [] → inv_ok E w → here w p → items w !! a = Some it → good E it t →
  loose E w a → storable E w p (GetMaxStackSize t) dest → m_hiItemGuid w + Z.of_nat (length dest) < 2 ^ 32 →
  runs w (MoveItemToInventory E p dest a update db) (λ _ w',
    filled E w w' p (Entry it, GetMaxStackSize t) dest (λ x, x = a) ∧ m_hiItemGuid w' ≤ m_hiItemGuid w + Z.of_nat (length dest)).
Proof.
  intros Hd Hw Hp Ha Ht Hl Hst Hhi. unfold MoveItemToInventory. set (kind := (Entry it, GetMaxStackSize t)).
  eapply runs_look_bind; [by apply yields_here_item|]. intros ? ->.
  eapply quiet_then; [apply quiet_emit|]. intros ? w1 H1. eapply quiet_then; [apply quiet_emit|]. intros ? w2 H2. rewrite H1 in H2.
  assert (filled E w w2 p kind [] (λ _, False)) as F0.
  { eapply filled_equiv; [exact H2|]. apply filled_keep; [by split_and!|done..]. }
  destruct (equiv_item _ _ _ _ H2 Ha) as (it2 & Ha2 & Hc2). assert (Entry it2 = Entry it) as He2 by (by injection Hc2).
  destruct (equiv_others _ _ H2) as [_ Hhi2].
  eapply runs_bind; [eapply (StoreItem_runs E p t a dest update Hd w2 it2)|].
  - apply F0.
  - by eapply here_equiv.
  - done.
  - by eapply good_core.
  - by eapply loose_equiv.
  - eapply (filled_storable E w w2 p); [done|exact F0|by intros ? []|by apply Forall_nil|by intros _ y _; apply not_elem_of_nil|done].
  - lia.
  - rewrite He2. intros ? w3 (F & Hhi3 & z & -> & Hx).
    assert (filled E w w3 p kind dest (λ x, x = a)) as F'.
    { apply (filled_trans E w w2 w3 p _ [] dest (λ _, False) (λ y, y = a)); [done|exact F0|exact F|apply Hst|by intros y _ [[]|]|by intros ? []|].
      intros y -> b s. apply (loose_equiv E w w2 a H2 Hl). }
    pose proof (f_inv _ _ _ _ _ _ _ F) as Hw3. pose proof (filled_here E _ _ _ _ _ _ F' p Hp) as Hp3.
    eapply runs_look_bind; [by apply (yields_option _ _ z (λ y, y = z))|]. intros ? ->.
    assert (∀ w', w' ≡ w3 → filled E w w' p kind dest (λ x, x = a) ∧ m_hiItemGuid w' ≤ m_hiItemGuid w + Z.of_nat (length dest)) as Hend.
    { intros w' H. split; [by eapply filled_equiv|]. destruct (equiv_others _ _ H) as [_ ->]. lia. }
    eapply runs_mono; [|intros ? w' Hw'; apply Hend; exact Hw'].
    destruct (carried_owner w3 p z Hw3 Hx) as (xt & Hxt & Ho). apply quiet_bind.
    + destruct (Z.eqb_spec z a) as [->|]; [|apply quiet_ret]. eapply runs_look_bind; [by apply yields_here_item|]. intros ? ->.
      rewrite Ho, Z.eqb_refl. apply quiet_bind; [apply quiet_ret|]. intros ? w4 H4.
      apply quiet_SetState; [apply (live_equiv _ _ a H4); by exists xt|by destruct db].
    + intros ? w4 H4. destruct (equiv_item _ _ _ _ H4 Hxt) as (xt' & Hxt' & _).
      eapply runs_look_bind; [by apply yields_here_item|]. intros ? ->.
      destruct (has_flag xt' ITEM_FLAG_BOP_TRADEABLE); [|apply quiet_ret]. apply quiet_upd_player; [by eapply here_equiv|done].
Qed.

(** ** Out of the inventory *)

Lemma runs_assoc {A B C} w (m : iw A) (k : A → iw B) (h : B → iw C) (Q : C → World → Prop) :
  runs w ((m ≫= k) ≫= h) Q → runs w (m ≫= λ x, k x ≫= h) Q.
Proof.
  intros (z & w' & H & HQ). exists z, w'. split; [|done]. rewrite <- H. unfold mbind, prog_bind.
  by destruct (m w) as [[x|] w1].
Qed.

Lemma alter_items_at (w w' : World) f g a it : w' ≡ w → items w !! a = Some it →
  (∀ it', icore it' = icore it → icore (f it') = icore (g it)) →
  with_items (alter f a (items w')) w' ≡ with_items (alter g a (items w)) w.
Proof.
  intros H Ha Hfg. destruct (equiv_item _ _ _ _ H Ha) as (it' & Ha' & Hc). injection H as Hi Hp Ht Hg.
  unfold equiv, item_world_equiv, wcore. simpl. rewrite Hp, Ht, Hg. f_equal. f_equal. f_equal.
  apply map_eq. intros b. rewrite !lookup_fmap. apply (f_equal (lookup b)) in Hi. rewrite !lookup_fmap in Hi.
  destruct (decide (a = b)) as [<-|]; [|by rewrite !lookup_alter_ne]. rewrite !lookup_alter_eq, Ha, Ha'. simpl. f_equal. by apply Hfg.
Qed.

Lemma quiet_unequip w p a slot : inv_ok E w → live w a → quiet w (unequip E p a slot).
Proof.
  intros Hw [it Ha]. destruct (ok_item E w Hw a it Ha) as [t Ht]. unfold unequip.
  assert (∀ w', w' ≡ w → enchanted w' a) as Hen.
  { intros w' H. apply (enchanted_equiv _ _ a H). exists it. split; [done|]. by destruct Ht. }
  assert (∀ w' i, w' ≡ w → 0 ≤ i < MAX_ENCHANTMENT_SLOT → quiet w' (ClearEnchantment a i)) as Hcl.
  { intros w' i H Hi. apply quiet_ClearEnchantment; [by apply Hen|done]. }
  eapply runs_look_bind; [by apply yields_here_item|]. intros ? ->.
  apply quiet_bind; [repeat case_match; first [apply quiet_emit|apply quiet_ret]|]. intros ? w1 H1.
  apply quiet_bind; [apply quiet_emit|]. intros ? w2 H2. rewrite H1 in H2. case_match; [|apply quiet_ret].
  apply quiet_bind; [apply quiet_emit|]. intros ? w3 H3. rewrite H2 in H3.
  apply quiet_bind; [|intros; repeat case_match; first [apply quiet_emit|apply quiet_ret]].
  case_match; [|case_match; first [apply quiet_emit|apply quiet_ret]].
  apply quiet_bind; [|intros; apply quiet_emit].
  case_match; (apply quiet_bind; [apply Hcl; [done|slot_lia]|]); intros ? w4 Hw4; rewrite H3 in Hw4; (apply Hcl; [done|slot_lia]).
Qed.

Lemma set_slot_live w p bag slot o x : live w x → live (set_slot E p bag slot o w) x.
Proof. intros [it Hx]. destruct (set_slot_item E w p bag slot o x it Hx) as (it' & ? & _). by exists it'. Qed.

Lemma alter_two (f g h : Item → Item) a b (m : gmap Z Item) : a ≠ b → alter h a (alter g b (alter f a m)) = alter (h ∘ f) a (alter g b m).
Proof.
  intros Hne. apply map_eq. intros x. destruct (decide (a = x)) as [<-|].
  - rewrite !lookup_alter_eq. rewrite !(lookup_alter_ne g) by done. rewrite lookup_alter_eq. by destruct (m !! a).
  - rewrite lookup_alter_ne, (lookup_alter_ne (h ∘ f)) by done. destruct (decide (b = x)) as [<-|].
    + rewrite !lookup_alter_eq. by rewrite lookup_alter_ne.
    + by rewrite !lookup_alter_ne.
Qed.

Section Take.
Context (w : World) (p bag slot a : Z) (Hw : inv_ok E w) (Hp : here w p) (Hpl : has_place E w p bag slot)
  (Hat : at_pos E w p bag slot = Some a).

Lemma place_slot : 0 ≤ slot.
Proof. apply Hpl. Qed.

Lemma taken_item : ∃ it, items w !! a = Some it ∧ Owner it = p ∧ m_slot it = slot ∧ m_container it = container_at E w p bag.
Proof. apply (ok_place E w Hw); [apply place_slot|done]. Qed.

Lemma taken_not_bag b : container_at E w p bag = Some b → a ≠ b.
Proof.
  intros Hc ->. destruct (place_bag_at E w p bag slot b Hpl Hc) as (Hne & Hba & _).
  destruct (bag_at_slot E w p bag b Hba) as [_ Hs]. apply bag_slot_range in Hs as Hr.
  assert (at_pos E w p INVENTORY_SLOT_BAG_0 bag = Some b) as Hb.
  { rewrite bag_slot_at by done. unfold bag_at in Hba. rewrite Hs in Hba.
    apply bind_Some in Hba as (pl & -> & (b' & Hb & (bi & _ & Hi)%bind_Some)%bind_Some). simpl. destruct (is_bag E bi); [|done].
    by injection Hi as <-. }
  pose proof (at_pos_inj E w p p _ _ _ _ b Hw (proj1 (proj1 Hr)) place_slot Hb Hat) as [= -> _]. done.
Qed.

(** The position is cleared, and the item learns that it is nowhere. *)
Lemma clear_runs w1 : w1 ≡ w → runs w1 (
  (if bag =? INVENTORY_SLOT_BAG_0 then
     (if slot <? INVENTORY_SLOT_BAG_END then unequip E p a slot else mret tt);;
     own_slot p slot None 0;;
     (if slot <? EQUIPMENT_SLOT_END then emit (SetVisibleItemSlot p slot None) else mret tt)
   else
     pBag ← GetBagByPos E p bag;
     match pBag with Some b => Bag_RemoveItem b slot | None => mret tt end);;
  upd_item a (λ it, with_m_slot NULL_SLOT (with_Contained 0 it))) (λ _ w', w' ≡ take_out E p bag slot a w).
Proof.
  intros H1. destruct taken_item as (it & Ha & _ & _ & Hco). assert (live w a) as Hl by (by exists it).
  assert (inv_ok E w1) as Hw1 by (by eapply inv_ok_equiv). assert (here w1 p) as Hp1 by (by eapply here_equiv).
  destruct (container_at E w p bag) as [b|] eqn:Hc.
  - destruct (place_bag_at E w p bag slot b Hpl Hc) as (Hne & Hba & bi & Hbi & Hib & Hs). pose proof (taken_not_bag b Hc) as Hab.
    destruct (ok_item E w Hw b bi Hbi) as [bt Hbt]. destruct (is_bag_good E bi bt Hbt Hib) as (Hlen & _ & Hn).
    rewrite (proj2 (Z.eqb_neq _ _) Hne).
    destruct (equiv_item _ _ _ _ H1 Hbi) as (bi1 & Hbi1 & [= _ _ _ _ _ _ Hns Hbs _ _]).
    assert (m_bagslot bi !! Z.to_nat slot = Some (Some a)) as Hel.
    { rewrite (at_pos_bag E w p bag b) in Hat by done. unfold in_bag in Hat. rewrite Hbi in Hat. simpl in Hat.
      rewrite (proj2 (Z.ltb_lt _ _)) in Hat by lia. by destruct (m_bagslot bi !! Z.to_nat slot) as [[?|]|] eqn:?; simpl in Hat; simplify_eq. }
    eapply runs_bind with (P := λ _ w', w' = with_items (alter (λ bi, with_SlotGuids (<[Z.to_nat slot := 0]> (SlotGuids bi))
      (with_m_bagslot (<[Z.to_nat slot := None]> (m_bagslot bi)) bi)) b (alter (with_m_container None) a (items w1))) w1).
    + eapply runs_look_bind; [by apply yields_GetBagByPos|]. intros ? [-> _]. rewrite (bag_at_equiv E w w1), Hba by done.
      unfold Bag_RemoveItem. rewrite (proj2 (Z.ltb_lt slot MAX_BAG_SIZE)) by lia.
      eapply runs_look_bind; [by apply (yields_ret _ _ (λ _, True))|]. intros ? _.
      eapply runs_look_bind; [by apply yields_here_item|]. intros ? ->.
      eapply runs_look_bind; [apply (yields_elem _ _ _ (Some a) (λ y, y = Some a)); [by rewrite Hbs|done]|]. intros ? ->.
      eapply runs_bind; [by apply (runs_upd_item w1 a _ (λ _ w', w' = with_items (alter (with_m_container None) a (items w1)) w1)); [eapply live_equiv|]|].
      intros ? w2 ->. apply runs_upd_item; [|done]. exists bi1. simpl. by rewrite lookup_alter_ne.
    + intros ? w2 ->. apply runs_upd_item.
      { destruct (equiv_item _ _ _ _ H1 Ha) as (it1 & Ha1 & _). unfold live. simpl. rewrite lookup_alter_ne by done.
        rewrite lookup_alter_eq, Ha1. by eexists. }
      simpl. rewrite alter_two by done. unfold take_out, set_slot. rewrite Hc.
      set (g := λ bi, with_SlotGuids _ _). set (h := λ it, with_m_slot NULL_SLOT (with_Contained 0 it)).
      set (w2 := with_items (alter g b (items w1)) w1).
      transitivity (with_items (alter (h ∘ with_m_container None) a (items w2)) w2); [reflexivity|].
      apply alter_items_equiv; [|core_eq].
      apply alter_items_equiv; [done|]. core_eq.
  - destruct (place_own E w p bag slot Hpl Hc) as (-> & _ & _). rewrite Z.eqb_refl.
    eapply runs_bind with (P := λ _ w', w' ≡ set_slot E p INVENTORY_SLOT_BAG_0 slot None w).
    + eapply quiet_then; [case_match; [apply quiet_unequip; [done|by eapply live_equiv]|apply quiet_ret]|]. intros ? w2 H2. rewrite H1 in H2.
      apply (runs_then w2); [|intros; case_match; [apply quiet_emit|apply quiet_ret]].
      eapply runs_mono; [apply (own_slot_runs E w2 p INVENTORY_SLOT_BAG_0 slot); [by eapply inv_ok_equiv|by eapply here_equiv|by eapply has_place_equiv|]|].
      * by rewrite (container_at_equiv E w w2).
      * intros ? w3 H3. simpl in *. rewrite H3. by apply set_slot_equiv.
    + intros ? w2 H2. destruct (set_slot_item E w p INVENTORY_SLOT_BAG_0 slot None a it Ha) as (it2 & Ha2 & _ & _ & _ & _ & _ & Hc2 & _).
      apply runs_upd_item; [apply (live_equiv _ _ a H2); by exists it2|]. unfold take_out.
      apply (alter_items_at _ _ _ _ a it2 H2 Ha2). assert (m_container it2 = None) as Hcn by congruence.
      intros y Hy. unfold icore in *. simpl in *. injection Hy. intros. congruence.
Qed.

Lemma RemoveItem_runs w0 update : w0 ≡ w → runs w0 (RemoveItem E p bag slot update) (λ _ w', w' ≡ take_out E p bag slot a w).
Proof.
  intros H0. assert (inv_ok E w0) as Hw0 by (by eapply inv_ok_equiv). assert (here w0 p) as Hp0 by (by eapply here_equiv).
  unfold RemoveItem. eapply runs_look_bind; [apply yields_GetItemByPos; [done..|apply place_slot]|]. intros ? ->.
  rewrite (at_pos_equiv E w w0), Hat by done.
  eapply quiet_then; [apply quiet_emit|]. intros ? w1 H1. eapply quiet_then; [apply quiet_emit|]. intros ? w2 H2. rewrite H1, H0 in H2.
  eapply quiet_then; [apply quiet_upd_player; [by eapply here_equiv|done]|]. intros ? w3 H3. rewrite H2 in H3.
  apply runs_assoc. apply runs_then; [by apply clear_runs|]. intros ? w4 H4.
  assert (here w4 p) as [pl Hp4] by (apply (here_equiv _ _ p H4); by apply set_slot_here).
  eapply runs_look_bind; [by eapply (yields_player _ _ _ (λ x, x = pl))|]. intros ? ->. case_match; [apply quiet_emit|apply quiet_ret].
Qed.

Lemma MoveItemFromInventory_runs w0 update : w0 ≡ w →
  runs w0 (MoveItemFromInventory E p bag slot update) (λ _ w', w' ≡ take_out E p bag slot a w).
Proof.
  intros H0. assert (inv_ok E w0) as Hw0 by (by eapply inv_ok_equiv). assert (here w0 p) as Hp0 by (by eapply here_equiv).
  destruct taken_item as (it & Ha & _). destruct (equiv_item _ _ _ _ H0 Ha) as (it0 & Ha0 & _). unfold MoveItemFromInventory.
  eapply runs_look_bind; [apply yields_GetItemByPos; [done..|apply place_slot]|]. intros ? ->.
  rewrite (at_pos_equiv E w w0), Hat by done.
  eapply runs_look_bind; [by apply yields_here_item|]. intros ? ->.
  eapply quiet_then; [apply quiet_emit|]. intros ? w1 H1. rewrite H0 in H1.
  apply runs_then; [by apply RemoveItem_runs|]. intros ? w2 H2.
  apply quiet_bind; [apply quiet_SetNotRefundable|intros; apply quiet_emits].
  - apply (live_equiv _ _ a H2). by apply (take_out_ok E w p bag slot a).
  - apply (here_equiv _ _ p H2). by apply set_slot_here.
Qed.

(** The bag and the slot an item says it is in are where it is. *)
Lemma yields_where w0 it0 : w0 ≡ w → items w0 !! a = Some it0 →
  yields w0 (GetBagSlot it0) (λ b, b = bag) ∧ m_slot it0 = slot.
Proof.
  intros H0 Ha0. destruct taken_item as (it & Ha & _ & Hs & Hc). destruct (equiv_item _ _ _ _ H0 Ha) as (it1 & Ha1 & [= _ _ _ _ Es Ec _ _ _ _]).
  assert (it1 = it0) as -> by congruence. split; [|congruence]. unfold GetBagSlot. rewrite Ec, Hc.
  destruct (container_at E w p bag) as [b|] eqn:Hco.
  - destruct (place_bag_at E w p bag slot b Hpl Hco) as (_ & Hba & _). destruct (bag_owner E w p bag b Hw Hba) as (bi & Hbi & _ & Hbs).
    destruct (equiv_item _ _ _ _ H0 Hbi) as (bi1 & Hbi1 & [= _ _ _ _ Eb _ _ _ _ _]).
    eapply yields_bind; [by apply yields_here_item|]. intros ? ->. apply yields_ret. congruence.
  - apply yields_ret. by destruct (place_own E w p bag slot Hpl Hco) as (-> & _).
Qed.

End Take.

End Moves.
