(* ===== verification/Stock.v ===== *)
(** * Stock: how many of an entry a player has

    The sum over all positions of the inventory; what filling positions and taking an item
    out do to it. *)

From Stdlib Require Import ZArith Lia.
From S2P Require Import Prelude ByteBuffer Guid ItemData Inventory InventoryStore.
From S2P Require Import ItemFacts ItemRun PlanFacts StoreFacts StoreRun StoreSpec.
Local Open Scope Z_scope.

(** ** Sums over a list *)

Definition sum_over {A} (f : A → Z) (l : list A) : Z := foldr (λ x acc, f x + acc) 0 l.

Lemma sum_over_ext {A} (f g : A → Z) l : (∀ x, x ∈ l → f x = g x) → sum_over f l = sum_over g l.
Proof.
  induction l as [|x l IH]; intros H; cbn; [done|]. rewrite (H x) by (by left). f_equal. apply IH. intros y Hy. apply H. by right.
Qed.

Lemma sum_over_plus {A} (f g : A → Z) l : sum_over (λ x, f x + g x) l = sum_over f l + sum_over g l.
Proof. induction l as [|x l IH]; cbn; [done|]. unfold sum_over in IH. rewrite IH. lia. Qed.

Lemma sum_over_zero {A} (l : list A) : sum_over (λ _, 0) l = 0.
Proof. by induction l. Qed.

Lemma sum_over_app {A} (f : A → Z) l1 l2 : sum_over f (l1 ++ l2) = sum_over f l1 + sum_over f l2.
Proof. unfold sum_over. induction l1 as [|x l IH]; simpl; [done|]. rewrite IH. lia. Qed.

(** A value at one element. *)
Lemma sum_over_one (l : list Z) (f g : Z → Z) x : NoDup l → x ∈ l → (∀ y, y ∈ l → y ≠ x → f y = g y) →
  sum_over f l = sum_over g l + (f x - g x).
Proof.
  induction l as [|y l IH]; intros Hnd Hx Hfg; [by apply not_elem_of_nil in Hx|]. apply NoDup_cons in Hnd as [Hy Hnd]. cbn.
  apply elem_of_cons in Hx as [->|Hx].
  - assert (sum_over f l = sum_over g l) as H by (apply sum_over_ext; intros z Hz; apply Hfg; [by right|by intros ->]). unfold sum_over in H. lia.
  - rewrite (Hfg y); [|by left|by intros ->]. specialize (IH Hnd Hx (λ z Hz, Hfg z (list_elem_of_further _ _ _ Hz))). unfold sum_over in IH. lia.
Qed.

(** A plan adds up over the positions it names. *)
Lemma sum_over_plan (l : list Z) (h : Z → Z → Z) (dest : list (Z * Z)) : NoDup l → NoDup dest.*1 → (∀ x, x ∈ dest.*1 → x ∈ l) →
  sum_over (λ x, match (list_to_map dest : gmap Z Z) !! x with Some n => h x n | None => 0 end) l = sum_over (λ x, h x.1 x.2) dest.
Proof.
  intros Hl. induction dest as [|[x n] dest IH]; intros Hnd Hin; [by apply sum_over_zero|].
  rewrite fmap_cons in Hnd, Hin. apply NoDup_cons in Hnd as [Hx Hnd]. cbn in *.
  rewrite (sum_over_one l _ (λ x, match (list_to_map dest : gmap Z Z) !! x with Some n => h x n | None => 0 end) x); [|done|apply Hin; by left|].
  - rewrite lookup_insert_eq. rewrite (not_elem_of_list_to_map_1 dest x) by done.
    rewrite IH; [unfold sum_over; cbn; lia|done|]. intros y Hy. apply Hin. by right.
  - intros y _ Hy. by rewrite lookup_insert_ne.
Qed.

(** ** Positions *)

Definition bag_slots : list Z := [19; 20; 21; 22; 67; 68; 69; 70; 71; 72; 73].

Definition places : list Z :=
  (pos_of INVENTORY_SLOT_BAG_0 <$> (seqZ 0 74 ++ seqZ 86 64)) ++ (bag_slots ≫= λ b, pos_of b <$> seqZ 0 36).

Lemma places_nodup : NoDup places.
Proof. apply (bool_decide_unpack (NoDup places)). by vm_compute. Qed.

Lemma is_bag_slot_elem b : is_bag_slot b = true → b ∈ bag_slots.
Proof. unfold is_bag_slot, bag_slots. rewrite !elem_of_cons. slot_lia. Qed.

Lemma own_in_places s : in_own_array s = true → 0 ≤ s → pos_of INVENTORY_SLOT_BAG_0 s ∈ places.
Proof.
  intros H0 Hs. apply elem_of_app. left. apply list_elem_of_fmap. exists s. split; [done|]. apply elem_of_app.
  rewrite !elem_of_seqZ. unfold in_own_array in H0. slot_lia.
Qed.

Lemma bag_in_places b s : is_bag_slot b = true → 0 ≤ s < 36 → pos_of b s ∈ places.
Proof.
  intros Hb Hs. apply elem_of_app. right. apply list_elem_of_bind. exists b. split; [|by apply is_bag_slot_elem].
  apply list_elem_of_fmap. exists s. split; [done|]. apply elem_of_seqZ. lia.
Qed.

Lemma places_byte x : x ∈ places → ∃ b s, x = pos_of b s ∧ byte_pos b s.
Proof.
  intros [H|H]%elem_of_app.
  - apply list_elem_of_fmap in H as (s & -> & H). exists INVENTORY_SLOT_BAG_0, s. split; [done|]. apply elem_of_app in H.
    rewrite !elem_of_seqZ in H. unfold byte_pos. slot_lia.
  - apply list_elem_of_bind in H as (b & (s & -> & Hs)%list_elem_of_fmap & Hb). exists b, s. split; [done|].
    rewrite elem_of_seqZ in Hs. unfold bag_slots in Hb. rewrite !elem_of_cons, elem_of_nil in Hb. unfold byte_pos. lia.
Qed.

Section Counting.
Context (E : IEnv).

Lemma place_in_places w p b s : inv_ok E w → has_place E w p b s → pos_of b s ∈ places.
Proof.
  intros Hw (Hb & Hs & [(-> & Ho & _)|(c & ci & Hc & Hci & Hlt)]); [apply own_in_places; [done|lia]|].
  destruct (bag_at_slot E w p b c Hc) as [_ Hbs]. destruct (bag_at_here E w p b c Hc) as (ci' & Hci' & Hib).
  assert (ci' = ci) as -> by congruence. destruct (ok_item E w Hw c ci Hci) as [ct Hct].
  destruct (is_bag_good E ci ct Hct Hib) as (_ & _ & Hn). apply bag_in_places; [done|slot_lia].
Qed.

Lemma spot_in_places w p x : inv_ok E w → spot E w p x → x.1 ∈ places.
Proof. intros Hw (b & s & -> & _ & Hpl & _). by eapply place_in_places. Qed.

Lemma storable_length w p m dest : inv_ok E w → storable E w p m dest → (length dest ≤ 534)%nat.
Proof.
  intros Hw (Hnd & Hf & _). rewrite <- (length_fmap fst). change 534%nat with (length places).
  apply submseteq_length, NoDup_submseteq; [done|]. intros x (y & -> & Hy)%list_elem_of_fmap.
  rewrite Forall_forall in Hf. by apply (spot_in_places w p), Hf.
Qed.

(** ** Stock *)

Definition shelf_at (w : World) (p x : Z) : option (Z * Z) := shelf E w p (pos_bag x) (pos_slot x).

Definition amount (e : Z) (o : option (Z * Z)) : Z := match o with Some (e', n) => if e' =? e then n else 0 | None => 0 end.

Definition stock (w : World) (p e : Z) : Z := sum_over (λ x, amount e (shelf_at w p x)) places.

(** What a planned position adds to the stock. *)
Definition added (w : World) (p : Z) (k : Z * Z) (e x n : Z) : Z :=
  amount e (Some (grown k (shelf_at w p x) n)) - amount e (shelf_at w p x).

Lemma shelf_at_pos w p b s : byte_pos b s → shelf_at w p (pos_of b s) = shelf E w p b s.
Proof. intros [Hb Hs]. unfold shelf_at. by rewrite pos_of_bag, pos_of_slot by lia. Qed.

Section Filled.
Context (w w' : World) (p : Z) (k : Z * Z) (dest : list (Z * Z)) (gone : Z → Prop).
Context (Hw : inv_ok E w) (F : filled E w w' p k dest gone) (Hg : ∀ x, gone x → loose E w x).

(** Other positions hold what they held. *)
Lemma filled_shelf q b s : byte_pos b s → (q = p → pos_of b s ∉ dest.*1) → shelf E w' q b s = shelf E w q b s.
Proof.
  intros Hb Hq. apply shelf_eq; [apply (f_at _ _ _ _ _ _ _ F); [apply Hb|done]|]. intros x Hx.
  apply (f_item _ _ _ _ _ _ _ F).
  - eapply at_pos_live; [done|apply Hb|done].
  - intros [_ Hl]%Hg. apply (Hl q b s); [apply Hb|done].
  - intros b' s' Hb' Hin Hx'. pose proof (at_pos_inj E w q p _ _ _ _ x Hw (proj1 (proj2 Hb)) (proj1 (proj2 Hb')) Hx Hx') as [= -> -> ->].
    by apply Hq.
Qed.

Lemma stock_other q e : q ≠ p → stock w' q e = stock w q e.
Proof.
  intros Hq. apply sum_over_ext. intros x (b & s & -> & Hb)%places_byte. rewrite !shelf_at_pos by done. by rewrite filled_shelf.
Qed.

Lemma stock_filled e : NoDup dest.*1 → Forall (spot E w p) dest →
  stock w' p e = stock w p e + sum_over (λ x, added w p k e x.1 x.2) dest.
Proof.
  intros Hnd Hf. rewrite <- (sum_over_plan places (added w p k e) dest places_nodup Hnd).
  - unfold stock. rewrite <- sum_over_plus. apply sum_over_ext. intros x (b & s & -> & Hb)%places_byte.
    destruct ((list_to_map dest : gmap Z Z) !! pos_of b s) as [n|] eqn:Hn.
    + apply elem_of_list_to_map_2 in Hn. unfold added. rewrite !shelf_at_pos by done. rewrite (f_shelf _ _ _ _ _ _ _ F b s n) by done. lia.
    + rewrite !shelf_at_pos by done. rewrite filled_shelf; [lia|done|]. intros _. by apply not_elem_of_list_to_map.
  - intros x (y & -> & Hy)%list_elem_of_fmap. rewrite Forall_forall in Hf. by apply (spot_in_places w p), Hf.
Qed.

End Filled.

(** A plan that fits adds what it plans, of its own entry only. *)
Lemma added_planned w p t a it dest e : good E it t → loose E w a → plan_ok E w p t (Some a) dest →
  sum_over (λ x, added w p (Entry it, GetMaxStackSize t) e x.1 x.2) dest = (if Entry it =? e then planned dest else 0).
Proof.
  intros Ht Ha [_ Hfit]. transitivity (sum_over (λ x, if Entry it =? e then x.2 else 0) dest).
  - apply sum_over_ext. intros x Hx. rewrite Forall_forall in Hfit. destruct (Hfit x Hx) as (b & s & Hpos & Hn & Hplace & Hr).
    assert (byte_pos b s) as Hb by (split; apply Hplace). unfold added. rewrite Hpos, shelf_at_pos by done.
    unfold has_room in Hr. rewrite other_loose in Hr by (apply Hb || done). unfold shelf, grown. simpl.
    destruct (at_pos E w p b s) as [c|]; simpl.
    + destruct Hr as (ci & -> & He & _ & _). simpl. rewrite He, (good_id E it t Ht). destruct (Entry it =? e); lia.
    + rewrite Z.min_l by done. lia.
  - destruct (Entry it =? e); [|apply sum_over_zero]. unfold planned, sum_over. clear. induction dest as [|x l IH]; cbn; [done|]. by rewrite IH.
Qed.

(** ** Taking out *)

Lemma take_out_idata w p bag slot a x : idata <$> items (take_out E p bag slot a w) !! x = idata <$> items w !! x.
Proof.
  unfold take_out. simpl.
  assert (idata <$> items (set_slot E p bag slot None w) !! x = idata <$> items w !! x) as <-.
  { unfold set_slot. destruct (container_at E w p bag) as [c|]; simpl; [|done].
    destruct (decide (c = x)) as [<-|]; [|by rewrite lookup_alter_ne]. rewrite lookup_alter_eq. by destruct (items w !! c). }
  destruct (decide (a = x)) as [<-|]; [|by rewrite lookup_alter_ne]. rewrite lookup_alter_eq.
  by destruct (items (set_slot E p bag slot None w) !! a).
Qed.

Lemma stock_equiv w w' p e : w' ≡ w → stock w' p e = stock w p e.
Proof.
  intros H. apply sum_over_ext. intros x (b & s & -> & Hb)%places_byte. rewrite !shelf_at_pos by done. f_equal.
  apply shelf_eq; [by apply at_pos_equiv|]. intros y _. destruct (items w !! y) as [it|] eqn:Hy.
  - destruct (equiv_item _ _ _ _ H Hy) as (it' & -> & [= _ He _ Hc _ _ Hn _ _ Hl]). simpl. unfold idata. congruence.
  - destruct (items w' !! y) eqn:Hy'; [|done]. symmetry in H. destruct (equiv_item _ _ _ _ H Hy') as (? & ? & _). congruence.
Qed.

Lemma stock_taken w p bag slot a it q e : inv_ok E w → here w p → has_place E w p bag slot → at_pos E w p bag slot = Some a →
  items w !! a = Some it →
  stock (take_out E p bag slot a w) q e = stock w q e - (if (q =? p) && (Entry it =? e) then Count it else 0).
Proof.
  intros Hw Hp Hpl Hat Ha. assert (byte_pos bag slot) as Hb by (split; apply Hpl).
  assert (∀ r b s, byte_pos b s → (r, b, s) ≠ (p, bag, slot) → shelf E (take_out E p bag slot a w) r b s = shelf E w r b s) as Hsame.
  { intros r b s Hbs Hne. apply shelf_eq; [|intros; apply take_out_idata]. rewrite take_out_at by (try done; apply Hbs).
    by rewrite decide_False. }
  destruct (Z.eqb_spec q p) as [->|Hq]; simpl.
  - unfold stock. rewrite (sum_over_one places _ (λ x, amount e (shelf_at w p x)) (pos_of bag slot) places_nodup).
    + rewrite !shelf_at_pos by done. unfold shelf. rewrite take_out_at by (try done; apply Hb). rewrite decide_True by done.
      rewrite Hat. simpl. rewrite Ha. simpl. lia.
    + by eapply place_in_places.
    + intros x (b & s & -> & Hbs)%places_byte Hx. rewrite !shelf_at_pos by done. rewrite Hsame; [done|done|congruence].
  - rewrite Z.sub_0_r. apply sum_over_ext. intros x (b & s & -> & Hbs)%places_byte. rewrite !shelf_at_pos by done.
    rewrite Hsame; [done|done|congruence].
Qed.

End Counting.
