(* ===== verification/ItemReads.v ===== *)
(** * ItemReads: looking items up, and the tests before items change hands

    [GetItemByGuid] finds exactly the item with that guid; [CanStoreItems], [CanUnequipItem]
    and [CanBeTraded] never fault, and an item that can be traded is in a place it can be
    taken out of. *)

From Stdlib Require Import ZArith Lia.
From S2P Require Import Prelude ByteBuffer Guid ItemData Inventory InventoryStore.
From S2P Require Import ItemFacts ItemRun PlanFacts StoreFacts StoreRun StoreSpec.
Local Open Scope Z_scope.

(** ** Searches that find exactly what is there *)

(** At most one answer is right, and it is given. *)
Definition finds {B} (w : World) (m : iw (option B)) (P : B → Prop) : Prop := yields w m (λ o, ∀ b, o = Some b ↔ P b).

Lemma finds_first {A B} w (f : A → iw (option B)) (P : A → B → Prop) l :
  (∀ x, x ∈ l → finds w (f x) (P x)) → (∀ x y b c, x ∈ l → y ∈ l → P x b → P y c → b = c) →
  finds w (first_of f l) (λ b, ∃ x, x ∈ l ∧ P x b).
Proof.
  induction l as [|x l IH]; intros Hf Hu; cbn [first_of].
  - apply yields_ret. intros b. split; [done|]. intros (x & []%not_elem_of_nil & _).
  - eapply yields_bind; [apply Hf; by left|]. intros [b|] Hb.
    + apply yields_ret. intros c. assert (P x b) as Hxb by (by apply Hb). split.
      * intros [= <-]. exists x. split; [by left|done].
      * intros (y & Hy & Hyc). f_equal. eapply Hu; [by left|exact Hy|done|done].
    + eapply yields_mono; [apply IH; [intros y Hy; apply Hf; by right|intros y z b c Hy Hz; apply Hu; by right]|].
      intros o Ho c. etransitivity; [apply Ho|]. split.
      * intros (y & Hy & Hyc). exists y. split; [by right|done].
      * intros (y & [->|Hy]%elem_of_cons & Hyc); [|by exists y]. by apply Hb in Hyc.
Qed.

Lemma finds_orelse {B} w (m1 m2 : iw (option B)) (P1 P2 : B → Prop) : finds w m1 P1 → finds w m2 P2 →
  (∀ b c, P1 b → P2 c → b = c) → finds w (orelse m1 m2) (λ b, P1 b ∨ P2 b).
Proof.
  intros H1 H2 Hu. eapply yields_bind; [exact H1|]. intros [b|] Hb.
  - apply yields_ret. intros c. assert (P1 b) as H by (by apply Hb). split; [intros [= <-]; by left|].
    intros [Hc|Hc]; [by apply Hb|]. f_equal. by apply Hu.
  - eapply yields_mono; [exact H2|]. intros o Ho c. etransitivity; [apply Ho|]. split; [by right|]. intros [Hc|Hc]; [by apply Hb in Hc|done].
Qed.

Section Reads.
Context (E : IEnv).

(** The item with the guid is in the position. *)
Definition at_with (w : World) (p guid : Z) (bag slot a : Z) : Prop :=
  at_pos E w p bag slot = Some a ∧ ∃ it, items w !! a = Some it ∧ i_guid it = guid.

(** The positions that are searched by guid: all but the slots for bags of the bank and the
    goods that can be bought back. *)
Definition searched (bag slot : Z) : Prop :=
  bag = INVENTORY_SLOT_BAG_0 ∧ (0 ≤ slot < BANK_SLOT_ITEM_END ∨ KEYRING_SLOT_START ≤ slot < CURRENCYTOKEN_SLOT_END) ∨
  is_bag_slot bag = true ∧ 0 ≤ slot.

Definition owns (w : World) (p guid a : Z) : Prop := ∃ bag slot, searched bag slot ∧ at_with w p guid bag slot a.

Lemma owns_carried w p guid a : owns w p guid a → carried E w p a ∧ ∃ it, items w !! a = Some it ∧ i_guid it = guid.
Proof.
  intros (bag & slot & Hs & Hat & Hg). split; [|done]. exists bag, slot. split; [|done]. destruct Hs as [[_ H]|[_ H]]; [slot_lia|done].
Qed.

Lemma owns_equiv w w' p guid a : w' ≡ w → owns w p guid a → owns w' p guid a.
Proof.
  intros H (bag & slot & Hs & Hat & it & Hit & Hg). exists bag, slot. split; [done|]. split; [by rewrite (at_pos_equiv E w w')|].
  destruct (equiv_item _ _ _ _ H Hit) as (it' & ? & Hc). exists it'. split; [done|]. injection Hc as ->. done.
Qed.

Section Look.
Context (w : World) (Hw : inv_ok E w).

Lemma at_with_inj p guid bag slot a q bag' slot' b : at_with w p guid bag slot a → at_with w q guid bag' slot' b → a = b.
Proof.
  intros (_ & it & Ha & Hg) (_ & it' & Hb & Hg'). apply (ok_unique E w Hw a b it it'); [done|done|congruence].
Qed.

Lemma finds_guid p guid bag slot : here w p → 0 ≤ slot → yields w (has_guid guid (at_pos E w p bag slot))
  (λ o, ∀ a, o = Some a ↔ at_with w p guid bag slot a).
Proof.
  intros Hp Hs. unfold at_with. destruct (at_pos E w p bag slot) as [a|] eqn:Hat; simpl.
  - destruct (at_pos_live E w Hw p bag slot a Hs Hat) as [it Ha].
    eapply yields_bind; [by apply yields_here_item|]. intros ? ->. apply yields_ret. intros b.
    destruct (Z.eqb_spec (i_guid it) guid) as [He|He]; split.
    + intros [= <-]. split; [done|]. by exists it.
    + by intros [[= <-] _].
    + done.
    + intros [[= <-] (it' & Hb & Hg)]. congruence.
  - apply yields_ret. intros b. split; [done|]. by intros [? _].
Qed.

Lemma finds_own p guid first last : here w p → 0 ≤ first →
  finds w (first_of (own_by_guid E p guid) (slots first last)) (λ a, ∃ s, s ∈ slots first last ∧ at_with w p guid INVENTORY_SLOT_BAG_0 s a).
Proof.
  intros Hp H0. apply finds_first; [|intros; by eapply at_with_inj]. intros s Hs%elem_of_slots.
  eapply yields_bind; [apply yields_GetItemByPos; [done..|lia]|]. intros o ->. apply finds_guid; [done|lia].
Qed.

Lemma finds_bag p guid bag : here w p → is_bag_slot bag = true →
  finds w (bag_by_guid E p guid bag) (λ a, ∃ s, 0 ≤ s ∧ at_with w p guid bag s a).
Proof.
  intros Hp Hs. eapply yields_bind; [by apply yields_GetBagByPos|]. intros o [Ho Hb]. destruct o as [b|].
  - destruct (Hb b eq_refl) as (bi & Hbi & Hib). eapply yields_bind; [by eapply yields_here_item|]. intros ? ->. symmetry in Ho.
    eapply yields_mono; [apply (finds_first w _ (λ s a, at_with w p guid bag s a))|].
    + intros j Hj%elem_of_slots. eapply yields_bind; [eapply yields_Bag_pos; [done..|lia]|]. intros ? ->.
      rewrite <- (at_pos_bag E w p bag b) by done. apply finds_guid; [done|lia].
    + intros; by eapply at_with_inj.
    + intros r Hr a. etransitivity; [apply Hr|]. split; intros (s & H1 & H2).
      * apply elem_of_slots in H1. exists s. split; [lia|done].
      * exists s. split; [|done]. apply elem_of_slots. split; [done|].
        destruct H2 as [Hat _]. rewrite (at_pos_bag E w p bag b) in Hat by done. unfold in_bag in Hat. rewrite Hbi in Hat. simpl in Hat.
        by destruct (Z.ltb_spec s (NumSlots bi)).
  - apply yields_ret. intros a. split; [done|]. intros (s & H0 & Hat & _). unfold at_pos in Hat.
    apply bag_slot_range in Hs as (_ & Hne & _). rewrite (proj2 (Z.eqb_neq _ _) Hne) in Hat. simpl in Hat. by rewrite <- Ho in Hat.
Qed.

Lemma finds_bags p guid first last : here w p → (∀ b, first ≤ b < last → is_bag_slot b = true) →
  finds w (first_of (bag_by_guid E p guid) (slots first last)) (λ a, ∃ b, b ∈ slots first last ∧ ∃ s, 0 ≤ s ∧ at_with w p guid b s a).
Proof.
  intros Hp Hb. apply finds_first; [intros b Hin%elem_of_slots; apply finds_bag; auto|].
  intros x y b c _ _ (s & _ & H1) (s' & _ & H2). by eapply at_with_inj.
Qed.

(** The search by guid finds the item with the guid, if there is one. *)
Lemma finds_GetItemByGuid p guid : here w p → finds w (GetItemByGuid E p guid) (owns w p guid).
Proof.
  intros Hp. unfold GetItemByGuid. eapply yields_mono.
  - apply finds_orelse; [by apply finds_own|apply finds_orelse; [by apply finds_own|apply finds_orelse; [by apply finds_own|apply finds_orelse|]|]|].
    + apply finds_bags; [done|]. intros b Hb. unfold is_bag_slot. slot_lia.
    + apply finds_bags; [done|]. intros b Hb. unfold is_bag_slot. slot_lia.
    + intros b c (x & _ & s & _ & H1) (y & _ & s' & _ & H2). by eapply at_with_inj.
    + intros b c (x & _ & H1) [(y & _ & s' & _ & H2)|(y & _ & s' & _ & H2)]; by eapply at_with_inj.
    + intros b c (x & _ & H1) [(y & _ & H2)|[(y & _ & s' & _ & H2)|(y & _ & s' & _ & H2)]]; by eapply at_with_inj.
    + intros b c (x & _ & H1) [(y & _ & H2)|[(y & _ & H2)|[(y & _ & s' & _ & H2)|(y & _ & s' & _ & H2)]]]; by eapply at_with_inj.
  - intros o Ho a. etransitivity; [apply Ho|]. unfold owns, searched. setoid_rewrite elem_of_slots. split.
    + intros [(s & Hs & H)|[(s & Hs & H)|[(s & Hs & H)|[(b & Hb & s & Hs & H)|(b & Hb & s & Hs & H)]]]].
      * exists INVENTORY_SLOT_BAG_0, s. split; [|done]. left. split; [done|]. slot_lia.
      * exists INVENTORY_SLOT_BAG_0, s. split; [|done]. left. split; [done|]. slot_lia.
      * exists INVENTORY_SLOT_BAG_0, s. split; [|done]. left. split; [done|]. slot_lia.
      * exists b, s. split; [|done]. right. split; [|done]. unfold is_bag_slot. slot_lia.
      * exists b, s. split; [|done]. right. split; [|done]. unfold is_bag_slot. slot_lia.
    + intros (b & s & [[-> Hs]|[Hb Hs]] & H).
      * assert (EQUIPMENT_SLOT_START ≤ s < INVENTORY_SLOT_ITEM_END ∨ KEYRING_SLOT_START ≤ s < CURRENCYTOKEN_SLOT_END ∨
          BANK_SLOT_ITEM_START ≤ s < BANK_SLOT_ITEM_END) as [?|[?|?]] by slot_lia;
          [left|right; left|right; right; left]; by exists s.
      * assert (INVENTORY_SLOT_BAG_START ≤ b < INVENTORY_SLOT_BAG_END ∨ BANK_SLOT_BAG_START ≤ b < BANK_SLOT_BAG_END) as [?|?]
          by (unfold is_bag_slot in Hb; slot_lia);
          [right; right; right; left|right; right; right; right]; exists b; (split; [done|]); by exists s.
Qed.

(** ** [CanUnequipItem] and [CanBeTraded] *)

Lemma yields_CanUnequip p pos swap : here w p → yields w (CanUnequipItem E p pos swap) (λ _, True).
Proof.
  intros Hp. unfold CanUnequipItem. case_match; [by apply yields_ret|]. assert (0 ≤ pos_slot pos) as Hs by (apply Z.land_nonneg; lia).
  eapply yields_bind; [by apply yields_GetItemByPos|]. intros o ->.
  destruct (at_pos E w p (pos_bag pos) (pos_slot pos)) as [a|] eqn:Hat; [|by apply yields_ret].
  destruct (at_pos_live E w Hw p _ _ a Hs Hat) as [it Ha]. eapply yields_bind; [by apply yields_here_item|]. intros ? ->.
  destruct (GetItemTemplate E (Entry it)); [|by apply yields_ret]. repeat (case_match; [by apply yields_ret|]).
  eapply yields_bind; [by eapply yields_IsNotEmptyBag|]. intros. by apply yields_ret.
Qed.

Lemma at_pos_byte p bag slot a : 0 ≤ slot → at_pos E w p bag slot = Some a → byte_pos bag slot.
Proof.
  intros Hs Hat. unfold at_pos in Hat. destruct ((bag =? INVENTORY_SLOT_BAG_0) && in_own_array slot) eqn:Hc.
  - apply andb_true_iff in Hc as [->%Z.eqb_eq Ho]. apply own_array_range in Ho; [|done]. split; slot_lia.
  - apply bind_Some in Hat as (b & Hb & Hin). destruct (bag_at_here E w p bag b Hb) as (bi & Hbi & Hib).
    destruct (bag_at_slot E w p bag b Hb) as [_ Hbs]. apply bag_slot_range in Hbs as (Hr & _).
    destruct (ok_item E w Hw b bi Hbi) as [bt Hbt]. destruct (is_bag_good E bi bt Hbt Hib) as (_ & _ & Hn).
    unfold in_bag in Hin. rewrite Hbi in Hin. simpl in Hin. destruct (Z.ltb_spec slot (NumSlots bi)); [|done]. split; slot_lia.
Qed.

(** A position with an item is a place, unless it is a slot for bags. *)
Lemma at_pos_place p bag slot a : 0 ≤ slot → at_pos E w p bag slot = Some a → ¬ (bag = INVENTORY_SLOT_BAG_0 ∧ is_bag_slot slot = true) →
  has_place E w p bag slot.
Proof.
  intros Hs Hat Hn. pose proof (at_pos_byte p bag slot a Hs Hat) as [Hb Hsl]. split; [done|]. split; [done|].
  unfold at_pos in Hat. destruct ((bag =? INVENTORY_SLOT_BAG_0) && in_own_array slot) eqn:Hc.
  - apply andb_true_iff in Hc as [->%Z.eqb_eq Ho]. left. split_and!; [done..|]. destruct (is_bag_slot slot); [by destruct Hn|done].
  - apply bind_Some in Hat as (b & Hba & Hin). right. destruct (bag_at_here E w p bag b Hba) as (bi & Hbi & _).
    exists b, bi. split_and!; [done..|]. unfold in_bag in Hin. rewrite Hbi in Hin. simpl in Hin. by destruct (Z.ltb_spec slot (NumSlots bi)).
Qed.

(** Where a carried item says it is. *)
Lemma yields_GetPos p bag slot a it : at_pos E w p bag slot = Some a → 0 ≤ slot → items w !! a = Some it →
  yields w (GetPos it) (λ pos, pos = pos_of bag slot).
Proof.
  intros Hat Hs Ha. destruct (ok_place E w Hw p bag slot a Hs Hat) as (it' & Ha' & Ho & Hsl & Hc). assert (it' = it) as -> by congruence.
  unfold GetPos. eapply yields_bind with (P := λ b, b = bag); [|intros b ->; apply yields_ret; congruence].
  unfold GetBagSlot. rewrite Hc. unfold container_at. destruct (Z.eqb_spec bag INVENTORY_SLOT_BAG_0) as [->|Hne]; [by apply yields_ret|].
  destruct (bag_at E w p bag) as [b|] eqn:Hb.
  - destruct (bag_owner E w p bag b Hw Hb) as (bi & Hbi & _ & Hbs). eapply yields_bind; [by apply yields_here_item|]. intros ? ->. by apply yields_ret.
  - exfalso. unfold at_pos in Hat. rewrite (proj2 (Z.eqb_neq _ _) Hne) in Hat. simpl in Hat. by rewrite Hb in Hat.
Qed.

Lemma yields_owner_allows p bag slot a it : at_pos E w p bag slot = Some a → 0 ≤ slot → items w !! a = Some it →
  yields w (owner_allows E it) (λ _, True).
Proof.
  intros Hat Hs Ha. unfold owner_allows.
  eapply yields_bind; [apply (yields_gets _ _ (λ o, o = players w !! Owner it)); done|]. intros ? ->.
  destruct (players w !! Owner it) as [pl|] eqn:Ho; [|by apply yields_ret].
  eapply yields_bind; [by eapply yields_GetPos|]. intros ? ->.
  eapply yields_bind; [apply yields_CanUnequip; by exists pl|]. intros. by apply yields_ret.
Qed.

(** What can be traded can be taken out. *)
Lemma yields_CanBeTraded p a mail trade : carried E w p a → yields w (CanBeTraded E a mail trade) (λ ok, ok = true →
  ∃ bag slot, has_place E w p bag slot ∧ at_pos E w p bag slot = Some a).
Proof.
  intros (bag & slot & Hs & Hat). destruct (at_pos_live E w Hw p bag slot a Hs Hat) as [it Ha]. unfold CanBeTraded.
  eapply yields_bind; [by apply yields_here_item|]. intros ? ->. case_match; [by apply yields_ret|].
  eapply yields_bind; [by eapply yields_IsBoundAccountWide|]. intros ? _. case_match; [by apply yields_ret|].
  eapply yields_bind; [by eapply yields_IsBag|]. intros ? ->. eapply yields_bind; [by eapply yields_GetPos|]. intros ? ->.
  eapply yields_bind with (P := λ _, True).
  { destruct (is_bag E it) eqn:Hib; [by eapply yields_empty|by apply yields_ret]. }
  intros empty _. destruct (is_bag E it && (IsBagPos (pos_of bag slot) || negb empty)) eqn:Hbag; [by apply yields_ret|].
  eapply yields_bind; [by eapply yields_owner_allows|]. intros ok _. destruct ok; simpl; [|by apply yields_ret].
  eapply yields_bind; [by eapply yields_IsBoundByEnchant|]. intros be _. apply yields_ret. intros _.
  exists bag, slot. split; [|done]. eapply at_pos_place; [done..|]. intros [-> Hslot].
  destruct (at_pos_byte p _ slot a Hs Hat) as [_ Hsb]. rewrite bag_slot_at in Hat by done.
  apply bind_Some in Hat as (pl & Hpl & Hown). destruct (ok_live E w Hw p pl slot a Hpl Hslot Hown) as (it' & Ha' & Hib).
  assert (it' = it) as -> by congruence. rewrite Hib in Hbag. simpl in Hbag. unfold IsBagPos in Hbag.
  rewrite pos_of_bag, pos_of_slot in Hbag by (unfold INVENTORY_SLOT_BAG_0; lia). by rewrite Hslot in Hbag.
Qed.

(** ** [CanStoreItems] *)

Definition keeps_length (l : list Z) (o : option (list Z)) : Prop := ∀ l', o = Some l' → length l' = length l.

Lemma take_free_length n inv : keeps_length inv (take_free n inv).
Proof.
  unfold keeps_length. revert inv. induction n as [|n IH]; intros [|x inv] l'; simpl; try done. case_match; [by intros [= <-]|].
  intros (l & Hl & ->)%fmap_Some. simpl. f_equal. by apply IH.
Qed.

Lemma yields_merge_whole p bag start t count ts inv : here w p →
  (∀ i, i ∈ ts → 0 ≤ i ∧ 0 ≤ i - start < Z.of_nat (length inv)) →
  yields w (merge_whole E p bag start t count ts inv) (keeps_length inv).
Proof.
  intros Hp. induction ts as [|i ts IH]; intros Hts; cbn [merge_whole]; [by apply yields_ret|].
  destruct (Hts i ltac:(by left)) as [H0 Hi].
  eapply yields_bind; [by apply yields_GetItemByPos|]. intros ? ->.
  eapply yields_bind with (P := λ _, True).
  - destruct (at_pos E w p bag i) as [a|] eqn:Hat; [|by apply yields_ret]. destruct (at_pos_live E w Hw p bag i a H0 Hat) as [it Ha].
    eapply yields_bind; [by apply yields_here_item|]. intros ? ->. eapply yields_bind; [apply yields_merge|]. intros res _.
    case_match; [by apply yields_ret|].
    destruct (lookup_range inv (i - start) (length inv) eq_refl Hi) as [n Hn].
    eapply yields_bind; [by eapply (yields_elem _ _ _ _ (λ _, True))|]. intros. by apply yields_ret.
  - intros fits _. destruct fits; [apply yields_ret; intros ? [= <-]; by rewrite length_alter|].
    apply IH. intros j Hj. apply Hts. by right.
Qed.

Definition rows_ok (rows : list (list Z)) : Prop := Forall (λ r : list Z, length r = Z.to_nat MAX_BAG_SIZE) rows.

Lemma yields_in_bags p f bs rows : here w p →
  (∀ b bi i row, items w !! b = Some bi → is_bag E bi = true → length row = Z.to_nat MAX_BAG_SIZE → yields w (f bi i row) (keeps_length row)) →
  rows_ok rows → yields w (in_bags E p f bs rows) (λ o, ∀ l, o = Some l → rows_ok l).
Proof.
  intros Hp Hf. revert rows. induction bs as [|i bs IH]; intros [|row rows] Hr; cbn [in_bags]; try by apply yields_ret.
  apply Forall_cons in Hr as [Hrow Hrows].
  eapply yields_bind; [by apply yields_GetBagByPos|]. intros o [_ Hb].
  eapply yields_bind with (P := keeps_length row).
  - destruct o as [b|]; [|by apply yields_ret]. destruct (Hb b eq_refl) as (bi & Hbi & Hib).
    eapply yields_bind; [by apply yields_here_item|]. intros ? ->. by eapply Hf.
  - intros [row'|] Hk.
    + apply yields_ret. intros ? [= <-]. apply Forall_cons. split; [by rewrite (Hk row')|done].
    + eapply yields_bind; [by apply IH|]. intros r Hr. apply yields_ret. intros ? (l & Hl & ->)%fmap_Some.
      apply Forall_cons. split; [done|]. by apply Hr.
Qed.

Definition space_ok (s : Space) : Prop :=
  length (inv_slot_items s) = 16%nat ∧ length (inv_keys s) = 32%nat ∧ length (inv_tokens s) = 32%nat ∧ rows_ok (inv_bags s).

Definition keeps_space (o : option Space) : Prop := ∀ s, o = Some s → space_ok s.

Lemma yields_orelse_space (m1 m2 : iw (option Space)) : yields w m1 keeps_space → yields w m2 keeps_space → yields w (orelse m1 m2) keeps_space.
Proof. apply yields_orelse. Qed.

(** A part of the table is replaced. *)
Lemma yields_part {A} (m : iw (option A)) (put : A → Space) (P : option A → Prop) : yields w m P →
  (∀ o x, P o → o = Some x → space_ok (put x)) → yields w (o ← m; mret (put <$> o)) keeps_space.
Proof.
  intros Hm Hp. eapply yields_bind; [exact Hm|]. intros o Ho. apply yields_ret. intros ? (x & Hx & ->)%fmap_Some. by eapply Hp.
Qed.

Lemma keep_slots s l : space_ok s → length l = length (inv_slot_items s) → space_ok (with_slot_items s l).
Proof. intros (H1 & H2 & H3 & H4) Hl. split_and!; simpl; try done. congruence. Qed.
Lemma keep_keys s l : space_ok s → length l = length (inv_keys s) → space_ok (with_keys s l).
Proof. intros (H1 & H2 & H3 & H4) Hl. split_and!; simpl; try done. congruence. Qed.
Lemma keep_tokens s l : space_ok s → length l = length (inv_tokens s) → space_ok (with_tokens s l).
Proof. intros (H1 & H2 & H3 & H4) Hl. split_and!; simpl; try done. congruence. Qed.
Lemma keep_bags s l : space_ok s → rows_ok l → space_ok (with_bags s l).
Proof. by intros (H1 & H2 & H3 & H4) Hl. Qed.

Lemma yields_merge_in_bag p t count b bi i row : here w p → items w !! b = Some bi → is_bag E bi = true →
  length row = Z.to_nat MAX_BAG_SIZE → yields w (merge_in_bag E p t count bi i row) (keeps_length row).
Proof.
  intros Hp Hbi Hib Hr. unfold merge_in_bag. destruct (ok_item E w Hw b bi Hbi) as [bt Hbt]. rewrite (good_template E bi bt Hbt).
  case_match; [|by apply yields_ret]. destruct (is_bag_good E bi bt Hbt Hib) as (_ & _ & Hn).
  apply yields_merge_whole; [done|]. intros j Hj%elem_of_slots. slot_lia.
Qed.

Lemma yields_fit_merge p t count s : here w p → space_ok s → yields w (fit_merge E p t count s) keeps_space.
Proof.
  intros Hp Hs. pose proof Hs as (H1 & H2 & H3 & H4). unfold fit_merge.
  apply yields_orelse_space; [|apply yields_orelse_space; [|apply yields_orelse_space]].
  - eapply yields_part; [apply yields_merge_whole; [done|intros j Hj%elem_of_slots; slot_lia]|].
    intros o x Ho Hx. apply keep_keys; [done|]. by apply Ho.
  - eapply yields_part; [apply yields_merge_whole; [done|intros j Hj%elem_of_slots; slot_lia]|].
    intros o x Ho Hx. apply keep_tokens; [done|]. by apply Ho.
  - eapply yields_part; [apply yields_merge_whole; [done|intros j Hj%elem_of_slots; slot_lia]|].
    intros o x Ho Hx. apply keep_slots; [done|]. by apply Ho.
  - eapply yields_part; [apply yields_in_bags; [done| |done]|].
    + intros b bi i row. by apply yields_merge_in_bag.
    + intros o x Ho Hx. apply keep_bags; [done|]. by apply Ho.
Qed.

Lemma yields_free_in {A} (o : option (list A)) (put : list A → Space) : (∀ x, o = Some x → space_ok (put x)) → yields w (mret (put <$> o)) keeps_space.
Proof. intros Hp. apply yields_ret. intros ? (x & Hx & ->)%fmap_Some. by apply Hp. Qed.

Lemma yields_fit_special p t s : here w p → space_ok s → yields w (fit_special E p t s) keeps_space.
Proof.
  intros Hp Hs. pose proof Hs as (H1 & H2 & H3 & H4). unfold fit_special.
  apply yields_orelse_space; [|apply yields_orelse_space].
  - case_match; [|by apply yields_ret]. apply yields_free_in. intros x Hx. apply keep_keys; [done|]. by apply take_free_length in Hx.
  - case_match; [|by apply yields_ret]. apply yields_free_in. intros x Hx. apply keep_tokens; [done|]. by apply take_free_length in Hx.
  - eapply yields_part; [apply yields_in_bags; [done| |done]|].
    + intros b bi i row _ _ Hr. apply yields_ret. repeat case_match; try done. apply take_free_length.
    + intros o x Ho Hx. apply keep_bags; [done|]. by apply Ho.
Qed.

Lemma yields_fit_free p s : here w p → space_ok s → yields w (fit_free E p s) keeps_space.
Proof.
  intros Hp Hs. apply yields_orelse_space.
  - apply yields_free_in. intros x Hx. apply keep_slots; [done|]. by apply take_free_length in Hx.
  - eapply yields_part; [apply yields_in_bags; [done| |apply Hs]|].
    + intros b bi i row _ _ Hr. apply yields_ret. repeat case_match; try done; apply take_free_length.
    + intros o x Ho Hx. apply keep_bags; [done|]. by apply Ho.
Qed.

Lemma yields_fit_item p a s : here w p → live w a → space_ok s →
  yields w (fit_item E p a s) (λ r, match r with inl res => True | inr s => space_ok s end).
Proof.
  intros Hp [it Ha] Hs. unfold fit_item. eapply yields_bind; [by apply yields_here_item|]. intros ? ->.
  destruct (ok_item E w Hw a it Ha) as [t Ht]. rewrite (good_template E it t Ht). pose proof (good_count E it t Ht) as Hc.
  pose proof (good_max E it t Ht) as Hm. case_match; [by apply yields_ret|].
  eapply yields_bind; [by eapply yields_IsBindedNotWith|]. intros bound _. destruct bound; [by apply yields_ret|].
  eapply yields_bind.
  { apply yields_CanTakeMore; [done|done|intros ? [= <-]; by exists it|]. unfold in_u. pow_consts. lia. }
  intros [res n] _. case_match; [by apply yields_ret|].
  eapply yields_bind with (P := keeps_space).
  - apply yields_orelse_space; [case_match; [by apply yields_fit_merge|by apply yields_ret]|].
    apply yields_orelse_space; [case_match; [by apply yields_fit_special|by apply yields_ret]|]. by apply yields_fit_free.
  - intros r Hr. apply yields_ret. destruct r; [by apply Hr|done].
Qed.

Lemma yields_fit_items p l s : here w p → (∀ a, Some a ∈ l → live w a) → space_ok s → yields w (fit_items E p l s) (λ _, True).
Proof.
  intros Hp. revert s. induction l as [|[a|] l IH]; intros s Hl Hs; cbn [fit_items]; [by apply yields_ret| |].
  - eapply yields_bind; [apply yields_fit_item; [done|apply Hl; by left|done]|]. intros [res|s'] Hs'; [by apply yields_ret|].
    apply IH; [|done]. intros b Hb. apply Hl. by right.
  - apply IH; [|done]. intros b Hb. apply Hl. by right.
Qed.

Lemma yields_space_at o : (∀ a, o = Some a → live w a) → yields w (space_at o) (λ _, True).
Proof.
  intros Ho. destruct o as [a|]; simpl; [|by apply yields_ret]. destruct (Ho a eq_refl) as [it Ha].
  eapply yields_bind; [by apply yields_here_item|]. intros ? ->. by apply yields_ret.
Qed.

Lemma yields_row p bag first last : here w p → 0 ≤ first →
  yields w (each_of (λ j, o ← GetItemByPos E p bag j; space_at o) (slots first last)) (λ l, length l = Z.to_nat (last - first)).
Proof.
  intros Hp H0. eapply yields_mono; [apply (yields_each _ _ _ (λ _, True))|].
  - intros i Hi%elem_of_slots. eapply yields_bind; [apply yields_GetItemByPos; [done..|lia]|]. intros ? ->.
    apply yields_space_at. intros a. apply at_pos_live; [done|lia].
  - intros l [_ ->]. unfold slots. by rewrite length_seqZ.
Qed.

Lemma yields_CanStoreItems p l : here w p → (∀ a, Some a ∈ l → live w a) → yields w (CanStoreItems E p l) (λ _, True).
Proof.
  intros Hp Hl. unfold CanStoreItems. eapply yields_bind with (P := space_ok); [|intros s Hs; by apply yields_fit_items].
  unfold space_of, own_space. eapply yields_bind; [by apply yields_row|]. intros s1 H1.
  eapply yields_bind; [by apply yields_row|]. intros s2 H2. eapply yields_bind; [by apply yields_row|]. intros s3 H3.
  eapply yields_bind; [apply (yields_each _ _ _ (λ r : list Z, length r = Z.to_nat MAX_BAG_SIZE))|].
  - intros i _. eapply yields_bind; [by apply yields_GetBagByPos|]. intros o [_ Hb].
    destruct o as [b|]; [|apply yields_ret; by rewrite length_replicate]. destruct (Hb b eq_refl) as (bi & Hbi & Hib).
    eapply yields_bind; [by apply yields_here_item|]. intros ? ->. eapply yields_bind; [by apply yields_row|]. intros r Hr.
    apply yields_ret. rewrite length_take, length_app, length_replicate. lia.
  - intros rows [Hr _]. apply yields_ret. split_and!; done.
Qed.

End Look.
End Reads.
