(* ===== verification/TradeInv.v ===== *)
(** * TradeInv: the invariant of trades, and what leaves it alone

    Two players who trade point to each other; no trade dangles. [near] worlds differ only
    in what the invariant does not read; a [mild] program stays near. *)

From Stdlib Require Import ZArith Lia.
From S2P Require Import Prelude ByteBuffer Guid ItemData Inventory InventoryStore Trade.
From S2P Require Import ItemFacts ItemRun PlanFacts StoreFacts StoreRun StoreSpec ItemMoves ItemReads.
Local Open Scope Z_scope.

(** ** The invariant *)

(** [p] has the side [t] of a trade with [q]. *)
Definition side (w : World) (p t : Z) (td : TradeData) (q : Z) : Prop :=
  (∃ pl, players w !! p = Some pl ∧ m_trade pl = Some t) ∧ trades w !! t = Some td ∧ m_player td = p ∧ m_trader td = q.

(** The offer of a side: seven guids, none twice. *)
Definition offer_ok (td : TradeData) : Prop :=
  length (t_items td) = Z.to_nat TRADE_SLOT_COUNT ∧ in_u 32 (m_money td) ∧
  ∀ i j g, t_items td !! i = Some g → t_items td !! j = Some g → g ≠ 0 → i = j.

Record trade_ok (w : World) : Prop := {
  tr_side : ∀ p pl t, players w !! p = Some pl → m_trade pl = Some t → ∃ td q, side w p t td q ∧ p ≠ q ∧ offer_ok td ∧
    ∃ t' td', side w q t' td' p;
  tr_coins : ∀ p pl, players w !! p = Some pl → 0 ≤ Coinage pl ≤ MAX_MONEY_AMOUNT
}.

(** ** Near worlds *)

Definition tcore (td : TradeData) := (m_player td, m_trader td, m_money td, t_items td).

Definition near (w w' : World) : Prop := (icore <$> items w', pcore <$> players w', tcore <$> trades w', m_hiItemGuid w') =
  (icore <$> items w, pcore <$> players w, tcore <$> trades w, m_hiItemGuid w).

Lemma near_refl w : near w w.
Proof. done. Qed.

Lemma near_trans w1 w2 w3 : near w1 w2 → near w2 w3 → near w1 w3.
Proof. unfold near. congruence. Qed.

Lemma near_sym w1 w2 : near w1 w2 → near w2 w1.
Proof. unfold near. congruence. Qed.

Lemma equiv_near w w' : w' ≡ w → near w w'.
Proof. intros [= Hi Hp Ht Hg]. unfold near. by rewrite Hi, Hp, Ht, Hg. Qed.

(** But for the trades, near worlds are equivalent. *)
Lemma near_equiv w w' : near w w' → w' ≡ with_trades (trades w') w.
Proof. intros [= Hi Hp Ht Hg]. unfold equiv, item_world_equiv, wcore. simpl. by rewrite Hi, Hp, Hg. Qed.

Lemma near_item w w' a it : near w w' → items w !! a = Some it → ∃ it', items w' !! a = Some it' ∧ icore it' = icore it.
Proof. intros H Ha. by apply (equiv_item (with_trades (trades w') w) w' a it (near_equiv w w' H)). Qed.

Lemma near_player w w' p pl : near w w' → players w !! p = Some pl → ∃ pl', players w' !! p = Some pl' ∧ pcore pl' = pcore pl.
Proof. intros H Ha. by apply (equiv_owner (with_trades (trades w') w) w' p pl (near_equiv w w' H)). Qed.

Lemma near_live w w' a : near w w' → live w a → live w' a.
Proof. intros H [it Ha]. destruct (near_item w w' a it H Ha) as (it' & ? & _). by exists it'. Qed.

Lemma near_here w w' p : near w w' → here w p → here w' p.
Proof. intros H [pl Ha]. destruct (near_player w w' p pl H Ha) as (pl' & ? & _). by exists pl'. Qed.

Lemma near_trade w w' t td : near w w' → trades w !! t = Some td → ∃ td', trades w' !! t = Some td' ∧ tcore td' = tcore td.
Proof.
  intros H Ht. injection H as _ _ H _. apply (f_equal (lookup t)) in H. rewrite !lookup_fmap, Ht in H.
  apply fmap_Some in H as (td' & ? & ?). by exists td'.
Qed.

Lemma near_side w w' p t td q : near w w' → side w p t td q → ∃ td', side w' p t td' q ∧ tcore td' = tcore td.
Proof.
  intros H ((pl & Hpl & Ht) & Htd & Hm & Hr). destruct (near_player _ _ _ _ H Hpl) as (pl' & Hpl' & [= _ _ Ht']).
  destruct (near_trade _ _ _ _ H Htd) as (td' & Htd' & Hc). exists td'. split; [|done].
  injection Hc as ????. split_and!; [exists pl'; split; congruence|done|congruence..].
Qed.

Lemma near_trade_ok w w' : near w w' → trade_ok w → trade_ok w'.
Proof.
  intros H Hw. pose proof (near_sym _ _ H) as Hs. split.
  - intros p pl' t Hp Ht. destruct (near_player _ _ _ _ Hs Hp) as (pl & Hpl & [= _ _ Et]).
    destruct (tr_side w Hw p pl t Hpl ltac:(congruence)) as (td & q & Hside & Hne & (Ho1 & Ho2 & Ho3) & t2 & td2 & Hside2).
    destruct (near_side _ _ _ _ _ _ H Hside) as (td' & Hside' & Hc), (near_side _ _ _ _ _ _ H Hside2) as (td2' & Hside2' & _).
    exists td', q. split_and!; [done..| |by exists t2, td2']. injection Hc as _ _ Em Ei. unfold offer_ok. rewrite Em, Ei. done.
  - intros p pl' Hp. destruct (near_player _ _ _ _ Hs Hp) as (pl & Hpl & [= _ Ec _]). rewrite <- Ec. by apply (tr_coins w Hw p).
Qed.

Section Near.
Context (E : IEnv).

Lemma inv_with_trades w ts : inv_ok E w → inv_ok E (with_trades ts w).
Proof. intros []. by split. Qed.

Lemma near_inv w w' : near w w' → inv_ok E w → inv_ok E w'.
Proof. intros H Hw. apply (inv_ok_equiv E (with_trades (trades w') w)); [by apply near_equiv|by apply inv_with_trades]. Qed.

Lemma near_at_pos w w' p bag slot : near w w' → at_pos E w' p bag slot = at_pos E w p bag slot.
Proof. intros H. by rewrite (at_pos_equiv E _ _ _ _ _ (near_equiv w w' H)). Qed.

Lemma near_carried w w' p a : near w w' → carried E w p a → carried E w' p a.
Proof. intros H (b & s & Hs & Ha). exists b, s. by rewrite (near_at_pos w w'). Qed.

Lemma near_owns w w' p g a : near w w' → owns E w p g a → owns E w' p g a.
Proof. intros H Ho. by apply (owns_equiv E (with_trades (trades w') w)); [apply near_equiv|]. Qed.

Definition server_ok (w : World) : Prop := inv_ok E w ∧ trade_ok w.

Lemma near_ok w w' : near w w' → server_ok w → server_ok w'.
Proof. intros H []. split; [by eapply near_inv|by eapply near_trade_ok]. Qed.

End Near.

(** ** Mild programs *)

Definition mild {A} (w : World) (m : iw A) : Prop := runs w m (λ _ w', near w w').

Lemma mild_ret {A} w (x : A) : mild w (mret x).
Proof. by apply runs_ret. Qed.

Lemma mild_bind {A B} w (m : iw A) (k : A → iw B) : mild w m → (∀ x w', near w w' → mild w' (k x)) → mild w (m ≫= k).
Proof.
  intros H1 H2. eapply runs_bind; [exact H1|]. intros x w' Hw'. eapply runs_mono; [by apply H2|]. intros ? w'' H.
  simpl in *. by eapply near_trans.
Qed.

Lemma mild_quiet {A} w (m : iw A) : quiet w m → mild w m.
Proof. intros H. eapply runs_mono; [exact H|]. intros ? w' Hw'. by apply equiv_near. Qed.

Lemma mild_look {A} w (m : iw A) (P : A → Prop) : yields w m P → mild w m.
Proof. intros H. eapply mild_quiet, quiet_look, H. Qed.

Lemma mild_look_bind {A B} w (m : iw A) (k : A → iw B) (P : A → Prop) : yields w m P → (∀ x, P x → mild w (k x)) → mild w (m ≫= k).
Proof. apply runs_look_bind. Qed.

Lemma mild_then {A B} w (m : iw A) (k : A → iw B) (Q : B → World → Prop) : mild w m →
  (∀ x w', near w w' → runs w' (k x) Q) → runs w (m ≫= k) Q.
Proof. apply runs_bind. Qed.

Lemma mild_emit w e : mild w (emit e).
Proof. apply mild_quiet, quiet_emit. Qed.

Lemma mild_set_in_trade w b o : (∀ a, o = Some a → live w a) → mild w (set_in_trade b o).
Proof.
  intros Ho. destruct o as [a|]; simpl; [|apply mild_ret]. apply mild_quiet, quiet_upd_item; [by apply Ho|done].
Qed.

Definition open_trade (w : World) (t : Z) : Prop := is_Some (trades w !! t).

Lemma near_open w w' t : near w w' → open_trade w t → open_trade w' t.
Proof. intros H [td Ht]. destruct (near_trade _ _ _ _ H Ht) as (td' & ? & _). by exists td'. Qed.

Lemma yields_trade w t td : trades w !! t = Some td → yields w (trade_at t) (λ x, x = td).
Proof. intros H. exists td. split; [|done]. unfold trade_at, mbind, prog_bind, gets, of_option. by rewrite H. Qed.

Lemma runs_upd_trade w t f (Q : unit → World → Prop) : open_trade w t → Q tt (with_trades (alter f t (trades w)) w) → runs w (upd_trade t f) Q.
Proof. intros [td Ht] H. eapply runs_look_bind; [by apply yields_trade|]. intros ? ->. by apply runs_modify. Qed.

Lemma mild_upd_trade w t f : open_trade w t → (∀ td, tcore (f td) = tcore td) → mild w (upd_trade t f).
Proof.
  intros Ht Hf. apply runs_upd_trade; [done|]. unfold near. simpl. f_equal. f_equal.
  rewrite (alter_core tcore f id (trades w) (trades w)); [|done|intros x x' H; by rewrite Hf].
  apply map_eq. intros b. rewrite !lookup_fmap. destruct (decide (t = b)) as [->|].
  - rewrite lookup_alter_eq. by destruct (trades w !! b).
  - by rewrite lookup_alter_ne.
Qed.

Lemma yields_pl w p pl : players w !! p = Some pl → yields w (player_at p) (λ x, x = pl).
Proof. intros H. by eapply yields_player. Qed.

Lemma quiet_send w p op d : here w p → quiet w (send_to p op d).
Proof. intros [pl Hp]. eapply runs_look_bind; [by apply yields_pl|]. intros ? ->. apply quiet_emit. Qed.

Lemma mild_send w p op d : here w p → mild w (send_to p op d).
Proof. intros Hp. by apply mild_quiet, quiet_send. Qed.

Lemma mild_notify w p text : here w p → mild w (notify p text).
Proof. intros [pl Hp]. eapply mild_look_bind; [by apply yields_pl|]. intros ? ->. apply mild_emit. Qed.

Lemma mild_status w p s : here w p → mild w (SendTradeStatus p s).
Proof. apply mild_send. Qed.

(** ** The operations of a trade *)

Section Ops.
Context (E : IEnv).

Lemma side_partner w p t td q : server_ok E w → side w p t td q →
  p ≠ q ∧ offer_ok td ∧ ∃ t' td', side w q t' td' p ∧ offer_ok td'.
Proof.
  intros [_ Hw] ((pl & Hp & Ht) & Htd & Hm & Hr). destruct (tr_side w Hw p pl t Hp Ht) as (td0 & q0 & (_ & Htd0 & _ & Hr0) & Hne & Ho & t' & td' & Hs').
  assert (td0 = td) as -> by congruence. assert (q0 = q) as -> by congruence. split_and!; [done..|]. exists t', td'. split; [done|].
  pose proof Hs' as ((pl' & Hp' & Ht') & Htd' & _). destruct (tr_side w Hw q pl' t' Hp' Ht') as (td1 & q1 & (_ & Htd1 & _) & _ & Ho' & _).
  assert (td1 = td') as -> by congruence. done.
Qed.

Lemma side_here w p t td q : side w p t td q → here w p.
Proof. intros ((pl & Hp & _) & _). by exists pl. Qed.

Lemma side_open w p t td q : side w p t td q → open_trade w t.
Proof. intros (_ & Ht & _). by exists td. Qed.

(** The item of a slot of an offer. *)
Definition offered (w : World) (td : TradeData) (i a : Z) : Prop :=
  ∃ g, t_items td !! Z.to_nat i = Some g ∧ g ≠ 0 ∧ owns E w (m_player td) g a.

Lemma yields_GetItem w td i : inv_ok E w → here w (m_player td) → offer_ok td → 0 ≤ i < TRADE_SLOT_COUNT →
  yields w (GetItem E td i) (λ o, ∀ a, o = Some a ↔ offered w td i a).
Proof.
  intros Hw Hp (Hl & _ & _) Hi. unfold GetItem, offered. destruct (lookup_range (t_items td) i 7 Hl) as [g Hg]; [slot_lia|].
  eapply yields_bind; [apply (yields_elem _ _ _ g (λ x, x = g)); done|]. intros ? ->. destruct (Z.eqb_spec g 0) as [->|Hne]; simpl.
  - apply yields_ret. intros a. split; [done|]. intros (g & Hg' & ? & _). congruence.
  - eapply yields_mono; [by apply finds_GetItemByGuid|]. intros o Ho a. etransitivity; [apply Ho|]. split; [by eauto|].
    intros (g' & Hg' & _ & H). congruence.
Qed.

Lemma near_offered w w' td td' i a : near w w' → tcore td' = tcore td → offered w td i a → offered w' td' i a.
Proof.
  intros H [= Hm _ _ Hi] (g & Hg & Hne & Ho). exists g. rewrite Hi, Hm. split_and!; [done..|]. by eapply near_owns.
Qed.

Lemma yields_trade_slot w td i : inv_ok E w → here w (m_player td) → offer_ok td → 0 ≤ i < TRADE_SLOT_COUNT →
  yields w (trade_slot E td i) (λ _, True).
Proof.
  intros Hw Hp Ho Hi. eapply yields_bind; [by apply yields_GetItem|]. intros [a|] Ha; [|by apply yields_ret].
  destruct (proj1 (Ha a) eq_refl) as (g & _ & _ & (_ & it & Hit & _)%owns_carried).
  eapply yields_bind; [by apply yields_here_item|]. intros ? ->. destruct (ok_item E w Hw a it Hit) as [t Ht].
  eapply yields_bind; [by eapply yields_good|]. intros t' _.
  eapply yields_bind; [eapply enchant_elem; [done|slot_lia]|]. intros ? _.
  eapply yields_bind; [apply (yields_each _ _ _ (λ _, True))|].
  - intros j Hj%elem_of_slots. eapply enchant_elem; [done|slot_lia].
  - intros. by apply yields_ret.
Qed.

Lemma yields_my_trade w p t td q : side w p t td q → yields w (player_at p) (λ pl, m_trade pl = Some t ∧ players w !! p = Some pl).
Proof. intros ((pl & Hp & Ht) & _). eapply yields_mono; [by apply yields_pl|]. by intros ? ->. Qed.

Lemma yields_td w p t td q : side w p t td q → yields w (trade_at t) (λ x, x = td).
Proof. intros (_ & Ht & _). by apply yields_trade. Qed.

Lemma yields_trader w p t td q : server_ok E w → side w p t td q → yields w (GetTraderData td) (λ o, ∃ t' td', o = Some t' ∧ side w q t' td' p).
Proof.
  intros Hw Hs. destruct (side_partner w p t td q Hw Hs) as (_ & _ & t' & td' & Hs' & _). pose proof Hs as (_ & _ & _ & Hr).
  unfold GetTraderData. rewrite Hr. eapply yields_bind; [by eapply yields_my_trade|]. intros pl [-> _]. apply yields_ret. by exists t', td'.
Qed.

Lemma quiet_SendUpdateTrade w p t td q b : server_ok E w → side w p t td q → quiet w (SendUpdateTrade E p b).
Proof.
  intros Hw Hs. destruct (side_partner w p t td q Hw Hs) as (_ & Ho & t' & td' & Hs' & Ho').
  eapply runs_look_bind; [by eapply yields_my_trade|]. intros pl [-> _].
  eapply runs_look_bind; [by apply (yields_option _ _ t (λ x, x = t))|]. intros ? ->.
  eapply runs_look_bind; [by eapply yields_td|]. intros ? ->.
  assert (∃ v vd r, side w r v vd (if b then p else q) ∧ offer_ok vd ∧
    yields w (if b then GetTraderData td else mret (Some t)) (λ o, o = Some v)) as (v & vd & r & Hv & Hvo & Hy).
  { destruct b; [|exists t, td, p; split_and!; [done..|by apply yields_ret]].
    exists t', td', q. split_and!; [done..|]. eapply yields_mono; [by eapply yields_trader|]. intros o (t2 & td2 & -> & Hs2).
    destruct Hs2 as ((pl2 & H2 & H3) & _), Hs' as ((pl3 & H4 & H5) & _). congruence. }
  eapply runs_look_bind; [exact Hy|]. intros ? ->.
  eapply runs_look_bind; [by apply (yields_option _ _ v (λ x, x = v))|]. intros ? ->.
  eapply runs_look_bind; [by eapply yields_td|]. intros ? ->.
  eapply runs_look_bind; [apply (yields_each _ _ _ (λ _, True))|].
  - intros i Hi%elem_of_slots. apply yields_trade_slot; [apply Hw| |done|slot_lia].
    destruct Hv as (Hv & _ & Hm & _). rewrite Hm. destruct Hv as (pl' & ? & _). by exists pl'.
  - intros lines _. apply quiet_send. by eapply side_here.
Qed.

(** The side may have been read before; its players have not changed. *)
Lemma quiet_Update w p t td td0 q b : server_ok E w → side w p t td q → m_player td0 = p → m_trader td0 = q → quiet w (Update E td0 b).
Proof.
  intros Hw Hs Hm Hr. destruct (side_partner w p t td q Hw Hs) as (_ & _ & t' & td' & Hs' & _). unfold Update. rewrite Hm, Hr.
  destruct b; by eapply quiet_SendUpdateTrade.
Qed.

Lemma mild_Update w p t td td0 q b : server_ok E w → side w p t td q → m_player td0 = p → m_trader td0 = q → mild w (Update E td0 b).
Proof. intros. apply mild_quiet. by eapply quiet_Update. Qed.

Lemma mild_SetAccepted w p t td q state cross : server_ok E w → side w p t td q → mild w (SetAccepted t state cross).
Proof.
  intros Hw Hs. eapply mild_bind; [apply mild_upd_trade; [by eapply side_open|done]|]. intros ? w1 H1.
  destruct (near_side _ _ _ _ _ _ H1 Hs) as (td1 & Hs1 & _). destruct state; simpl; [apply mild_ret|].
  eapply mild_look_bind; [by eapply yields_td|]. intros ? ->. pose proof (near_ok E _ _ H1 Hw) as Hw1.
  destruct (side_partner w1 p t td1 q Hw1 Hs1) as (_ & _ & t' & td' & Hs' & _). pose proof Hs1 as (_ & _ & Hm & Hr).
  apply mild_status. destruct cross; [rewrite Hr|rewrite Hm]; by eapply side_here.
Qed.

Lemma mild_unaccept w p t td q : server_ok E w → side w p t td q → mild w (unaccept_both t).
Proof.
  intros Hw Hs. eapply mild_bind; [by eapply mild_SetAccepted|]. intros ? w1 H1. pose proof (near_ok E _ _ H1 Hw) as Hw1.
  destruct (near_side _ _ _ _ _ _ H1 Hs) as (td1 & Hs1 & _).
  eapply mild_look_bind; [by eapply yields_td|]. intros ? ->.
  eapply mild_look_bind; [by eapply yields_trader|]. intros o (t' & td' & -> & Hs').
  eapply mild_look_bind; [by apply (yields_option _ _ t' (λ x, x = t'))|]. intros ? ->. by eapply mild_SetAccepted.
Qed.

(** A side whose offer has changed is told to both. *)
Definition announced (td : TradeData) (t : Z) : iw unit := unaccept_both t;; Update E td true;; Update E td false.

Lemma mild_announced w p t td td0 q : server_ok E w → side w p t td q → m_player td0 = p → m_trader td0 = q → mild w (announced td0 t).
Proof.
  intros Hw Hs Hm Hr. eapply mild_bind; [by eapply mild_unaccept|]. intros ? w1 H1. pose proof (near_ok E _ _ H1 Hw) as Hw1.
  destruct (near_side _ _ _ _ _ _ H1 Hs) as (td1 & Hs1 & _).
  eapply mild_bind; [by eapply mild_Update|]. intros ? w2 H2. pose proof (near_ok E _ _ H2 Hw1) as Hw2.
  destruct (near_side _ _ _ _ _ _ H2 Hs1) as (td2 & Hs2 & _). by eapply mild_Update.
Qed.

Lemma yields_guid_of w o : (∀ a, o = Some a → live w a) → yields w (guid_of o) (λ _, True).
Proof.
  intros Ho. destruct o as [a|]; simpl; [|by apply yields_ret]. destruct (Ho a eq_refl) as [it Ha].
  eapply yields_bind; [by apply yields_here_item|]. intros. by apply yields_ret.
Qed.

Lemma mild_SetSpell w p t td q spell o : server_ok E w → side w p t td q → (∀ a, o = Some a → live w a) → mild w (SetSpell E t spell o).
Proof.
  intros Hw Hs Ho. eapply mild_look_bind; [by apply yields_guid_of|]. intros g _.
  eapply mild_look_bind; [by eapply yields_td|]. intros ? ->. case_match; [apply mild_ret|].
  pose proof Hs as (_ & _ & Hm & Hr).
  eapply mild_bind; [apply mild_upd_trade; [by eapply side_open|done]|]. intros ? w1 H1. pose proof (near_ok E _ _ H1 Hw) as Hw1.
  destruct (near_side _ _ _ _ _ _ H1 Hs) as (td1 & Hs1 & _). by eapply mild_announced.
Qed.

(** ** A new offer *)

(** The offer of the side [t] is changed. *)
Definition reoffered (t : Z) (f : TradeData → TradeData) (w : World) : World := with_trades (alter f t (trades w)) w.

Lemma reoffered_side w t f p t' td q : (∀ td, m_player (f td) = m_player td ∧ m_trader (f td) = m_trader td) → side w p t' td q →
  side (reoffered t f w) p t' (if decide (t = t') then f td else td) q.
Proof.
  intros Hf (Hp & Ht & Hm & Hr). split; [done|]. simpl. destruct (decide (t = t')) as [->|]; simpl.
  - rewrite lookup_alter_eq, Ht. destruct (Hf td) as [-> ->]. done.
  - rewrite lookup_alter_ne by done. done.
Qed.

Lemma reoffered_ok w p t td q f : server_ok E w → side w p t td q → (∀ td, m_player (f td) = m_player td ∧ m_trader (f td) = m_trader td) →
  offer_ok (f td) → server_ok E (reoffered t f w).
Proof.
  intros [Hi Hw] Hs Hf Ho. split; [by apply inv_with_trades|]. split; [|apply (tr_coins w Hw)].
  intros r pl tr Hr Htr. destruct (tr_side w Hw r pl tr Hr Htr) as (tdr & s & Hside & Hne & Hor & t2 & td2 & Hs2).
  exists (if decide (t = tr) then f tdr else tdr), s. split_and!; [by apply reoffered_side|done| |].
  - case_decide as Hd; [|done]. subst tr. destruct Hs as (_ & Ht & _), Hside as (_ & Ht' & _). assert (tdr = td) as -> by congruence. done.
  - eexists _, _. by apply reoffered_side.
Qed.

Lemma offer_money td m : offer_ok td → in_u 32 m → offer_ok (with_m_money m td).
Proof. by intros (? & _ & ?) ?. Qed.

Lemma offer_item td i g : offer_ok td → (g = 0 ∨ g ∉ t_items td) → offer_ok (with_t_items (<[Z.to_nat i := g]> (t_items td)) td).
Proof.
  intros (Hl & Hm & Hu) Hg. split_and!; simpl; [by rewrite length_insert|done|].
  intros j k h Hj Hk Hh. apply list_lookup_insert_Some in Hj, Hk.
  assert (∀ n, t_items td !! n = Some g → g = 0) as Hno by (intros n Hn; destruct Hg; [done|]; by apply list_elem_of_lookup_2 in Hn).
  destruct Hj as [(<- & <- & _)|[Hj Hj']], Hk as [(<- & Hk & _)|[Hk Hk']]; [done| | |by eapply Hu].
  - by destruct Hh; eapply Hno.
  - subst h. by destruct Hh; eapply Hno.
Qed.

End Ops.
