(* ===== verification/TradeMoves.v ===== *)
(** * TradeMoves: the goods of a completed trade change hands

    All offered items are taken out first ([removed]), then each pair is stored crosswise or
    given back ([moved]). *)

From Stdlib Require Import ZArith Lia.
From S2P Require Import Prelude ByteBuffer Guid ItemData Inventory InventoryStore Trade.
From S2P Require Import ItemFacts ItemRun PlanFacts StoreFacts StoreRun StoreSpec ItemMoves Stock ItemReads TradeInv.
Local Open Scope Z_scope.

Section Moves.
Context (E : IEnv).

(** The item is somewhere it can be taken out of. *)
Definition stands (w : World) (p a : Z) : Prop := ∃ bag slot, has_place E w p bag slot ∧ at_pos E w p bag slot = Some a.

Definition purse (pl : Player) := (Coinage pl, m_trade pl).

(** How many of [e] the item is. *)
Definition count_of (w : World) (a e : Z) : Z :=
  match items w !! a with Some it => if Entry it =? e then Count it else 0 | None => 0 end.

(** What the goods [S], each with its owner, are worth to [q] in [e]. *)
Definition goods (w : World) (S : list (Z * Z)) (q e : Z) : Z := sum_over (λ x, if q =? x.1 then count_of w x.2 e else 0) S.

Lemma count_of_same w w' a e : idata <$> items w' !! a = idata <$> items w !! a → count_of w' a e = count_of w a e.
Proof. intros H. unfold count_of. destruct (items w !! a), (items w' !! a); simpl in *; try done. by injection H as -> -> _ _. Qed.

Lemma goods_same w w' S q e : (∀ x, x ∈ S → idata <$> items w' !! x.2 = idata <$> items w !! x.2) → goods w' S q e = goods w S q e.
Proof. intros H. apply sum_over_ext. intros x Hx. by rewrite (count_of_same w w') by auto. Qed.

(** ** Taking the goods out *)

Record removed (w w' : World) (S : list (Z * Z)) : Prop := {
  rm_inv : inv_ok E w';
  rm_idata : ∀ x, idata <$> items w' !! x = idata <$> items w !! x;
  rm_stock : ∀ q e, stock E w' q e = stock E w q e - goods w S q e;
  rm_stands : ∀ p x, x ∉ S.*2 → stands w p x → stands w' p x;
  rm_loose : ∀ x, loose E w x ∨ x ∈ S.*2 → loose E w' x;
  rm_player : ∀ q, purse <$> players w' !! q = purse <$> players w !! q;
  rm_trades : trades w' = trades w;
  rm_counter : m_hiItemGuid w' = m_hiItemGuid w
}.

Lemma removed_nil w : inv_ok E w → removed w w [].
Proof. intros Hw. split; try done; [intros; unfold goods; cbn; lia|]. intros x [?|Hx]; [done|]. by apply not_elem_of_nil in Hx. Qed.

Lemma removed_trans w w1 w2 S1 S2 : removed w w1 S1 → removed w1 w2 S2 → removed w w2 (S1 ++ S2).
Proof.
  intros R1 R2. split.
  - apply R2.
  - intros x. rewrite (rm_idata _ _ _ R2). apply R1.
  - intros q e. rewrite (rm_stock _ _ _ R2), (rm_stock _ _ _ R1).
    rewrite (goods_same w w1 S2) by (intros; apply R1). unfold goods. rewrite sum_over_app. lia.
  - intros p x Hx Hs. rewrite fmap_app in Hx. apply not_elem_of_app in Hx as [H1 H2]. apply R2; [done|]. by apply R1.
  - intros x Hx. rewrite fmap_app, elem_of_app in Hx. apply R2. destruct Hx as [Hx|[Hx|Hx]]; [left; apply R1; auto..|by right].
  - intros q. rewrite (rm_player _ _ _ R2). apply R1.
  - rewrite (rm_trades _ _ _ R2). apply R1.
  - rewrite (rm_counter _ _ _ R2). apply R1.
Qed.

Lemma stands_equiv w w' p a : w' ≡ w → stands w p a → stands w' p a.
Proof. intros H (b & s & Hpl & Hat). exists b, s. split; [by eapply has_place_equiv|]. by rewrite (at_pos_equiv E w w'). Qed.

Lemma stands_live w p a : inv_ok E w → stands w p a → live w a.
Proof. intros Hw (b & s & Hpl & Hat). eapply at_pos_live; [done|apply Hpl|done]. Qed.

Lemma purse_equiv w w' q : w' ≡ w → purse <$> players w' !! q = purse <$> players w !! q.
Proof.
  intros H. destruct (players w !! q) as [pl|] eqn:Hq.
  - destruct (equiv_owner _ _ _ _ H Hq) as (pl' & -> & [= _ Hc Ht]). unfold purse. simpl. by rewrite Hc, Ht.
  - destruct (players w' !! q) eqn:Hq'; [|done]. symmetry in H. destruct (equiv_owner _ _ _ _ H Hq') as (? & ? & _). congruence.
Qed.

Lemma idata_equiv w w' x : w' ≡ w → idata <$> items w' !! x = idata <$> items w !! x.
Proof.
  intros H. destruct (items w !! x) as [it|] eqn:Hx.
  - destruct (equiv_item _ _ _ _ H Hx) as (it' & -> & [= _ He _ Hc _ _ Hn _ _ Hl]). simpl. unfold idata. congruence.
  - destruct (items w' !! x) eqn:Hx'; [|done]. symmetry in H. destruct (equiv_item _ _ _ _ H Hx') as (? & ? & _). congruence.
Qed.

Lemma removed_equiv w w1 w' S : w' ≡ w1 → removed w w1 S → removed w w' S.
Proof.
  intros H [H1 H2 H3 H4 H5 H6 H7 H8]. destruct (equiv_others _ _ H) as [Ht Hh]. split.
  - by eapply inv_ok_equiv.
  - intros x. by rewrite (idata_equiv w1 w').
  - intros q e. by rewrite (stock_equiv E w1 w').
  - intros p x Hx Hs. eapply stands_equiv; [done|]. by apply H4.
  - intros x Hx. eapply loose_equiv; [done|]. by apply H5.
  - intros q. by rewrite (purse_equiv w1 w').
  - congruence.
  - congruence.
Qed.

Lemma removed_take w p bag slot a : inv_ok E w → here w p → has_place E w p bag slot → at_pos E w p bag slot = Some a →
  removed w (take_out E p bag slot a w) [(p, a)].
Proof.
  intros Hw Hp Hpl Hat. destruct (take_out_ok E w p bag slot a Hw Hp Hpl Hat) as [Hw' Hl].
  destruct (taken_item E w p bag slot a Hw Hpl Hat) as (it & Ha & _). assert (0 ≤ slot) as H0 by apply Hpl. split.
  - done.
  - apply take_out_idata.
  - intros q e. rewrite (stock_taken E w p bag slot a it) by done. unfold goods, sum_over, count_of. cbn. rewrite Ha.
    destruct (q =? p); simpl; lia.
  - intros q x Hx (b & s & (Hb & Hs & Hpl') & Hat'). exists b, s. split.
    + split; [done|]. split; [done|]. destruct Hpl' as [?|(c & ci & Hc & Hci & Hlt)]; [by left|right].
      pose proof (take_out_idata E w p bag slot a c) as Hi. rewrite Hci in Hi. apply fmap_Some in Hi as (ci' & Hci' & [= _ _ _ Hn]).
      exists c, ci'. split_and!; [|done|lia]. rewrite <- Hc. apply (bag_at_written E w Hw p bag slot Hp Hpl None).
      intros y. split_and!; try done. by intros t [].
    + rewrite take_out_at by (done || apply Hs). rewrite decide_False; [done|]. intros [= -> -> ->]. apply Hx. simpl.
      apply list_elem_of_singleton. congruence.
  - intros x [[Hlx Hx]|Hx%list_elem_of_singleton]; [|by subst]. split; [by eapply live_idata; [apply take_out_idata|]|].
    intros q b s Hs. rewrite take_out_at by done. case_decide; [done|by apply Hx].
  - intros q. apply set_slot_player_rest.
  - by apply set_slot_rest.
  - by apply set_slot_rest.
Qed.

Lemma remove_item_runs w p a : inv_ok E w → here w p → stands w p a → runs w (remove_item E p (Some a)) (λ _ w', removed w w' [(p, a)]).
Proof.
  intros Hw Hp (bag & slot & Hpl & Hat). pose proof (stands_live w p a Hw ltac:(by exists bag, slot)) as Hl.
  unfold remove_item. eapply quiet_then; [by apply quiet_upd_item|]. intros ? w1 H1.
  destruct (live_equiv _ _ a H1 Hl) as [it Ha]. eapply runs_look_bind; [by apply yields_here_item|]. intros ? ->.
  destruct (yields_where E w p bag slot a Hw Hpl Hat w1 it H1 Ha) as [Hb ->].
  eapply runs_look_bind; [exact Hb|]. intros ? ->.
  eapply runs_mono; [by apply (MoveItemFromInventory_runs E w p bag slot a)|]. intros ? w2 H2. simpl in H2.
  eapply removed_equiv; [exact H2|]. by apply removed_take.
Qed.

(** The items of two lists of slots with their owners. *)
Definition opt_goods (p : Z) (o : option Z) : list (Z * Z) := match o with Some a => [(p, a)] | None => [] end.

Definition pair_goods (me trader : Z) (l : list (option Z * option Z)) : list (Z * Z) :=
  l ≫= λ ab, opt_goods me ab.1 ++ opt_goods trader ab.2.

Lemma pair_goods_cons me trader ab l :
  pair_goods me trader (ab :: l) = opt_goods me ab.1 ++ opt_goods trader ab.2 ++ pair_goods me trader l.
Proof. unfold pair_goods. rewrite bind_cons. by rewrite app_assoc. Qed.

Lemma remove_opt_runs w p o : inv_ok E w → here w p → (∀ a, o = Some a → stands w p a) →
  runs w (remove_item E p o) (λ _ w', removed w w' (opt_goods p o)).
Proof.
  intros Hw Hp Ho. destruct o as [a|]; [by apply remove_item_runs; auto|]. apply runs_ret. by apply removed_nil.
Qed.

Lemma purse_here w w' p : purse <$> players w' !! p = purse <$> players w !! p → here w p → here w' p.
Proof. intros H [pl Hp]. rewrite Hp in H. apply fmap_Some in H as (pl' & ? & _). by exists pl'. Qed.

Lemma remove_items_runs me trader l w : inv_ok E w → here w me → here w trader → NoDup (pair_goods me trader l).*2 →
  (∀ p a, (p, a) ∈ pair_goods me trader l → stands w p a) →
  runs w (remove_items E me trader l.*1 l.*2) (λ _ w', removed w w' (pair_goods me trader l)).
Proof.
  unfold remove_items. revert w. induction l as [|[o o'] l IH]; intros w Hw Hme Htr Hnd Hst; cbn [each_pair fmap list_fmap];
    [apply runs_ret; by apply removed_nil|]. rewrite pair_goods_cons in *. cbn [fst snd] in *.
  rewrite !fmap_app in Hnd. apply NoDup_app in Hnd as (_ & Hd1 & Hnd). apply NoDup_app in Hnd as (_ & Hd2 & Hnd).
  eapply runs_bind; [eapply runs_bind|].
  - apply remove_opt_runs; [done..|]. intros a ->. apply Hst. by left.
  - intros ? w1 R1. eapply runs_mono.
    + apply remove_opt_runs; [apply R1|by eapply purse_here; [apply R1|]|]. intros b ->. apply R1.
      * intros Hin. apply (Hd1 b Hin). apply elem_of_app. left. by apply list_elem_of_singleton.
      * apply Hst. apply elem_of_app. right. apply elem_of_app. left. by apply list_elem_of_singleton.
    + intros ? w2 R2. exact (removed_trans _ _ _ _ _ R1 R2).
  - intros ? w2 R2. eapply runs_mono.
    + apply IH; [apply R2|by eapply purse_here; [apply R2|]..|done|]. intros p a Hin. apply R2.
      * assert (a ∈ (pair_goods me trader l).*2) as Hin2 by (apply list_elem_of_fmap; by exists (p, a)).
        rewrite fmap_app. intros [Ha|Ha]%elem_of_app; [apply (Hd1 a Ha), elem_of_app; by right|by apply (Hd2 a Ha)].
      * apply Hst. apply elem_of_app. right. apply elem_of_app. by right.
    + intros ? w3 R3. simpl in R3. rewrite app_assoc. exact (removed_trans _ _ _ _ _ R2 R3).
Qed.

(** ** Storing *)

(** Loose items other than [G] stay as they are; gold and trades too. *)
Record moved (w w' : World) (G : list Z) (n : Z) : Prop := {
  mv_inv : inv_ok E w';
  mv_loose : ∀ x, loose E w x → x ∉ G → loose E w' x;
  mv_idata : ∀ x, loose E w x → x ∉ G → idata <$> items w' !! x = idata <$> items w !! x;
  mv_player : ∀ q, purse <$> players w' !! q = purse <$> players w !! q;
  mv_trades : trades w' = trades w;
  mv_counter : m_hiItemGuid w' ≤ m_hiItemGuid w + n
}.

Lemma moved_refl w n : inv_ok E w → 0 ≤ n → moved w w [] n.
Proof. intros Hw Hn. split; try done. lia. Qed.

Lemma moved_trans w w1 w2 G1 G2 n1 n2 : moved w w1 G1 n1 → moved w1 w2 G2 n2 → moved w w2 (G1 ++ G2) (n1 + n2).
Proof.
  intros M1 M2. split.
  - apply M2.
  - intros x Hl [H1 H2]%not_elem_of_app. apply M2; [by apply M1|done].
  - intros x Hl [H1 H2]%not_elem_of_app. rewrite (mv_idata _ _ _ _ M2); [by apply M1|by apply M1|done].
  - intros q. rewrite (mv_player _ _ _ _ M2). apply M1.
  - rewrite (mv_trades _ _ _ _ M2). apply M1.
  - pose proof (mv_counter _ _ _ _ M1). pose proof (mv_counter _ _ _ _ M2). lia.
Qed.

Lemma moved_weaken w w' G G' n n' : moved w w' G n → (∀ x, x ∈ G → x ∈ G') → n ≤ n' → moved w w' G' n'.
Proof. intros [] HG Hn. split; auto with lia. Qed.

Lemma moved_equiv w w1 w' G n : w' ≡ w1 → moved w w1 G n → moved w w' G n.
Proof.
  intros H [H1 H2 H3 H4 H5 H6]. destruct (equiv_others _ _ H) as [Ht Hh]. split.
  - by eapply inv_ok_equiv.
  - intros x Hl Hx. eapply loose_equiv; [done|]. by apply H2.
  - intros x Hl Hx. rewrite (idata_equiv w1 w') by done. by apply H3.
  - intros q. by rewrite (purse_equiv w1 w').
  - congruence.
  - by rewrite Hh.
Qed.

Lemma opt_elem (a : Z) (o : option Z) p : a ∈ (opt_goods p o).*2 ↔ o = Some a.
Proof. destruct o; simpl; [rewrite list_elem_of_singleton; split; congruence|split; [intros []%not_elem_of_nil|done]]. Qed.

(** The greatest number of guids one item can use up. *)
Definition PLACES : Z := 534.

Lemma filled_moved w w' p k dest a n : loose E w a → m_hiItemGuid w' ≤ m_hiItemGuid w + n → filled E w w' p k dest (λ x, x = a) → moved w w' [a] n.
Proof.
  intros Ha Hn F. assert (∀ x, x ∉ [a] → x ≠ a) as Hne by (intros x Hx ->; apply Hx; by left). split.
  - apply F.
  - intros x Hl Hx. apply F; auto.
  - intros x [Hl Hp] Hx. apply F; [done|by apply Hne|]. intros b s Hb _. apply Hp, Hb.
  - apply F.
  - apply F.
  - done.
Qed.

(** Someone is handed an item: the inventories of the others stay. *)
Record handed (w w' : World) (to : Z) (o : option Z) : Prop := {
  hd_moved : moved w w' (opt_goods to o).*2 PLACES;
  hd_storable : ∀ q m dest, q ≠ to → storable E w q m dest → storable E w' q m dest;
  hd_shelf : ∀ q b s, q ≠ to → byte_pos b s → shelf E w' q b s = shelf E w q b s
}.

Lemma filled_handed w w' to k dest a : inv_ok E w → loose E w a → Forall (spot E w to) dest → m_hiItemGuid w' ≤ m_hiItemGuid w + PLACES →
  filled E w w' to k dest (λ x, x = a) → handed w w' to (Some a).
Proof.
  intros Hw Ha Hd Hn F. assert (∀ x, x = a → loose E w x) as Hg by (by intros x ->). split.
  - by eapply filled_moved.
  - intros q m d Hq Hst. by eapply (filled_storable E w w' to); [..|exact Hst].
  - intros q b s Hq Hb. by eapply (filled_shelf E w w' to).
Qed.

Lemma handed_none w to : inv_ok E w → handed w w to None.
Proof. intros Hw. split; [by apply moved_refl|done|done]. Qed.

Lemma stock_shelf w w' q e : (∀ b s, byte_pos b s → shelf E w' q b s = shelf E w q b s) → stock E w' q e = stock E w q e.
Proof. intros H. apply sum_over_ext. intros x (b & s & -> & Hb)%places_byte. rewrite !shelf_at_pos by done. by rewrite H. Qed.

(** [dest] takes the whole item [a] of [to]: it was planned for it. *)
Definition ready_for (w : World) (to : Z) (dest : list (Z * Z)) (a : Z) : Prop :=
  ∃ it t, items w !! a = Some it ∧ good E it t ∧ loose E w a ∧ plan_ok E w to t (Some a) dest ∧ planned dest = Count it.

Lemma ready_nonempty w to dest a : ready_for w to dest a → dest ≠ [].
Proof. intros (it & t & _ & Ht & _ & _ & Hpl) ->. pose proof (good_count E it t Ht). unfold planned in Hpl. simpl in Hpl. lia. Qed.

Lemma give_runs w from to dest a it t : inv_ok E w → here w to → items w !! a = Some it → good E it t → loose E w a →
  dest ≠ [] → storable E w to (GetMaxStackSize t) dest → m_hiItemGuid w + PLACES < 2 ^ 32 →
  runs w (give E from to dest (Some a)) (λ _ w', filled E w w' to (Entry it, GetMaxStackSize t) dest (λ x, x = a) ∧
    m_hiItemGuid w' ≤ m_hiItemGuid w + PLACES).
Proof.
  intros Hw Hto Ha Ht Hl Hd Hst Hhi. pose proof (storable_length E w to _ dest Hw Hst) as Hlen. unfold PLACES in *.
  unfold give. eapply runs_look_bind; [by apply yields_here_item|]. intros ? ->.
  eapply quiet_then; [case_match; [apply quiet_emit|apply quiet_ret]|]. intros ? w1 H1.
  eapply quiet_then; [case_match; [apply quiet_upd_item; [by apply (live_equiv _ _ a H1); exists it|done]|apply quiet_ret]|].
  intros ? w2 H2. rewrite H1 in H2. destruct (equiv_item _ _ _ _ H2 Ha) as (it2 & Ha2 & Hc2).
  assert (Entry it2 = Entry it) as He2 by (by injection Hc2). destruct (equiv_others _ _ H2) as [_ Hhi2].
  assert (filled E w w2 to (0, 0) [] (λ _, False)) as F0.
  { eapply filled_equiv; [exact H2|]. apply filled_keep; [by split_and!|done..]. }
  eapply runs_mono; [eapply (MoveItemToInventory_runs E w2 to t a it2); [done| | |done| | | |]|].
  - by eapply inv_ok_equiv.
  - by eapply here_equiv.
  - by eapply good_core.
  - by eapply loose_equiv.
  - eapply (filled_storable E w w2 to); [done|exact F0|by intros ? []|by apply Forall_nil|by intros _ y _; apply not_elem_of_nil|done].
  - lia.
  - intros ? w3 (F & Hhi3). rewrite He2 in F. split; [by eapply filled_before|lia].
Qed.

(** A planned item goes to the one it was planned for. *)
Lemma give_ready w from to dest o : inv_ok E w → here w to → (∀ a, o = Some a → ready_for w to dest a) → m_hiItemGuid w + PLACES < 2 ^ 32 →
  runs w (give E from to dest o) (λ _ w', handed w w' to o ∧ ∀ e, stock E w' to e = stock E w to e + goods w (opt_goods to o) to e).
Proof.
  intros Hw Hto Ho Hhi. destruct o as [a|].
  - pose proof (ready_nonempty w to dest a (Ho a eq_refl)) as Hne. destruct (Ho a eq_refl) as (it & t & Ha & Ht & Hl & Hpl & Hn).
    pose proof (plan_storable E w to t a it dest Hw Hl Ht Hpl) as Hst.
    eapply runs_mono; [by eapply give_runs|]. intros ? w' (F & Hhi'). split; [eapply filled_handed; [done..|apply Hst|done|done]|].
    intros e. rewrite (stock_filled E w w' to _ dest _ Hw F); [|by intros ? ->|apply Hpl|apply Hst].
    rewrite (added_planned E w to t a it) by done. unfold goods, sum_over, count_of. simpl. rewrite Z.eqb_refl, Ha, Hn. lia.
  - apply runs_ret. split; [by apply handed_none|]. intros e. unfold goods. cbn. lia.
Qed.

(** A second item, planned before the first was handed to someone else. *)
Lemma give_second w w1 from p q dest o o' : inv_ok E w → handed w w1 q o' → p ≠ q → (∀ a, o = Some a → ready_for w p dest a ∧ o' ≠ Some a) →
  here w1 p → m_hiItemGuid w1 + PLACES < 2 ^ 32 →
  runs w1 (give E from p dest o) (λ _ w', handed w1 w' p o ∧ ∀ e, stock E w' p e = stock E w1 p e + goods w (opt_goods p o) p e).
Proof.
  intros Hw [Hm Hst Hsh] Hpq Ho Hp Hhi. pose proof (mv_inv _ _ _ _ Hm) as Hw1. destruct o as [b|].
  - destruct (Ho b eq_refl) as [Hr Hne]. pose proof (ready_nonempty w p dest b Hr) as Hd. destruct Hr as (it & t & Hb & Ht & Hl & Hpl & Hn).
    assert (b ∉ (opt_goods q o').*2) as Hnb by (by rewrite opt_elem).
    pose proof (mv_idata _ _ _ _ Hm b Hl Hnb) as Hi. rewrite Hb in Hi. apply fmap_Some in Hi as (it1 & Hb1 & [= He1 Hc1 _ _]).
    destruct (ok_item E w1 Hw1 b it1 Hb1) as [t1 Ht1]. assert (t1 = t) as -> by (by apply (same_template E it it1)).
    pose proof (Hst p (GetMaxStackSize t) dest Hpq (plan_storable E w p t b it dest Hw Hl Ht Hpl)) as Hst1.
    pose proof (mv_loose _ _ _ _ Hm b Hl Hnb) as Hl1.
    eapply runs_mono; [by eapply give_runs|]. intros ? w' (F & Hhi'). split; [eapply filled_handed; [done..|apply Hst1|done|done]|].
    intros e. rewrite (stock_filled E w1 w' p _ dest _ Hw1 F); [|by intros ? ->|apply Hpl|apply Hst1]. rewrite <- He1.
    rewrite (sum_over_ext _ (λ x, added E w p (Entry it, GetMaxStackSize t) e x.1 x.2)).
    + rewrite (added_planned E w p t b it) by done. unfold goods, sum_over, count_of. simpl. rewrite Z.eqb_refl, Hb, Hn. lia.
    + intros y Hy. destruct Hst1 as (_ & Hf & _). rewrite Forall_forall in Hf. destruct (Hf y Hy) as (bag & slot & -> & _ & Hplace & _).
      assert (byte_pos bag slot) as Hbs by (split; apply Hplace). unfold added. rewrite !shelf_at_pos by done. by rewrite Hsh.
  - apply runs_ret. split; [by apply handed_none|]. intros e. unfold goods. cbn. lia.
Qed.

(** ** May it be stored? *)

Definition spots (w : World) (p : Z) (dest : list (Z * Z)) : Prop := NoDup dest.*1 ∧ Forall (spot E w p) dest.

Lemma fits_spots w p t a it d : inv_ok E w → loose E w a → good E it t → Forall (fits E w p t (Some a)) d → Forall (spot E w p) d.
Proof.
  intros Hw Hl Ht Hf. eapply Forall_impl; [exact Hf|]. intros x Hx. eapply (fits_spot E w p t a); [done..|].
  exists it. split; [by rewrite (good_id E it t Ht)|done].
Qed.

Definition took (w : World) (p : Z) (o : option Z) (r : bool * list (Z * Z)) : Prop :=
  spots w p r.2 ∧ match o with Some a => r.1 = true → ready_for w p r.2 a | None => r.1 = true end.

Lemma yields_can_take w p o : inv_ok E w → here w p → (∀ a, o = Some a → loose E w a) → yields w (can_take E p o) (took w p o).
Proof.
  intros Hw Hp Ho. destruct o as [a|]; simpl.
  - pose proof (Ho a eq_refl) as Hl. destruct (proj1 Hl) as [it Ha]. destruct (ok_item E w Hw a it Ha) as [t Ht].
    eapply yields_bind; [eapply (yields_CanStoreItem E w p NULL_BAG NULL_SLOT [] a it t); try done; slot_lia|].
    intros sr [(total & c & d & Hd & Hf & Hnd & _) Hok]. apply yields_ret. simpl in Hd, Hnd. subst.
    split; [split; [by apply Hnd, NoDup_nil_2|by eapply fits_spots]|]. simpl. intros He%Z.eqb_eq. specialize (Hok He).
    destruct (growing_ok E w p t (Some a) (Count it) (sr_dest sr) Hok) as [Hpl Hn]. by exists it, t.
  - apply yields_ret. split; [|done]. split; [apply NoDup_nil_2|by apply Forall_nil].
Qed.

(** A plan made after the positions [dst]. *)
Lemma spots_storable w p t a it dst d : inv_ok E w → loose E w a → good E it t → spots w p dst → Forall (fits E w p t (Some a)) d →
  NoDup (dst ++ d).*1 → d ≠ [] → storable E w p (GetMaxStackSize t) (dst ++ d).
Proof.
  intros Hw Hl Ht [_ Hsp] Hf Hnd Hd. split_and!; [done|apply Forall_app; split; [done|by eapply fits_spots]|].
  intros x Hx. rewrite last_app_Some in Hx. destruct Hx as [Hx|[Hx _]]; [|by apply last_None in Hx].
  apply last_Some_elem_of in Hx. rewrite Forall_forall in Hf. eapply (fits_spot E w p t a); [done..|by apply Hf|].
  exists it. split; [by rewrite (good_id E it t Ht)|done].
Qed.

(** Back to the owner, after the positions [dst]. *)
Lemma give_back_runs w p dst o : inv_ok E w → here w p → (∀ a, o = Some a → loose E w a) → spots w p dst →
  m_hiItemGuid w + PLACES < 2 ^ 32 → runs w (give_back E p dst o) (λ _ w', handed w w' p o).
Proof.
  intros Hw Hp Ho Hsp Hhi. pose proof Hsp as [Hnd _]. destruct o as [a|]; [|apply runs_ret; by apply handed_none]. simpl.
  pose proof (Ho a eq_refl) as Hl. destruct (proj1 Hl) as [it Ha]. destruct (ok_item E w Hw a it Ha) as [t Ht].
  eapply runs_look_bind; [eapply (yields_CanStoreItem E w p NULL_BAG NULL_SLOT dst a it t); try done; slot_lia|].
  intros sr [_ Hok]. destruct (Z.eqb_spec (sr_res sr) EQUIP_ERR_OK) as [He|].
  - destruct (Hok He) as (d & Hd & Hf & Hnd' & _ & Hn). simpl in Hd, Hnd', Hn. pose proof (good_count E it t Ht) as Hc.
    assert (d ≠ []) as Hdne by (intros ->; unfold planned in Hn; simpl in Hn; lia).
    assert (storable E w p (GetMaxStackSize t) (sr_dest sr)) as Hst by (rewrite Hd in *; eapply (spots_storable w p t a it); auto).
    pose proof (storable_length E w p _ _ Hw Hst) as Hlen. unfold PLACES in *.
    eapply runs_mono; [eapply (MoveItemToInventory_runs E w p t a it); try done|].
    + rewrite Hd. intros [_ ?]%app_nil. done.
    + lia.
    + intros ? w' (F & Hhi'). eapply filled_handed; [done..|apply Hst| |exact F]. unfold PLACES. lia.
  - apply runs_ret. split; [|done|done]. eapply moved_weaken; [by apply (moved_refl w PLACES)|by intros x ?%not_elem_of_nil|done].
Qed.

(** ** A pair of items *)

Definition answer {A} (r : outcome fault A) (d : A) : A := match r with Ret x => x | Throw _ => d end.

(** Both items of the pair can be stored. *)
Definition fits_pair (w : World) (me trader : Z) (a b : option Z) : bool :=
  (answer (can_take E trader a w).1 (false, [])).1 && (answer (can_take E me b w).1 (false, [])).1.

Section Pair.
Context (w : World) (me trader : Z) (a b : option Z).
Context (Hw : inv_ok E w) (Hme : here w me) (Htr : here w trader) (Hne : me ≠ trader).
Context (Ha : ∀ x, a = Some x → loose E w x) (Hb : ∀ x, b = Some x → loose E w x) (Hab : ∀ x, a = Some x → b ≠ Some x).
Context (Hhi : m_hiItemGuid w + 2 * PLACES < 2 ^ 32).

Lemma handed_here w1 w' q o p : handed w1 w' q o → here w1 p → here w' p.
Proof. intros [Hm _ _]. apply purse_here. apply Hm. Qed.

Lemma handed_room w' q o : handed w w' q o → m_hiItemGuid w' + PLACES < 2 ^ 32.
Proof. intros [Hm _ _]. pose proof (mv_counter _ _ _ _ Hm). unfold PLACES in *. lia. Qed.

(** Crosswise: each gets what the other gave. *)
Lemma exchange_runs rt rm : took w trader a rt → took w me b rm → rt.1 = true → rm.1 = true →
  runs w (give E me trader rt.2 a;; give E trader me rm.2 b) (λ _ w',
    moved w w' ((opt_goods trader a).*2 ++ (opt_goods me b).*2) (2 * PLACES) ∧
    ∀ q e, stock E w' q e = stock E w q e + goods w (opt_goods trader a ++ opt_goods me b) q e).
Proof.
  intros [_ Ht] [_ Hm] Et Em. eapply runs_bind.
  - apply give_ready; [done|done|intros x ->; by apply Ht|unfold PLACES in *; lia].
  - intros ? w1 [H1 S1]. eapply runs_mono.
    + eapply (give_second w w1 trader me trader rm.2 b a); [done|exact H1|done| |by eapply handed_here|by eapply handed_room].
      intros y Hx. split; [subst b; by apply Hm|]. intros ?. by eapply Hab.
    + intros ? w2 [H2 S2]. split.
      * replace (2 * PLACES) with (PLACES + PLACES) by lia. eapply moved_trans; [apply H1|apply H2].
      * intros q e. unfold goods. rewrite sum_over_app. fold (goods w (opt_goods trader a) q e) (goods w (opt_goods me b) q e).
        assert (∀ p o r, r ≠ p → goods w (opt_goods p o) r e = 0) as Hz.
        { intros p o r Hr. unfold goods. destruct o; cbn; [|done]. by rewrite (proj2 (Z.eqb_neq _ _) Hr). }
        destruct (decide (q = me)) as [->|Hqm].
        -- rewrite S2, (Hz trader a me Hne). rewrite (stock_shelf w w1); [lia|]. intros. by apply H1.
        -- rewrite (Hz me b q Hqm), (stock_shelf w1 w2) by (intros; by apply H2).
           destruct (decide (q = trader)) as [->|Hqt]; [rewrite S1; lia|]. rewrite (Hz trader a q Hqt), (stock_shelf w w1); [lia|].
           intros. by apply H1.
Qed.

(** The rest of the plan for the other is still made of places. *)
Lemma handed_spots w' q o p d : handed w w' q o → p ≠ q → spots w p d → spots w' p d.
Proof.
  intros [_ Hst _] Hpq [Hnd Hf]. destruct (decide (d = [])) as [->|Hd]; [split; [done|by apply Forall_nil]|].
  destruct (last d) as [x|] eqn:Hx; [|by apply last_None in Hx].
  assert (storable E w p x.2 d) as Hs.
  { split_and!; [done..|]. intros y Hy. assert (y = x) as -> by congruence. by intros ? ? _ _ _. }
  destruct (Hst p x.2 d Hpq Hs) as (? & ? & _). by split.
Qed.

Lemma roll_back_runs rt rm : took w trader a rt → took w me b rm →
  runs w (give_back E me rm.2 a;; give_back E trader rt.2 b) (λ _ w',
    moved w w' ((opt_goods trader a).*2 ++ (opt_goods me b).*2) (2 * PLACES)).
Proof.
  intros [Ht _] [Hm _]. eapply runs_bind; [apply give_back_runs; [done..|unfold PLACES in *; lia]|].
  intros ? w1 H1. simpl in H1. eapply runs_mono.
  - apply give_back_runs; [apply H1|by eapply handed_here| |eapply handed_spots; [exact H1|done|exact Ht]|by eapply handed_room].
    intros y Hx. apply H1; [by apply Hb|]. rewrite opt_elem. intros ?. by eapply Hab.
  - intros ? w2 H2. replace (2 * PLACES) with (PLACES + PLACES) by lia.
    eapply moved_weaken; [eapply moved_trans; [apply H1|apply H2]| |done].
    intros y. rewrite !elem_of_app, !opt_elem. done.
Qed.

Lemma move_pair_runs : runs w (move_pair E me trader a b) (λ _ w',
  moved w w' ((opt_goods trader a).*2 ++ (opt_goods me b).*2) (2 * PLACES) ∧
  (fits_pair w me trader a b = true →
   ∀ q e, stock E w' q e = stock E w q e + goods w (opt_goods trader a ++ opt_goods me b) q e)).
Proof.
  destruct (yields_can_take w trader a Hw Htr Ha) as (rt & Et & Ht), (yields_can_take w me b Hw Hme Hb) as (rm & Em & Hm).
  assert (fits_pair w me trader a b = rt.1 && rm.1) as -> by (unfold fits_pair; by rewrite Et, Em).
  unfold move_pair. eapply runs_look_bind; [by apply (yields_eq _ _ rt (λ x, x = rt))|]. intros ? ->. destruct rt as [bt dt].
  eapply runs_look_bind; [by apply (yields_eq _ _ rm (λ x, x = rm))|]. intros ? ->. destruct rm as [bm dm]. simpl.
  destruct (bt && bm) eqn:Hboth.
  - apply andb_true_iff in Hboth as [-> ->]. eapply runs_mono; [by apply (exchange_runs (true, dt) (true, dm))|]. intros ? w' [? ?]. done.
  - eapply runs_mono; [by apply (roll_back_runs (bt, dt) (bm, dm))|]. intros ? w' ?. done.
Qed.

End Pair.

(** ** All pairs *)

(** Every pair can be stored, each after the ones before it. *)
Fixpoint all_fit (w : World) (me trader : Z) (l : list (option Z * option Z)) : bool :=
  match l with
  | [] => true
  | (a, b) :: l => fits_pair w me trader a b && all_fit (move_pair E me trader a b w).2 me trader l
  end.

Lemma moved_goods w w' G n S q e : moved w w' G n → (∀ x, x ∈ S → loose E w x.2 ∧ x.2 ∉ G) → goods w' S q e = goods w S q e.
Proof. intros M HS. apply goods_same. intros x Hx. apply M; by apply HS. Qed.

Lemma goods_app w S1 S2 q e : goods w (S1 ++ S2) q e = goods w S1 q e + goods w S2 q e.
Proof. unfold goods. apply sum_over_app. Qed.

Lemma each_pair_runs me trader l w : inv_ok E w → here w me → here w trader → me ≠ trader →
  (∀ x, x ∈ (pair_goods trader me l).*2 → loose E w x) → NoDup (pair_goods trader me l).*2 →
  m_hiItemGuid w + 2 * PLACES * Z.of_nat (length l) < 2 ^ 32 →
  runs w (each_pair (move_pair E me trader) l.*1 l.*2) (λ _ w',
    moved w w' (pair_goods trader me l).*2 (2 * PLACES * Z.of_nat (length l)) ∧
    (all_fit w me trader l = true → ∀ q e, stock E w' q e = stock E w q e + goods w (pair_goods trader me l) q e)).
Proof.
  revert w. induction l as [|[a b] l IH]; intros w Hw Hme Htr Hne Hl Hnd Hhi.
  - apply runs_ret. split; [by apply moved_refl|]. intros _ q e. unfold goods. cbn. lia.
  - cbn [each_pair fmap list_fmap all_fit fst snd]. rewrite pair_goods_cons in *. cbn [fst snd] in *.
    rewrite !fmap_app in Hl, Hnd |- *. setoid_rewrite elem_of_app in Hl. setoid_rewrite elem_of_app in Hl.
    apply NoDup_app in Hnd as (_ & Hd1 & Hnd). apply NoDup_app in Hnd as (_ & Hd2 & Hnd).
    setoid_rewrite not_elem_of_app in Hd1. change (length ((a, b) :: l)) with (S (length l)) in *. unfold PLACES in *.
    destruct (move_pair_runs w me trader a b) as ([] & w1 & Erun & M & Hfit).
    + done.
    + done.
    + done.
    + done.
    + intros x Hx. apply Hl. left. by apply opt_elem.
    + intros x Hx. apply Hl. right. left. by apply opt_elem.
    + intros x Hx Hx2. destruct (Hd1 x) as [H1 _]; [by apply opt_elem|]. apply H1. by apply opt_elem.
    + unfold PLACES. lia.
    + unfold PLACES in *.
      assert (∀ x, x ∈ (pair_goods trader me l).*2 → x ∉ (opt_goods trader a).*2 ++ (opt_goods me b).*2) as Hnot.
      { intros x Hx [H1|H1]%elem_of_app; [by destruct (Hd1 x H1)|by apply (Hd2 x H1)]. }
      destruct (IH w1) as ([] & w2 & Erun2 & M2 & Hfit2).
      * apply M.
      * eapply purse_here; [apply M|done].
      * eapply purse_here; [apply M|done].
      * done.
      * intros x Hx. apply M; [apply Hl; auto|by apply Hnot].
      * done.
      * pose proof (mv_counter _ _ _ _ M). lia.
      * exists tt, w2. split; [rewrite (bind_ret_run _ _ _ _ _ Erun); exact Erun2|]. split.
        -- rewrite app_assoc. eapply moved_weaken; [eapply moved_trans; [exact M|exact M2]|done|lia].
        -- rewrite Erun. intros [Hf1 Hf2]%andb_true_iff q e. rewrite (Hfit2 Hf2), (Hfit Hf1), (moved_goods _ _ _ _ _ _ _ M).
           ++ rewrite !goods_app. lia.
           ++ intros x Hx. assert (x.2 ∈ (pair_goods trader me l).*2) as Hx2 by (apply list_elem_of_fmap; by exists x).
              split; [apply Hl; auto|by apply Hnot].
Qed.

End Moves.
