(* ===== verification/TradeRun.v ===== *)
(** * TradeRun: no trade request faults or breaks the invariant

    Gold changes hands, trades are opened, changed, completed and closed. *)

From Stdlib Require Import ZArith Lia.
From S2P Require Import Prelude ByteBuffer ByteBufferFacts Packets Guid ItemData Inventory InventoryStore Trade.
From S2P Require Import ItemFacts ItemRun PlanFacts StoreFacts StoreRun StoreSpec ItemMoves Stock ItemReads TradeInv TradeMoves.
Local Open Scope Z_scope.

Section Run.
Context (E : IEnv).

(** ** Gold *)

Definition paid (p c : Z) (w : World) : World := with_players (alter (with_Coinage c) p (players w)) w.

Lemma paid_equiv w w' p c : w' ≡ w → paid p c w' ≡ paid p c w.
Proof. intros H. apply alter_players_equiv; [done|]. core_eq. Qed.

Lemma paid_paid w p c c' : paid p c' (paid p c w) ≡ paid p c' w.
Proof.
  unfold equiv, item_world_equiv, wcore, paid. simpl. f_equal. f_equal. f_equal. apply map_eq. intros q. rewrite !lookup_fmap.
  destruct (decide (p = q)) as [<-|]; [|by rewrite !lookup_alter_ne]. rewrite !lookup_alter_eq. by destruct (players w !! p).
Qed.

(** What [ModifyMoney] leaves of [m]. *)
Definition settle (m d : Z) : Z := if d <? 0 then Z.max 0 (m + d) else Z.min MAX_MONEY_AMOUNT (m + d).

Lemma settle_range m d : 0 ≤ m ≤ MAX_MONEY_AMOUNT → 0 ≤ settle m d ≤ MAX_MONEY_AMOUNT.
Proof. unfold settle, MAX_MONEY_AMOUNT. destruct (Z.ltb_spec d 0); lia. Qed.

Lemma ModifyMoney_runs w p pl d : players w !! p = Some pl → 0 ≤ Coinage pl ≤ MAX_MONEY_AMOUNT → - MAX_MONEY_AMOUNT ≤ d ≤ MAX_MONEY_AMOUNT →
  runs w (ModifyMoney p d) (λ _ w', w' ≡ paid p (settle (Coinage pl) d) w).
Proof.
  intros Hp Hc Hd. unfold MAX_MONEY_AMOUNT in *.
  assert (∀ w1 c, w1 ≡ w → runs w1 (SetMoney p c) (λ _ w', w' ≡ paid p c w)) as Hset.
  { intros w1 c H1. eapply runs_bind.
    - apply (runs_upd_player w1 p _ (λ _ w', w' ≡ paid p c w)); [eapply here_equiv; [done|by exists pl]|by apply (paid_equiv w w1)].
    - intros ? w2 H2. eapply runs_mono; [apply quiet_emit|]. intros ? w3 H3. simpl in *. by rewrite H3. }
  unfold ModifyMoney. eapply quiet_then; [apply quiet_emit|]. intros ? w1 H1.
  destruct (equiv_owner _ _ _ _ H1 Hp) as (pl1 & Hp1 & Hcore). assert (Coinage pl1 = Coinage pl) as Ec by (by injection Hcore).
  eapply runs_look_bind; [by apply yields_pl|]. intros ? ->. rewrite Ec. unfold settle, MAX_MONEY_AMOUNT.
  destruct (Z.ltb_spec d 0).
  - rewrite (uwrap_small 32 (- d)) by (unfold in_u; pow_consts; lia).
    destruct (Z.ltb_spec (- d) (Coinage pl)).
    + rewrite uwrap_small by (unfold in_u; pow_consts; lia). rewrite Z.max_r by lia. by apply Hset.
    + rewrite Z.max_l by lia. by apply Hset.
  - rewrite (uwrap_small 32 (0x7FFFFFFE - d)) by (unfold in_u; pow_consts; lia).
    destruct (Z.ltb_spec (Coinage pl) (0x7FFFFFFE - d)).
    + rewrite uwrap_small by (unfold in_u; pow_consts; lia). rewrite Z.min_r by lia. by apply Hset.
    + rewrite Z.min_l by lia. eapply quiet_then; [case_match; [apply quiet_emit|apply quiet_ret]|]. intros ? w2 H2. rewrite H1 in H2. by apply Hset.
Qed.

(** Loses [out], then gains [gain], no more than the cap. *)
Definition coins_after (m out gain : Z) : Z := Z.min MAX_MONEY_AMOUNT (m - out + gain).

Lemma two_payments w p pl out gain : players w !! p = Some pl → 0 ≤ Coinage pl ≤ MAX_MONEY_AMOUNT → 0 ≤ out ≤ Coinage pl → 0 ≤ gain ≤ MAX_MONEY_AMOUNT →
  runs w (m ← negative out; ModifyMoney p m;; ModifyMoney p (swrap 32 gain)) (λ _ w', w' ≡ paid p (coins_after (Coinage pl) out gain) w).
Proof.
  intros Hp Hc Ho Hg. unfold MAX_MONEY_AMOUNT in *.
  assert (∀ z, 0 ≤ z ≤ 0x7FFFFFFE → swrap 32 z = z) as Hs by (intros z Hz; apply swrap_small; unfold in_s; simpl; lia).
  eapply runs_look_bind with (P := λ m, m = - out).
  { unfold negative, int32. rewrite Hs by lia. rewrite (proj2 (Z.leb_le _ _)), (proj2 (Z.ltb_lt _ _)) by (pow_consts; lia). by apply yields_ret. }
  intros ? ->. eapply runs_bind; [eapply ModifyMoney_runs; [done|unfold MAX_MONEY_AMOUNT; lia..]|].
  intros ? w1 H1. simpl in H1. set (c1 := settle (Coinage pl) (- out)) in *.
  assert (players (paid p c1 w) !! p = Some (with_Coinage c1 pl)) as Hp1 by (simpl; by rewrite lookup_alter_eq, Hp).
  destruct (equiv_owner _ _ _ _ H1 Hp1) as (pl1 & Hpl1 & Hcore). assert (Coinage pl1 = c1) as Ec by (by injection Hcore).
  assert (c1 = Coinage pl - out) as Ec1 by (unfold c1, settle, MAX_MONEY_AMOUNT; destruct (Z.ltb_spec (- out) 0); lia).
  rewrite Hs by lia. eapply runs_mono; [eapply ModifyMoney_runs; [exact Hpl1|unfold MAX_MONEY_AMOUNT; lia..]|].
  intros ? w2 H2. simpl in H2. rewrite H2, (paid_equiv _ w1 p _ H1), paid_paid. rewrite Ec, Ec1.
  unfold settle, coins_after. rewrite (proj2 (Z.ltb_ge gain 0)) by lia. done.
Qed.

Lemma runs_group3 {A B C} w (m : iw A) (f : A → iw B) (g : A → iw C) (h : iw unit) (Q : unit → World → Prop) :
  runs w ((x ← m; f x;; g x);; h) Q → runs w (x ← m; f x;; g x;; h) Q.
Proof.
  intros (x & w' & H & HQ). exists x, w'. split; [|done]. rewrite <- H. unfold mbind, prog_bind.
  destruct (m w) as [[y|] w1]; [|done]. by destruct (f y w1) as [[z|] w2].
Qed.

Lemma exchange_money_runs w me trader pl pl' my his : me ≠ trader → players w !! me = Some pl → players w !! trader = Some pl' →
  0 ≤ Coinage pl ≤ MAX_MONEY_AMOUNT → 0 ≤ Coinage pl' ≤ MAX_MONEY_AMOUNT → 0 ≤ my ≤ Coinage pl → 0 ≤ his ≤ Coinage pl' →
  runs w (exchange_money me trader my his) (λ _ w',
    w' ≡ paid trader (coins_after (Coinage pl') his my) (paid me (coins_after (Coinage pl) my his) w)).
Proof.
  intros Hne Hp Hp' Hc Hc' Hm Hh. unfold exchange_money. apply runs_group3. eapply runs_bind.
  - eapply two_payments; [done|done|lia|lia].
  - intros ? w1 H1. simpl in H1.
    assert (players (paid me (coins_after (Coinage pl) my his) w) !! trader = Some pl') as Hq by (simpl; by rewrite lookup_alter_ne).
    destruct (equiv_owner _ _ _ _ H1 Hq) as (pl1 & Hpl1 & Hcore). assert (Coinage pl1 = Coinage pl') as Ec by (by injection Hcore).
    eapply runs_mono; [apply (two_payments w1 trader pl1 his my); [done|lia..]|].
    intros ? w2 H2. simpl in H2. rewrite H2, (paid_equiv _ _ _ _ H1). by rewrite Ec.
Qed.

(** ** Worlds that are well because another is *)

(** The trades stand as long as the players keep their sides. *)
Lemma trade_ok_keep w w' : trade_ok w → trades w' = trades w →
  (∀ q, m_trade <$> players w' !! q = m_trade <$> players w !! q) →
  (∀ q pl, players w' !! q = Some pl → 0 ≤ Coinage pl ≤ MAX_MONEY_AMOUNT) → trade_ok w'.
Proof.
  intros Hw Ht Hp Hc. split; [|done].
  assert (∀ p t td q, side w p t td q → side w' p t td q) as Hs.
  { intros p t td q ((pl & Hpl & Hpt) & Htd & ?). split; [|by rewrite Ht]. specialize (Hp p). rewrite Hpl in Hp.
    apply fmap_Some in Hp as (pl' & ? & ?). exists pl'. split; congruence. }
  intros p pl' t Hp' Hpt. specialize (Hp p). rewrite Hp' in Hp. symmetry in Hp. apply fmap_Some in Hp as (pl & Hpl & Heq).
  destruct (tr_side w Hw p pl t Hpl ltac:(simpl in Heq; congruence)) as (td & q & Hside & Hne & Ho & t' & td' & Hs').
  exists td, q. split_and!; [auto|done|done|]. exists t', td'. auto.
Qed.

Lemma purse_trade_ok w w' : trade_ok w → trades w' = trades w → (∀ q, purse <$> players w' !! q = purse <$> players w !! q) → trade_ok w'.
Proof.
  intros Hw Ht Hp. apply (trade_ok_keep w); [done|done|..].
  - intros q. specialize (Hp q). destruct (players w !! q), (players w' !! q); simpl in *; try done. by injection Hp as _ ->.
  - intros q pl' Hq. specialize (Hp q). rewrite Hq in Hp. symmetry in Hp. apply fmap_Some in Hp as (pl & Hpl & [= -> _]).
    by apply (tr_coins w Hw q).
Qed.

Lemma purse_side w w' p t td q : trades w' = trades w → (∀ q, purse <$> players w' !! q = purse <$> players w !! q) → side w p t td q → side w' p t td q.
Proof.
  intros Ht Hp ((pl & Hpl & Hpt) & Htd & ?). split; [|by rewrite Ht]. specialize (Hp p). rewrite Hpl in Hp.
  apply fmap_Some in Hp as (pl' & ? & [= _ ?]). exists pl'. split; congruence.
Qed.

Lemma inv_same_items w w' : inv_ok E w → items w' = items w → (∀ q, m_items <$> players w' !! q = m_items <$> players w !! q) →
  m_hiItemGuid w' = m_hiItemGuid w → inv_ok E w'.
Proof.
  intros Hw Hi Hp Hh. apply (inv_ok_keep E w w'); [done|done|..]; rewrite ?Hi, ?Hh.
  - intros a it Ha _. by exists it.
  - intros a it Ha. by apply (ok_item E w Hw a).
  - apply (ok_counter E w Hw).
  - intros a it Ha. by apply (ok_guid E w Hw a).
  - intros. by eapply (ok_unique E w Hw).
Qed.

Lemma alter_same {A} (f : Player → Player) (c : Player → A) p (m : gmap Z Player) q : (∀ pl, c (f pl) = c pl) → c <$> alter f p m !! q = c <$> m !! q.
Proof.
  intros Hf. destruct (decide (p = q)) as [<-|]; [|by rewrite lookup_alter_ne]. rewrite lookup_alter_eq. destruct (m !! p); [|done]. simpl. by rewrite Hf.
Qed.

Lemma paid_ok w p c : server_ok E w → 0 ≤ c ≤ MAX_MONEY_AMOUNT → server_ok E (paid p c w).
Proof.
  intros [Hi Ht] Hc. split.
  - apply (inv_same_items w); [done|done| |done]. intros q. by apply alter_same.
  - apply (trade_ok_keep w); [done|done|intros q; by apply alter_same|]. intros q pl' (pl & Hq & ->)%lookup_alter_cases.
    case_decide; [done|by apply (tr_coins w Ht q)].
Qed.

(** ** A trade is closed *)

Definition closed (p q t t' : Z) (w : World) : World :=
  with_players (alter (with_m_trade None) q (alter (with_m_trade None) p (players w))) (with_trades (delete t' (delete t (trades w))) w).

Lemma closed_here w p q t t' r : here w r → here (closed p q t t' w) r.
Proof.
  intros [pl Hr]. assert ((λ _, tt) <$> players (closed p q t t' w) !! r = (λ _, tt) <$> players w !! r) as H
    by (simpl; by rewrite !alter_same).
  rewrite Hr in H. apply fmap_Some in H as (pl' & ? & _). by exists pl'.
Qed.

Lemma drop_runs w p pl t : players w !! p = Some pl → m_trade pl = Some t → open_trade w t →
  runs w (drop_trade p) (λ _ w', w' = with_players (alter (with_m_trade None) p (players w)) (with_trades (delete t (trades w)) w)).
Proof.
  intros Hp Ht [td Htd]. eapply runs_look_bind; [by apply yields_pl|]. intros ? ->. unfold delete_trade. rewrite Ht.
  eapply runs_bind with (P := λ _ w', w' = with_trades (delete t (trades w)) w).
  - eapply runs_look_bind; [by apply yields_trade|]. intros ? ->. by apply runs_modify.
  - intros ? w1 ->. apply runs_upd_player; [by exists pl|done].
Qed.

Lemma drop_both w p q t t' td td' : p ≠ q → side w p t td q → side w q t' td' p →
  runs w (drop_trade p;; drop_trade q) (λ _ w', w' = closed p q t t' w).
Proof.
  intros Hne ((pl & Hp & Ht) & Htd & Hm & _) ((pl' & Hq & Ht') & Htd' & Hm' & _).
  assert (t ≠ t') as Htt by congruence.
  eapply runs_bind; [eapply drop_runs; [done|done|by exists td]|]. intros ? w1 H1. simpl in H1. subst w1.
  eapply runs_mono; [eapply (drop_runs _ q pl' t')|].
  - simpl. by rewrite lookup_alter_ne.
  - done.
  - exists td'. simpl. by rewrite lookup_delete_ne.
  - by intros ? w2 ->.
Qed.

Lemma closed_ok w p q t t' td td' : server_ok E w → side w p t td q → side w q t' td' p → server_ok E (closed p q t t' w).
Proof.
  intros [Hi Hw] Hs Hs'. pose proof Hs as (_ & Htd & Hm & Hr). pose proof Hs' as (_ & Htd' & Hm' & Hr').
  assert (∀ r pl, players (closed p q t t' w) !! r = Some pl → ∃ pl0, players w !! r = Some pl0 ∧ Coinage pl = Coinage pl0 ∧
    m_trade pl = (if decide (r = p ∨ r = q) then None else m_trade pl0)) as Hpl.
  { intros r pl. simpl. intros (pl1 & (pl0 & H0 & ->)%lookup_alter_cases & ->)%lookup_alter_cases. exists pl0.
    destruct (decide (q = r)), (decide (p = r)); split_and!; try done; [rewrite decide_True by auto; done..|]. by rewrite decide_False by naive_solver. }
  split.
  - apply (inv_same_items w); [done|done| |done]. intros r. simpl. rewrite !alter_same by done. done.
  - split.
    + intros r pl tr Hr1 Htr. destruct (Hpl r pl Hr1) as (pl0 & Hr0 & _ & Hmt). rewrite Htr in Hmt. case_decide as Hd; [done|].
      assert (∀ x tx tdx y, side w x tx tdx y → x ≠ p → x ≠ q → side (closed p q t t' w) x tx tdx y) as Hkeep.
      { intros x tx tdx y ((plx & Hx & Hxt) & Htx & Hmx & Hrx) Hxp Hxq. split_and!; [|simpl|done|done].
        - exists plx. simpl. by rewrite !lookup_alter_ne.
        - rewrite !lookup_delete_ne by congruence. done. }
      destruct (tr_side w Hw r pl0 tr Hr0 (eq_sym Hmt)) as (tdr & s & Hside & Hne & Ho & t2 & td2 & Hs2).
      exists tdr, s. split_and!; [apply Hkeep; naive_solver|done|done|]. exists t2, td2.
      pose proof Hs2 as ((pls & Hps & Hts) & Htds & Hms & Hrs).
      apply Hkeep; [done|..]; intros ->; apply Hd.
      * right. destruct Hs as ((plp & Hpp & Htp) & _). assert (plp = pls) as -> by congruence. assert (t2 = t) as -> by congruence. congruence.
      * left. destruct Hs' as ((plp & Hpp & Htp) & _). assert (plp = pls) as -> by congruence. assert (t2 = t') as -> by congruence. congruence.
    + intros r pl Hr1. destruct (Hpl r pl Hr1) as (pl0 & Hr0 & -> & _). by apply (tr_coins w Hw r).
Qed.

(** ** Requests *)

(** The greatest number of guids a request can use up. *)
Definition HEADROOM : Z := 2 * PLACES * TRADE_SLOT_TRADED_COUNT.

Definition served (w : World) (m : iw unit) : Prop :=
  runs w m (λ _ w', server_ok E w' ∧ (∀ p, here w p → here w' p) ∧ m_hiItemGuid w' ≤ m_hiItemGuid w + HEADROOM).

Lemma near_counter w w' : near w w' → m_hiItemGuid w' = m_hiItemGuid w.
Proof. by intros [= _ _ _ ->]. Qed.

Lemma served_mild w m : server_ok E w → mild w m → served w m.
Proof.
  intros Hw H. eapply runs_mono; [exact H|]. intros ? w' Hn. simpl in Hn. split_and!; [by eapply near_ok|intros p; by apply near_here|].
  rewrite (near_counter _ _ Hn). unfold HEADROOM, PLACES. slot_lia.
Qed.

Lemma served_ret w : server_ok E w → served w (mret tt).
Proof. intros Hw. apply served_mild; [done|apply mild_ret]. Qed.

Lemma served_look_bind {A} w (m : iw A) (k : A → iw unit) (P : A → Prop) : yields w m P → (∀ x, P x → served w (k x)) → served w (m ≫= k).
Proof. apply runs_look_bind. Qed.

(** A mild end. *)
Lemma served_then w (m : iw unit) (k : unit → iw unit) (Q : World → Prop) :
  runs w m (λ _ w', Q w' ∧ server_ok E w' ∧ (∀ p, here w p → here w' p) ∧ m_hiItemGuid w' ≤ m_hiItemGuid w + HEADROOM) →
  (∀ w', Q w' → server_ok E w' → mild w' (k tt)) → served w (m ≫= k).
Proof.
  intros H1 H2. eapply runs_bind; [exact H1|]. intros [] w1 (HQ & Hok & Hh & Hc). eapply runs_mono; [by apply H2|].
  intros ? w2 Hn. simpl in Hn. split_and!; [by eapply near_ok|intros p Hp; by eapply near_here, Hh|]. by rewrite (near_counter _ _ Hn).
Qed.

Lemma served_parse {A} w (d : bb A) recv k : SafeReader d → packet_ok recv → server_ok E w →
  (∀ x rest, d recv = (Ret x, rest) → served w (k x)) → served w (parse d recv k).
Proof.
  intros Hd Hp Hw Hk. unfold parse. destruct (Hd recv (proj1 Hp)) as (_ & _ & Hb). destruct (d recv) as [[x|e] rest] eqn:He.
  - by eapply Hk.
  - simpl in Hb. destruct e; [by apply served_ret|done..].
Qed.

(** The player's own trade, if he has one. *)
Lemma served_my_trade w me (k : option Z → iw unit) : server_ok E w → here w me →
  served w (k None) → (∀ t td q, side w me t td q → served w (k (Some t))) →
  served w (pl ← player_at me; k (m_trade pl)).
Proof.
  intros Hw [pl Hp] H1 H2. eapply served_look_bind; [by apply yields_pl|]. intros ? ->.
  destruct (m_trade pl) as [t|] eqn:Ht; [|done]. destruct (tr_side w (proj2 Hw) me pl t Hp Ht) as (td & q & Hs & _). by eapply H2.
Qed.

Lemma served_reoffered w p t td q f (k : unit → iw unit) : server_ok E w → side w p t td q →
  (∀ td, m_player (f td) = m_player td ∧ m_trader (f td) = m_trader td) → offer_ok (f td) →
  (∀ w1, server_ok E w1 → side w1 p t (f td) q → (∀ a, live w a → live w1 a) → mild w1 (k tt)) → served w (upd_trade t f ≫= k).
Proof.
  intros Hw Hs Hf Ho Hk. apply (served_then _ _ _ (λ w1, w1 = reoffered t f w)).
  - apply runs_upd_trade; [by eapply side_open|]. split_and!; [done|by eapply reoffered_ok|done|]. simpl. unfold HEADROOM, PLACES. slot_lia.
  - intros ? -> Hok. apply Hk; [done| |done]. pose proof (reoffered_side w t f p t td q Hf Hs) as H. by rewrite decide_True in H.
Qed.

Section Handlers.
Context (w : World) (Hw : server_ok E w) (me : Z) (Hme : here w me).

Lemma SetTradeMoney_served t td q money : side w me t td q → in_u 32 money → served w (SetTradeMoney E t money).
Proof.
  intros Hs Hm. destruct (side_partner E w me t td q Hw Hs) as (_ & Ho & _). pose proof Hs as (_ & _ & Em & Er).
  eapply served_look_bind; [by eapply yields_td|]. intros ? ->. case_match; [by apply served_ret|].
  eapply served_reoffered; [done|exact Hs|done|by apply offer_money|]. intros w1 Hw1 Hs1 _.
  eapply mild_bind; [by eapply mild_unaccept|]. intros ? w2 H2. pose proof (near_ok E _ _ H2 Hw1) as Hw2.
  destruct (near_side _ _ _ _ _ _ H2 Hs1) as (td2 & Hs2 & _). by eapply mild_Update.
Qed.

Lemma SetItem_served t td q i o : side w me t td q → 0 ≤ i < TRADE_SLOT_COUNT →
  (∀ a, o = Some a → ∃ it, items w !! a = Some it ∧ i_guid it ∉ t_items td) → served w (SetItem E t i o).
Proof.
  intros Hs Hi Ha. destruct (side_partner E w me t td q Hw Hs) as (_ & Ho & _). pose proof Hs as (_ & _ & Em & Er). pose proof Ho as (Hl & _).
  eapply served_look_bind with (P := λ g, g = 0 ∨ g ∉ t_items td).
  { destruct o as [a|]; [|apply yields_ret; by left]. destruct (Ha a eq_refl) as (it & Hit & Hg).
    eapply yields_bind; [by apply yields_here_item|]. intros ? ->. apply yields_ret. by right. }
  intros g Hg. eapply served_look_bind; [by eapply yields_td|]. intros ? ->.
  destruct (lookup_range (t_items td) i 7 Hl) as [old Hold]; [slot_lia|].
  eapply served_look_bind; [by apply (yields_elem _ _ _ old (λ x, x = old))|]. intros ? ->. case_match; [by apply served_ret|].
  eapply served_reoffered; [done|exact Hs|done|by apply offer_item|]. intros w1 Hw1 Hs1 _.
  eapply mild_bind; [by eapply mild_unaccept|]. intros ? w2 H2. pose proof (near_ok E _ _ H2 Hw1) as Hw2.
  destruct (near_side _ _ _ _ _ _ H2 Hs1) as (td2 & Hs2 & _).
  eapply mild_bind; [by eapply mild_Update|]. intros ? w3 H3. pose proof (near_ok E _ _ H3 Hw2) as Hw3.
  destruct (near_side _ _ _ _ _ _ H3 Hs2) as (td3 & Hs3 & _).
  eapply mild_bind.
  - case_match; [|apply mild_ret].
    assert (GetTraderData td = GetTraderData td3) as -> by (unfold GetTraderData; destruct Hs3 as (_ & _ & _ & ->); by rewrite Er).
    eapply mild_look_bind; [by eapply yields_trader|]. intros ? (t' & td' & -> & Hs').
    eapply mild_look_bind; [by apply (yields_option _ _ t' (λ x, x = t'))|]. intros ? ->. by eapply mild_SetSpell.
  - intros ? w4 H4. pose proof (near_ok E _ _ H4 Hw3) as Hw4. destruct (near_side _ _ _ _ _ _ H4 Hs3) as (td4 & Hs4 & _).
    by eapply mild_SetSpell.
Qed.

Lemma SetTradeGold_served recv : packet_ok recv → served w (HandleSetTradeGoldOpcode E me recv).
Proof.
  intros Hp. apply served_parse; [apply _|done|done|]. intros gold rest Hr.
  apply (served_my_trade w me (λ o, match o with None => mret tt | Some my => SetTradeMoney E my gold end)); [done..|by apply served_ret|].
  intros t td q Hs. eapply SetTradeMoney_served; [done|]. exact (read_range recv 4 gold rest Hp ltac:(lia) Hr).
Qed.

Lemma ClearTradeItem_served recv : packet_ok recv → served w (HandleClearTradeItemOpcode E me recv).
Proof.
  intros Hp. apply served_parse; [apply _|done|done|]. intros i rest Hr.
  apply (served_my_trade w me (λ o, match o with None => mret tt | Some my => if TRADE_SLOT_COUNT <=? i then mret tt else SetItem E my i None end));
    [done..|by apply served_ret|].
  intros t td q Hs. destruct (Z.leb_spec TRADE_SLOT_COUNT i); [by apply served_ret|]. eapply SetItem_served; [done| |done].
  pose proof (byte_range recv i rest Hp Hr). lia.
Qed.

Lemma SetTradeItem_served recv : packet_ok recv → served w (HandleSetTradeItemOpcode E me recv).
Proof.
  intros Hp. apply served_parse; [apply _|done|done|]. intros [[i bag] slot] rest Hr.
  apply bind_Ret in Hr as (i' & b1 & H1 & Hr). apply bind_Ret in Hr as (bag' & b2 & H2 & Hr). apply bind_Ret in Hr as (slot' & b3 & H3 & [= -> -> -> _]).
  pose proof (byte_range recv i b1 Hp H1) as Hi. assert (packet_ok b1) as Hp1 by exact (storage_kept get_u8 recv i b1 _ Hp H1).
  assert (packet_ok b2) as Hp2 by exact (storage_kept get_u8 b1 bag b2 _ Hp1 H2). pose proof (byte_range b2 slot b3 Hp2 H3) as Hsl.
  assert (∀ s, served w (SendTradeStatus me s)) as Hstat by (intros; apply served_mild; [done|by apply mild_status]).
  eapply (served_my_trade w me (λ o, match o with None => mret tt | Some my => _ end)); [done..|by apply served_ret|].
  intros t td q Hs. destruct (Z.leb_spec TRADE_SLOT_COUNT i); [done|].
  eapply served_look_bind; [apply yields_GetItemByPos; [apply Hw|done|lia]|]. intros ? ->.
  destruct (at_pos E w me bag slot) as [a|] eqn:Hat; [|done]. assert (carried E w me a) as Hc by (exists bag, slot; split; [lia|done]).
  eapply served_look_bind with (P := λ _, True).
  { case_match; [by apply yields_ret|]. eapply yields_any, yields_CanBeTraded; [apply Hw|exact Hc]. }
  intros ok _. destruct ok; simpl; [|done]. destruct (carried_live E w (proj1 Hw) me a Hc) as [it Ha].
  eapply served_look_bind; [by apply yields_here_item|]. intros ? ->.
  eapply served_look_bind; [by eapply yields_td|]. intros ? ->. unfold HasItem. case_bool_decide as Hin; [done|].
  eapply SetItem_served; [done|lia|]. intros ? [= <-]. by exists it.
Qed.

Lemma Unaccept_served : served w (HandleUnacceptTradeOpcode me).
Proof.
  apply (served_my_trade w me (λ o, match o with None => mret tt | Some my => SetAccepted my false true end)); [done..|by apply served_ret|].
  intros t td q Hs. apply served_mild; [done|]. by eapply mild_SetAccepted.
Qed.

Lemma BeginTrade_served : served w (HandleBeginTradeOpcode me).
Proof.
  eapply (served_my_trade w me (λ o, match o with None => mret tt | Some my => _ end)); [done..|by apply served_ret|].
  intros t td q Hs. apply served_mild; [done|]. destruct (side_partner E w me t td q Hw Hs) as (_ & _ & t' & td' & Hs' & _).
  eapply mild_look_bind; [by eapply yields_td|]. intros ? ->. destruct Hs as (_ & _ & _ & ->).
  eapply mild_bind; [apply mild_status; by eapply side_here|]. intros ? w1 H1. apply mild_status. by eapply near_here.
Qed.

Lemma cast_served spell o : (∀ a, o = Some a → live w a) → served w (cast_on_trade_slot E me spell o).
Proof.
  intros Ho. eapply (served_my_trade w me (λ o, match o with None => mret tt | Some my => _ end)); [done..|by apply served_ret|].
  intros t td q Hs. eapply served_look_bind; [by eapply yields_td|]. intros ? ->. case_match; [by apply served_ret|].
  apply served_mild; [done|]. by eapply mild_SetSpell.
Qed.

Lemma mild_SendCancel w1 p : here w1 p → mild w1 (SendCancelTrade E p).
Proof.
  intros Hp. pose proof Hp as [pl Hpl]. eapply mild_look_bind; [by apply yields_pl|]. intros ? _. case_match; [apply mild_ret|by apply mild_status].
Qed.

Lemma TradeCancel_served b : served w (TradeCancel E me b).
Proof.
  eapply (served_my_trade w me (λ o, match o with None => mret tt | Some my => _ end)); [done..|by apply served_ret|].
  intros t td q Hs. destruct (side_partner E w me t td q Hw Hs) as (Hne & _ & t' & td' & Hs' & _).
  eapply served_look_bind; [by eapply yields_td|]. intros ? ->. pose proof Hs as (_ & _ & _ & ->).
  eapply mild_then; [destruct b; [by apply mild_SendCancel|apply mild_ret]|]. intros ? w1 H1.
  eapply mild_then; [apply mild_SendCancel; by eapply near_here, side_here|]. intros ? w2 H2.
  pose proof (near_trans _ _ _ H1 H2) as Hn. pose proof (near_ok E _ _ Hn Hw) as Hw2.
  destruct (near_side _ _ _ _ _ _ Hn Hs) as (td2 & Hs2 & _), (near_side _ _ _ _ _ _ Hn Hs') as (td2' & Hs2' & _).
  eapply runs_mono; [by eapply drop_both|]. intros ? w3 ->. split_and!; [by eapply closed_ok| |].
  - intros p Hp. by eapply closed_here, near_here.
  - simpl. rewrite (near_counter _ _ Hn). unfold HEADROOM, PLACES. slot_lia.
Qed.

End Handlers.

End Run.
