(* ===== verification/TradeAccept.v ===== *)
(** * TradeAccept: a trade is opened, and accepted by both

    [HandleInitiateTradeOpcode] and [HandleAcceptTradeOpcode] keep the invariant;
    [exchanged] is what a completed trade does. *)

From Stdlib Require Import ZArith Lia.
From S2P Require Import Prelude ByteBuffer ByteBufferFacts Packets Guid ItemData Inventory InventoryStore Trade.
From S2P Require Import ItemFacts ItemRun PlanFacts StoreFacts StoreRun StoreSpec ItemMoves Stock ItemReads TradeInv TradeMoves TradeRun.
Local Open Scope Z_scope.

Section Accept.
Context (E : IEnv).

(** ** A trade is opened *)

(** The memory a new [TradeData] gets holds no guid twice. *)
Definition memory_ok : Prop := ∀ w i j g, (uninitialised E w).2 !! i = Some g → (uninitialised E w).2 !! j = Some g → g ≠ 0 → i = j.

Definition fresh_offer (p q junk : Z) (stale : list Z) : TradeData :=
  mkTrade p q false false 0 0 junk (take (Z.to_nat TRADE_SLOT_COUNT) (stale ++ replicate (Z.to_nat TRADE_SLOT_COUNT) 0)).

Lemma fresh_offer_ok p q w junk : memory_ok → offer_ok (fresh_offer p q junk (uninitialised E w).2).
Proof.
  intros Hmem. unfold fresh_offer. split_and!; cbn [t_items]; [rewrite length_take, length_app, length_replicate; slot_lia|done|].
  intros i j g Hi Hj Hg. apply lookup_take_Some in Hi as [Hi _], Hj as [Hj _].
  assert (∀ n, ((uninitialised E w).2 ++ replicate (Z.to_nat TRADE_SLOT_COUNT) 0) !! n = Some g → (uninitialised E w).2 !! n = Some g) as Hn.
  { intros n [?|[_ H]]%lookup_app_Some; [done|]. apply lookup_replicate in H as [-> _]. done. }
  apply (Hmem w i j g); auto.
Qed.

Lemma new_TradeData_runs w p q : runs w (new_TradeData E p q) (λ t w', trades w !! t = None ∧
  w' = with_trades (<[t := fresh_offer p q (uninitialised E w).1 (uninitialised E w).2]> (trades w)) w).
Proof.
  unfold new_TradeData. eapply runs_look_bind; [by apply (yields_gets _ _ (λ x, x = uninitialised E w))|]. intros ? ->.
  destruct (uninitialised E w) as [junk stale].
  eapply runs_look_bind; [by apply (yields_gets _ _ (λ x, x = fresh (dom (trades w))))|]. intros ? ->.
  set (t := fresh (dom (trades w))).
  eapply runs_bind; [by apply (runs_modify _ _ (λ _ w', w' = with_trades (<[t := fresh_offer p q junk stale]> (trades w)) w))|].
  intros ? w1 ->. apply runs_ret. split; [|done]. apply not_elem_of_dom, is_fresh.
Qed.

Definition opened (p q t t' : Z) (td td' : TradeData) (w : World) : World :=
  with_players (alter (with_m_trade (Some t')) q (alter (with_m_trade (Some t)) p (players w)))
    (with_trades (<[t' := td']> (<[t := td]> (trades w))) w).

Lemma opened_side w p q pl t t' td td' : p ≠ q → players w !! p = Some pl → t ≠ t' → m_player td = p → m_trader td = q →
  side (opened p q t t' td td' w) p t td q.
Proof.
  intros Hne Hp Htt Hm Hr. split_and!; [|simpl; by rewrite lookup_insert_ne, lookup_insert_eq by done|done|done].
  exists (with_m_trade (Some t) pl). simpl. rewrite lookup_alter_ne, lookup_alter_eq, Hp by done. done.
Qed.

Lemma opened_ok w p q pl pl' t t' td td' : server_ok E w → p ≠ q → players w !! p = Some pl → players w !! q = Some pl' →
  m_trade pl = None → m_trade pl' = None → trades w !! t = None → trades w !! t' = None → t ≠ t' →
  m_player td = p → m_trader td = q → m_player td' = q → m_trader td' = p → offer_ok td → offer_ok td' →
  server_ok E (opened p q t t' td td' w).
Proof.
  intros [Hi Hw] Hne Hp Hq Hn Hn' Ht Ht' Htt Hm Hr Hm' Hr' Ho Ho'. set (w' := opened p q t t' td td' w).
  assert (side w' p t td q) as Hside by (by eapply opened_side).
  assert (side w' q t' td' p) as Hside'.
  { split_and!; [|simpl; by rewrite lookup_insert_eq|done|done]. exists (with_m_trade (Some t') pl').
    simpl. rewrite lookup_alter_eq, lookup_alter_ne, Hq by done. done. }
  assert (∀ r tr tdr s, side w r tr tdr s → side w' r tr tdr s) as Hkeep.
  { intros r tr tdr s ((plr & Hpr & Htr) & Htd & Hmr & Hrr). split_and!; [|simpl|done..].
    - exists plr. simpl. rewrite !lookup_alter_ne by congruence. done.
    - rewrite !lookup_insert_ne by congruence. done. }
  split; [apply (inv_same_items E w); [done|done|intros r; simpl; by rewrite !alter_same|done]|]. split.
  - intros r plr tr Hr1 Htr. simpl in Hr1. apply lookup_alter_cases in Hr1 as (pl1 & (pl0 & Hr0 & ->)%lookup_alter_cases & ->).
    destruct (decide (q = r)) as [<-|Hqr]; simpl in Htr.
    + injection Htr as <-. exists td', p. split_and!; [done..|by exists t, td].
    + destruct (decide (p = r)) as [<-|Hpr]; simpl in Htr; [injection Htr as <-; exists td, q; split_and!; [done..|by exists t', td']|].
      destruct (tr_side w Hw r pl0 tr Hr0 Htr) as (tdr & s & Hs & ? & ? & t2 & td2 & Hs2). exists tdr, s.
      split_and!; [auto|done|done|]. exists t2, td2. auto.
  - intros r plr Hr1. simpl in Hr1. apply lookup_alter_cases in Hr1 as (pl1 & (pl0 & Hr0 & ->)%lookup_alter_cases & ->).
    pose proof (tr_coins w Hw r pl0 Hr0). by repeat case_decide.
Qed.

Lemma opened_here w p q t t' td td' r : here w r → here (opened p q t t' td td' w) r.
Proof.
  intros [pl Hr]. assert ((λ _, tt) <$> players (opened p q t t' td td' w) !! r = (λ _, tt) <$> players w !! r) as H
    by (simpl; by rewrite !alter_same).
  rewrite Hr in H. apply fmap_Some in H as (pl' & ? & _). by exists pl'.
Qed.

(** Each side starts with what the memory held. *)
Lemma start_trade_opens w p q pl pl' : memory_ok → server_ok E w → p ≠ q → players w !! p = Some pl → players w !! q = Some pl' →
  m_trade pl = None → m_trade pl' = None → runs w (start_trade E p q) (λ _ w', ∃ t t' td',
    let td := fresh_offer p q (uninitialised E w).1 (uninitialised E w).2 in
    t ≠ t' ∧ server_ok E (opened p q t t' td td' w) ∧ near (opened p q t t' td td' w) w').
Proof.
  intros Hmem Hw Hne Hp Hq Hn Hn'. unfold start_trade.
  eapply runs_bind; [apply new_TradeData_runs|]. intros t w1 [Ht ->].
  set (td := fresh_offer p q _ _). set (w1 := with_trades _ w).
  eapply runs_bind; [apply (runs_upd_player w1 p _ (λ _ w', w' = with_players (alter (with_m_trade (Some t)) p (players w1)) w1)); [by exists pl|done]|].
  intros ? w2 ->. eapply runs_bind; [apply new_TradeData_runs|]. intros t' w3 [Ht' ->].
  set (td' := fresh_offer q p _ _). set (w3 := with_trades _ _).
  assert (t ≠ t' ∧ trades w !! t' = None) as [Htt Ht2].
  { simpl in Ht'. destruct (decide (t = t')) as [->|]; [by rewrite lookup_insert_eq in Ht'|]. by rewrite lookup_insert_ne in Ht'. }
  assert (server_ok E (opened p q t t' td td' w)) as Hok.
  { eapply (opened_ok w p q pl pl'); try done; by apply fresh_offer_ok. }
  eapply runs_bind; [apply (runs_upd_player w3 q _ (λ _ w', w' = opened p q t t' td td' w)); [|done]|].
  - unfold here. simpl. rewrite lookup_alter_ne by done. by exists pl'.
  - intros ? w4 ->. eapply runs_mono; [apply mild_send; apply opened_here; by exists pl'|]. intros ? w5 H5. simpl in H5. by exists t, t', td'.
Qed.

Lemma start_trade_runs w p q pl pl' : memory_ok → server_ok E w → p ≠ q → players w !! p = Some pl → players w !! q = Some pl' →
  m_trade pl = None → m_trade pl' = None → served E w (start_trade E p q).
Proof.
  intros. eapply runs_mono; [by eapply start_trade_opens|]. intros ? w' (t & t' & td' & _ & Hok & Hn).
  split_and!; [by eapply near_ok|intros r Hr; by eapply near_here, opened_here|].
  rewrite (near_counter _ _ Hn). simpl. unfold HEADROOM, PLACES. slot_lia.
Qed.

(** An item of the player that happens to be in the memory is offered. *)
Lemma fresh_offered w p q t t' td' junk stale i a : 0 ≤ i < TRADE_SLOT_COUNT →
  offered E (opened p q t t' (fresh_offer p q junk stale) td' w) (fresh_offer p q junk stale) i a ↔
  ∃ g, stale !! Z.to_nat i = Some g ∧ g ≠ 0 ∧ owns E w p g a.
Proof.
  intros Hi. set (w' := opened _ _ _ _ _ _ w).
  assert (∀ b s, at_pos E w' p b s = at_pos E w p b s) as Hat.
  { intros b s. apply at_pos_ext; [|done]. intros r. simpl. by rewrite !alter_same. }
  assert (∀ g, owns E w' p g a ↔ owns E w p g a) as Ho by (intros g; unfold owns, at_with; by setoid_rewrite Hat).
  unfold offered, fresh_offer. cbn [t_items m_player]. setoid_rewrite Ho. split; intros (g & Hg & Hne & ?); exists g; (split; [|done]).
  - apply lookup_take_Some in Hg as [Hg _]. apply lookup_app_Some in Hg as [?|[_ Hg]]; [done|]. by apply lookup_replicate in Hg as [-> _].
  - apply lookup_take_Some. split; [by apply lookup_app_l_Some|]. slot_lia.
Qed.

Lemma InitiateTrade_served w me recv : memory_ok → server_ok E w → here w me → packet_ok recv → served E w (HandleInitiateTradeOpcode E me recv).
Proof.
  intros Hmem Hw [pl Hme] Hp. assert (here w me) as Hh by (by exists pl).
  eapply served_look_bind; [by apply yields_pl|]. intros ? ->. case_bool_decide as Hnone; [by apply served_ret|].
  apply served_parse; [apply _|done|done|]. intros ID rest _.
  assert (∀ s, served E w (SendTradeStatus me s)) as Hstat by (intros; apply served_mild; [done|by apply mild_status]).
  assert (∀ s, served E w (notify me s)) as Hnot by (intros; apply served_mild; [done|by apply mild_notify]).
  destruct (cannot_trade E me); [done|]. case_match; [done|].
  eapply served_look_bind; [by apply (yields_gets _ _ (λ x, x = players w !! ID))|]. intros ? ->.
  destruct (players w !! ID) as [other|] eqn:Ho; [|done].
  destruct (cannot_trade_with E me ID other) as [st|] eqn:Hc; [done|]. case_match; [done|].
  unfold cannot_trade_with in Hc. destruct ((ID =? me) || bool_decide (is_Some (m_trade other))) eqn:Hb; [done|].
  apply orb_false_iff in Hb as [Hne%Z.eqb_neq Hnb%bool_decide_eq_false].
  eapply (start_trade_runs w me ID pl other); try done; by apply eq_None_not_Some.
Qed.

(** ** Acceptance: what is offered *)

Lemma near_stands w w' p a : near w w' → stands E w p a → stands E w' p a.
Proof. intros H Hs. by apply (stands_equiv E (with_trades (trades w') w)); [apply near_equiv|]. Qed.

Lemma offered_carried w td i a : offered E w td i a → carried E w (m_player td) a.
Proof. intros (g & _ & _ & H). by apply owns_carried in H as [? _]. Qed.

Lemma offered_live w td i a : inv_ok E w → offered E w td i a → live w a.
Proof. intros Hw H. eapply carried_live; [done|by eapply offered_carried]. Qed.

(** [o] is the item of slot [i]. *)
Definition slot_item (w : World) (td : TradeData) (i : Z) (o : option Z) : Prop := ∀ a, o = Some a ↔ offered E w td i a.

Lemma near_slot_item w w' td td' i o : near w w' → tcore td' = tcore td → slot_item w td i o → slot_item w' td' i o.
Proof.
  intros H Hc Ho a. rewrite (Ho a). split; [by apply near_offered|]. apply near_offered; [by apply near_sym|done].
Qed.

Section Sides.
Context (me trader my his : Z) (td td' : TradeData).

(** Both sides of the trade, and their offers, are as they were at the start. *)
Definition trading (w : World) : Prop := server_ok E w ∧ ∃ md hd, side w me my md trader ∧ side w trader his hd me ∧
  tcore md = tcore td ∧ tcore hd = tcore td'.

Lemma near_trading w w' : near w w' → trading w → trading w'.
Proof.
  intros H (Hw & md & hd & Hs & Hs' & Hc & Hc'). split; [by eapply near_ok|].
  destruct (near_side _ _ _ _ _ _ H Hs) as (md2 & ? & Hc2), (near_side _ _ _ _ _ _ H Hs') as (hd2 & ? & Hc2').
  exists md2, hd2. split_and!; [done..|congruence|congruence].
Qed.

Lemma trading_core w md hd : trading w → side w me my md trader → side w trader his hd me → tcore md = tcore td ∧ tcore hd = tcore td'.
Proof.
  intros (_ & md0 & hd0 & (_ & H1 & _) & (_ & H2 & _) & Hc & Hc') (_ & H3 & _) (_ & H4 & _).
  assert (md0 = md) as -> by congruence. assert (hd0 = hd) as -> by congruence. done.
Qed.

(** Reads the side again. *)
Lemma yields_my w : trading w → yields w (trade_at my) (λ md, side w me my md trader ∧ tcore md = tcore td ∧ offer_ok md).
Proof.
  intros (Hw & md & hd & Hs & Hs' & Hc & Hc'). destruct (side_partner E w _ _ _ _ Hw Hs) as (_ & Ho & _).
  eapply yields_mono; [by eapply yields_td|]. by intros ? ->.
Qed.

Lemma yields_his w : trading w → yields w (trade_at his) (λ hd, side w trader his hd me ∧ tcore hd = tcore td' ∧ offer_ok hd).
Proof.
  intros (Hw & md & hd & Hs & Hs' & Hc & Hc'). destruct (side_partner E w _ _ _ _ Hw Hs') as (_ & Ho & _).
  eapply yields_mono; [by eapply yields_td|]. by intros ? ->.
Qed.

Lemma yields_trade_item w p t d q i d0 : server_ok E w → side w p t d q → offer_ok d → tcore d = tcore d0 → 0 ≤ i < TRADE_SLOT_COUNT →
  yields w (GetItem E d i) (slot_item w d0 i).
Proof.
  intros Hw Hs Ho Hc Hi. eapply yields_mono; [apply yields_GetItem; [apply Hw| |done|done]|].
  - destruct Hs as ((pl & Hp & _) & _ & -> & _). by exists pl.
  - intros o Hsl. by apply (near_slot_item w w d).
Qed.

Lemma trading_here w : trading w → here w me ∧ here w trader.
Proof. intros (_ & md & hd & Hs & Hs' & _). split; by eapply side_here. Qed.

Lemma accept_slot_runs w i : trading w → 0 ≤ i < TRADE_SLOT_COUNT → runs w (accept_slot E my his i) (λ ab w',
  near w w' ∧ slot_item w td i ab.1 ∧ slot_item w td' i ab.2).
Proof.
  intros Hw Hi. unfold accept_slot. eapply runs_look_bind; [by apply yields_my|]. intros md (Hs & Hc & Ho).
  eapply runs_look_bind; [by eapply yields_trade_item; [apply Hw|..]|]. intros a Ha.
  eapply mild_then; [apply mild_set_in_trade; intros x ->; apply (offered_live w td i); [apply Hw|by apply Ha]|]. intros ? w1 H1.
  pose proof (near_trading w w1 H1 Hw) as Hw1.
  eapply runs_look_bind; [by apply yields_his|]. intros hd (Hs' & Hc' & Ho').
  eapply runs_look_bind; [by eapply yields_trade_item; [apply Hw1|..]|]. intros b Hb.
  eapply mild_then; [apply mild_set_in_trade; intros x0 ->; apply (offered_live w1 td' i); [apply Hw1|by apply Hb]|]. intros ? w2 H2.
  apply runs_ret. split_and!; [by eapply near_trans|done|]. by apply (near_slot_item w1 w td'); [apply near_sym|..].
Qed.

Definition slot_items (w : World) (ixs : list Z) (l : list (option Z * option Z)) : Prop :=
  Forall2 (λ i ab, slot_item w td i ab.1 ∧ slot_item w td' i ab.2) ixs l.

Lemma near_slot_items w w' ixs l : near w w' → slot_items w ixs l → slot_items w' ixs l.
Proof. intros H Hf. eapply Forall2_impl; [exact Hf|]. intros i ab []. by split; eapply near_slot_item. Qed.

Lemma accept_slots_runs ixs w : trading w → Forall (λ i, 0 ≤ i < TRADE_SLOT_COUNT) ixs →
  runs w (each_of (accept_slot E my his) ixs) (λ l w', near w w' ∧ slot_items w ixs l).
Proof.
  revert w. induction ixs as [|i ixs IH]; intros w Hw Hi; cbn [each_of]; [apply runs_ret; split; [done|by apply Forall2_nil]|].
  apply Forall_cons in Hi as [Hi His]. eapply runs_bind; [by apply accept_slot_runs|]. intros ab w1 [H1 Hab].
  eapply runs_bind; [apply IH; [by eapply near_trading|done]|]. intros l w2 [H2 Hl]. apply runs_ret.
  split; [by eapply near_trans|]. apply Forall2_cons. split; [done|]. by apply (near_slot_items w1 w); [apply near_sym|].
Qed.

Lemma setAcceptTradeMode_runs w : trading w → runs w (setAcceptTradeMode E my his) (λ r w', near w w' ∧
  ∃ l, r = (l.*1, l.*2) ∧ slot_items w (slots 0 TRADE_SLOT_TRADED_COUNT) l).
Proof.
  intros Hw. unfold setAcceptTradeMode. pose proof Hw as (_ & md & hd & Hs & Hs' & _).
  eapply mild_then; [apply mild_upd_trade; [by eapply side_open|done]|]. intros ? w1 H1.
  eapply mild_then; [apply mild_upd_trade; [by eapply near_open, side_open|done]|]. intros ? w2 H2.
  pose proof (near_trans _ _ _ H1 H2) as Hn.
  eapply runs_bind; [apply accept_slots_runs; [by eapply near_trading|]|].
  - apply Forall_forall. intros i Hi%elem_of_slots. slot_lia.
  - intros l w3 [H3 Hl]. apply runs_ret. split; [by eapply near_trans|]. exists l. split; [done|].
    by apply (near_slot_items w2 w); [apply near_sym|].
Qed.

(** ** Acceptance: the checks *)

(** What is not refused can be taken out. *)
Lemma refused_runs ixs w : trading w → Forall (λ i, 0 ≤ i < TRADE_SLOT_COUNT) ixs → runs w (refused_items E me trader my his ixs) (λ r w',
  near w w' ∧ (r = false → ∀ i, i ∈ ixs → (∀ a, offered E w td i a → stands E w me a) ∧ (∀ b, offered E w td' i b → stands E w trader b))).
Proof.
  revert w. induction ixs as [|i ixs IH]; intros w Hw Hi; cbn [refused_items].
  { apply runs_ret. split; [done|]. intros _ i Hin. by apply not_elem_of_nil in Hin. }
  apply Forall_cons in Hi as [Hi His]. destruct (trading_here w Hw) as [Hme Htr].
  assert (∀ w0 s, near w w0 → mild w0 (SendTradeStatus me s)) as Hstat by (intros; apply mild_status; by eapply near_here).
  eapply runs_look_bind; [by apply yields_my|]. intros md (Hs & Hc & Ho).
  eapply runs_look_bind; [by eapply yields_trade_item; [apply Hw|..]|]. intros a Ha.
  eapply runs_bind with (P := λ r w', near w w' ∧ (r = false → ∀ x, a = Some x → stands E w me x)).
  { destruct a as [a|]; [|by apply runs_ret]. assert (carried E w me a) as Hcar.
    { destruct Hs as (_ & _ & Hm & _). rewrite <- Hm. assert (m_player md = m_player td) as -> by (by injection Hc).
      eapply offered_carried. by apply (Ha a). }
    destruct (carried_live E w (proj1 (proj1 Hw)) me a Hcar) as [it Hit].
    eapply runs_look_bind; [apply (yields_CanBeTraded E w (proj1 (proj1 Hw)) me a); exact Hcar|]. intros ok Hok. destruct ok; simpl.
    - eapply runs_look_bind; [by apply yields_here_item|]. intros ? ->.
      eapply runs_look_bind; [by eapply yields_IsBindedNotWith; [apply Hw|]|]. intros bound _. destruct bound.
      + eapply mild_then; [by apply Hstat|]. intros ? w1 H1. eapply mild_then; [by apply Hstat|]. intros ? w2 H2.
        apply runs_ret. split; [by eapply near_trans|done].
      + apply runs_ret. split; [done|]. intros _ x0 [= <-]. by apply Hok.
    - eapply mild_then; [by apply Hstat|]. intros ? w1 H1. by apply runs_ret. }
  intros r w1 [H1 Hst]. destruct r; [by apply runs_ret|]. specialize (Hst eq_refl). pose proof (near_trading w w1 H1 Hw) as Hw1.
  eapply runs_look_bind; [by apply yields_his|]. intros hd (Hs' & Hc' & Ho').
  eapply runs_look_bind; [by eapply yields_trade_item; [apply Hw1|..]|]. intros b Hb.
  eapply runs_bind with (P := λ r w', near w w' ∧ (r = false → ∀ x, b = Some x → stands E w trader x)).
  { destruct b as [b|]; [|by apply runs_ret]. assert (carried E w1 trader b) as Hcar.
    { destruct Hs' as (_ & _ & Hm & _). rewrite <- Hm. assert (m_player hd = m_player td') as -> by (by injection Hc').
      eapply offered_carried. by apply (Hb b). }
    eapply runs_look_bind; [apply (yields_CanBeTraded E w1 (proj1 (proj1 Hw1)) trader b); exact Hcar|]. intros ok Hok. destruct ok; simpl.
    - apply runs_ret. split; [done|]. intros _ x0 [= <-]. apply (near_stands w1 w); [by apply near_sym|]. by apply Hok.
    - eapply mild_then; [by apply Hstat|]. intros ? w2 H2. apply runs_ret. split; [by eapply near_trans|done]. }
  intros r w2 [H2 Hst']. destruct r; [by apply runs_ret|]. specialize (Hst' eq_refl).
  eapply runs_mono; [apply IH; [by eapply near_trading|done]|]. intros r w3 [H3 Hrest]. split; [by eapply near_trans|].
  intros Hr j [->|Hj]%elem_of_cons.
  - split; [intros x0 Hx; by apply Hst, Ha|]. intros x0 Hx. apply Hst', (Hb x0). by apply (near_offered E w w1 td' td').
  - destruct (Hrest Hr j Hj) as [R1 R2]. pose proof (near_sym _ _ H2) as H2s.
    split; intros x0 Hx.
    + apply (near_stands w2 w _ _ H2s), R1. by apply (near_offered E w w2 td td).
    + apply (near_stands w2 w _ _ H2s), R2. by apply (near_offered E w w2 td' td').
Qed.

(** All items of the two lists are there. *)
Definition live_all (w : World) (l : list (option Z * option Z)) : Prop := ∀ a, a ∈ (pair_goods me trader l).*2 → live w a.

Lemma near_live_all w w' l : near w w' → live_all w l → live_all w' l.
Proof. intros H Hl a Ha. by eapply near_live, Hl. Qed.

Lemma mild_clear w : trading w → mild w (clearAcceptTradeMode my his).
Proof.
  intros (_ & md & hd & Hs & Hs' & _). eapply mild_bind; [apply mild_upd_trade; [by eapply side_open|done]|]. intros ? w1 H1.
  apply mild_upd_trade; [by eapply near_open, side_open|done].
Qed.

Lemma mild_clear_items w l : live_all w l → mild w (clearAcceptTradeMode_items l.*1 l.*2).
Proof.
  unfold clearAcceptTradeMode_items. revert w. induction l as [|[a b] l IH]; intros w Hl; cbn [each_pair fmap list_fmap]; [apply mild_ret|].
  unfold live_all in Hl. rewrite pair_goods_cons, !fmap_app in Hl. setoid_rewrite elem_of_app in Hl. setoid_rewrite elem_of_app in Hl. cbn [fst snd] in *.
  eapply mild_bind; [eapply mild_bind; [apply mild_set_in_trade; intros x ->; apply Hl; left; by apply opt_elem|]|].
  - intros ? w1 H1. apply mild_set_in_trade. intros x0 ->. eapply near_live; [exact H1|]. apply Hl. right. left. by apply opt_elem.
  - intros ? w1 H1. apply IH. intros x0 Hx. eapply near_live; [exact H1|]. apply Hl. auto.
Qed.

Lemma mild_clear_both w l : trading w → live_all w l → mild w (clearAcceptTradeMode my his;; clearAcceptTradeMode_items l.*1 l.*2).
Proof. intros Hw Hl. eapply mild_bind; [by apply mild_clear|]. intros ? w1 H1. apply mild_clear_items. by eapply near_live_all. Qed.

Lemma yields_cast_item w p t d q : server_ok E w → side w p t d q → yields w (GetSpellCastItem E d) (λ _, True).
Proof.
  intros Hw Hs. unfold GetSpellCastItem. case_match; [|by apply yields_ret]. eapply yields_any, finds_GetItemByGuid; [apply Hw|].
  destruct Hs as ((pl & Hp & _) & _ & -> & _). by exists pl.
Qed.

Lemma yields_spell_fault w p t d q t' d' : server_ok E w → side w p t d q → side w q t' d' p → yields w (spell_fault E t t') (λ _, True).
Proof.
  intros Hw Hs Hs'. destruct (side_partner E w _ _ _ _ Hw Hs') as (_ & Ho & _). unfold spell_fault.
  eapply yields_bind; [by eapply yields_td|]. intros ? ->. eapply yields_bind; [by eapply yields_cast_item|]. intros c _.
  eapply yields_bind; [by eapply yields_td|]. intros ? ->.
  eapply yields_bind; [eapply (yields_trade_item w q t' d' p TRADE_SLOT_NONTRADED d'); [done|done|done|done|unfold TRADE_SLOT_NONTRADED; slot_lia]|]. intros target _.
  case_match; [by apply yields_ret|]. eapply yields_bind; [by apply (yields_gets _ _ (λ _, True))|]. intros. by apply yields_ret.
Qed.

Lemma mild_check_spells w l : trading w → live_all w l → mild w (check_spells E my his l.*1 l.*2).
Proof.
  intros Hw Hl. pose proof Hw as (Hok & md0 & hd0 & Hs0 & Hs0' & _). unfold check_spells.
  assert (∀ w1 t, near w w1 → t = my ∨ t = his → mild w1 (SetSpell E t 0 None)) as Hset.
  { intros w1 t H1 Ht. pose proof (near_trading w w1 H1 Hw) as (Hok1 & md1 & hd1 & Hs1 & Hs1' & _). destruct Ht as [->| ->]; by eapply mild_SetSpell. }
  assert (∀ w1 e, near w w1 → mild w1 (emit e)) as Hemit by (intros; apply mild_emit).
  assert (∀ w1, near w w1 → mild w1 (clearAcceptTradeMode my his;; clearAcceptTradeMode_items l.*1 l.*2)) as Hclear.
  { intros w1 H1. apply mild_clear_both; [by eapply near_trading|by eapply near_live_all]. }
  eapply mild_look_bind; [by eapply yields_td|]. intros ? ->.
  eapply mild_look_bind with (P := λ _, True); [case_match; [by eapply yields_spell_fault|by apply yields_ret]|]. intros [f|] _.
  - eapply mild_bind; [destruct f; [apply mild_ret|apply mild_emit]|]. intros ? w1 H1.
    eapply mild_bind; [by apply Hclear|]. intros ? w2 H2.
    eapply mild_bind; [apply Hset; [by eapply near_trans|by left]|]. intros. apply mild_ret.
  - eapply mild_look_bind; [by eapply yields_td|]. intros ? ->.
    eapply mild_look_bind with (P := λ _, True); [case_match; [by eapply yields_spell_fault|by apply yields_ret]|]. intros [[[]|res]|] _.
    + eapply mild_bind; [by apply Hset; [|right]|]. intros ? w1 H1. eapply mild_bind; [by apply Hclear|]. intros. apply mild_ret.
    + eapply mild_bind; [apply mild_emit|]. intros ? w1 H1. eapply mild_bind; [by apply Hclear|]. intros ? w2 H2.
      eapply mild_bind; [apply Hset; [by eapply near_trans|by right]|]. intros. apply mild_ret.
    + apply mild_ret.
Qed.

Lemma mild_no_room w p q t1 t2 : trading w → here w p → here w q → mild w (no_room p q t1 t2 my his).
Proof.
  intros Hw Hp Hq. eapply mild_bind; [by apply mild_clear|]. intros ? w1 H1.
  eapply mild_bind; [apply mild_notify; by eapply near_here|]. intros ? w2 H2.
  eapply mild_bind; [apply mild_notify; by eapply near_here, near_here|]. intros ? w3 H3.
  assert (near w w3) as Hn by (by repeat (eapply near_trans; [eassumption|])).
  pose proof (near_trading w w3 Hn Hw) as (Hok3 & md3 & hd3 & Hs3 & Hs3' & _).
  eapply mild_bind; [by eapply mild_SetAccepted|]. intros ? w4 H4.
  pose proof (near_trading w w4 (near_trans _ _ _ Hn H4) Hw) as (Hok4 & md4 & hd4 & Hs4 & Hs4' & _). by eapply mild_SetAccepted.
Qed.

(** ** The exchange *)

(** What a completed trade does: both sides are closed, the gold is paid, and if each pair
    of items can be stored in its turn, each player has what he had, less what he offered,
    and what he was offered. *)
Record exchanged (w w' : World) (m h : Z) (l : list (option Z * option Z)) : Prop := {
  ex_closed : ∀ p, p = me ∨ p = trader → m_trade <$> players w' !! p = Some None;
  ex_mine : Coinage <$> players w' !! me = (λ pl, coins_after (Coinage pl) m h) <$> players w !! me;
  ex_his : Coinage <$> players w' !! trader = (λ pl, coins_after (Coinage pl) h m) <$> players w !! trader;
  ex_stock : all_fit E (remove_items E me trader l.*1 l.*2 w).2 me trader l = true →
    ∀ q e, stock E w' q e = stock E w q e - goods w (pair_goods me trader l) q e + goods w (pair_goods trader me l) q e
}.

Lemma stock_same w w' q e : items w' = items w → (∀ p, m_items <$> players w' !! p = m_items <$> players w !! p) → stock E w' q e = stock E w q e.
Proof.
  intros Hi Hp. apply stock_shelf. intros b s Hb. apply shelf_eq; [|by rewrite Hi]. apply at_pos_ext; [done|]. by rewrite Hi.
Qed.

Lemma stock_near w w' q e : near w w' → stock E w' q e = stock E w q e.
Proof. intros H. exact (stock_equiv E (with_trades (trades w') w) w' q e (near_equiv w w' H)). Qed.

Lemma stock_paid w p c q e : stock E (paid p c w) q e = stock E w q e.
Proof. apply stock_same; [done|]. intros r. by apply alter_same. Qed.

Lemma stock_closed w q e : stock E (closed me trader my his w) q e = stock E w q e.
Proof. apply stock_same; [done|]. intros r. simpl. by rewrite !alter_same. Qed.

Lemma near_coins w w' p : near w w' → Coinage <$> players w' !! p = Coinage <$> players w !! p.
Proof.
  intros H. destruct (players w !! p) as [pl|] eqn:Hp.
  - destruct (near_player _ _ _ _ H Hp) as (pl' & -> & [= _ Hc _]). simpl. by rewrite Hc.
  - destruct (players w' !! p) eqn:Hp'; [|done]. destruct (near_player _ _ _ _ (near_sym _ _ H) Hp') as (? & ? & _). congruence.
Qed.

Lemma pair_goods_items p q p' q' l : (pair_goods p q l).*2 = (pair_goods p' q' l).*2.
Proof.
  induction l as [|[a b] l IH]; [done|]. rewrite !pair_goods_cons, !fmap_app, IH. by destruct a, b.
Qed.

(** The last steps: nothing is moved any more. *)
Lemma close_runs w d1 d2 c1 c2 : trading w →
  runs w (prepare_spell my d1 c1;; prepare_spell his d2 c2;; clearAcceptTradeMode my his;; drop_trade me;; drop_trade trader;;
    emit BeginTransaction;; emit (SaveInventoryAndGold me);; emit (SaveInventoryAndGold trader);; emit CommitTransaction;;
    SendTradeStatus trader TRADE_STATUS_TRADE_COMPLETE;; SendTradeStatus me TRADE_STATUS_TRADE_COMPLETE)
    (λ _ w', ∃ w1, near w w1 ∧ near (closed me trader my his w1) w' ∧ trading w1).
Proof.
  intros Hw. assert (∀ w1 t d c, mild w1 (prepare_spell t d c)) as Hsp by (intros; unfold prepare_spell; case_match; [apply mild_emit|apply mild_ret]).
  eapply mild_then; [apply Hsp|]. intros ? w1 H1. eapply mild_then; [apply Hsp|]. intros ? w2 H2.
  pose proof (near_trans _ _ _ H1 H2) as Hn2. eapply mild_then; [apply mild_clear; by eapply near_trading|]. intros ? w3 H3.
  pose proof (near_trans _ _ _ Hn2 H3) as Hn3. pose proof (near_trading w w3 Hn3 Hw) as Hw3. pose proof Hw3 as (Hok & md & hd & Hs & Hs' & _).
  destruct (side_partner E w3 _ _ _ _ Hok Hs) as (Hne & _). apply runs_assoc. eapply runs_bind; [by eapply drop_both|]. intros ? w4 ->.
  set (wc := closed me trader my his w3). eapply (mild_then wc (emit _)); [apply mild_emit|]. intros ? w5 H5.
  eapply mild_then; [apply mild_emit|]. intros ? w6 H6. eapply mild_then; [apply mild_emit|]. intros ? w7 H7.
  eapply mild_then; [apply mild_emit|]. intros ? w8 H8.
  assert (near wc w8) as Hn8 by (by repeat (eapply near_trans; [eassumption|])).
  destruct (trading_here w3 Hw3) as [Hme Htr].
  eapply mild_then; [apply mild_status; by eapply near_here, closed_here|]. intros ? w9 H9. pose proof (near_trans _ _ _ Hn8 H9) as Hn9.
  eapply runs_mono; [apply mild_status; by eapply near_here, closed_here|]. intros ? w10 H10. simpl in H10.
  exists w3. split_and!; [done|by eapply near_trans|done].
Qed.

Lemma trading_keep w w' : trading w → inv_ok E w' → trades w' = trades w → (∀ q, purse <$> players w' !! q = purse <$> players w !! q) → trading w'.
Proof.
  intros ([_ Ht] & md & hd & Hs & Hs' & Hc) Hi Htr Hp. split; [split; [done|by eapply purse_trade_ok]|].
  exists md, hd. split_and!; [by eapply purse_side..|apply Hc|apply Hc].
Qed.

Lemma paid_trading w p c : trading w → 0 ≤ c ≤ MAX_MONEY_AMOUNT → trading (paid p c w).
Proof.
  intros (Hok & md & hd & Hs & Hs' & Hc) Hcm. split; [by apply paid_ok|].
  assert (∀ q t d r, side w q t d r → side (paid p c w) q t d r) as Hk.
  { intros q t d r ((pl & Hpl & Hpt) & H2). split; [|done]. simpl. destruct (decide (p = q)) as [<-|].
    - rewrite lookup_alter_eq, Hpl. by eexists.
    - rewrite lookup_alter_ne by done. by exists pl. }
  exists md, hd. split_and!; [by apply Hk..|apply Hc|apply Hc].
Qed.

Lemma equiv_trading w w' : w' ≡ w → trading w → trading w'.
Proof. intros H. by apply near_trading, equiv_near. Qed.

Lemma runs_step {A B} w (m : iw A) (k : A → iw B) x w1 (Q : B → World → Prop) : m w = (Ret x, w1) → runs w1 (k x) Q → runs w (m ≫= k) Q.
Proof. intros H (y & w2 & H2 & HQ). exists y, w2. by rewrite (bind_ret_run _ _ _ _ _ H). Qed.

Lemma moveItems_runs w l (Q : unit → World → Prop) : trading w → runs w (each_pair (move_pair E me trader) l.*1 l.*2) Q →
  runs w (moveItems E me l.*1 l.*2) Q.
Proof.
  intros (_ & md & hd & Hs & _) H. pose proof Hs as ((pl & Hpl & Ht) & _ & _ & <-).
  eapply runs_look_bind; [by apply yields_pl|]. intros ? ->. unfold GetTrader. rewrite Ht.
  eapply runs_look_bind; [eapply yields_bind; [by eapply yields_td|]; intros ? ->; by apply (yields_ret _ _ (λ o, o = Some (m_trader md)))|].
  by intros ? ->.
Qed.

Lemma purse_coins w w' q : purse <$> players w' !! q = purse <$> players w !! q → Coinage <$> players w' !! q = Coinage <$> players w !! q.
Proof. destruct (players w !! q), (players w' !! q); simpl; try done. by intros [= -> _]. Qed.

(** The last two steps leave the items alone. *)
Lemma settled_stock w w3 w4 w5 c c' q e : w3 ≡ paid trader c' (paid me c w) → near w3 w4 → near (closed me trader my his w4) w5 →
  stock E w5 q e = stock E w q e.
Proof.
  intros H3 H4 H5. rewrite (stock_near _ _ _ _ H5), stock_closed, (stock_near _ _ _ _ H4), (stock_equiv E _ _ _ _ H3).
  by rewrite !stock_paid.
Qed.

Lemma settled_coins w w3 w4 w5 c c' q : w3 ≡ paid trader c' (paid me c w) → near w3 w4 → near (closed me trader my his w4) w5 →
  Coinage <$> players w5 !! q = Coinage <$> players (paid trader c' (paid me c w)) !! q.
Proof.
  intros H3 H4 H5. rewrite (near_coins _ _ _ H5). simpl. rewrite !alter_same by done.
  rewrite (near_coins _ _ _ H4). by rewrite (near_coins _ _ _ (equiv_near _ _ H3)).
Qed.

Lemma near_no_trade w w' p : near w w' → m_trade <$> players w !! p = Some None → m_trade <$> players w' !! p = Some None.
Proof.
  intros H (pl & Hp & Ht)%fmap_Some. destruct (near_player _ _ _ _ H Hp) as (pl' & -> & [= _ _ Et]). simpl. by rewrite Et, <- Ht.
Qed.

Lemma closed_none w p : here w p → p = me ∨ p = trader → m_trade <$> players (closed me trader my his w) !! p = Some None.
Proof.
  intros Hp Hpq. destruct (closed_here w me trader my his p Hp) as [pl Hpl]. rewrite Hpl. simpl. f_equal. simpl in Hpl.
  apply lookup_alter_cases in Hpl as (pl1 & (pl0 & _ & ->)%lookup_alter_cases & ->).
  destruct (decide (trader = p)); [done|]. rewrite decide_True by naive_solver. done.
Qed.

Lemma execute_runs w pl pl' l : trading w → players w !! me = Some pl → players w !! trader = Some pl' →
  0 ≤ m_money td ≤ Coinage pl → 0 ≤ m_money td' ≤ Coinage pl' → NoDup (pair_goods me trader l).*2 →
  (∀ p a, (p, a) ∈ pair_goods me trader l → stands E w p a) → Z.of_nat (length l) ≤ TRADE_SLOT_TRADED_COUNT →
  m_hiItemGuid w + HEADROOM < 2 ^ 32 →
  runs w (execute_trade E me trader my his l.*1 l.*2) (λ _ w',
    server_ok E w' ∧ (∀ p, here w p → here w' p) ∧ m_hiItemGuid w' ≤ m_hiItemGuid w + HEADROOM ∧
    exchanged w w' (m_money td) (m_money td') l).
Proof.
  intros Hw Hpl Hpl' Hm Hh Hnd Hst Hlen Hhi. destruct (trading_here w Hw) as [Hme Htr].
  pose proof Hw as (Hok & md0 & hd0 & Hs & Hs' & Hc & Hc'). destruct (side_partner E w _ _ _ _ Hok Hs) as (Hne & _).
  unfold execute_trade. eapply runs_look_bind; [by eapply yields_td|]. intros ? ->.
  eapply runs_look_bind; [by eapply yields_td|]. intros ? ->.
  eapply runs_look_bind; [by eapply yields_cast_item|]. intros c1 _.
  eapply runs_look_bind; [by eapply yields_cast_item|]. intros c2 _.
  destruct (remove_items_runs E me trader l w) as ([] & w1 & E1 & R1); [apply Hok|done..|].
  eapply runs_step; [exact E1|]. assert (trading w1) as Hw1 by (eapply trading_keep; [exact Hw|apply R1..]).
  destruct (trading_here w1 Hw1) as [Hme1 Htr1].
  eapply runs_bind.
  { apply moveItems_runs; [done|]. eapply (each_pair_runs E me trader l w1); [apply R1|done..| | |].
    - intros x. rewrite (pair_goods_items trader me me trader). intros Hx. apply R1. by right.
    - by rewrite (pair_goods_items trader me me trader).
    - rewrite (rm_counter _ _ _ _ R1). unfold HEADROOM, PLACES in *. lia. }
  intros ? w2 [M Hfit]. simpl in M. assert (trading w2) as Hw2 by (eapply trading_keep; [exact Hw1|apply M..]).
  assert (∀ q, purse <$> players w2 !! q = purse <$> players w !! q) as Hpurse by (intros q; by rewrite (mv_player _ _ _ _ _ M), (rm_player _ _ _ _ R1)).
  pose proof (purse_coins _ _ me (Hpurse me)) as Hcm. rewrite Hpl in Hcm. apply fmap_Some in Hcm as (pl2 & Hpl2 & Ec2).
  pose proof (purse_coins _ _ trader (Hpurse trader)) as Hct. rewrite Hpl' in Hct. apply fmap_Some in Hct as (pl2' & Hpl2' & Ec2').
  pose proof (tr_coins w2 (proj2 (proj1 Hw2)) me pl2 Hpl2) as Hr. pose proof (tr_coins w2 (proj2 (proj1 Hw2)) trader pl2' Hpl2') as Hr'.
  assert (m_money md0 = m_money td) as -> by (by injection Hc). assert (m_money hd0 = m_money td') as -> by (by injection Hc').
  simpl in Ec2, Ec2'.
  eapply runs_bind; [eapply exchange_money_runs; [exact Hne|exact Hpl2|exact Hpl2'|done|done|lia|lia]|]. intros ? w3 H3. simpl in H3.
  set (c := coins_after (Coinage pl2) _ _) in H3. set (c' := coins_after (Coinage pl2') _ _) in H3.
  assert (∀ x y z, 0 ≤ x ≤ MAX_MONEY_AMOUNT → 0 ≤ y ≤ x → 0 ≤ z → 0 ≤ coins_after x y z ≤ MAX_MONEY_AMOUNT) as Hca by (unfold coins_after; lia).
  assert (trading w3) as Hw3. { eapply equiv_trading; [exact H3|]. apply paid_trading; [apply paid_trading|]; [done|apply Hca; lia..]. }
  eapply runs_mono; [by apply close_runs|]. intros ? w5 (w4 & H4 & H5 & Hw4). simpl in *.
  assert (∀ q, Coinage <$> players w5 !! q = Coinage <$> players (paid trader c' (paid me c w2)) !! q) as Hcoins by (intros; by eapply settled_coins).
  assert (∀ p, here w p → here w4 p) as Hhere.
  { intros p Hp. eapply near_here; [exact H4|]. eapply here_equiv; [exact H3|]. apply (purse_here _ w2) in Hp; [|done].
    destruct Hp as [plp Hp]. unfold here. simpl. destruct (decide (trader = p)) as [<-|]; [rewrite lookup_alter_eq|rewrite lookup_alter_ne by done].
    - rewrite lookup_alter_ne, Hp by done. by eexists.
    - destruct (decide (me = p)) as [<-|]; [rewrite lookup_alter_eq|rewrite lookup_alter_ne by done]; rewrite Hp; by eexists. }
  split_and!.
  - destruct Hw4 as (Hok4 & md4 & hd4 & Hs4 & Hs4' & _). eapply near_ok; [exact H5|]. by eapply closed_ok.
  - intros p Hp. eapply near_here; [exact H5|]. by apply closed_here, Hhere.
  - rewrite (near_counter _ _ H5). simpl. rewrite (near_counter _ _ H4). destruct (equiv_others _ _ H3) as [_ ->]. simpl.
    pose proof (mv_counter _ _ _ _ _ M). rewrite (rm_counter _ _ _ _ R1) in *. unfold HEADROOM, PLACES in *. lia.
  - split.
    + intros p Hp. eapply near_no_trade; [exact H5|]. apply closed_none; [|done]. apply Hhere. by destruct Hp as [->| ->].
    + rewrite Hcoins, Hpl. simpl. rewrite lookup_alter_ne, lookup_alter_eq, Hpl2 by done. simpl. subst c. by rewrite Ec2.
    + rewrite Hcoins, Hpl'. simpl. rewrite lookup_alter_eq, lookup_alter_ne, Hpl2' by done. simpl. subst c'. by rewrite Ec2'.
    + rewrite E1. intros Hf q e. rewrite (settled_stock _ _ _ _ _ _ _ _ H3 H4 H5), (Hfit Hf), (rm_stock _ _ _ _ R1).
      rewrite (goods_same w w1) by (intros; apply R1). lia.
Qed.

(** ** The goods of the two sides *)

Lemma offered_inj w d i j a : offer_ok d → 0 ≤ i → 0 ≤ j → offered E w d i a → offered E w d j a → i = j.
Proof.
  intros (_ & _ & Hu) Hi Hj (g & Hg & Hne & (_ & it & Hit & Eg)%owns_carried) (g' & Hg' & _ & (_ & it' & Hit' & Eg')%owns_carried).
  assert (g' = g) as -> by congruence. pose proof (Hu _ _ g Hg Hg' Hne). lia.
Qed.

Lemma offered_apart w i j a : trading w → offered E w td i a → ¬ offered E w td' j a.
Proof.
  intros (Hok & md & hd & Hs & Hs' & Hc & Hc') H%offered_carried H'%offered_carried.
  destruct (side_partner E w _ _ _ _ Hok Hs) as (Hne & _). destruct Hs as (_ & _ & Hm & _), Hs' as (_ & _ & Hm' & _).
  injection Hc as Em _ _ _. injection Hc' as Em' _ _ _. rewrite <- Em, Hm in H. rewrite <- Em', Hm' in H'.
  destruct H as (b & s & Hb & Ha), H' as (b' & s' & Hb' & Ha').
  pose proof (at_pos_inj E w _ _ _ _ _ _ a (proj1 Hok) Hb Hb' Ha Ha'). congruence.
Qed.

Lemma trading_offers w : trading w → offer_ok td ∧ offer_ok td'.
Proof.
  intros (Hok & md & hd & Hs & Hs' & [= _ _ Em Ei] & [= _ _ Em' Ei']).
  destruct (side_partner E w _ _ _ _ Hok Hs) as (_ & Ho & _), (side_partner E w _ _ _ _ Hok Hs') as (_ & Ho' & _).
  unfold offer_ok in *. rewrite Em, Ei in Ho. rewrite Em', Ei' in Ho'. done.
Qed.

Lemma slot_goods w ixs l p x : slot_items w ixs l → (p, x) ∈ pair_goods me trader l →
  ∃ i, i ∈ ixs ∧ ((p = me ∧ offered E w td i x) ∨ (p = trader ∧ offered E w td' i x)).
Proof.
  induction 1 as [|i [a b] ixs l [Ha Hb] _ IH]; [by intros Hx%not_elem_of_nil|]. rewrite pair_goods_cons, !elem_of_app. cbn [fst snd] in *.
  assert (∀ q o, (p, x) ∈ opt_goods q o → p = q ∧ o = Some x) as Hopt.
  { intros q [y|]; simpl; [intros [= -> ->]%list_elem_of_singleton; done|by intros Hx%not_elem_of_nil]. }
  intros [[-> ->]%Hopt|[[-> ->]%Hopt|Hin]].
  - exists i. split; [by left|]. left. split; [done|]. by apply Ha.
  - exists i. split; [by left|]. right. split; [done|]. by apply Hb.
  - destruct (IH Hin) as (j & Hj & ?). exists j. split; [by right|done].
Qed.

Lemma slot_goods_NoDup w ixs l : trading w → NoDup ixs → Forall (λ i, 0 ≤ i) ixs → slot_items w ixs l → NoDup (pair_goods me trader l).*2.
Proof.
  intros Hw Hnd Hpos Hl. destruct (trading_offers w Hw) as [Ho Ho'].
  induction Hl as [|i [a b] ixs l [Ha Hb] Hl IH]; [apply NoDup_nil_2|]. cbn [fst snd] in *.
  apply NoDup_cons in Hnd as [Hi Hnd]. apply Forall_cons in Hpos as [H0 Hpos]. specialize (IH Hnd Hpos).
  assert (∀ x, x ∈ (pair_goods me trader l).*2 → (∀ j, j ∈ ixs → ¬ offered E w td j x) → (∀ j, j ∈ ixs → ¬ offered E w td' j x) → False) as Hrest.
  { intros x ([p y] & -> & Hin)%list_elem_of_fmap H1 H2. destruct (slot_goods w ixs l p y Hl Hin) as (j & Hj & [[_ ?]|[_ ?]]); [by eapply H1|by eapply H2]. }
  assert (∀ d j x, offer_ok d → j ∈ ixs → offered E w d i x → ¬ offered E w d j x) as Hother.
  { intros d j x Hd Hj H1 H2. rewrite Forall_forall in Hpos. assert (i = j) as -> by (eapply offered_inj; eauto). done. }
  rewrite pair_goods_cons, !fmap_app. cbn [fst snd]. apply NoDup_app. split_and!; [destruct a; apply NoDup_singleton || apply NoDup_nil_2| |].
  - intros x Hx%opt_elem. subst a. pose proof (proj1 (Ha x) eq_refl) as Hoff. intros [Hx%opt_elem|Hx]%elem_of_app.
    + subst b. by apply (offered_apart w i i x), (Hb x).
    + apply (Hrest x Hx); intros j Hj; [by apply Hother|by apply offered_apart with i].
  - apply NoDup_app. split_and!; [destruct b; apply NoDup_singleton || apply NoDup_nil_2| |done].
    intros x Hx%opt_elem Hin. subst b. pose proof (proj1 (Hb x) eq_refl) as Hoff.
    apply (Hrest x Hin); intros j Hj; [intros Hj'; by apply (offered_apart w j i x)|by apply Hother].
Qed.

Lemma slot_items_live w ixs l : trading w → slot_items w ixs l → live_all w l.
Proof.
  intros Hw Hl x ([p y] & -> & Hin)%list_elem_of_fmap. destruct (slot_goods w ixs l p y Hl Hin) as (i & _ & [[_ H]|[_ H]]);
    eapply offered_live; [apply Hw|exact H|apply Hw|exact H].
Qed.

Lemma slot_items_members w ixs l a b : slot_items w ixs l → (a ∈ l.*1 → ∃ i, i ∈ ixs ∧ slot_item w td i a) ∧ (b ∈ l.*2 → ∃ i, i ∈ ixs ∧ slot_item w td' i b).
Proof.
  induction 1 as [|i [x y] ixs l [Ha Hb] _ [IHa IHb]]; [split; by intros ?%not_elem_of_nil|]. cbn [fmap list_fmap fst snd] in *.
  split; (intros [->|Hin]%elem_of_cons; [exists i; split; [by left|done]|]).
  - destruct (IHa Hin) as (j & ? & ?). exists j. split; [by right|done].
  - destruct (IHb Hin) as (j & ? & ?). exists j. split; [by right|done].
Qed.

(** ** The whole acceptance *)

Abbreviation traded_slots := (slots 0 TRADE_SLOT_TRADED_COUNT).

(** Why the trade is not completed: the partner has not accepted, a side lacks the gold it
    offers, or a check refused what was offered. *)
Inductive declined (w : World) : Prop :=
| declined_open : m_accepted td' = false → declined w
| declined_poor p d pl : (p, d) = (me, td) ∨ (p, d) = (trader, td') → players w !! p = Some pl → Coinage pl < m_money d → declined w
| declined_item w1 : near w w1 → (refused_items E me trader my his traded_slots w1).1 = Ret true → declined w
| declined_spell w1 l : near w w1 → slot_items w traded_slots l → (check_spells E my his l.*1 l.*2 w1).1 = Ret false → declined w
| declined_room w1 l p pItems res : near w w1 → slot_items w traded_slots l → (p, pItems) = (trader, l.*1) ∨ (p, pItems) = (me, l.*2) →
    (CanStoreItems E p pItems w1).1 = Ret res → res ≠ EQUIP_ERR_OK → declined w.

Lemma near_declined w w' : near w w' → declined w' → declined w.
Proof.
  intros Hn Hd. pose proof (near_sym _ _ Hn) as Hb. destruct Hd as [Ha|p d pl Hp Hpl Hlt|w1 H1 Hr|w1 l H1 Hl Hr|w1 l p ps res H1 Hl Hp Hr Hne].
  - by apply declined_open.
  - destruct (near_player _ _ _ _ Hb Hpl) as (pl2 & Hpl2 & [= _ Ec _]). eapply declined_poor; [done|exact Hpl2|lia].
  - eapply (declined_item w w1); [by eapply near_trans|done].
  - eapply (declined_spell w w1 l); [by eapply near_trans|by apply (near_slot_items w' w)|done].
  - eapply (declined_room w w1 l p ps res); [by eapply near_trans|by apply (near_slot_items w' w)|done..].
Qed.

(** Nothing the invariant reads has changed, for one of the reasons, or the trade was completed. *)
Definition decided (w w' : World) : Prop :=
  near w w' ∧ declined w ∨ ∃ w0 l, near w w0 ∧ slot_items w traded_slots l ∧ exchanged w0 w' (m_money td) (m_money td') l.

Definition kept (w w' : World) : Prop :=
  server_ok E w' ∧ (∀ p, here w p → here w' p) ∧ m_hiItemGuid w' ≤ m_hiItemGuid w + HEADROOM.

Lemma near_kept w w' : server_ok E w → near w w' → kept w w'.
Proof.
  intros Hw Hn. split_and!; [by eapply near_ok|intros p; by apply near_here|].
  rewrite (near_counter _ _ Hn). unfold HEADROOM, PLACES. slot_lia.
Qed.

Definition settles {A} (w : World) (m : iw A) : Prop := runs w m (λ _ w', kept w w' ∧ decided w w').

Lemma mild_settles {A} w (m : iw A) : server_ok E w → declined w → mild w m → settles w m.
Proof. intros Hw Hd H. eapply runs_mono; [exact H|]. intros ? w' Hn. simpl in Hn. split; [by apply near_kept|by left]. Qed.

Lemma settles_near {A} w w1 (m : iw A) : near w w1 → settles w1 m → runs w1 m (λ _ w', kept w w' ∧ decided w w').
Proof.
  intros Hn H. eapply runs_mono; [exact H|]. intros ? w' [(Hok & Hh & Hc) Hd]. split.
  - split_and!; [done|intros p Hp; by eapply Hh, near_here|]. by rewrite <- (near_counter _ _ Hn).
  - destruct Hd as [[Hd Hwhy]|(w0 & l & H0 & Hl & He)]; [left; split; [by eapply near_trans|by eapply near_declined]|]. right. exists w0, l. split_and!; [by eapply near_trans| |done].
    apply (near_slot_items w1 w); [by apply near_sym|done].
Qed.

Lemma mild_bind_settles {A B} w (m : iw A) (k : A → iw B) : mild w m → (∀ x w', near w w' → settles w' (k x)) → settles w (m ≫= k).
Proof. intros H Hk. eapply mild_then; [exact H|]. intros x w1 H1. by apply settles_near; [|apply Hk]. Qed.

Lemma traded_range : Forall (λ i, 0 ≤ i < TRADE_SLOT_COUNT) traded_slots.
Proof. apply Forall_forall. intros i Hi%elem_of_slots. slot_lia. Qed.

Lemma execute_settles w w0 pl pl' l : trading w → near w0 w → slot_items w0 traded_slots l →
  (∀ i, i ∈ traded_slots → (∀ a, offered E w0 td i a → stands E w0 me a) ∧ (∀ b, offered E w0 td' i b → stands E w0 trader b)) →
  players w !! me = Some pl → players w !! trader = Some pl' → 0 ≤ m_money td ≤ Coinage pl → 0 ≤ m_money td' ≤ Coinage pl' →
  m_hiItemGuid w + HEADROOM < 2 ^ 32 → settles w (execute_trade E me trader my his l.*1 l.*2).
Proof.
  intros Hw Hn Hl Hst Hpl Hpl' Hm Hm' Hhi. pose proof (near_slot_items _ _ _ _ Hn Hl) as Hlw.
  eapply runs_mono; [apply (execute_runs w pl pl' l); [done..| | | |done]|].
  - eapply slot_goods_NoDup; [done| | |exact Hlw]; [by vm_compute; repeat constructor; set_solver|].
    eapply Forall_impl; [apply traded_range|]. intros i Hi. apply Hi.
  - intros p x Hin. apply (near_stands w0 w _ _ Hn). destruct (slot_goods w0 _ l p x Hl Hin) as (i & Hi & [[-> ?]|[-> ?]]); by apply (Hst i Hi).
  - rewrite <- (Forall2_length _ _ _ Hl). by vm_compute.
  - intros ? w' (Hok & Hh & Hc & Hex). split; [done|]. right. by exists w, l.
Qed.

Lemma complete_settles w pl pl' : trading w →
  (∀ i, i ∈ traded_slots → (∀ a, offered E w td i a → stands E w me a) ∧ (∀ b, offered E w td' i b → stands E w trader b)) →
  players w !! me = Some pl → players w !! trader = Some pl' → 0 ≤ m_money td ≤ Coinage pl → 0 ≤ m_money td' ≤ Coinage pl' →
  m_hiItemGuid w + HEADROOM < 2 ^ 32 → settles w (complete_trade E me trader my his).
Proof.
  intros Hw Hst Hpl Hpl' Hm Hm' Hhi. destruct (trading_here w Hw) as [Hme Htr].
  unfold complete_trade. eapply runs_bind; [by apply setAcceptTradeMode_runs|]. intros r w1 (H1 & l & -> & Hl).
  pose proof (near_trading w w1 H1 Hw) as Hw1. pose proof (slot_items_live w _ l Hw Hl) as Hlive.
  apply settles_near; [done|].
  destruct (mild_check_spells w1 l Hw1 (near_live_all _ _ _ H1 Hlive)) as (ok & w2 & Eok & H2). simpl in H2.
  eapply runs_step; [exact Eok|]. apply settles_near; [done|].
  pose proof (near_trans _ _ _ H1 H2) as N2. pose proof (near_trading w w2 N2 Hw) as Hw2.
  destruct ok; simpl.
  2: { apply mild_settles; [apply Hw2| |apply mild_ret]. eapply (declined_spell w2 w1 l); [by apply near_sym|by apply (near_slot_items w w2)|by rewrite Eok]. }
  apply mild_bind_settles; [by apply mild_status; eapply near_here|]. intros ? w3 H3. pose proof (near_trans _ _ _ N2 H3) as N3.
  pose proof (near_trading w w3 N3 Hw) as Hw3. pose proof (slot_items_live w3 _ l Hw3 (near_slot_items _ _ _ _ N3 Hl)) as Hlive3.
  assert (∀ a, Some a ∈ l.*1 ∨ Some a ∈ l.*2 → live w3 a) as Hla.
  { intros a Ha. pose proof (near_slot_items _ _ _ _ N3 Hl) as Hl3. destruct Ha as [Ha|Ha].
    - destruct (proj1 (slot_items_members w3 _ l (Some a) None Hl3) Ha) as (i & _ & Hi). eapply offered_live; [apply Hw3|by apply Hi].
    - destruct (proj2 (slot_items_members w3 _ l None (Some a) Hl3) Ha) as (i & _ & Hi). eapply offered_live; [apply Hw3|by apply Hi]. }
  destruct (yields_CanStoreItems E w3 (proj1 (proj1 Hw3)) trader l.*1) as (hisRes & Eh & _); [by eapply near_here|auto|].
  eapply runs_step; [exact Eh|].
  destruct (yields_CanStoreItems E w3 (proj1 (proj1 Hw3)) me l.*2) as (myRes & Em & _); [by eapply near_here|auto|].
  eapply runs_step; [exact Em|].
  apply mild_bind_settles; [by apply mild_clear_items|]. intros ? w4 H4. pose proof (near_trans _ _ _ N3 H4) as N4.
  pose proof (near_trading w w4 N4 Hw) as Hw4. destruct (trading_here w4 Hw4) as [Hme4 Htr4].
  assert (slot_items w4 traded_slots l) as Hl4 by (by apply (near_slot_items w w4)). pose proof (near_sym _ _ H4) as Hb.
  destruct (Z.eqb_spec myRes EQUIP_ERR_OK); simpl.
  2: { apply mild_settles; [apply Hw4| |by apply mild_no_room]. eapply (declined_room w4 w3 l me); [done..|by right|by rewrite Em|done]. }
  destruct (Z.eqb_spec hisRes EQUIP_ERR_OK); simpl.
  2: { apply mild_settles; [apply Hw4| |by apply mild_no_room]. eapply (declined_room w4 w3 l trader); [done..|by left|by rewrite Eh|done]. }
  destruct (near_player _ _ _ _ N4 Hpl) as (pl4 & Hpl4 & [= _ Ec _]), (near_player _ _ _ _ N4 Hpl') as (pl4' & Hpl4' & [= _ Ec' _]).
  eapply (execute_settles w4 w pl4 pl4' l); try done; [by rewrite Ec|by rewrite Ec'|by rewrite (near_counter _ _ N4)].
Qed.

(** From the money check on. *)
Definition accept_rest (pl tpl : Player) : iw unit :=
  md ← trade_at my;
  hd ← trade_at his;
  if negb (HasEnoughMoney pl (m_money md)) then notify me LANG_NOT_ENOUGH_GOLD;; SetAccepted my false true
  else if negb (HasEnoughMoney tpl (m_money hd)) then notify trader LANG_NOT_ENOUGH_GOLD;; SetAccepted his false true
  else
    refused ← refused_items E me trader my his traded_slots;
    if refused : bool then mret tt
    else if m_accepted hd then complete_trade E me trader my his
    else SendTradeStatus trader TRADE_STATUS_TRADE_ACCEPT.

Lemma accept_rest_settles w pl pl' pl0 pl0' : trading w → players w !! me = Some pl → players w !! trader = Some pl' →
  Coinage pl0 = Coinage pl → Coinage pl0' = Coinage pl' → m_accepted <$> trades w !! his = Some (m_accepted td') → m_hiItemGuid w + HEADROOM < 2 ^ 32 → settles w (accept_rest pl0 pl0').
Proof.
  intros Hw Hpl Hpl' Ec Ec' Hacc Hhi. destruct (trading_here w Hw) as [Hme Htr]. pose proof (proj1 Hw) as Hok. destruct (trading_offers w Hw) as [Ho Ho'].
  unfold accept_rest. eapply runs_look_bind; [by apply yields_my|]. intros md (Hs & Hc & _).
  eapply runs_look_bind; [by apply yields_his|]. intros hd (Hs' & Hc' & _).
  assert (m_money md = m_money td) as -> by (by injection Hc). assert (m_money hd = m_money td') as -> by (by injection Hc').
  assert (m_accepted hd = m_accepted td') as -> by (destruct Hs' as (_ & Hh & _); rewrite Hh in Hacc; by injection Hacc).
  assert (∀ p t d q text, declined w → here w p → side w p t d q → settles w (notify p text;; SetAccepted t false true)) as Hpoor.
  { intros p t d q text Hwhy Hp Hside. apply mild_settles; [done..|]. eapply mild_bind; [by apply mild_notify|]. intros ? w1 H1.
    destruct (near_side _ _ _ _ _ _ H1 Hside) as (d1 & Hs1 & _). eapply mild_SetAccepted; [by eapply near_ok|exact Hs1]. }
  unfold HasEnoughMoney. destruct (Z.leb_spec (m_money td) (Coinage pl0)); simpl; [|eapply Hpoor; [|done..]; eapply (declined_poor w me td); [by left|done|lia]].
  destruct (Z.leb_spec (m_money td') (Coinage pl0')); simpl; [|eapply Hpoor; [|done..]; eapply (declined_poor w trader td'); [by right|done|lia]].
  destruct (refused_runs traded_slots w Hw traded_range) as (r & w1 & Er & H1 & Hst). simpl in H1, Hst. eapply runs_step; [exact Er|].
  pose proof (near_trading w w1 H1 Hw) as Hw1. destruct (trading_here w1 Hw1) as [Hme1 Htr1]. apply settles_near; [done|].
  destruct r.
  { apply mild_settles; [apply Hw1| |apply mild_ret]. eapply (declined_item w1 w); [by apply near_sym|by rewrite Er]. }
  specialize (Hst eq_refl). destruct (m_accepted td') eqn:Hyes; [|apply mild_settles; [apply Hw1|by apply declined_open|by apply mild_status]].
  destruct (near_player _ _ _ _ H1 Hpl) as (pl1 & Hpl1 & [= _ Ec1 _]), (near_player _ _ _ _ H1 Hpl') as (pl1' & Hpl1' & [= _ Ec1' _]).
  destruct Ho as (_ & Hm & _), Ho' as (_ & Hm' & _). unfold in_u in Hm, Hm'.
  apply (complete_settles w1 pl1 pl1'); [done| |done|done|lia|lia|by rewrite (near_counter _ _ H1)].
  pose proof (near_sym _ _ H1) as Hb.
  intros i Hi. destruct (Hst i Hi) as [R1 R2]. split; intros x Hx.
  - apply (near_stands w w1 _ _ H1), R1. by apply (near_offered E w1 w td td).
  - apply (near_stands w w1 _ _ H1), R2. by apply (near_offered E w1 w td' td').
Qed.

End Sides.

(** [SetAccepted] of one side leaves the other side's answer. *)
Lemma accept_side w p t td q t' td' : server_ok E w → side w p t td q → side w q t' td' p →
  runs w (SetAccepted t true false) (λ _ w', near w w' ∧ m_accepted <$> trades w' !! t' = Some (m_accepted td')).
Proof.
  intros Hw Hs Hs'. destruct (side_partner E w _ _ _ _ Hw Hs) as (Hne & _).
  assert (t ≠ t') as Ht. { intros <-. destruct Hs as (_ & H1 & H2 & _), Hs' as (_ & H1' & H2' & _). congruence. }
  destruct (mild_SetAccepted E w p t td q true false Hw Hs) as ([] & w' & E1 & H1). exists tt, w'. split_and!; [done..|].
  destruct Hs as (_ & Ht1 & _), Hs' as (_ & Ht2 & _). unfold SetAccepted, upd_trade in E1. simpl in E1.
  setoid_rewrite (bind_ret_run _ _ w tt (with_trades (alter (with_m_accepted true) t (trades w)) w)) in E1.
  - injection E1 as <-. simpl. rewrite lookup_alter_ne by done. by rewrite Ht2.
  - destruct (yields_trade w t td Ht1) as (x & Ex & _). by rewrite (bind_ret_run _ _ _ _ _ Ex).
Qed.

(** [me] accepts: the trade goes on, or it is completed. *)
Lemma AcceptTrade_runs w me : server_ok E w → here w me → m_hiItemGuid w + HEADROOM < 2 ^ 32 →
  runs w (HandleAcceptTradeOpcode E me) (λ _ w', kept w w' ∧ (players w !! me ≫= m_trade = None ∧ w' = w ∨
    ∃ trader my his td td', side w me my td trader ∧ side w trader his td' me ∧ decided me trader my his td td' w w')).
Proof.
  intros Hw [pl Hpl] Hhi. unfold HandleAcceptTradeOpcode. eapply runs_look_bind; [by apply yields_pl|]. intros ? ->.
  destruct (m_trade pl) as [my|] eqn:Hmy; [|apply runs_ret; split; [by apply near_kept|left; by rewrite Hpl]].
  destruct (tr_side w (proj2 Hw) me pl my Hpl Hmy) as (td & trader & Hs & _).
  destruct (side_partner E w me my td trader Hw Hs) as (Hne & _ & his & td' & Hs' & _).
  eapply runs_look_bind; [by eapply yields_td|]. intros ? ->. pose proof Hs as (_ & _ & _ & ->). cbv zeta.
  pose proof Hs' as ((pl' & Hpl' & Hhis) & _). eapply runs_look_bind; [by apply yields_pl|]. intros ? ->. rewrite Hhis.
  eapply runs_bind; [by eapply accept_side|]. intros ? w1 [H1 Hacc]. simpl in H1, Hacc.
  assert (trading me trader my his td td' w) as Htr by (split; [done|]; by exists td, td').
  destruct (near_player _ _ _ _ H1 Hpl) as (pl1 & Hpl1 & [= _ Ec1 _]), (near_player _ _ _ _ H1 Hpl') as (pl1' & Hpl1' & [= _ Ec1' _]).
  eapply runs_mono; [apply (settles_near me trader my his td td' w w1 _ H1), (accept_rest_settles me trader my his td td' w1 pl1 pl1')|].
  - by eapply near_trading.
  - done.
  - done.
  - done.
  - done.
  - done.
  - by rewrite (near_counter _ _ H1).
  - intros ? w' [Hk Hd]. split; [exact Hk|]. right. by exists trader, my, his, td, td'.
Qed.

End Accept.
