(* ===== verification/TradeOffers.v ===== *)
(** * TradeOffers: who changes an offer takes back both acceptances

    [SetTradeMoney], [SetItem] and [SetSpell] leave the trade as it was, or not accepted by
    either side. *)

From Stdlib Require Import ZArith Lia.
From S2P Require Import Prelude ByteBuffer Guid ItemData Inventory InventoryStore Trade.
From S2P Require Import ItemFacts ItemRun TradeInv TradeRun.
Local Open Scope Z_scope.

(** Neither side has accepted. *)
Definition unaccepted (w : World) (t t' : Z) : Prop :=
  ∀ x, x = t ∨ x = t' → ∃ td, trades w !! x = Some td ∧ m_accepted td = false.

Lemma unaccepted_sym w t t' : unaccepted w t t' → unaccepted w t' t.
Proof. intros H x [->| ->]; apply H; auto. Qed.

Lemma unaccepted_same w w' t t' : trades w' = trades w → unaccepted w t t' → unaccepted w' t t'.
Proof. unfold unaccepted. by intros ->. Qed.

Section Offers.
Context (E : IEnv).

Lemma reset_runs w p t td q cross : server_ok E w → side w p t td q →
  runs w (SetAccepted t false cross) (λ _ w', near w w' ∧ trades w' = alter (with_m_accepted false) t (trades w)).
Proof.
  intros Hw Hs. assert (near w (with_trades (alter (with_m_accepted false) t (trades w)) w)) as Hn.
  { destruct (mild_upd_trade w t (with_m_accepted false)) as (x & w1 & H1 & Hn); [by eapply side_open|done|].
    destruct (runs_upd_trade w t (with_m_accepted false) (λ _ w', w' = with_trades (alter (with_m_accepted false) t (trades w)) w))
      as (y & w2 & H2 & ->); [by eapply side_open|done|]. congruence. }
  eapply runs_bind; [by apply (runs_upd_trade _ _ _ (λ _ w', w' = with_trades (alter (with_m_accepted false) t (trades w)) w)); [eapply side_open|]|].
  intros ? w1 ->. destruct (near_side _ _ _ _ _ _ Hn Hs) as (td1 & Hs1 & _). pose proof (near_ok E _ _ Hn Hw) as Hw1. simpl.
  eapply runs_look_bind; [by eapply yields_td|]. intros ? ->.
  destruct (side_partner E _ p t td1 q Hw1 Hs1) as (_ & _ & t' & td' & Hs' & _). pose proof Hs1 as (_ & _ & Hm & Hr).
  eapply runs_mono; [apply quiet_send; destruct cross; [rewrite Hr|rewrite Hm]; by eapply side_here|].
  intros ? w2 H2. simpl in H2. split; [eapply near_trans; [exact Hn|by apply equiv_near]|]. by apply equiv_others in H2 as [-> _].
Qed.

Lemma side_fun w p t t' td td' q q' : side w p t td q → side w p t' td' q' → t' = t.
Proof. intros ((pl & H1 & H2) & _) ((pl' & H3 & H4) & _). congruence. Qed.

Section Sides.
Context (p t q t' : Z).

(** The two sides, whatever they offer. *)
Definition sides (w : World) : Prop := server_ok E w ∧ ∃ td td', side w p t td q ∧ side w q t' td' p.

Lemma sides_near w w' : near w w' → sides w → sides w'.
Proof.
  intros Hn (Hw & td & td' & Hs & Hs'). split; [by eapply near_ok|].
  destruct (near_side _ _ _ _ _ _ Hn Hs) as (a & ? & _), (near_side _ _ _ _ _ _ Hn Hs') as (b & ? & _). by exists a, b.
Qed.

Lemma unaccept_runs w : sides w → runs w (unaccept_both t) (λ _ w', near w w' ∧ unaccepted w' t t').
Proof.
  intros (Hw & td & td' & Hs & Hs'). eapply runs_bind; [by eapply reset_runs|]. intros ? w1 [H1 Ht1].
  pose proof (near_ok E _ _ H1 Hw) as Hw1. destruct (near_side _ _ _ _ _ _ H1 Hs) as (td1 & Hs1 & _), (near_side _ _ _ _ _ _ H1 Hs') as (td1' & Hs1' & _).
  eapply runs_look_bind; [by eapply yields_td|]. intros ? ->.
  eapply runs_look_bind; [by eapply yields_trader|]. intros o (t2 & td2 & -> & Hs2). rewrite (side_fun _ _ _ _ _ _ _ _ Hs1' Hs2) in *.
  eapply runs_look_bind; [by apply (yields_option _ _ t' (λ x, x = t'))|]. intros ? ->.
  eapply runs_mono; [by eapply reset_runs|]. intros ? w2 [H2 Ht2]. split; [by eapply near_trans|].
  assert (∀ z u, trades w !! z = Some u → z = t ∨ z = t' → ∃ td, trades w2 !! z = Some td ∧ m_accepted td = false) as Hz.
  { intros z u Hu Hor. rewrite Ht2, Ht1. destruct (decide (t' = z)) as [->|]; [rewrite lookup_alter_eq|rewrite lookup_alter_ne by done].
    - destruct (decide (t = z)) as [->|]; [rewrite lookup_alter_eq|rewrite lookup_alter_ne by done]; rewrite Hu; by eexists.
    - assert (z = t) as -> by naive_solver. rewrite lookup_alter_eq, Hu. by eexists. }
  intros z [->| ->]; (eapply Hz; [|by auto]); [apply Hs|apply Hs'].
Qed.

Lemma Update_keeps w td0 b : sides w → m_player td0 = p → m_trader td0 = q →
  runs w (Update E td0 b) (λ _ w', near w w' ∧ trades w' = trades w).
Proof.
  intros (Hw & td & td' & Hs & Hs') Hm Hr. eapply runs_mono; [by apply (quiet_Update E w p t td td0 q b)|]. intros ? w' H. simpl in H.
  split; [by apply equiv_near|]. by apply equiv_others in H as [? _].
Qed.

Lemma SetSpell_runs w spell o : sides w → (∀ a, o = Some a → live w a) →
  runs w (SetSpell E t spell o) (λ _ w', near w w' ∧ (trades w' = trades w ∨ unaccepted w' t t')).
Proof.
  intros Hsd Ho. pose proof Hsd as (Hw & td & td' & Hs & Hs'). eapply runs_look_bind; [by apply yields_guid_of|]. intros g _.
  eapply runs_look_bind; [by eapply yields_td|]. intros ? ->. case_match; [apply runs_ret; split; [done|by left]|].
  pose proof Hs as (_ & _ & Hm & Hr).
  eapply mild_then; [apply mild_upd_trade; [by eapply side_open|done]|]. intros ? w1 H1.
  eapply runs_bind; [by eapply unaccept_runs, sides_near|]. intros ? w2 [H2 U2]. pose proof (near_trans _ _ _ H1 H2) as N2.
  eapply runs_bind; [apply Update_keeps; [by eapply sides_near|done..]|]. intros ? w3 [H3 T3]. pose proof (near_trans _ _ _ N2 H3) as N3.
  eapply runs_mono; [apply Update_keeps; [by eapply sides_near|done..]|]. intros ? w4 [H4 T4].
  split; [by eapply near_trans|]. right. apply (unaccepted_same w3); [done|]. by apply (unaccepted_same w2).
Qed.

(** The offer itself changes. *)
Lemma reoffered_sides w td f : sides w → side w p t td q → (∀ td, m_player (f td) = m_player td ∧ m_trader (f td) = m_trader td) →
  offer_ok (f td) → sides (reoffered t f w).
Proof.
  intros (Hw & td0 & td' & Hs0 & Hs') Hs Hf Ho. split; [by eapply reoffered_ok|]. eexists _, _. split; by apply reoffered_side.
Qed.

Lemma SetTradeMoney_runs w money : sides w → in_u 32 money →
  runs w (SetTradeMoney E t money) (λ _ w', trades w' = trades w ∨ unaccepted w' t t').
Proof.
  intros Hsd Hm. pose proof Hsd as (Hw & td & td' & Hs & Hs'). destruct (side_partner E w p t td q Hw Hs) as (_ & Ho & _).
  pose proof Hs as (_ & _ & Em & Er). eapply runs_look_bind; [by eapply yields_td|]. intros ? ->. case_match; [apply runs_ret; by left|].
  eapply runs_bind; [by apply (runs_upd_trade _ _ _ (λ _ w', w' = reoffered t (with_m_money money) w)); [eapply side_open|]|]. intros ? w1 ->.
  eapply runs_bind; [apply unaccept_runs; eapply reoffered_sides; [done..|by apply offer_money]|]. intros ? w2 [H2 U2].
  eapply runs_mono; [apply Update_keeps; [eapply sides_near; [done|]; eapply reoffered_sides; [done..|by apply offer_money]|done..]|].
  intros ? w3 [_ T3]. right. by apply (unaccepted_same w2).
Qed.
End Sides.

Lemma sides_sym p t q t' w : sides p t q t' w → sides q t' p t w.
Proof. intros (Hw & td & td' & Hs & Hs'). split; [done|]. by exists td', td. Qed.

Lemma SetItem_runs p t q t' w td i o : sides p t q t' w → side w p t td q → 0 ≤ i < TRADE_SLOT_COUNT →
  (∀ a, o = Some a → ∃ it, items w !! a = Some it ∧ i_guid it ∉ t_items td) →
  runs w (SetItem E t i o) (λ _ w', trades w' = trades w ∨ unaccepted w' t t').
Proof.
  intros Hsd Hs Hi Ha. pose proof (proj1 Hsd) as Hw. destruct (side_partner E w p t td q Hw Hs) as (_ & Ho & _). pose proof Hs as (_ & _ & Em & Er).
  pose proof Ho as (Hl & _). eapply runs_look_bind with (P := λ g, g = 0 ∨ g ∉ t_items td).
  { destruct o as [a|]; [|apply yields_ret; by left]. destruct (Ha a eq_refl) as (it & Hit & Hg).
    eapply yields_bind; [by apply yields_here_item|]. intros ? ->. apply yields_ret. by right. }
  intros g Hg. eapply runs_look_bind; [by eapply yields_td|]. intros ? ->.
  destruct (lookup_range (t_items td) i 7 Hl) as [old Hold]; [slot_lia|].
  eapply runs_look_bind; [by apply (yields_elem _ _ _ old (λ x, x = old))|]. intros ? ->. case_match; [apply runs_ret; by left|].
  eapply runs_bind; [by apply (runs_upd_trade _ _ _ (λ _ w', w' = reoffered t (λ td, with_t_items (<[Z.to_nat i := g]> (t_items td)) td) w)); [eapply side_open|]|].
  intros ? w1 ->. set (w1 := reoffered _ _ w). assert (sides p t q t' w1) as Hsd1 by (eapply reoffered_sides; [done..|by apply offer_item]).
  eapply runs_bind; [by eapply unaccept_runs|]. intros ? w2 [H2 U2]. pose proof (sides_near _ _ _ _ _ _ H2 Hsd1) as Hsd2.
  eapply runs_bind; [by eapply Update_keeps|]. intros ? w3 [H3 T3]. pose proof (sides_near _ _ _ _ _ _ H3 Hsd2) as Hsd3.
  apply (unaccepted_same _ w3) in U2; [|done].
  assert (∀ w4, near w3 w4 → unaccepted w4 t t' → runs w4 (SetSpell E t 0 None) (λ _ w', trades w' = trades w ∨ unaccepted w' t t')) as Hlast.
  { intros w4 H4 U4. eapply runs_mono; [by eapply SetSpell_runs; [eapply sides_near|]|]. intros ? w5 [_ [T5|U5]]; right; [by apply (unaccepted_same w4)|done]. }
  destruct (i =? TRADE_SLOT_NONTRADED); [|eapply runs_look_bind; [by apply (yields_ret _ _ (λ _, True))|]; intros ? _; by apply Hlast].
  pose proof Hsd3 as (Hw3 & td3 & td3' & Hs3 & Hs3').
  assert (GetTraderData td = GetTraderData td3) as -> by (unfold GetTraderData; destruct Hs3 as (_ & _ & _ & ->); by rewrite Er).
  eapply runs_bind with (P := λ _ w', near w3 w' ∧ unaccepted w' t t'); [|by intros ? w4 [? ?]; apply Hlast].
  eapply runs_look_bind; [by eapply yields_trader|]. intros o' (t2 & td2 & -> & Hs2). rewrite (side_fun _ _ _ _ _ _ _ _ Hs3' Hs2).
  eapply runs_look_bind; [by apply (yields_option _ _ t' (λ x, x = t'))|]. intros ? ->.
  eapply runs_mono; [eapply (SetSpell_runs q t' p t); [by apply sides_sym|done]|]. intros ? w4 [H4 [T4|U4]]; (split; [done|]).
  - by apply (unaccepted_same w3).
  - by apply unaccepted_sym.
Qed.

End Offers.
