(* ===== verification/TradeSafety.v ===== *)
(** * TradeSafety: trading as a state machine

    The requests of players who trade, as steps of the server; and a check that decides the
    invariant of a given state. *)

From Stdlib Require Import ZArith Lia.
From S2P Require Import Prelude ByteBuffer ByteBufferFacts Packets Guid ItemData Inventory InventoryStore Trade.
From S2P Require Import ItemFacts ItemRun PlanFacts StoreFacts StoreSpec Stock TradeInv TradeMoves TradeRun TradeAccept.
Local Open Scope Z_scope.

(** ** Requests *)

(** The opcodes of a trade, and a spell cast on the item that is not traded. *)
Inductive trade_request :=
| CMSG_INITIATE_TRADE (recv : ByteBuffer)
| CMSG_BEGIN_TRADE
| CMSG_SET_TRADE_GOLD (recv : ByteBuffer)
| CMSG_SET_TRADE_ITEM (recv : ByteBuffer)
| CMSG_CLEAR_TRADE_ITEM (recv : ByteBuffer)
| CMSG_ACCEPT_TRADE
| CMSG_UNACCEPT_TRADE
| CMSG_CANCEL_TRADE
| CastOnTradeSlot (spell : Z) (castItem : option Z).

Section Server.
Context (E : IEnv).

Definition serve (me : Z) (r : trade_request) : iw unit :=
  match r with
  | CMSG_INITIATE_TRADE recv => HandleInitiateTradeOpcode E me recv
  | CMSG_BEGIN_TRADE => HandleBeginTradeOpcode me
  | CMSG_SET_TRADE_GOLD recv => HandleSetTradeGoldOpcode E me recv
  | CMSG_SET_TRADE_ITEM recv => HandleSetTradeItemOpcode E me recv
  | CMSG_CLEAR_TRADE_ITEM recv => HandleClearTradeItemOpcode E me recv
  | CMSG_ACCEPT_TRADE => HandleAcceptTradeOpcode E me
  | CMSG_UNACCEPT_TRADE => HandleUnacceptTradeOpcode me
  | CMSG_CANCEL_TRADE => HandleCancelTradeOpcode E me
  | CastOnTradeSlot spell castItem => cast_on_trade_slot E me spell castItem
  end.

(** The player is there, the item he casts with too, and item guids are left. *)
Definition allowed (w : World) (me : Z) (r : trade_request) : Prop :=
  here w me ∧ m_hiItemGuid w + HEADROOM < 2 ^ 32 ∧
  match r with
  | CMSG_INITIATE_TRADE recv | CMSG_SET_TRADE_GOLD recv | CMSG_SET_TRADE_ITEM recv | CMSG_CLEAR_TRADE_ITEM recv => packet_ok recv
  | CastOnTradeSlot _ (Some a) => live w a
  | _ => True
  end.

Inductive trade_step : World → World → Prop :=
| step_trade w me r : allowed w me r → trade_step w (serve me r w).2.

Lemma request_served w me r : memory_ok E → server_ok E w → allowed w me r → served E w (serve me r).
Proof.
  intros Hmem Hw (Hme & Hhi & Hr). destruct r as [recv| |recv|recv|recv| | | |spell o]; simpl.
  - by apply InitiateTrade_served.
  - by apply BeginTrade_served.
  - by apply SetTradeGold_served.
  - by apply SetTradeItem_served.
  - by apply ClearTradeItem_served.
  - eapply runs_mono; [by apply AcceptTrade_runs|]. by intros ? ? [? _].
  - by apply Unaccept_served.
  - by apply TradeCancel_served.
  - apply cast_served; [done..|]. by intros a ->.
Qed.

Lemma trade_step_ok w w' : memory_ok E → server_ok E w → trade_step w w' → server_ok E w'.
Proof. intros Hmem Hw H. destruct H as [w me r Hr]. by destruct (request_served w me r Hmem Hw Hr) as (? & ? & -> & ? & _). Qed.

Lemma steps_ok w w' : memory_ok E → rtc trade_step w w' → server_ok E w → server_ok E w'.
Proof. intros Hmem. induction 1; [done|]. intros Hw. by apply IHrtc, (trade_step_ok x). Qed.

(** Each request in the state that the earlier ones left. *)
Definition run (w : World) (rs : list (Z * trade_request)) : World := foldl (λ w r, (serve r.1 r.2 w).2) w rs.

#[export] Instance allowed_dec w me r : Decision (allowed w me r).
Proof. unfold allowed, here, live, packet_ok, valid, in_u. destruct r as [| | | | | | | |? []]; apply _. Defined.

Fixpoint all_allowed (w : World) (rs : list (Z * trade_request)) : bool :=
  match rs with
  | [] => true
  | r :: rs => bool_decide (allowed w r.1 r.2) && all_allowed (serve r.1 r.2 w).2 rs
  end.

Lemma run_steps rs : ∀ w, all_allowed w rs = true → rtc trade_step w (run w rs).
Proof.
  induction rs as [|[me r] rs IH]; intros w; simpl; [done|]. intros [Hr Hrs]%andb_prop.
  apply bool_decide_eq_true in Hr. eapply rtc_l; [by apply step_trade|by apply IH].
Qed.

(** ** Deciding the invariant *)

Definition good_b (it : Item) : bool :=
  match GetItemTemplate E (Entry it) with
  | Some t => (ItemId t =? Entry it) && (0 <? Count it) && (Count it <=? GetMaxStackSize t) &&
      bool_decide (- 2 ^ 31 ≤ Stackable t < 2 ^ 31) && bool_decide (length (Enchantments it) = Z.to_nat MAX_ENCHANTMENT_SLOT) &&
      (negb (InventoryType t =? INVTYPE_BAG) ||
        bool_decide (length (m_bagslot it) = Z.to_nat MAX_BAG_SIZE ∧ NumSlots it = ContainerSlots t ∧ 0 ≤ ContainerSlots t ≤ MAX_BAG_SIZE))
  | None => false
  end.

Lemma good_b_good it : good_b it = true → ∃ t, good E it t.
Proof.
  unfold good_b. destruct (GetItemTemplate E (Entry it)) as [t|] eqn:Ht; [|done].
  intros [[[[[H1%Z.eqb_eq H2%Z.ltb_lt]%andb_prop H3%Z.leb_le]%andb_prop H4%bool_decide_eq_true]%andb_prop H5%bool_decide_eq_true]%andb_prop H6]%andb_prop.
  exists t. split; try done. intros Hb. rewrite (proj2 (Z.eqb_eq _ _) Hb) in H6. by apply bool_decide_eq_true in H6.
Qed.

Definition place_b (w : World) (p x : Z) : bool :=
  match at_pos E w p (pos_bag x) (pos_slot x) with
  | None => true
  | Some a => match items w !! a with
    | Some it => (Owner it =? p) && (m_slot it =? pos_slot x) && bool_decide (m_container it = container_at E w p (pos_bag x))
    | None => false
    end
  end.

Definition player_b (w : World) (p : Z) (pl : Player) : bool :=
  bool_decide (length (m_items pl) = Z.to_nat PLAYER_SLOT_END) && forallb (place_b w p) places &&
  forallb (λ b, match own_at pl b with Some a => match items w !! a with Some it => is_bag E it | None => false end | None => true end) bag_slots.

Definition guid_b (w : World) (it : Item) : bool :=
  (i_guid it =? MAKE_NEW_GUID (GUID_LOPART (i_guid it)) 0 HIGHGUID_ITEM) && (0 <=? GUID_LOPART (i_guid it)) && (GUID_LOPART (i_guid it) <? m_hiItemGuid w).

Definition inv_b (w : World) : bool :=
  bool_decide (map_Forall (λ a it, good_b it = true ∧ guid_b w it = true) (items w)) &&
  bool_decide (map_Forall (λ p pl, player_b w p pl = true) (players w)) &&
  bool_decide (0 ≤ m_hiItemGuid w < 2 ^ 32) &&
  bool_decide (NoDup (i_guid <$> (map_to_list (items w)).*2)).

Lemma forallb_elem {A} (f : A → bool) l x : forallb f l = true → x ∈ l → f x = true.
Proof. rewrite forallb_forall. intros H Hx. by apply H, list_elem_of_In. Qed.

Lemma unique_guid (m : gmap Z Item) a b it it' : NoDup (i_guid <$> (map_to_list m).*2) → m !! a = Some it → m !! b = Some it' →
  i_guid it = i_guid it' → a = b.
Proof.
  intros Hnd Ha%elem_of_map_to_list Hb%elem_of_map_to_list Hg. rewrite <- list_fmap_compose in Hnd.
  apply list_elem_of_lookup in Ha as [i Hi], Hb as [j Hj].
  assert (i = j) as ->; [|congruence]. eapply (NoDup_lookup _ i j (i_guid it) Hnd); rewrite list_lookup_fmap.
  - by rewrite Hi.
  - by rewrite Hj, Hg.
Qed.

Lemma inv_b_ok w : inv_b w = true → inv_ok E w.
Proof.
  intros [[[Hi%bool_decide_eq_true Hp%bool_decide_eq_true]%andb_prop Hc%bool_decide_eq_true]%andb_prop Hu%bool_decide_eq_true]%andb_prop.
  assert (∀ a it, items w !! a = Some it → ∃ t, good E it t) as Hgood by (intros a it Ha; by apply good_b_good, (Hi a it)).
  assert (∀ p pl, players w !! p = Some pl → length (m_items pl) = Z.to_nat PLAYER_SLOT_END ∧ (∀ x, x ∈ places → place_b w p x = true) ∧
    ∀ b a, b ∈ bag_slots → own_at pl b = Some a → ∃ it, items w !! a = Some it ∧ is_bag E it = true) as Hpl.
  { intros p pl H. pose proof (Hp p pl H) as Hb. apply andb_prop in Hb as [[H1%bool_decide_eq_true H2]%andb_prop H3].
    split_and!; [done|intros x Hx; by eapply forallb_elem|]. intros b a Hb Ha. pose proof (forallb_elem _ _ b H3 Hb) as Hf. simpl in Hf.
    rewrite Ha in Hf. destruct (items w !! a) as [it|]; [|done]. by exists it. }
  split.
  - intros p pl H. by apply (Hpl p pl H).
  - done.
  - intros p pl slot a H Hs Ha. destruct (Hpl p pl H) as (_ & _ & Hbag). by apply (Hbag slot a); [apply is_bag_slot_elem|].
  - intros p bag slot a Hs Ha. assert (pos_of bag slot ∈ places ∧ byte_pos bag slot ∧ here w p) as (Hin & [Hbb Hss] & [pl Hh]).
    { unfold at_pos in Ha. destruct ((bag =? INVENTORY_SLOT_BAG_0) && in_own_array slot) eqn:Hc1.
      - apply andb_prop in Hc1 as [->%Z.eqb_eq Ho]. apply bind_Some in Ha as (pl & Hpl0 & _). split_and!; [by apply own_in_places| |by exists pl].
        split; [slot_lia|]. unfold in_own_array in Ho. slot_lia.
      - apply bind_Some in Ha as (b & Hb & Ha). pose proof Hb as Hb2. unfold bag_at in Hb. destruct (is_bag_slot bag) eqn:Hbag; [|done].
        apply bind_Some in Hb as (pl & Hpl0 & Hb). destruct (bag_at_here E w p bag b Hb2) as (bi & Hbi & Hib).
        destruct (Hgood b bi Hbi) as [t Ht]. destruct (is_bag_good E bi t Ht Hib) as (_ & _ & Hn).
        unfold in_bag in Ha. rewrite Hbi in Ha. simpl in Ha. destruct (Z.ltb_spec slot (NumSlots bi)); [|done].
        split_and!; [apply bag_in_places; [done|slot_lia]| |by exists pl]. destruct (bag_slot_range bag Hbag) as [? _]. split; slot_lia. }
    destruct (Hpl p pl Hh) as (_ & Hplace & _). pose proof (Hplace _ Hin) as Hb. unfold place_b in Hb.
    rewrite pos_of_bag, pos_of_slot, Ha in Hb by lia. destruct (items w !! a) as [it|]; [|done]. exists it.
    apply andb_prop in Hb as [[H1%Z.eqb_eq H2%Z.eqb_eq]%andb_prop H3%bool_decide_eq_true]. done.
  - done.
  - intros a it Ha. destruct (Hi a it Ha) as [_ Hg]. apply andb_prop in Hg as [[H1%Z.eqb_eq H2%Z.leb_le]%andb_prop H3%Z.ltb_lt].
    exists (GUID_LOPART (i_guid it)). done.
  - intros a b it it' Ha Hb Hg. by eapply unique_guid.
Qed.

(** Nobody trades, nobody is too rich. *)
Definition idle_b (w : World) : bool :=
  bool_decide (map_Forall (λ _ pl, m_trade pl = None ∧ 0 ≤ Coinage pl ≤ MAX_MONEY_AMOUNT) (players w)).

Lemma idle_b_ok w : inv_b w = true → idle_b w = true → server_ok E w.
Proof.
  intros Hi%inv_b_ok Ht%bool_decide_eq_true. split; [done|]. split; [|intros p pl Hp; by apply (Ht p pl)].
  intros p pl t Hp Hpt. destruct (Ht p pl Hp). congruence.
Qed.

End Server.
