(* ===== verification/TradeDemo.v ===== *)
(** * TradeDemo: a small server to run the witnesses on

    Two players, one of whom has a bag. *)

From Stdlib Require Import ZArith Lia.
From S2P Require Import Prelude ByteBuffer ByteBufferFacts Packets Guid ItemData Inventory InventoryStore Trade.
From S2P Require Import ItemFacts StoreFacts Stock TradeInv TradeAccept TradeSafety.
Local Open Scope Z_scope.

(** ** A small server *)

(** A sword, of which a player may have two, arrows that stack to 20, an axe and a bag. *)
Definition demo_template (e class invtype maxc stack bagslots : Z) : ItemTemplate :=
  mkTemplate e class 0 0 0 invtype maxc stack bagslots 0 0 0 0 0 0 0 0 [0; 0; 0; 0; 0] 0.

Definition demo_templates (e : Z) : option ItemTemplate :=
  if e =? 1 then Some (demo_template 1 2 0 2 1 0)
  else if e =? 2 then Some (demo_template 2 6 0 0 20 0)
  else if e =? 3 then Some (demo_template 3 2 0 0 1 0)
  else if e =? 4 then Some (demo_template 4 1 INVTYPE_BAG 0 1 4)
  else None.

(** Everybody is alive, near and of the same level; [memory] is what new memory holds. *)
Definition demo_env (memory : list Z) : IEnv := {|
  GetItemTemplate := demo_templates;
  sItemLimitCategoryStore := λ _, None; sSpellItemEnchantmentStore := λ _, None;
  sItemRandomPropertiesStore := λ _, None; sItemRandomSuffixStore := λ _, None; GenerateEnchSuffixFactor := λ _, 0;
  isInCombat := λ _, false; inRunningArena := λ _, false; isAlive := λ _, true; isStunned := λ _, false; isInFlight := λ _, false;
  isLogingOut := λ _, false; loggedOutOrRecently := λ _, false; getLevel := λ _, 80; GetTeam := λ _, 0; GetSecurity := λ _, 0;
  GetTotalPlayedTime := λ _, 0; HasIgnore := λ _ _, false; IsWithinTradeDist := λ _ _, true; CONFIG_TRADE_LEVEL_REQ := 1;
  CONFIG_ALLOW_TWO_SIDE_TRADE := true; HasSpellInfo := λ _, false; CheckCast := λ _ _ _ _, 0; uninitialised := λ _, (0, memory) |}.

Definition demo_item (low e owner count slot : Z) (container : option Z) (bagslots : Z) (inside : list (option Z)) : Item :=
  mkItem (MAKE_NEW_GUID low 0 HIGHGUID_ITEM) e owner owner 0 0 count 0 0 0 0 0 0 0 [0; 0; 0; 0; 0] (replicate 12 (0, 0, 0))
    false slot container ITEM_UNCHANGED false 0 0 0 [] bagslots [] inside.

Definition put_in (n : nat) (l : list (Z * Z)) : list (option Z) := foldr (λ x m, <[Z.to_nat x.1 := Some x.2]> m) (replicate n None) l.

Definition demo_player (l : list (Z * Z)) (money : Z) : Player := mkPlayer (put_in 150 l) (replicate 150 0) money true [] ∅ 0 None.

(** 7 has two swords, 15 arrows and, in a bag, 5 arrows; 8 has a sword, 10 arrows and an axe. *)
Definition demo_world : World := mkWorld
  (list_to_map [(1, demo_item 101 1 7 1 23 None 0 []); (2, demo_item 102 1 7 1 24 None 0 []); (3, demo_item 103 2 7 15 25 None 0 []);
    (4, demo_item 104 4 7 1 19 None 4 (put_in 36 [(0, 5)])); (5, demo_item 105 2 7 5 0 (Some 4) 0 []);
    (11, demo_item 111 1 8 1 23 None 0 []); (12, demo_item 112 2 8 10 24 None 0 []); (13, demo_item 113 3 8 1 25 None 0 [])])
  (list_to_map [(7, demo_player [(19, 4); (23, 1); (24, 2); (25, 3)] 1000); (8, demo_player [(23, 11); (24, 12); (25, 13)] 500)])
  ∅ 1000 [].

Abbreviation quiet_memory := (demo_env []).

Lemma demo_world_ok memory : server_ok (demo_env memory) demo_world.
Proof. apply idle_b_ok; by vm_compute. Qed.

Lemma demo_memory_ok : memory_ok quiet_memory.
Proof. by intros w i j g H. Qed.

Definition initiate (p : Z) : trade_request := CMSG_INITIATE_TRADE (pack (put_u64 p)).
Definition gold (n : Z) : trade_request := CMSG_SET_TRADE_GOLD (pack (put_u32 n)).
Definition offer (i bag slot : Z) : trade_request := CMSG_SET_TRADE_ITEM (pack (put_u8 i;; put_u8 bag;; put_u8 slot)).

(** 7 offers his arrows and 100 copper for the axe, and accepts. *)
Definition demo_offers : list (Z * trade_request) :=
  [(7, initiate 8); (8, CMSG_BEGIN_TRADE); (7, offer 0 255 25); (8, offer 0 255 25); (7, gold 100); (7, CMSG_ACCEPT_TRADE)].

Definition demo_trade : World := run quiet_memory demo_world demo_offers.

Lemma demo_trade_steps : rtc (trade_step quiet_memory) demo_world demo_trade.
Proof. apply run_steps. by vm_compute. Qed.

Lemma demo_trade_ok : server_ok quiet_memory demo_trade.
Proof. eapply steps_ok; [exact demo_memory_ok|exact demo_trade_steps|apply demo_world_ok]. Qed.

(** Someone holds 12 arrows out: an item whose owner is not there. *)
Definition demo_loose : World := with_items (<[20 := demo_item 120 2 9 12 0 None 0 []]> (items demo_world)) demo_world.

Lemma owner_gone E w a it : inv_ok E w → items w !! a = Some it → players w !! Owner it = None → loose E w a.
Proof.
  intros Hw Ha Hn. split; [by exists it|]. intros p bag slot Hs Hat.
  destruct (ok_place E w Hw p bag slot a Hs Hat) as (it' & Ha' & Ho & _). assert (it' = it) as -> by congruence. rewrite Ho in Hn.
  unfold at_pos, bag_at in Hat. rewrite Hn in Hat. simpl in Hat. by repeat case_match.
Qed.
