(* ===== verification/ItemProps.v ===== *)
(** * ItemProps: what inventories promise

    The theorems about finding, storing and taking out items. *)

From Stdlib Require Import ZArith Lia.
From S2P Require Import Prelude ByteBuffer Guid ItemData Inventory InventoryStore Trade.
From S2P Require Import ItemFacts ItemRun PlanFacts StoreFacts StoreRun StoreSpec ItemMoves Stock ItemReads.
From S2P Require Import TradeInv TradeMoves TradeSafety TradeDemo.
Local Open Scope Z_scope.

(** ** Storing *)

(** The plan of an accepted item, carried out. *)
Lemma store_planned E w p a it dest : inv_ok E w → here w p → items w !! a = Some it → loose E w a → m_hiItemGuid w + PLACES < 2 ^ 32 →
  (∃ t, good E it t ∧ growing E w p t (Some a) [] (Count it) (dest, 0)) →
  ∃ w', MoveItemToInventory E p dest a true true w = (Ret tt, w') ∧ inv_ok E w' ∧
    ∀ q e, stock E w' q e = stock E w q e + (if (q =? p) && (Entry it =? e) then Count it else 0).
Proof.
  intros Hw Hp Ha Hl Hhi (t & Ht & Hg). destruct (growing_ok E w p t (Some a) (Count it) dest Hg) as [Hpl Hn].
  pose proof (good_count E it t Ht) as Hc. assert (dest ≠ []) as Hd by (intros ->; unfold planned in Hn; simpl in Hn; lia).
  pose proof (plan_storable E w p t a it dest Hw Hl Ht Hpl) as Hst. pose proof (storable_length E w p _ dest Hw Hst) as Hlen. unfold PLACES in *.
  destruct (MoveItemToInventory_runs E w p t a it dest true true) as ([] & w' & Hr & F & _); try done; [lia|].
  exists w'. split_and!; [done|apply F|]. assert (∀ x, x = a → loose E w x) as Hgone by (by intros x ->).
  intros q e. destruct (Z.eqb_spec q p) as [->|Hq]; simpl.
  - rewrite (stock_filled E w w' p _ dest _ Hw F Hgone e) by (apply Hpl || apply Hst). rewrite (added_planned E w p t a it) by done. by rewrite Hn.
  - rewrite (stock_other E w w' p _ dest _ Hw F Hgone q e Hq). lia.
Qed.

(** C14. [CanStoreItem] never faults and changes nothing; and what it accepts is stored whole:
    [MoveItemToInventory] with its plan makes the player's stock grow by the count of the
    item, of that kind of item only, and leaves what everybody else has alone. *)
Theorem accepted_item_is_stored E w p a it bag slot : inv_ok E w → here w p → items w !! a = Some it → loose E w a →
  0 ≤ bag < 256 → 0 ≤ slot < 256 → (bag = INVENTORY_SLOT_BAG_0 → is_bag_slot slot = false) → m_hiItemGuid w + PLACES < 2 ^ 32 →
  ∃ sr, CanStoreItem_item E p bag slot [] (Some a) false w = (Ret sr, w) ∧
    (sr_res sr = EQUIP_ERR_OK → ∃ w', MoveItemToInventory E p (sr_dest sr) a true true w = (Ret tt, w') ∧ inv_ok E w' ∧
      ∀ q e, stock E w' q e = stock E w q e + (if (q =? p) && (Entry it =? e) then Count it else 0)).
Proof.
  intros Hw Hp Ha Hl Hb Hs Hns Hhi. destruct (ok_item E w Hw a it Ha) as [t Ht].
  destruct (yields_CanStoreItem E w p bag slot [] a it t) as (sr & Hr & _ & Hok); try done.
  exists sr. split; [done|]. intros He. apply store_planned; try done. exists t. auto.
Qed.

Lemma accepted_item_is_stored_witness : ∃ sr, CanStoreItem_item quiet_memory 8 NULL_BAG NULL_SLOT [] (Some 20) false demo_loose = (Ret sr, demo_loose) ∧
  (sr_res sr = EQUIP_ERR_OK → ∃ w', MoveItemToInventory quiet_memory 8 (sr_dest sr) 20 true true demo_loose = (Ret tt, w') ∧ inv_ok quiet_memory w' ∧
    ∀ q e, stock quiet_memory w' q e = stock quiet_memory demo_loose q e + (if (q =? 8) && (2 =? e) then 12 else 0)).
Proof.
  assert (inv_ok quiet_memory demo_loose) as Hw by (apply inv_b_ok; by vm_compute).
  apply (accepted_item_is_stored quiet_memory demo_loose 8 20 (demo_item 120 2 9 12 0 None 0 [])); [done|..].
  - apply (bool_decide_unpack _). by vm_compute.
  - by vm_compute.
  - eapply owner_gone; [done|by vm_compute|by vm_compute].
  - done.
  - done.
  - by vm_compute.
  - by vm_compute.
Defined.

Example demo_loose_accepted : (λ sr, (sr_res sr, sr_dest sr)) <$>
  match (CanStoreItem_item quiet_memory 8 NULL_BAG NULL_SLOT [] (Some 20) false demo_loose).1 with Ret sr => Some sr | Throw _ => None end =
  Some (EQUIP_ERR_OK, [(pos_of 255 24, 10); (pos_of 255 26, 2)]).
Proof. by vm_compute. Qed.

(** ** Taking out *)

Lemma take_out_runs E w p bag slot a : inv_ok E w → here w p → has_place E w p bag slot → at_pos E w p bag slot = Some a →
  ∃ w', MoveItemFromInventory E p bag slot true w = (Ret tt, w') ∧ w' ≡ take_out E p bag slot a w.
Proof.
  intros Hw Hp Hpl Hat. destruct (MoveItemFromInventory_runs E w p bag slot a Hw Hp Hpl Hat w true) as ([] & w' & Hr & H); [done|]. by exists w'.
Qed.

(** C15. [MoveItemFromInventory] takes out the item of the position and nothing else: it then
    is nowhere, its position is empty, every other position of anybody holds what it held,
    and the stock of its kind falls by its count. *)
Theorem taken_item_leaves E w p a it bag slot : inv_ok E w → here w p → has_place E w p bag slot → at_pos E w p bag slot = Some a →
  items w !! a = Some it →
  ∃ w', MoveItemFromInventory E p bag slot true w = (Ret tt, w') ∧ inv_ok E w' ∧ loose E w' a ∧
    (∀ q b s, 0 ≤ s → at_pos E w' q b s = if decide ((q, b, s) = (p, bag, slot)) then None else at_pos E w q b s) ∧
    (∀ x, idata <$> items w' !! x = idata <$> items w !! x) ∧
    ∀ q e, stock E w' q e = stock E w q e - (if (q =? p) && (Entry it =? e) then Count it else 0).
Proof.
  intros Hw Hp Hpl Hat Ha. destruct (take_out_runs E w p bag slot a Hw Hp Hpl Hat) as (w' & Hr & H).
  destruct (take_out_ok E w p bag slot a Hw Hp Hpl Hat) as [Hok Hl]. exists w'. split_and!.
  - done.
  - by eapply inv_ok_equiv.
  - by eapply loose_equiv.
  - intros q b s Hs. rewrite (at_pos_equiv E _ w') by done. by apply take_out_at.
  - intros x. rewrite (idata_equiv _ w') by done. apply take_out_idata.
  - intros q e. rewrite (stock_equiv E _ w') by done. by apply stock_taken.
Qed.

(** 7 takes the arrows out of his bag. *)
Lemma taken_item_leaves_witness : ∃ w', MoveItemFromInventory quiet_memory 7 19 0 true demo_world = (Ret tt, w') ∧ inv_ok quiet_memory w' ∧
  loose quiet_memory w' 5 ∧
  (∀ q b s, 0 ≤ s → at_pos quiet_memory w' q b s = if decide ((q, b, s) = (7, 19, 0)) then None else at_pos quiet_memory demo_world q b s) ∧
  (∀ x, idata <$> items w' !! x = idata <$> items demo_world !! x) ∧
  ∀ q e, stock quiet_memory w' q e = stock quiet_memory demo_world q e - (if (q =? 7) && (2 =? e) then 5 else 0).
Proof.
  apply (taken_item_leaves quiet_memory demo_world 7 5 (demo_item 105 2 7 5 0 (Some 4) 0 [])).
  - apply (demo_world_ok []).
  - apply (bool_decide_unpack _). by vm_compute.
  - split; [by vm_compute|]. split; [by vm_compute|]. right. exists 4, (demo_item 104 4 7 1 19 None 4 (put_in 36 [(0, 5)])). by vm_compute.
  - by vm_compute.
  - by vm_compute.
Defined.

(** An item that was taken out and is accepted again by any player comes back whole: if by
    its owner, everybody has what he had before. *)
Theorem taken_and_stored_again E w p a it bag slot q : inv_ok E w → here w p → has_place E w p bag slot → at_pos E w p bag slot = Some a →
  items w !! a = Some it → here w q → m_hiItemGuid w + PLACES < 2 ^ 32 →
  ∃ w1 sr, MoveItemFromInventory E p bag slot true w = (Ret tt, w1) ∧
    CanStoreItem_item E q NULL_BAG NULL_SLOT [] (Some a) false w1 = (Ret sr, w1) ∧
    (sr_res sr = EQUIP_ERR_OK → ∃ w2, MoveItemToInventory E q (sr_dest sr) a true true w1 = (Ret tt, w2) ∧ inv_ok E w2 ∧
      ∀ r e, stock E w2 r e = stock E w r e - (if (r =? p) && (Entry it =? e) then Count it else 0)
        + (if (r =? q) && (Entry it =? e) then Count it else 0)).
Proof.
  intros Hw Hp Hpl Hat Ha Hq Hhi. destruct (take_out_runs E w p bag slot a Hw Hp Hpl Hat) as (w1 & Hr & H).
  destruct (take_out_ok E w p bag slot a Hw Hp Hpl Hat) as [Hok Hl].
  pose proof (inv_ok_equiv E _ _ H Hok) as Hok1. pose proof (loose_equiv E _ _ _ H Hl) as Hl1.
  assert (here w1 q) as Hq1 by (apply (here_equiv _ _ q H); by apply set_slot_here).
  assert (m_hiItemGuid w1 = m_hiItemGuid w) as Hc. { destruct (equiv_others _ _ H) as [_ ->]. by apply set_slot_rest. }
  pose proof (take_out_idata E w p bag slot a a) as Hi. rewrite <- (idata_equiv _ w1 a H), Ha in Hi. apply fmap_Some in Hi as (it1 & Ha1 & [= He Hn _ _]).
  destruct (ok_item E w1 Hok1 a it1 Ha1) as [t Ht]. destruct (yields_CanStoreItem E w1 q NULL_BAG NULL_SLOT [] a it1 t) as (sr & Hs & _ & Hg); try done.
  exists w1, sr. split_and!; [done..|]. intros Hres.
  destruct (store_planned E w1 q a it1 (sr_dest sr)) as (w2 & Hm & Hok2 & Hst); try done; [by rewrite Hc|exists t; auto|].
  exists w2. split_and!; [done..|]. intros r e. rewrite Hst, (stock_equiv E _ w1) by done. by rewrite (stock_taken E w p bag slot a it), He, Hn.
Qed.

Lemma taken_and_stored_again_witness : ∃ w1 sr, MoveItemFromInventory quiet_memory 7 19 0 true demo_world = (Ret tt, w1) ∧
  CanStoreItem_item quiet_memory 7 NULL_BAG NULL_SLOT [] (Some 5) false w1 = (Ret sr, w1) ∧
  (sr_res sr = EQUIP_ERR_OK → ∃ w2, MoveItemToInventory quiet_memory 7 (sr_dest sr) 5 true true w1 = (Ret tt, w2) ∧ inv_ok quiet_memory w2 ∧
    ∀ r e, stock quiet_memory w2 r e = stock quiet_memory demo_world r e - (if (r =? 7) && (2 =? e) then 5 else 0)
      + (if (r =? 7) && (2 =? e) then 5 else 0)).
Proof.
  apply (taken_and_stored_again quiet_memory demo_world 7 5 (demo_item 105 2 7 5 0 (Some 4) 0 [])).
  - apply (demo_world_ok []).
  - apply (bool_decide_unpack _). by vm_compute.
  - split; [by vm_compute|]. split; [by vm_compute|]. right. exists 4, (demo_item 104 4 7 1 19 None 4 (put_in 36 [(0, 5)])). by vm_compute.
  - by vm_compute.
  - by vm_compute.
  - apply (bool_decide_unpack _). by vm_compute.
  - by vm_compute.
Defined.

(** ** Finding *)

(** [GetItemByGuid] finds the item with the guid wherever the player carries it, in his own
    slots or in any bag, and nothing else; only goods in the buy-back and bags in the bank's
    bag slots are not looked at. *)
Theorem item_found_by_guid E w p guid : inv_ok E w → here w p →
  ∃ o, GetItemByGuid E p guid w = (Ret o, w) ∧ ∀ a, o = Some a ↔
    ∃ bag slot it, (bag = INVENTORY_SLOT_BAG_0 ∧ (0 ≤ slot < BANK_SLOT_ITEM_END ∨ KEYRING_SLOT_START ≤ slot < CURRENCYTOKEN_SLOT_END) ∨
        is_bag_slot bag = true ∧ 0 ≤ slot) ∧
      at_pos E w p bag slot = Some a ∧ items w !! a = Some it ∧ i_guid it = guid.
Proof.
  intros Hw Hp. destruct (finds_GetItemByGuid E w Hw p guid Hp) as (o & Hr & Ho). exists o. split; [done|]. intros a. rewrite (Ho a). split.
  - intros (bag & slot & Hs & Hat & it & ? & ?). by exists bag, slot, it.
  - intros (bag & slot & it & Hs & Hat & ? & ?). exists bag, slot. split; [done|]. split; [done|]. by exists it.
Qed.

Lemma item_found_by_guid_witness : ∃ o, GetItemByGuid quiet_memory 7 (MAKE_NEW_GUID 105 0 HIGHGUID_ITEM) demo_world = (Ret o, demo_world) ∧
  ∀ a, o = Some a ↔ ∃ bag slot it,
    (bag = INVENTORY_SLOT_BAG_0 ∧ (0 ≤ slot < BANK_SLOT_ITEM_END ∨ KEYRING_SLOT_START ≤ slot < CURRENCYTOKEN_SLOT_END) ∨
      is_bag_slot bag = true ∧ 0 ≤ slot) ∧
    at_pos quiet_memory demo_world 7 bag slot = Some a ∧ items demo_world !! a = Some it ∧ i_guid it = MAKE_NEW_GUID 105 0 HIGHGUID_ITEM.
Proof.
  apply (item_found_by_guid quiet_memory); [apply (demo_world_ok [])|]. apply (bool_decide_unpack _). by vm_compute.
Defined.

(** ** Many items at once *)

(** [CanStoreItems] simulates the storing of a list of items on copies of the counts of the
    inventory. Whatever the items are, it never indexes those copies, the player's slots or a
    bag out of bounds, never follows a pointer that is null, and changes nothing. *)
Theorem many_items_checked E w p l : inv_ok E w → here w p → (∀ a, Some a ∈ l → is_Some (items w !! a)) →
  ∃ res, CanStoreItems E p l w = (Ret res, w).
Proof. intros Hw Hp Hl. destruct (yields_CanStoreItems E w Hw p l Hp Hl) as (res & Hr & _). by exists res. Qed.

(** The second sword of 7 would be the third of 8. *)
Lemma many_items_checked_witness : ∃ res, CanStoreItems quiet_memory 8 [Some 3; None; Some 1; Some 5] demo_world = (Ret res, demo_world).
Proof.
  apply (many_items_checked quiet_memory); [apply (demo_world_ok [])|by apply (bool_decide_unpack _); vm_compute|].
  intros a Ha. rewrite !elem_of_cons, elem_of_nil in Ha. destruct Ha as [[= ->]|[?|[[= ->]|[[= ->]|[]]]]]; [|done|..]; by apply (bool_decide_unpack _); vm_compute.
Defined.
