(* ===== verification/TradeProps.v ===== *)
(** * TradeProps: what trades promise

    The theorems about the requests of players who trade. *)

From Stdlib Require Import ZArith Lia.
From S2P Require Import Prelude ByteBuffer ByteBufferFacts Packets Guid ItemData Inventory InventoryStore Trade.
From S2P Require Import ItemFacts ItemRun PlanFacts StoreFacts StoreRun StoreSpec ItemMoves Stock ItemReads.
From S2P Require Import TradeInv TradeMoves TradeRun TradeAccept TradeOffers TradeSafety TradeDemo.
Local Open Scope Z_scope.

(** ** Trades *)

(** C3. From a server that keeps the invariant, after any sequence of trade requests every
    further one runs to its end and keeps the invariant: no handler follows the pointer of a
    deleted trade or item or indexes an array out of its bounds; both sides of each trade point
    to each other, every item is in one place at most, and gold stays within its bounds. The
    requests are those of players in the server, with packets of bytes, while item guids last
    ([allowed]). What a new trade finds in its uninitialised members is any memory that holds
    no guid twice ([memory_ok]); reading it is no fault of the model, but C17 shows what comes
    of it. *)
Theorem trade_requests_safe E w w' me r : memory_ok E → server_ok E w → rtc (trade_step E) w w' → allowed w' me r →
  ∃ w2, serve E me r w' = (Ret tt, w2) ∧ server_ok E w2.
Proof.
  intros Hmem Hw Hs Hr. pose proof (steps_ok E w w' Hmem Hs Hw) as Hw'.
  destruct (request_served E w' me r Hmem Hw' Hr) as ([] & w2 & H & Hok & _). by exists w2.
Qed.

Lemma trade_requests_safe_witness : ∃ w2, serve quiet_memory 8 CMSG_ACCEPT_TRADE demo_trade = (Ret tt, w2) ∧ server_ok quiet_memory w2.
Proof.
  apply (trade_requests_safe quiet_memory demo_world demo_trade); [exact demo_memory_ok|apply demo_world_ok|exact demo_trade_steps|].
  apply (bool_decide_unpack _). by vm_compute.
Defined.

(** C4. Accepting never faults while item guids last. Without a trade nothing happens. Else
    either the trade is not completed, for one of the reasons [declined] lists (the partner has
    not accepted, a side lacks the gold it offers, an offered item may not be traded, a spell
    cannot be cast, the items do not fit): then every item, all gold, and the gold and items
    offered stay as they are ([near]), while the answers of the sides may change and a spell
    that cannot be cast is withdrawn. Or it is completed: both trades are gone, each side has
    paid the gold it offered and received the other's up to the cap (what exceeds it is lost),
    and if each pair of items can be stored in its turn, each has of every kind of item what he
    had, less what he offered, and what he was offered. *)
Theorem accepted_trade_exchanges E w me : server_ok E w → here w me → m_hiItemGuid w + HEADROOM < 2 ^ 32 →
  ∃ w', HandleAcceptTradeOpcode E me w = (Ret tt, w') ∧ server_ok E w' ∧ (players w !! me ≫= m_trade = None ∧ w' = w ∨
    ∃ trader my his td td', side w me my td trader ∧ side w trader his td' me ∧
      (near w w' ∧ declined E me trader my his td td' w ∨
       ∃ w0 l, near w w0 ∧ slot_items E td td' w (slots 0 TRADE_SLOT_TRADED_COUNT) l ∧
         exchanged E me trader w0 w' (m_money td) (m_money td') l)).
Proof.
  intros Hw Hme Hhi. destruct (AcceptTrade_runs E w me Hw Hme Hhi) as ([] & w' & H & (Hok & _) & Hd). by exists w'.
Qed.

(** The accepted trade of the example is completed. *)
Lemma accepted_trade_exchanges_witness : ∃ w', HandleAcceptTradeOpcode quiet_memory 8 demo_trade = (Ret tt, w') ∧ server_ok quiet_memory w' ∧
  (players demo_trade !! 8 ≫= m_trade = None ∧ w' = demo_trade ∨
   ∃ trader my his td td', side demo_trade 8 my td trader ∧ side demo_trade trader his td' 8 ∧
     (near demo_trade w' ∧ declined quiet_memory 8 trader my his td td' demo_trade ∨
      ∃ w0 l, near demo_trade w0 ∧ slot_items quiet_memory td td' demo_trade (slots 0 TRADE_SLOT_TRADED_COUNT) l ∧
        exchanged quiet_memory 8 trader w0 w' (m_money td) (m_money td') l)).
Proof.
  apply (accepted_trade_exchanges quiet_memory); [exact demo_trade_ok|by apply (bool_decide_unpack _); vm_compute|by vm_compute].
Defined.

Definition holdings (w : World) (e : Z) : Z * Z := (stock quiet_memory w 7 e, stock quiet_memory w 8 e).

Example demo_trade_completed : let w' := (HandleAcceptTradeOpcode quiet_memory 8 demo_trade).2 in
  (holdings w' <$> [1; 2; 3], Coinage <$> (map_to_list (players w')).*2) = ([(2, 1); (5, 25); (1, 0)], [900; 600]).
Proof. by vm_compute. Qed.

(** The three ways to change an offer. *)
Inductive offer_change := ChangeGold (money : Z) | ChangeItem (slot : Z) (item : option Z) | ChangeSpell (spell : Z) (castItem : option Z).

Definition change (E : IEnv) (t : Z) (c : offer_change) : iw unit :=
  match c with
  | ChangeGold money => SetTradeMoney E t money
  | ChangeItem slot item => SetItem E t slot item
  | ChangeSpell spell castItem => SetSpell E t spell castItem
  end.

(** What the handlers have made sure of. *)
Definition change_ok (w : World) (td : TradeData) (c : offer_change) : Prop :=
  match c with
  | ChangeGold money => in_u 32 money
  | ChangeItem slot item => 0 ≤ slot < TRADE_SLOT_COUNT ∧
      match item with Some a => match items w !! a with Some it => i_guid it ∉ t_items td | None => False end | None => True end
  | ChangeSpell _ (Some a) => live w a
  | ChangeSpell _ None => True
  end.

(** C13. Nobody can change his offer behind an acceptance: setting other gold, another item or
    another spell leaves neither side accepted; otherwise nothing of any trade has changed. *)
Theorem changed_offer_unaccepts E w me my td trader his td' c : server_ok E w → side w me my td trader → side w trader his td' me →
  change_ok w td c → ∃ w', change E my c w = (Ret tt, w') ∧
    (trades w' = trades w ∨ ∀ t, t = my ∨ t = his → ∃ td2, trades w' !! t = Some td2 ∧ m_accepted td2 = false).
Proof.
  intros Hw Hs Hs' Hc. assert (sides E me my trader his w) as Hsd by (split; [done|]; by exists td, td').
  assert (runs w (change E my c) (λ _ w', trades w' = trades w ∨ unaccepted w' my his)) as ([] & w' & H & Hd); [|by exists w'].
  destruct c as [money|i o|spell o]; simpl.
  - by eapply SetTradeMoney_runs.
  - destruct Hc as [Hi Ho]. eapply SetItem_runs; [done..|]. intros a ->. destruct (items w !! a) as [it|]; [|done]. by exists it.
  - eapply runs_mono; [by eapply SetSpell_runs; [|intros a ->]|]. by intros ? w' [_ ?].
Qed.

(** Finds a side of a given state. *)
Definition my_trade (w : World) (p : Z) : Z := default 0 (players w !! p ≫= m_trade).

Lemma side_at w p q b : bool_decide (players w !! p ≫= m_trade = Some (my_trade w p)) = true →
  (λ td, (m_player td, m_trader td, m_accepted td)) <$> trades w !! my_trade w p = Some (p, q, b) →
  ∃ td, side w p (my_trade w p) td q ∧ m_accepted td = b.
Proof.
  intros (pl & Hpl & Ht)%bool_decide_eq_true%bind_Some (td & Htd & [= -> -> ->])%fmap_Some. exists td.
  split; [|done]. split_and!; try done. by exists pl.
Qed.

(** 7 has accepted and 8 changes his offer. *)
Lemma changed_offer_unaccepts_witness : ∃ td td' w', side demo_trade 7 (my_trade demo_trade 7) td 8 ∧ m_accepted td = true ∧
  side demo_trade 8 (my_trade demo_trade 8) td' 7 ∧
  change quiet_memory (my_trade demo_trade 8) (ChangeGold 5) demo_trade = (Ret tt, w') ∧
  (trades w' = trades demo_trade ∨
    ∀ t, t = my_trade demo_trade 8 ∨ t = my_trade demo_trade 7 → ∃ td2, trades w' !! t = Some td2 ∧ m_accepted td2 = false).
Proof.
  destruct (side_at demo_trade 7 8 true) as (td & H & Ha); [by vm_compute..|].
  destruct (side_at demo_trade 8 7 false) as (td' & H' & _); [by vm_compute..|].
  destruct (changed_offer_unaccepts quiet_memory demo_trade 8 (my_trade demo_trade 8) td' 7 (my_trade demo_trade 7) td (ChangeGold 5)
    demo_trade_ok H' H) as (w' & Hr & Hd); [by split|].
  exists td, td', w'. exact (conj H (conj Ha (conj H' (conj Hr Hd)))).
Defined.

(** ** What goes wrong *)

(** What a position of a plan that is carried out again gets: as much more of what lies there,
    or of the item [it], a stack of it at most, if nothing does. *)
Definition repeated (E : IEnv) (w : World) (p : Z) (it : Item) (t : ItemTemplate) (e : Z) (x : Z * Z) : Z :=
  match shelf_at E w p x.1 with
  | Some (e', _) => if e' =? e then x.2 else 0
  | None => if Entry it =? e then Z.min x.2 (GetMaxStackSize t) else 0
  end.

Lemma added_repeated E w p it t e x : added E w p (Entry it, GetMaxStackSize t) e x.1 x.2 = repeated E w p it t e x.
Proof. unfold added, repeated. destruct (shelf_at E w p x.1) as [[e' n]|]; simpl; destruct (_ =? e); lia. Qed.

(** The item [o] was given back to [p] with a plan that starts with the positions [dst]. If it
    is accepted, he gets it and in every position of [dst] once more what was planned there. *)
Definition given_back (E : IEnv) (w w' : World) (p : Z) (dst : list (Z * Z)) (o : option Z) : Prop :=
  match o with
  | None => w' = w
  | Some a => ∃ it t sr, items w !! a = Some it ∧ GetItemTemplate E (Entry it) = Some t ∧
      CanStoreItem_item E p NULL_BAG NULL_SLOT dst (Some a) false w = (Ret sr, w) ∧
      if sr_res sr =? EQUIP_ERR_OK
      then ∀ e, stock E w' p e = stock E w p e + (if Entry it =? e then Count it else 0) + sum_over (repeated E w p it t e) dst
      else w' = w ∧ loose E w' a
  end.

Lemma give_back_exact E w p dst o : inv_ok E w → here w p → (∀ a, o = Some a → loose E w a) → spots E w p dst →
  m_hiItemGuid w + PLACES < 2 ^ 32 → ∃ w', give_back E p dst o w = (Ret tt, w') ∧ handed E w w' p o ∧ given_back E w w' p dst o.
Proof.
  intros Hw Hp Ho Hsp Hhi. destruct (give_back_runs E w p dst o) as ([] & w' & Hr & Hh); [done..|]. exists w'. split_and!; [done..|].
  destruct o as [a|]; [|by injection Hr as <-]. pose proof (Ho a eq_refl) as Hl. destruct (proj1 Hl) as [it Ha]. destruct (ok_item E w Hw a it Ha) as [t Ht].
  pose proof Hsp as [Hnd _].
  destruct (yields_CanStoreItem E w p NULL_BAG NULL_SLOT dst a it t) as (sr & Hsr & _ & Hok); [by try done; slot_lia..|].
  exists it, t, sr. split_and!; [done|apply (good_template E it t Ht)|done|]. unfold give_back in Hr. setoid_rewrite (bind_ret_run _ _ w sr w Hsr) in Hr.
  destruct (Z.eqb_spec (sr_res sr) EQUIP_ERR_OK) as [He|]; [|by injection Hr as <-].
  destruct (Hok He) as (d & Hd & Hfit & Hnd' & _ & Hn). simpl in Hd, Hnd', Hn. specialize (Hnd' Hnd). rewrite Hd in Hnd', Hr.
  pose proof (good_count E it t Ht) as Hc. assert (d ≠ []) as Hdne by (intros ->; unfold planned in Hn; simpl in Hn; lia).
  pose proof (spots_storable E w p t a it dst d Hw Hl Ht Hsp Hfit Hnd' Hdne) as Hst.
  pose proof (storable_length E w p _ _ Hw Hst) as Hlen. unfold PLACES in *.
  destruct (MoveItemToInventory_runs E w p t a it (dst ++ d) true true) as ([] & w2 & Hr2 & F & _); [by intros [_ ?]%app_nil|done..|lia|].
  rewrite Hr in Hr2. injection Hr2 as <-. intros e.
  rewrite (stock_filled E w w' p _ _ _ Hw F) by (by intros ? -> || apply Hst). rewrite sum_over_app, (added_planned E w p t a it d); [|done|done|].
  - rewrite (sum_over_ext _ (repeated E w p it t e)) by (intros; apply added_repeated). simpl. rewrite <- Hn. destruct (Entry it =? e); lia.
  - split; [|done]. rewrite fmap_app in Hnd'. by apply NoDup_app in Hnd' as (_ & _ & ?).
Qed.

(** C16. When a pair of items cannot be exchanged, both items are given back, one after the
    other, each with a plan that still starts with the positions planned for the other one
    ([can_take]'s answer). If the item is accepted, its owner gets it and, in every one of those
    positions, as much again as was planned: of what lies there, or of the item given back where
    nothing does. These are items out of nothing. If it is refused, nothing happens, and the item
    is left in no inventory. *)
Theorem roll_back_duplicates E w me trader a b : inv_ok E w → here w me → here w trader → me ≠ trader →
  (∀ x, a = Some x → loose E w x) → (∀ x, b = Some x → loose E w x) → (∀ x, a = Some x → b ≠ Some x) →
  m_hiItemGuid w + 2 * PLACES < 2 ^ 32 → fits_pair E w me trader a b = false →
  ∃ rm rt mid w', can_take E me b w = (Ret rm, w) ∧ can_take E trader a w = (Ret rt, w) ∧
    move_pair E me trader a b w = (Ret tt, w') ∧ inv_ok E w' ∧
    given_back E w mid me rm.2 a ∧ given_back E mid w' trader rt.2 b.
Proof.
  intros Hw Hme Htr Hne Ha Hb Hab Hhi Hfit.
  destruct (yields_can_take E w trader a Hw Htr Ha) as (rt & Et & Ht & _), (yields_can_take E w me b Hw Hme Hb) as (rm & Em & Hm & _).
  unfold fits_pair in Hfit. rewrite Et, Em in Hfit. simpl in Hfit.
  destruct (give_back_exact E w me rm.2 a) as (mid & E1 & H1 & G1); [done..|unfold PLACES in *; lia|].
  destruct (give_back_exact E mid trader rt.2 b) as (w' & E2 & H2 & G2).
  - apply H1.
  - by eapply handed_here.
  - intros y Hy. apply H1; [by apply Hb|]. rewrite opt_elem. intros ?. by eapply Hab.
  - by eapply handed_spots.
  - by eapply handed_room.
  - exists rm, rt, mid, w'. split_and!; [done..| |apply H2|done|done].
    unfold move_pair. rewrite (bind_ret_run _ _ _ _ _ Et). destruct rt as [bt dt]. rewrite (bind_ret_run _ _ _ _ _ Em). destruct rm as [bm dm].
    simpl in *. rewrite Hfit. by rewrite (bind_ret_run _ _ _ _ _ E1).
Qed.

(** 8 wants to give a sword for 15 arrows, but 7, who has two swords, may have no third one. *)
Definition demo_two : World := with_items (<[20 := demo_item 120 1 9 1 0 None 0 []]> (<[21 := demo_item 121 2 9 15 0 None 0 []]> (items demo_world))) demo_world.

Lemma roll_back_duplicates_witness : ∃ rm rt mid w', can_take quiet_memory 8 (Some 21) demo_two = (Ret rm, demo_two) ∧
  can_take quiet_memory 7 (Some 20) demo_two = (Ret rt, demo_two) ∧
  move_pair quiet_memory 8 7 (Some 20) (Some 21) demo_two = (Ret tt, w') ∧ inv_ok quiet_memory w' ∧
  given_back quiet_memory demo_two mid 8 rm.2 (Some 20) ∧ given_back quiet_memory mid w' 7 rt.2 (Some 21).
Proof.
  assert (inv_ok quiet_memory demo_two) as Hw by (apply inv_b_ok; by vm_compute).
  apply (roll_back_duplicates quiet_memory demo_two 8 7 (Some 20) (Some 21)).
  - done.
  - apply (bool_decide_unpack _). by vm_compute.
  - apply (bool_decide_unpack _). by vm_compute.
  - done.
  - intros x [= <-]. eapply owner_gone; [done|by vm_compute|by vm_compute].
  - intros x [= <-]. eapply owner_gone; [done|by vm_compute|by vm_compute].
  - by intros x [= <-].
  - by vm_compute.
  - by vm_compute.
Defined.

(** Both get their own back, and 8 a second sword and ten arrows of nothing with it: the plan
    for the 15 arrows was ten to a stack he has and five to an empty position. *)
Example goods_of_nothing : (holdings demo_two <$> [1; 2], holdings (move_pair quiet_memory 8 7 (Some 20) (Some 21) demo_two).2 <$> [1; 2]) =
  ([(2, 1); (20, 10)], [(2, 3); (35, 20)]).
Proof. by vm_compute. Qed.

(** 7 offers both swords and 8, who may have only two, his axe beside the second: the first
    sword is handed over, the second is given back, and 7 gets a third one with it. *)
Definition demo_swords : list (Z * trade_request) :=
  [(7, initiate 8); (7, offer 0 255 23); (7, offer 1 255 24); (8, offer 1 255 25); (7, CMSG_ACCEPT_TRADE); (8, CMSG_ACCEPT_TRADE)].

Example roll_back_example : (holdings demo_world 1, holdings (run quiet_memory demo_world demo_swords) 1,
  all_allowed quiet_memory demo_world demo_swords) = ((2, 1), (2, 2), true).
Proof. by vm_compute. Qed.

(** C17. A new trade starts with an offer nobody made: its slots hold the guids that happened to
    be in the memory of the new object, and whatever item of the player has one of them is
    offered. *)
Theorem new_trade_offers_stale_memory E w p q pl pl' : memory_ok E → server_ok E w → p ≠ q → players w !! p = Some pl →
  players w !! q = Some pl' → m_trade pl = None → m_trade pl' = None →
  ∃ w' t td, start_trade E p q w = (Ret tt, w') ∧ side w' p t td q ∧
    ∀ i, 0 ≤ i < TRADE_SLOT_COUNT → ∃ o, GetItem E td i w' = (Ret o, w') ∧
      ∀ a, o = Some a ↔ ∃ g, (uninitialised E w).2 !! Z.to_nat i = Some g ∧ g ≠ 0 ∧ owns E w p g a.
Proof.
  intros Hmem Hw Hne Hp Hq Hn Hn'. destruct (start_trade_opens E w p q pl pl') as ([] & w' & Hr & t & t' & td' & Htt & Hok & Hnear); [done..|].
  set (td := fresh_offer p q _ _) in *. pose proof (opened_side w p q pl t t' td td' Hne Hp Htt eq_refl eq_refl) as Hs.
  destruct (near_side _ _ _ _ _ _ Hnear Hs) as (td2 & Hs2 & Hc). pose proof (near_ok E _ _ Hnear Hok) as Hw'.
  destruct (side_partner E w' p t td2 q Hw' Hs2) as (_ & Ho & _). exists w', t, td2. split_and!; [done..|]. intros i Hi.
  destruct (yields_GetItem E w' td2 i) as (o & Hg & Hoff); [apply Hw'| |done|done|].
  { destruct Hs2 as ((pl2 & Hp2 & _) & _ & -> & _). by exists pl2. }
  exists o. split; [done|]. intros a. rewrite (Hoff a), <- (fresh_offered E w p q t t' td' (uninitialised E w).1 _ i a Hi). split.
  - by apply near_offered; [apply near_sym|].
  - by apply near_offered.
Qed.

(** The memory of a trade that offered the axe. *)
Definition stale_env : IEnv := demo_env [0; MAKE_NEW_GUID 113 0 HIGHGUID_ITEM].

Lemma new_trade_offers_stale_memory_witness : ∃ w' t td, start_trade stale_env 8 7 demo_world = (Ret tt, w') ∧ side w' 8 t td 7 ∧
  ∀ i, 0 ≤ i < TRADE_SLOT_COUNT → ∃ o, GetItem stale_env td i w' = (Ret o, w') ∧
    ∀ a, o = Some a ↔ ∃ g, [0; MAKE_NEW_GUID 113 0 HIGHGUID_ITEM] !! Z.to_nat i = Some g ∧ g ≠ 0 ∧ owns stale_env demo_world 8 g a.
Proof.
  apply (new_trade_offers_stale_memory stale_env demo_world 8 7 (demo_player [(23, 11); (24, 12); (25, 13)] 500)
    (demo_player [(19, 4); (23, 1); (24, 2); (25, 3)] 1000)).
  - intros w i j g Hi Hj Hg. simpl in Hi, Hj. by destruct i as [|[|i]], j as [|[|j]]; simplify_eq/=.
  - apply demo_world_ok.
  - done.
  - by vm_compute.
  - by vm_compute.
  - done.
  - done.
Defined.

(** 8 starts a trade and both accept at once: the axe is gone. *)
Example stale_example : let w' := run stale_env demo_world [(8, initiate 7); (8, CMSG_ACCEPT_TRADE); (7, CMSG_ACCEPT_TRADE)] in
  (stock stale_env w' 7 3, stock stale_env w' 8 3) = (1, 0).
Proof. by vm_compute. Qed.

(** ** Gold *)

(** C38. [ModifyMoney] by any amount up to the cap pays it in full while the gold suffices and
    the cap allows it, else it leaves nothing or the cap: gold stays within its bounds, and
    nobody else's changes. *)
Theorem money_stays_in_bounds E w p pl d : server_ok E w → players w !! p = Some pl → - MAX_MONEY_AMOUNT ≤ d ≤ MAX_MONEY_AMOUNT →
  ∃ w', ModifyMoney p d w = (Ret tt, w') ∧ server_ok E w' ∧
    ∀ q, Coinage <$> players w' !! q = if q =? p then Some (Z.max 0 (Z.min MAX_MONEY_AMOUNT (Coinage pl + d))) else Coinage <$> players w !! q.
Proof.
  intros Hw Hp Hd. pose proof (tr_coins w (proj2 Hw) p pl Hp) as Hc. pose proof (settle_range (Coinage pl) d Hc) as Hs.
  destruct (ModifyMoney_runs w p pl d Hp Hc Hd) as ([] & w' & Hr & H). exists w'. split_and!; [done| |].
  - eapply near_ok; [by apply equiv_near|]. by apply paid_ok.
  - intros q. rewrite (near_coins _ _ _ (equiv_near _ _ H)). simpl. destruct (Z.eqb_spec q p) as [->|Hq].
    + rewrite lookup_alter_eq, Hp. simpl. f_equal. unfold settle, MAX_MONEY_AMOUNT in *. destruct (Z.ltb_spec d 0); lia.
    + by rewrite lookup_alter_ne.
Qed.

Lemma money_stays_in_bounds_witness : ∃ w', ModifyMoney 7 (-3000) demo_world = (Ret tt, w') ∧ server_ok quiet_memory w' ∧
  ∀ q, Coinage <$> players w' !! q = if q =? 7 then Some 0 else Coinage <$> players demo_world !! q.
Proof.
  apply (money_stays_in_bounds quiet_memory demo_world 7 (demo_player [(19, 4); (23, 1); (24, 2); (25, 3)] 1000));
    [apply demo_world_ok|by vm_compute..].
Defined.

(** The one greater amount breaks the cap. *)
Example money_over_the_cap : Coinage <$> players (ModifyMoney 7 0x7FFFFFFF demo_world).2 !! 7 = Some (MAX_MONEY_AMOUNT + 1001).
Proof. by vm_compute. Qed.
