(* ===== verification/Field.v ===== *)
(** * Field: a column of a database row

    src/src/server/shared/Database/Field.h and Field.cpp. The value of a field is a block of
    bytes: the text of the column, or, for prepared statements ([raw]), the number itself.
    The checks of the column type that [AXIUM_DEBUG] adds are not modelled. *)

From Stdlib Require Import ZArith Lia.
From S2P Require Import Prelude ByteBuffer Util.
Local Open Scope Z_scope.

(** Text is a list of character codes; a C string in memory ends with a zero. *)
Definition c_string (s : list Z) : list Z := s ++ [0].

Record Field := mkField {
  length_ : Z;
  value : option (list Z);
  raw : bool
}.

(** [Field()] does not initialise [raw]. *)
Definition new_Field (junk : bool) : Field := mkField 0 None junk.

Section Field.
(** [atof] of the C library, with the conversion of its result to [float] or [double], as the
    bits of the number. *)
Context (atof_float atof_double : list Z → Z).

Definition SetByteValue (newValue : option (list Z)) (length : Z) (f : Field) : Field :=
  match newValue with
  | Some v => mkField length (Some v) true
  | None => mkField (length_ f) None true
  end.

Definition SetStructuredValue (newValue : option (list Z)) (f : Field) : Field :=
  match newValue with
  | Some s => mkField (uwrap 32 (Z.of_nat (length s))) (Some (c_string s)) false
  | None => mkField (length_ f) None false
  end.

(** [*reinterpret_cast<T*>(data.value)] for a type of [n] bytes. *)
Definition cast {S} (n : nat) (v : list Z) : prog S fault Z :=
  if Z.of_nat (length v) <? Z.of_nat n then throw Undefined else mret (le_val (take n v)).

(** A string of the memory at the value; one without an end is undefined. *)
Fixpoint until_zero (v : list Z) : option (list Z) :=
  match v with
  | [] => None
  | c :: v => if c =? 0 then Some [] else cons c <$> until_zero v
  end.

Definition to_number {S} (v : list Z) : prog S fault Z := s ← of_option (until_zero v); of_option (atol s).

Definition number {S} (n : nat) (conv : Z → Z) (f : Field) : prog S fault Z :=
  match value f with
  | None => mret 0
  | Some v => x ← (if raw f then cast n v else to_number v); mret (conv x)
  end.

Definition GetUInt8 {S} : Field → prog S fault Z := number 1 (uwrap 8).
Definition GetInt8 {S} : Field → prog S fault Z := number 1 (swrap 8).
Definition GetUInt16 {S} : Field → prog S fault Z := number 2 (uwrap 16).
Definition GetInt16 {S} : Field → prog S fault Z := number 2 (swrap 16).
Definition GetUInt32 {S} : Field → prog S fault Z := number 4 (uwrap 32).
Definition GetInt32 {S} : Field → prog S fault Z := number 4 (swrap 32).
Definition GetUInt64 {S} : Field → prog S fault Z := number 8 (uwrap 64).

Definition GetInt64 {S} (f : Field) : prog S fault Z :=
  match value f with
  | None => mret 0
  | Some v => if raw f then x ← cast 8 v; mret (swrap 64 x) else s ← of_option (until_zero v); mret (strtol s)
  end.

Definition GetBool {S} (f : Field) : prog S fault bool := v ← GetUInt8 f; mret (v =? 1).

Definition real {S} (n : nat) (conv : list Z → Z) (f : Field) : prog S fault Z :=
  match value f with
  | None => mret 0
  | Some v => if raw f then cast n v else s ← of_option (until_zero v); mret (conv s)
  end.

Definition GetFloat {S} : Field → prog S fault Z := real 4 atof_float.
Definition GetDouble {S} : Field → prog S fault Z := real 8 atof_double.

(** The pointer to the value, as what is in memory from there on. *)
Definition GetCString (f : Field) : option (list Z) := value f.

Definition GetString {S} (f : Field) : prog S fault (list Z) :=
  match value f with
  | None => mret []
  | Some v =>
    if raw f then (if Z.of_nat (length v) <? length_ f then throw Undefined else mret (take (Z.to_nat (length_ f)) v))
    else of_option (until_zero v)
  end.

End Field.

(** ** Facts *)

Lemma until_zero_c_string s t : Forall (λ c, c ≠ 0) s → until_zero (c_string s ++ t) = Some s.
Proof.
  intros Hs. unfold c_string. rewrite <- app_assoc. induction Hs as [|c s Hc Hs IH]; [done|]. cbn.
  destruct (Z.eqb_spec c 0); [done|]. cbn in IH. by rewrite IH.
Qed.
