(* ===== verification/DbcFile.v ===== *)
(** * DbcFile: reading a data file of the client

    src/src/server/shared/DataStores/DBCFileLoader.h and DBCFileLoader.cpp. A file is a header
    of five numbers, records of a fixed size and a block of strings; a format string says what
    the fields of a record are. *)

From Stdlib Require Import ZArith Lia.
From S2P Require Import Prelude ByteBuffer.
Local Open Scope Z_scope.

(** Characters of a format. *)
Definition FT_NA : Z := 120. (* x *)
Definition FT_NA_BYTE : Z := 88. (* X *)
Definition FT_STRING : Z := 115. (* s *)
Definition FT_FLOAT : Z := 102. (* f *)
Definition FT_INT : Z := 105. (* i *)
Definition FT_BYTE : Z := 98. (* b *)
Definition FT_SORT : Z := 100. (* d *)
Definition FT_IND : Z := 110. (* n *)
Definition FT_LOGIC : Z := 108. (* l *)
Definition FT_SQL_PRESENT : Z := 112. (* p *)
Definition FT_SQL_ABSENT : Z := 97. (* a *)

(** A byte of memory, [None] while nothing has been written to it. *)
Definition block : Type := list (option Z).

(** [n] bytes at position [p]; [None] outside the block. *)
Definition window (d : block) (p n : Z) : option block :=
  if (0 <=? p) && (0 <=? n) && (p + n <=? Z.of_nat (length d)) then Some (take (Z.to_nat n) (drop (Z.to_nat p) d)) else None.

(** An integer of [n] bytes at position [p]. *)
Definition load_int (n : nat) (d : block) (p : Z) : option Z :=
  w ← window d p (Z.of_nat n); le_val <$> mapM id w.

(** The arrays are [None] for NULL; [stringTable] is a position in [data]. *)
Record DBCFileLoader := mkLoader {
  recordSize : Z;
  recordCount : Z;
  fieldCount : Z;
  stringSize : Z;
  fieldsOffset : option (list Z);
  data : option block;
  stringTable : Z
}.

Definition with_recordSize x l := mkLoader x (recordCount l) (fieldCount l) (stringSize l) (fieldsOffset l) (data l) (stringTable l).
Definition with_recordCount x l := mkLoader (recordSize l) x (fieldCount l) (stringSize l) (fieldsOffset l) (data l) (stringTable l).
Definition with_fieldCount x l := mkLoader (recordSize l) (recordCount l) x (stringSize l) (fieldsOffset l) (data l) (stringTable l).
Definition with_stringSize x l := mkLoader (recordSize l) (recordCount l) (fieldCount l) x (fieldsOffset l) (data l) (stringTable l).
Definition with_fieldsOffset x l := mkLoader (recordSize l) (recordCount l) (fieldCount l) (stringSize l) x (data l) (stringTable l).
Definition with_data x l := mkLoader (recordSize l) (recordCount l) (fieldCount l) (stringSize l) (fieldsOffset l) x (stringTable l).
Definition with_stringTable x l := mkLoader (recordSize l) (recordCount l) (fieldCount l) (stringSize l) (fieldsOffset l) (data l) x.

(** The constructor sets the two pointers only; the rest is as the memory was. *)
Definition new_DBCFileLoader (memory : DBCFileLoader) : DBCFileLoader := with_fieldsOffset None (with_data None memory).

Abbreviation loader := (prog DBCFileLoader fault).

(** ** Load *)

(** [fread(&x, 4, 1, f)]; without four more bytes the load has failed. *)
Definition fread_u32 (store : Z → DBCFileLoader → DBCFileLoader) (next : list Z → loader bool) (f : list Z) : loader bool :=
  if Z.of_nat (length f) <? 4 then mret false
  else modify (store (le_val (take 4 f)));; next (drop 4 f).

(** The loop over the fields from the second on, at the character of the field before; [fmt]
    is the rest of the string with its zero. *)
Fixpoint offsets_loop (fmt : list Z) (n : nat) (off : Z) (acc : list Z) {struct n} : option (list Z) :=
  match n with
  | O => Some acc
  | S n =>
    match fmt with
    | [] => None
    | c :: fmt =>
      let off := uwrap 32 (off + if (c =? FT_BYTE) || (c =? FT_NA_BYTE) then 1 else 4) in
      offsets_loop fmt n off (acc ++ [off])
    end
  end.

(** [fieldsOffset[0]] is written whatever the size of the array is. *)
Definition field_offsets (fmt : list Z) (n : Z) : option (list Z) :=
  if n <=? 0 then None else offsets_loop (fmt ++ [0]) (pred (Z.to_nat n)) 0 [0].

Definition load_data (fmt f : list Z) : loader bool :=
  n ← gets fieldCount;
  offsets ← of_option (field_offsets fmt n);
  modify (with_fieldsOffset (Some offsets));;
  l ← gets id;
  let records := uwrap 32 (recordSize l * recordCount l) in
  let size := uwrap 32 (records + stringSize l) in
  if size <? records then throw Undefined
  else
    let got := Some <$> take (Z.to_nat size) f in
    modify (with_data (Some (got ++ replicate (Z.to_nat size - length got) None)));;
    modify (with_stringTable records);;
    mret (negb (size =? 0) && (size <=? Z.of_nat (length f))).

Definition read_magic (next : list Z → loader bool) (f : list Z) : loader bool :=
  if Z.of_nat (length f) <? 4 then mret false
  else if negb (le_val (take 4 f) =? 0x43424457) then mret false
  else next (drop 4 f).

(** [file] is [None] when it cannot be opened. *)
Definition Load (file : option (list Z)) (fmt : list Z) : loader bool :=
  modify (with_data None);;
  match file with
  | None => mret false
  | Some f =>
    read_magic (fread_u32 with_recordCount (fread_u32 with_fieldCount (fread_u32 with_recordSize
      (fread_u32 with_stringSize (load_data fmt))))) f
  end.

(** ** Records *)

Definition GetNumRows : DBCFileLoader → Z := recordCount.
Definition GetRowSize : DBCFileLoader → Z := recordSize.
Definition GetCols : DBCFileLoader → Z := fieldCount.
Definition IsLoaded (l : DBCFileLoader) : bool := match data l with Some _ => true | None => false end.

Section Records.
(** With [NDEBUG] the macro [assert] of the C library does nothing. *)
Context {S : Type} (NDEBUG : bool) (l : DBCFileLoader).

Definition c_assert (c : bool) : prog S fault unit := if NDEBUG then mret tt else assert_ c.

Definition GetOffset (field : Z) : prog S fault Z :=
  match fieldsOffset l with
  | Some a => if field <? fieldCount l then of_option (a !! Z.to_nat field) else mret 0
  | None => mret 0
  end.

(** The position of a record in [data]. *)
Definition getRecord (y : Z) : prog S fault Z := c_assert (IsLoaded l);; mret (y * recordSize l).

Definition load_at (n : nat) (p : Z) : prog S fault Z := of_option (d ← data l; load_int n d p).

Definition field_at (n : nat) (rec field : Z) : prog S fault Z :=
  c_assert (field <? fieldCount l);;
  off ← GetOffset field;
  load_at n (rec + off).

(** A [float] is its 32 bits. *)
Definition getFloat : Z → Z → prog S fault Z := field_at 4.
Definition getUInt : Z → Z → prog S fault Z := field_at 4.
Definition getUInt8 : Z → Z → prog S fault Z := field_at 1.

(** The string as its position in the string table. *)
Definition getString (rec field : Z) : prog S fault Z :=
  c_assert (field <? fieldCount l);;
  stringOffset ← getUInt rec field;
  c_assert (stringOffset <? stringSize l);;
  mret stringOffset.

End Records.

(** ** GetFormatRecordSize *)

(** The bytes a field takes in the structure; [None] for a character the switch asserts against. *)
Definition struct_size (sizeof_ptr c : Z) : option Z :=
  if c =? FT_FLOAT then Some 4
  else if c =? FT_INT then Some 4
  else if c =? FT_STRING then Some sizeof_ptr
  else if c =? FT_SORT then Some 0
  else if c =? FT_IND then Some 4
  else if c =? FT_BYTE then Some 1
  else if (c =? FT_NA) || (c =? FT_NA_BYTE) then Some 0
  else None.

Fixpoint format_loop {S} (sizeof_ptr : Z) (fmt : list Z) (x i recordsize : Z) : prog S fault (Z * Z) :=
  match fmt with
  | [] => mret (recordsize, i)
  | c :: fmt =>
    match struct_size sizeof_ptr c with
    | None => throw AssertFailed
    | Some n =>
      format_loop sizeof_ptr fmt (uwrap 32 (x + 1)) (if (c =? FT_SORT) || (c =? FT_IND) then swrap 32 x else i)
        (uwrap 32 (recordsize + n))
    end
  end.

(** The size of the structure, and the field that is the index or -1. *)
Definition GetFormatRecordSize {S} (sizeof_ptr : Z) (fmt : list Z) : prog S fault (Z * Z) := format_loop sizeof_ptr fmt 0 (-1) 0.
