(* ===== verification/DataStore.v ===== *)
(** * DataStore: the tables the server keeps of the client's data files

    src/src/server/shared/DataStores/DBCStore.h, the two functions of DBCFileLoader.cpp that
    build a table, and [LoadDBC] of src/src/server/game/DataStores/DBCStores.cpp. A table is
    an array of structures in one block of memory, an array of pointers to them by their
    index, and the pools of their strings, one for each language loaded. *)

From Stdlib Require Import ZArith Lia Ascii String.
From S2P Require Import Prelude ByteBuffer Util Field DbcFile.
Local Open Scope Z_scope.

(** The character codes of a literal. *)
Definition text (s : string) : list Z := (λ a, Z.of_N (N_of_ascii a)) <$> list_ascii_of_string s.

(** ** The memory of a table *)

(** The members of a structure. A string is a pointer into a pool, by the number of the pool
    and the position in it. *)
Inductive cell :=
| Float (bits : Z)
| UInt32 (v : Z)
| UInt8 (v : Z)
| CharPtr (p : option (nat * Z)).

(** The block of structures. Members are written one after the other and never overlap, so a
    member is found by its position alone. *)
Record Table := mkTable { t_size : Z; cells : gmap Z cell }.

(** An element of the array of pointers. *)
Inductive ptr := Uninitialised | Null | At (offset : Z).

Record DBCStorage := mkStorage {
  fmt : list Z;
  nCount : Z;
  s_fieldCount : Z;
  indexTable : option (list ptr);
  dataTable : option Table;
  stringPoolList : list (option block)
}.

Definition with_nCount x s := mkStorage (fmt s) x (s_fieldCount s) (indexTable s) (dataTable s) (stringPoolList s).
Definition with_s_fieldCount x s := mkStorage (fmt s) (nCount s) x (indexTable s) (dataTable s) (stringPoolList s).
Definition with_indexTable x s := mkStorage (fmt s) (nCount s) (s_fieldCount s) x (dataTable s) (stringPoolList s).
Definition with_dataTable x s := mkStorage (fmt s) (nCount s) (s_fieldCount s) (indexTable s) x (stringPoolList s).
Definition with_stringPoolList x s := mkStorage (fmt s) (nCount s) (s_fieldCount s) (indexTable s) (dataTable s) x.

Definition new_DBCStorage (f : list Z) : DBCStorage := mkStorage f 0 0 None None [].

Abbreviation store := (prog DBCStorage fault).

(** The result of a query: its rows, of which there is at least one, and the number of columns. *)
Record QueryResult := mkResult { first_row : list Field; more_rows : list (list Field); GetFieldCount : Z }.

Definition result_rows (r : QueryResult) : list (list Field) := first_row r :: more_rows r.
Definition GetRowCount (r : QueryResult) : Z := Z.of_nat (length (result_rows r)).

(** What the stores use of the rest: the width of a pointer, whether assertions of the C
    library are off, the memory of a new loader, files, the database and [atof]. *)
Record DEnv := mkDEnv {
  sizeof_ptr : Z;
  NDEBUG : bool;
  memory : DBCFileLoader;
  fopen : list Z → option (list Z);
  WorldDatabase_Query : list Z → option QueryResult;
  atof_float : list Z → Z
}.

Section DataStore.
Context (E : DEnv).

Definition width (c : cell) : Z :=
  match c with Float _ | UInt32 _ => 4 | UInt8 _ => 1 | CharPtr _ => sizeof_ptr E end.

(** A member is written at a position of the block, and the position after it returned. *)
Definition write_cell (c : cell) (offset : Z) : store Z :=
  o ← gets dataTable;
  t ← of_option o;
  if (0 <=? offset) && (offset + width c <=? t_size t) then
    modify (with_dataTable (Some (mkTable (t_size t) (<[offset := c]> (cells t)))));;
    mret (uwrap 32 (offset + width c))
  else throw Undefined.

(** An element of the array of pointers; the array is never shorter than it was made. *)
Definition index_get (i : Z) : store ptr :=
  o ← gets indexTable;
  a ← of_option o;
  if (0 <=? i) && (i <? Z.of_nat (length a)) then of_option (a !! Z.to_nat i) else throw Undefined.

Definition index_set (i : Z) (p : ptr) : store unit :=
  index_get i;; modify (λ s, with_indexTable (<[Z.to_nat i := p]> <$> indexTable s) s).

(** ** AutoProduceData *)

Section Produce.
Context (dbc : DBCFileLoader).

Definition record (y : Z) : store Z := getRecord (NDEBUG E) dbc y.
Definition uint (rec x : Z) : store Z := getUInt (NDEBUG E) dbc rec x.

(** The greatest index of the records from [y] on. *)
Fixpoint max_index (n : nat) (y i maxi : Z) : store Z :=
  match n with
  | O => mret maxi
  | S n =>
    rec ← record y;
    ind ← uint rec i;
    max_index n (uwrap 32 (y + 1)) i (if maxi <? ind then ind else maxi)
  end.

(** The value a field has in the structure, strings still without one. *)
Definition field_cell (rec x c : Z) : store (option cell) :=
  if c =? FT_FLOAT then v ← getFloat (NDEBUG E) dbc rec x; mret (Some (Float v))
  else if (c =? FT_IND) || (c =? FT_INT) then v ← uint rec x; mret (Some (UInt32 v))
  else if c =? FT_BYTE then v ← getUInt8 (NDEBUG E) dbc rec x; mret (Some (UInt8 v))
  else if c =? FT_STRING then mret (Some (CharPtr None))
  else if (c =? FT_NA) || (c =? FT_NA_BYTE) || (c =? FT_SORT) then mret None
  else throw AssertFailed.

Fixpoint put_fields (fmt : list Z) (rec x offset : Z) : store Z :=
  match fmt with
  | [] => mret offset
  | c :: fmt =>
    v ← field_cell rec x c;
    offset ← match v with Some v => write_cell v offset | None => mret offset end;
    put_fields fmt rec (uwrap 32 (x + 1)) offset
  end.

Fixpoint put_records (n : nat) (fmt : list Z) (i y offset : Z) : store Z :=
  match n with
  | O => mret offset
  | S n =>
    rec ← record y;
    ind ← (if 0 <=? i then uint rec i else mret y);
    index_set ind (At offset);;
    offset ← put_fields fmt rec 0 offset;
    put_records n fmt i (uwrap 32 (y + 1)) offset
  end.

(** The position after the last record of the file, where the rows of the database go, or
    [None] for NULL. *)
Definition AutoProduceData (format : list Z) (sqlRecordCount sqlHighestIndex : Z) : store (option Z) :=
  if negb (Z.of_nat (length format) =? fieldCount dbc) then modify (with_dataTable None);; mret None
  else
    '(recordsize, i) ← GetFormatRecordSize (sizeof_ptr E) format;
    let rows := uwrap 32 (recordCount dbc + sqlRecordCount) in
    (if 0 <=? i then
       maxi ← max_index (Z.to_nat (recordCount dbc)) 0 i 0;
       let maxi := uwrap 32 ((if maxi <? sqlHighestIndex then sqlHighestIndex else maxi) + 1) in
       modify (with_nCount maxi);;
       modify (with_indexTable (Some (replicate (Z.to_nat maxi) Null)))
     else
       modify (with_nCount rows);;
       modify (with_indexTable (Some (replicate (Z.to_nat rows) Uninitialised))));;
    modify (with_dataTable (Some (mkTable (uwrap 32 (rows * recordsize)) ∅)));;
    offset ← put_records (Z.to_nat (recordCount dbc)) format i 0 0;
    mret (Some offset).

(** ** AutoProduceStrings *)

(** [!**slot]: the string in a pool is empty. *)
Definition is_empty (pools : list (option block)) (p : nat * Z) : store bool :=
  c ← of_option (pool ← pools !! p.1; b ← pool; load_int 1 b p.2);
  mret (c =? 0).

(** The pointer at a position of the block of structures. *)
Definition read_slot (offset : Z) : store (option (nat * Z)) :=
  o ← gets dataTable;
  t ← of_option o;
  match cells t !! offset with Some (CharPtr p) => mret p | _ => throw Undefined end.

Definition fill_string (pools : list (option block)) (rec x offset : Z) : store Z :=
  slot ← read_slot offset;
  empty ← match slot with None => mret true | Some p => is_empty pools p end;
  if empty : bool then
    st ← getString (NDEBUG E) dbc rec x;
    write_cell (CharPtr (Some (pred (length pools), st))) offset
  else mret (uwrap 32 (offset + sizeof_ptr E)).

Definition fill_field (pools : list (option block)) (rec x c offset : Z) : store Z :=
  if c =? FT_FLOAT then mret (uwrap 32 (offset + 4))
  else if (c =? FT_IND) || (c =? FT_INT) then mret (uwrap 32 (offset + 4))
  else if c =? FT_BYTE then mret (uwrap 32 (offset + 1))
  else if c =? FT_STRING then fill_string pools rec x offset
  else if (c =? FT_NA) || (c =? FT_NA_BYTE) || (c =? FT_SORT) then mret offset
  else throw AssertFailed.

Fixpoint fill_fields (fmt : list Z) (pools : list (option block)) (rec x offset : Z) : store Z :=
  match fmt with
  | [] => mret offset
  | c :: fmt =>
    offset ← fill_field pools rec x c offset;
    fill_fields fmt pools rec (uwrap 32 (x + 1)) offset
  end.

Fixpoint fill_records (n : nat) (fmt : list Z) (pools : list (option block)) (y offset : Z) : store Z :=
  match n with
  | O => mret offset
  | S n =>
    rec ← record y;
    offset ← fill_fields fmt pools rec 0 offset;
    fill_records n fmt pools (uwrap 32 (y + 1)) offset
  end.

(** The new pool is put into the list as soon as it is filled; the caller does it at the end,
    which makes no difference to anybody. *)
Definition AutoProduceStrings (format : list Z) : store unit :=
  pools ← gets stringPoolList;
  if negb (Z.of_nat (length format) =? fieldCount dbc) then modify (with_stringPoolList (pools ++ [None]))
  else
    pool ← of_option (d ← data dbc; window d (stringTable dbc) (stringSize dbc));
    modify (with_stringPoolList (pools ++ [Some pool]));;
    fill_records (Z.to_nat (recordCount dbc)) format (pools ++ [Some pool]) 0 0;;
    mret tt.

End Produce.

(** ** The rows of the database *)

Record SqlDbc := mkSqlDbc {
  formatString : list Z;
  indexName : list Z;
  sqlTableName : list Z;
  indexPos : Z;
  sqlIndexPos : Z
}.

(** [isalpha], [tolower] of the C locale. *)
Definition isupper (c : Z) : bool := (65 <=? c) && (c <=? 90).
Definition isalpha (c : Z) : bool := isupper c || ((97 <=? c) && (c <=? 122)).
Definition tolower (c : Z) : Z := if isupper c then c + 32 else c.

Definition table_char (c : Z) : Z := if isalpha c then tolower c else if c =? 46 then 95 else c.

Fixpoint sql_index (format : list Z) (x uindexPos pos : Z) : Z :=
  match format with
  | [] => pos
  | c :: format =>
    if c =? FT_SQL_PRESENT then
      if x =? uindexPos then pos else sql_index format (uwrap 32 (x + 1)) uindexPos (swrap 32 (pos + 1))
    else sql_index format (uwrap 32 (x + 1)) uindexPos pos
  end.

Definition new_SqlDbc {S} (filename format idname fmt : list Z) : prog S fault SqlDbc :=
  '(_, indexPos) ← GetFormatRecordSize (sizeof_ptr E) fmt;
  mret (mkSqlDbc format idname (table_char <$> filename) indexPos
    (if 0 <=? indexPos then sql_index format 0 (uwrap 32 indexPos) 0 else 0)).

(** A column of the row; [fields] is an array as long as the row. *)
Definition column (fields : list Field) (i : Z) : store Field := of_option (fields !! Z.to_nat i).

(** What a column that is not in the database holds. *)
Definition absent_cell (c : Z) : store (option cell) :=
  if c =? FT_FLOAT then mret (Some (Float 0))
  else if (c =? FT_IND) || (c =? FT_INT) then mret (Some (UInt32 0))
  else if c =? FT_BYTE then mret (Some (UInt8 0))
  else if c =? FT_STRING then
    pools ← gets stringPoolList;
    mret (Some (CharPtr (match last pools with Some (Some _) => Some (pred (length pools), 0) | _ => None end)))
  else mret None.

Definition write_optional (v : option cell) (offset : Z) : store Z :=
  match v with Some v => write_cell v offset | None => mret offset end.

(** The columns from [columnNumber] on: [None] when the row is refused, else the position
    after the row and the number of the last column read. *)
Fixpoint sql_columns (format fmt : list Z) (fields : list Field) (sqlColumnNumber offset : Z) : store (option (Z * Z)) :=
  match format with
  | [] => mret (Some (offset, sqlColumnNumber))
  | f :: format =>
    if f =? FT_SQL_ABSENT then
      c ← of_option (head fmt);
      v ← absent_cell c;
      offset ← write_optional v offset;
      sql_columns format (tail fmt) fields sqlColumnNumber offset
    else if f =? FT_SQL_PRESENT then
      c ← of_option (head fmt);
      if c =? FT_STRING then mret None
      else
        v ← (if c =? FT_FLOAT then fl ← column fields sqlColumnNumber; v ← GetFloat (atof_float E) fl; mret (Some (Float v))
             else if (c =? FT_IND) || (c =? FT_INT) then fl ← column fields sqlColumnNumber; v ← GetUInt32 fl; mret (Some (UInt32 v))
             else if c =? FT_BYTE then fl ← column fields sqlColumnNumber; v ← GetUInt8 fl; mret (Some (UInt8 v))
             else mret None);
        offset ← write_optional v offset;
        let valid := (c =? FT_FLOAT) || (c =? FT_IND) || (c =? FT_INT) || (c =? FT_BYTE) || (c =? FT_SORT) in
        sql_columns format (tail fmt) fields
          (if valid && match format with [] => false | _ => true end then uwrap 32 (sqlColumnNumber + 1) else sqlColumnNumber) offset
    else mret None
  end.

(** One row; [false] when the load has failed. *)
Definition sql_row (sql : SqlDbc) (result : QueryResult) (fields : list Field) (sqlData rowIndex offset : Z) : store (option Z) :=
  fresh ← (if 0 <=? indexPos sql then
             fl ← column fields (sqlIndexPos sql);
             id ← GetUInt32 fl;
             p ← index_get id;
             match p with
             | Uninitialised => throw Undefined
             | At _ => mret false
             | Null => index_set id (At (sqlData + offset));; mret true
             end
           else index_set rowIndex (At (sqlData + offset));; mret true);
  if negb fresh then mret None
  else
    f ← gets fmt;
    r ← sql_columns (formatString sql) (f ++ [0]) fields 0 (sqlData + offset);
    match r with
    | None => mret None
    | Some (after, sqlColumnNumber) =>
      if negb (sqlColumnNumber =? uwrap 32 (GetFieldCount result - 1)) then mret None else mret (Some (after - sqlData))
    end.

Fixpoint sql_rows (sql : SqlDbc) (result : QueryResult) (rows : list (list Field)) (sqlData rowIndex offset : Z) : store bool :=
  match rows with
  | [] => mret true
  | fields :: rows =>
    r ← sql_row sql result fields sqlData rowIndex offset;
    match r with
    | None => mret false
    | Some offset => sql_rows sql result rows sqlData (uwrap 32 (rowIndex + 1)) offset
    end
  end.

Definition sql_query (sql : SqlDbc) : list Z :=
  (text "SELECT * FROM " ++ sqlTableName sql ++
   (if (0 <=? indexPos sql)%Z then text " ORDER BY " ++ indexName sql ++ text " DESC" else []) ++ text ";")%list.

(** The number of rows, the highest index, and whether the format fits the table. *)
Definition sql_bounds (sql : SqlDbc) (result : QueryResult) : store (option (Z * Z)) :=
  highest ← (if 0 <=? indexPos sql then fl ← column (first_row result) (sqlIndexPos sql); GetUInt32 fl else mret 0);
  if swrap 32 (GetFieldCount result - 1) <? sqlIndexPos sql then mret None
  else mret (Some (uwrap 32 (GetRowCount result), highest)).

(** ** DBCStorage *)

(** [dbc.Load(fn, fmt)] of a local loader. *)
Definition open_dbc (fn : list Z) : store (option DBCFileLoader) :=
  f ← gets fmt;
  match DbcFile.Load (fopen E fn) f (new_DBCFileLoader (memory E)) with
  | (Ret true, dbc) => mret (Some dbc)
  | (Ret false, _) => mret None
  | (Throw e, _) => throw e
  end.

Definition produce (sql : option SqlDbc) (dbc : DBCFileLoader) (result : option QueryResult) (sqlRecordCount sqlHighestIndex : Z) : store bool :=
  modify (with_s_fieldCount (GetCols dbc));;
  f ← gets fmt;
  sqlData ← AutoProduceData dbc f sqlRecordCount sqlHighestIndex;
  AutoProduceStrings dbc f;;
  t ← gets indexTable;
  match t, sql, result, sqlData with
  | None, _, _, _ => mret false
  | Some _, Some sql, Some result, Some sqlData => sql_rows sql result (result_rows result) sqlData (GetNumRows dbc) 0
  | Some _, Some _, Some _, None => throw Undefined
  | Some _, _, _, _ => mret true
  end.

Definition Load (fn : list Z) (sql : option SqlDbc) : store bool :=
  dbc ← open_dbc fn;
  match dbc with
  | None => mret false
  | Some dbc =>
    match (s ← sql; WorldDatabase_Query E (sql_query s)), sql with
    | Some result, Some s =>
      b ← sql_bounds s result;
      match b with
      | None => mret false
      | Some (sqlRecordCount, sqlHighestIndex) => produce sql dbc (Some result) sqlRecordCount sqlHighestIndex
      end
    | _, _ => produce sql dbc None 0 0
    end
  end.

(** A language: the strings that are still missing are taken from its file. *)
Definition LoadStringsFrom (fn : list Z) : store bool :=
  t ← gets indexTable;
  match t with
  | None => mret false
  | Some _ =>
    dbc ← open_dbc fn;
    match dbc with
    | None => mret false
    | Some dbc => f ← gets fmt; AutoProduceStrings dbc f;; mret true
    end
  end.

Definition Clear : store unit :=
  t ← gets indexTable;
  match t with
  | None => mret tt
  | Some _ => modify (λ s, mkStorage (fmt s) 0 (s_fieldCount s) None None [])
  end.

(** The structure of an index, by its position in the block; [None] for NULL. *)
Definition LookupEntry (id : Z) : store (option Z) :=
  n ← gets nCount;
  if n <=? id then mret None
  else p ← index_get id; match p with Uninitialised => throw Undefined | Null => mret None | At offset => mret (Some offset) end.

(** ** LoadDBC *)

Definition TOTAL_LOCALES : Z := 9.
Definition localeNames : list (list Z) :=
  text <$> ["enUS"; "koKR"; "frFR"; "deDE"; "zhCN"; "zhTW"; "esES"; "esMX"; "ruRU"]%string.

(** The languages from [i] on; the result is the set of those still available. *)
Fixpoint load_locales (dbcPath filename : list Z) (names : list (list Z)) (i available : Z) : store Z :=
  match names with
  | [] => mret available
  | name :: names =>
    if Z.land available (Z.shiftl 1 i) =? 0 then load_locales dbcPath filename names (i + 1) available
    else
      ok ← LoadStringsFrom (dbcPath ++ name ++ text "/" ++ filename)%list;
      load_locales dbcPath filename names (i + 1)
        (if ok : bool then available else Z.land available (uwrap 32 (Z.lnot (Z.shiftl 1 i))))
  end.

Definition problem (dbcFilename : list Z) (fieldCount expected : Z) : list Z :=
  (dbcFilename ++ take 99 (text " (exists, but has " ++ print_u64 fieldCount ++ text " fields instead of " ++ print_u64 expected ++
                           text ") Possible wrong client version."))%list.

(** The languages still available, and the file when it could not be used. [sizeof_T] is the
    size of the structure in the code. *)
Definition LoadDBC (sizeof_T : Z) (dbcPath filename : list Z) (custom : option (list Z * list Z)) (available : Z) : store (Z * option (list Z)) :=
  f ← gets fmt;
  '(size, _) ← GetFormatRecordSize (sizeof_ptr E) f;
  assert_ (size =? sizeof_T);;
  let dbcFilename := (dbcPath ++ filename)%list in
  sql ← match custom with
        | Some (customFormat, customIndexName) => s ← new_SqlDbc filename customFormat customIndexName f; mret (Some s)
        | None => mret None
        end;
  loaded ← Load dbcFilename sql;
  if loaded : bool then
    available ← load_locales dbcPath filename localeNames 0 available;
    mret (available, None)
  else
    n ← gets s_fieldCount;
    mret (available, Some (match fopen E dbcFilename with
                           | Some _ => problem dbcFilename n (Z.of_nat (length f))
                           | None => dbcFilename
                           end)).

End DataStore.
