(* ===== verification/DbcFacts.v ===== *)
(** * DbcFacts: a data file that is well formed is read as it was written

    [image] is the file of a table: rows of numbers, as wide as the format says, and a block of
    strings. [loaded] is a loader that has read it. *)

From Stdlib Require Import ZArith Lia.
From S2P Require Import Prelude ByteBuffer ByteBufferFacts DbcFile.
Local Open Scope Z_scope.

(** ** Windows of a block *)

Lemma window_mid {A} (a b c : list A) n m : n = Z.of_nat (length a) → m = Z.of_nat (length b) →
  take (Z.to_nat m) (drop (Z.to_nat n) (a ++ b ++ c)) = b.
Proof. intros -> ->. rewrite !Nat2Z.id, drop_app_length. apply take_app_length. Qed.

Lemma window_found (a b c : list Z) p n : p = Z.of_nat (length a) → n = Z.of_nat (length b) →
  window (Some <$> a ++ b ++ c) p n = Some (Some <$> b).
Proof.
  intros Hp Hn. unfold window. rewrite length_fmap, !length_app. decide_cmp.
  destruct (Z.leb_spec (p + n) (Z.of_nat (length a + (length b + length c)))); [|lia]. simpl. f_equal.
  rewrite !fmap_app. apply window_mid; by rewrite length_fmap.
Qed.

Lemma mapM_written (l : list Z) : mapM id (Some <$> l) = Some l.
Proof. by apply mapM_fmap_Some. Qed.

Lemma load_found (a b c : list Z) p n : p = Z.of_nat (length a) → length b = n → load_int n (Some <$> a ++ b ++ c) p = Some (le_val b).
Proof. intros -> <-. unfold load_int. rewrite (window_found a b c) by done. cbn. by rewrite mapM_written. Qed.

(** ** The file of a table *)

(** The bytes a field takes in the file. *)
Definition file_width (c : Z) : nat := if (c =? FT_BYTE) || (c =? FT_NA_BYTE) then 1 else 4.

Definition row_bytes (fmt row : list Z) : list Z := mjoin (zip_with (λ c v, le_bytes (file_width c) v) fmt row).
Definition row_width (fmt : list Z) : nat := sum_list_with file_width fmt.
Definition rows_bytes (fmt : list Z) (rows : list (list Z)) : list Z := mjoin (row_bytes fmt <$> rows).

Definition image (fmt : list Z) (rows : list (list Z)) (strings : list Z) : list Z :=
  le_bytes 4 0x43424457 ++ le_bytes 4 (Z.of_nat (length rows)) ++ le_bytes 4 (Z.of_nat (length fmt)) ++
  le_bytes 4 (Z.of_nat (row_width fmt)) ++ le_bytes 4 (Z.of_nat (length strings)) ++ rows_bytes fmt rows ++ strings.

(** Characters the switch on the format knows. *)
Definition known (c : Z) : Prop := is_Some (struct_size 0 c).

(** Every number fits its field, and every string begins in the block of strings. *)
Definition field_ok (strings : list Z) (c v : Z) : Prop :=
  in_u (8 * Z.of_nat (file_width c)) v ∧ (c = FT_STRING → v < Z.of_nat (length strings)).

Record table_ok (fmt : list Z) (rows : list (list Z)) (strings : list Z) : Prop := {
  tb_fmt : fmt ≠ [];
  tb_known : Forall known fmt;
  tb_rows : Forall (Forall2 (field_ok strings) fmt) rows;
  tb_some : rows ≠ [] ∨ strings ≠ [];
  tb_size : Z.of_nat (row_width fmt * length rows + length strings) < 2 ^ 32;
  tb_fields : Z.of_nat (4 * length fmt) < 2 ^ 32
}.

Lemma row_bytes_cons c fmt v row : row_bytes (c :: fmt) (v :: row) = le_bytes (file_width c) v ++ row_bytes fmt row.
Proof. done. Qed.

Lemma rows_bytes_cons fmt row rows : rows_bytes fmt (row :: rows) = row_bytes fmt row ++ rows_bytes fmt rows.
Proof. done. Qed.

Lemma row_width_cons c fmt : row_width (c :: fmt) = (file_width c + row_width fmt)%nat.
Proof. done. Qed.

Lemma file_width_pos c : (1 ≤ file_width c ≤ 4)%nat.
Proof. unfold file_width. destruct (_ || _); lia. Qed.

Lemma length_row_bytes s fmt row : Forall2 (field_ok s) fmt row → length (row_bytes fmt row) = row_width fmt.
Proof.
  induction 1 as [|c v fmt row _ _ IH]; [done|]. by rewrite row_bytes_cons, row_width_cons, length_app, length_le_bytes, IH.
Qed.

Lemma length_rows_bytes s fmt rows : Forall (Forall2 (field_ok s) fmt) rows → length (rows_bytes fmt rows) = (row_width fmt * length rows)%nat.
Proof.
  induction 1 as [|row rows H _ IH]; [cbn; lia|]. rewrite rows_bytes_cons, length_app, IH, (length_row_bytes s) by done. simpl. lia.
Qed.

Lemma row_width_pos fmt : fmt ≠ [] → (1 ≤ row_width fmt)%nat.
Proof. destruct fmt as [|c fmt]; [done|]. intros _. rewrite row_width_cons. pose proof (file_width_pos c). lia. Qed.

Lemma row_width_le fmt : (row_width fmt ≤ 4 * length fmt)%nat.
Proof. induction fmt as [|c fmt IH]; [done|]. rewrite row_width_cons. simpl. pose proof (file_width_pos c). lia. Qed.

(** A field in the bytes of its row. *)
Lemma row_split s fmt row x c v : Forall2 (field_ok s) fmt row → fmt !! x = Some c → row !! x = Some v →
  ∃ a b, row_bytes fmt row = a ++ le_bytes (file_width c) v ++ b ∧ length a = row_width (take x fmt).
Proof.
  intros H. revert x. induction H as [|c' v' fmt row Hv H IH]; intros x Hc Hr; [done|]. destruct x as [|x].
  - injection Hc as ->. injection Hr as ->. by exists [], (row_bytes fmt row).
  - destruct (IH x Hc Hr) as (a & b & He & Hl). exists (le_bytes (file_width c') v' ++ a), b. split.
    + by rewrite row_bytes_cons, He, <- app_assoc.
    + simpl take. by rewrite row_width_cons, length_app, length_le_bytes, Hl.
Qed.

(** A row in the bytes of the rows. *)
Lemma rows_split s fmt rows y row : Forall (Forall2 (field_ok s) fmt) rows → rows !! y = Some row →
  ∃ a b, rows_bytes fmt rows = a ++ row_bytes fmt row ++ b ∧ length a = (y * row_width fmt)%nat.
Proof.
  intros H. revert y. induction H as [|r rows Hr H IH]; intros y Hy; [done|]. destruct y as [|y].
  - injection Hy as ->. by exists [], (rows_bytes fmt rows).
  - destruct (IH y Hy) as (a & b & He & Hl). exists (row_bytes fmt r ++ a), b. split.
    + by rewrite rows_bytes_cons, He, <- app_assoc.
    + rewrite length_app, (length_row_bytes s), Hl by done. lia.
Qed.

(** ** Offsets *)

Definition offsets (fmt : list Z) : list Z := (λ x, Z.of_nat (row_width (take x fmt))) <$> seq 0 (length fmt).

Lemma row_width_snoc fmt x c : fmt !! x = Some c → row_width (take (S x) fmt) = (row_width (take x fmt) + file_width c)%nat.
Proof.
  intros Hc. rewrite (take_S_r _ _ _ Hc). unfold row_width. rewrite sum_list_with_app. simpl. lia.
Qed.

Lemma offsets_loop_spec fmt x n acc off t : Z.of_nat (4 * length fmt) < 2 ^ 32 → (x + n < length fmt)%nat →
  off = Z.of_nat (row_width (take x fmt)) →
  offsets_loop (drop x fmt ++ t) n off acc = Some (acc ++ ((λ x, Z.of_nat (row_width (take x fmt))) <$> seq (S x) n)).
Proof.
  intros Hb. revert x acc off. induction n as [|n IH]; intros x acc off Hn ->; [cbn; by rewrite app_nil_r|].
  destruct (lookup_lt_is_Some_2 fmt x ltac:(lia)) as [c Hc]. rewrite (drop_S _ _ _ Hc). cbn [app offsets_loop].
  assert (uwrap 32 (Z.of_nat (row_width (take x fmt)) + (if (c =? FT_BYTE) || (c =? FT_NA_BYTE) then 1 else 4)) =
    Z.of_nat (row_width (take (S x) fmt))) as ->.
  { rewrite (row_width_snoc fmt x c Hc). pose proof (row_width_le (take (S x) fmt)) as Hle.
    rewrite (row_width_snoc fmt x c Hc), length_take in Hle. rewrite uwrap_small; unfold file_width in *; [|split]; destruct (_ || _); lia. }
  rewrite IH by (done || lia). cbn. by rewrite <- app_assoc.
Qed.

Lemma field_offsets_spec fmt : fmt ≠ [] → Z.of_nat (4 * length fmt) < 2 ^ 32 →
  field_offsets fmt (Z.of_nat (length fmt)) = Some (offsets fmt).
Proof.
  intros Hf Hb. unfold field_offsets, offsets. assert (0 < length fmt)%nat by (destruct fmt; [done|simpl; lia]).
  destruct (Z.leb_spec (Z.of_nat (length fmt)) 0); [lia|]. rewrite Nat2Z.id.
  rewrite <- (drop_0 fmt) at 1. rewrite (offsets_loop_spec fmt 0) by (done || lia).
  destruct (length fmt) as [|n] eqn:E; [lia|]. done.
Qed.

(** ** The loader after the file was read *)

Record loaded (dbc : DBCFileLoader) (fmt : list Z) (rows : list (list Z)) (strings : list Z) : Prop := {
  ld_size : recordSize dbc = Z.of_nat (row_width fmt);
  ld_count : recordCount dbc = Z.of_nat (length rows);
  ld_fields : fieldCount dbc = Z.of_nat (length fmt);
  ld_strings : stringSize dbc = Z.of_nat (length strings);
  ld_offsets : fieldsOffset dbc = Some (offsets fmt);
  ld_data : data dbc = Some (Some <$> rows_bytes fmt rows ++ strings);
  ld_table : stringTable dbc = Z.of_nat (row_width fmt * length rows)
}.

Lemma fread_u32_reads g next v f l : in_u 32 v → fread_u32 g next (le_bytes 4 v ++ f) l = next f (g v l).
Proof.
  intros Hv. unfold fread_u32. rewrite length_app, length_le_bytes. destruct (Z.ltb_spec (Z.of_nat (4 + length f)) 4); [lia|].
  rewrite (take_app_length' _ _ 4) by done. rewrite (drop_app_length' _ _ 4) by done.
  rewrite le_val_le_bytes, uwrap_small by done. done.
Qed.

Lemma read_magic_reads next f l : read_magic next (le_bytes 4 0x43424457 ++ f) l = next f l.
Proof.
  unfold read_magic. rewrite length_app, length_le_bytes. destruct (Z.ltb_spec (Z.of_nat (4 + length f)) 4); [lia|].
  rewrite (take_app_length' _ _ 4) by done. by rewrite (drop_app_length' _ _ 4) by done.
Qed.

(** What [load_data] does with the bytes that are left. *)
Lemma load_data_run fmt f l rows strings : table_ok fmt rows strings →
  recordSize l = Z.of_nat (row_width fmt) → recordCount l = Z.of_nat (length rows) → fieldCount l = Z.of_nat (length fmt) →
  stringSize l = Z.of_nat (length strings) →
  let size := (row_width fmt * length rows + length strings)%nat in
  ∃ l', load_data fmt f l = (Ret (bool_decide (size ≤ length f)%nat), l') ∧
    (f = rows_bytes fmt rows ++ strings → loaded l' fmt rows strings).
Proof.
  intros Ht Hs Hc Hf Hst size. unfold load_data. rewrite (bind_ret_run _ _ _ (Z.of_nat (length fmt)) l) by (unfold gets; by rewrite Hf).
  rewrite field_offsets_spec by apply Ht. rewrite (bind_ret_run _ _ l (offsets fmt) l) by done.
  set (l1 := with_fieldsOffset (Some (offsets fmt)) l). rewrite (bind_ret_run _ _ l tt l1), (bind_ret_run _ _ l1 l1 l1) by done.
  change (recordSize l1) with (recordSize l). change (recordCount l1) with (recordCount l). change (stringSize l1) with (stringSize l).
  rewrite Hs, Hc, Hst. cbv zeta.
  assert (uwrap 32 (Z.of_nat (row_width fmt) * Z.of_nat (length rows)) = Z.of_nat (row_width fmt * length rows)) as ->.
  { rewrite <- Nat2Z.inj_mul. apply uwrap_small. pose proof (tb_size _ _ _ Ht). split; lia. }
  assert (uwrap 32 (Z.of_nat (row_width fmt * length rows) + Z.of_nat (length strings)) = Z.of_nat size) as ->.
  { rewrite <- Nat2Z.inj_add. apply uwrap_small. pose proof (tb_size _ _ _ Ht). split; lia. }
  destruct (Z.ltb_spec (Z.of_nat size) (Z.of_nat (row_width fmt * length rows))); [lia|].
  eexists. split.
  - cbn. f_equal. f_equal. assert (0 < size)%nat as Hpos.
    { pose proof (row_width_pos fmt (tb_fmt _ _ _ Ht)). destruct (tb_some _ _ _ Ht) as [Hr|Hr].
      - destruct rows; [done|]. unfold size. simpl. lia.
      - destruct strings; [done|]. unfold size. simpl. lia. }
    destruct (Z.eqb_spec (Z.of_nat size) 0); [lia|]. simpl. case_bool_decide; by decide_cmp.
  - intros ->. assert (length (rows_bytes fmt rows ++ strings) = size) as Hl by (rewrite length_app, (length_rows_bytes strings) by apply Ht; done).
    rewrite Nat2Z.id. split; try done. cbn. rewrite <- Hl, firstn_all, length_fmap, Nat.sub_diag. cbn. by rewrite app_nil_r.
Qed.

Lemma table_rows_32 fmt rows strings : table_ok fmt rows strings → in_u 32 (Z.of_nat (length rows)).
Proof.
  intros Ht. pose proof (tb_size _ _ _ Ht). pose proof (row_width_pos fmt (tb_fmt _ _ _ Ht)). split; [lia|].
  assert (length rows ≤ row_width fmt * length rows)%nat by (apply Nat.le_mul_l; lia). lia.
Qed.

(** The numbers of the header fit. *)
Lemma table_header_32 fmt rows strings : table_ok fmt rows strings →
  in_u 32 (Z.of_nat (length rows)) ∧ in_u 32 (Z.of_nat (length fmt)) ∧ in_u 32 (Z.of_nat (row_width fmt)) ∧ in_u 32 (Z.of_nat (length strings)).
Proof.
  intros Ht. split; [by eapply table_rows_32|]. pose proof (tb_size _ _ _ Ht). pose proof (tb_fields _ _ _ Ht). pose proof (row_width_le fmt).
  unfold in_u. split_and!; lia.
Qed.

(** ** Files that end early

    Given the first [n] bytes of [f], the reader says whether they are [need] at least, and
    then has read the table. *)

Definition reads_part (P Q : DBCFileLoader → Prop) (next : list Z → loader bool) (f : list Z) (need : nat) : Prop :=
  ∀ n l, P l → ∃ l', next (take n f) l = (Ret (bool_decide (need ≤ n)%nat), l') ∧ ((need ≤ n)%nat → Q l').

Lemma short_bytes v f n : (n < 4)%nat → (Z.of_nat (length (take n (le_bytes 4 v ++ f))) <? 4) = true.
Proof. intros. rewrite length_take, length_app, length_le_bytes. by decide_cmp. Qed.

Lemma long_bytes v (f : list Z) n : (4 ≤ n)%nat → take n (le_bytes 4 v ++ f) = le_bytes 4 v ++ take (n - 4) f.
Proof. intros. by rewrite take_app, length_le_bytes, take_ge by (rewrite length_le_bytes; lia). Qed.

Lemma part_magic P Q next f need : reads_part P Q next f need → reads_part P Q (read_magic next) (le_bytes 4 0x43424457 ++ f) (4 + need).
Proof.
  intros Hn n l Hl. destruct (Nat.le_gt_cases 4 n) as [H|H].
  - rewrite long_bytes, read_magic_reads by done. destruct (Hn (n - 4)%nat _ Hl) as (l' & -> & HQ). exists l'. split; [|intros; apply HQ; lia].
    f_equal. f_equal. apply bool_decide_ext. lia.
  - exists l. unfold read_magic. rewrite short_bytes by done. rewrite bool_decide_eq_false_2 by lia. split; [done|lia].
Qed.

Lemma part_fread (P Q : DBCFileLoader → Prop) g next v f need : in_u 32 v → reads_part P Q next f need →
  reads_part (λ l, P (g v l)) Q (fread_u32 g next) (le_bytes 4 v ++ f) (4 + need).
Proof.
  intros Hv Hn n l Hl. destruct (Nat.le_gt_cases 4 n) as [H|H].
  - rewrite long_bytes, fread_u32_reads by done. destruct (Hn (n - 4)%nat _ Hl) as (l' & -> & HQ). exists l'. split; [|intros; apply HQ; lia].
    f_equal. f_equal. apply bool_decide_ext. lia.
  - exists l. unfold fread_u32. rewrite short_bytes by done. rewrite bool_decide_eq_false_2 by lia. split; [done|lia].
Qed.

Lemma length_image fmt rows strings : table_ok fmt rows strings →
  length (image fmt rows strings) = (20 + (row_width fmt * length rows + length strings))%nat.
Proof. intros Ht. unfold image. rewrite !length_app, !length_le_bytes, (length_rows_bytes strings) by apply Ht. lia. Qed.

Lemma part_data fmt rows strings : table_ok fmt rows strings →
  reads_part (λ l, recordSize l = Z.of_nat (row_width fmt) ∧ recordCount l = Z.of_nat (length rows) ∧ fieldCount l = Z.of_nat (length fmt) ∧
    stringSize l = Z.of_nat (length strings)) (λ l, loaded l fmt rows strings) (load_data fmt) (rows_bytes fmt rows ++ strings)
    (row_width fmt * length rows + length strings).
Proof.
  intros Ht n l (Hs & Hc & Hf & Hst). set (f := rows_bytes fmt rows ++ strings).
  destruct (load_data_run fmt (take n f) l rows strings) as (l' & Hr & Hl); [done..|]. exists l'. cbv zeta in Hr.
  assert (length f = (row_width fmt * length rows + length strings)%nat) as Hlen.
  { unfold f. rewrite length_app, (length_rows_bytes strings) by apply Ht. done. }
  rewrite length_take, Hlen in Hr. split.
  - rewrite Hr. f_equal. f_equal. apply bool_decide_ext. lia.
  - intros Hn. apply Hl. rewrite take_ge by lia. done.
Qed.

(** [Load] of the whole file, and of any part of it. *)
Lemma Load_part fmt rows strings n l : table_ok fmt rows strings → ∃ l',
  DbcFile.Load (Some (take n (image fmt rows strings))) fmt l = (Ret (bool_decide (length (image fmt rows strings) ≤ n)%nat), l') ∧
  ((length (image fmt rows strings) ≤ n)%nat → loaded l' fmt rows strings).
Proof.
  intros Ht. destruct (table_header_32 _ _ _ Ht) as (H1 & H2 & H3 & H4). rewrite length_image by done.
  pose proof (part_data _ _ _ Ht) as Hp. apply (part_fread _ _ with_stringSize _ _ _ _ H4) in Hp.
  apply (part_fread _ _ with_recordSize _ _ _ _ H3) in Hp. apply (part_fread _ _ with_fieldCount _ _ _ _ H2) in Hp.
  apply (part_fread _ _ with_recordCount _ _ _ _ H1) in Hp. apply part_magic in Hp.
  unfold DbcFile.Load. rewrite (bind_ret_run _ _ l tt (with_data None l)) by done. unfold image. by apply (Hp n).
Qed.

(** ** Reading the records *)

Section Read.
Context {S : Type} (nd : bool) (dbc : DBCFileLoader) (fmt : list Z) (rows : list (list Z)) (strings : list Z).
Context (Ht : table_ok fmt rows strings) (Hd : loaded dbc fmt rows strings).

Lemma c_assert_true c (s : S) : c = true → c_assert nd c s = (Ret tt, s).
Proof. intros ->. by destruct nd. Qed.

Lemma getRecord_run y (s : S) : getRecord nd dbc y s = (Ret (y * Z.of_nat (row_width fmt)), s).
Proof.
  unfold getRecord. rewrite (bind_ret_run _ _ s tt s) by (apply c_assert_true; unfold IsLoaded; by rewrite (ld_data _ _ _ _ Hd)).
  by rewrite (ld_size _ _ _ _ Hd).
Qed.

Lemma GetOffset_run x (s : S) : (x < length fmt)%nat → GetOffset dbc (Z.of_nat x) s = (Ret (Z.of_nat (row_width (take x fmt))), s).
Proof.
  intros Hx. unfold GetOffset. rewrite (ld_offsets _ _ _ _ Hd), (ld_fields _ _ _ _ Hd). decide_cmp. unfold offsets.
  rewrite Nat2Z.id, list_lookup_fmap, lookup_seq_lt by done. done.
Qed.

(** The value of a field as the file has it. *)
Lemma field_at_run y row x c v n (s : S) : rows !! y = Some row → fmt !! x = Some c → row !! x = Some v → file_width c = n →
  field_at nd dbc n (Z.of_nat y * Z.of_nat (row_width fmt)) (Z.of_nat x) s = (Ret v, s).
Proof.
  intros Hy Hx Hv <-. pose proof (lookup_lt_Some _ _ _ Hx) as Hlt. unfold field_at.
  rewrite (bind_ret_run _ _ s tt s) by (apply c_assert_true; rewrite (ld_fields _ _ _ _ Hd); by decide_cmp).
  rewrite (bind_ret_run _ _ s _ s) by (by apply GetOffset_run). unfold load_at. rewrite (ld_data _ _ _ _ Hd). cbn [mbind option_bind].
  pose proof (tb_rows _ _ _ Ht) as Hrows. pose proof (proj1 (Forall_lookup _ _) Hrows y row Hy) as Hrow.
  destruct (rows_split strings fmt rows y row Hrows Hy) as (a & b & -> & Ha).
  destruct (row_split strings fmt row x c v Hrow Hx Hv) as (a' & b' & -> & Ha').
  replace ((a ++ (a' ++ le_bytes (file_width c) v ++ b') ++ b) ++ strings) with ((a ++ a') ++ le_bytes (file_width c) v ++ (b' ++ b ++ strings))
    by (by rewrite <- !app_assoc).
  rewrite (load_found (a ++ a') (le_bytes (file_width c) v)) by (rewrite ?length_le_bytes, ?length_app; lia).
  cbn. rewrite le_val_le_bytes. destruct (Forall2_lookup_lr _ _ _ _ _ _ Hrow Hx Hv) as [Hw _]. by rewrite uwrap_small.
Qed.

(** A string begins where the number says. *)
Lemma getString_run y row x v (s : S) : rows !! y = Some row → fmt !! x = Some FT_STRING → row !! x = Some v →
  getString nd dbc (Z.of_nat y * Z.of_nat (row_width fmt)) (Z.of_nat x) s = (Ret v, s).
Proof.
  intros Hy Hx Hv. pose proof (lookup_lt_Some _ _ _ Hx) as Hlt. unfold getString.
  rewrite (bind_ret_run _ _ s tt s) by (apply c_assert_true; rewrite (ld_fields _ _ _ _ Hd); by decide_cmp).
  rewrite (bind_ret_run _ _ s v s) by (by eapply field_at_run).
  pose proof (proj1 (Forall_lookup _ _) (tb_rows _ _ _ Ht) y row Hy) as Hrow.
  destruct (Forall2_lookup_lr _ _ _ _ _ _ Hrow Hx Hv) as [_ Hs]. specialize (Hs eq_refl).
  rewrite (bind_ret_run _ _ s tt s) by (apply c_assert_true; rewrite (ld_strings _ _ _ _ Hd); by decide_cmp). done.
Qed.

Lemma pool_run : (d ← data dbc; window d (stringTable dbc) (stringSize dbc)) = Some (Some <$> strings).
Proof.
  rewrite (ld_data _ _ _ _ Hd), (ld_table _ _ _ _ Hd), (ld_strings _ _ _ _ Hd). cbn [mbind option_bind].
  rewrite <- (app_nil_r strings) at 1. apply window_found; [|done]. by rewrite (length_rows_bytes strings) by apply Ht.
Qed.

End Read.
