(* ===== verification/DataStoreFacts.v ===== *)
(** * DataStoreFacts: tables are built as their files say

    [layout] is where the members of a structure are; [cells_all] and [index_all] are the two
    arrays after all records were put into them; [fill_all] is the block after the strings of
    a language were filled in. *)

From Stdlib Require Import ZArith Lia.
From S2P Require Import Prelude ByteBuffer Util Field DbcFile DbcFacts DataStore.
Local Open Scope Z_scope.

Section Facts.
Context (E : DEnv) (Hptr : 0 < sizeof_ptr E).

(** ** Structures *)

(** The members of a structure, [None] for a field that is left out. *)
Abbreviation members := (list (option cell)).

Definition struct_width (fmt : list Z) : Z := foldr (λ c n, default 0 (struct_size (sizeof_ptr E) c) + n) 0 fmt.

(** The member a field of the file becomes; a string gets the pointer [p]. *)
Definition member (p : option (nat * Z)) (c v : Z) : option cell :=
  if c =? FT_FLOAT then Some (Float v)
  else if (c =? FT_IND) || (c =? FT_INT) then Some (UInt32 v)
  else if c =? FT_BYTE then Some (UInt8 v)
  else if c =? FT_STRING then Some (CharPtr p)
  else None.

Definition structure (ptr : Z → option (nat * Z)) (fmt row : list Z) : members := zip_with (λ c v, member (ptr v) c v) fmt row.

Definition opt_width (o : option cell) : Z := match o with Some c => width E c | None => 0 end.

Fixpoint layout (off : Z) (ms : members) : list (Z * cell) :=
  match ms with
  | [] => []
  | o :: ms => match o with Some c => [(off, c)] | None => [] end ++ layout (off + opt_width o) ms
  end.

Definition insert_all (l : list (Z * cell)) (m : gmap Z cell) : gmap Z cell := foldl (λ m x, <[x.1 := x.2]> m) m l.

(** The structure at [off] is [ms]. *)
Definition holds (m : gmap Z cell) (off : Z) (ms : members) : Prop := ∀ o c, (o, c) ∈ layout off ms → m !! o = Some c.

(** What the code reads through a pointer to a structure. *)
Fixpoint read_struct (fmt : list Z) (m : gmap Z cell) (off : Z) : option members :=
  match fmt with
  | [] => Some []
  | c :: fmt =>
    let w := default 0 (struct_size (sizeof_ptr E) c) in
    o ← (if w =? 0 then Some None else Some <$> m !! off);
    cons o <$> read_struct fmt m (off + w)
  end.

(** The members are those of the format. *)
Definition fits (c : Z) (o : option cell) : Prop := known c ∧ opt_width o = default 0 (struct_size (sizeof_ptr E) c) ∧
  match o with Some (CharPtr _) => c = FT_STRING | _ => c ≠ FT_STRING end.

(** The widths of the characters. *)
Lemma struct_size_cases (P : Z → option Z → Prop) : (P FT_FLOAT (Some 4)) → P FT_INT (Some 4) → P FT_STRING (Some (sizeof_ptr E)) → P FT_SORT (Some 0) →
  P FT_IND (Some 4) → P FT_BYTE (Some 1) → P FT_NA (Some 0) → P FT_NA_BYTE (Some 0) → ∀ c, known c → P c (struct_size (sizeof_ptr E) c).
Proof.
  intros ? ? ? ? ? ? ? ? c [n Hn]. revert Hn. unfold struct_size.
  repeat (case_cmp; [by subst|]). done.
Qed.

Lemma member_fits p c v : known c → fits c (member p c v).
Proof.
  intros Hc. split; [done|]. revert c Hc.
  by apply (struct_size_cases (λ c n, opt_width (member p c v) = default 0 n ∧ match member p c v with Some (CharPtr _) => c = FT_STRING | _ => c ≠ FT_STRING end)).
Qed.

Lemma opt_width_nonneg o : 0 ≤ opt_width o.
Proof. destruct o as [[]|]; cbn; lia. Qed.

Lemma layout_range off ms o c : (o, c) ∈ layout off ms → off ≤ o ∧ o + width E c ≤ off + foldr (λ o n, opt_width o + n) 0 ms.
Proof.
  revert off. induction ms as [|m ms IH]; intros off H; [by apply elem_of_nil in H|].
  assert (0 ≤ foldr (λ o n, opt_width o + n) 0 ms) as Hpos by (clear -Hptr; induction ms as [|x ms IH]; cbn; [done|]; pose proof (opt_width_nonneg x); lia).
  cbn [layout foldr] in *. pose proof (opt_width_nonneg m). apply elem_of_app in H as [H|H].
  - destruct m as [c'|]; [|by apply elem_of_nil in H]. apply list_elem_of_singleton in H as [= -> ->]. cbn. lia.
  - apply IH in H. lia.
Qed.

Lemma members_width fmt ms : Forall2 fits fmt ms → foldr (λ o n, opt_width o + n) 0 ms = struct_width fmt.
Proof. induction 1 as [|c o fmt ms (_ & Hw & _) _ IH]; [done|]. unfold struct_width in *. cbn. by rewrite Hw, IH. Qed.

Lemma struct_width_nonneg fmt : Forall known fmt → 0 ≤ struct_width fmt.
Proof.
  induction 1 as [|c fmt Hc _ IH]; [done|]. unfold struct_width in *. cbn.
  assert (0 ≤ default 0 (struct_size (sizeof_ptr E) c)); [|lia]. revert c Hc. by apply (struct_size_cases (λ c n, 0 ≤ default 0 n)); cbn; try lia.
Qed.

Lemma insert_all_other l m o : (∀ c, (o, c) ∉ l) → insert_all l m !! o = m !! o.
Proof.
  revert m. induction l as [|[o' c'] l IH]; intros m H; [done|]. cbn. unfold insert_all in *. rewrite IH.
  - rewrite lookup_insert_ne; [done|]. intros ->. apply (H c'). by left.
  - intros c Hc. apply (H c). by right.
Qed.

Lemma insert_all_app l l' m : insert_all (l ++ l') m = insert_all l' (insert_all l m).
Proof. apply foldl_app. Qed.

(** What was put in last is there. *)
Lemma insert_layout_holds ms off m : holds (insert_all (layout off ms) m) off ms.
Proof.
  revert off m. induction ms as [|o ms IH]; intros off m o' c' H; [by apply elem_of_nil in H|]. cbn [layout] in *.
  rewrite insert_all_app. apply elem_of_app in H as [H|H]; [|by apply IH].
  destruct o as [c|]; [|by apply elem_of_nil in H]. apply list_elem_of_singleton in H as [= -> ->].
  rewrite insert_all_other; [cbn; by rewrite lookup_insert_eq|]. intros c' H. apply layout_range in H as [H _]. destruct c; cbn in H; lia.
Qed.

Lemma holds_tail m off o ms : holds m off (o :: ms) → holds m (off + opt_width o) ms.
Proof. intros H o' c' Hin. apply H. cbn. apply elem_of_app. by right. Qed.

Lemma holds_head m off c ms : holds m off (Some c :: ms) → m !! off = Some c.
Proof. intros H. apply H. by left. Qed.

Lemma read_holds fmt m off ms : Forall2 fits fmt ms → holds m off ms → read_struct fmt m off = Some ms.
Proof.
  intros Hf. revert off. induction Hf as [|c o fmt ms (_ & Hw & _) _ IH]; intros off H; [done|]. cbn.
  rewrite <- Hw in *. rewrite (IH (off + opt_width o)) by (by apply holds_tail). destruct o as [c'|].
  - destruct (Z.eqb_spec (opt_width (Some c')) 0) as [E0|_]; [destruct c'; cbn in E0; lia|].
    by rewrite (holds_head m off c' ms).
  - done.
Qed.

(** ** Writing members *)

Definition with_cells (m : gmap Z cell) (s : DBCStorage) : DBCStorage :=
  with_dataTable ((λ t, mkTable (t_size t) m) <$> dataTable s) s.

Definition room (s : DBCStorage) (n : Z) : Prop := ∃ t, dataTable s = Some t ∧ n ≤ t_size t < 2 ^ 32.
Definition cells_of (s : DBCStorage) : gmap Z cell := match dataTable s with Some t => cells t | None => ∅ end.

Lemma write_cell_run c off s : 0 ≤ off → room s (off + width E c) →
  write_cell E c off s = (Ret (off + width E c), with_cells (<[off := c]> (cells_of s)) s).
Proof.
  intros Hoff (t & Ht & Hsz). unfold write_cell. rewrite (bind_ret_run _ _ s (Some t) s) by (unfold gets; by rewrite Ht).
  rewrite (bind_ret_run _ _ s t s) by done. decide_cmp. cbn [andb].
  rewrite (bind_ret_run _ _ s tt (with_cells (<[off := c]> (cells_of s)) s)); [|unfold modify, with_cells, cells_of; by rewrite Ht].
  rewrite uwrap_small; [done|]. split; [destruct c; cbn; lia|lia].
Qed.

Lemma room_with_cells m s n : room s n → room (with_cells m s) n.
Proof. intros (t & Ht & Hn). exists (mkTable (t_size t) m). unfold with_cells. by rewrite Ht. Qed.

Lemma cells_with_cells m s n : room s n → cells_of (with_cells m s) = m.
Proof. intros (t & Ht & Hn). unfold cells_of, with_cells. by rewrite Ht. Qed.

Lemma with_cells_twice m m' s : with_cells m (with_cells m' s) = with_cells m s.
Proof. unfold with_cells. cbn. by destruct (dataTable s). Qed.

Lemma room_le s n n' : n' ≤ n → room s n → room s n'.
Proof. intros Hn (t & ? & ?). exists t. split; [done|lia]. Qed.

Lemma with_cells_same s : with_cells (cells_of s) s = s.
Proof. unfold with_cells, cells_of. destruct s as [? ? ? ? [[]|] ?]; done. Qed.

(** ** The records of the file *)

Section Records.
Context (dbc : DBCFileLoader) (fmt : list Z) (rows : list (list Z)) (strings : list Z).
Context (Ht : table_ok fmt rows strings) (Hd : loaded dbc fmt rows strings).

Definition record_at (y : nat) : Z := Z.of_nat y * Z.of_nat (row_width fmt).

Lemma field_known x c : fmt !! x = Some c → known c.
Proof. intros Hx. exact (proj1 (Forall_lookup _ _) (tb_known _ _ _ Ht) x c Hx). Qed.

Lemma next_field x c : fmt !! x = Some c → uwrap 32 (Z.of_nat x + 1) = Z.of_nat (S x).
Proof. intros Hx%lookup_lt_Some. rewrite uwrap_small; [lia|]. pose proof (tb_fields _ _ _ Ht). split; lia. Qed.

Lemma next_record y row : rows !! y = Some row → uwrap 32 (Z.of_nat y + 1) = Z.of_nat (S y).
Proof.
  intros Hy%lookup_lt_Some. rewrite uwrap_small; [lia|]. pose proof (table_rows_32 _ _ _ Ht) as [_ ?].
  split; lia.
Qed.

Lemma field_cell_run y row x c v (s : DBCStorage) : rows !! y = Some row → fmt !! x = Some c → row !! x = Some v →
  field_cell E dbc (record_at y) (Z.of_nat x) c s = (Ret (member None c v), s).
Proof.
  intros Hy Hx Hv. pose proof (field_known x c Hx) as Hc.
  assert (∀ n, file_width c = n → field_at (NDEBUG E) dbc n (record_at y) (Z.of_nat x) s = (Ret v, s)) as Hf by (intros n Hn; by eapply field_at_run).
  revert c Hc Hx Hf. apply (struct_size_cases (λ c _, fmt !! x = Some c → (∀ n, file_width c = n → _) → field_cell E dbc (record_at y) (Z.of_nat x) c s = _));
    intros Hx Hf; unfold field_cell, uint, getFloat, getUInt, getUInt8; cbn -[field_at]; try done; rewrite (bind_ret_run _ _ s v s) by (by apply Hf); done.
Qed.

Lemma drop_cons {A} (l l' : list A) x a : drop x l = a :: l' → l !! x = Some a ∧ drop (S x) l = l'.
Proof.
  intros H. split.
  - by rewrite <- (Nat.add_0_r x), <- lookup_drop, H.
  - by rewrite <- Nat.add_1_r, <- drop_drop, H.
Qed.

Lemma put_fields_run y row suf rsuf x off s : rows !! y = Some row → drop x fmt = suf → drop x row = rsuf → 0 ≤ off →
  room s (off + struct_width suf) →
  put_fields E dbc suf (record_at y) (Z.of_nat x) off s =
    (Ret (off + struct_width suf), with_cells (insert_all (layout off (structure (λ _, None) suf rsuf)) (cells_of s)) s).
Proof.
  intros Hy. revert rsuf x off s. induction suf as [|c suf IH]; intros rsuf x off s Hf Hr Hoff Hroom.
  - cbn. rewrite Z.add_0_r. unfold insert_all. cbn. by rewrite with_cells_same.
  - pose proof (proj1 (Forall_lookup _ _) (tb_rows _ _ _ Ht) y row Hy) as Hrow. destruct (drop_cons _ _ _ _ Hf) as [Hx Hf'].
    destruct (Forall2_lookup_l _ _ _ _ _ Hrow Hx) as (v & Hv & _). rewrite (drop_S _ _ _ Hv) in Hr. subst rsuf.
    pose proof (member_fits None c v (field_known x c Hx)) as (_ & Hw & _). pose proof (opt_width_nonneg (member None c v)).
    assert (0 ≤ struct_width suf). { apply struct_width_nonneg. rewrite <- Hf'. apply Forall_drop, Ht. }
    change (struct_width (c :: suf)) with (default 0 (struct_size (sizeof_ptr E) c) + struct_width suf) in *. rewrite <- Hw in *.
    cbn [put_fields]. rewrite (bind_ret_run _ _ s _ s) by (by eapply field_cell_run). rewrite (next_field x c Hx).
    change (structure _ (c :: suf) (v :: drop (S x) row)) with (member None c v :: structure (λ _, None) suf (drop (S x) row)). cbn [layout].
    rewrite insert_all_app. destruct (member None c v) as [m|].
    + cbn [opt_width] in *. rewrite (bind_ret_run _ _ s _ _ (write_cell_run m off s Hoff (room_le s (off + (width E m + struct_width suf)) (off + width E m) ltac:(lia) Hroom))).
      rewrite (IH (drop (S x) row)); [|done|done|lia|by apply room_with_cells; rewrite <- Z.add_assoc]. rewrite Z.add_assoc, with_cells_twice.
      rewrite (cells_with_cells _ _ _ Hroom). done.
    + rewrite (bind_ret_run _ _ s off s) by done. cbn [opt_width] in *. rewrite Z.add_0_l in *. rewrite Z.add_0_r. by rewrite (IH (drop (S x) row)).
Qed.

(** ** The index *)

(** The index of a record: its field [i], or its number when the format has no index. *)
Definition key (i : Z) (y : nat) (row : list Z) : Z := if 0 <=? i then default 0 (row !! Z.to_nat i) else Z.of_nat y.

Definition index_field (i : Z) : Prop := 0 ≤ i → ∃ c, fmt !! Z.to_nat i = Some c ∧ file_width c = 4%nat.

Lemma key_run i y row (s : DBCStorage) : index_field i → rows !! y = Some row →
  (if 0 <=? i then uint E dbc (record_at y) i else mret (Z.of_nat y)) s = (Ret (key i y row), s).
Proof.
  intros Hi Hy. unfold key. destruct (Z.leb_spec 0 i) as [H|H]; [|done]. destruct (Hi H) as (c & Hc & Hw).
  pose proof (proj1 (Forall_lookup _ _) (tb_rows _ _ _ Ht) y row Hy) as Hrow.
  destruct (Forall2_lookup_l _ _ _ _ _ Hrow Hc) as (v & Hv & _). rewrite Hv. simpl.
  rewrite <- (Z2Nat.id i) at 1 by done. by eapply field_at_run.
Qed.

Lemma key_nonneg i y row : rows !! y = Some row → 0 ≤ key i y row.
Proof.
  intros Hy. unfold key. destruct (Z.leb_spec 0 i); [|lia]. destruct (row !! Z.to_nat i) as [v|] eqn:Hv; simpl; [|done].
  pose proof (proj1 (Forall_lookup _ _) (tb_rows _ _ _ Ht) y row Hy) as Hrow.
  destruct (Forall2_lookup_r _ _ _ _ _ Hrow Hv) as (c & _ & [Hv0 _] & _). done.
Qed.

(** The two arrays after the records from number [y] on were put at [off]. *)
Fixpoint index_all (i : Z) (y : nat) (rs : list (list Z)) (off : Z) (idx : list ptr) : list ptr :=
  match rs with
  | [] => idx
  | r :: rs => index_all i (S y) rs (off + struct_width fmt) (<[Z.to_nat (key i y r) := At off]> idx)
  end.

Fixpoint cells_all (mss : list members) (off : Z) (m : gmap Z cell) : gmap Z cell :=
  match mss with
  | [] => m
  | ms :: mss => cells_all mss (off + struct_width fmt) (insert_all (layout off ms) m)
  end.

Definition with_index (idx : list ptr) (s : DBCStorage) : DBCStorage := with_indexTable (Some idx) s.

Lemma with_index_same s idx : indexTable s = Some idx → with_index idx s = s.
Proof. intros H. unfold with_index, with_indexTable. rewrite <- H. by destruct s. Qed.

Lemma index_get_run k p s idx : indexTable s = Some idx → 0 ≤ k < Z.of_nat (length idx) → idx !! Z.to_nat k = Some p → index_get k s = (Ret p, s).
Proof.
  intros Hi Hk Hp. unfold index_get. rewrite (bind_ret_run _ _ s (Some idx) s) by (unfold gets; by rewrite Hi).
  rewrite (bind_ret_run _ _ s idx s) by done. decide_cmp. cbn [andb]. by rewrite Hp.
Qed.

Lemma index_set_run k p s idx : indexTable s = Some idx → 0 ≤ k < Z.of_nat (length idx) →
  index_set k p s = (Ret tt, with_index (<[Z.to_nat k := p]> idx) s).
Proof.
  intros Hi Hk. destruct (lookup_lt_is_Some_2 idx (Z.to_nat k) ltac:(lia)) as [q Hq].
  unfold index_set. rewrite (bind_ret_run _ _ s q s) by (by eapply index_get_run). unfold modify, with_index. by rewrite Hi.
Qed.

Lemma struct_width_fmt : 0 ≤ struct_width fmt.
Proof. apply struct_width_nonneg, Ht. Qed.

Lemma put_records_run i rs y off s idx : index_field i → drop y rows = rs → indexTable s = Some idx → 0 ≤ off →
  (∀ y' r, (y ≤ y')%nat → rows !! y' = Some r → key i y' r < Z.of_nat (length idx)) →
  room s (off + struct_width fmt * Z.of_nat (length rs)) →
  put_records E dbc (length rs) fmt i (Z.of_nat y) off s =
    (Ret (off + struct_width fmt * Z.of_nat (length rs)),
     with_index (index_all i y rs off idx) (with_cells (cells_all (structure (λ _, None) fmt <$> rs) off (cells_of s)) s)).
Proof.
  intros Hi. pose proof struct_width_fmt as Hw. revert y off s idx. induction rs as [|r rs IH]; intros y off s idx Hrs Hidx Hoff Hk Hroom.
  - cbn. rewrite Z.mul_0_r, Z.add_0_r, with_cells_same, with_index_same by done. done.
  - destruct (drop_cons _ _ _ _ Hrs) as [Hy Hrs'].
    replace (struct_width fmt * Z.of_nat (length (r :: rs))) with (struct_width fmt + struct_width fmt * Z.of_nat (length rs)) in * by (simpl; lia).
    cbn [put_records length]. unfold record.
    rewrite (bind_ret_run _ _ s (record_at y) s) by (by eapply getRecord_run). rewrite (bind_ret_run _ _ s _ s) by (by apply (key_run i y r)).
    rewrite (bind_ret_run _ _ s tt _) by (apply index_set_run; [done|]; split; [by eapply key_nonneg|by eapply Hk]).
    set (idx' := <[_ := _]> idx). set (s1 := with_index idx' s).
    assert (0 ≤ struct_width fmt * Z.of_nat (length rs)) by (apply Z.mul_nonneg_nonneg; lia).
    rewrite (bind_ret_run _ _ s1 _ _ (put_fields_run y r fmt r 0 off s1 Hy eq_refl eq_refl Hoff
      (room_le s1 (off + (struct_width fmt + struct_width fmt * Z.of_nat (length rs))) (off + struct_width fmt) ltac:(lia) Hroom))).
    rewrite (next_record y r Hy), (IH (S y) _ _ idx').
    + rewrite Z.add_assoc. cbn [index_all fmap list_fmap cells_all]. f_equal. unfold with_index. rewrite (cells_with_cells _ s1 _ Hroom).
      unfold with_cells, with_indexTable. cbn. by destruct (dataTable s).
    + done.
    + done.
    + lia.
    + intros y' r' Hle Hy'. unfold idx'. rewrite length_insert. apply Hk; [lia|done].
    + apply room_with_cells. by rewrite <- Z.add_assoc.
Qed.

(** The block holds the structures one after the other. *)
Definition holds_all (m : gmap Z cell) (off : Z) (mss : list members) : Prop :=
  ∀ j ms, mss !! j = Some ms → holds m (off + Z.of_nat j * struct_width fmt) ms.

Lemma cells_all_before mss off m o : Forall (Forall2 fits fmt) mss → o < off → cells_all mss off m !! o = m !! o.
Proof.
  intros Hf. revert off m. induction Hf as [|ms mss Hms _ IH]; intros off m Ho; [done|]. cbn. pose proof struct_width_fmt.
  rewrite IH by lia. apply insert_all_other. intros c Hc%layout_range. lia.
Qed.

Lemma cells_all_holds mss off m : Forall (Forall2 fits fmt) mss → holds_all (cells_all mss off m) off mss.
Proof.
  intros Hf. revert off m. induction Hf as [|ms mss Hms Hf IH]; intros off m j ms' Hj; [done|]. destruct j as [|j].
  - injection Hj as <-. intros o c Ho. rewrite Z.mul_0_l, Z.add_0_r in Ho. cbn.
    rewrite cells_all_before; [by apply insert_layout_holds|done|]. apply layout_range in Ho. rewrite (members_width fmt ms Hms) in Ho.
    destruct c; cbn in Ho; lia.
  - cbn. replace (off + Z.of_nat (S j) * struct_width fmt) with (off + struct_width fmt + Z.of_nat j * struct_width fmt) by lia. by apply IH.
Qed.

Lemma cells_all_after mss off m o : Forall (Forall2 fits fmt) mss → off + Z.of_nat (length mss) * struct_width fmt ≤ o → cells_all mss off m !! o = m !! o.
Proof.
  intros Hf. revert off m. induction Hf as [|ms mss Hms _ IH]; intros off m Ho; [done|]. cbn [cells_all length] in *. pose proof struct_width_fmt.
  assert (0 ≤ Z.of_nat (length mss) * struct_width fmt) by (apply Z.mul_nonneg_nonneg; lia).
  rewrite IH by lia. apply insert_all_other. intros c Hc%layout_range. rewrite (members_width fmt ms Hms) in Hc. destruct c; cbn in Hc; lia.
Qed.

(** The first structures are written again, the others stay. *)
Lemma cells_all_app_holds mss' mss off m : Forall (Forall2 fits fmt) mss' → holds_all m off mss →
  holds_all (cells_all mss' off m) off (mss' ++ drop (length mss') mss).
Proof.
  intros Hf Hh j ms Hj. apply lookup_app_Some in Hj as [Hj|[Hle Hj]]; [by eapply cells_all_holds|].
  rewrite lookup_drop in Hj. replace (length mss' + (j - length mss'))%nat with j in Hj by lia. intros o c Ho.
  rewrite cells_all_after; [by eapply Hh|done|]. apply layout_range in Ho as [Ho _]. pose proof struct_width_fmt. nia.
Qed.

Lemma holds_all_take m off n mss : holds_all m off mss → holds_all m off (take n mss).
Proof. intros Hh j ms [Hj _]%lookup_take_Some. by apply Hh. Qed.

Lemma holds_all_tail m off ms mss : holds_all m off (ms :: mss) → holds m off ms ∧ holds_all m (off + struct_width fmt) mss.
Proof.
  intros H. split.
  - specialize (H O ms eq_refl). by rewrite Z.mul_0_l, Z.add_0_r in H.
  - intros j ms' Hj. specialize (H (S j) ms' Hj). by replace (off + struct_width fmt + Z.of_nat j * struct_width fmt) with (off + Z.of_nat (S j) * struct_width fmt) by lia.
Qed.

(** The last record with an index. *)
Fixpoint find_pos (i : Z) (y : nat) (rs : list (list Z)) (id : Z) : option nat :=
  match rs with
  | [] => None
  | r :: rs => match find_pos i (S y) rs id with Some z => Some z | None => if key i y r =? id then Some y else None end
  end.

Lemma index_all_lookup i y rs off idx id : 0 ≤ id → (∀ j r, rs !! j = Some r → 0 ≤ key i (y + j)%nat r < Z.of_nat (length idx)) →
  index_all i y rs off idx !! Z.to_nat id =
    match find_pos i y rs id with Some z => Some (At (off + (Z.of_nat z - Z.of_nat y) * struct_width fmt)) | None => idx !! Z.to_nat id end.
Proof.
  intros Hid. revert y off idx. induction rs as [|r rs IH]; intros y off idx Hk; [done|]. cbn [index_all find_pos].
  pose proof (Hk O r eq_refl) as Hk0. rewrite Nat.add_0_r in Hk0. rewrite IH.
  - destruct (find_pos i (S y) rs id) as [z|]; [f_equal; f_equal; lia|]. destruct (Z.eqb_spec (key i y r) id) as [<-|Hne].
    + rewrite list_lookup_insert_eq by lia. f_equal. f_equal. lia.
    + by rewrite list_lookup_insert_ne by lia.
  - intros j r' Hj. rewrite length_insert. rewrite Nat.add_succ_l, <- Nat.add_succ_r. by apply (Hk (S j)).
Qed.

Lemma length_index_all i y rs off idx : length (index_all i y rs off idx) = length idx.
Proof. revert y off idx. induction rs as [|r rs IH]; intros y off idx; [done|]. cbn. by rewrite IH, length_insert. Qed.

Lemma find_pos_key i y rs id z : find_pos i y rs id = Some z → ∃ j r, rs !! j = Some r ∧ z = (y + j)%nat ∧ key i z r = id.
Proof.
  revert y. induction rs as [|r rs IH]; intros y H; [done|]. cbn in H. destruct (find_pos i (S y) rs id) as [z'|] eqn:Hz.
  - injection H as ->. destruct (IH _ Hz) as (j & r' & ? & ? & ?). exists (S j), r'. split_and!; [done|lia|done].
  - destruct (Z.eqb_spec (key i y r) id) as [Hk|]; [|done]. injection H as <-. exists O, r. split_and!; [done|lia|done].
Qed.

(** The greatest index. *)
Lemma max_index_run i rs y maxi (s : DBCStorage) : index_field i → 0 ≤ i → drop y rows = rs → in_u 32 maxi →
  ∃ M, max_index E dbc (length rs) (Z.of_nat y) i maxi s = (Ret M, s) ∧ maxi ≤ M ∧ (∀ j r, rs !! j = Some r → key i (y + j)%nat r ≤ M) ∧
    (M = maxi ∨ ∃ j r, rs !! j = Some r ∧ M = key i (y + j)%nat r).
Proof.
  intros Hi H0. revert y maxi. induction rs as [|r rs IH]; intros y maxi Hrs Hm.
  - exists maxi. split_and!; [done|lia|done|by left].
  - destruct (drop_cons _ _ _ _ Hrs) as [Hy Hrs']. cbn [max_index length]. unfold record.
    rewrite (bind_ret_run _ _ s (record_at y) s) by (by eapply getRecord_run).
    pose proof (key_run i y r s Hi Hy) as Hkr. rewrite (proj2 (Z.leb_le 0 i) H0) in Hkr. rewrite (bind_ret_run _ _ s _ s Hkr).
    rewrite (next_record y r Hy).
    assert (in_u 32 (key i y r)) as Hk32.
    { unfold key. rewrite (proj2 (Z.leb_le 0 i) H0). pose proof (proj1 (Forall_lookup _ _) (tb_rows _ _ _ Ht) y r Hy) as Hrow.
      destruct (Hi H0) as (c & Hc & Hw). destruct (Forall2_lookup_l _ _ _ _ _ Hrow Hc) as (v & -> & [Hv _]). rewrite Hw in Hv. done. }
    set (m1 := if maxi <? key i y r then key i y r else maxi).
    destruct (IH (S y) m1 Hrs') as (M & -> & Hle & Hall & Hor); [unfold m1; by destruct (_ <? _)|].
    assert (maxi ≤ m1 ∧ key i y r ≤ m1) as [? ?] by (unfold m1; case_cmp; lia).
    exists M. split_and!; [done|lia| |].
    + intros [|j] r' Hj; [injection Hj as <-; rewrite Nat.add_0_r; lia|]. rewrite Nat.add_succ_r. by apply Hall.
    + destruct Hor as [->|(j & r' & Hj & ->)].
      * unfold m1. case_cmp; [|by left]. right. exists O, r. by rewrite Nat.add_0_r.
      * right. exists (S j), r'. by rewrite Nat.add_succ_r.
Qed.

(** ** The strings of a language *)

(** The pools in memory. *)
Definition in_memory (pools : list (list Z)) : list (option block) := (λ b : list Z, Some (Some <$> b : block)) <$> pools.

(** There is nothing at the pointer, or the empty string. *)
Definition empty_slot (pools : list (list Z)) (p : option (nat * Z)) : bool :=
  match p with None => true | Some (k, v) => bool_decide ((b ← pools !! k; b !! Z.to_nat v) = Some 0) end.

Definition slot_ok (pools : list (list Z)) (o : option cell) : Prop :=
  match o with Some (CharPtr (Some (k, v))) => 0 ≤ v ∧ is_Some (b ← pools !! k; b !! Z.to_nat v) | _ => True end.

(** A missing string is taken from the pool [k], where the file says [v]. *)
Definition fill_member (pools : list (list Z)) (k : nat) (o : option cell) (v : Z) : option cell :=
  match o with Some (CharPtr p) => if empty_slot pools p then Some (CharPtr (Some (k, v))) else o | _ => o end.

Lemma is_empty_run pools k v (s : DBCStorage) : slot_ok pools (Some (CharPtr (Some (k, v)))) →
  is_empty (in_memory pools) (k, v) s = (Ret (empty_slot pools (Some (k, v))), s).
Proof.
  intros [Hv [c Hc]]. unfold is_empty, empty_slot. cbn [fst snd]. unfold in_memory. rewrite list_lookup_fmap.
  destruct (pools !! k) as [b|]; [|done]. cbn [mbind option_bind fmap option_fmap option_map] in *.
  pose proof (lookup_lt_Some _ _ _ Hc) as Hlt.
  pose proof (load_found (take (Z.to_nat v) b) [c] (drop (S (Z.to_nat v)) b) v 1) as Hl. cbn [app] in Hl. rewrite (take_drop_middle _ _ _ Hc) in Hl.
  rewrite Hl by (rewrite ?length_take; done || lia). cbn [le_val]. rewrite Hc, Z.mul_0_r, Z.add_0_r.
  cbn [of_option]. rewrite (bind_ret_run _ _ s c s) by done.
  destruct (Z.eqb_spec c 0) as [->|Hn]; [by rewrite bool_decide_eq_true_2|]. by rewrite bool_decide_eq_false_2 by congruence.
Qed.

Lemma fill_member_fits pools k c o v : fits c o → fits c (fill_member pools k o v).
Proof. intros (Hc & Hw & Hs). destruct o as [[| | |p]|]; try done. cbn. by destruct (empty_slot pools p). Qed.

Lemma fill_cell_run pools pool y row x c v o off s : rows !! y = Some row → fmt !! x = Some c → row !! x = Some v →
  fits c o → slot_ok (pools ++ [pool]) o → 0 ≤ off → room s (off + opt_width o) → holds (cells_of s) off [o] →
  fill_field E dbc (in_memory (pools ++ [pool])) (record_at y) (Z.of_nat x) c off s =
    (Ret (off + opt_width o), with_cells (insert_all (layout off [fill_member (pools ++ [pool]) (length pools) o v]) (cells_of s)) s).
Proof.
  intros Hy Hx Hv Hfit Hok Hoff Hroom Hh. set (ps := pools ++ [pool]) in *.
  assert (∀ o', fill_member ps (length pools) o v = o' → o' = o → with_cells (insert_all (layout off [o']) (cells_of s)) s = s) as Hsame.
  { intros o' _ ->. destruct o as [m|]; cbn; [|apply with_cells_same]. unfold insert_all. cbn.
    rewrite insert_id by (by eapply holds_head). apply with_cells_same. }
  destruct Hfit as (Hc & Hw & Hk). destruct (decide (c = FT_STRING)) as [->|Hne].
  - destruct o as [[| | |p]|]; try done. change (fill_field _ _ _ _ _ _ _ _) with (fill_string E dbc (in_memory ps) (record_at y) (Z.of_nat x) off s).
    destruct Hroom as (t & Ht' & Hsz). pose proof (holds_head _ _ _ _ Hh) as Hm. unfold cells_of in Hm. rewrite Ht' in Hm.
    unfold fill_string. rewrite (bind_ret_run _ _ s p s).
    2:{ unfold read_slot. rewrite (bind_ret_run _ _ s (Some t) s) by (unfold gets; by rewrite Ht').
        rewrite (bind_ret_run _ _ s t s) by done. by rewrite Hm. }
    rewrite (bind_ret_run _ _ s (empty_slot ps p) s) by (destruct p as [[k0 v0]|]; [by apply is_empty_run|done]).
    cbn [opt_width width] in *. destruct (empty_slot ps p) eqn:He.
    + rewrite (bind_ret_run _ _ s v s) by (by eapply getString_run). unfold in_memory, ps at 1. rewrite length_fmap, length_app. simpl length.
      rewrite Nat.add_1_r. simpl pred. rewrite write_cell_run; [|done|by exists t]. cbn [fill_member]. rewrite He. done.
    + rewrite (Hsame _ eq_refl) by (cbn; by rewrite He). unfold mret, prog_ret. rewrite uwrap_small; [done|split; lia].
  - assert (fill_member ps (length pools) o v = o) as Ho by (destruct o as [[]|]; done). rewrite (Hsame _ eq_refl Ho). rewrite Hw in *.
    destruct Hroom as (t & Ht' & Hsz). revert c Hc Hx Hw Hk Hne Hsz.
    apply (struct_size_cases (λ c n, fmt !! x = Some c → opt_width o = default 0 n → _ → c ≠ FT_STRING → off + default 0 n ≤ t_size t < 2 ^ 32 →
      fill_field E dbc (in_memory ps) (record_at y) (Z.of_nat x) c off s = (Ret (off + default 0 n), s)));
      intros ? ? ? ? Hsz; unfold fill_field; cbn -[uwrap]; cbn in Hsz; try done; unfold mret, prog_ret;
      try (rewrite uwrap_small by (split; lia)); try rewrite Z.add_0_r; done.
Qed.

Definition filled (pools : list (list Z)) (k : nat) (ms : members) (row : list Z) : members := zip_with (fill_member pools k) ms row.

(** The structures after a file with the records [rows], which may be fewer. *)
Definition refilled (pools : list (list Z)) (k : nat) (mss : list members) (rows : list (list Z)) : list members :=
  zip_with (filled pools k) (take (length rows) mss) rows ++ drop (length rows) mss.

Lemma lookup_refilled pools k mss rs z :
  refilled pools k mss rs !! z = (λ ms, match rs !! z with Some row => filled pools k ms row | None => ms end) <$> mss !! z.
Proof.
  unfold refilled. destruct (decide (z < length rs)%nat) as [Hz|Hz].
  - destruct (lookup_lt_is_Some_2 rs z Hz) as [row Hrow]. destruct (mss !! z) as [ms|] eqn:Hms.
    + rewrite lookup_app_l by (rewrite length_zip_with, length_take; apply lookup_lt_Some in Hms; lia).
      by rewrite lookup_zip_with, lookup_take_lt, Hms, Hrow by done.
    + apply lookup_ge_None in Hms. rewrite lookup_ge_None_2; [done|]. rewrite length_app, length_zip_with, length_take, length_drop. lia.
  - rewrite (lookup_ge_None_2 rs) by lia. destruct (mss !! z) as [ms|] eqn:Hms.
    + pose proof (lookup_lt_Some _ _ _ Hms). rewrite lookup_app_r by (rewrite length_zip_with, length_take; lia).
      rewrite length_zip_with, length_take, lookup_drop. replace (length rs + (z - _))%nat with z by lia. done.
    + apply lookup_ge_None in Hms. rewrite lookup_ge_None_2; [done|]. rewrite length_app, length_zip_with, length_take, length_drop. lia.
Qed.

Lemma layout_cons off o ms : layout off (o :: ms) = layout off [o] ++ layout (off + opt_width o) ms.
Proof. cbn. by rewrite app_nil_r. Qed.

Lemma layout_one_width off o o' x : opt_width o' = opt_width o → (∃ c, (x, c) ∈ layout off [o']) → x = off ∧ 0 < opt_width o.
Proof.
  intros Hw [c H]. destruct o' as [c'|]; [|by apply elem_of_nil in H]. apply list_elem_of_singleton in H as [= -> ->].
  split; [done|]. rewrite <- Hw. destruct c'; cbn; lia.
Qed.

(** Writing one member leaves those after it. *)
Lemma holds_after m off o o' ms : opt_width o' = opt_width o → holds m off (o :: ms) → holds (insert_all (layout off [o']) m) (off + opt_width o) ms.
Proof.
  intros Hw H x c Hx. rewrite insert_all_other; [by eapply holds_tail|]. intros c' Hc'.
  destruct (layout_one_width off o o' x Hw) as [-> ?]; [by exists c'|]. apply layout_range in Hx as [? _]. lia.
Qed.

Lemma fill_fields_run pools pool y row suf ms rsuf x off s : rows !! y = Some row → drop x fmt = suf → drop x row = rsuf →
  Forall2 fits suf ms → Forall (slot_ok (pools ++ [pool])) ms → 0 ≤ off → room s (off + struct_width suf) → holds (cells_of s) off ms →
  fill_fields E dbc suf (in_memory (pools ++ [pool])) (record_at y) (Z.of_nat x) off s =
    (Ret (off + struct_width suf), with_cells (insert_all (layout off (filled (pools ++ [pool]) (length pools) ms rsuf)) (cells_of s)) s).
Proof.
  intros Hy Hf Hr Hfit. revert rsuf x off s Hf Hr. induction Hfit as [|c o suf ms Hco Hfit IH]; intros rsuf x off s Hf Hr Hok Hoff Hroom Hh.
  - cbn. rewrite Z.add_0_r. unfold insert_all. cbn. by rewrite with_cells_same.
  - pose proof (proj1 (Forall_lookup _ _) (tb_rows _ _ _ Ht) y row Hy) as Hrow. destruct (drop_cons _ _ _ _ Hf) as [Hx Hf'].
    destruct (Forall2_lookup_l _ _ _ _ _ Hrow Hx) as (v & Hv & _). rewrite (drop_S _ _ _ Hv) in Hr. subst rsuf.
    pose proof Hco as (_ & Hw & _). pose proof (opt_width_nonneg o). apply Forall_cons in Hok as [Hok Hoks].
    assert (0 ≤ struct_width suf). { apply struct_width_nonneg. rewrite <- Hf'. apply Forall_drop, Ht. }
    change (struct_width (c :: suf)) with (default 0 (struct_size (sizeof_ptr E) c) + struct_width suf) in *. rewrite <- Hw in *.
    cbn [fill_fields]. set (ps := pools ++ [pool]) in *. set (o' := fill_member ps (length pools) o v).
    assert (opt_width o' = opt_width o) as Hw' by (rewrite Hw; by apply (fill_member_fits ps (length pools) c o v Hco)).
    assert (holds (cells_of s) off [o]) as Hh1 by (intros x' c' Hin; apply Hh; rewrite layout_cons; apply elem_of_app; by left).
    rewrite (bind_ret_run _ _ s _ _ (fill_cell_run pools pool y row x c v o off s Hy Hx Hv Hco Hok Hoff
      (room_le s (off + (opt_width o + struct_width suf)) (off + opt_width o) ltac:(lia) Hroom) Hh1)).
    rewrite (next_field x c Hx). rewrite (IH (drop (S x) row)); [|done|done|done|lia|by apply room_with_cells; rewrite <- Z.add_assoc|].
    + rewrite Z.add_assoc, with_cells_twice, (cells_with_cells _ _ _ Hroom). change (filled ps _ (o :: ms) (v :: _)) with (o' :: filled ps (length pools) ms (drop (S x) row)).
      by rewrite (layout_cons off o' (filled ps (length pools) ms (drop (S x) row))), insert_all_app, Hw'.
    + rewrite (cells_with_cells _ _ _ Hroom). by apply holds_after.
Qed.

Lemma filled_fits pools k f ms row : Forall2 (field_ok strings) f row → Forall2 fits f ms → Forall2 fits f (filled pools k ms row).
Proof.
  intros Hr. revert ms. induction Hr as [|c v f r _ _ IH]; intros ms Hm; inversion Hm; subst; [done|].
  constructor; [by apply fill_member_fits|by apply IH].
Qed.

Lemma fill_records_run pools pool mss rs y off s : drop y rows = rs → Forall (Forall2 fits fmt) mss → length mss = length rs →
  Forall (Forall (slot_ok (pools ++ [pool]))) mss → 0 ≤ off → room s (off + struct_width fmt * Z.of_nat (length rs)) →
  holds_all (cells_of s) off mss →
  fill_records E dbc (length rs) fmt (in_memory (pools ++ [pool])) (Z.of_nat y) off s =
    (Ret (off + struct_width fmt * Z.of_nat (length rs)),
     with_cells (cells_all (zip_with (filled (pools ++ [pool]) (length pools)) mss rs) off (cells_of s)) s).
Proof.
  pose proof struct_width_fmt as Hw. intros Hrs Hfit. revert rs y off s Hrs.
  induction Hfit as [|ms mss Hms Hfit IH]; intros rs y off s Hrs Hlen Hok Hoff Hroom Hh; destruct rs as [|r rs]; try done.
  - cbn. by rewrite Z.mul_0_r, Z.add_0_r, with_cells_same.
  - destruct (drop_cons _ _ _ _ Hrs) as [Hy Hrs']. apply Forall_cons in Hok as [Hok Hoks]. apply holds_all_tail in Hh as [Hh Hhs].
    pose proof (proj1 (Forall_lookup _ _) (tb_rows _ _ _ Ht) y r Hy) as Hrow.
    replace (struct_width fmt * Z.of_nat (length (r :: rs))) with (struct_width fmt + struct_width fmt * Z.of_nat (length rs)) in * by (simpl; lia).
    assert (0 ≤ struct_width fmt * Z.of_nat (length rs)) by (apply Z.mul_nonneg_nonneg; lia).
    cbn [fill_records length]. unfold record. rewrite (bind_ret_run _ _ s (record_at y) s) by (by eapply getRecord_run).
    rewrite (bind_ret_run _ _ s _ _ (fill_fields_run pools pool y r fmt ms r 0 off s Hy eq_refl eq_refl Hms Hok Hoff
      (room_le s (off + (struct_width fmt + struct_width fmt * Z.of_nat (length rs))) (off + struct_width fmt) ltac:(lia) Hroom) Hh)).
    rewrite (next_record y r Hy), IH; [|done|by injection Hlen|done|lia|by apply room_with_cells; rewrite <- Z.add_assoc|].
    + rewrite Z.add_assoc, with_cells_twice, (cells_with_cells _ _ _ Hroom). done.
    + rewrite (cells_with_cells _ _ _ Hroom). intros j ms' Hj x c Hx. rewrite insert_all_other; [by eapply Hhs|].
      intros c' Hc'. apply layout_range in Hc'. apply layout_range in Hx as [? _].
      rewrite (members_width fmt _ (filled_fits _ _ _ _ _ Hrow Hms)) in Hc'.
      assert (0 ≤ Z.of_nat j * struct_width fmt) by (apply Z.mul_nonneg_nonneg; lia). destruct c'; cbn in Hc'; lia.
Qed.

End Records.

(** ** The format *)

(** The field that is the index: the last one marked so, or -1. *)
Fixpoint index_from (fmt : list Z) (x i : Z) : Z :=
  match fmt with
  | [] => i
  | c :: fmt => index_from fmt (x + 1) (if (c =? FT_SORT) || (c =? FT_IND) then x else i)
  end.

Definition index_of (fmt : list Z) : Z := index_from fmt 0 (-1).

Lemma format_loop_run {S} suf x i n (s : S) : Forall known suf → 0 ≤ x → x + Z.of_nat (length suf) < 2 ^ 31 → 0 ≤ n → n + struct_width suf < 2 ^ 32 →
  format_loop (sizeof_ptr E) suf x i n s = (Ret (n + struct_width suf, index_from suf x i), s).
Proof.
  intros Hk. revert x i n. induction Hk as [|c suf Hc Hk IH]; intros x i n Hx Hlen Hn Hw; [by rewrite Z.add_0_r|].
  pose proof (struct_width_nonneg suf Hk). change (struct_width (c :: suf)) with (default 0 (struct_size (sizeof_ptr E) c) + struct_width suf) in *.
  cbn [format_loop index_from length] in *.
  assert (∃ w, struct_size (sizeof_ptr E) c = Some w ∧ 0 ≤ w) as (w & Hs & H0)
    by (revert c Hc Hw; apply (struct_size_cases (λ c o, _ → ∃ w, o = Some w ∧ 0 ≤ w)); intros _; eexists; (split; [reflexivity|]); clear -Hptr; lia).
  rewrite Hs in *. cbn [default from_option id] in *. rewrite !uwrap_small, swrap_small by (unfold in_u, in_s; change (32 - 1) with 31; lia). rewrite IH by lia. by rewrite Z.add_assoc.
Qed.

Lemma index_from_field fmt x i : i < x → index_from fmt x i = i ∨ ∃ y c, index_from fmt x i = x + Z.of_nat y ∧ fmt !! y = Some c ∧ file_width c = 4%nat.
Proof.
  revert x i. induction fmt as [|c fmt IH]; intros x i Hi; [by left|]. cbn. destruct ((c =? FT_SORT) || (c =? FT_IND)) eqn:Hc.
  - right. destruct (IH (x + 1) x) as [->|(y & c' & -> & Hy & Hw)]; [lia| |].
    + exists O, c. split_and!; [lia|done|]. by apply orb_true_iff in Hc as [->%Z.eqb_eq| ->%Z.eqb_eq].
    + exists (S y), c'. split_and!; [lia|done..].
  - destruct (IH (x + 1) i) as [->|(y & c' & -> & Hy & Hw)]; [lia|by left|]. right. exists (S y), c'. split_and!; [lia|done..].
Qed.

Lemma index_of_field fmt : index_field fmt (index_of fmt).
Proof.
  intros H. unfold index_of in *. destruct (index_from_field fmt 0 (-1)) as [He|(y & c & He & Hy & Hw)]; [lia|lia|].
  rewrite He, Z.add_0_l, Nat2Z.id. by exists c.
Qed.

(** ** A table that was built *)

(** Bounds of the code: the block of structures and the indices stay below [2^32]. *)
Record indexed (fmt : list Z) (rows : list (list Z)) : Prop := {
  ix_width : struct_width fmt < 2 ^ 32;
  ix_size : struct_width fmt * Z.of_nat (length rows) < 2 ^ 32;
  ix_key : ∀ y row, rows !! y = Some row → key (index_of fmt) y row < 2 ^ 32 - 1
}.

Abbreviation found fmt rows id := (find_pos (index_of fmt) 0 rows id).

Record built (f : list Z) (rows : list (list Z)) (mss : list members) (pools : list (list Z)) (s : DBCStorage) : Prop := {
  bt_fmt : fmt s = f;
  bt_room : room s (struct_width f * Z.of_nat (length rows));
  bt_holds : holds_all f (cells_of s) 0 mss;
  bt_fits : Forall (Forall2 fits f) mss;
  bt_length : length mss = length rows;
  bt_index : ∃ idx, indexTable s = Some idx ∧ nCount s = Z.of_nat (length idx) ∧ ∀ id, 0 ≤ id →
    (id < nCount s → idx !! Z.to_nat id = Some (match found f rows id with Some z => At (Z.of_nat z * struct_width f) | None => Null end)) ∧
    (nCount s ≤ id → found f rows id = None);
  bt_pools : stringPoolList s = in_memory pools
}.

(** The structure of an index, read through the pointer [LookupEntry] answers. *)
Definition get_entry (id : Z) : store (option members) :=
  p ← LookupEntry id;
  match p with
  | None => mret None
  | Some p => f ← gets fmt; m ← gets cells_of; ms ← of_option (read_struct f m p); mret (Some ms)
  end.

Lemma LookupEntry_run f rows mss pools s id : built f rows mss pools s → 0 ≤ id →
  LookupEntry id s = (Ret ((λ z : nat, Z.of_nat z * struct_width f) <$> found f rows id), s).
Proof.
  intros Hb Hid. destruct (bt_index _ _ _ _ _ Hb) as (idx & Hi & Hn & H). destruct (H id Hid) as [Hin Hout].
  unfold LookupEntry. rewrite (bind_ret_run _ _ s (nCount s) s) by done. destruct (Z.leb_spec (nCount s) id) as [Hle|Hlt]; [by rewrite Hout|].
  rewrite (bind_ret_run _ _ s (match found f rows id with Some z => At (Z.of_nat z * struct_width f) | None => Null end) s).
  - by destruct (found f rows id).
  - eapply index_get_run; [done|lia|by apply Hin].
Qed.

Lemma found_lt i y rows id z : find_pos i y rows id = Some z → (y ≤ z < y + length rows)%nat.
Proof. intros (j & r & Hj%lookup_lt_Some & -> & _)%find_pos_key. lia. Qed.

(** Every index that is found has its structure, every other one has none. *)
Lemma get_entry_run f rows mss pools s id : built f rows mss pools s → 0 ≤ id →
  get_entry id s = (Ret (found f rows id ≫= λ z, mss !! z), s).
Proof.
  intros Hb Hid. unfold get_entry. rewrite (bind_ret_run _ _ s _ s (LookupEntry_run _ _ _ _ _ _ Hb Hid)).
  destruct (found f rows id) as [z|] eqn:Hz; [|done]. cbn. unfold gets, mbind, prog_bind. rewrite (bt_fmt _ _ _ _ _ Hb).
  destruct (lookup_lt_is_Some_2 mss z) as [ms Hms]; [rewrite (bt_length _ _ _ _ _ Hb); apply found_lt in Hz; lia|].
  pose proof (bt_holds _ _ _ _ _ Hb z ms Hms) as Hh. rewrite Z.add_0_l in Hh.
  pose proof (proj1 (Forall_lookup _ _) (bt_fits _ _ _ _ _ Hb) z ms Hms) as Hf. by rewrite (read_holds f _ _ ms Hf Hh), Hms.
Qed.

(** Without an index the records are found by their numbers. *)
Lemma find_pos_number i y rs id : i < 0 → Z.of_nat y ≤ id < Z.of_nat (y + length rs) → find_pos i y rs id = Some (Z.to_nat id).
Proof.
  intros Hi. revert y. induction rs as [|r rs IH]; intros y Hid; [simpl in Hid; lia|]. cbn [find_pos].
  unfold key. destruct (Z.leb_spec 0 i); [lia|]. destruct (Z.eqb_spec (Z.of_nat y) id) as [<-|Hne].
  - rewrite Nat2Z.id. destruct (find_pos i (S y) rs (Z.of_nat y)) as [z|] eqn:Hz; [|done].
    pose proof (found_lt _ _ _ _ _ Hz). apply find_pos_key in Hz as (j & r' & _ & -> & Hk). unfold key in Hk.
    destruct (Z.leb_spec 0 i); lia.
  - rewrite IH; [done|]. simpl in Hid. lia.
Qed.

Section Build.
Context (dbc : DBCFileLoader) (f : list Z) (rows : list (list Z)) (strings : list Z).
Context (Ht : table_ok f rows strings) (Hd : loaded dbc f rows strings).

Lemma format_run {S} (s : S) : struct_width f < 2 ^ 32 → GetFormatRecordSize (sizeof_ptr E) f s = (Ret (struct_width f, index_of f), s).
Proof.
  intros Hw. unfold GetFormatRecordSize. rewrite format_loop_run; [done|apply Ht|done| |done|done].
  pose proof (tb_fields _ _ _ Ht). lia.
Qed.

Lemma structure_fits ptr : Forall (Forall2 fits f) (structure ptr f <$> rows).
Proof.
  apply Forall_fmap. eapply Forall_impl; [apply Ht|]. intros row Hrow. simpl. pose proof (tb_known _ _ _ Ht) as Hk. clear Ht Hd.
  induction Hrow as [|c v fm row _ _ IH]; [done|]. apply Forall_cons in Hk as [Hc Hk]. constructor; [by apply member_fits|by apply IH].
Qed.

Lemma length_check : (Z.of_nat (length f) =? fieldCount dbc) = true.
Proof. rewrite (ld_fields _ _ _ _ Hd). apply Z.eqb_refl. Qed.

(** The array of pointers is made long enough for every index. *)
Lemma index_made (s : DBCStorage) : indexed f rows → ∃ n p s1,
  (if 0 <=? index_of f then
     maxi ← max_index E dbc (Z.to_nat (recordCount dbc)) 0 (index_of f) 0;
     let maxi := uwrap 32 ((if maxi <? 0 then 0 else maxi) + 1) in
     modify (with_nCount maxi);;
     modify (with_indexTable (Some (replicate (Z.to_nat maxi) Null)))
   else
     modify (with_nCount (uwrap 32 (recordCount dbc + 0)));;
     modify (with_indexTable (Some (replicate (Z.to_nat (uwrap 32 (recordCount dbc + 0))) Uninitialised)))) s = (Ret tt, s1) ∧
  s1 = with_index (replicate n p) (with_nCount (Z.of_nat n) s) ∧
  (∀ y r, rows !! y = Some r → key (index_of f) y r < Z.of_nat n) ∧
  (∀ id, 0 ≤ id < Z.of_nat n → found f rows id = None → p = Null).
Proof.
  intros Hix. rewrite (ld_count _ _ _ _ Hd), Nat2Z.id. destruct (Z.leb_spec 0 (index_of f)) as [Hi|Hi].
  - destruct (max_index_run dbc f rows strings Ht Hd (index_of f) rows 0 0 s (index_of_field f) Hi eq_refl) as (M & Hr & HM & Hall & Hor); [by split|].
    assert (M < 2 ^ 32 - 1) as HM32. { destruct Hor as [->|(j & r & Hj & ->)]; [lia|]. by eapply (ix_key _ _ Hix). }
    exists (S (Z.to_nat M)), Null. eexists. rewrite (bind_ret_run _ _ s M s Hr). rewrite (proj2 (Z.ltb_ge M 0)) by lia.
    rewrite uwrap_small by (split; lia). cbv zeta. replace (M + 1) with (Z.of_nat (S (Z.to_nat M))) by lia. rewrite Nat2Z.id. split_and!; [done|done| |done].
    intros y r Hy. specialize (Hall y r Hy). rewrite Nat.add_0_l in Hall. lia.
  - exists (length rows), Uninitialised. eexists. pose proof (table_rows_32 _ _ _ Ht). rewrite Z.add_0_r, uwrap_small by done. rewrite Nat2Z.id.
    split_and!; [done|done| |].
    + intros y r Hy%lookup_lt_Some. unfold key. destruct (Z.leb_spec 0 (index_of f)); lia.
    + intros id Hid Hno. rewrite find_pos_number in Hno by (done || simpl; lia). done.
Qed.

Lemma AutoProduceData_run pools (s : DBCStorage) : indexed f rows → fmt s = f → stringPoolList s = in_memory pools → ∃ off s1,
  AutoProduceData E dbc f 0 0 s = (Ret (Some off), s1) ∧ built f rows (structure (λ _, None) f <$> rows) pools s1.
Proof.
  intros Hix Hfmt Hpools. unfold AutoProduceData. rewrite length_check. cbn [negb].
  rewrite (bind_ret_run _ _ s _ s (format_run s (ix_width _ _ Hix))). cbv zeta.
  destruct (index_made s Hix) as (n & p & s1 & Hr & Hs1 & Hk & Hp). rewrite (bind_ret_run _ _ s tt s1 Hr).
  rewrite (ld_count _ _ _ _ Hd), Z.add_0_r, (uwrap_small 32 (Z.of_nat (length rows))), Nat2Z.id by (by eapply table_rows_32).
  pose proof (struct_width_fmt f rows strings Ht) as Hw. pose proof (ix_size _ _ Hix) as Hsz.
  rewrite uwrap_small by (split; [apply Z.mul_nonneg_nonneg; lia|lia]).
  set (s2 := with_dataTable (Some (mkTable (Z.of_nat (length rows) * struct_width f) ∅)) s1).
  rewrite (bind_ret_run _ _ s1 tt s2) by done.
  assert (room s2 (struct_width f * Z.of_nat (length rows))) as Hroom by (eexists; split; [done|simpl; lia]).
  rewrite (bind_ret_run _ _ s2 _ _ (put_records_run dbc f rows strings Ht Hd (index_of f) rows 0 0 s2 (replicate n p) (index_of_field f) eq_refl
    ltac:(unfold s2; by rewrite Hs1) ltac:(lia) ltac:(intros y r _ Hy; rewrite length_replicate; by eapply Hk) ltac:(by rewrite Z.add_0_l))).
  eexists _, _. split; [done|]. split; try done.
  - change (fmt s1 = f). by rewrite Hs1.
  - by apply (room_with_cells _ s2).
  - change (cells_of (with_index ?x ?y)) with (cells_of y). rewrite (cells_with_cells _ s2 _ Hroom). apply (cells_all_holds f rows strings Ht), structure_fits.
  - apply structure_fits.
  - by rewrite length_fmap.
  - eexists. split; [done|]. rewrite length_index_all, length_replicate. split; [change (nCount s1 = Z.of_nat n); by rewrite Hs1|]. intros id Hid. change (nCount (with_index ?x ?y)) with (nCount s1).
    rewrite Hs1. simpl nCount. rewrite (index_all_lookup f); [|done|].
    + split.
      * intros Hlt. destruct (found f rows id) as [z|] eqn:Hz; [by rewrite Z.sub_0_r, Z.add_0_l|]. rewrite lookup_replicate_2 by lia. f_equal.
        by eapply Hp.
      * intros Hge. destruct (found f rows id) as [z|] eqn:Hz; [|done]. apply find_pos_key in Hz as (j & r & Hj & -> & <-).
        specialize (Hk j r Hj). rewrite Nat.add_0_l in Hge. lia.
    + intros j r Hj. rewrite length_replicate. split; [by eapply key_nonneg|by eapply Hk].
  - change (stringPoolList s1 = in_memory pools). by rewrite Hs1.
Qed.

(** The strings of this file go into a table that may be of another file with as many rows or
    more. *)
Lemma AutoProduceStrings_run rows0 mss pools s : built f rows0 mss pools s → (length rows ≤ length rows0)%nat →
  Forall (Forall (slot_ok (pools ++ [strings]))) mss → ∃ s1,
  AutoProduceStrings E dbc f s = (Ret tt, s1) ∧
  built f rows0 (refilled (pools ++ [strings]) (length pools) mss rows) (pools ++ [strings]) s1.
Proof.
  intros Hb Hlen Hok. unfold AutoProduceStrings. rewrite (bind_ret_run _ _ s (stringPoolList s) s) by done.
  rewrite length_check. cbn [negb]. rewrite (pool_run dbc f rows strings Ht Hd). rewrite (bind_ret_run _ _ s (Some <$> strings) s) by done.
  rewrite (bt_pools _ _ _ _ _ Hb).
  replace (in_memory pools ++ [Some (Some <$> strings : block)]) with (in_memory (pools ++ [strings])) by (unfold in_memory; by rewrite fmap_app).
  set (s1 := with_stringPoolList (in_memory (pools ++ [strings])) s). rewrite (bind_ret_run _ _ s tt s1) by done. rewrite (ld_count _ _ _ _ Hd), Nat2Z.id.
  pose proof (bt_fits _ _ _ _ _ Hb) as Hfits. pose proof (bt_length _ _ _ _ _ Hb) as Hl. pose proof (struct_width_fmt f rows strings Ht) as Hw.
  assert (room s1 (0 + struct_width f * Z.of_nat (length rows))) as Hroom.
  { eapply room_le; [|exact (bt_room _ _ _ _ _ Hb)]. rewrite Z.add_0_l. apply Z.mul_le_mono_nonneg_l; lia. }
  set (fill := zip_with (filled (pools ++ [strings]) (length pools)) (take (length rows) mss) rows).
  assert (length fill = length rows) as Hfl by (unfold fill; rewrite length_zip_with, length_take; lia).
  rewrite (bind_ret_run _ _ s1 _ _ (fill_records_run dbc f rows strings Ht Hd pools strings (take (length rows) mss) rows 0 0 s1 eq_refl
    ltac:(by apply Forall_take) ltac:(rewrite length_take; lia) ltac:(by apply Forall_take) ltac:(lia) Hroom
    (holds_all_take f _ _ _ _ (bt_holds _ _ _ _ _ Hb)))).
  assert (Forall (Forall2 fits f) fill) as Hfits'.
  { apply Forall_lookup. intros j ms' (ms & row & -> & [Hms _]%lookup_take_Some & Hrow)%lookup_zip_with_Some.
    eapply filled_fits; [exact (proj1 (Forall_lookup _ _) (tb_rows _ _ _ Ht) j row Hrow)|exact (proj1 (Forall_lookup _ _) Hfits j ms Hms)]. }
  assert (refilled (pools ++ [strings]) (length pools) mss rows = fill ++ drop (length fill) mss) as -> by (unfold refilled; by rewrite Hfl).
  eexists. split; [done|]. split.
  - exact (bt_fmt _ _ _ _ _ Hb).
  - apply (room_with_cells _ s1), (bt_room _ _ _ _ _ Hb).
  - rewrite (cells_with_cells _ s1 _ Hroom). apply (cells_all_app_holds f rows strings Ht); [done|exact (bt_holds _ _ _ _ _ Hb)].
  - apply Forall_app. split; [done|by apply Forall_drop].
  - rewrite length_app, length_drop. lia.
  - exact (bt_index _ _ _ _ _ Hb).
  - done.
Qed.

End Build.

(** ** Loading *)

Lemma open_dbc_part fn f rows strings n s : table_ok f rows strings → fmt s = f → fopen E fn = Some (take n (image f rows strings)) → ∃ dbc,
  open_dbc E fn s = (Ret (if decide (length (image f rows strings) ≤ n)%nat then Some dbc else None), s) ∧
  ((length (image f rows strings) ≤ n)%nat → loaded dbc f rows strings).
Proof.
  intros Ht Hf Hfn. destruct (Load_part f rows strings n (new_DBCFileLoader (memory E)) Ht) as (dbc & Hr & Hd). exists dbc. split; [|done].
  unfold open_dbc. rewrite (bind_ret_run _ _ s f s) by (unfold gets; by rewrite Hf). rewrite Hfn, Hr.
  by destruct (decide _); [rewrite bool_decide_eq_true_2|rewrite bool_decide_eq_false_2].
Qed.

Lemma open_dbc_run fn f rows strings s : table_ok f rows strings → fmt s = f → fopen E fn = Some (image f rows strings) → ∃ dbc,
  open_dbc E fn s = (Ret (Some dbc), s) ∧ loaded dbc f rows strings.
Proof.
  intros Ht Hf Hfn. destruct (open_dbc_part fn f rows strings (length (image f rows strings)) s) as (dbc & Hr & Hd); [done..|by rewrite firstn_all|].
  exists dbc. rewrite decide_True in Hr by done. split; [done|by apply Hd].
Qed.

(** A file without rows in the database. *)
Lemma Load_run fn f rows strings : table_ok f rows strings → indexed f rows → fopen E fn = Some (image f rows strings) → ∃ s,
  Load E fn None (new_DBCStorage f) = (Ret true, s) ∧ built f rows (structure (λ v, Some (0%nat, v)) f <$> rows) [strings] s.
Proof.
  intros Ht Hix Hfn. set (s0 := new_DBCStorage f). destruct (open_dbc_run fn f rows strings s0) as (dbc & Hr & Hd); [done..|].
  unfold Load. rewrite (bind_ret_run _ _ s0 _ s0 Hr). cbn [mbind option_bind]. unfold produce.
  set (s1 := with_s_fieldCount (GetCols dbc) s0). rewrite (bind_ret_run _ _ s0 tt s1) by done. rewrite (bind_ret_run _ _ s1 f s1) by done.
  destruct (AutoProduceData_run dbc f rows strings Ht Hd [] s1 Hix) as (off & s2 & Hr2 & Hb2); [done..|]. rewrite (bind_ret_run _ _ s1 _ s2 Hr2).
  destruct (AutoProduceStrings_run dbc f rows strings Ht Hd rows _ [] s2 Hb2) as (s3 & Hr3 & Hb3); [done| |].
  { apply Forall_fmap, Forall_forall. intros row _. apply Forall_lookup. intros x o (c & v & -> & _)%lookup_zip_with_Some. unfold member. by repeat case_match. }
  rewrite (bind_ret_run _ _ s2 _ s3 Hr3). exists s3. cbn [app length] in Hb3.
  destruct (bt_index _ _ _ _ _ Hb3) as (idx & Hi & _). rewrite (bind_ret_run _ _ s3 (Some idx) s3) by (unfold gets; by rewrite Hi). split; [done|].
  replace (structure (λ v, Some (0%nat, v)) f <$> rows) with (refilled [strings] 0 (structure (λ _, None) f <$> rows) rows); [done|].
  unfold refilled. rewrite firstn_all2, drop_ge, app_nil_r by (by rewrite length_fmap). apply list_eq. intros j. rewrite lookup_zip_with, !list_lookup_fmap. destruct (rows !! j) as [row|] eqn:Hrow; [|done]. cbn. f_equal.
  apply list_eq. intros x. unfold filled, structure. rewrite !lookup_zip_with. destruct (f !! x) as [c|], (row !! x) as [v|]; try done. cbn. f_equal.
  unfold member. by repeat case_match.
Qed.

(** A language after that. *)
Lemma LoadStringsFrom_run fn f rows rows0 mss pools strings s : table_ok f rows strings → built f rows0 mss pools s → (length rows ≤ length rows0)%nat →
  Forall (Forall (slot_ok (pools ++ [strings]))) mss → fopen E fn = Some (image f rows strings) → ∃ s1,
  LoadStringsFrom E fn s = (Ret true, s1) ∧
  built f rows0 (refilled (pools ++ [strings]) (length pools) mss rows) (pools ++ [strings]) s1.
Proof.
  intros Ht Hb Hlen Hok Hfn. destruct (bt_index _ _ _ _ _ Hb) as (idx & Hi & _). pose proof (bt_fmt _ _ _ _ _ Hb) as Hf. unfold LoadStringsFrom.
  rewrite (bind_ret_run _ _ s (Some idx) s) by (unfold gets; by rewrite Hi).
  destruct (open_dbc_run fn f rows strings s) as (dbc & Hr & Hd); [done..|]. rewrite (bind_ret_run _ _ s _ s Hr).
  rewrite (bind_ret_run _ _ s f s) by (unfold gets; by rewrite Hf).
  destruct (AutoProduceStrings_run dbc f rows strings Ht Hd rows0 mss pools s) as (s1 & Hr1 & Hb1); [done..|].
  rewrite (bind_ret_run _ _ s tt s1 Hr1). by exists s1.
Qed.

End Facts.
