(* ===== verification/DataStoreProps.v ===== *)
(** * DataStoreProps: what the data stores promise

    A table is what its file says; a file that ends early is refused; a language adds the
    strings that are missing; which headers lead [Load] out of its memory. *)

From Stdlib Require Import ZArith Lia String.
From S2P Require Import Prelude ByteBuffer ByteBufferFacts Util Field DbcFile DbcFacts DataStore DataStoreFacts.
Local Open Scope Z_scope.

(** ** Values *)

(** What a member means: strings are their text, [None] if it has no end. *)
Inductive value := VFloat (bits : Z) | VUInt32 (v : Z) | VUInt8 (v : Z) | VText (s : option (list Z)).

(** The text a pointer leads to. *)
Definition text_at (pools : list (option block)) (p : nat * Z) : option (list Z) :=
  pool ← pools !! p.1; b ← pool; l ← mapM id (drop (Z.to_nat p.2) b); until_zero l.

Definition value_of (pools : list (option block)) (c : cell) : value :=
  match c with
  | Float b => VFloat b
  | UInt32 v => VUInt32 v
  | UInt8 v => VUInt8 v
  | CharPtr p => VText (p ≫= text_at pools)
  end.

Definition values (pools : list (option block)) (ms : list (option cell)) : list (option value) := fmap (M:=option) (value_of pools) <$> ms.

(** The fields of the structure of an index. *)
Definition get_values (E : DEnv) (id : Z) : store (option (list (option value))) :=
  ms ← get_entry E id; pools ← gets stringPoolList; mret (values pools <$> ms).

(** The fields of a row of the file. *)
Definition file_value (strings : list Z) (c v : Z) : option value :=
  if c =? FT_FLOAT then Some (VFloat v)
  else if (c =? FT_IND) || (c =? FT_INT) then Some (VUInt32 v)
  else if c =? FT_BYTE then Some (VUInt8 v)
  else if c =? FT_STRING then Some (VText (until_zero (drop (Z.to_nat v) strings)))
  else None.

Definition file_values (strings fmt row : list Z) : list (option value) := zip_with (file_value strings) fmt row.

Lemma text_in_memory pools k v strings : pools !! k = Some strings → text_at (in_memory pools) (k, v) = until_zero (drop (Z.to_nat v) strings).
Proof.
  intros Hk. unfold text_at, in_memory. cbn [fst snd]. rewrite list_lookup_fmap, Hk. cbn [fmap option_fmap option_map mbind option_bind].
  by rewrite <- fmap_drop, mapM_written.
Qed.

Lemma member_value pools k strings c v : pools !! k = Some strings →
  value_of (in_memory pools) <$> member (Some (k, v)) c v = file_value strings c v.
Proof.
  intros Hk. unfold member, file_value. repeat (case_match; [done|]). case_match; [|done]. cbn. by rewrite (text_in_memory _ _ _ _ Hk).
Qed.

Lemma structure_values pools strings fmt row : pools !! 0%nat = Some strings →
  values (in_memory pools) (structure (λ v, Some (0%nat, v)) fmt row) = file_values strings fmt row.
Proof.
  intros H0.
  unfold values, structure, file_values. revert row.
  induction fmt as [|c fmt IH]; intros [|v row]; try done. cbn -[in_memory]. f_equal; [by apply member_value|apply IH].
Qed.

(** ** A small table

    An index, a text, a field that is not kept, a byte and a [float]; two rows have the index
    7, and the texts are "Ork" and nothing. *)

Definition demo_fmt : list Z := text "nsxbf".
Definition demo_rows : list (list Z) := [[7; 1; 99; 5; 0x3F800000]; [3; 0; 99; 6; 0]; [7; 5; 0; 255; 0xC0000000]].
Definition demo_strings : list Z := [0] ++ c_string (text "Ork") ++ [0].

(** The same table in another language: "Orc", "Elf" and "Ogre". *)
Definition demo_rows2 : list (list Z) := [[7; 1; 0; 0; 0]; [3; 5; 0; 0; 0]; [7; 9; 0; 0; 0]].
Definition demo_strings2 : list Z := [0] ++ c_string (text "Orc") ++ c_string (text "Elf") ++ c_string (text "Ogre").

Definition demo_file (fn : list Z) : option (list Z) :=
  if decide (fn = text "a") then Some (image demo_fmt demo_rows demo_strings)
  else if decide (fn = text "b") then Some (image demo_fmt demo_rows2 demo_strings2)
  else if decide (fn = text "cut") then Some (take 60 (image demo_fmt demo_rows demo_strings))
  else if decide (fn = text "long") then Some (image demo_fmt (demo_rows2 ++ demo_rows2) demo_strings2)
  else if decide (fn = text "last") then Some (image demo_fmt [[2 ^ 32 - 1; 0; 0; 0; 0]] [0])
  else None.

(** The database has one more row, with all columns but the text. *)
Definition demo_query (q : list Z) : option QueryResult :=
  if decide (q = text "SELECT * FROM a_dbc ORDER BY id DESC;") then
    Some (mkResult ((λ t, SetStructuredValue (Some (text t)) (new_Field true)) <$> ["9"; "6"; "1.5"]%string) [] 3)
  else None.

Definition demo_env : DEnv := mkDEnv 8 true (mkLoader 1 2 3 4 None None 5) demo_file demo_query (λ _, 0x3FC00000).

(** Decides [field_ok]. *)
Definition field_b (strings : list Z) (c v : Z) : bool :=
  (0 <=? v) && (v <? 2 ^ (8 * Z.of_nat (file_width c))) && (negb (c =? FT_STRING) || (v <? Z.of_nat (length strings))).

Definition table_b (f : list Z) (rows : list (list Z)) (strings : list Z) : bool :=
  bool_decide (f ≠ []) && forallb (λ c, match struct_size 0 c with Some _ => true | None => false end) f &&
  forallb (λ row, (length row =? length f)%nat && forallb (λ x, field_b strings x.1 x.2) (combine f row)) rows &&
  bool_decide (rows ≠ []) && (Z.of_nat (row_width f * length rows + length strings) <? 2 ^ 32) && (Z.of_nat (4 * length f) <? 2 ^ 32).

Lemma field_b_ok strings f row : length row = length f → forallb (λ x, field_b strings x.1 x.2) (combine f row) = true → Forall2 (field_ok strings) f row.
Proof.
  revert row. induction f as [|c f IH]; intros [|v row] Hl H; try done. cbn [combine forallb] in H. apply andb_true_iff in H as [H1 H2].
  injection Hl as Hl. constructor; [|by apply IH]. unfold field_b in H1. cbn [fst snd] in H1.
  apply andb_true_iff in H1 as [[H3%Z.leb_le H4%Z.ltb_lt]%andb_true_iff H5]. split; [done|]. intros ->. by apply Z.ltb_lt in H5.
Qed.

Lemma table_b_ok f rows strings : table_b f rows strings = true → table_ok f rows strings.
Proof.
  unfold table_b. rewrite !andb_true_iff. intros [[[[[H1 H2] H3] H4] H5] H6]. split.
  - by apply bool_decide_eq_true in H1.
  - apply Forall_forall. intros c Hc%list_elem_of_In. rewrite forallb_forall in H2. specialize (H2 c Hc). unfold known. by destruct (struct_size 0 c).
  - apply Forall_forall. intros row Hr%list_elem_of_In. rewrite forallb_forall in H3. specialize (H3 row Hr).
    apply andb_true_iff in H3 as [Hl%Nat.eqb_eq Hf]. by apply field_b_ok.
  - left. by apply bool_decide_eq_true in H4.
  - by apply Z.ltb_lt.
  - by apply Z.ltb_lt.
Qed.

Lemma demo_table : table_ok demo_fmt demo_rows demo_strings.
Proof. apply table_b_ok. by vm_compute. Qed.

Lemma demo_table2 : table_ok demo_fmt demo_rows2 demo_strings2.
Proof. apply table_b_ok. by vm_compute. Qed.

Lemma demo_indexed : indexed demo_env demo_fmt demo_rows.
Proof. split; [by vm_compute..|]. intros [|[|[|y]]] row Hy; [injection Hy as <-; by vm_compute..|done]. Qed.

Section Props.
Context (E : DEnv) (Hptr : 0 < sizeof_ptr E).

Lemma get_values_run f rows mss pools s id : built E f rows mss pools s → 0 ≤ id →
  get_values E id s = (Ret (z ← find_pos (index_of f) 0 rows id; ms ← mss !! z; Some (values (in_memory pools) ms)), s).
Proof.
  intros Hb Hid. unfold get_values. rewrite (bind_ret_run _ _ s _ s (get_entry_run E Hptr f rows mss pools s id Hb Hid)).
  rewrite (bind_ret_run _ _ s (in_memory pools) s) by (unfold gets; by rewrite (bt_pools _ _ _ _ _ _ Hb)).
  destruct (find_pos _ _ _ _) as [z|]; [|done]. cbn. by destruct (mss !! z).
Qed.

(** ** Loading *)

(** C9. A file is read back as it was written: [Load] accepts it, and the structure of an index
    is the last record with this index (the record of that number, for a format without an
    index), every number as the file has it and every string with its text; other indices
    have none. *)
Theorem file_is_loaded fn f rows strings : table_ok f rows strings → indexed E f rows → fopen E fn = Some (image f rows strings) →
  ∃ s, Load E fn None (new_DBCStorage f) = (Ret true, s) ∧ ∀ id, 0 ≤ id →
    get_values E id s = (Ret (z ← find_pos (index_of f) 0 rows id; row ← rows !! z; Some (file_values strings f row)), s).
Proof.
  intros Ht Hix Hfn. destruct (Load_run E Hptr fn f rows strings Ht Hix Hfn) as (s & Hr & Hb). exists s. split; [done|]. intros id Hid.
  rewrite (get_values_run f rows _ _ s id Hb Hid). destruct (find_pos _ _ _ _) as [z|]; [|done]. cbn [mbind option_bind].
  rewrite list_lookup_fmap. destruct (rows !! z); [|done]. cbn [mbind option_bind fmap option_fmap option_map]. by rewrite (structure_values _ strings).
Qed.

(** ** Languages *)

(** An empty text is replaced. *)
Definition translated (v w : option value) : option value := match v with Some (VText (Some [])) => w | _ => v end.

Lemma empty_text strings v : 0 ≤ v < Z.of_nat (length strings) →
  empty_slot [strings] (Some (0%nat, v)) = bool_decide (until_zero (drop (Z.to_nat v) strings) = Some []).
Proof.
  intros Hv. cbn. destruct (lookup_lt_is_Some_2 strings (Z.to_nat v) ltac:(lia)) as [c Hc]. rewrite Hc, (drop_S _ _ _ Hc).
  cbn [until_zero]. destruct (Z.eqb_spec c 0) as [->|Hn]; [done|]. rewrite !bool_decide_eq_false_2; [done| |congruence].
  by destruct (until_zero _).
Qed.

Lemma fill_value strings strings2 c v v2 : field_ok strings c v →
  value_of (in_memory [strings; strings2]) <$> fill_member [strings; strings2] 1 (member (Some (0%nat, v)) c v) v2 =
  translated (file_value strings c v) (file_value strings2 c v2).
Proof.
  intros [[H0 _] Hs]. destruct (decide (c = FT_STRING)) as [->|Hne].
  - specialize (Hs eq_refl). cbn [member file_value FT_STRING]. unfold member, file_value. cbn -[until_zero text_at drop empty_slot in_memory].
    change (empty_slot [strings; strings2] (Some (0%nat, v))) with (empty_slot [strings] (Some (0%nat, v))). rewrite empty_text by done.
    case_bool_decide as He; cbn -[until_zero text_at drop in_memory].
    + rewrite (text_in_memory _ 1 v2 strings2) by done. by rewrite He.
    + rewrite (text_in_memory _ 0 v strings) by done. by destruct (until_zero _) as [[|]|].
  - unfold member, file_value. rewrite (proj2 (Z.eqb_neq c FT_STRING) Hne). by repeat case_match.
Qed.

(** C10. A language whose file has no more records than the table only adds texts: the record at
    the same place in its file gives each structure the texts that were empty in it, a
    structure without such a record stays as it was, and nothing else changes. (The code does
    not compare the numbers: a longer file is written past the table.) *)
Theorem language_fills_gaps fn fn2 f rows strings rows2 strings2 : table_ok f rows strings → indexed E f rows → table_ok f rows2 strings2 →
  (length rows2 ≤ length rows)%nat → fopen E fn = Some (image f rows strings) → fopen E fn2 = Some (image f rows2 strings2) →
  ∃ s, (Load E fn None;; LoadStringsFrom E fn2) (new_DBCStorage f) = (Ret true, s) ∧ ∀ id, 0 ≤ id →
    get_values E id s = (Ret (z ← find_pos (index_of f) 0 rows id; row ← rows !! z;
      Some match rows2 !! z with
           | Some row2 => zip_with translated (file_values strings f row) (file_values strings2 f row2)
           | None => file_values strings f row
           end), s).
Proof.
  intros Ht Hix Ht2 Hlen Hfn Hfn2. destruct (Load_run E Hptr fn f rows strings Ht Hix Hfn) as (s1 & Hr1 & Hb1).
  destruct (LoadStringsFrom_run E Hptr fn2 f rows2 rows _ _ strings2 s1 Ht2 Hb1 Hlen) as (s & Hr & Hb); [|done|].
  { apply Forall_fmap, Forall_lookup. intros y row Hy. pose proof (proj1 (Forall_lookup _ _) (tb_rows _ _ _ Ht) y row Hy) as Hrow.
    apply Forall_lookup. intros x o (c & v & -> & Hc & Hv)%lookup_zip_with_Some.
    destruct (Forall2_lookup_lr _ _ _ _ _ _ Hrow Hc Hv) as [[H0 _] Hs]. unfold member. repeat (case_match; [done|]). case_match; [|done].
    cbn. split; [done|]. apply lookup_lt_is_Some. specialize (Hs ltac:(by apply Z.eqb_eq)). lia. }
  exists s. split; [by rewrite (bind_ret_run _ _ _ _ _ Hr1)|]. intros id Hid. rewrite (get_values_run f rows _ _ s id Hb Hid).
  destruct (find_pos _ _ _ _) as [z|]; [|done]. cbn [mbind option_bind]. rewrite lookup_refilled, list_lookup_fmap.
  destruct (rows !! z) as [row|] eqn:Hrow; [|done]. cbn [mbind option_bind fmap option_fmap option_map]. f_equal. f_equal. f_equal.
  destruct (rows2 !! z) as [row2|] eqn:Hrow2; [|by apply structure_values].
  pose proof (proj1 (Forall_lookup _ _) (tb_rows _ _ _ Ht) z row Hrow) as Hok. clear Hrow Hrow2 Hb Hb1 Hr Hr1 Hix Ht Ht2 Hfn Hfn2.
  unfold values, filled, structure, file_values. revert row2. induction Hok as [|c v f row Hv _ IH]; intros [|v2 row2]; try done.
  cbn -[fill_member in_memory]. f_equal; [by apply fill_value|by apply IH].
Qed.

(** ** Bad files *)

(** C18. A file that ends early is refused, wherever it ends: the store stays as it was, also when
    it is the file of a language for a table that is loaded. *)
Theorem truncated_file_refused fn f rows strings n s : table_ok f rows strings → (n < length (image f rows strings))%nat →
  fopen E fn = Some (take n (image f rows strings)) → fmt s = f → ∀ sql,
  Load E fn sql s = (Ret false, s) ∧ LoadStringsFrom E fn s = (Ret false, s).
Proof.
  intros Ht Hn Hfn Hf sql. destruct (open_dbc_part E fn f rows strings n s Ht Hf Hfn) as (dbc & Hr & _). rewrite decide_False in Hr by lia. split.
  - unfold Load. by rewrite (bind_ret_run _ _ s _ s Hr).
  - unfold LoadStringsFrom. rewrite (bind_ret_run _ _ s (indexTable s) s) by done. destruct (indexTable s); [|done].
    by rewrite (bind_ret_run _ _ s _ s Hr).
Qed.

End Props.

(** ** Any file *)

(** A number of the header. *)
Definition word (f : list Z) (k : nat) : Z := le_val (take 4 (drop (4 * k) f)).

(** There is no header, or a wrong mark, or the header announces between one field and two more
    than the format has characters, and strings that end below [2^32]. *)
Definition header_ok (fmt f : list Z) : Prop :=
  (length f < 20)%nat ∨ word f 0 ≠ 0x43424457 ∨
  (1 ≤ word f 2 ≤ Z.of_nat (length fmt) + 2 ∧ uwrap 32 (word f 3 * word f 1) + word f 4 < 2 ^ 32).

Definition returns (r : outcome fault bool * DBCFileLoader) : Prop := match r.1 with Ret _ => True | Throw _ => False end.

Lemma offsets_loop_enough fmt n off acc : is_Some (offsets_loop fmt n off acc) ↔ (n ≤ length fmt)%nat.
Proof.
  revert n off acc. induction fmt as [|c fmt IH]; intros [|n] off acc; cbn [offsets_loop length].
  - split; [lia|by eexists].
  - split; [by intros [? ?]|lia].
  - split; [lia|by eexists].
  - rewrite IH. lia.
Qed.

Lemma field_offsets_enough fmt n : is_Some (field_offsets fmt n) ↔ 1 ≤ n ≤ Z.of_nat (length fmt) + 2.
Proof.
  unfold field_offsets. destruct (Z.leb_spec n 0).
  - split; [by intros [? ?]|lia].
  - rewrite offsets_loop_enough, length_app. simpl. lia.
Qed.

Lemma load_data_returns fmt f l : in_u 32 (stringSize l) →
  returns (load_data fmt f l) ↔ 1 ≤ fieldCount l ≤ Z.of_nat (length fmt) + 2 ∧ uwrap 32 (recordSize l * recordCount l) + stringSize l < 2 ^ 32.
Proof.
  intros Hs. rewrite <- (field_offsets_enough fmt). unfold load_data. rewrite (bind_ret_run _ _ l (fieldCount l) l) by done.
  destruct (field_offsets fmt (fieldCount l)) as [offs|]; [|cbn; split; [done|by intros [[? ?] _]]].
  rewrite (bind_ret_run _ _ l offs l) by done. set (l1 := with_fieldsOffset (Some offs) l).
  rewrite (bind_ret_run _ _ l tt l1), (bind_ret_run _ _ l1 l1 l1) by done. cbv zeta.
  change (recordSize l1) with (recordSize l). change (recordCount l1) with (recordCount l). change (stringSize l1) with (stringSize l).
  set (r := uwrap 32 (recordSize l * recordCount l)). assert (in_u 32 r) as Hr by (by apply uwrap_range).
  assert (uwrap 32 (r + stringSize l) < r ↔ 2 ^ 32 ≤ r + stringSize l) as Hw.
  { unfold uwrap, in_u in *. pow_consts. Z.to_euclidean_division_equations. lia. }
  destruct (Z.ltb_spec (uwrap 32 (r + stringSize l)) r).
  - split; [done|]. intros [_ ?]. lia.
  - split; [|done]. intros _. split; [by eexists|lia].
Qed.

Lemma fread_u32_returns g next f l : returns (fread_u32 g next f l) ↔ (length f < 4)%nat ∨ (4 ≤ length f)%nat ∧ returns (next (drop 4 f) (g (le_val (take 4 f)) l)).
Proof.
  unfold fread_u32. destruct (Z.ltb_spec (Z.of_nat (length f)) 4).
  - split; [left; lia|done].
  - split; [intros H1; right; split; [lia|done]|]. intros [?|[_ ?]]; [lia|done].
Qed.

(** C24. [Load] runs to its end on any file with a good header, and only on those: other files
    make it write or read outside its arrays. What the file holds after its header does not
    matter, and neither does what the loader held before. *)
Theorem load_any_file fmt f l : Forall (in_u 8) f → returns (DbcFile.Load (Some f) fmt l) ↔ header_ok fmt f.
Proof.
  intros Hf. unfold DbcFile.Load. rewrite (bind_ret_run _ _ l tt (with_data None l)) by done. unfold read_magic, header_ok.
  destruct (Z.ltb_spec (Z.of_nat (length f)) 4); [split; [intros _; left; lia|done]|]. change (take 4 f) with (take 4 (drop (4 * 0) f)).
  fold (word f 0). destruct (Z.eqb_spec (word f 0) 0x43424457) as [Hm|]; [|split; [intros _; by right; left|done]]. cbn [negb].
  rewrite !fread_u32_returns, !length_drop, !drop_drop. cbn [Nat.add].
  rewrite load_data_returns.
  - change (le_val (take 4 (drop 4 f))) with (word f 1). change (le_val (take 4 (drop 8 f))) with (word f 2).
    change (le_val (take 4 (drop 12 f))) with (word f 3). change (le_val (take 4 (drop 16 f))) with (word f 4).
    cbn [with_data with_recordCount with_fieldCount with_recordSize with_stringSize recordSize recordCount fieldCount stringSize]. lia.
  - change (in_u 32 (le_val (take 4 (drop 16 f)))).
    pose proof (le_val_range (take 4 (drop 16 f))) as Hr. rewrite length_take in Hr.
    assert (in_u (8 * Z.of_nat (4 `min` length (drop 16 f))) (le_val (take 4 (drop 16 f)))) as [? Hu] by (apply Hr; by apply Forall_take, Forall_drop).
    split; [done|]. eapply Z.lt_le_trans; [exact Hu|]. apply Z.pow_le_mono_r; lia.
Qed.

Lemma file_is_loaded_witness : ∃ s, Load demo_env (text "a") None (new_DBCStorage demo_fmt) = (Ret true, s) ∧ ∀ id, 0 ≤ id →
  get_values demo_env id s = (Ret (z ← find_pos (index_of demo_fmt) 0 demo_rows id; row ← demo_rows !! z;
    Some (file_values demo_strings demo_fmt row)), s).
Proof. apply (file_is_loaded demo_env); [done|exact demo_table|exact demo_indexed|by vm_compute]. Defined.

Definition demo_values (p : store bool) (id : Z) := (p ≫= λ _, get_values demo_env id) (new_DBCStorage demo_fmt).

(** The last row with the index 7 is found, and there is none with the index 4. *)
Example demo_loaded :
  ((demo_values (Load demo_env (text "a") None) 7).1, (demo_values (Load demo_env (text "a") None) 3).1,
   (demo_values (Load demo_env (text "a") None) 4).1) =
  (Ret (Some [Some (VUInt32 7); Some (VText (Some [])); None; Some (VUInt8 255); Some (VFloat 0xC0000000)]),
   Ret (Some [Some (VUInt32 3); Some (VText (Some [])); None; Some (VUInt8 6); Some (VFloat 0)]), Ret None).
Proof. by vm_compute. Qed.

Lemma language_fills_gaps_witness : ∃ s, (Load demo_env (text "a") None;; LoadStringsFrom demo_env (text "b")) (new_DBCStorage demo_fmt) = (Ret true, s) ∧
  ∀ id, 0 ≤ id → get_values demo_env id s = (Ret (z ← find_pos (index_of demo_fmt) 0 demo_rows id; row ← demo_rows !! z;
    Some match demo_rows2 !! z with
         | Some row2 => zip_with translated (file_values demo_strings demo_fmt row) (file_values demo_strings2 demo_fmt row2)
         | None => file_values demo_strings demo_fmt row
         end), s).
Proof.
  apply (language_fills_gaps demo_env ltac:(done) _ _ demo_fmt demo_rows demo_strings demo_rows2 demo_strings2);
    [exact demo_table|exact demo_indexed|exact demo_table2|apply le_n|by vm_compute|by vm_compute].
Defined.

Example demo_translated :
  ((demo_values (Load demo_env (text "a") None;; LoadStringsFrom demo_env (text "b")) 7).1 =
   Ret (Some [Some (VUInt32 7); Some (VText (Some (text "Ogre"))); None; Some (VUInt8 255); Some (VFloat 0xC0000000)])).
Proof. by vm_compute. Qed.

Lemma truncated_file_refused_witness : Load demo_env (text "cut") None (new_DBCStorage demo_fmt) = (Ret false, new_DBCStorage demo_fmt) ∧
  LoadStringsFrom demo_env (text "cut") (new_DBCStorage demo_fmt) = (Ret false, new_DBCStorage demo_fmt).
Proof.
  apply (truncated_file_refused demo_env _ demo_fmt demo_rows demo_strings 60); [exact demo_table|by apply (bool_decide_unpack _); vm_compute|by vm_compute|done].
Defined.

Lemma load_any_file_witness : returns (DbcFile.Load (Some (image demo_fmt demo_rows demo_strings)) demo_fmt (memory demo_env)) ↔
  header_ok demo_fmt (image demo_fmt demo_rows demo_strings).
Proof. apply load_any_file. apply (bool_decide_unpack _). by vm_compute. Defined.

(** A header that announces no fields, and one that announces more than the format has. *)
Example no_fields : (DbcFile.Load (Some (image [] [] [])) demo_fmt (memory demo_env)).1 = Throw Undefined.
Proof. by vm_compute. Qed.

Example too_many_fields : (DbcFile.Load (Some (image (replicate 8 FT_INT) [] [1])) demo_fmt (memory demo_env)).1 = Throw Undefined.
Proof. by vm_compute. Qed.

(** The index [2^32 - 1] makes an array without elements, and is then written to it. *)
Example last_index : (Load demo_env (text "last") None (new_DBCStorage demo_fmt)).1 = Throw Undefined.
Proof. by vm_compute. Qed.

(** A language with more records than the table has. *)
Example longer_language : ((Load demo_env (text "a") None;; LoadStringsFrom demo_env (text "long")) (new_DBCStorage demo_fmt)).1 = Throw Undefined.
Proof. by vm_compute. Qed.

(** The row of the database is found beside those of the file; a column it has none for is empty. *)
Definition demo_sql : store bool := sql ← new_SqlDbc demo_env (text "A.dbc") (text "paapp") (text "id") demo_fmt; Load demo_env (text "a") (Some sql).

Example demo_sql_loaded :
  ((demo_values demo_sql 9).1, (demo_values demo_sql 7).1) =
  (Ret (Some [Some (VUInt32 9); Some (VText (Some [])); None; Some (VUInt8 6); Some (VFloat 0x3FC00000)]),
   Ret (Some [Some (VUInt32 7); Some (VText (Some [])); None; Some (VUInt8 255); Some (VFloat 0xC0000000)])).
Proof. by vm_compute. Qed.

(** The whole of [LoadDBC] with one language that has a file and one that has none. *)
Example demo_problem : (LoadDBC demo_env 17 (text "") (text "cut") None 3 (new_DBCStorage demo_fmt)).1 =
  Ret (3, Some (text "cut (exists, but has 0 fields instead of 5) Possible wrong client version.")).
Proof. by vm_compute. Qed.
