(* ===== verification/Utf8.v ===== *)
(** * Utf8: code points as bytes and as 16-bit units

    src/src/dep/utf8cpp/utf8/core.h and checked.h, the functions the server calls and those
    they use. An iterator and its end are the list of what is between them; an exception of
    the library is a [utf_error], and all callers treat them alike. *)

From Stdlib Require Import ZArith Lia.
From S2P Require Import Prelude.
Local Open Scope Z_scope.

(** ** core.h *)

Definition LEAD_SURROGATE_MIN : Z := 0xd800.
Definition LEAD_SURROGATE_MAX : Z := 0xdbff.
Definition TRAIL_SURROGATE_MIN : Z := 0xdc00.
Definition TRAIL_SURROGATE_MAX : Z := 0xdfff.
Definition LEAD_OFFSET : Z := uwrap 16 (LEAD_SURROGATE_MIN - Z.shiftr 0x10000 10).
Definition SURROGATE_OFFSET : Z := uwrap 32 (0x10000 - Z.shiftl LEAD_SURROGATE_MIN 10 - TRAIL_SURROGATE_MIN).
Definition CODE_POINT_MAX : Z := 0x10ffff.

Definition mask8 (oc : Z) : Z := Z.land 0xff oc.
Definition mask16 (oc : Z) : Z := Z.land 0xffff oc.
Definition is_trail (oc : Z) : bool := Z.shiftr (mask8 oc) 6 =? 2.
Definition is_lead_surrogate (cp : Z) : bool := (LEAD_SURROGATE_MIN <=? cp) && (cp <=? LEAD_SURROGATE_MAX).
Definition is_trail_surrogate (cp : Z) : bool := (TRAIL_SURROGATE_MIN <=? cp) && (cp <=? TRAIL_SURROGATE_MAX).
Definition is_surrogate (cp : Z) : bool := (LEAD_SURROGATE_MIN <=? cp) && (cp <=? TRAIL_SURROGATE_MAX).
Definition is_code_point_valid (cp : Z) : bool :=
  (cp <=? CODE_POINT_MAX) && negb (is_surrogate cp) && negb (cp =? 0xfffe) && negb (cp =? 0xffff).

(** The length the first byte announces, or 0. *)
Definition sequence_length (lead : Z) : Z :=
  let lead := mask8 lead in
  if lead <? 0x80 then 1
  else if Z.shiftr lead 5 =? 0x6 then 2
  else if Z.shiftr lead 4 =? 0xe then 3
  else if Z.shiftr lead 3 =? 0x1e then 4
  else 0.

Definition is_overlong_sequence (cp length : Z) : bool :=
  if cp <? 0x80 then negb (length =? 1)
  else if cp <? 0x800 then negb (length =? 2)
  else if cp <? 0x10000 then negb (length =? 3)
  else false.

Inductive utf_error := NOT_ENOUGH_ROOM | INVALID_LEAD | INCOMPLETE_SEQUENCE | OVERLONG_SEQUENCE | INVALID_CODE_POINT | INVALID_UTF16.

Abbreviation utf A := (utf_error + A)%type.

Definition utf_bind {A B} (m : utf A) (k : A → utf B) : utf B := match m with inl e => inl e | inr a => k a end.

(** The next byte after a part of a sequence, which has to be a trailing one. *)
Definition trail (s : list Z) : utf (Z * list Z) :=
  match s with
  | [] => inl NOT_ENOUGH_ROOM
  | c :: s => if is_trail c then inr (c, s) else inl INCOMPLETE_SEQUENCE
  end.

(** The sequences: the code point and what comes after them. *)
Definition get_sequence_1 (c : Z) (s : list Z) : utf (Z * list Z) := inr (mask8 c, s).

Definition get_sequence_2 (c : Z) (s : list Z) : utf (Z * list Z) :=
  utf_bind (trail s) (λ '(c1, s),
  inr (Z.land (Z.shiftl (mask8 c) 6) 0x7ff + Z.land c1 0x3f, s)).

Definition get_sequence_3 (c : Z) (s : list Z) : utf (Z * list Z) :=
  utf_bind (trail s) (λ '(c1, s),
  utf_bind (trail s) (λ '(c2, s),
  inr (Z.land (Z.shiftl (mask8 c) 12) 0xffff + Z.land (Z.shiftl (mask8 c1) 6) 0xfff + Z.land c2 0x3f, s))).

Definition get_sequence_4 (c : Z) (s : list Z) : utf (Z * list Z) :=
  utf_bind (trail s) (λ '(c1, s),
  utf_bind (trail s) (λ '(c2, s),
  utf_bind (trail s) (λ '(c3, s),
  inr (Z.land (Z.shiftl (mask8 c) 18) 0x1fffff + Z.land (Z.shiftl (mask8 c1) 12) 0x3ffff + Z.land (Z.shiftl (mask8 c2) 6) 0xfff + Z.land c3 0x3f, s)))).

(** The iterator is not at its end. *)
Definition validate_next (c : Z) (s : list Z) : utf (Z * list Z) :=
  let length := sequence_length c in
  if length =? 0 then inl INVALID_LEAD
  else
    utf_bind (if length =? 1 then get_sequence_1 c s
              else if length =? 2 then get_sequence_2 c s
              else if length =? 3 then get_sequence_3 c s
              else get_sequence_4 c s) (λ '(cp, s),
    if is_code_point_valid cp then
      if negb (is_overlong_sequence cp length) then inr (cp, s) else inl OVERLONG_SEQUENCE
    else inl INVALID_CODE_POINT).

(** ** checked.h *)

Definition next : Z → list Z → utf (Z * list Z) := validate_next.

(** The bytes of a code point. *)
Definition append (cp : Z) : utf (list Z) :=
  if negb (is_code_point_valid cp) then inl INVALID_CODE_POINT
  else inr (uwrap 8 <$>
    if cp <? 0x80 then [cp]
    else if cp <? 0x800 then [Z.lor (Z.shiftr cp 6) 0xc0; Z.lor (Z.land cp 0x3f) 0x80]
    else if cp <? 0x10000 then [Z.lor (Z.shiftr cp 12) 0xe0; Z.lor (Z.land (Z.shiftr cp 6) 0x3f) 0x80; Z.lor (Z.land cp 0x3f) 0x80]
    else [Z.lor (Z.shiftr cp 18) 0xf0; Z.lor (Z.land (Z.shiftr cp 12) 0x3f) 0x80; Z.lor (Z.land (Z.shiftr cp 6) 0x3f) 0x80; Z.lor (Z.land cp 0x3f) 0x80]).

(** The loops take a code point in each turn; [fuel] bounds the turns by the length. *)
Fixpoint distance_loop (fuel : nat) (s : list Z) (dist : Z) : utf Z :=
  match s, fuel with
  | [], _ => inr dist
  | _, O => inr dist
  | c :: s, S fuel => utf_bind (next c s) (λ '(_, s), distance_loop fuel s (dist + 1))
  end.

Definition distance (s : list Z) : utf Z := distance_loop (length s) s 0.

Definition units (cp : Z) : list Z :=
  if 0xffff <? cp then [uwrap 16 (Z.shiftr cp 10 + LEAD_OFFSET); uwrap 16 (Z.land cp 0x3ff + TRAIL_SURROGATE_MIN)] else [uwrap 16 cp].

Fixpoint utf8to16_loop (fuel : nat) (s : list Z) : utf (list Z) :=
  match s, fuel with
  | [], _ => inr []
  | _, O => inr []
  | c :: s, S fuel => utf_bind (next c s) (λ '(cp, s), utf_bind (utf8to16_loop fuel s) (λ w, inr (units cp ++ w)))
  end.

Definition utf8to16 (s : list Z) : utf (list Z) := utf8to16_loop (length s) s.

Fixpoint utf16to8 (w : list Z) : utf (list Z) :=
  match w with
  | [] => inr []
  | u :: w =>
    let cp := mask16 u in
    if is_lead_surrogate cp then
      match w with
      | [] => inl INVALID_UTF16
      | u2 :: w =>
        let trail_surrogate := mask16 u2 in
        if is_trail_surrogate trail_surrogate then
          utf_bind (append (uwrap 32 (Z.shiftl cp 10 + trail_surrogate + SURROGATE_OFFSET))) (λ b, utf_bind (utf16to8 w) (λ r, inr (b ++ r)))
        else inl INVALID_UTF16
      end
    else if is_trail_surrogate cp then inl INVALID_UTF16
    else utf_bind (append cp) (λ b, utf_bind (utf16to8 w) (λ r, inr (b ++ r)))
  end.

(** ** Facts *)

(** The text of a list of code points. *)
Definition bytes_of (cp : Z) : list Z := match append cp with inr b => b | inl _ => [] end.
Definition encode (l : list Z) : list Z := mjoin (bytes_of <$> l).

Lemma land_ones x k m : m = 2 ^ k - 1 → 0 ≤ k → Z.land x m = x mod 2 ^ k.
Proof. intros -> Hk. rewrite <- Z.land_ones by done. f_equal. rewrite Z.ones_equiv. lia. Qed.

Lemma mask8_mod x : mask8 x = x mod 256.
Proof. unfold mask8. rewrite Z.land_comm. by apply (land_ones x 8). Qed.

Lemma mask16_mod x : mask16 x = x mod 65536.
Proof. unfold mask16. rewrite Z.land_comm. by apply (land_ones x 16). Qed.

(** Or with bits above those of a number. *)
Lemma lor_high a k c : 0 ≤ a < 2 ^ k → 0 ≤ k → Z.lor a (c * 2 ^ k) = a + c * 2 ^ k.
Proof.
  intros Ha Hk. assert (Z.land a (c * 2 ^ k) = 0) as H.
  { apply Z.bits_inj'. intros j Hj. rewrite Z.land_spec, Z.bits_0. destruct (Z.lt_ge_cases j k).
    - rewrite Z.mul_pow2_bits_low by done. apply andb_false_r.
    - rewrite <- (Z.mod_small a (2 ^ k)) by done. by rewrite Z.mod_pow2_bits_high by lia. }
  rewrite <- Z.lxor_lor by done. by rewrite Z.add_nocarry_lxor.
Qed.

Lemma lor_80 a : 0 ≤ a < 64 → Z.lor a 0x80 = a + 128.
Proof. intros. by apply (lor_high a 6 2). Qed.
Lemma lor_c0 a : 0 ≤ a < 64 → Z.lor a 0xc0 = a + 192.
Proof. intros. by apply (lor_high a 6 3). Qed.
Lemma lor_e0 a : 0 ≤ a < 32 → Z.lor a 0xe0 = a + 224.
Proof. intros. by apply (lor_high a 5 7). Qed.
Lemma lor_f0 a : 0 ≤ a < 16 → Z.lor a 0xf0 = a + 240.
Proof. intros. by apply (lor_high a 4 15). Qed.

(** What [append] writes, as arithmetic. *)
Definition point_bytes (cp : Z) : list Z :=
  if cp <? 0x80 then [cp]
  else if cp <? 0x800 then [cp / 64 + 192; cp mod 64 + 128]
  else if cp <? 0x10000 then [cp / 4096 + 224; cp / 64 mod 64 + 128; cp mod 64 + 128]
  else [cp / 262144 + 240; cp / 4096 mod 64 + 128; cp / 64 mod 64 + 128; cp mod 64 + 128].

Lemma valid_le cp : is_code_point_valid cp = true → cp ≤ CODE_POINT_MAX.
Proof. unfold is_code_point_valid. rewrite !andb_true_iff, Z.leb_le. tauto. Qed.

Lemma append_bytes cp : 0 ≤ cp → is_code_point_valid cp = true → append cp = inr (point_bytes cp).
Proof.
  intros H0 Hv. unfold append. rewrite Hv. cbn [negb]. f_equal. pose proof (valid_le cp Hv) as Hm. unfold CODE_POINT_MAX in Hm. unfold point_bytes.
  rewrite !(land_ones _ 6 0x3f), !Z.shiftr_div_pow2 by done. change (2 ^ 6) with 64. change (2 ^ 12) with 4096. change (2 ^ 18) with 262144.
  repeat case_cmp; cbn [fmap list_fmap]; rewrite ?lor_80, ?lor_c0, ?lor_e0, ?lor_f0 by div_lia;
    rewrite ?uwrap_small by (split; div_lia); done.
Qed.

Lemma bytes_of_point cp : 0 ≤ cp → is_code_point_valid cp = true → bytes_of cp = point_bytes cp.
Proof. intros. unfold bytes_of. by rewrite append_bytes. Qed.

(** The first byte decides the length. *)
Lemma sequence_length_byte c : in_u 8 c → sequence_length c =
  if c <? 128 then 1 else if c <? 192 then 0 else if c <? 224 then 2 else if c <? 240 then 3 else if c <? 248 then 4 else 0.
Proof.
  intros [? ?]. unfold sequence_length. rewrite mask8_mod, Z.mod_small by (pow_consts; lia). rewrite !Z.shiftr_div_pow2 by done.
  change (2 ^ 5) with 32. change (2 ^ 4) with 16. change (2 ^ 3) with 8. destruct (Z.ltb_spec c 128); [done|].
  destruct (Z.eqb_spec (c / 32) 6), (Z.eqb_spec (c / 16) 14), (Z.eqb_spec (c / 8) 30), (Z.ltb_spec c 192), (Z.ltb_spec c 224),
    (Z.ltb_spec c 240), (Z.ltb_spec c 248); try done; exfalso; div_lia.
Qed.

Lemma is_trail_byte c : in_u 8 c → is_trail c = (128 <=? c) && (c <? 192).
Proof.
  intros [? ?]. unfold is_trail. rewrite mask8_mod, Z.mod_small by (pow_consts; lia). rewrite Z.shiftr_div_pow2 by done. change (2 ^ 6) with 64.
  destruct (Z.eqb_spec (c / 64) 2), (Z.leb_spec 128 c), (Z.ltb_spec c 192); try done; exfalso; div_lia.
Qed.

Lemma trail_some c s : in_u 8 c → 128 ≤ c < 192 → trail (c :: s) = inr (c, s).
Proof. intros Hb Hc. cbn. rewrite is_trail_byte by done. by decide_cmp. Qed.

Lemma trail_inv s c s' : Forall (in_u 8) s → trail s = inr (c, s') → s = c :: s' ∧ 128 ≤ c < 192 ∧ Forall (in_u 8) s'.
Proof.
  intros Hs. destruct s as [|c0 s]; [done|]. apply Forall_cons in Hs as [Hc Hs]. cbn. rewrite is_trail_byte by done.
  destruct (Z.leb_spec 128 c0), (Z.ltb_spec c0 192); cbn; intros [= <- <-]; split_and!; done || lia.
Qed.

(** The numbers of a sequence of [n] bytes. *)
Definition seq_point (n c c1 c2 c3 : Z) : Z :=
  if n =? 1 then c
  else if n =? 2 then (c - 192) * 64 + (c1 - 128)
  else if n =? 3 then (c - 224) * 4096 + (c1 - 128) * 64 + (c2 - 128)
  else (c - 240) * 262144 + (c1 - 128) * 4096 + (c2 - 128) * 64 + (c3 - 128).

Lemma masks c k j m : m = 2 ^ j - 1 → 0 ≤ k → 0 ≤ j → in_u 8 c → Z.land (Z.shiftl (mask8 c) k) m = (c * 2 ^ k) mod 2 ^ j.
Proof.
  intros Hm Hk Hj [? ?]. rewrite (land_ones _ j) by done. rewrite Z.shiftl_mul_pow2, mask8_mod by done. by rewrite (Z.mod_small c) by (pow_consts; lia).
Qed.

Definition is_trail_range (c : Z) : Prop := 128 ≤ c < 192.

Lemma trail_range_byte c : is_trail_range c → in_u 8 c.
Proof. unfold is_trail_range. split; pow_consts; lia. Qed.

Lemma land_3f c : is_trail_range c → Z.land c 0x3f = c - 128.
Proof. intros [? ?]. rewrite (land_ones c 6) by done. div_lia. Qed.

Ltac byte_range := first [by apply trail_range_byte | split; pow_consts; lia].

Lemma get_sequence_2_run c c1 s : 192 ≤ c < 224 → is_trail_range c1 → get_sequence_2 c (c1 :: s) = inr ((c - 192) * 64 + (c1 - 128), s).
Proof.
  intros Hc H1. unfold get_sequence_2. rewrite trail_some by (done || byte_range). cbn [utf_bind].
  rewrite (masks c 6 11), land_3f by (done || byte_range). f_equal. f_equal. div_lia.
Qed.

Lemma get_sequence_3_run c c1 c2 s : 224 ≤ c < 240 → is_trail_range c1 → is_trail_range c2 →
  get_sequence_3 c (c1 :: c2 :: s) = inr ((c - 224) * 4096 + (c1 - 128) * 64 + (c2 - 128), s).
Proof.
  intros Hc H1 H2. unfold get_sequence_3. rewrite !trail_some by (done || byte_range). cbn [utf_bind]. rewrite trail_some by (done || byte_range). cbn [utf_bind].
  rewrite (masks c 12 16), (masks c1 6 12), land_3f by (done || byte_range). f_equal. f_equal. unfold is_trail_range in *. div_lia.
Qed.

Lemma get_sequence_4_run c c1 c2 c3 s : 240 ≤ c < 248 → is_trail_range c1 → is_trail_range c2 → is_trail_range c3 →
  get_sequence_4 c (c1 :: c2 :: c3 :: s) = inr ((c - 240) * 262144 + (c1 - 128) * 4096 + (c2 - 128) * 64 + (c3 - 128), s).
Proof.
  intros Hc H1 H2 H3. unfold get_sequence_4. do 3 (rewrite trail_some by (done || byte_range); cbn [utf_bind]).
  rewrite (masks c 18 21), (masks c1 12 18), (masks c2 6 12), land_3f by (done || byte_range). f_equal. f_equal. unfold is_trail_range in *. div_lia.
Qed.

(** A code point is read back, and what comes after it is left. *)
Lemma next_point cp s : 0 ≤ cp → is_code_point_valid cp = true → ∃ c t, point_bytes cp = c :: t ∧ next c (t ++ s) = inr (cp, s).
Proof.
  intros H0 Hv. pose proof (valid_le cp Hv) as Hm. unfold CODE_POINT_MAX in Hm. unfold point_bytes, next, validate_next.
  destruct (Z.ltb_spec cp 0x80); [|destruct (Z.ltb_spec cp 0x800); [|destruct (Z.ltb_spec cp 0x10000)]]; eexists _, _; (split; [done|]); cbn [app].
  - rewrite sequence_length_byte by byte_range. decide_cmp. cbn. rewrite mask8_mod, Z.mod_small by lia. rewrite Hv. unfold is_overlong_sequence.
    by decide_cmp.
  - rewrite sequence_length_byte by (split; div_lia). rewrite get_sequence_2_run by (unfold is_trail_range; div_lia).
    assert ((cp / 64 + 192 - 192) * 64 + (cp mod 64 + 128 - 128) = cp) as -> by div_lia.
    destruct (Z.ltb_spec (cp / 64 + 192) 128); [div_lia|]. destruct (Z.ltb_spec (cp / 64 + 192) 192); [div_lia|].
    destruct (Z.ltb_spec (cp / 64 + 192) 224); [|div_lia]. cbn. rewrite Hv. unfold is_overlong_sequence. by decide_cmp.
  - set (c := cp / 4096 + 224). assert (224 ≤ c < 240) as Hc by (unfold c; div_lia).
    rewrite sequence_length_byte by byte_range. rewrite get_sequence_3_run by (done || unfold is_trail_range; div_lia).
    assert ((c - 224) * 4096 + (cp / 64 mod 64 + 128 - 128) * 64 + (cp mod 64 + 128 - 128) = cp) as -> by (unfold c; div_lia).
    decide_cmp. cbn. decide_cmp. cbn. rewrite Hv. unfold is_overlong_sequence. by decide_cmp.
  - set (c := cp / 262144 + 240). assert (240 ≤ c < 248) as Hc by (unfold c; div_lia).
    rewrite sequence_length_byte by byte_range. rewrite get_sequence_4_run by (done || unfold is_trail_range; div_lia).
    assert ((c - 240) * 262144 + (cp / 4096 mod 64 + 128 - 128) * 4096 + (cp / 64 mod 64 + 128 - 128) * 64 + (cp mod 64 + 128 - 128) = cp) as -> by (unfold c; div_lia).
    decide_cmp. cbn. decide_cmp. cbn. rewrite Hv. unfold is_overlong_sequence. by decide_cmp.
Qed.

(** Two programs in a row that succeed. *)
Lemma utf_bind_inv {A B} (m : utf A) (k : A → utf B) b : utf_bind m k = inr b → ∃ a, m = inr a ∧ k a = inr b.
Proof. destruct m as [e|a]; [done|]. intros H. by exists a. Qed.

(** A sequence that is not longer than it has to be is the one that is written. *)
Lemma overlong_2 c c1 s : 192 ≤ c < 224 → is_trail_range c1 → is_overlong_sequence ((c - 192) * 64 + (c1 - 128)) 2 = false →
  c :: c1 :: s = point_bytes ((c - 192) * 64 + (c1 - 128)) ++ s.
Proof.
  unfold is_trail_range, is_overlong_sequence, point_bytes. intros Hc H1. set (cp := _ + _). assert (cp / 64 = c - 192) as E1 by (unfold cp; div_lia).
  assert (cp mod 64 = c1 - 128) as E2 by (unfold cp; div_lia). assert (cp < 0x800) by (unfold cp; lia).
  destruct (Z.ltb_spec cp 0x80); [done|]. intros _. decide_cmp. rewrite E1, E2. cbn. repeat f_equal; lia.
Qed.

Lemma overlong_3 c c1 c2 s : 224 ≤ c < 240 → is_trail_range c1 → is_trail_range c2 →
  is_overlong_sequence ((c - 224) * 4096 + (c1 - 128) * 64 + (c2 - 128)) 3 = false →
  c :: c1 :: c2 :: s = point_bytes ((c - 224) * 4096 + (c1 - 128) * 64 + (c2 - 128)) ++ s.
Proof.
  unfold is_trail_range, is_overlong_sequence, point_bytes. intros Hc H1 H2. set (cp := _ + _ + _).
  assert (cp / 4096 = c - 224) as E1 by (unfold cp; div_lia). assert (cp / 64 mod 64 = c1 - 128) as E2 by (unfold cp; div_lia).
  assert (cp mod 64 = c2 - 128) as E3 by (unfold cp; div_lia). assert (cp < 0x10000) by (unfold cp; lia).
  destruct (Z.ltb_spec cp 0x80); [done|]. destruct (Z.ltb_spec cp 0x800); [done|]. intros _. decide_cmp. rewrite E1, E2, E3. cbn. repeat f_equal; lia.
Qed.

Lemma overlong_4 c c1 c2 c3 s : 240 ≤ c < 248 → is_trail_range c1 → is_trail_range c2 → is_trail_range c3 →
  is_overlong_sequence ((c - 240) * 262144 + (c1 - 128) * 4096 + (c2 - 128) * 64 + (c3 - 128)) 4 = false →
  c :: c1 :: c2 :: c3 :: s = point_bytes ((c - 240) * 262144 + (c1 - 128) * 4096 + (c2 - 128) * 64 + (c3 - 128)) ++ s.
Proof.
  unfold is_trail_range, is_overlong_sequence, point_bytes. intros Hc H1 H2 H3. set (cp := _ + _ + _ + _).
  assert (cp / 262144 = c - 240) as E1 by (unfold cp; div_lia). assert (cp / 4096 mod 64 = c1 - 128) as E2 by (unfold cp; div_lia).
  assert (cp / 64 mod 64 = c2 - 128) as E3 by (unfold cp; div_lia). assert (cp mod 64 = c3 - 128) as E4 by (unfold cp; div_lia).
  destruct (Z.ltb_spec cp 0x80); [done|]. destruct (Z.ltb_spec cp 0x800); [done|]. destruct (Z.ltb_spec cp 0x10000); [done|].
  intros _. rewrite E1, E2, E3, E4. cbn. repeat f_equal; lia.
Qed.

(** What is read is how [append] writes it: there is no second way to write a code point. *)
Lemma next_canonical c s cp s' : in_u 8 c → Forall (in_u 8) s → next c s = inr (cp, s') →
  0 ≤ cp ∧ is_code_point_valid cp = true ∧ c :: s = point_bytes cp ++ s' ∧ Forall (in_u 8) s'.
Proof.
  intros Hc Hs. unfold next, validate_next. rewrite sequence_length_byte by done. pose proof Hc as [H0 H8]. change (2 ^ 8) with 256 in H8.
  assert (∀ n q r, (if is_code_point_valid q then if negb (is_overlong_sequence q n) then inr (q, r) else inl OVERLONG_SEQUENCE else inl INVALID_CODE_POINT)
    = (inr (cp, s') : utf (Z * list Z)) → q = cp ∧ r = s' ∧ is_code_point_valid cp = true ∧ is_overlong_sequence cp n = false) as Hend.
  { intros n q r. destruct (is_code_point_valid q) eqn:Hv; [|done]. destruct (is_overlong_sequence q n) eqn:Ho; [done|]. intros [= -> ->]. done. }
  repeat case_cmp; try done; cbn -[get_sequence_2 get_sequence_3 get_sequence_4 is_overlong_sequence].
  - intros (<- & <- & Hv & Ho)%Hend. rewrite mask8_mod, Z.mod_small in * by lia. unfold point_bytes. split_and!; [lia|done| |done]. by decide_cmp.
  - intros ([q r] & Hg & Hk)%utf_bind_inv. pose proof Hg as Hg'. unfold get_sequence_2 in Hg. apply utf_bind_inv in Hg as ([c1 s1] & Ht1 & _).
    apply trail_inv in Ht1 as (-> & T1 & Hs1); [|done]. rewrite get_sequence_2_run in Hg' by done. injection Hg' as <- <-.
    apply Hend in Hk as (<- & <- & Hv & Ho). split_and!; [unfold is_trail_range in *; lia|done| |done]. by apply overlong_2.
  - intros ([q r] & Hg & Hk)%utf_bind_inv. pose proof Hg as Hg'. unfold get_sequence_3 in Hg. apply utf_bind_inv in Hg as ([c1 s1] & Ht1 & Hg).
    apply trail_inv in Ht1 as (-> & T1 & Hs1); [|done]. apply utf_bind_inv in Hg as ([c2 s2] & Ht2 & _).
    apply trail_inv in Ht2 as (-> & T2 & Hs2); [|done]. rewrite get_sequence_3_run in Hg' by done. injection Hg' as <- <-.
    apply Hend in Hk as (<- & <- & Hv & Ho). split_and!; [unfold is_trail_range in *; lia|done| |done]. by apply overlong_3.
  - intros ([q r] & Hg & Hk)%utf_bind_inv. pose proof Hg as Hg'. unfold get_sequence_4 in Hg. apply utf_bind_inv in Hg as ([c1 s1] & Ht1 & Hg).
    apply trail_inv in Ht1 as (-> & T1 & Hs1); [|done]. apply utf_bind_inv in Hg as ([c2 s2] & Ht2 & Hg).
    apply trail_inv in Ht2 as (-> & T2 & Hs2); [|done]. apply utf_bind_inv in Hg as ([c3 s3] & Ht3 & _).
    apply trail_inv in Ht3 as (-> & T3 & Hs3); [|done]. rewrite get_sequence_4_run in Hg' by done. injection Hg' as <- <-.
    apply Hend in Hk as (<- & <- & Hv & Ho). split_and!; [unfold is_trail_range in *; lia|done| |done]. by apply overlong_4.
Qed.

(** ** Whole texts *)

Definition valid_point (cp : Z) : Prop := 0 ≤ cp ∧ is_code_point_valid cp = true.

Lemma encode_cons cp l : encode (cp :: l) = bytes_of cp ++ encode l.
Proof. done. Qed.

Lemma encode_app l l' : encode (l ++ l') = encode l ++ encode l'.
Proof. unfold encode. by rewrite fmap_app, join_app. Qed.

Lemma next_encode cp l : valid_point cp → ∃ c t, bytes_of cp = c :: t ∧ encode (cp :: l) = c :: t ++ encode l ∧ next c (t ++ encode l) = inr (cp, encode l).
Proof.
  intros [H0 Hv]. destruct (next_point cp (encode l) H0 Hv) as (c & t & Hb & Hn). exists c, t. rewrite encode_cons, bytes_of_point, Hb by done. done.
Qed.

(** A text is the encoding of a list of valid code points, or reading it fails at some place. *)
Inductive reads : list Z → option (list Z) → Prop :=
| reads_end : reads [] (Some [])
| reads_more c s cp s' l : next c s = inr (cp, s') → reads s' l → reads (c :: s) (cons cp <$> l)
| reads_stop c s e : next c s = inl e → reads (c :: s) None.

Lemma next_shorter c s cp s' : in_u 8 c → Forall (in_u 8) s → next c s = inr (cp, s') → (length s' ≤ length s)%nat.
Proof.
  intros Hc Hs Hn. destruct (next_canonical c s cp s' Hc Hs Hn) as (H0 & Hv & He & _). apply (f_equal length) in He. rewrite length_app in He.
  cbn in He. assert (1 ≤ length (point_bytes cp))%nat by (unfold point_bytes; repeat case_match; cbn; lia). lia.
Qed.

Lemma reads_total n s : (length s ≤ n)%nat → Forall (in_u 8) s → ∃ l, reads s l.
Proof.
  revert s. induction n as [|n IH]; intros [|c s] Hn Hs; try (eexists; by constructor); [simpl in Hn; lia|].
  apply Forall_cons in Hs as [Hc Hs]. destruct (next c s) as [e|[cp s']] eqn:He; [eexists; by eapply reads_stop|].
  pose proof (next_shorter c s cp s' Hc Hs He) as Hl. destruct (next_canonical c s cp s' Hc Hs He) as (_ & _ & _ & Hs').
  destruct (IH s') as [l Hr]; [simpl in Hn; lia|done|]. eexists. by eapply reads_more.
Qed.

Lemma reads_encode s l : Forall (in_u 8) s → reads s (Some l) → s = encode l ∧ Forall valid_point l.
Proof.
  intros Hs Hr. remember (Some l) as o eqn:Ho. revert l Ho Hs. induction Hr as [|c s cp s' o Hn Hr IH|]; intros l Ho Hs; [by injection Ho as <-| |done].
  apply Forall_cons in Hs as [Hc Hs]. destruct (next_canonical c s cp s' Hc Hs Hn) as (H0 & Hv & He & Hs').
  destruct o as [l'|]; [|done]. injection Ho as <-. destruct (IH l' eq_refl Hs') as [-> Hl]. split; [|by constructor].
  by rewrite encode_cons, bytes_of_point.
Qed.

Lemma encode_reads l : Forall valid_point l → reads (encode l) (Some l).
Proof.
  induction 1 as [|cp l Hcp _ IH]; [constructor|]. destruct (next_encode cp l Hcp) as (c & t & _ & -> & Hn). by apply (reads_more c (t ++ encode l) cp (encode l) (Some l)).
Qed.

(** The loops with enough fuel follow [reads]. *)
Lemma distance_reads s l fuel d : Forall (in_u 8) s → reads s l → (length s ≤ fuel)%nat →
  match l with Some l => distance_loop fuel s d = inr (d + Z.of_nat (length l)) | None => ∃ e, distance_loop fuel s d = inl e end.
Proof.
  intros Hs Hr. revert fuel d Hs. induction Hr as [|c s cp s' l Hn Hr IH|c s e Hn]; intros fuel d Hs Hf.
  - destruct fuel; by rewrite Z.add_0_r.
  - apply Forall_cons in Hs as [Hc Hs]. destruct fuel as [|fuel]; [simpl in Hf; lia|]. cbn [distance_loop]. rewrite Hn. cbn [utf_bind].
    pose proof (next_shorter c s cp s' Hc Hs Hn). destruct (next_canonical c s cp s' Hc Hs Hn) as (_ & _ & _ & Hs').
    specialize (IH fuel (d + 1) Hs' ltac:(simpl in Hf; lia)). destruct l as [l|]; [|done]. simpl. rewrite IH. f_equal. lia.
  - destruct fuel as [|fuel]; [simpl in Hf; lia|]. cbn. rewrite Hn. by exists e.
Qed.

Lemma utf8to16_reads s l fuel : Forall (in_u 8) s → reads s l → (length s ≤ fuel)%nat →
  match l with Some l => utf8to16_loop fuel s = inr (mjoin (units <$> l)) | None => ∃ e, utf8to16_loop fuel s = inl e end.
Proof.
  intros Hs Hr. revert fuel Hs. induction Hr as [|c s cp s' l Hn Hr IH|c s e Hn]; intros fuel Hs Hf.
  - by destruct fuel.
  - apply Forall_cons in Hs as [Hc Hs]. destruct fuel as [|fuel]; [simpl in Hf; lia|]. cbn [utf8to16_loop]. rewrite Hn. cbn [utf_bind].
    pose proof (next_shorter c s cp s' Hc Hs Hn). destruct (next_canonical c s cp s' Hc Hs Hn) as (_ & _ & _ & Hs').
    specialize (IH fuel Hs' ltac:(simpl in Hf; lia)). destruct l as [l|]; simpl; [by rewrite IH|]. destruct IH as [e ->]. by exists e.
  - destruct fuel as [|fuel]; [simpl in Hf; lia|]. cbn. rewrite Hn. by exists e.
Qed.

(** Two units for a code point over [0xffff], one for the others. *)
Lemma units_back cp w : valid_point cp → utf16to8 (units cp ++ w) = utf_bind (utf16to8 w) (λ r, inr (bytes_of cp ++ r)).
Proof.
  intros [H0 Hv]. pose proof (valid_le cp Hv) as Hm. unfold CODE_POINT_MAX in Hm.
  assert (append cp = inr (bytes_of cp)) as Happ by (unfold bytes_of; by rewrite append_bytes). unfold units. destruct (Z.ltb_spec 0xffff cp) as [Hlt|Hle].
  - cbn [app utf16to8]. rewrite !mask16_mod. rewrite Z.shiftr_div_pow2, (land_ones cp 10) by done. change (2 ^ 10) with 1024.
    change LEAD_OFFSET with 55232. change TRAIL_SURROGATE_MIN with 56320.
    assert (uwrap 16 (cp / 1024 + 55232) mod 65536 = cp / 1024 + 55232) as -> by (rewrite uwrap_small; [|split]; div_lia).
    assert (uwrap 16 (cp mod 1024 + 56320) mod 65536 = cp mod 1024 + 56320) as -> by (rewrite uwrap_small; [|split]; div_lia).
    assert (is_lead_surrogate (cp / 1024 + 55232) = true) as -> by (unfold is_lead_surrogate, LEAD_SURROGATE_MIN, LEAD_SURROGATE_MAX; apply andb_true_iff; rewrite !Z.leb_le; div_lia).
    assert (is_trail_surrogate (cp mod 1024 + 56320) = true) as -> by (unfold is_trail_surrogate, TRAIL_SURROGATE_MIN, TRAIL_SURROGATE_MAX; apply andb_true_iff; rewrite !Z.leb_le; div_lia).
    rewrite Z.shiftl_mul_pow2 by done. change SURROGATE_OFFSET with 4238353408. change (2 ^ 10) with 1024.
    assert (uwrap 32 ((cp / 1024 + 55232) * 1024 + (cp mod 1024 + 56320) + 4238353408) = cp) as -> by (unfold uwrap; div_lia).
    rewrite Happ. done.
  - cbn [app utf16to8]. rewrite mask16_mod. assert (uwrap 16 cp mod 65536 = cp) as -> by (rewrite uwrap_small; [|split]; div_lia).
    unfold is_code_point_valid in Hv. rewrite !andb_true_iff, !negb_true_iff in Hv. destruct Hv as [[[_ Hs] _] _]. unfold is_surrogate in Hs.
    assert (is_lead_surrogate cp = false ∧ is_trail_surrogate cp = false) as [-> ->].
    { unfold is_lead_surrogate, is_trail_surrogate, LEAD_SURROGATE_MIN, LEAD_SURROGATE_MAX, TRAIL_SURROGATE_MIN, TRAIL_SURROGATE_MAX in *.
      rewrite !andb_false_iff, !Z.leb_gt in *. lia. }
    rewrite Happ. done.
Qed.

Lemma utf16to8_units l : Forall valid_point l → utf16to8 (mjoin (units <$> l)) = inr (encode l).
Proof.
  induction 1 as [|cp l Hcp _ IH]; [done|]. change (mjoin (units <$> cp :: l)) with (units cp ++ mjoin (units <$> l)).
  by rewrite units_back, IH by done.
Qed.

(** [distance] counts the code points of a text, and fails on anything else. *)
Lemma distance_spec s : Forall (in_u 8) s →
  match distance s with inr n => ∃ l, s = encode l ∧ Forall valid_point l ∧ n = Z.of_nat (length l) | inl _ => ∀ l, Forall valid_point l → s ≠ encode l end.
Proof.
  intros Hs. destruct (reads_total _ s (le_n _) Hs) as [[l|] Hr]; pose proof (distance_reads s _ _ 0 Hs Hr (le_n _)) as Hd; unfold distance.
  - rewrite Hd. destruct (reads_encode s l Hs Hr) as [-> Hl]. by exists l.
  - destruct Hd as [e ->]. intros l Hl ->. pose proof (distance_reads _ _ _ 0 Hs (encode_reads l Hl) (le_n _)) as Hd'.
    pose proof (distance_reads _ _ _ 0 Hs Hr (le_n _)) as [e' He]. congruence.
Qed.

Lemma distance_encode l : Forall valid_point l → Forall (in_u 8) (encode l) → distance (encode l) = inr (Z.of_nat (length l)).
Proof. intros Hl Hs. exact (distance_reads _ _ _ 0 Hs (encode_reads l Hl) (le_n _)). Qed.

Lemma utf8to16_encode l : Forall valid_point l → Forall (in_u 8) (encode l) → utf8to16 (encode l) = inr (mjoin (units <$> l)).
Proof. intros Hl Hs. exact (utf8to16_reads _ _ _ Hs (encode_reads l Hl) (le_n _)). Qed.

Lemma bytes_of_bytes cp : Forall (in_u 8) (bytes_of cp).
Proof.
  unfold bytes_of, append. destruct (is_code_point_valid cp); cbn; [|done]. apply Forall_fmap, Forall_forall. intros x _. by apply uwrap_range.
Qed.

Lemma encode_bytes l : Forall (in_u 8) (encode l).
Proof. unfold encode. apply Forall_join, Forall_fmap, Forall_forall. intros x _. apply bytes_of_bytes. Qed.
