(* ===== verification/Text.v ===== *)
(** * Text: the text functions of Util.h and Util.cpp (src/src/server/shared/Utilities/)

    Texts are lists of bytes, wide texts lists of units. What writes past the memory of a text
    is [Undefined]; a function may change the text it is given. *)

From Stdlib Require Import ZArith Lia String.
From S2P Require Import Prelude Util Field Utf8 DataStore.
Local Open Scope Z_scope.

(** ** UTF-8 *)

Section Fault.
Context {S : Type}.
Abbreviation fall A := (prog S fault A).

(** The length of a text, which is emptied when it is not UTF-8. *)
Definition utf8length (utf8str : list Z) : Z * list Z :=
  match distance utf8str with inr n => (n, utf8str) | inl _ => (0, []) end.

(** [std::wstring wstr; wstr.resize(wlen); utf8to16(..., &wstr[0])]. *)
Definition write_units (wlen : Z) (u : list Z) : fall (list Z) := if wlen <? Z.of_nat (length u) then throw Undefined else mret u.

Definition utf8truncate (utf8str : list Z) (len : Z) : fall (list Z) :=
  match distance utf8str with
  | inl _ => mret []
  | inr wlen =>
    if wlen <=? len then mret utf8str
    else
      match utf8to16 utf8str with
      | inl _ => mret []
      | inr u =>
        wstr ← write_units wlen u;
        match utf16to8 (take (Z.to_nat len) wstr) with
        | inl _ => mret []
        | inr b => if Z.of_nat (length utf8str) <? Z.of_nat (length b) then throw Undefined else mret b
        end
      end
  end.

(** Into an array of [size] elements: whether it worked, what was written, the new [wsize]. *)
Definition Utf8toWStr_array (size : Z) (utf8str : list Z) (wsize : Z) : fall (bool * list Z * Z) :=
  let failed := if (0 <? wsize) && (size <? 1) then throw Undefined else mret (false, if 0 <? wsize then [0] else [], 0) in
  match distance utf8str with
  | inl _ => failed
  | inr len =>
    if wsize <? len then failed
    else
      match utf8to16 utf8str with
      | inl _ => failed
      | inr u =>
        if (size <? Z.of_nat (length u)) || (size <=? len) then throw Undefined
        else mret (true, (take (Z.to_nat len) u ++ [0] ++ drop (Datatypes.S (Z.to_nat len)) u)%list, len)
      end
  end.

(** Into a string, which is left alone for the empty text. *)
Definition Utf8toWStr (utf8str wstr : list Z) : fall (bool * list Z) :=
  match distance utf8str with
  | inl _ => mret (false, [])
  | inr len =>
    if len =? 0 then mret (true, wstr)
    else match utf8to16 utf8str with inl _ => mret (false, []) | inr u => w ← write_units len u; mret (true, w) end
  end.

(** Four bytes are reserved for each unit, which is always enough. *)
Definition WStrToUtf8 (wstr : list Z) : bool * list Z :=
  match wstr with
  | [] => (true, [])
  | _ => match utf16to8 wstr with inr b => (true, b) | inl _ => (false, []) end
  end.

(** ** Letters *)

Definition within (lo c hi : Z) : bool := (lo <=? c) && (c <=? hi).

Definition isBasicLatinCharacter (wchar : Z) : bool := within 97 wchar 122 || within 65 wchar 90.

Definition isExtendedLatinCharacter (wchar : Z) : bool :=
  isBasicLatinCharacter wchar || within 0x00C0 wchar 0x00D6 || within 0x00D8 wchar 0x00DF || (wchar =? 0x00DF) || within 0x00E0 wchar 0x00F6 ||
  within 0x00F8 wchar 0x00FE || within 0x0100 wchar 0x012F || (wchar =? 0x1E9E).

Definition isCyrillicCharacter (wchar : Z) : bool := within 0x0410 wchar 0x044F || (wchar =? 0x0401) || (wchar =? 0x0451).

Definition isEastAsianCharacter (wchar : Z) : bool :=
  within 0x1100 wchar 0x11F9 || within 0x3041 wchar 0x30FF || within 0x3131 wchar 0x318E || within 0x31F0 wchar 0x31FF ||
  within 0x3400 wchar 0x4DB5 || within 0x4E00 wchar 0x9FC3 || within 0xAC00 wchar 0xD7A3 || within 0xFF01 wchar 0xFFEE.

Definition isNumeric (wchar : Z) : bool := within 48 wchar 57.
Definition isNumeric_text (str : list Z) : bool := forallb isNumeric str.
Definition isNumericOrSpace (wchar : Z) : bool := isNumeric wchar || (wchar =? 32).

Definition is_string_of (alphabet : Z → bool) (wstr : list Z) (numericOrSpace : bool) : bool :=
  forallb (λ c, alphabet c || (numericOrSpace && isNumericOrSpace c)) wstr.

Definition isBasicLatinString := is_string_of isBasicLatinCharacter.
Definition isExtendedLatinString := is_string_of isExtendedLatinCharacter.
Definition isCyrillicString := is_string_of isCyrillicCharacter.
Definition isEastAsianString := is_string_of isEastAsianCharacter.

(** [wchar_t(uint16(wchar) + d)]. *)
Definition shifted (wchar d : Z) : Z := uwrap 16 wchar + d.

Definition wcharToUpper (wchar : Z) : Z :=
  if within 97 wchar 122 then shifted wchar (-0x20)
  else if wchar =? 0x00DF then 0x1E9E
  else if within 0x00E0 wchar 0x00F6 then shifted wchar (-0x20)
  else if within 0x00F8 wchar 0x00FE then shifted wchar (-0x20)
  else if within 0x0101 wchar 0x012F && (Z.rem wchar 2 =? 1) then shifted wchar (-1)
  else if within 0x0430 wchar 0x044F then shifted wchar (-0x20)
  else if wchar =? 0x0451 then 0x0401
  else wchar.

Definition wcharToUpperOnlyLatin (wchar : Z) : Z := if isBasicLatinCharacter wchar then wcharToUpper wchar else wchar.

Definition wcharToLower (wchar : Z) : Z :=
  if within 65 wchar 90 then shifted wchar 0x20
  else if within 0x00C0 wchar 0x00D6 then shifted wchar 0x20
  else if within 0x00D8 wchar 0x00DE then shifted wchar 0x20
  else if within 0x0100 wchar 0x012E && (Z.rem wchar 2 =? 0) then shifted wchar 1
  else if wchar =? 0x1E9E then 0x00DF
  else if wchar =? 0x0401 then 0x0451
  else if within 0x0410 wchar 0x042F then shifted wchar 0x20
  else wchar.

Definition wstrToUpper (str : list Z) : list Z := wcharToUpper <$> str.
Definition wstrToLower (str : list Z) : list Z := wcharToLower <$> str.

(** The text is somewhere in the other one. *)
Fixpoint is_prefix (p s : list Z) : bool :=
  match p, s with
  | [], _ => true
  | a :: p, b :: s => (a =? b) && is_prefix p s
  | _, [] => false
  end.

Fixpoint contains (p s : list Z) : bool := is_prefix p s || match s with [] => false | _ :: s => contains p s end.

Definition Utf8FitTo (str search : list Z) : fall bool :=
  '(ok, temp) ← Utf8toWStr str [];
  if negb (ok : bool) then mret false else mret (contains search (wstrToLower temp)).

(** [::tolower] is that of the C library, in the C locale. *)
Definition IsPhraseInString (stringToSearch searchPhrase : list Z) (caseSensitive : bool) : bool :=
  if caseSensitive then contains searchPhrase stringToSearch
  else contains (tolower <$> searchPhrase) (tolower <$> stringToSearch).

(** ** Declined names *)

(** The endings of a declension, in the order they are tried. *)
Definition dropEnds (declension : Z) : list (list Z) :=
  let a := [0x0430] in let o := [0x043E] in let ya := [0x044F] in let ie := [0x0435] in let i := [0x0438] in let yeru := [0x044B] in
  let u := [0x0443] in let yu := [0x044E] in let oj := [0x043E; 0x0439] in let ie_j := [0x0435; 0x0439] in let io_j := [0x0451; 0x0439] in
  let o_m := [0x043E; 0x043C] in let io_m := [0x0451; 0x043C] in let ie_m := [0x0435; 0x043C] in let soft := [0x044C] in let j := [0x0439] in
  if declension =? 0 then [a; o; ya; ie; soft; j]
  else if declension =? 1 then [a; ya; yeru; i]
  else if declension =? 2 then [ie; u; yu; i]
  else if declension =? 3 then [u; yu; o; ie; soft; ya; a]
  else if declension =? 4 then [oj; io_j; ie_j; o_m; io_m; ie_m; yu]
  else [ie; i].

(** [substr] from a position behind the end throws [std::out_of_range]; nobody catches it. *)
Fixpoint drop_end (ends : list (list Z)) (wname : list Z) : option (list Z) :=
  match ends with
  | [] => Some wname
  | e :: ends =>
    if (length wname <? length e)%nat then None
    else
      let n := (length wname - length e)%nat in
      if decide (drop n wname = e) then Some (take n wname) else drop_end ends wname
  end.

(** [None] for the exception. *)
Definition GetMainPartOfName (wname : list Z) (declension : Z) : option (list Z) :=
  match wname with
  | [] => Some wname
  | c :: _ => if negb (isCyrillicCharacter c) || (5 <? declension) then Some wname else drop_end (dropEnds declension) wname
  end.

End Fault.

(** ** Invisible characters *)

(** [" \t\7\n"]. *)
Definition invChar (c : Z) : bool := (c =? 32) || (c =? 9) || (c =? 7) || (c =? 10).

(** [str[wpos] = c]. *)
Definition poke (str : list Z) (wpos : nat) (c : Z) : option (list Z) := if (wpos <? length str)%nat then Some (<[wpos := c]> str) else None.

(** The loop from [pos] on, [n] characters before the end. *)
Fixpoint strip_loop (n pos wpos : nat) (space : bool) (str : list Z) : option (list Z * nat) :=
  match n with
  | O => Some (str, wpos)
  | S n =>
    c ← str !! pos;
    if invChar c then
      if space then strip_loop n (S pos) wpos true str
      else str ← poke str wpos 32; strip_loop n (S pos) (S wpos) true str
    else
      str ← (if (wpos =? pos)%nat then Some str else poke str wpos c);
      strip_loop n (S pos) (S wpos) false str
  end.

(** [None] for an access outside the text. *)
Definition stripLineInvisibleChars (str : list Z) : option (list Z) :=
  '(str, wpos) ← strip_loop (length str) 0 0 false str;
  let str := if (wpos <? length str)%nat then take wpos str else str in
  Some (if contains (text "|TInterface") str then [] else str).

(** ** Time *)

Definition MINUTE : Z := 60.
Definition HOUR : Z := MINUTE * 60.
Definition DAY : Z := HOUR * 24.

Definition secsToTimeString (timeInSecs : Z) (shortText hoursOnly : bool) : list Z :=
  let secs := timeInSecs mod MINUTE in
  let minutes := timeInSecs mod HOUR / MINUTE in
  let hours := timeInSecs mod DAY / HOUR in
  let days := timeInSecs / DAY in
  ((if negb (days =? 0) then print_u64 days ++ (if shortText then text "d" else text " Day(s) ") else []) ++
   (if negb (hours =? 0) || hoursOnly then print_u64 hours ++ (if shortText then text "h" else text " Hour(s) ") else []) ++
   (if negb hoursOnly then
      (if negb (minutes =? 0) then print_u64 minutes ++ (if shortText then text "m" else text " Minute(s) ") else []) ++
      (if negb (secs =? 0) || ((days =? 0) && (hours =? 0) && (minutes =? 0)) then print_u64 secs ++ (if shortText then text "s" else text " Second(s).") else [])
    else []))%list.

Definition multiplier (c : Z) : option Z :=
  if c =? 100 then Some DAY else if c =? 104 then Some HOUR else if c =? 109 then Some MINUTE else if c =? 115 then Some 1 else None.

Fixpoint time_loop (timestring : list Z) (buffer secs : Z) : Z :=
  match timestring with
  | [] => secs
  | c :: timestring =>
    if is_digit c then time_loop timestring (uwrap 32 (uwrap 32 (buffer * 10) + (c - 48))) secs
    else match multiplier c with None => 0 | Some m => time_loop timestring 0 (uwrap 32 (secs + uwrap 32 (buffer * m))) end
  end.

Definition TimeStringToSecs (timestring : list Z) : Z := time_loop timestring 0 0.

(** ** Bytes as text *)

Definition nibble_char (nibble : Z) : Z := if nibble <? 0x0A then 48 + nibble else 65 + nibble - 0x0A.

Definition hexEncodeByteArray (bytes : list Z) : list Z :=
  bytes ≫= λ b, (λ j, nibble_char (Z.land 0x0F (Z.shiftr b ((1 - j) * 4)))) <$> [0; 1].

(** [sprintf("%02X")]: the digits of the number, at least two. *)
Fixpoint hex_digits (fuel : nat) (n : Z) (acc : list Z) : list Z :=
  match fuel with
  | O => acc
  | S fuel => let acc := nth (Z.to_nat (n mod 16)) (text "0123456789ABCDEF") 0 :: acc in if n / 16 =? 0 then acc else hex_digits fuel (n / 16) acc
  end.

Definition print_02X (n : Z) : list Z := let d := hex_digits 8 n [] in (replicate (2 - length d) 48 ++ d)%list.

Definition ByteArrayToHexStr (bytes : list Z) : list Z := bytes ≫= print_02X.
