(* ===== verification/PlayerNames.v ===== *)
(** * PlayerNames: names of players, pets and guild charters

    The functions on names of src/src/server/game/Globals/ObjectMgr.cpp. *)

From Stdlib Require Import ZArith Lia.
From S2P Require Import Prelude Field Utf8 DataStore Text.
Local Open Scope Z_scope.

Definition MAX_PLAYER_NAME : Z := 12.
Definition MAX_INTERNAL_PLAYER_NAME : Z := 15.
Definition MAX_PET_NAME : Z := 12.
Definition MAX_CHARTER_NAME : Z := 24.

Definition CHAR_NAME_SUCCESS : Z := 0x57.
Definition CHAR_NAME_TOO_SHORT : Z := 0x5A.
Definition CHAR_NAME_TOO_LONG : Z := 0x5B.
Definition CHAR_NAME_INVALID_CHARACTER : Z := 0x5C.
Definition CHAR_NAME_MIXED_LANGUAGES : Z := 0x5D.
Definition CHAR_NAME_THREE_CONSECUTIVE : Z := 0x62.

Definition PET_NAME_SUCCESS : Z := 0.
Definition PET_NAME_INVALID : Z := 1.
Definition PET_NAME_TOO_SHORT : Z := 3.
Definition PET_NAME_TOO_LONG : Z := 4.
Definition PET_NAME_MIXED_LANGUAGES : Z := 6.

(** The configuration the names depend on. *)
Record NameConfig := mkNameConfig {
  CONFIG_REALM_ZONE : Z;
  CONFIG_MIN_PLAYER_NAME : Z;
  CONFIG_STRICT_PLAYER_NAMES : Z;
  CONFIG_MIN_CHARTER_NAME : Z;
  CONFIG_STRICT_CHARTER_NAMES : Z;
  CONFIG_MIN_PET_NAME : Z;
  CONFIG_STRICT_PET_NAMES : Z
}.

(** What [LT_ANY], [LT_EAST_ASIA] and the others of [LanguageType] stand for. *)
Definition LT_BASIC_LATIN : Z := 0.
Definition LT_EXTENDEN_LATIN : Z := 1.
Definition LT_CYRILLIC : Z := 2.
Definition LT_EAST_ASIA : Z := 4.
Definition LT_ANY : Z := 0xFFFF.

Section Names.
Context {S : Type} (C : NameConfig).

(** Whether the name is accepted, and its normal form: the name of the caller is replaced. *)
Definition normalizePlayerName (name : list Z) : prog S fault (bool * list Z) :=
  match name with
  | [] => mret (false, name)
  | _ =>
    '(ok, wstr_buf, wstr_len) ← Utf8toWStr_array (MAX_INTERNAL_PLAYER_NAME + 1) name MAX_INTERNAL_PLAYER_NAME;
    if negb (ok : bool) then mret (false, name)
    else
      let folded := match wstr_buf with
                    | [] => []
                    | c :: buf => wcharToUpper c :: (wcharToLower <$> take (Z.to_nat wstr_len - 1) buf) ++ drop (Z.to_nat wstr_len - 1) buf
                    end in
      mret (WStrToUtf8 (take (Z.to_nat wstr_len) folded))
  end.

Definition GetRealmLanguageType (create : bool) : Z :=
  let zone := CONFIG_REALM_ZONE C in
  if (zone =? 0) || (zone =? 1) || (zone =? 26) || (zone =? 28) then LT_ANY
  else if (zone =? 2) || (zone =? 3) || (zone =? 4) || (zone =? 8) || (zone =? 9) || (zone =? 10) || (zone =? 11) then LT_EXTENDEN_LATIN
  else if (zone =? 6) || (zone =? 14) || (zone =? 16) then LT_EAST_ASIA
  else if zone =? 12 then LT_CYRILLIC
  else if create then LT_BASIC_LATIN else LT_ANY.

Definition isValidString (wstr : list Z) (strictMask : Z) (numericOrSpace create : bool) : bool :=
  if strictMask =? 0 then isExtendedLatinString wstr numericOrSpace || isCyrillicString wstr numericOrSpace || isEastAsianString wstr numericOrSpace
  else
    let lt := GetRealmLanguageType create in
    (has_bits strictMask 2 &&
     ((has_bits lt LT_EXTENDEN_LATIN && isExtendedLatinString wstr numericOrSpace) ||
      (has_bits lt LT_CYRILLIC && isCyrillicString wstr numericOrSpace) ||
      (has_bits lt LT_EAST_ASIA && isEastAsianString wstr numericOrSpace))) ||
    (has_bits strictMask 1 && isBasicLatinString wstr numericOrSpace).

(** Three equal characters in a row. *)
Fixpoint three_consecutive (wname : list Z) : bool :=
  match wname with
  | a :: l => match l with b :: c :: _ => ((c =? b) && (c =? a)) || three_consecutive l | _ => false end
  | [] => false
  end.

Definition CheckPlayerName (name : list Z) (create : bool) : prog S fault Z :=
  '(ok, wname) ← Utf8toWStr name [];
  mret (if negb (ok : bool) then CHAR_NAME_INVALID_CHARACTER
        else if MAX_PLAYER_NAME <? Z.of_nat (length wname) then CHAR_NAME_TOO_LONG
        else if Z.of_nat (length wname) <? CONFIG_MIN_PLAYER_NAME C then CHAR_NAME_TOO_SHORT
        else if negb (isValidString wname (CONFIG_STRICT_PLAYER_NAMES C) false create) then CHAR_NAME_MIXED_LANGUAGES
        else if three_consecutive (wstrToLower wname) then CHAR_NAME_THREE_CONSECUTIVE
        else CHAR_NAME_SUCCESS).

Definition IsValidCharterName (name : list Z) : prog S fault bool :=
  '(ok, wname) ← Utf8toWStr name [];
  mret ((ok : bool) && (Z.of_nat (length wname) <=? MAX_CHARTER_NAME) && (CONFIG_MIN_CHARTER_NAME C <=? Z.of_nat (length wname)) &&
        isValidString wname (CONFIG_STRICT_CHARTER_NAMES C) true false).

Definition CheckPetName (name : list Z) : prog S fault Z :=
  '(ok, wname) ← Utf8toWStr name [];
  mret (if negb (ok : bool) then PET_NAME_INVALID
        else if MAX_PET_NAME <? Z.of_nat (length wname) then PET_NAME_TOO_LONG
        else if Z.of_nat (length wname) <? CONFIG_MIN_PET_NAME C then PET_NAME_TOO_SHORT
        else if negb (isValidString wname (CONFIG_STRICT_PET_NAMES C) false false) then PET_NAME_MIXED_LANGUAGES
        else PET_NAME_SUCCESS).

(** ** Declined names *)

(** [std::out_of_range] ends the process as a failed assertion does: nobody catches it. *)
Definition main_part (wname : list Z) (declension : Z) : prog S fault (list Z) :=
  match GetMainPartOfName wname declension with Some w => mret w | None => throw AssertFailed end.

(** From the case [i] on; the flags say that all cases have the main part, or are the name. *)
Fixpoint declined_loop (names : list (list Z)) (i : Z) (mainpart w_ownname : list Z) (x y : bool) : prog S fault bool :=
  match names with
  | [] => mret (x || y)
  | name :: names =>
    '(ok, wname) ← Utf8toWStr name [];
    if negb (ok : bool) then mret false
    else
      part ← main_part wname (i + 1);
      declined_loop names (i + 1) mainpart w_ownname (x && bool_decide (mainpart = part)) (y && bool_decide (w_ownname = wname))
  end.

Definition CheckDeclinedNames (w_ownname : list Z) (names : list (list Z)) : prog S fault bool :=
  mainpart ← main_part w_ownname 0;
  declined_loop names 0 mainpart w_ownname true true.

End Names.

(** ** Reserved names *)

(** The set is the state; [rows] is the answer of the query for [reserved_name]. *)
Fixpoint reserve_rows (rows : list Field) : prog (gset (list Z)) fault unit :=
  match rows with
  | [] => mret tt
  | fields :: rows =>
    name ← GetString fields;
    '(ok, wstr) ← Utf8toWStr name [];
    (if ok : bool then modify (λ s, {[wstrToLower wstr]} ∪ s) else mret tt);;
    reserve_rows rows
  end.

Definition LoadReservedPlayersNames (rows : list Field) : prog (gset (list Z)) fault unit :=
  modify (λ _, ∅);; reserve_rows rows.

Definition IsReservedName (name : list Z) : prog (gset (list Z)) fault bool :=
  '(ok, wstr) ← Utf8toWStr name [];
  if negb (ok : bool) then mret false else reserved ← gets (λ s : gset (list Z), s); mret (bool_decide (wstrToLower wstr ∈ reserved)).
