(* ===== verification/TextProps.v ===== *)
(** * TextProps: what the text functions and the names promise

    Wide texts and back; which names are memory safe, and what their normal forms are; the
    in-place functions against reference definitions; times and bytes as text. *)

From Stdlib Require Import ZArith Lia String.
From S2P Require Import Prelude ByteBuffer Util Field Utf8 DataStore Text PlayerNames.
Local Open Scope Z_scope.

(** ** Wide texts *)

(** Code points that are one unit. *)
Definition one_unit (cp : Z) : bool := cp <=? 0xffff.

Lemma length_units cp : length (units cp) = if one_unit cp then 1%nat else 2%nat.
Proof. unfold units, one_unit. destruct (Z.ltb_spec 0xffff cp), (Z.leb_spec cp 0xffff); done || lia. Qed.

Definition all_units (l : list Z) : list Z := mjoin (units <$> l).

Lemma all_units_cons cp l : all_units (cp :: l) = units cp ++ all_units l.
Proof. done. Qed.

Lemma length_all_units l : (length l ≤ length (all_units l))%nat ∧ (length (all_units l) = length l ↔ Forall (λ cp, one_unit cp = true) l).
Proof.
  induction l as [|cp l [IH1 IH2]]; [by split|]. rewrite all_units_cons, length_app, length_units, Forall_cons, <- IH2. simpl.
  destruct (one_unit cp); split; (lia || (split; [intros; split; [done|lia]|intros [? ?]; (done || lia)])).
Qed.

Lemma one_units l : Forall valid_point l → Forall (λ cp, one_unit cp = true) l → all_units l = l.
Proof.
  intros Hv Ho. induction Ho as [|cp l Hc Ho IH]; [done|]. apply Forall_cons in Hv as [[H0 _] Hv]. rewrite all_units_cons, IH by done.
  unfold units, one_unit in *. apply Z.leb_le in Hc. destruct (Z.ltb_spec 0xffff cp); [lia|]. rewrite uwrap_small; [done|split; pow_consts; lia].
Qed.

Lemma WStrToUtf8_units l : Forall valid_point l → WStrToUtf8 (all_units l) = (true, encode l).
Proof.
  intros Hl. pose proof (utf16to8_units l Hl) as H. fold (all_units l) in H. unfold WStrToUtf8. rewrite H.
  destruct l as [|cp l]; [done|]. rewrite all_units_cons. pose proof (length_units cp). destruct (units cp) as [|]; [by destruct (one_unit cp)|done].
Qed.

(** C27. [Utf8toWStr] on any bytes: bytes that are not UTF-8 are refused; a text whose characters
    are one unit each becomes as many units, and [WStrToUtf8] makes the same text of them; and a
    text with a character of two units is written past the end of the wide string. *)
Theorem wide_text {S} (st : S) s : Forall (in_u 8) s →
  match distance s with
  | inl _ => Utf8toWStr s [] st = (Ret (false, []), st)
  | inr n => ∃ l, s = encode l ∧ Forall valid_point l ∧ n = Z.of_nat (length l) ∧
      if forallb one_unit l then ∃ w, Utf8toWStr s [] st = (Ret (true, w), st) ∧ Z.of_nat (length w) = n ∧ WStrToUtf8 w = (true, s)
      else Utf8toWStr s [] st = (Throw Undefined, st)
  end.
Proof.
  intros Hs. pose proof (distance_spec s Hs) as Hd. unfold Utf8toWStr. destruct (distance s) as [e|n]; [done|].
  destruct Hd as (l & -> & Hl & ->). exists l. split_and!; [done..|]. rewrite utf8to16_encode by done. fold (all_units l).
  destruct (length_all_units l) as [Hle Heq]. destruct (forallb one_unit l) eqn:Ho.
  - rewrite forallb_forall in Ho. assert (Forall (λ cp, one_unit cp = true) l) as Hone by (apply Forall_forall; intros x Hx; by apply Ho, list_elem_of_In).
    exists (all_units l). rewrite (proj2 Heq Hone). split_and!; [|done|by apply WStrToUtf8_units]. destruct l as [|cp l]; [done|].
    destruct (Z.eqb_spec (Z.of_nat (length (cp :: l))) 0); [simpl in *; lia|]. unfold write_units. rewrite (proj2 Heq Hone). by decide_cmp.
  - assert (length (all_units l) ≠ length l) as Hne.
    { intros H%Heq. apply not_true_iff_false in Ho. apply Ho. apply forallb_forall. intros x Hx%list_elem_of_In. by eapply Forall_forall in H. }
    destruct l as [|cp l]; [done|]. destruct (Z.eqb_spec (Z.of_nat (length (cp :: l))) 0); [simpl in *; lia|]. unfold write_units. by decide_cmp.
Qed.

(** ** Case *)

Fixpoint upto (n : nat) (z : Z) : list Z := match n with O => [] | S n => z :: upto n (z + 1) end.

Lemma elem_of_upto n z x : z ≤ x < z + Z.of_nat n → x ∈ upto n z.
Proof.
  revert z. induction n as [|n IH]; intros z H; [lia|]. cbn. destruct (decide (x = z)) as [->|]; [by left|]. right. apply IH. lia.
Qed.

(** A fact on all units, by evaluation. *)
Lemma all_16 (f : Z → bool) c : forallb f (upto (Z.to_nat 0x10000) 0) = true → 0 ≤ c ≤ 0xffff → f c = true.
Proof. intros H Hc. rewrite forallb_forall in H. apply H, list_elem_of_In, elem_of_upto. lia. Qed.

Definition good_case (c : Z) : bool :=
  (wcharToLower (wcharToUpper c) =? wcharToLower c) && (wcharToUpper (wcharToLower c) =? wcharToUpper c) &&
  (0 <=? wcharToUpper c) && (wcharToUpper c <=? 0xffff) && (0 <=? wcharToLower c) && (wcharToLower c <=? 0xffff) &&
  eqb (is_code_point_valid (wcharToUpper c)) (is_code_point_valid c) && eqb (is_code_point_valid (wcharToLower c)) (is_code_point_valid c).

Lemma case_table : forallb good_case (upto (Z.to_nat 0x10000) 0) = true.
Proof. vm_compute. exact eq_refl. Qed.

Definition bmp_point (cp : Z) : Prop := valid_point cp ∧ one_unit cp = true.

Lemma case_facts c : bmp_point c → wcharToLower (wcharToUpper c) = wcharToLower c ∧ wcharToUpper (wcharToLower c) = wcharToUpper c ∧
  bmp_point (wcharToUpper c) ∧ bmp_point (wcharToLower c).
Proof.
  intros [[H0 Hv] H1]. apply Z.leb_le in H1. pose proof (all_16 _ c case_table (conj H0 H1)) as H. unfold good_case in H.
  rewrite !andb_true_iff, !Z.leb_le, !Z.eqb_eq, !eqb_true_iff in H. destruct H as [[[[[[[? ?] ?] ?] ?] ?] Hu] Hl]. rewrite Hv in Hu, Hl.
  split_and!; [done..| |]; (split; [by split|]); by apply Z.leb_le.
Qed.

(** ** Names *)

(** The normal form: the first letter upper case, the others lower case. *)
Definition fold_name (l : list Z) : list Z := match l with [] => [] | c :: l => wcharToUpper c :: (wcharToLower <$> l) end.

Lemma fold_name_bmp l : Forall bmp_point l → Forall bmp_point (fold_name l).
Proof.
  destruct 1 as [|c l Hc Hl]; [done|]. constructor; [by apply case_facts|]. apply Forall_fmap. eapply Forall_impl; [done|]. intros x Hx. by apply case_facts.
Qed.

Lemma bmp_valid l : Forall bmp_point l → Forall valid_point l.
Proof. intros H. eapply Forall_impl; [done|]. by intros x [? _]. Qed.

Lemma bmp_units l : Forall bmp_point l → all_units l = l.
Proof. intros H. apply one_units; [by apply bmp_valid|]. eapply Forall_impl; [done|]. by intros x [_ ?]. Qed.

Lemma encode_nonempty cp l : valid_point cp → encode (cp :: l) ≠ [].
Proof. intros Hcp. destruct (next_encode cp l Hcp) as (c & t & _ & -> & _). done. Qed.

(** A name that is not too long, of characters of one unit. *)
Lemma normalize_bmp {S} (st : S) l : Forall bmp_point l → l ≠ [] → Z.of_nat (length l) ≤ MAX_INTERNAL_PLAYER_NAME →
  normalizePlayerName (encode l) st = (Ret (true, encode (fold_name l)), st).
Proof.
  intros Hl Hne Hlen. pose proof (bmp_valid l Hl) as Hv. unfold normalizePlayerName.
  destruct (encode l) as [|b s] eqn:He.
  { destruct l as [|cp l]; [done|]. apply Forall_cons in Hv as [Hcp _]. by apply encode_nonempty in He. }
  rewrite <- He. unfold Utf8toWStr_array. rewrite distance_encode, utf8to16_encode by (done || apply encode_bytes). fold (all_units l). rewrite bmp_units by done.
  unfold MAX_INTERNAL_PLAYER_NAME in *. decide_cmp. cbn [orb]. rewrite Nat2Z.id, firstn_all, drop_ge by lia.
  rewrite (bind_ret_run _ _ st (true, l ++ [0] ++ [], Z.of_nat (length l)) st) by done. cbn [negb].
  destruct l as [|c l]; [done|]. cbn [app length]. rewrite Nat2Z.id. replace (Datatypes.S (length l) - 1)%nat with (length l) by lia.
  rewrite (take_app_length l), (drop_app_length l). cbn [take]. rewrite (take_app_length' (wcharToLower <$> l)) by (by rewrite length_fmap).
  change (wcharToUpper c :: (wcharToLower <$> l)) with (fold_name (c :: l)). pose proof (fold_name_bmp (c :: l) Hl) as Hf.
  rewrite <- (bmp_units (fold_name (c :: l)) Hf) at 1. rewrite WStrToUtf8_units by (by apply bmp_valid). done.
Qed.

(** C25. Which names make [normalizePlayerName] write past the end of its array of sixteen units:
    those of at most fifteen characters that take more than sixteen units. Every other name, of
    whatever bytes, is refused or gets a normal form. *)
Theorem normalize_memory {S} (st : S) name : Forall (in_u 8) name →
  (∃ r, normalizePlayerName name st = (Ret r, st)) ∧ ¬ (∃ l, name = encode l ∧ Forall valid_point l ∧ (length l ≤ 15)%nat ∧ (16 < length (all_units l))%nat) ∨
  normalizePlayerName name st = (Throw Undefined, st) ∧ ∃ l, name = encode l ∧ Forall valid_point l ∧ (length l ≤ 15)%nat ∧ (16 < length (all_units l))%nat.
Proof.
  intros Hs. pose proof (distance_spec name Hs) as Hd. unfold normalizePlayerName. destruct name as [|b s] eqn:Hname.
  { left. split; [by eexists|]. intros (l & He & Hl & _ & Hu). destruct l as [|cp l]; [simpl in Hu; lia|]. apply Forall_cons in Hl as [Hcp _].
    by apply (encode_nonempty cp l Hcp). }
  rewrite <- Hname in *. unfold Utf8toWStr_array. change (0 <? MAX_INTERNAL_PLAYER_NAME) with true. change (MAX_INTERNAL_PLAYER_NAME + 1 <? 1) with false. cbn [andb].
  destruct (distance name) as [e|n] eqn:Hdist.
  { left. split; [by eexists|]. intros (l & He & Hl & _). by apply (Hd l). }
  destruct Hd as (l & -> & Hl & ->). unfold MAX_INTERNAL_PLAYER_NAME.
  assert (∀ l', Forall valid_point l' → encode l = encode l' → length l' = length l ∧ all_units l' = all_units l) as Huniq.
  { intros l' Hl' He. pose proof (distance_encode l Hl (encode_bytes l)) as H1. pose proof (distance_encode l' Hl' (encode_bytes l')) as H2. rewrite He, H2 in H1.
    pose proof (utf8to16_encode l Hl (encode_bytes l)) as H3. pose proof (utf8to16_encode l' Hl' (encode_bytes l')) as H4. rewrite He, H4 in H3.
    split; [injection H1; lia|by injection H3]. }
  destruct (Z.ltb_spec 15 (Z.of_nat (length l))).
  { left. split; [by eexists|]. intros (l' & He & Hl' & Hlen & _). destruct (Huniq l' Hl' He). lia. }
  rewrite utf8to16_encode by done. fold (all_units l). destruct (Z.ltb_spec (15 + 1) (Z.of_nat (length (all_units l)))).
  - right. split; [done|]. exists l. split_and!; done || lia.
  - left. decide_cmp. cbn [orb]. split; [by eexists|]. intros (l' & He & Hl' & _ & Hu). destruct (Huniq l' Hl' He) as [_ ?]. rewrite H1 in Hu. lia.
Qed.

(** C26. Names of up to fifteen characters of one unit have the same normal form exactly when
    they differ only in case, and the normal form is its own normal form. *)
Theorem normal_names {S} (st : S) l l' : Forall bmp_point l → Forall bmp_point l' → l ≠ [] → l' ≠ [] →
  (length l ≤ 15)%nat → (length l' ≤ 15)%nat → ∃ n n', 
  normalizePlayerName (encode l) st = (Ret (true, n), st) ∧ normalizePlayerName (encode l') st = (Ret (true, n'), st) ∧
  (n = n' ↔ wstrToLower l = wstrToLower l') ∧ normalizePlayerName n st = (Ret (true, n), st).
Proof.
  intros Hl Hl' Hne Hne' Hlen Hlen'. exists (encode (fold_name l)), (encode (fold_name l')).
  pose proof (fold_name_bmp l Hl) as Hf. pose proof (fold_name_bmp l' Hl') as Hf'.
  assert (∀ k, Forall bmp_point k → length (fold_name k) = length k ∧ wstrToLower (fold_name k) = wstrToLower k ∧ fold_name (fold_name k) = fold_name k) as Hfold.
  { intros k [|c r Hc Hr]; [done|]. unfold wstrToLower. cbn. rewrite length_fmap. destruct (case_facts c Hc) as (-> & Hu & _).
    assert (wcharToLower <$> (wcharToLower <$> r) = wcharToLower <$> r) as ->.
    { clear Hc. induction Hr as [|x r Hx Hr IH]; [done|]. cbn. rewrite IH. f_equal. destruct (case_facts x Hx) as (Hlo & Hup & _ & Hb).
      destruct (case_facts _ Hb) as (Hlo2 & _). congruence. }
    split_and!; [done..|]. f_equal. destruct (case_facts c Hc) as (Hlo & Hup & Hb & _). destruct (case_facts _ Hb) as (_ & Hup2 & _). congruence. }
  unfold MAX_INTERNAL_PLAYER_NAME. split_and!; [apply normalize_bmp; (done || unfold MAX_INTERNAL_PLAYER_NAME; lia)..| |].
  - split.
    + intros He. assert (fold_name l = fold_name l') as E.
      { pose proof (utf8to16_encode _ (bmp_valid _ Hf) (encode_bytes _)) as H1. pose proof (utf8to16_encode _ (bmp_valid _ Hf') (encode_bytes _)) as H2.
        fold (all_units (fold_name l)) in H1. fold (all_units (fold_name l')) in H2. rewrite bmp_units in H1, H2 by done. congruence. }
      destruct (Hfold l Hl) as (_ & <- & _). destruct (Hfold l' Hl') as (_ & <- & _). by rewrite E.
    + intros He. f_equal. destruct l as [|c r], l' as [|c' r']; try done. unfold wstrToLower in He. cbn in He. injection He as Hc Hr. cbn. f_equal; [|done].
      apply Forall_cons in Hl as [Hc1 _], Hl' as [Hc2 _]. destruct (case_facts c Hc1) as (_ & <- & _). destruct (case_facts c' Hc2) as (_ & <- & _). congruence.
  - destruct (Hfold l Hl) as (Hlf & _ & Hff). rewrite normalize_bmp; [by rewrite Hff|done| |].
    + intros E. apply (f_equal length) in E. rewrite Hlf in E. by destruct l.
    + rewrite Hlf. unfold MAX_INTERNAL_PLAYER_NAME. lia.
Qed.

(** ** Declined names *)

(** All endings fit in a name of two letters, and the first of the fifth declension only there. *)
Lemma drop_end_long ends w : Forall (λ e : list Z, (length e ≤ 2)%nat) ends → (2 ≤ length w)%nat → is_Some (drop_end ends w).
Proof.
  intros He Hw. induction He as [|e ends Hl _ IH]; [by eexists|]. cbn [drop_end]. destruct (Nat.ltb_spec (length w) (length e)); [lia|].
  case_decide; [by eexists|exact IH].
Qed.

Lemma drop_end_short ends w : Forall (λ e : list Z, length e = 1%nat) ends → (1 ≤ length w)%nat → is_Some (drop_end ends w).
Proof.
  intros He Hw. induction He as [|e ends Hl _ IH]; [by eexists|]. cbn [drop_end]. destruct (Nat.ltb_spec (length w) (length e)); [lia|].
  case_decide; [by eexists|exact IH].
Qed.

Lemma dropEnds_length d : Forall (λ e : list Z, (length e ≤ 2)%nat) (dropEnds d).
Proof. unfold dropEnds. repeat case_match; repeat constructor; simpl; lia. Qed.

Lemma dropEnds_one d : d ≠ 4 → Forall (λ e : list Z, length e = 1%nat) (dropEnds d).
Proof. intros Hd. unfold dropEnds. apply Z.eqb_neq in Hd. rewrite Hd. repeat case_match; repeat constructor. Qed.

(** C20. [GetMainPartOfName] throws, and nobody catches it, for exactly the names of one Cyrillic
    letter in the instrumental case, whose first endings have two letters. *)
Theorem main_part_throws wname declension :
  GetMainPartOfName wname declension = None ↔ ∃ c, wname = [c] ∧ isCyrillicCharacter c = true ∧ declension = 4.
Proof.
  destruct wname as [|c w]; cbn [GetMainPartOfName]; [split; [done|by intros (? & ? & _)]|].
  destruct (isCyrillicCharacter c) eqn:Hc; cbn [negb orb]; [|split; [done|intros (x & [= -> ->] & Hx & _); congruence]].
  destruct (Z.ltb_spec 5 declension); [split; [done|intros (_ & _ & _ & ->); lia]|]. destruct w as [|c2 w].
  - destruct (decide (declension = 4)) as [->|Hd]; [split; [intros _; by exists c|done]|].
    destruct (drop_end_short (dropEnds declension) [c] (dropEnds_one _ Hd) (le_n _)) as [x ->]. split; [done|by intros (? & _ & _ & ?)].
  - destruct (drop_end_long (dropEnds declension) (c :: c2 :: w) (dropEnds_length _)) as [x ->]; [simpl; lia|]. split; [done|by intros (? & ? & _)].
Qed.

(** ** Invisible characters *)

(** Runs of invisible characters become one space. *)
Fixpoint collapse (space : bool) (s : list Z) : list Z :=
  match s with
  | [] => []
  | c :: s => if invChar c then if space then collapse true s else 32 :: collapse true s else c :: collapse false s
  end.

Lemma poke_before str wpos pos c : (wpos ≤ pos)%nat → (pos < length str)%nat →
  ∃ str', poke str wpos c = Some str' ∧ length str' = length str ∧ take (S wpos) str' = take wpos str ++ [c] ∧ drop (S pos) str' = drop (S pos) str.
Proof.
  intros Hw Hp. unfold poke. destruct (Nat.ltb_spec wpos (length str)); [|lia]. eexists. split; [done|]. rewrite length_insert. split; [done|]. split.
  - rewrite (take_S_r _ _ c); [by rewrite take_insert_ge by lia|]. by rewrite list_lookup_insert_eq by lia.
  - by rewrite drop_insert_lt by lia.
Qed.

(** The loop writes behind itself, so it reads what was there before. *)
Lemma strip_loop_spec n pos wpos space str : (wpos ≤ pos)%nat → (n + pos = length str)%nat →
  ∃ str' wpos', strip_loop n pos wpos space str = Some (str', wpos') ∧ length str' = length str ∧
    take wpos' str' = take wpos str ++ collapse space (drop pos str) ∧ (wpos' ≤ length str)%nat.
Proof.
  revert pos wpos space str. induction n as [|n IH]; intros pos wpos space str Hw Hn.
  - exists str, wpos. rewrite drop_ge by lia. split_and!; [done|done|by rewrite app_nil_r|lia].
  - destruct (lookup_lt_is_Some_2 str pos ltac:(lia)) as [c Hc]. rewrite (drop_S _ _ _ Hc). cbn [strip_loop collapse]. rewrite Hc. cbn [mbind option_bind].
    destruct (invChar c) eqn:Hi; [destruct space|].
    + apply IH; lia.
    + destruct (poke_before str wpos pos 32 Hw ltac:(lia)) as (s1 & -> & Hl & Ht & Hd). cbn [mbind option_bind].
      destruct (IH (S pos) (S wpos) true s1 ltac:(lia) ltac:(lia)) as (s2 & w2 & -> & Hl2 & Ht2 & Hw2). exists s2, w2.
      rewrite Ht2, Ht, Hd, <- app_assoc. split_and!; [done|congruence|done|lia].
    + assert (∃ s1, (if (wpos =? pos)%nat then Some str else poke str wpos c) = Some s1 ∧ length s1 = length str ∧
        take (S wpos) s1 = take wpos str ++ [c] ∧ drop (S pos) s1 = drop (S pos) str) as (s1 & -> & Hl & Ht & Hd).
      { destruct (Nat.eqb_spec wpos pos) as [->|Hne]; [|by apply poke_before; lia]. exists str. split_and!; [done|done| |done]. by rewrite (take_S_r _ _ c). }
      cbn [mbind option_bind].
      destruct (IH (S pos) (S wpos) false s1 ltac:(lia) ltac:(lia)) as (s2 & w2 & -> & Hl2 & Ht2 & Hw2). exists s2, w2.
      rewrite Ht2, Ht, Hd, <- app_assoc. split_and!; [done|congruence|done|lia].
Qed.

(** C19. [stripLineInvisibleChars], which moves the characters inside the text, never leaves it and
    computes what the reference definition says: each run of spaces, tabs, bells and line ends is
    one space, and a text with an interface code left in it is emptied. *)
Theorem strip_in_place str : stripLineInvisibleChars str =
  Some (if contains (text "|TInterface") (collapse false str) then [] else collapse false str).
Proof.
  unfold stripLineInvisibleChars. destruct (strip_loop_spec (length str) 0 0 false str) as (s & w & -> & Hl & Ht & Hw); [done|lia|].
  cbn [mbind option_bind]. rewrite drop_0 in Ht. change (take w s = collapse false str) in Ht.
  assert ((if (w <? length s)%nat then take w s else s) = collapse false str) as ->; [|done].
  rewrite <- Ht. destruct (Nat.ltb_spec w (length s)); [done|]. by rewrite take_ge by lia.
Qed.

(** ** Time *)

(** The digits of a number are added up modulo [2^32]. *)
Lemma time_digits ds rest buffer secs : Forall (λ c, is_digit c = true) ds →
  time_loop (ds ++ rest) (uwrap 32 buffer) secs = time_loop rest (uwrap 32 (read_digits ds buffer)) secs.
Proof.
  intros Hd. revert buffer. induction Hd as [|c ds Hc _ IH]; intros buffer; [done|]. cbn [app time_loop read_digits]. rewrite Hc.
  rewrite <- IH. f_equal. unfold uwrap. rewrite Zplus_mod_idemp_l, <- Zplus_mod_idemp_l, Zmult_mod_idemp_l, Zplus_mod_idemp_l. f_equal. lia.
Qed.

Lemma time_number n c m rest secs : 0 ≤ n < 10 ^ 20 → multiplier c = Some m → is_digit c = false →
  time_loop (print_u64 n ++ c :: rest) 0 secs = time_loop rest 0 (uwrap 32 (secs + n * m)).
Proof.
  intros Hn Hm Hc. change 0 with (uwrap 32 0) at 1. rewrite time_digits by (apply print_u64_digits; lia).
  unfold print_u64. rewrite (read_dec_digits 20 n) by (done || lia). cbn [time_loop]. rewrite Hc, Hm. f_equal.
  unfold uwrap. rewrite Zplus_mod_idemp_r. rewrite <- Zplus_mod_idemp_r, Zmult_mod_idemp_l, Zplus_mod_idemp_r. done.
Qed.

(** An amount of nothing may be left out. *)
Lemma time_part (b : bool) n c m rest secs : 0 ≤ n < 10 ^ 20 → multiplier c = Some m → is_digit c = false → (b = false → n = 0) → in_u 32 secs →
  time_loop ((if b then print_u64 n ++ [c] else []) ++ rest) 0 secs = time_loop rest 0 (uwrap 32 (secs + n * m)).
Proof.
  intros Hn Hm Hc Hb Hs. destruct b.
  - rewrite <- app_assoc. by apply time_number.
  - rewrite (Hb eq_refl), Z.mul_0_l, Z.add_0_r, uwrap_small by done. done.
Qed.

(** The short text of a time of 64 bits is read back as the time modulo [2^32]: up to 136 years
    nothing is lost. *)
Theorem time_text_roundtrip t : in_u 64 t → TimeStringToSecs (secsToTimeString t true false) = uwrap 32 t.
Proof.
  intros [H0 Hm]. assert (t < 10 ^ 20) by (eapply Z.lt_trans; [exact Hm|by vm_compute]). unfold TimeStringToSecs, secsToTimeString. unfold DAY, HOUR, MINUTE.
  change (60 * 60 * 24) with 86400. change (60 * 60) with 3600. cbn [negb orb]. rewrite orb_false_r.
  change (text "d") with [100]. change (text "h") with [104]. change (text "m") with [109]. change (text "s") with [115].
  rewrite (time_part _ _ 100 86400); [|div_lia|done|done|by intros ?%negb_false_iff%Z.eqb_eq|by split].
  rewrite (time_part _ _ 104 3600); [|div_lia|done|done|by intros ?%negb_false_iff%Z.eqb_eq|by apply uwrap_range].
  rewrite (time_part _ _ 109 60); [|div_lia|done|done|by intros ?%negb_false_iff%Z.eqb_eq|by apply uwrap_range].
  match goal with |- context [if ?b then print_u64 (t mod 60) ++ _ else _] => rewrite <- (app_nil_r (if b then print_u64 (t mod 60) ++ [115] else [])) end.
  rewrite (time_part _ _ 115 1); [|div_lia|done|done|by intros [?%negb_false_iff%Z.eqb_eq _]%orb_false_iff|by apply uwrap_range].
  cbn [time_loop]. unfold uwrap. repeat (rewrite <- ?Z.add_assoc, Zplus_mod_idemp_l). f_equal.
  div_lia.
Qed.

(** ** Bytes as text *)

Definition same_hex (b : Z) : bool := bool_decide (print_02X b = (λ j, nibble_char (Z.land 0x0F (Z.shiftr b ((1 - j) * 4)))) <$> [0; 1]).

Lemma hex_table : forallb same_hex (upto 256 0) = true.
Proof. by vm_compute. Qed.

(** The two functions that write bytes in hexadecimal, one with shifts and one with [sprintf],
    write the same text. *)
Theorem hex_texts_agree bytes : Forall (in_u 8) bytes → ByteArrayToHexStr bytes = hexEncodeByteArray bytes.
Proof.
  induction 1 as [|b bytes [H0 H8] _ IH]; [done|]. unfold ByteArrayToHexStr, hexEncodeByteArray in *. rewrite !bind_cons, IH. f_equal.
  pose proof hex_table as H. rewrite forallb_forall in H. specialize (H b ltac:(apply list_elem_of_In, elem_of_upto; pow_consts; lia)).
  by apply bool_decide_eq_true in H.
Qed.

(** ** Concrete texts *)

Lemma byte_list_ok s : forallb (λ b, (0 <=? b) && (b <? 2 ^ 8)) s = true → Forall (in_u 8) s.
Proof.
  rewrite forallb_forall. intros H. apply Forall_forall. intros b Hb%list_elem_of_In%H. unfold in_u. apply andb_true_iff in Hb as [?%Z.leb_le ?%Z.ltb_lt]. by split.
Qed.

(** A letter of two bytes and one unit, and a character of four bytes and two units. *)
Definition e_acute : list Z := [0xC3; 0xA9].
Definition clef : list Z := [0xF0; 0x9D; 0x84; 0x9E].

Definition nine_clefs : list Z := mjoin (replicate 9 clef).

Lemma wide_text_witness : Forall (in_u 8) e_acute ∧ Utf8toWStr e_acute [] tt = (Ret (true, [0xE9]), tt) ∧
  ∃ l, e_acute = encode l ∧ Forall valid_point l ∧ 1 = Z.of_nat (length l) ∧
    if forallb one_unit l then ∃ w, Utf8toWStr e_acute [] tt = (Ret (true, w), tt) ∧ Z.of_nat (length w) = 1 ∧ WStrToUtf8 w = (true, e_acute)
    else Utf8toWStr e_acute [] tt = (Throw Undefined, tt).
Proof. split_and!; [by apply byte_list_ok|done|]. exact (wide_text tt e_acute (byte_list_ok e_acute eq_refl)). Defined.

(** A packet whose name has one such character is enough. *)
Example clef_overflows : Utf8toWStr clef [] tt = (Throw Undefined, tt).
Proof. by vm_compute. Qed.

Lemma normalize_memory_witness : Forall (in_u 8) nine_clefs ∧
  ((∃ r, normalizePlayerName nine_clefs tt = (Ret r, tt)) ∧ ¬ (∃ l, nine_clefs = encode l ∧ Forall valid_point l ∧ (length l ≤ 15)%nat ∧ (16 < length (all_units l))%nat) ∨
   normalizePlayerName nine_clefs tt = (Throw Undefined, tt) ∧ ∃ l, nine_clefs = encode l ∧ Forall valid_point l ∧ (length l ≤ 15)%nat ∧ (16 < length (all_units l))%nat).
Proof. split; [by apply byte_list_ok|]. exact (normalize_memory tt nine_clefs (byte_list_ok nine_clefs eq_refl)). Defined.

Example nine_clefs_overflow : normalizePlayerName nine_clefs tt = (Throw Undefined, tt).
Proof. by vm_compute. Qed.

Definition ANNA : list Z := text "ANNA".
Definition anna : list Z := text "anna".

Lemma latin_points l : forallb (λ c, (0 <=? c) && (c <? 128)) l = true → Forall bmp_point l.
Proof.
  rewrite forallb_forall. intros H. apply Forall_forall. intros c Hc%list_elem_of_In%H. apply andb_true_iff in Hc as [H0%Z.leb_le H1%Z.ltb_lt].
  split; [split; [done|]|by apply Z.leb_le; lia].
  unfold is_code_point_valid, is_surrogate, CODE_POINT_MAX, LEAD_SURROGATE_MIN, TRAIL_SURROGATE_MAX. repeat case_cmp; done || lia.
Qed.

Lemma normal_names_witness : ∃ n n', 
  normalizePlayerName (encode ANNA) tt = (Ret (true, n), tt) ∧ normalizePlayerName (encode anna) tt = (Ret (true, n'), tt) ∧
  (n = n' ↔ wstrToLower ANNA = wstrToLower anna) ∧ normalizePlayerName n tt = (Ret (true, n), tt).
Proof. apply (normal_names tt ANNA anna); first [by apply latin_points|done|by vm_compute; lia]. Defined.

Example anna_name : normalizePlayerName (text "aNNa") tt = (Ret (true, text "Anna"), tt).
Proof. by vm_compute. Qed.

Lemma time_text_roundtrip_witness : in_u 64 (2 ^ 32 + 90061) ∧ TimeStringToSecs (secsToTimeString (2 ^ 32 + 90061) true false) = uwrap 32 (2 ^ 32 + 90061).
Proof. split; [by split; vm_compute|apply time_text_roundtrip; by split; vm_compute]. Defined.

Example time_texts : secsToTimeString 90061 true false = text "1d1h1m1s" ∧ secsToTimeString 0 true false = text "0s" ∧ TimeStringToSecs (text "2h30m") = 9000 ∧
  TimeStringToSecs (text "1w") = 0.
Proof. by vm_compute. Qed.

Lemma hex_texts_agree_witness : Forall (in_u 8) [0; 10; 255] ∧ ByteArrayToHexStr [0; 10; 255] = hexEncodeByteArray [0; 10; 255].
Proof. split; [by apply byte_list_ok|apply hex_texts_agree; by apply byte_list_ok]. Defined.

(** A player whose name is one Cyrillic letter cannot ask for declined names. *)
Example one_letter : GetMainPartOfName [0x0430] 4 = None ∧ GetMainPartOfName [0x0430; 0x043D; 0x043E; 0x0439] 4 = Some [0x0430; 0x043D].
Proof. by vm_compute. Qed.

Example collapsed : stripLineInvisibleChars (text "a  b") = Some (text "a b") ∧ stripLineInvisibleChars (text "x|TInterface\Icons") = Some [].
Proof. by vm_compute. Qed.
